(* ===== verification/_CoqProject ===== *)
-Q . S2P
Prelude.v
Ring.v
CString.v
Layout.v
Kstruct.v
Kalloc.v
Vm.v
VmTables.v
VmOps.v
VmExample.v
VmCopy.v
VmFork.v
VmFree.v
Sleeplock.v
Bio.v
Log.v
LogSafe.v
Kernel.v
UserMem.v
Sched.v
Spinlock.v
SleepWake.v
Virtio.v
VirtioSafe.v
VirtioWait.v
Uart.v
KernelExample.v
Printf.v
Console.v
Fs.v
FsPath.v
FsTx.v
FsAlloc.v
FsIo.v
FsInode.v
FsDisk.v
FsFile.v
FsDir.v
FsExample.v
Mkfs.v
MkfsSafe.v
MkfsImage.v
Pipe.v
File.v
Args.v
Sysfile.v
Process.v
ProcMem.v
ProcLife.v
ProcWait.v
ProcExample.v
ProcGrow.v
Exec.v
ExecSafe.v
Syscall.v
Trap.v
Boot.v
Arm.v
TrapAsm.v
Entry.v
Ulib.v
Umalloc.v
UmallocSafe.v
Grep.v
Uprintf.v
Utils.v
Sh.v
ShRun.v
