(* ===== verification/Prelude.v ===== *)
(** A verification of xv6 for ARMv8: the kernel of [src/kernel], the library,
    the shell and [grep] of [src/user], and the image maker [src/mkfs].

    * The program

    The assembly of [entry.S] brings each CPU to [start], which sets up the
    components and enters the scheduler.  A trap goes through [trapasm.S] to
    [trap.c], which calls the interrupt handlers registered with [gic.c] or
    the system calls of [syscall.c].  The system calls use processes
    ([proc.c], [exec.c]) over page tables ([vm.c]) over the page allocator
    ([kalloc.c]); and open files ([file.c]): pipes, the console over the
    serial port, and files, which are a stack of inodes and directories
    ([fs.c]) over the log ([log.c]) over the buffer cache ([bio.c]) over the
    disk driver ([virtio_disk.c]).

    * How it is modelled

    C code is a function in the monad [M] of this file: the state goes in, an
    outcome comes out.  [Ok] is a return; [Panic] the kernel's panic, and also
    behaviour C leaves undefined, such as an index out of range; [Sleep] the
    call of [sleep] that gives up the CPU; [Gone] the last switch of a process
    that exits; [NoFuel] a loop with too little fuel.  The theorems are stated
    with [wp], which demands a return, so that they say that the code ends,
    does not panic and has fuel left; where code may wait, [wps] says when.
    Integers are [Z] with the conversions [u8] to [s64] written where C
    converts or wraps.  A pointer into an array of the kernel is an index;
    memory that code walks with addresses is a function from addresses to
    bytes.

    What is not in the sources is a parameter: the linker's addresses
    ([KernelEnd], [Symbols], [Tables]), the registers of the devices
    ([Platform], [UartReady], [DiskPresent]), the disk device
    ([VirtioDevice]), the system under the user library ([Libc], [Sbrk]) and
    the host of [mkfs] ([Host]).  Each has an instance in the examples that
    the theorems' witnesses use.

    * The files

    Shared: this file; [Ring] (ring buffers with free-running counters),
    [CString] (memory and [string.c]), [Layout] ([memlayout.h], [mmu.h],
    [param.h]).

    Memory: [Kalloc] is [kalloc.c], the free list threaded through the pages.
    [Kstruct] is [kstruct.c].  [Vm] is [vm.c]; [VmTables] its invariant, which
    gives every page in use one role (a table of a space or a page mapped in
    it), [VmOps], [VmCopy], [VmFork] and [VmFree] the theorems, [VmExample] a
    concrete space.

    The disk: [Bio] is [bio.c] with the LRU list as the source links it, [Log]
    and [LogSafe] are [log.c] and its crash safety, [Virtio], [VirtioSafe]
    and [VirtioWait] are [virtio_disk.c] as a machine of processes, the
    interrupt handler and the device.

    The kernel's state is the record of [Kernel]: tables of processes, inodes
    and open files over memory and log.  [UserMem] is the interface through
    which system calls see user memory, and that [Vm] implements it.  [Sched]
    and [Process] are [proc.c]; [ProcMem] accounts for every page of every
    process, [ProcLife], [ProcWait] and [ProcGrow] have the theorems on
    [fork], [wait] and [growproc], [ExecSafe] the one on the switch of [exec]
    to a new image, [ProcExample] a concrete table.  [Spinlock]
    and [SleepWake] are the locks and [sleep], [wakeup] and the scheduler
    under interleaving.  [Exec] is [exec.c], [Args] and [Syscall] are
    [syscall.c] and [sysproc.c].

    Files: [Fs] is [fs.c]; [FsPath] path names; [FsTx] what an operation sees
    of cache and log; [FsAlloc], [FsIo], [FsInode], [FsDisk], [FsFile] and
    [FsDir] go from the bitmap to directories; [FsExample] is a concrete disk.
    [Pipe], [File] and [Sysfile] are [pipe.c], [file.c] and [sysfile.c].
    [Mkfs] is [mkfs.c], [MkfsSafe] its invariant and [MkfsImage] the image.

    Devices: [Uart], [Console] and [Printf] are [uart.c], [console.c] and
    [printf.c]; [Trap] is [gic.c], [timer.c] and [trap.c]; [Boot] is
    [virtio_disk_init] and [start.c].  [Arm] is the part of AArch64 the
    assembly uses, [TrapAsm] is [trapasm.S], [swtch.S] and [usys.S], [Entry]
    is [entry.S].

    User programs: [Ulib] is [ulib.c], [Umalloc] and [UmallocSafe] are
    [umalloc.c], [Uprintf] is [user/printf.c], [Grep] is [grep.c], [Utils] has
    [echo], [cat], [wc] and [xargs], [Sh] and [ShRun] are [sh.c].

    * What is shown

    Refinement.  Sequences of [kalloc] and [kfree] are an abstract pool of
    pages.  The buffer cache is one copy of each block, over a disk that the
    driver implements in every interleaving with a device that keeps to the
    virtio specification.  The console's interrupt handler is a line editor,
    a running pipeline has the descriptors the command denotes.  The image of
    [mkfs] is a file system in the sense of the kernel.

    Crash safety.  After a crash at any disk write of a commit, recovery
    leaves all blocks of the transaction or none.

    Functional behaviour on every branch: page tables ([uvmalloc], [uvmcopy],
    [uvmfree], [copyout]), with every page accounted for also when memory runs
    out; [fork], [wait], [growproc] and the second half of [exec]; the bitmap, [readi], [writei] and
    [dirlink] on files as byte sequences and directories as lists of entries;
    pipes and the console; the timer interrupt; booting; [malloc] and [free];
    [printf] of the user library and the filters [cat], [wc] and [xargs].

    Concurrency.  Mutual exclusion of spin locks in every interleaving of the
    CPUs; no lost wakeup and progress of sleep locks; processes in the disk
    driver sleep for a reason only.

    Assembly.  An interrupt is transparent to the code it interrupts, a system
    call stub returns what the handler left, a switched-out thread resumes
    where it was, and each CPU reaches [start] with translation on.

    Languages.  [grep]'s matcher accepts the language of the pattern; the
    shell's parser ends on every line and inverts printing.

    * Fuel and bounds

    Loops over tables, pages and list entries recurse on the number of steps
    left.  Other loops have fuel computed from their arguments, and the
    theorems show it is enough: one more than the distance between the
    pointers ([walk], the copies), the passes over blocks ([readi], [writei]),
    the size of the list ([bget], [free], [malloc]), the length of the text
    (the parser, the matcher).  [NPROC], [NINODE], [NBUF], [LOGSIZE] and the
    other limits are those of the headers.

    * Not modelled

    Spin locks inside the sequential components: a section under a lock is
    one step, which [Spinlock] justifies for the locks themselves.  Waiting
    ends a sequential run; what happens between is the subject of [SleepWake]
    and [VirtioWait].  Caches and barriers of the CPU: [Arm] executes
    instructions in order.  Text printed by [mkfs], and by [mappages] when
    [walk] fails.  In [runcmd] of the shell [fork] and [exec] succeed, and the
    waits and closes of the parent, which start no program, are left out.
    The process table and the pipes are records, not bytes of the memory that
    [kalloc] manages: [wait] hands the exit status to [copyout] by way of a
    local of the kernel.
    [sbrk] is a parameter of [malloc], with its promise in [UmallocSafe].
    [main] of the shell, [_main] and [stat] of the library and the other user
    programs: their work is a few system calls.  [usertests.c] and
    [grind.c]: they are tests of the kernel.  [initcode.S] is a parameter of
    [userinit].  [types.h], [defs.h] and [user.h] declare names; link scripts
    and the Makefile fix the addresses that are parameters here. *)

From stdpp Require Export prelude list strings.
From Stdlib Require Export ZArith Lia.
#[global] Open Scope Z_scope.

(** * Machine integers

    A C integer is a [Z]; the conversions below are written wherever the
    source converts or wraps. *)

Definition u8 (x : Z) : Z := x mod 2 ^ 8.
Definition u16 (x : Z) : Z := x mod 2 ^ 16.
Definition u32 (x : Z) : Z := x mod 2 ^ 32.
Definition u64 (x : Z) : Z := x mod 2 ^ 64.

Definition s16 (x : Z) : Z :=
  let y := x mod 2 ^ 16 in if y <? 2 ^ 15 then y else y - 2 ^ 16.
Definition s32 (x : Z) : Z :=
  let y := x mod 2 ^ 32 in if y <? 2 ^ 31 then y else y - 2 ^ 32.
Definition s64 (x : Z) : Z :=
  let y := x mod 2 ^ 64 in if y <? 2 ^ 63 then y else y - 2 ^ 64.

(** C's truth values. *)
Definition b2z (b : bool) : Z := if b then 1 else 0.
Definition ctrue (x : Z) : bool := negb (x =? 0).

(** [zlia] is [lia] with the division and remainder equations added. *)
Ltac zlia := unfold u8, u16, u32, u64 in *; Z.div_mod_to_equations; lia.

Lemma u32_small x : 0 <= x < 2 ^ 32 -> u32 x = x.
Proof. intros. by apply Z.mod_small. Qed.

Lemma u64_small x : 0 <= x < 2 ^ 64 -> u64 x = x.
Proof. intros. by apply Z.mod_small. Qed.

Lemma u8_small x : 0 <= x < 2 ^ 8 -> u8 x = x.
Proof. intros. by apply Z.mod_small. Qed.

Lemma u16_small x : 0 <= x < 2 ^ 16 -> u16 x = x.
Proof. intros. by apply Z.mod_small. Qed.

Lemma s32_small x : - 2 ^ 31 <= x < 2 ^ 31 -> s32 x = x.
Proof.
  intros. unfold s32. destruct (Z.ltb_spec (x mod 2 ^ 32) (2 ^ 31)); zlia.
Qed.

Lemma s64_small x : - 2 ^ 63 <= x < 2 ^ 63 -> s64 x = x.
Proof.
  intros. unfold s64. destruct (Z.ltb_spec (x mod 2 ^ 64) (2 ^ 63)); zlia.
Qed.

Lemma s32_range x : - 2 ^ 31 <= s32 x < 2 ^ 31.
Proof. unfold s32. destruct (Z.ltb_spec (x mod 2 ^ 32) (2 ^ 31)); zlia. Qed.

Lemma u32_range x : 0 <= u32 x < 2 ^ 32.
Proof. unfold u32. by apply Z.mod_pos_bound. Qed.

Lemma u64_range x : 0 <= u64 x < 2 ^ 64.
Proof. unfold u64. by apply Z.mod_pos_bound. Qed.

Lemma u32_add_l x y : u32 (u32 x + y) = u32 (x + y).
Proof. unfold u32. by rewrite Zplus_mod_idemp_l. Qed.

Lemma u64_add_l x y : u64 (u64 x + y) = u64 (x + y).
Proof. unfold u64. by rewrite Zplus_mod_idemp_l. Qed.

Lemma u64_add_r x y : u64 (x + u64 y) = u64 (x + y).
Proof. unfold u64. by rewrite Zplus_mod_idemp_r. Qed.

Lemma u64_idemp x : u64 (u64 x) = u64 x.
Proof. unfold u64. by rewrite Z.mod_mod. Qed.

Create Rewrite HintDb cint.
#[export] Hint Rewrite u8_small u16_small u32_small u64_small s32_small s64_small
  using lia : cint.

#[global] Opaque Z.shiftl Z.shiftr Z.land Z.lor Z.lnot.

(** * Outcomes of kernel code

    [Ok] is a normal return.  [Panic] is the [panic] macro, which never
    returns; the state is kept because the disk survives a panic.  [Sleep]
    is a call to [sleep] that has to wait for another process.  [Gone] is the
    last call to [sched] of a process that exits.  [NoFuel] is a loop that was
    given too little fuel. *)

(** The addresses the kernel passes to [sleep] and [wakeup]. *)
Inductive chan : Type :=
  | ChanLog
  | ChanTicks
  | ChanConsR
  | ChanUartTxR
  | ChanDiskFree
  | ChanBuf (b : nat)
  | ChanSleeplockBuf (b : nat)
  | ChanSleeplockInode (i : nat)
  | ChanPipeRead (pi : Z)
  | ChanPipeWrite (pi : Z)
  | ChanProc (p : nat).

#[export] Instance chan_eq_dec : EqDecision chan.
Proof. solve_decision. Defined.

Inductive outcome (S A : Type) : Type :=
  | Ok (a : A) (s : S)
  | Panic (msg : string) (s : S)
  | Sleep (ch : chan) (s : S)
  | Gone (s : S)
  | NoFuel (s : S).
Arguments Ok {S A} a s.
Arguments Panic {S A} msg s.
Arguments Sleep {S A} ch s.
Arguments Gone {S A} s.
Arguments NoFuel {S A} s.

Definition M (S A : Type) : Type := S -> outcome S A.

#[export] Instance M_ret {S} : MRet (M S) := fun A a s => Ok a s.
#[export] Instance M_bind {S} : MBind (M S) := fun A B f m s =>
  match m s with
  | Ok a s' => f a s'
  | Panic msg s' => Panic msg s'
  | Sleep ch s' => Sleep ch s'
  | Gone s' => Gone s'
  | NoFuel s' => NoFuel s'
  end.

Definition gets {S A} (f : S -> A) : M S A := fun s => Ok (f s) s.
Definition modify {S} (f : S -> S) : M S unit := fun s => Ok tt (f s).
Definition panic {S A} (msg : string) : M S A := fun s => Panic msg s.
Definition sleep_on {S A} (ch : chan) : M S A := fun s => Sleep ch s.
(** Behaviour the C standard leaves undefined, such as an array access out of
    range, ends the run. *)
Definition undefined {S A} (what : string) : M S A := panic ("undefined: " ++ what).
Definition gone {S A} : M S A := fun s => Gone s.
Definition nofuel {S A} : M S A := fun s => NoFuel s.

(** [when b m] is C's [if (b) m;]. *)
Definition when {S} (b : bool) (m : M S unit) : M S unit :=
  if b then m else mret tt.

(** [loop fuel body l]: the body either goes on with new loop variables
    ([inl]) or leaves the loop with a value ([inr]). *)
Fixpoint loop {S L A} (fuel : nat) (body : L -> M S (L + A)) (l : L) : M S A :=
  match fuel with
  | O => nofuel
  | Datatypes.S fuel' => r ← body l;
             match r with
             | inl l' => loop fuel' body l'
             | inr a => mret a
             end
  end.

(** A computation on a part of a larger state. *)
Definition zoom {K S A} (get : K -> S) (put : S -> K -> K) (m : M S A) : M K A :=
  fun k =>
    match m (get k) with
    | Ok a s => Ok a (put s k)
    | Panic msg s => Panic msg (put s k)
    | Sleep ch s => Sleep ch (put s k)
    | Gone s => Gone (put s k)
    | NoFuel s => NoFuel (put s k)
    end.

(** * Total correctness

    [wp m s Q]: run from [s], [m] returns normally (no panic, no wait, fuel
    to spare) and its result and final state satisfy [Q]. *)
Definition wp {S A} (m : M S A) (s : S) (Q : A -> S -> Prop) : Prop :=
  match m s with
  | Ok a s' => Q a s'
  | _ => False
  end.

Section wp_rules.
Context {S : Type}.

Lemma wp_ret {A} (a : A) (s : S) (Q : A -> S -> Prop) : Q a s -> wp (mret a) s Q.
Proof. done. Qed.

Lemma wp_bind {A B} (m : M S A) (f : A -> M S B) s (Q : B -> S -> Prop) :
  wp m s (fun a s' => wp (f a) s' Q) -> wp (m ≫= f) s Q.
Proof. unfold wp, mbind, M_bind. by destruct (m s). Qed.

Lemma wp_assoc {A B C} (m : M S A) (f : A -> M S B) (g : B -> M S C) s (Q : C -> S -> Prop) :
  wp ((m ≫= f) ≫= g) s Q -> wp (m ≫= fun a => f a ≫= g) s Q.
Proof. unfold wp, mbind, M_bind. by destruct (m s). Qed.

Lemma wp_mono {A} (m : M S A) s (P Q : A -> S -> Prop) :
  wp m s P -> (forall a s', P a s' -> Q a s') -> wp m s Q.
Proof. unfold wp. destruct (m s); auto. Qed.

Lemma wp_gets {A} (f : S -> A) s (Q : A -> S -> Prop) : Q (f s) s -> wp (gets f) s Q.
Proof. done. Qed.

Lemma wp_modify (f : S -> S) s (Q : unit -> S -> Prop) :
  Q tt (f s) -> wp (modify f) s Q.
Proof. done. Qed.

Lemma wp_ok {A} (m : M S A) s a s' (Q : A -> S -> Prop) :
  m s = Ok a s' -> Q a s' -> wp m s Q.
Proof. unfold wp. by intros ->. Qed.

Lemma wp_ext {A} (m m' : M S A) s (Q : A -> S -> Prop) : m s = m' s -> wp m' s Q -> wp m s Q.
Proof. unfold wp. by intros ->. Qed.

Lemma wp_inv {A} (m : M S A) s (Q : A -> S -> Prop) :
  wp m s Q -> exists a s', m s = Ok a s' /\ Q a s'.
Proof. unfold wp. destruct (m s); [eauto | done..]. Qed.

(** A loop with an invariant and a decreasing measure ends within any fuel
    above the measure. *)
Lemma wp_loop {L A} (I : L -> S -> Prop) (mu : L -> S -> nat) (Q : A -> S -> Prop)
    (body : L -> M S (L + A)) fuel l s :
  (forall l s, I l s ->
     wp (body l) s (fun r s' =>
       match r with
       | inl l' => I l' s' /\ (mu l' s' < mu l s)%nat
       | inr a => Q a s'
       end)) ->
  I l s -> (mu l s < fuel)%nat -> wp (loop fuel body l) s Q.
Proof.
  intros Hbody. revert l s. induction fuel as [|fuel IH]; intros l s HI Hmu; [lia|].
  simpl. apply wp_bind. eapply wp_mono; [by apply Hbody|].
  intros [l'|a] s'; simpl; [|by intros; apply wp_ret].
  intros [HI' Hlt]. apply IH; [done|lia].
Qed.

Lemma bind_ok {A B} (m : M S A) (f : A -> M S B) s a s' :
  m s = Ok a s' -> (m ≫= f) s = f a s'.
Proof. unfold mbind, M_bind. by intros ->. Qed.
Lemma loop_next {L A} (body : L -> M S (L + A)) fuel l s l' s' :
  body l s = Ok (inl l') s' -> loop (Datatypes.S fuel) body l s = loop fuel body l' s'.
Proof. intros H. simpl. unfold mbind, M_bind. by rewrite H. Qed.

Lemma loop_exit {L A} (body : L -> M S (L + A)) fuel l s a s' :
  body l s = Ok (inr a) s' -> loop (Datatypes.S fuel) body l s = Ok a s'.
Proof. intros H. simpl. unfold mbind, M_bind. by rewrite H. Qed.
End wp_rules.

Lemma wp_zoom {K S A} (get : K -> S) (put : S -> K -> K) (m : M S A) k Q :
  wp m (get k) (fun a s => Q a (put s k)) -> wp (zoom get put m) k Q.
Proof. unfold wp, zoom. by destruct (m (get k)). Qed.

(** [wps m s Q W]: [m] returns with [Q], or waits on a channel with [W]. *)
Definition wps {S A} (m : M S A) (s : S) (Q : A -> S -> Prop) (W : chan -> S -> Prop) : Prop :=
  match m s with
  | Ok a s' => Q a s'
  | Sleep ch s' => W ch s'
  | _ => False
  end.

Section wps_rules.
Context {S : Type}.

Lemma wps_wp {A} (m : M S A) s (Q : A -> S -> Prop) W : wp m s Q -> wps m s Q W.
Proof. unfold wp, wps. by destruct (m s). Qed.

Lemma wps_bind {A B} (m : M S A) (f : A -> M S B) s (Q : B -> S -> Prop) W :
  wps m s (fun a s' => wps (f a) s' Q W) W -> wps (m ≫= f) s Q W.
Proof. unfold wps, mbind, M_bind. by destruct (m s). Qed.

Lemma wps_assoc {A B C} (m : M S A) (f : A -> M S B) (g : B -> M S C) s (Q : C -> S -> Prop) W :
  wps ((m ≫= f) ≫= g) s Q W -> wps (m ≫= fun a => f a ≫= g) s Q W.
Proof. unfold wps, mbind, M_bind. by destruct (m s). Qed.

Lemma wps_mono {A} (m : M S A) s (P Q : A -> S -> Prop) (V W : chan -> S -> Prop) :
  wps m s P V -> (forall a s', P a s' -> Q a s') -> (forall c s', V c s' -> W c s') ->
  wps m s Q W.
Proof. unfold wps. destruct (m s); auto. Qed.

Lemma wps_sleep {A} ch s (Q : A -> S -> Prop) (W : chan -> S -> Prop) :
  W ch s -> wps (sleep_on ch) s Q W.
Proof. done. Qed.

Lemma wps_loop {L A} (I : L -> S -> Prop) (mu : L -> S -> nat) (Q : A -> S -> Prop) W
    (body : L -> M S (L + A)) fuel l s :
  (forall l s, I l s ->
     wps (body l) s (fun r s' =>
       match r with
       | inl l' => I l' s' /\ (mu l' s' < mu l s)%nat
       | inr a => Q a s'
       end) W) ->
  I l s -> (mu l s < fuel)%nat -> wps (loop fuel body l) s Q W.
Proof.
  intros Hbody. revert l s. induction fuel as [|fuel IH]; intros l s HI Hmu; [lia|].
  simpl. apply wps_bind. eapply wps_mono; [by apply Hbody| |done].
  intros [l'|a] s'; simpl; [|by intros; apply wps_wp, wp_ret].
  intros [HI' Hlt]. apply IH; [done|lia].
Qed.
End wps_rules.

#[global] Opaque wp wps.

(** [wp_step] runs one primitive step of a monadic program. *)
Ltac wp_step :=
  first [ apply wp_bind
        | apply wp_gets
        | apply wp_modify
        | apply wp_ret ].

Ltac wp_steps := repeat (wp_step; simpl).

(** The same under [wps]. *)
Ltac wps_steps :=
  repeat (first [ apply wps_bind
                | apply wps_wp, wp_gets
                | apply wps_wp, wp_modify
                | apply wps_wp, wp_ret ]; simpl).

(** * Bounded integer intervals *)

(** [range a n] is [a; a+1; ...; a+n-1]. *)
Fixpoint range (a : Z) (n : nat) : list Z :=
  match n with
  | O => []
  | Datatypes.S n' => a :: range (a + 1) n'
  end.

Lemma elem_of_range x a n : x ∈ range a n <-> a <= x < a + Z.of_nat n.
Proof.
  revert a. induction n as [|n IH]; intros a; simpl.
  - split; [by intros ?%elem_of_nil|lia].
  - rewrite elem_of_cons, IH. lia.
Qed.

Lemma length_range a n : length (range a n) = n.
Proof. revert a. induction n as [|n IH]; intros a; simpl; auto. Qed.

Lemma NoDup_range a n : NoDup (range a n).
Proof.
  revert a. induction n as [|n IH]; intros a; simpl; constructor; auto.
  rewrite elem_of_range. lia.
Qed.

Lemma lookup_range a n i : (i < n)%nat -> range a n !! i = Some (a + Z.of_nat i).
Proof.
  revert a i. induction n as [|n IH]; intros a [|i] Hi; simpl; try lia.
  - f_equal. lia.
  - rewrite IH by lia. f_equal. lia.
Qed.
