(* ===== verification/Ring.v ===== *)
(** Ring buffers with free-running counters, as the pipes, the console and the
    serial port use them: entry [i] is at index [i % N], the counters wrap at
    [W], a multiple of [N]. *)

From S2P Require Import Prelude.

Section ring.
Variables (N W : Z).
Hypothesis HN : 0 < N < W.
Hypothesis HW : (N | W).

(** The entries from [r] to [w] are the queue [q]. *)
Record ring_rep (buf : list Z) (r w : Z) (q : list Z) : Prop := {
  rg_buf : length buf = Z.to_nat N;
  rg_r : 0 <= r < W;
  rg_w : 0 <= w < W;
  rg_len : Z.of_nat (length q) = (w - r) mod W;
  rg_max : Z.of_nat (length q) <= N;
  rg_at : forall i b, q !! i = Some b -> buf !! Z.to_nat ((r + Z.of_nat i) mod N) = Some b;
}.

Lemma ring_mod x : (x mod W) mod N = x mod N.
Proof. by apply Z.mod_mod_divide. Qed.

Lemma ring_w_mod buf r w q : ring_rep buf r w q -> w = (r + Z.of_nat (length q)) mod W.
Proof.
  intros [_ Hr Hw Hl _ _]. rewrite Hl, Zplus_mod_idemp_r.
  replace (r + (w - r)) with w by lia. by rewrite Z.mod_small.
Qed.

Lemma ring_empty buf r w q : ring_rep buf r w q -> r = w <-> q = [].
Proof.
  intros H. split.
  - intros ->. apply length_zero_iff_nil. pose proof (rg_len _ _ _ _ H) as E.
    rewrite Z.sub_diag, Zmod_0_l in E. lia.
  - intros ->. pose proof (ring_w_mod _ _ _ _ H) as E. simpl in E.
    rewrite Z.add_0_r, Z.mod_small in E by apply H. done.
Qed.

Lemma mod_cases a b : 0 <= a < 2 * W -> 0 <= b < 2 * W -> a mod W = b mod W ->
  a = b \/ a = b + W \/ b = a + W.
Proof.
  intros Ha Hb E. pose proof (Z.div_mod a W ltac:(lia)). pose proof (Z.div_mod b W ltac:(lia)).
  assert (0 <= a / W < 2) by (split; [apply Z.div_pos; lia|apply Z.div_lt_upper_bound; lia]).
  assert (0 <= b / W < 2) by (split; [apply Z.div_pos; lia|apply Z.div_lt_upper_bound; lia]).
  assert (a / W = 0 \/ a / W = 1) as [E1|E1] by lia; rewrite E1 in *;
    assert (b / W = 0 \/ b / W = 1) as [E2|E2] by lia; rewrite E2 in *; lia.
Qed.

Lemma ring_full buf r w q :
  ring_rep buf r w q -> w = (r + N) mod W <-> Z.of_nat (length q) = N.
Proof.
  intros H. pose proof (ring_w_mod _ _ _ _ H) as E. pose proof (rg_r _ _ _ _ H).
  pose proof (rg_max _ _ _ _ H). split; [|congruence].
  intros E'. rewrite E in E'. apply mod_cases in E' as [?|[?|?]]; lia.
Qed.

Lemma ring_index_ne r (i : nat) (n : nat) :
  (i < n)%nat -> Z.of_nat n < N -> (r + Z.of_nat n) mod N <> (r + Z.of_nat i) mod N.
Proof.
  intros Hi Hn E.
  assert (E' : (Z.of_nat n - Z.of_nat i) mod N = 0).
  { replace (Z.of_nat n - Z.of_nat i) with (r + Z.of_nat n - (r + Z.of_nat i)) by lia.
    rewrite Zminus_mod, E, Z.sub_diag. apply Zmod_0_l. }
  rewrite Z.mod_small in E' by lia. lia.
Qed.

Lemma ring_push buf r w q c :
  ring_rep buf r w q -> Z.of_nat (length q) < N ->
  ring_rep (<[Z.to_nat (w mod N) := c]> buf) r ((w + 1) mod W) (q ++ [c]).
Proof.
  intros H Hlt. pose proof (ring_w_mod _ _ _ _ H) as Ew. destruct H as [Hb Hr Hw Hl Hm Ha].
  pose proof (Z.mod_pos_bound (r + Z.of_nat (length q)) N ltac:(lia)).
  assert (Ei : w mod N = (r + Z.of_nat (length q)) mod N) by (rewrite Ew; apply ring_mod).
  split.
  - by rewrite length_insert.
  - done.
  - apply Z.mod_pos_bound. lia.
  - rewrite length_app. simpl. rewrite Nat2Z.inj_add, Hl, Zminus_mod_idemp_l.
    replace (w + 1 - r) with (w - r + 1) by lia. rewrite <- (Zplus_mod_idemp_l (w - r)).
    rewrite <- Hl. rewrite Z.mod_small by lia. lia.
  - rewrite length_app. simpl. lia.
  - intros i b [Hi|[Hge Hi]]%lookup_app_Some.
    + pose proof (lookup_lt_Some _ _ _ Hi). rewrite Ei, list_lookup_insert_ne; [by apply Ha|].
      pose proof (ring_index_ne r i (length q) ltac:(lia) ltac:(lia)).
      pose proof (Z.mod_pos_bound (r + Z.of_nat i) N ltac:(lia)). lia.
    + apply list_lookup_singleton_Some in Hi as [Hi ->].
      replace i with (length q) by lia. rewrite Ei. apply list_lookup_insert_eq. rewrite Hb. lia.
Qed.

Lemma ring_pop buf r w c q :
  ring_rep buf r w (c :: q) ->
  buf !! Z.to_nat (r mod N) = Some c /\ ring_rep buf ((r + 1) mod W) w q.
Proof.
  intros [Hb Hr Hw Hl Hm Ha]. simpl length in *. split.
  - rewrite <- (Ha 0%nat c) by done. do 2 f_equal. by rewrite Z.add_0_r.
  - split; try done.
    + apply Z.mod_pos_bound. lia.
    + rewrite Zminus_mod_idemp_r. replace (w - (r + 1)) with (w - r - 1) by lia.
      rewrite <- (Zminus_mod_idemp_l (w - r)), <- Hl, Z.mod_small by lia. lia.
    + lia.
    + intros i b Hi. rewrite <- (Ha (S i) b) by done. do 2 f_equal.
      rewrite <- (ring_mod (_ mod W + _)), Zplus_mod_idemp_l, ring_mod. f_equal. lia.
Qed.

(** The newest entry, and the ring without it. *)
Lemma ring_last buf r w q c :
  ring_rep buf r w (q ++ [c]) ->
  buf !! Z.to_nat (((w - 1) mod W) mod N) = Some c /\ ring_rep buf r ((w - 1) mod W) q.
Proof.
  intros H. pose proof (ring_w_mod _ _ _ _ H) as Ew. destruct H as [Hb Hr Hw Hl Hm Ha].
  rewrite length_app in *. simpl in *. split.
  - rewrite <- (Ha (length q) c) by (rewrite lookup_app_r, Nat.sub_diag by lia; done).
    do 2 f_equal. rewrite ring_mod, Ew.
    rewrite <- (ring_mod (_ mod W - 1)), Zminus_mod_idemp_l, ring_mod. f_equal. lia.
  - split; try done.
    + apply Z.mod_pos_bound. lia.
    + rewrite Zminus_mod_idemp_l. replace (w - 1 - r) with (w - r - 1) by lia.
      rewrite <- (Zminus_mod_idemp_l (w - r)), <- Hl, Z.mod_small by lia. lia.
    + lia.
    + intros i b Hi. apply Ha. by apply lookup_app_l_Some.
Qed.

(** The queue without its first entries. *)
Lemma ring_drop buf r w q l :
  ring_rep buf r w (q ++ l) -> ring_rep buf ((r + Z.of_nat (length q)) mod W) w l.
Proof.
  intros [Hb Hr Hw Hl Hm Ha]. rewrite length_app in *. split; try done.
  - apply Z.mod_pos_bound. lia.
  - rewrite Zminus_mod_idemp_r. replace (w - (r + Z.of_nat (length q))) with (w - r - Z.of_nat (length q)) by lia.
    rewrite <- (Zminus_mod_idemp_l (w - r)), <- Hl, Z.mod_small by lia. lia.
  - lia.
  - intros i b Hi. rewrite <- (Ha (length q + i)%nat b) by (rewrite lookup_app_r, Nat.add_comm, Nat.add_sub by lia; done).
    do 2 f_equal. rewrite <- (ring_mod (_ mod W + _)), Zplus_mod_idemp_l, ring_mod. f_equal. lia.
Qed.
End ring.
