(* ===== verification/CString.v ===== *)
(** Byte-addressed memory and the string and memory routines of
    [kernel/string.c].

    A pointer that a routine only reads through is a [cptr], the function from
    an offset to the byte found there; [ptr m a] is the view of memory [m] at
    address [a], and [arr l] that of a character array.  Routines that write
    take the memory and the destination address. *)

From S2P Require Import Prelude.

(** * Memory *)

Definition mem : Type := Z -> Z.
Definition cptr : Type := Z -> Z.

Definition store8 (m : mem) (a v : Z) : mem := fun x => if x =? a then u8 v else m x.

Definition ptr (m : mem) (a : Z) : cptr := fun i => m (a + i).
Definition arr (l : list Z) : cptr :=
  fun i => if i <? 0 then 0 else nth (Z.to_nat i) l 0.
Definition shift (p : cptr) (k : Z) : cptr := fun i => p (k + i).

(** [load_bytes m a n] reads [n] bytes, lowest address first. *)
Definition load_bytes (m : mem) (a : Z) (n : nat) : list Z := m <$> range a n.

Fixpoint store_bytes (m : mem) (a : Z) (l : list Z) : mem :=
  match l with
  | [] => m
  | b :: l' => store_bytes (store8 m a b) (a + 1) l'
  end.

Fixpoint le_combine (l : list Z) : Z :=
  match l with
  | [] => 0
  | b :: l' => b + 256 * le_combine l'
  end.

Fixpoint le_split (n : nat) (v : Z) : list Z :=
  match n with
  | O => []
  | S n' => v mod 256 :: le_split n' (v / 256)
  end.

Definition load64 (m : mem) (a : Z) : Z := le_combine (load_bytes m a 8).
Definition store64 (m : mem) (a v : Z) : mem := store_bytes m a (le_split 8 v).

(** All bytes of a memory are bytes. *)
Definition bytes_ok (m : mem) : Prop := forall x, 0 <= m x < 256.

(** * kernel/string.c *)

(** The loop of [memset], [n] bytes left, at address [d]. *)
Fixpoint memset_loop (n : nat) (m : mem) (d c : Z) : mem :=
  match n with
  | O => m
  | S n' => memset_loop n' (store8 m d c) (d + 1) c
  end.

Definition memset (m : mem) (dst c n : Z) : mem :=
  memset_loop (Z.to_nat (u32 n)) m dst c.

Fixpoint memcmp_loop (n : nat) (s1 s2 : cptr) : Z :=
  match n with
  | O => 0
  | S n' =>
      if s1 0 =? s2 0 then memcmp_loop n' (shift s1 1) (shift s2 1)
      else s1 0 - s2 0
  end.

Definition memcmp (v1 v2 : cptr) (n : Z) : Z := memcmp_loop (Z.to_nat (u32 n)) v1 v2.

(** [while (n-- > 0) *--d = *--s;] *)
Fixpoint copy_down (n : nat) (m : mem) (d s : Z) : mem :=
  match n with
  | O => m
  | S n' => copy_down n' (store8 m (d - 1) (m (s - 1))) (d - 1) (s - 1)
  end.

(** [while (n-- > 0) *d++ = *s++;] *)
Fixpoint copy_up (n : nat) (m : mem) (d s : Z) : mem :=
  match n with
  | O => m
  | S n' => copy_up n' (store8 m d (m s)) (d + 1) (s + 1)
  end.

Definition memmove (m : mem) (dst src n : Z) : mem :=
  let n := u32 n in
  if n =? 0 then m
  else if (src <? dst) && (dst <? src + n)
  then copy_down (Z.to_nat n) m (dst + n) (src + n)
  else copy_up (Z.to_nat n) m dst src.

Definition memcpy (m : mem) (dst src n : Z) : mem := memmove m dst src n.

(** [strlen] looks for the first NUL; [None] when the fuel runs out. *)
Fixpoint strlen_loop (fuel : nat) (s : cptr) (n : Z) : option Z :=
  match fuel with
  | O => None
  | S fuel' => if s n =? 0 then Some n else strlen_loop fuel' s (n + 1)
  end.

Definition strlen (fuel : nat) (s : cptr) : option Z := strlen_loop fuel s 0.

(** [while (--n > 0 && ( *s++ = *t++ ) != 0); *s = 0;] with [n - 1] bytes of
    room left before the terminator. *)
Fixpoint safestrcpy_loop (n : nat) (m : mem) (s : Z) (t : cptr) : mem :=
  match n with
  | O => store8 m s 0
  | S n' =>
      let m' := store8 m s (t 0) in
      if t 0 =? 0 then store8 m' (s + 1) 0
      else safestrcpy_loop n' m' (s + 1) (shift t 1)
  end.

Definition safestrcpy (m : mem) (s : Z) (t : cptr) (n : Z) : mem :=
  if n <=? 0 then m else safestrcpy_loop (Z.to_nat (n - 1)) m s t.

Fixpoint strncmp_loop (n : nat) (p q : cptr) : Z :=
  match n with
  | O => 0
  | S n' =>
      if negb (p 0 =? 0) && (p 0 =? q 0)
      then strncmp_loop n' (shift p 1) (shift q 1)
      else p 0 - q 0
  end.

Definition strncmp (p q : cptr) (n : Z) : Z := strncmp_loop (Z.to_nat (u32 n)) p q.

(** [while (n-- > 0) *s++ = 0;] *)
Fixpoint strncpy_pad (n : nat) (m : mem) (s : Z) : mem :=
  match n with
  | O => m
  | S n' => strncpy_pad n' (store8 m s 0) (s + 1)
  end.

(** [while (n-- > 0 && ( *s++ = *t++ ) != 0);] then the padding loop.  When the
    first loop ends because [n] is used up, [n] is -1 and nothing is padded. *)
Fixpoint strncpy_loop (n : nat) (m : mem) (s : Z) (t : cptr) : mem :=
  match n with
  | O => m
  | S n' =>
      let m' := store8 m s (t 0) in
      if t 0 =? 0 then strncpy_pad n' m' (s + 1)
      else strncpy_loop n' m' (s + 1) (shift t 1)
  end.

Definition strncpy (m : mem) (s : Z) (t : cptr) (n : Z) : mem :=
  strncpy_loop (Z.to_nat n) m s t.

(** * Memory lemmas *)

Lemma store8_eq m a v : store8 m a v a = u8 v.
Proof. unfold store8. by rewrite Z.eqb_refl. Qed.

Lemma store8_ne m a v x : x <> a -> store8 m a v x = m x.
Proof. intros. unfold store8. destruct (Z.eqb_spec x a); lia. Qed.

Lemma store8_ok m a v : bytes_ok m -> bytes_ok (store8 m a v).
Proof.
  intros H x. unfold store8, u8. destruct (x =? a); [|apply H].
  apply (Z.mod_pos_bound v (2 ^ 8)). lia.
Qed.

Lemma store_bytes_ok m a l : bytes_ok m -> bytes_ok (store_bytes m a l).
Proof.
  revert m a. induction l as [|b l IH]; intros m a H; simpl; [done|].
  apply IH. by apply store8_ok.
Qed.

Lemma store_bytes_out m a l x :
  (x < a \/ a + Z.of_nat (length l) <= x) -> store_bytes m a l x = m x.
Proof.
  revert m a. induction l as [|b l IH]; intros m a H; simpl in *; [done|].
  rewrite IH by lia. apply store8_ne. lia.
Qed.

Lemma store_bytes_in m a l (i : nat) b :
  l !! i = Some b -> store_bytes m a l (a + Z.of_nat i) = u8 b.
Proof.
  revert m a i. induction l as [|c l IH]; intros m a [|i] H; simplify_eq/=.
  - rewrite store_bytes_out by lia. rewrite Z.add_0_r. apply store8_eq.
  - replace (a + Z.of_nat (S i)) with (a + 1 + Z.of_nat i) by lia. by apply IH.
Qed.

Lemma load_bytes_ext m m' a n :
  (forall x, a <= x < a + Z.of_nat n -> m x = m' x) -> load_bytes m a n = load_bytes m' a n.
Proof.
  intros H. unfold load_bytes. apply list_fmap_ext. intros i x Hx. apply H.
  apply elem_of_range. by eapply list_elem_of_lookup_2.
Qed.

Lemma lookup_load_bytes m a n i :
  (i < n)%nat -> load_bytes m a n !! i = Some (m (a + Z.of_nat i)).
Proof. intros. unfold load_bytes. by rewrite list_lookup_fmap, lookup_range. Qed.

Lemma length_load_bytes m a n : length (load_bytes m a n) = n.
Proof. unfold load_bytes. by rewrite length_fmap, length_range. Qed.

Lemma load_store_bytes m a l n :
  n = length l -> Forall (fun b => 0 <= b < 256) l ->
  load_bytes (store_bytes m a l) a n = l.
Proof.
  intros -> Hl. apply list_eq. intros i.
  destruct (decide (i < length l)%nat) as [Hi|Hi].
  - rewrite lookup_load_bytes by done.
    destruct (lookup_lt_is_Some_2 l i Hi) as [b Hb]. rewrite Hb.
    erewrite store_bytes_in by done. f_equal. apply u8_small.
    by apply (Forall_lookup_1 _ _ _ _ Hl Hb).
  - rewrite !lookup_ge_None_2; [done|lia|]. rewrite length_load_bytes. lia.
Qed.

Lemma length_le_split n v : length (le_split n v) = n.
Proof. revert v. induction n as [|n IH]; intros v; simpl; auto. Qed.

Lemma le_split_bytes n v : Forall (fun b => 0 <= b < 256) (le_split n v).
Proof.
  revert v. induction n as [|n IH]; intros v; simpl; constructor; auto.
  by apply Z.mod_pos_bound.
Qed.

Lemma le_combine_split n v : le_combine (le_split n v) = v mod 256 ^ Z.of_nat n.
Proof.
  revert v. induction n as [|n IH]; intros v; cbn [le_split le_combine].
  - by rewrite Z.mod_1_r.
  - rewrite IH, Nat2Z.inj_succ, Z.pow_succ_r by lia.
    rewrite Z.rem_mul_r by lia. done.
Qed.

Lemma le_combine_bound l :
  Forall (fun b => 0 <= b < 256) l -> 0 <= le_combine l < 256 ^ Z.of_nat (length l).
Proof.
  induction 1 as [|b l Hb Hl IH]; [done|].
  cbn [le_combine length]. rewrite Nat2Z.inj_succ, Z.pow_succ_r by lia. lia.
Qed.

Lemma load_bytes_bytes m a n : bytes_ok m -> Forall (fun b => 0 <= b < 256) (load_bytes m a n).
Proof.
  intros H. unfold load_bytes. apply Forall_fmap, Forall_forall. intros x _. apply H.
Qed.

Lemma load64_range m a : bytes_ok m -> 0 <= load64 m a < 2 ^ 64.
Proof.
  intros H. unfold load64. pose proof (le_combine_bound (load_bytes m a 8)) as B.
  rewrite length_load_bytes in B. apply B. by apply load_bytes_bytes.
Qed.

Lemma load64_ext m m' a :
  (forall x, a <= x < a + 8 -> m x = m' x) -> load64 m a = load64 m' a.
Proof. intros H. unfold load64. f_equal. by apply load_bytes_ext. Qed.

Lemma load64_shift m m' a a' :
  (forall i, 0 <= i < 8 -> m (a + i) = m' (a' + i)) -> load64 m a = load64 m' a'.
Proof.
  intros H. unfold load64. f_equal. apply list_eq. intros i. destruct (decide (i < 8)%nat) as [Hi|Hi].
  - rewrite !lookup_load_bytes by done. f_equal. apply H. lia.
  - by rewrite !lookup_ge_None_2 by (rewrite length_load_bytes; lia).
Qed.

Lemma load64_store64_eq m a v : load64 (store64 m a v) a = u64 v.
Proof.
  unfold load64, store64. rewrite load_store_bytes.
  - by rewrite le_combine_split.
  - by rewrite length_le_split.
  - apply le_split_bytes.
Qed.

Lemma store_bytes_ext m m' a l x : m x = m' x -> store_bytes m a l x = store_bytes m' a l x.
Proof.
  revert m m' a. induction l as [|b l IH]; intros m m' a H; simpl; [done|].
  apply IH. unfold store8. by rewrite H.
Qed.

Lemma store64_ext m m' a v x : m x = m' x -> store64 m a v x = store64 m' a v x.
Proof. apply store_bytes_ext. Qed.

Lemma store64_out m a v x : x < a \/ a + 8 <= x -> store64 m a v x = m x.
Proof.
  intros. unfold store64. apply store_bytes_out. rewrite length_le_split. lia.
Qed.

Lemma load64_store64_ne m a b v :
  a + 8 <= b \/ b + 8 <= a -> load64 (store64 m a v) b = load64 m b.
Proof. intros. apply load64_ext. intros. apply store64_out. lia. Qed.

Lemma store64_ok m a v : bytes_ok m -> bytes_ok (store64 m a v).
Proof. apply store_bytes_ok. Qed.

Lemma load64_zero m a : (forall x, a <= x < a + 8 -> m x = 0) -> load64 m a = 0.
Proof.
  intros H. rewrite (load64_ext m (fun _ => 0)); [|done]. done.
Qed.

#[export] Hint Resolve store8_ok store64_ok store_bytes_ok : core.

(** * [memset] and [memmove] against their closed forms *)

Lemma memset_loop_spec n m d c x :
  memset_loop n m d c x = if (d <=? x) && (x <? d + Z.of_nat n) then u8 c else m x.
Proof.
  revert m d. induction n as [|n IH]; intros m d; cbn [memset_loop].
  - destruct (Z.leb_spec d x), (Z.ltb_spec x (d + Z.of_nat 0)); simpl; done || lia.
  - rewrite IH. unfold store8.
    destruct (Z.leb_spec (d + 1) x), (Z.ltb_spec x (d + 1 + Z.of_nat n)),
      (Z.leb_spec d x), (Z.ltb_spec x (d + Z.of_nat (S n))), (Z.eqb_spec x d);
      simpl; done || lia.
Qed.

Lemma memset_spec m d c n x :
  memset m d c n x = if (d <=? x) && (x <? d + u32 n) then u8 c else m x.
Proof.
  unfold memset. rewrite memset_loop_spec, Z2Nat.id; [done|]. apply u32_range.
Qed.

Lemma memset_in m d c n x : d <= x < d + u32 n -> memset m d c n x = u8 c.
Proof.
  intros. rewrite memset_spec.
  destruct (Z.leb_spec d x), (Z.ltb_spec x (d + u32 n)); simpl; done || lia.
Qed.

Lemma memset_out m d c n x : x < d \/ d + u32 n <= x -> memset m d c n x = m x.
Proof.
  intros. rewrite memset_spec.
  destruct (Z.leb_spec d x), (Z.ltb_spec x (d + u32 n)); simpl; done || lia.
Qed.

Lemma memset_ok m d c n : bytes_ok m -> bytes_ok (memset m d c n).
Proof.
  intros H x. rewrite memset_spec. destruct (_ && _); [|apply H].
  apply (Z.mod_pos_bound c (2 ^ 8)). lia.
Qed.

(** The effect [memmove] should have: every destination byte receives the
    value its source byte had before the call. *)
Definition moved (m : mem) (d s n : Z) : mem :=
  fun x => if (d <=? x) && (x <? d + n) then m (s + (x - d)) else m x.

Lemma store8_same (m : mem) b : bytes_ok m -> u8 (m b) = m b.
Proof. intros H. apply u8_small. apply H. Qed.

Ltac moved_cases x :=
  unfold moved, store8;
  repeat match goal with
         | |- context [?a <=? x] => destruct (Z.leb_spec a x)
         | |- context [x <? ?a] => destruct (Z.ltb_spec x a)
         | |- context [?a =? ?b] => destruct (Z.eqb_spec a b)
         end; simpl.

Lemma copy_up_spec n m d s x :
  bytes_ok m -> d <= s \/ s + Z.of_nat n <= d ->
  copy_up n m d s x = moved m d s (Z.of_nat n) x.
Proof.
  revert m d s. induction n as [|n IH]; intros m d s Hok Hd; cbn [copy_up].
  - moved_cases x; done || lia.
  - rewrite IH by (auto || lia).
    moved_cases x; try lia; try (f_equal; lia).
    all: subst x; rewrite store8_same by done; f_equal; lia.
Qed.

Lemma copy_down_spec n m d s x :
  bytes_ok m -> s < d ->
  copy_down n m d s x = moved m (d - Z.of_nat n) (s - Z.of_nat n) (Z.of_nat n) x.
Proof.
  revert m d s. induction n as [|n IH]; intros m d s Hok Hd; cbn [copy_down].
  - moved_cases x; done || lia.
  - rewrite IH by (auto || lia).
    moved_cases x; try lia; try (f_equal; lia).
    all: subst x; rewrite store8_same by done; f_equal; lia.
Qed.

Lemma memmove_moved m d s n x :
  bytes_ok m -> memmove m d s n x = moved m d s (u32 n) x.
Proof.
  intros Hok. pose proof (u32_range n) as Hn. unfold memmove.
  destruct (Z.eqb_spec (u32 n) 0) as [->|]; [moved_cases x; done || lia|].
  destruct (Z.ltb_spec s d), (Z.ltb_spec d (s + u32 n)); simpl;
    rewrite ?copy_up_spec, ?copy_down_spec by (done || lia);
    rewrite ?Z2Nat.id by lia; try done.
  moved_cases x; try lia; f_equal; lia.
Qed.

Lemma memmove_in m d s n x :
  bytes_ok m -> d <= x < d + u32 n -> memmove m d s n x = m (s + (x - d)).
Proof. intros. rewrite memmove_moved by done. moved_cases x; done || lia. Qed.

Lemma memmove_out m d s n x :
  bytes_ok m -> x < d \/ d + u32 n <= x -> memmove m d s n x = m x.
Proof. intros. rewrite memmove_moved by done. moved_cases x; done || lia. Qed.

Lemma memmove_ok m d s n : bytes_ok m -> bytes_ok (memmove m d s n).
Proof.
  intros H x. rewrite memmove_moved by done. unfold moved.
  destruct (_ && _); apply H.
Qed.

#[export] Hint Resolve memset_ok memmove_ok : core.

(** * Strings *)

(** [cstr p l]: the NUL-terminated string at [p] is [l]. *)
Definition cstr (p : cptr) (l : list Z) : Prop :=
  (forall i b, l !! i = Some b -> p (Z.of_nat i) = b /\ b <> 0) /\
  p (Z.of_nat (length l)) = 0.

(** No NUL among the first [i] bytes. *)
Definition no_nul (p : cptr) (i : Z) : Prop := forall j, 0 <= j < i -> p j <> 0.

(** [str_agree p q n]: as strings of at most [n] bytes, [p] and [q] are equal. *)
Definition str_agree (p q : cptr) (n : Z) : Prop :=
  forall i, 0 <= i < n -> no_nul p i -> p i = q i.

Lemma no_nul_shift p i : p 0 <> 0 -> no_nul (shift p 1) i -> no_nul p (i + 1).
Proof.
  intros H0 Hi j Hj. destruct (decide (j = 0)) as [->|]; [done|].
  specialize (Hi (j - 1)). unfold shift in Hi.
  replace (1 + (j - 1)) with j in Hi by lia. apply Hi. lia.
Qed.

Lemma no_nul_unshift p i : no_nul p (i + 1) -> no_nul (shift p 1) i.
Proof. intros H j Hj. unfold shift. apply H. lia. Qed.

Lemma strlen_loop_spec fuel s n k :
  n <= k -> (forall i, n <= i < k -> s i <> 0) -> s k = 0 ->
  (Z.to_nat (k - n) < fuel)%nat -> strlen_loop fuel s n = Some k.
Proof.
  revert n. induction fuel as [|fuel IH]; intros n Hn Hnz Hk Hf; [lia|].
  cbn [strlen_loop]. destruct (Z.eqb_spec (s n) 0) as [E|E].
  - destruct (decide (n = k)) as [->|]; [done|]. exfalso. apply (Hnz n); [lia|done].
  - destruct (decide (n = k)) as [->|]; [lia|].
    apply IH; [lia| |done|lia]. intros i Hi. apply Hnz. lia.
Qed.

Lemma strlen_cstr fuel p l :
  cstr p l -> (length l < fuel)%nat -> strlen fuel p = Some (Z.of_nat (length l)).
Proof.
  intros [Hl H0] Hf. unfold strlen. apply strlen_loop_spec; [lia| |done|lia].
  intros i Hi. destruct (lookup_lt_is_Some_2 l (Z.to_nat i)) as [b Hb]; [lia|].
  destruct (Hl _ _ Hb) as [E ?]. rewrite Z2Nat.id in E by lia. congruence.
Qed.

Lemma strncmp_loop_spec n p q :
  strncmp_loop n p q = 0 <-> str_agree p q (Z.of_nat n).
Proof.
  revert p q. induction n as [|n IH]; intros p q; cbn [strncmp_loop].
  - split; [|done]. intros _ i Hi. lia.
  - destruct (Z.eqb_spec (p 0) 0) as [E|E]; cbn [negb andb].
    + split.
      * intros H i Hi Hnz. destruct (decide (i = 0)) as [->|]; [lia|].
        exfalso. by apply (Hnz 0); [lia|].
      * intros H. rewrite (H 0); [lia|lia|]. intros j Hj. lia.
    + destruct (Z.eqb_spec (p 0) (q 0)) as [E'|E'].
      * rewrite IH. split; intros H i Hi Hnz.
        -- destruct (decide (i = 0)) as [->|]; [done|].
           specialize (H (i - 1)). unfold shift in H.
           replace (1 + (i - 1)) with i in H by lia. apply H; [lia|].
           apply no_nul_unshift. by replace (i - 1 + 1) with i by lia.
        -- unfold shift. apply H; [lia|].
           replace (1 + i) with (i + 1) by lia. by apply no_nul_shift.
      * split; [lia|]. intros H. exfalso. apply E', H; [lia|]. intros j Hj. lia.
Qed.

(** C-style comparison returns 0 exactly on equal strings. *)
Lemma strncmp_agree p q n :
  0 <= n < 2 ^ 32 -> strncmp p q n = 0 <-> str_agree p q n.
Proof.
  intros Hn. unfold strncmp. rewrite u32_small by done.
  rewrite strncmp_loop_spec, Z2Nat.id by lia. done.
Qed.

Lemma strncpy_pad_spec n m s x :
  strncpy_pad n m s x = if (s <=? x) && (x <? s + Z.of_nat n) then 0 else m x.
Proof.
  revert m s. induction n as [|n IH]; intros m s; cbn [strncpy_pad].
  - moved_cases x; done || lia.
  - rewrite IH. moved_cases x; done || lia.
Qed.

(** The byte [strncpy] leaves at offset [i]: that of [t] up to its NUL, 0
    afterwards. *)
Fixpoint cut (t : cptr) (i : nat) : Z :=
  match i with
  | O => t 0
  | S i' => if t 0 =? 0 then 0 else cut (shift t 1) i'
  end.

Lemma cut_no_nul t i : no_nul t (Z.of_nat i) -> cut t i = t (Z.of_nat i).
Proof.
  revert t. induction i as [|i IH]; intros t H; cbn [cut]; [done|].
  destruct (Z.eqb_spec (t 0) 0) as [E|E]; [exfalso; by apply (H 0); [lia|]|].
  rewrite IH; [unfold shift; f_equal; lia|].
  apply no_nul_unshift. by replace (Z.of_nat i + 1) with (Z.of_nat (S i)) by lia.
Qed.

Lemma cut_nul t i j : (j < i)%nat -> t (Z.of_nat j) = 0 -> cut t i = 0.
Proof.
  revert t j. induction i as [|i IH]; intros t j Hj Ht; [lia|]. cbn [cut].
  destruct (Z.eqb_spec (t 0) 0) as [E|E]; [done|]. destruct j as [|j]; [done|].
  apply (IH _ j); [lia|]. unfold shift. by replace (1 + Z.of_nat j) with (Z.of_nat (S j)) by lia.
Qed.

Lemma cut_nonzero t i : cut t i <> 0 -> t (Z.of_nat i) <> 0.
Proof.
  revert t. induction i as [|i IH]; intros t H; cbn [cut] in H; [done|].
  destruct (t 0 =? 0); [done|]. specialize (IH _ H). unfold shift in IH.
  by replace (Z.of_nat (S i)) with (1 + Z.of_nat i) by lia.
Qed.

Lemma strncpy_loop_out n m s t x :
  x < s \/ s + Z.of_nat n <= x -> strncpy_loop n m s t x = m x.
Proof.
  revert m s t. induction n as [|n IH]; intros m s t H; cbn [strncpy_loop]; [done|].
  destruct (t 0 =? 0).
  - rewrite strncpy_pad_spec. moved_cases x; done || lia.
  - rewrite IH by lia. apply store8_ne. lia.
Qed.

Lemma strncpy_loop_in n m s t (i : nat) :
  (i < n)%nat -> (forall j, 0 <= t j < 256) ->
  strncpy_loop n m s t (s + Z.of_nat i) = cut t i.
Proof.
  revert m s t i. induction n as [|n IH]; intros m s t i Hi Ht; [lia|].
  cbn [strncpy_loop]. destruct (Z.eqb_spec (t 0) 0) as [E|E].
  - rewrite strncpy_pad_spec, E. destruct i as [|i]; cbn [cut].
    + rewrite E. moved_cases (s + Z.of_nat 0); done || lia.
    + rewrite E. moved_cases (s + Z.of_nat (S i)); done || lia.
  - destruct i as [|i]; cbn [cut].
    + rewrite strncpy_loop_out by lia. rewrite Z.add_0_r, store8_eq. by apply u8_small.
    + destruct (Z.eqb_spec (t 0) 0); [done|].
      replace (s + Z.of_nat (S i)) with (s + 1 + Z.of_nat i) by lia.
      apply IH; [lia|]. intros j. apply Ht.
Qed.

Lemma strncpy_in m s t n (i : nat) :
  Z.of_nat i < n -> (forall j, 0 <= t j < 256) ->
  strncpy m s t n (s + Z.of_nat i) = cut t i.
Proof. intros. unfold strncpy. apply strncpy_loop_in; [lia|done]. Qed.

Lemma strncpy_out m s t n x :
  x < s \/ s + Z.max 0 n <= x -> strncpy m s t n x = m x.
Proof. intros. unfold strncpy. apply strncpy_loop_out. lia. Qed.

Lemma safestrcpy_loop_out n m s t x :
  x < s \/ s + Z.of_nat n < x -> safestrcpy_loop n m s t x = m x.
Proof.
  revert m s t. induction n as [|n IH]; intros m s t H; cbn [safestrcpy_loop].
  - apply store8_ne. lia.
  - destruct (t 0 =? 0).
    + rewrite !store8_ne by lia. done.
    + rewrite IH by lia. apply store8_ne. lia.
Qed.

Lemma safestrcpy_loop_spec n m s t l :
  cstr t l -> (forall j, 0 <= t j < 256) ->
  cstr (ptr (safestrcpy_loop n m s t) s) (take n l).
Proof.
  revert m s t l. induction n as [|n IH]; intros m s t l [Hl H0] Ht; cbn [safestrcpy_loop].
  - rewrite take_0. split; [done|]. unfold ptr. simpl. rewrite Z.add_0_r. apply store8_eq.
  - destruct l as [|b l]; simpl in *.
    + change (t 0 = 0) in H0. rewrite H0. simpl. split; [done|]. unfold ptr. simpl.
      rewrite store8_ne by lia. rewrite Z.add_0_r. apply store8_eq.
    + destruct (Hl 0%nat b) as [E Hb]; [done|]. change (t 0 = b) in E.
      destruct (Z.eqb_spec (t 0) 0); [lia|].
      destruct (IH (store8 m s (t 0)) (s + 1) (shift t 1) l) as [IH1 IH2].
      * split.
        -- intros i c Hc. unfold shift.
           replace (1 + Z.of_nat i) with (Z.of_nat (S i)) by lia. by apply Hl.
        -- unfold shift. rewrite <- H0. f_equal. lia.
      * intros j. apply Ht.
      * split; unfold ptr in *.
        -- intros [|i] c Hc; simpl in Hc.
           ++ injection Hc as <-. split; [|done].
              rewrite safestrcpy_loop_out by lia.
              simpl. rewrite Z.add_0_r, store8_eq, E. apply u8_small. rewrite <- E. apply Ht.
           ++ destruct (IH1 i c Hc) as [<- ?]. split; [f_equal; lia|done].
        -- etransitivity; [|exact IH2]. f_equal. cbn [length]. lia.
Qed.

(** * Properties *)

(** [memmove] copies as if through a temporary: also when source and
    destination overlap, every destination byte holds the value its source
    byte had before the call, and nothing else changes. *)
Theorem memmove_copies m dst src n :
  bytes_ok m ->
  (forall i, 0 <= i < u32 n -> memmove m dst src n (dst + i) = m (src + i)) /\
  (forall x, ~ (dst <= x < dst + u32 n) -> memmove m dst src n x = m x).
Proof.
  intros Hok. split.
  - intros i Hi. rewrite memmove_in by (done || lia). f_equal. lia.
  - intros x Hx. apply memmove_out; [done|lia].
Qed.

Lemma memmove_copies_witness :
  (forall i, 0 <= i < u32 3 -> memmove (fun x => x mod 7) 11 10 3 (11 + i) = (10 + i) mod 7) /\
  (forall x, ~ (11 <= x < 11 + u32 3) -> memmove (fun x => x mod 7) 11 10 3 x = x mod 7).
Proof.
  apply (memmove_copies (fun x => x mod 7) 11 10 3). intros x.
  pose proof (Z.mod_pos_bound x 7 ltac:(lia)). lia.
Defined.

(** A name written into an [n]-byte field by [strncpy] compares with
    [strncmp] against any string exactly as the original name does, so a
    directory entry written by [dirlink] is found by [dirlookup] under that
    name and no other. *)
Theorem strncpy_strncmp m s t q n :
  (forall j, 0 <= t j < 256) -> 0 <= n < 2 ^ 31 ->
  (strncmp q (ptr (strncpy m s t n) s) n = 0 <-> strncmp q t n = 0).
Proof.
  intros Ht Hn. rewrite !strncmp_agree by lia.
  assert (Hb : forall i, 0 <= i < n -> ptr (strncpy m s t n) s i = cut t (Z.to_nat i)).
  { intros i Hi. unfold ptr. rewrite <- (Z2Nat.id i) at 1 by lia.
    apply strncpy_in; [lia|done]. }
  assert (Hcut : forall i, 0 <= i -> no_nul t i -> cut t (Z.to_nat i) = t i).
  { intros i Hi Hnz. rewrite cut_no_nul; rewrite Z2Nat.id; done. }
  split; intros H i Hi Hnz.
  - assert (Hq : forall j, 0 <= j <= i -> q j = cut t (Z.to_nat j)).
    { intros j Hj. rewrite <- Hb by lia. apply H; [lia|].
      intros k Hk. apply Hnz. lia. }
    rewrite Hq, Hcut; [done|lia| |lia].
    intros j Hj. rewrite <- (Z2Nat.id j) by lia. apply cut_nonzero.
    rewrite <- Hq by lia. by apply Hnz.
  - rewrite Hb by done. rewrite Hcut; [by apply H|lia|].
    intros j Hj. rewrite <- H; [by apply Hnz|lia|].
    intros k Hk. apply Hnz. lia.
Qed.

Lemma strncpy_strncmp_witness :
  strncmp (arr [104; 105]) (ptr (strncpy (fun _ => 7) 40 (arr [104; 105]) 14) 40) 14 = 0
  <-> strncmp (arr [104; 105]) (arr [104; 105]) 14 = 0.
Proof.
  apply (strncpy_strncmp (fun _ => 7) 40 (arr [104; 105]) (arr [104; 105]) 14); [|lia].
  intros j. unfold arr. destruct (j <? 0); [lia|].
  destruct (Z.to_nat j) as [|[|[|k]]]; simpl; lia.
Defined.

(** [safestrcpy] always leaves a NUL-terminated string in the [n]-byte
    destination, namely the source cut to [n - 1] characters, and writes
    nothing outside the destination. *)
Theorem safestrcpy_terminates m s t l n :
  cstr t l -> (forall j, 0 <= t j < 256) -> 0 < n ->
  cstr (ptr (safestrcpy m s t n) s) (take (Z.to_nat (n - 1)) l) /\
  (forall x, ~ (s <= x < s + n) -> safestrcpy m s t n x = m x).
Proof.
  intros Hl Ht Hn. unfold safestrcpy. destruct (Z.leb_spec n 0); [lia|]. split.
  - by apply safestrcpy_loop_spec.
  - intros x Hx. apply safestrcpy_loop_out. lia.
Qed.

Lemma safestrcpy_terminates_witness :
  cstr (ptr (safestrcpy (fun _ => 7) 40 (arr [115; 104]) 2) 40) [115] /\
  (forall x, ~ (40 <= x < 42) -> safestrcpy (fun _ => 7) 40 (arr [115; 104]) 2 x = 7).
Proof.
  apply (safestrcpy_terminates (fun _ => 7) 40 (arr [115; 104]) [115; 104] 2); [| |lia].
  - split; [|done]. intros [|[|i]] b Hb; simplify_eq/=; split; done.
  - intros j. unfold arr. destruct (j <? 0); [lia|].
    destruct (Z.to_nat j) as [|[|[|k]]]; simpl; lia.
Defined.

#[global] Opaque memset memmove store64 load64 strncpy safestrcpy.
