(* ===== verification/Layout.v ===== *)
(** The constants and address arithmetic of [kernel/memlayout.h],
    [kernel/mmu.h] and [kernel/param.h]. *)

From S2P Require Import Prelude.

(** * kernel/param.h *)

Definition NOFILE : nat := 16.
Definition NFILE : nat := 100.
Definition NDEV : Z := 10.
Definition ROOTDEV : Z := 1.
Definition MAXARG : nat := 32.
Definition FSSIZE : Z := 2000.
Definition MAXPATH : Z := 128.

(** * kernel/memlayout.h *)

Definition PHY_BASE : Z := 0x40000000.
Definition PHY_STOP : Z := PHY_BASE + 0x8000000.
Definition KERN_BASE : Z := 0xffff000000000000.
Definition MAXVA : Z := 0x0001000000000000.

Definition V2P (x : Z) : Z := u64 (x - KERN_BASE).
Definition P2V (x : Z) : Z := u64 (x + KERN_BASE).

(** * kernel/mmu.h *)

Definition PG_SIZE : Z := 4096.
Definition PG_OFFSET : Z := 12.
Definition PG_ROUND_UP (x : Z) : Z :=
  Z.land (u64 (x + PG_SIZE - 1)) (Z.lnot (PG_SIZE - 1)).
Definition PG_ROUND_DOWN (x : Z) : Z := Z.land x (Z.lnot (PG_SIZE - 1)).
Definition PG_ADDR_MASK : Z := 0xfffffffff000.

Definition AP_KERNEL : Z := Z.shiftl 0 6.
Definition AP_USER : Z := Z.shiftl 1 6.
Definition AP_RW : Z := Z.shiftl 0 7.
Definition AP_RO : Z := Z.shiftl 1 7.
Definition PXN : Z := Z.shiftl 1 53.
Definition UXN : Z := Z.shiftl 1 54.
Definition AF_USED : Z := Z.shiftl 1 10.
Definition MT_DEVICE_nGnRnE : Z := 0.
Definition MT_NORMAL_NC : Z := 1.
Definition MM_TYPE_VALID : Z := 1.
Definition MM_TYPE_BLOCK : Z := 1.
Definition MM_TYPE_TABLE : Z := 3.
Definition MM_TYPE_PAGE : Z := 3.
Definition MM_TYPE_MASK : Z := 3.

Definition lors (l : list Z) : Z := foldr Z.lor 0 l.

Definition KERNEL_2M_PAGE : Z :=
  lors [MM_TYPE_BLOCK; Z.shiftl MT_NORMAL_NC 2; AP_KERNEL; AP_RW; AF_USED; UXN].
Definition KERNEL_2M_DEVICE : Z :=
  lors [MM_TYPE_BLOCK; Z.shiftl MT_DEVICE_nGnRnE 2; AP_KERNEL; AP_RW; AF_USED; UXN].
Definition KERNEL_4K_PAGE : Z :=
  lors [MM_TYPE_PAGE; Z.shiftl MT_NORMAL_NC 2; AP_KERNEL; AP_RW; AF_USED; UXN].
Definition USER_4K_PAGE_RW : Z :=
  lors [MM_TYPE_PAGE; Z.shiftl MT_NORMAL_NC 2; AP_USER; AP_RW; AF_USED; PXN].
Definition USER_4K_PAGE_RO : Z :=
  lors [MM_TYPE_PAGE; Z.shiftl MT_NORMAL_NC 2; AP_USER; AP_RO; AF_USED; PXN].
Definition USER_4K_PAGE_RW_XN : Z :=
  lors [MM_TYPE_PAGE; Z.shiftl MT_NORMAL_NC 2; AP_USER; AP_RW; AF_USED; PXN; UXN].
Definition USER_4K_PAGE_RO_XN : Z :=
  lors [MM_TYPE_PAGE; Z.shiftl MT_NORMAL_NC 2; AP_USER; AP_RO; AF_USED; PXN; UXN].
Definition MASK_4K_PAGE : Z :=
  lors [MM_TYPE_PAGE; Z.shiftl MT_NORMAL_NC 2; AP_USER; AP_RO; AF_USED; PXN; UXN].

Definition PX_MASK : Z := 0x1ff.
Definition PX_OFFSET (level : Z) : Z := PG_OFFSET + 9 * (3 - level).
Definition PX (level vaddr : Z) : Z := Z.land (Z.shiftr vaddr (PX_OFFSET level)) PX_MASK.
Definition PX_ENTRY_CNT : Z := 512.

(** The linker symbol [end]: the first address after the kernel image, inside
    the physical memory the kernel manages. *)
Class KernelEnd : Type := {
  kend : Z;
  kend_ok : KERN_BASE + PHY_BASE <= kend <= KERN_BASE + PHY_STOP;
}.

(** * Arithmetic of page addresses *)

Definition page_aligned (a : Z) : Prop := a mod PG_SIZE = 0.

Lemma land_lnot_ones x n : 0 <= n -> Z.land x (Z.lnot (2 ^ n - 1)) = x / 2 ^ n * 2 ^ n.
Proof.
  intros. replace (2 ^ n - 1) with (Z.ones n) by (rewrite Z.ones_equiv; lia).
  rewrite <- Z.ldiff_land, Z.ldiff_ones_r by done.
  rewrite Z.shiftl_mul_pow2, Z.shiftr_div_pow2 by done. done.
Qed.

Lemma PG_ROUND_DOWN_div x : PG_ROUND_DOWN x = x / PG_SIZE * PG_SIZE.
Proof. apply (land_lnot_ones x 12). lia. Qed.

Lemma PG_ROUND_UP_div x :
  0 <= x < 2 ^ 64 - PG_SIZE -> PG_ROUND_UP x = (x + PG_SIZE - 1) / PG_SIZE * PG_SIZE.
Proof.
  intros. unfold PG_ROUND_UP. rewrite u64_small by (unfold PG_SIZE in *; lia).
  apply (land_lnot_ones (x + PG_SIZE - 1) 12). lia.
Qed.

Lemma PX_div level va : 0 <= level <= 3 ->
  PX level va = va / 2 ^ PX_OFFSET level mod 512.
Proof.
  intros. unfold PX. change PX_MASK with (Z.ones 9). rewrite Z.land_ones by lia.
  rewrite Z.shiftr_div_pow2; [done|]. unfold PX_OFFSET, PG_OFFSET. lia.
Qed.

Lemma PX_range level va : 0 <= level <= 3 -> 0 <= PX level va < 512.
Proof. intros. rewrite PX_div by done. by apply Z.mod_pos_bound. Qed.
