(* ===== verification/Kstruct.v ===== *)
(** The kernel's own page tables, [kernel/kstruct.c], which [entry.S] installs
    for both halves of the address space: two-megabyte blocks for the devices
    and the memory.

    The entries that point to the next table hold its address, which the linker
    chooses; [Tables] names the three addresses.  [translate] is the walk of
    the architecture over these tables for the low 48 bits of an address. *)

From S2P Require Import Prelude Layout.

(** A table of 512 entries that begins with the given ones. *)
Definition table (l : list Z) : list Z := l ++ replicate (512 - length l) 0.

(** Blocks one after the other, from [a] on. *)
Definition blocks (a flags : Z) (n : nat) : list Z :=
  (fun i => Z.lor (a + 0x200000 * Z.of_nat i) flags) <$> seq 0 n.

Definition kpmddvc : list Z := table (replicate 64 0 ++ blocks 0x8000000 KERNEL_2M_DEVICE 24).
Definition kpmdram : list Z := table (blocks 0x40000000 KERNEL_2M_PAGE 64).

(** Where the tables are. *)
Class Tables : Type := {
  kpmddvc_at : Z;
  kpmdram_at : Z;
  kpud_at : Z;
  tables_aligned : kpmddvc_at mod PG_SIZE = 0 /\ kpmdram_at mod PG_SIZE = 0 /\ kpud_at mod PG_SIZE = 0;
  tables_range : 0 <= kpmddvc_at < 2 ^ 48 /\ 0 <= kpmdram_at < 2 ^ 48 /\ 0 <= kpud_at < 2 ^ 48;
  tables_differ : kpmddvc_at <> kpmdram_at /\ kpmddvc_at <> kpud_at /\ kpmdram_at <> kpud_at;
}.

Section tables.
Context `{TB : Tables}.

Definition kpud : list Z := table [kpmddvc_at + MM_TYPE_TABLE; kpmdram_at + MM_TYPE_TABLE].
Definition kpgdir : list Z := table [kpud_at + MM_TYPE_TABLE].

(** The table at an address. *)
Definition table_at (a : Z) : option (list Z) :=
  if a =? kpud_at then Some kpud
  else if a =? kpmddvc_at then Some kpmddvc
  else if a =? kpmdram_at then Some kpmdram
  else None.

Definition entry (t : list Z) (level va : Z) : Z := default 0 (t !! Z.to_nat (PX level va)).

(** One level of the walk: the next table. *)
Definition descend (t : list Z) (level va : Z) : option (list Z) :=
  let e := entry t level va in
  if Z.land e MM_TYPE_MASK =? MM_TYPE_TABLE then table_at (Z.land e PG_ADDR_MASK) else None.

(** What a block entry says: the address behind [va], and whether it is device
    memory. *)
Definition block_target (e va : Z) : option (Z * bool) :=
  if Z.land e MM_TYPE_MASK =? MM_TYPE_BLOCK
  then Some (Z.land e 0xffffffe00000 + va mod 2 ^ 21, Z.land (Z.shiftr e 2) 7 =? MT_DEVICE_nGnRnE)
  else None.

Definition translate (va : Z) : option (Z * bool) :=
  pud ← descend kpgdir 0 va;
  pmd ← descend pud 1 va;
  block_target (entry pmd 2 va) va.

Lemma table_entry a : a mod PG_SIZE = 0 -> 0 <= a < 2 ^ 48 ->
  Z.land (a + MM_TYPE_TABLE) MM_TYPE_MASK = MM_TYPE_TABLE /\ Z.land (a + MM_TYPE_TABLE) PG_ADDR_MASK = a.
Proof.
  intros Ha Hr. unfold MM_TYPE_TABLE, MM_TYPE_MASK, PG_ADDR_MASK, PG_SIZE in *. split.
  - change 3 with (Z.ones 2) at 2. rewrite Z.land_ones by lia. Z.div_mod_to_equations; lia.
  - assert (E : 0xfffffffff000 = Z.land (Z.ones 48) (Z.lnot (2 ^ 12 - 1))) by reflexivity.
    rewrite E, Z.land_assoc, Z.land_ones by lia. rewrite Z.mod_small by (change (2 ^ 48) with 281474976710656 in *; Z.div_mod_to_equations; lia).
    rewrite land_lnot_ones by lia. change (2 ^ 12) with 4096. Z.div_mod_to_equations; lia.
Qed.

Lemma descend_first t level va a :
  t !! Z.to_nat (PX level va) = Some (a + MM_TYPE_TABLE) -> a mod PG_SIZE = 0 -> 0 <= a < 2 ^ 48 ->
  descend t level va = table_at a.
Proof.
  intros Ht Ha Hr. destruct (table_entry a Ha Hr) as [E1 E2]. unfold descend, entry. rewrite Ht. simpl default.
  rewrite E1, Z.eqb_refl, E2. done.
Qed.

(** The blocks, entry by entry. *)
Definition block_of (base lo hi i : Z) (dev : bool) (e : Z) : bool :=
  if (lo <=? i) && (i <? hi) then
    (Z.land e MM_TYPE_MASK =? MM_TYPE_BLOCK) && (Z.land e 0xffffffe00000 =? base + 0x200000 * i) &&
      eqb (Z.land (Z.shiftr e 2) 7 =? MT_DEVICE_nGnRnE) dev
  else e =? 0.

Lemma kpmddvc_entries i : 0 <= i < 512 -> block_of 0 64 88 i true (default 0 (kpmddvc !! Z.to_nat i)) = true.
Proof.
  intros Hi. assert (H : forallb (fun i => block_of 0 64 88 i true (default 0 (kpmddvc !! Z.to_nat i))) (range 0 512) = true)
    by (by vm_compute).
  rewrite forallb_forall in H. apply H, list_elem_of_In, elem_of_range. lia.
Qed.

Lemma kpmdram_entries i : 0 <= i < 512 -> block_of 0x40000000 0 64 i false (default 0 (kpmdram !! Z.to_nat i)) = true.
Proof.
  intros Hi. assert (H : forallb (fun i => block_of 0x40000000 0 64 i false (default 0 (kpmdram !! Z.to_nat i))) (range 0 512) = true)
    by (by vm_compute).
  rewrite forallb_forall in H. apply H, list_elem_of_In, elem_of_range. lia.
Qed.

Lemma table_zero l k : (length l <= k < 512)%nat -> (length l <= 512)%nat -> table l !! k = Some 0.
Proof.
  intros Hk Hl. unfold table. rewrite lookup_app_r by lia. apply lookup_replicate. split; [done|]. lia.
Qed.

Lemma descend_zero t level va : entry t level va = 0 -> descend t level va = None.
Proof. intros E. unfold descend. by rewrite E. Qed.

Lemma translate_block pmd base lo hi dev va :
  0 <= va < 2 ^ 48 ->
  block_of base lo hi (PX 2 va) dev (entry pmd 2 va) = true -> base + 0x200000 * PX 2 va + va mod 2 ^ 21 = va ->
  block_target (entry pmd 2 va) va = if (lo <=? PX 2 va) && (PX 2 va <? hi) then Some (va, dev) else None.
Proof.
  intros Hva Hb Hadd. unfold block_of in Hb. unfold block_target. destruct (_ && _).
  - apply andb_true_iff in Hb as [Hb Hd]. apply andb_true_iff in Hb as [Ht He].
    rewrite Ht. apply Z.eqb_eq in He. apply eqb_prop in Hd. rewrite He, Hd, Hadd. done.
  - apply Z.eqb_eq in Hb. by rewrite Hb.
Qed.

(** An address is its three indices and the offset in a block. *)
Lemma va_parts va : 0 <= va < 2 ^ 48 ->
  va = 2 ^ 39 * PX 0 va + 2 ^ 30 * PX 1 va + 2 ^ 21 * PX 2 va + va mod 2 ^ 21 /\
  0 <= PX 0 va < 512 /\ 0 <= PX 1 va < 512 /\ 0 <= PX 2 va < 512 /\ 0 <= va mod 2 ^ 21 < 2 ^ 21.
Proof.
  intros Hva. split_and!; try (apply PX_range; lia); try (apply Z.mod_pos_bound; lia).
  rewrite !PX_div by lia. change (PX_OFFSET 0) with (30 + 9). change (PX_OFFSET 1) with (21 + 9). change (PX_OFFSET 2) with 21.
  rewrite !Z.pow_add_r, <- !Z.div_div by lia. change (2 ^ 9) with 512.
  pose proof (Z.div_mod va (2 ^ 21) ltac:(lia)) as H1.
  assert (E : va / 2 ^ 30 = va / 2 ^ 21 / 512) by (rewrite Z.div_div by lia; done). rewrite E.
  set (q := va / 2 ^ 21) in *. pose proof (Z.div_mod q 512 ltac:(lia)) as H2. set (q2 := q / 512) in *.
  pose proof (Z.div_mod q2 512 ltac:(lia)) as H3. set (q3 := q2 / 512) in *.
  assert (0 <= q3 < 512).
  { unfold q3, q2, q. rewrite !Z.div_div by lia. split; [apply Z.div_pos; lia|]. apply Z.div_lt_upper_bound; lia. }
  rewrite (Z.mod_small q3 512) by lia. lia.
Qed.

(** The kernel's page tables map its addresses one to one: the high half
    shows the devices and the whole of memory at their physical addresses plus
    KERN_BASE, as [P2V] and [V2P] assume, devices as device memory, and maps
    nothing else. *)
Theorem boot_tables_linear va :
  0 <= va < 2 ^ 48 ->
  translate va =
    if (0x8000000 <=? va) && (va <? 0xb000000) then Some (va, true)
    else if (PHY_BASE <=? va) && (va <? PHY_STOP) then Some (va, false)
    else None.
Proof.
  intros Hva. destruct tables_aligned as (A1 & A2 & A3), tables_range as (R1 & R2 & R3), tables_differ as (D1 & D2 & D3).
  destruct (va_parts va Hva) as (Eva & B0 & B1 & B2 & B3). unfold translate, PHY_STOP, PHY_BASE.
  assert (Hout : 2 ^ 31 <= va -> None = if (0x8000000 <=? va) && (va <? 0xb000000) then Some (va, true)
    else if (0x40000000 <=? va) && (va <? 0x40000000 + 0x8000000) then Some (va, false) else None).
  { intros Hbig. destruct (Z.ltb_spec va 0xb000000), (Z.ltb_spec va (0x40000000 + 0x8000000)); rewrite ?andb_false_r; done || lia. }
  destruct (decide (PX 0 va = 0)) as [E0|E0].
  2: { rewrite descend_zero; [apply Hout; lia|]. unfold entry, kpgdir. rewrite table_zero; [done|simpl; lia|simpl; lia]. }
  rewrite (descend_first kpgdir 0 va kpud_at) by (done || by rewrite E0). unfold table_at at 1. rewrite Z.eqb_refl. cbn [mbind option_bind].
  destruct (decide (PX 1 va = 0)) as [E1|E1]; [|destruct (decide (PX 1 va = 1)) as [E2|E2]].
  - rewrite (descend_first kpud 1 va kpmddvc_at) by (done || by rewrite E1). unfold table_at.
    destruct (Z.eqb_spec kpmddvc_at kpud_at); [done|]. rewrite Z.eqb_refl. cbn [mbind option_bind].
    rewrite (translate_block kpmddvc 0 64 88 true va Hva (kpmddvc_entries _ B2)) by lia.
    destruct (Z.leb_spec 64 (PX 2 va)), (Z.ltb_spec (PX 2 va) 88), (Z.leb_spec 0x8000000 va), (Z.ltb_spec va 0xb000000), (Z.leb_spec 0x40000000 va);
      try done; lia.
  - rewrite (descend_first kpud 1 va kpmdram_at) by (done || by rewrite E2). unfold table_at.
    destruct (Z.eqb_spec kpmdram_at kpud_at); [done|]. destruct (Z.eqb_spec kpmdram_at kpmddvc_at); [congruence|].
    rewrite Z.eqb_refl. cbn [mbind option_bind].
    rewrite (translate_block kpmdram 0x40000000 0 64 false va Hva (kpmdram_entries _ B2)) by lia.
    destruct (Z.leb_spec 0 (PX 2 va)), (Z.ltb_spec (PX 2 va) 64), (Z.ltb_spec va 0xb000000), (Z.leb_spec 0x40000000 va), (Z.ltb_spec va (0x40000000 + 0x8000000));
      rewrite ?andb_false_r; try done; lia.
  - rewrite descend_zero; [apply Hout; lia|]. unfold entry, kpud. rewrite table_zero; [done|simpl; lia|simpl; lia].
Qed.
End tables.

Definition tables_ex : Tables.
Proof. refine {| kpmddvc_at := 0x40001000; kpmdram_at := 0x40002000; kpud_at := 0x40003000 |}; vm_compute; repeat split; congruence. Defined.

(** The serial port's registers. *)
Lemma boot_tables_linear_witness : @translate tables_ex 0x9000018 = Some (0x9000018, true).
Proof. apply (@boot_tables_linear tables_ex 0x9000018). lia. Defined.
