(* ===== verification/Kalloc.v ===== *)
(** The physical page allocator, [kernel/kalloc.c].

    The free list is threaded through the free pages themselves: the first
    word of a free page is the address of the next one.  [kmem] is the memory
    together with the head pointer; [kmem_inv] relates it to the abstract
    allocator, whose state is just the list of free pages.  The linker symbol
    [end] is a parameter of the operations. *)

From S2P Require Import Prelude CString Layout.

Record kmem : Type := Kmem {
  km_mem : mem;
  km_freelist : Z;
}.

Definition set_mem (f : mem -> mem) (s : kmem) : kmem :=
  Kmem (f (km_mem s)) (km_freelist s).
Definition set_freelist (r : Z) (s : kmem) : kmem := Kmem (km_mem s) r.

Section kalloc.
Variable kend : Z.

(** The test at the head of [kfree]. *)
Definition kfree_bad (paddr : Z) : bool :=
  negb (paddr mod PG_SIZE =? 0)
  || (paddr <? u64 (KERN_BASE + kend))
  || (u64 (KERN_BASE + PHY_STOP) <=? paddr).

Definition kfree (paddr : Z) : M kmem unit :=
  if kfree_bad paddr then panic "kfree"
  else
    let r := paddr in
    head ← gets km_freelist;
    modify (set_mem (fun m => store64 m r head));;
    modify (set_freelist r).

Definition kalloc : M kmem Z :=
  r ← gets km_freelist;
  when (ctrue r) (
    m ← gets km_mem;
    modify (set_freelist (load64 m r)));;
  when (ctrue r) (modify (set_mem (fun m => memset m r 5 PG_SIZE)));;
  mret r.

(** One iteration of the loop of [freerange] at page [p]. *)
Definition freerange_body (pa_end p : Z) : M kmem (Z + unit) :=
  if u64 (p + PG_SIZE) <=? pa_end
  then kfree p;; mret (inl (u64 (p + PG_SIZE)))
  else mret (inr tt).

Definition freerange (fuel : nat) (pa_start pa_end : Z) : M kmem unit :=
  loop fuel (freerange_body pa_end) (PG_ROUND_UP pa_start).

Definition kinit (fuel : nat) : M kmem unit :=
  freerange fuel kend (u64 (KERN_BASE + PHY_STOP)).

(** * The free list as a list of pages *)

(** A page [kfree] accepts. *)
Definition page_ok (p : Z) : Prop :=
  page_aligned p /\ u64 (KERN_BASE + kend) <= p < KERN_BASE + PHY_STOP /\ 0 < p.

Fixpoint freelist_rep (m : mem) (head : Z) (l : list Z) : Prop :=
  match l with
  | [] => head = 0
  | p :: l' => head = p /\ freelist_rep m (load64 m p) l'
  end.

Record kmem_inv (s : kmem) (l : list Z) : Prop := {
  ki_bytes : bytes_ok (km_mem s);
  ki_rep : freelist_rep (km_mem s) (km_freelist s) l;
  ki_ok : Forall page_ok l;
  ki_nodup : NoDup l;
}.

Lemma page_ok_good p : page_ok p -> kfree_bad p = false.
Proof.
  intros (Ha & Hr & _). unfold kfree_bad. unfold page_aligned in Ha. rewrite Ha.
  rewrite (u64_small (KERN_BASE + PHY_STOP)) by done.
  rewrite Z.eqb_refl. simpl.
  destruct (Z.ltb_spec p (u64 (KERN_BASE + kend))), (Z.leb_spec (KERN_BASE + PHY_STOP) p);
    simpl; done || lia.
Qed.

Lemma page_ok_bad p : 0 < p -> ~ page_ok p -> kfree_bad p = true.
Proof.
  intros Hp Hn. unfold kfree_bad.
  rewrite (u64_small (KERN_BASE + PHY_STOP)) by done.
  destruct (Z.eqb_spec (p mod PG_SIZE) 0), (Z.ltb_spec p (u64 (KERN_BASE + kend))),
    (Z.leb_spec (KERN_BASE + PHY_STOP) p); simpl; try done.
  exfalso. apply Hn. by repeat split.
Qed.

Lemma page_aligned_disjoint p q :
  page_aligned p -> page_aligned q -> p <> q -> p + PG_SIZE <= q \/ q + PG_SIZE <= p.
Proof. unfold page_aligned, PG_SIZE. intros. zlia. Qed.

(** The list only depends on the first word of each free page. *)
Lemma freelist_rep_ext m m' head l :
  (forall p x, p ∈ l -> p <= x < p + 8 -> m x = m' x) ->
  freelist_rep m head l -> freelist_rep m' head l.
Proof.
  revert head. induction l as [|p l IH]; intros head Hm; simpl; [done|].
  intros [-> Hl]. split; [done|].
  rewrite <- (load64_ext m m'); [|intros; apply (Hm p); [set_solver|done]].
  apply IH; [|done]. intros q x Hq. apply Hm. set_solver.
Qed.

Lemma Forall_page_ne p l x :
  Forall page_ok l -> page_aligned p -> p ∉ l -> p <= x < p + PG_SIZE ->
  forall q, q ∈ l -> x < q \/ q + PG_SIZE <= x.
Proof.
  intros Hl Hp Hn Hx q Hq. rewrite Forall_forall in Hl.
  destruct (Hl q Hq) as (Hqa & _).
  destruct (page_aligned_disjoint p q Hp Hqa); [set_solver|lia..].
Qed.

(** Writing outside every free page keeps the invariant. *)
Lemma kmem_inv_set_mem s l f :
  kmem_inv s l -> bytes_ok (f (km_mem s)) ->
  (forall p x, p ∈ l -> p <= x < p + PG_SIZE -> f (km_mem s) x = km_mem s x) ->
  kmem_inv (set_mem f s) l.
Proof.
  intros [Hb Hr Ho Hn] Hok Hf. split; [done| |done..]. simpl.
  eapply freelist_rep_ext; [|done]. intros p x Hp Hx. symmetry.
  apply (Hf p); [done|]. unfold PG_SIZE. lia.
Qed.

(** * Behaviour of the operations *)

Lemma kalloc_empty s : kmem_inv s [] -> kalloc s = Ok 0 s.
Proof. intros [_ Hr _ _]. simpl in Hr. unfold kalloc. destruct s; simpl in *. by subst. Qed.

(** [kalloc] hands out the first free page, filled with 5s. *)
Lemma kalloc_cons s p l :
  kmem_inv s (p :: l) ->
  exists s', kalloc s = Ok p s' /\ kmem_inv s' l /\
    (forall x, km_mem s' x = if (p <=? x) && (x <? p + PG_SIZE) then 5 else km_mem s x).
Proof.
  intros [Hb Hr Ho Hn]. destruct s as [m h]; simpl in *. destruct Hr as [-> Hr].
  apply Forall_cons in Ho as [Hp Ho]. apply NoDup_cons in Hn as [Hpl Hn].
  assert (Hmem : forall x, memset m p 5 PG_SIZE x =
            if (p <=? x) && (x <? p + PG_SIZE) then 5 else m x).
  { intros x. rewrite memset_spec. by rewrite u32_small. }
  eexists. split; [|split].
  - unfold kalloc, ctrue, mbind, M_bind, gets. simpl.
    destruct (Z.eqb_spec p 0) as [->|]; [destruct Hp as (_ & _ & ?); lia|]. done.
  - split; simpl; [by apply memset_ok| |done..].
    eapply freelist_rep_ext; [|done]. intros q x Hq Hx. rewrite Hmem.
    destruct Hp as (Hpa & _ & _).
    destruct (Z.leb_spec p x), (Z.ltb_spec x (p + PG_SIZE)); simpl; try done.
    exfalso. destruct (Forall_page_ne p l x Ho Hpa Hpl) with q as [?|?]; [lia|done|lia|].
    unfold PG_SIZE in *. lia.
  - simpl. apply Hmem.
Qed.

(** [kfree] puts the page at the front and writes only its first word. *)
Lemma kfree_good s p l :
  kmem_inv s l -> page_ok p -> p ∉ l ->
  exists s', kfree p s = Ok tt s' /\ kmem_inv s' (p :: l) /\
    (forall x, x < p \/ p + 8 <= x -> km_mem s' x = km_mem s x).
Proof.
  intros [Hb Hr Ho Hn] Hp Hpl. destruct s as [m h]; simpl in *.
  assert (Hh : 0 <= h < 2 ^ 64).
  { destruct l as [|q l]; simpl in Hr; [lia|]. destruct Hr as [-> _].
    apply Forall_cons in Ho as [(_ & Hq & _) _].
    unfold KERN_BASE, PHY_STOP, PHY_BASE in *. pose proof (u64_range (KERN_BASE + kend)).
    unfold KERN_BASE in *. lia. }
  eexists. split; [|split].
  - unfold kfree. by rewrite page_ok_good.
  - split; simpl; [auto| |by constructor|by constructor].
    split; [done|]. rewrite load64_store64_eq, u64_small by done.
    eapply freelist_rep_ext; [|done]. intros q x Hq Hx.
    rewrite store64_out; [done|]. destruct Hp as (Hpa & _).
    rewrite Forall_forall in Ho. destruct (Ho q Hq) as (Hqa & _).
    destruct (page_aligned_disjoint p q Hpa Hqa); [set_solver| |];
      unfold PG_SIZE in *; lia.
  - intros x Hx. simpl. by apply store64_out.
Qed.

Lemma kfree_panics s p : 0 < p -> ~ page_ok p -> kfree p s = Panic "kfree" s.
Proof. intros. unfold kfree. by rewrite page_ok_bad. Qed.

End kalloc.

(** * The abstract allocator *)

Module Spec.
(** Free pages, and pages in the hands of callers. *)
Record pool : Type := Pool { free : list Z; used : list Z }.

Inductive op : Type := Alloc | Free (p : Z).

(** [None]: the caller frees a page it does not hold. *)
Definition step (o : op) (s : pool) : option (Z * pool) :=
  match o with
  | Alloc =>
      match free s with
      | [] => Some (0, s)
      | p :: l => Some (p, Pool l (p :: used s))
      end
  | Free p =>
      if decide (p ∈ used s)
      then Some (0, Pool (p :: free s) (list_difference (used s) [p]))
      else None
  end.

Fixpoint run (os : list op) (s : pool) : option (list Z * pool) :=
  match os with
  | [] => Some ([], s)
  | o :: os' => '(r, s') ← step o s; '(rs, s'') ← run os' s'; Some (r :: rs, s'')
  end.
End Spec.

Section refinement.
Variable kend : Z.

(** The allocator calls of a client. *)
Definition kstep (o : Spec.op) : M kmem Z :=
  match o with
  | Spec.Alloc => kalloc
  | Spec.Free p => kfree kend p;; mret 0
  end.

Fixpoint krun (os : list Spec.op) : M kmem (list Z) :=
  match os with
  | [] => mret []
  | o :: os' => r ← kstep o; rs ← krun os'; mret (r :: rs)
  end.

(** The memory implements the pool: its free list is the pool's, and free and
    used pages are all different. *)
Definition pool_inv (s : kmem) (a : Spec.pool) : Prop :=
  kmem_inv kend s (Spec.free a) /\
  NoDup (Spec.free a ++ Spec.used a) /\ Forall (page_ok kend) (Spec.used a).

Lemma list_difference_notin (p : Z) (l : list Z) : p ∉ l -> list_difference l [p] = l.
Proof.
  induction l as [|q l IH]; intros Hp; [done|]. simpl.
  case_decide as E; [set_solver|]. f_equal. apply IH. set_solver.
Qed.

Lemma list_difference_single (p : Z) (l : list Z) :
  NoDup l -> p ∈ l -> p :: list_difference l [p] ≡ₚ l.
Proof.
  intros Hn Hp. induction Hn as [|q l Hq Hn IH]; [by apply elem_of_nil in Hp|].
  simpl. case_decide as E.
  - apply list_elem_of_singleton in E as ->. by rewrite list_difference_notin.
  - rewrite Permutation_swap. f_equiv. apply IH. set_solver.
Qed.

Lemma kstep_refines s a o r a' :
  pool_inv s a -> Spec.step o a = Some (r, a') ->
  exists s', kstep o s = Ok r s' /\ pool_inv s' a' /\
    Spec.free a' ++ Spec.used a' ≡ₚ Spec.free a ++ Spec.used a.
Proof.
  intros (Hk & Hn & Hu) Hstep. destruct a as [f u], o as [|p]; simpl in *.
  - destruct f as [|p f]; injection Hstep as <- <-.
    + exists s. split; [by apply (kalloc_empty kend)|]. split; [|done]. done.
    + destruct (kalloc_cons kend s p f Hk) as (s' & Hs & Hk' & _).
      exists s'. split; [done|]. simpl. split; [|by rewrite <- Permutation_middle].
      split; [done|]. simpl. split; [by rewrite <- Permutation_middle|].
      constructor; [|done]. apply (Forall_inv (ki_ok _ _ _ Hk)).
  - case_decide as Hp; [|done]. injection Hstep as <- <-.
    apply NoDup_app in Hn as (Hnf & Hfu & Hnu).
    destruct (kfree_good kend s p f Hk) as (s' & Hs & Hk' & _).
    { rewrite Forall_forall in Hu. by apply Hu. }
    { intros Hpf. by apply (Hfu p). }
    exists s'. unfold kstep. rewrite (bind_ok _ _ _ _ _ Hs).
    assert (Hperm : p :: f ++ list_difference u [p] ≡ₚ f ++ u).
    { rewrite Permutation_middle, list_difference_single by done. done. }
    split; [done|]. split; [|done]. split; [done|]. simpl. split.
    + change (NoDup (p :: f ++ list_difference u [p])). rewrite Hperm.
      by apply NoDup_app.
    + apply Forall_forall. intros q Hq. rewrite Forall_forall in Hu. apply Hu.
      apply list_elem_of_difference in Hq. tauto.
Qed.

End refinement.

(** * Initialisation *)

Fixpoint pages (a : Z) (n : nat) : list Z :=
  match n with
  | O => []
  | S n' => a :: pages (a + PG_SIZE) n'
  end.

Lemma elem_of_pages a n p :
  p ∈ pages a n <-> exists i : nat, (i < n)%nat /\ p = a + Z.of_nat i * PG_SIZE.
Proof.
  revert a. induction n as [|n IH]; intros a; simpl.
  - split; [by intros ?%elem_of_nil|]. intros (i & Hi & _). lia.
  - rewrite elem_of_cons, IH. split.
    + intros [->|(i & Hi & ->)]; [exists 0%nat; lia|exists (S i); lia].
    + intros ([|i] & Hi & ->); [left; lia|right; exists i; lia].
Qed.

Lemma length_pages a n : length (pages a n) = n.
Proof. revert a. induction n as [|n IH]; intros a; simpl; [done|]. by rewrite IH. Qed.

Lemma freerange_loop kend pa_end n : forall a l s fuel,
  kmem_inv kend s l -> Forall (page_ok kend) (pages a n) ->
  (forall p, p ∈ pages a n -> p ∉ l) ->
  0 < a -> pa_end < 2 ^ 64 - PG_SIZE ->
  a + Z.of_nat n * PG_SIZE <= pa_end < a + Z.of_nat (S n) * PG_SIZE ->
  (n < fuel)%nat ->
  exists s', loop fuel (freerange_body kend pa_end) a s = Ok tt s' /\
    kmem_inv kend s' (reverse (pages a n) ++ l).
Proof.
  induction n as [|n IH]; intros a l s fuel Hk Hp Hd Ha Hm He Hf;
    (destruct fuel as [|fuel]; [lia|]);
    assert (Hu : u64 (a + PG_SIZE) = a + PG_SIZE) by (apply u64_small; unfold PG_SIZE in *; lia).
  - exists s. split; [|done]. apply loop_exit. unfold freerange_body. rewrite Hu.
    destruct (Z.leb_spec (a + PG_SIZE) pa_end); [lia|done].
  - simpl in Hp. apply Forall_cons in Hp as [Hpa Hp].
    destruct (kfree_good kend s a l Hk Hpa) as (s' & Hs & Hk' & _); [apply Hd; left|].
    destruct (IH (a + PG_SIZE) (a :: l) s' fuel) as (s'' & Hs'' & Hk''); try done; try lia.
    { intros p Hin. rewrite not_elem_of_cons. split; [|apply Hd; by right].
      apply elem_of_pages in Hin as (i & _ & ->). unfold PG_SIZE. lia. }
    exists s''. split; [|simpl; by rewrite reverse_cons, <- app_assoc].
    rewrite <- Hs''. apply loop_next. unfold freerange_body. rewrite Hu.
    destruct (Z.leb_spec (a + PG_SIZE) pa_end); [|unfold PG_SIZE in *; lia]. unfold mbind, M_bind. by rewrite Hs.
Qed.

(** * Properties *)

(** C28: every sequence of [kalloc] and [kfree] calls in which callers free only
    pages they hold runs without panic and returns what the abstract
    allocator returns; throughout, the free pages and the pages in the
    callers' hands are pairwise different and together are the pages there
    were at the start (no page is lost or handed out twice). *)
Theorem kalloc_kfree_refine kend os s a rs a' :
  pool_inv kend s a -> Spec.run os a = Some (rs, a') ->
  exists s', krun kend os s = Ok rs s' /\ pool_inv kend s' a' /\
    Spec.free a' ++ Spec.used a' ≡ₚ Spec.free a ++ Spec.used a.
Proof.
  revert s a rs. induction os as [|o os IH]; intros s a rs Ha Hrun; simpl in Hrun.
  - injection Hrun as <- <-. by exists s.
  - destruct (Spec.step o a) as [[r a1]|] eqn:Hstep; [|done]. simpl in Hrun.
    destruct (Spec.run os a1) as [[rs1 a2]|] eqn:Hr; [|done]. injection Hrun as <- <-.
    destruct (kstep_refines kend s a o r a1 Ha Hstep) as (s1 & Hs1 & Ha1 & Hp1).
    destruct (IH s1 a1 rs1 Ha1 Hr) as (s2 & Hs2 & Ha2 & Hp2).
    exists s2. split; [|split; [done|by rewrite Hp2]].
    simpl. by rewrite (bind_ok _ _ _ _ _ Hs1), (bind_ok _ _ _ _ _ Hs2).
Qed.

(** An [end] as the linker script places it, with two free pages after it. *)
Definition kend_ex : Z := KERN_BASE + PHY_BASE + 0x80000.
Definition page_ex (i : Z) : Z := KERN_BASE + PHY_BASE + 0x100000 + i * PG_SIZE.
Definition kmem_ex : kmem :=
  Kmem (store64 (fun _ => 0) (page_ex 0) (page_ex 1)) (page_ex 0).

Lemma kmem_ex_inv : kmem_inv kend_ex kmem_ex [page_ex 0; page_ex 1].
Proof.
  split.
  - apply store64_ok. intros x. lia.
  - by vm_compute.
  - repeat constructor; by vm_compute.
  - constructor; [|apply NoDup_singleton]. intros E%list_elem_of_singleton. by vm_compute in E.
Qed.

Lemma kalloc_kfree_refine_witness :
  exists s', krun kend_ex [Spec.Alloc; Spec.Alloc; Spec.Alloc; Spec.Free (page_ex 0)] kmem_ex
      = Ok [page_ex 0; page_ex 1; 0; 0] s' /\
    pool_inv kend_ex s' (Spec.Pool [page_ex 0] [page_ex 1]) /\
    [page_ex 0; page_ex 1] ≡ₚ [page_ex 0; page_ex 1].
Proof.
  apply (kalloc_kfree_refine kend_ex
           [Spec.Alloc; Spec.Alloc; Spec.Alloc; Spec.Free (page_ex 0)] kmem_ex
           (Spec.Pool [page_ex 0; page_ex 1] [])
           [page_ex 0; page_ex 1; 0; 0] (Spec.Pool [page_ex 0] [page_ex 1])).
  - split; [apply kmem_ex_inv|]. split; [|by constructor].
    simpl. apply (ki_nodup _ _ _ kmem_ex_inv).
  - by vm_compute.
Defined.

(** The whole pages between the end of the kernel image and the top of memory:
    the first one and their number. *)
Definition kinit_first (kend : Z) : Z := PG_ROUND_UP kend.
Definition kinit_count (kend : Z) : nat := Z.to_nat ((KERN_BASE + PHY_STOP - kinit_first kend) / PG_SIZE).

Section kinit.
Variable kend : Z.
Hypothesis Hk : KERN_BASE + PHY_BASE <= kend <= KERN_BASE + PHY_STOP.

Lemma kinit_first_range :
  kend <= kinit_first kend < kend + PG_SIZE /\ page_aligned (kinit_first kend) /\
  kinit_first kend <= KERN_BASE + PHY_STOP.
Proof using Hk.
  unfold kinit_first. rewrite PG_ROUND_UP_div by (unfold KERN_BASE, PHY_STOP, PHY_BASE, PG_SIZE in *; lia).
  unfold page_aligned, PG_SIZE, KERN_BASE, PHY_STOP, PHY_BASE in *. zlia.
Qed.

Lemma elem_of_kinit p :
  p ∈ pages (kinit_first kend) (kinit_count kend) <->
  page_aligned p /\ kend <= p /\ p + PG_SIZE <= KERN_BASE + PHY_STOP.
Proof using Hk.
  pose proof kinit_first_range as Hr. rewrite elem_of_pages. unfold kinit_count.
  unfold page_aligned, PG_SIZE, KERN_BASE, PHY_STOP, PHY_BASE in *. split.
  - intros (i & Hi & ->). zlia.
  - intros (Hp1 & Hp2 & Hp3). exists (Z.to_nat ((p - kinit_first kend) / 4096)). zlia.
Qed.

Lemma kinit_list s fuel :
  bytes_ok (km_mem s) -> km_freelist s = 0 -> (Z.to_nat 32768 < fuel)%nat ->
  exists s', kinit kend fuel s = Ok tt s' /\
    kmem_inv kend s' (reverse (pages (kinit_first kend) (kinit_count kend))).
Proof using Hk.
  intros Hb Hf Hfuel. pose proof kinit_first_range as Hr.
  assert (Hu : u64 (KERN_BASE + kend) <= kend).
  { unfold KERN_BASE, PHY_STOP, PHY_BASE in *. zlia. }
  destruct (freerange_loop kend (KERN_BASE + PHY_STOP) (kinit_count kend) (kinit_first kend) [] s fuel) as (s' & Hs & Hinv).
  - split; [done|done|constructor|constructor].
  - apply Forall_forall. intros p (Hp1 & Hp2 & Hp3)%elem_of_kinit.
    split; [done|]. unfold PG_SIZE, KERN_BASE, PHY_STOP, PHY_BASE in *. lia.
  - intros p _. apply not_elem_of_nil.
  - unfold KERN_BASE, PHY_STOP, PHY_BASE in *. lia.
  - unfold KERN_BASE, PHY_STOP, PHY_BASE, PG_SIZE. lia.
  - unfold kinit_count, PG_SIZE in *. zlia.
  - unfold kinit_count, KERN_BASE, PHY_STOP, PHY_BASE, PG_SIZE in *. zlia.
  - exists s'. rewrite app_nil_r in Hinv. by split.
Qed.
End kinit.

(** [kinit] terminates and leaves on the free list exactly the whole pages
    between the end of the kernel image and the top of physical memory, each
    of them once. *)
Theorem kinit_frees_all kend s fuel :
  KERN_BASE + PHY_BASE <= kend <= KERN_BASE + PHY_STOP ->
  bytes_ok (km_mem s) -> km_freelist s = 0 -> (Z.to_nat 32768 < fuel)%nat ->
  exists s' l, kinit kend fuel s = Ok tt s' /\ kmem_inv kend s' l /\
    (forall p, p ∈ l <->
       page_aligned p /\ kend <= p /\ p + PG_SIZE <= KERN_BASE + PHY_STOP).
Proof.
  intros Hk Hb Hf Hfuel. destruct (kinit_list kend Hk s fuel Hb Hf Hfuel) as (s' & Hs & Hi).
  exists s', (reverse (pages (kinit_first kend) (kinit_count kend))). split_and!; [done|done|].
  intros p. rewrite elem_of_reverse. by apply elem_of_kinit.
Qed.

Lemma kinit_frees_all_witness :
  exists s' l, kinit kend_ex (Z.to_nat 32769) (Kmem (fun _ => 0) 0) = Ok tt s' /\
    kmem_inv kend_ex s' l /\
    (forall p, p ∈ l <->
       page_aligned p /\ kend_ex <= p /\ p + PG_SIZE <= KERN_BASE + PHY_STOP).
Proof.
  apply (kinit_frees_all kend_ex (Kmem (fun _ => 0) 0) (Z.to_nat 32769)).
  - by vm_compute.
  - intros x. simpl. lia.
  - done.
  - apply Z2Nat.inj_lt; lia.
Defined.

(** [kfree] panics on a page that is unaligned, below
    [u64 (KERN_BASE + end)] or at or above the top of memory.  Since the linker
    places [end] in the kernel half, that sum wraps and the lower bound lies
    below all of RAM: a page of the kernel image itself is accepted and put
    on the free list. *)
Theorem kfree_lower_bound_wraps kend s p l :
  KERN_BASE + PHY_BASE <= kend <= KERN_BASE + PHY_STOP -> kmem_inv kend s l -> p ∉ l ->
  page_aligned p -> KERN_BASE + PHY_BASE <= p < kend -> p < KERN_BASE + PHY_STOP ->
  exists s', kfree kend p s = Ok tt s' /\ kmem_inv kend s' (p :: l).
Proof.
  intros Hk Hinv Hpl Ha Hp Hs.
  destruct (kfree_good kend s p l Hinv) as (s' & Hs' & Hinv' & _); [|done|by exists s'].
  split; [done|]. unfold KERN_BASE, PHY_STOP, PHY_BASE in *. zlia.
Qed.

Lemma kfree_lower_bound_wraps_witness :
  exists s', kfree kend_ex (KERN_BASE + PHY_BASE) (Kmem (fun _ => 0) 0) = Ok tt s' /\
    kmem_inv kend_ex s' [KERN_BASE + PHY_BASE].
Proof.
  apply (kfree_lower_bound_wraps kend_ex (Kmem (fun _ => 0) 0) (KERN_BASE + PHY_BASE) []);
    try by vm_compute.
  - split; simpl; [intros x; lia|done|constructor|constructor].
  - apply not_elem_of_nil.
Defined.
