(* ===== verification/Vm.v ===== *)
(** Virtual memory, [kernel/vm.c]: four-level page tables kept in physical
    pages, and the copies between user and kernel memory.

    Page tables live in the byte memory of [Kalloc.kmem]; a pointer is the
    kernel virtual address of the word it points to, 0 for NULL.  This file
    holds the operations; [VmTables] holds the page-table invariant and the
    theorems. *)

From S2P Require Import Prelude CString Layout Kalloc.

Section vm.
Variable kend : Z.

(** The body of the loop of [walk] at one level: the next table, or [None]
    for [return NULL]. *)
Definition walk_level (alloc : bool) (vaddr level pde : Z) : M kmem (option Z) :=
  let pte := u64 (pde + 8 * PX level vaddr) in
  e ← gets (fun s => load64 (km_mem s) pte);
  if Z.land e MM_TYPE_MASK =? MM_TYPE_TABLE
  then mret (Some (P2V (Z.land e PG_ADDR_MASK)))
  else if ctrue (Z.land e MM_TYPE_VALID) then mret None
  else if negb alloc then mret None
  else
    new ← kalloc;
    if new =? 0 then mret None
    else
      modify (set_mem (fun m => memset m new 0 PG_SIZE));;
      modify (set_mem (fun m => store64 m pte (Z.lor (V2P new) MM_TYPE_TABLE)));;
      mret (Some new).

Fixpoint walk_levels (alloc : bool) (vaddr : Z) (levels : list Z) (pde : Z) :
    M kmem (option Z) :=
  match levels with
  | [] => mret (Some pde)
  | level :: levels' =>
      r ← walk_level alloc vaddr level pde;
      match r with
      | None => mret None
      | Some pde' => walk_levels alloc vaddr levels' pde'
      end
  end.

Definition walk (pde vaddr : Z) (alloc : bool) : M kmem Z :=
  r ← walk_levels alloc vaddr [0; 1; 2] pde;
  match r with
  | None => mret 0
  | Some pde' => mret (u64 (pde' + 8 * PX 3 vaddr))
  end.

(** One iteration of [mappages]; the loop variables are [a] and [paddr]. *)
Definition mappages_body (pde last flags : Z) (v : Z * Z) : M kmem (Z * Z + Z) :=
  let '(a, paddr) := v in
  pte ← walk pde a true;
  if pte =? 0 then mret (inr (-1))
  else
    e ← gets (fun s => load64 (km_mem s) pte);
    if ctrue (Z.land e MM_TYPE_VALID) then panic "mappages: remap"
    else
      modify (set_mem (fun m => store64 m pte (Z.lor (Z.land paddr PG_ADDR_MASK) flags)));;
      if a =? last then mret (inr 0)
      else mret (inl (u64 (a + PG_SIZE), u64 (paddr + PG_SIZE))).

Definition mappages (pde vaddr paddr size flags : Z) : M kmem Z :=
  if size =? 0 then panic "mappages: size"
  else
    let a := PG_ROUND_DOWN vaddr in
    let last := PG_ROUND_DOWN (u64 (vaddr + size - 1)) in
    loop (Z.to_nat (size / PG_SIZE + 2)) (mappages_body pde last flags) (a, paddr).

Definition uvmunmap_body (pde limit : Z) (do_free : bool) (a : Z) : M kmem (Z + unit) :=
  if a <? limit then
    pte ← walk pde a false;
    if pte =? 0 then panic "uvmunmap: walk"
    else
      e ← gets (fun s => load64 (km_mem s) pte);
      if Z.land e MM_TYPE_VALID =? 0 then panic "uvmunmap: not mapped"
      else if negb (Z.land e MM_TYPE_MASK =? MM_TYPE_PAGE) then panic "uvmunmap: not a leaf"
      else
        when do_free (kfree kend (P2V (Z.land e PG_ADDR_MASK)));;
        modify (set_mem (fun m => store64 m pte 0));;
        mret (inl (u64 (a + PG_SIZE)))
  else mret (inr tt).

Definition uvmunmap (pde vaddr npages : Z) (do_free : bool) : M kmem unit :=
  if negb (vaddr mod PG_SIZE =? 0) then panic "uvmunmap: not aligned"
  else
    loop (Z.to_nat (npages + 1))
      (uvmunmap_body pde (u64 (vaddr + npages * PG_SIZE)) do_free) vaddr.

(** [freewalk] on a table, the loop from entry [i] with [n] entries left;
    [rec] is the recursive call. *)
Fixpoint freewalk_entries (rec : Z -> M kmem unit) (pde : Z) (n : nat) (i : Z) : M kmem unit :=
  match n with
  | O => mret tt
  | S n' =>
      e ← gets (fun s => load64 (km_mem s) (pde + 8 * i));
      (if Z.land e MM_TYPE_MASK =? MM_TYPE_TABLE then
         rec (P2V (Z.land e PG_ADDR_MASK));;
         modify (set_mem (fun m => store64 m (pde + 8 * i) 0))
       else when (ctrue (Z.land e MM_TYPE_VALID)) (panic "freewalk: leaf"));;
      freewalk_entries rec pde n' (i + 1)
  end.

(** The recursion descends one level per unit of [depth]; the user tables have
    four levels. *)
Fixpoint freewalk (depth : nat) (pde : Z) : M kmem unit :=
  match depth with
  | O => nofuel
  | S depth' =>
      freewalk_entries (freewalk depth') pde (Z.to_nat PX_ENTRY_CNT) 0;;
      kfree kend pde
  end.

Definition uvmfree (depth : nat) (pde size : Z) : M kmem unit :=
  when (0 <? size) (uvmunmap pde 0 (PG_ROUND_UP size / PG_SIZE) true);;
  freewalk depth pde.

Definition uvmcreate : M kmem Z :=
  pde ← kalloc;
  if pde =? 0 then mret 0
  else
    modify (set_mem (fun m => memset m pde 0 PG_SIZE));;
    mret pde.

Definition uvmfirst (pde src size : Z) : M kmem unit :=
  let size := u32 size in
  if PG_SIZE <? size then panic "uvmfirst: more than a page"
  else
    mem ← kalloc;
    modify (set_mem (fun m => memset m mem 0 PG_SIZE));;
    mappages pde 0 (V2P mem) PG_SIZE USER_4K_PAGE_RO;;
    modify (set_mem (fun m => memmove m mem src size)).

Definition walkaddr (pde vaddr : Z) : M kmem Z :=
  if MAXVA <=? vaddr then mret 0
  else
    pte ← walk pde vaddr false;
    if pte =? 0 then mret 0
    else
      e ← gets (fun s => load64 (km_mem s) pte);
      if negb (Z.land e MM_TYPE_MASK =? MM_TYPE_PAGE) then mret 0
      else if Z.land e AP_USER =? 0 then mret 0
      else mret (P2V (Z.land e PG_ADDR_MASK)).

(** The inner loop of [copyinstr]: [n] bytes left in the page, at most [n];
    [inl] is the pair of the new [dst] and [max], [inr] a NUL found. *)
Fixpoint copyinstr_page (n : nat) (p dst max : Z) : M kmem (Z * Z + unit) :=
  match n with
  | O => mret (inl (dst, max))
  | S n' =>
      c ← gets (fun s => km_mem s p);
      if c =? 0 then
        modify (set_mem (fun m => store8 m dst 0));; mret (inr tt)
      else
        modify (set_mem (fun m => store8 m dst c));;
        copyinstr_page n' (p + 1) (dst + 1) (max - 1)
  end.

Definition copyinstr_body (pde : Z) (v : Z * Z * Z) : M kmem (Z * Z * Z + Z) :=
  let '(dst, srcvaddr, max) := v in
  if 0 <? max then
    let va0 := PG_ROUND_DOWN srcvaddr in
    pa0 ← walkaddr pde va0;
    if pa0 =? 0 then mret (inr (-1))
    else
      let n := Z.min (PG_SIZE - (srcvaddr - va0)) max in
      r ← copyinstr_page (Z.to_nat n) (pa0 + (srcvaddr - va0)) dst max;
      match r with
      | inr _ => mret (inr 0)
      | inl (dst', max') => mret (inl (dst', u64 (va0 + PG_SIZE), max'))
      end
  else mret (inr (-1)).

Definition copyinstr (pde dst srcvaddr max : Z) : M kmem Z :=
  loop (Z.to_nat (max / PG_SIZE + 3)) (copyinstr_body pde) (dst, srcvaddr, max).

Definition copyin_body (pde : Z) (v : Z * Z * Z) : M kmem (Z * Z * Z + Z) :=
  let '(dst, srcvaddr, len) := v in
  if 0 <? len then
    let va0 := PG_ROUND_DOWN srcvaddr in
    pa0 ← walkaddr pde va0;
    if pa0 =? 0 then mret (inr (-1))
    else
      let n := Z.min (PG_SIZE - (srcvaddr - va0)) len in
      modify (set_mem (fun m => memmove m dst (pa0 + (srcvaddr - va0)) n));;
      mret (inl (dst + n, u64 (va0 + PG_SIZE), len - n))
  else mret (inr 0).

Definition copyin (pde dst srcvaddr len : Z) : M kmem Z :=
  loop (Z.to_nat (len / PG_SIZE + 3)) (copyin_body pde) (dst, srcvaddr, len).

Definition copyout_body (pde : Z) (v : Z * Z * Z) : M kmem (Z * Z * Z + Z) :=
  let '(dstvaddr, src, len) := v in
  if 0 <? len then
    let va0 := PG_ROUND_DOWN dstvaddr in
    pa0 ← walkaddr pde va0;
    if pa0 =? 0 then mret (inr (-1))
    else
      let n := Z.min (PG_SIZE - (dstvaddr - va0)) len in
      modify (set_mem (fun m => memmove m (pa0 + (dstvaddr - va0)) src n));;
      mret (inl (u64 (va0 + PG_SIZE), src + n, len - n))
  else mret (inr 0).

Definition copyout (pde dstvaddr src len : Z) : M kmem Z :=
  loop (Z.to_nat (len / PG_SIZE + 3)) (copyout_body pde) (dstvaddr, src, len).

Definition uvmdealloc (pde oldsz newsz : Z) : M kmem Z :=
  if oldsz <=? newsz then mret oldsz
  else
    when (PG_ROUND_UP newsz <? PG_ROUND_UP oldsz) (
      let npages := s32 ((PG_ROUND_UP oldsz - PG_ROUND_UP newsz) / PG_SIZE) in
      uvmunmap pde (PG_ROUND_UP newsz) (u64 npages) true);;
    mret newsz.

Definition uvmalloc_body (pde oldsz newsz flags a : Z) : M kmem (Z + Z) :=
  if a <? newsz then
    mem ← kalloc;
    if mem =? 0 then
      uvmdealloc pde a oldsz;; mret (inr 0)
    else
      modify (set_mem (fun m => memset m mem 0 PG_SIZE));;
      r ← mappages pde a mem PG_SIZE flags;
      if negb (r =? 0) then
        kfree kend mem;;
        uvmdealloc pde a oldsz;;
        mret (inr 0)
      else mret (inl (u64 (a + PG_SIZE)))
  else mret (inr newsz).

Definition uvmalloc (pde oldsz newsz flags : Z) : M kmem Z :=
  if newsz <? oldsz then mret oldsz
  else
    let oldsz := PG_ROUND_UP oldsz in
    loop (Z.to_nat ((newsz - oldsz) / PG_SIZE + 2)) (uvmalloc_body pde oldsz newsz flags) oldsz.

Definition uvmclear (pde vaddr : Z) : M kmem unit :=
  pte ← walk pde vaddr false;
  if pte =? 0 then panic "uvmclear"
  else
    e ← gets (fun s => load64 (km_mem s) pte);
    modify (set_mem (fun m =>
      store64 m pte (Z.lor (Z.land e (Z.lnot MASK_4K_PAGE)) KERNEL_4K_PAGE))).

(** The error exit of [uvmcopy]. *)
Definition uvmcopy_err (new i : Z) : M kmem (Z + Z) :=
  uvmunmap new 0 (i / PG_SIZE) true;; mret (inr (-1)).

Definition uvmcopy_body (old new size i : Z) : M kmem (Z + Z) :=
  if i <? size then
    pte ← walk old i false;
    if pte =? 0 then panic "uvmcopy: pte should exist"
    else
      e ← gets (fun s => load64 (km_mem s) pte);
      if Z.land e MM_TYPE_VALID =? 0 then panic "uvmcopy: page not present"
      else
        let paddr := P2V (Z.land e PG_ADDR_MASK) in
        mem ← kalloc;
        if mem =? 0 then uvmcopy_err new i
        else
          modify (set_mem (fun m => memmove m mem paddr PG_SIZE));;
          flags ← gets (fun s => Z.land (load64 (km_mem s) pte) MASK_4K_PAGE);
          r ← mappages new i mem PG_SIZE flags;
          if negb (r =? 0) then kfree kend mem;; uvmcopy_err new i
          else mret (inl (u64 (i + PG_SIZE)))
  else mret (inr 0).

Definition uvmcopy (old new size : Z) : M kmem Z :=
  loop (Z.to_nat (size / PG_SIZE + 2)) (uvmcopy_body old new size) 0.
End vm.
