(* ===== verification/VmTables.v ===== *)
(** The page-table invariant and the theorems on [kernel/vm.c].

    Every page the kernel has handed out has a [role]: a page table of the
    address space rooted at [r] ([Tab r k pre]: level [k], the [pre]-th table
    of that level counting virtual addresses upward), a data page of virtual
    page [v] of that space ([Dat r v]), or something else ([Other]).
    [vm_inv] says that the bytes in memory are page tables that agree with
    the roles.  The abstract view of an address space is the function
    [leaf]: the leaf entry of each virtual page, 0 when there is none. *)

From stdpp Require Import gmap.
From S2P Require Import Prelude CString Layout Kalloc Vm.

(** * Page table entries *)

Section tables.
Context `{KE : KernelEnd}.

(** A page of the pool set up by [kinit]. *)
Definition kpage (p : Z) : Prop :=
  page_aligned p /\ kend <= p /\ p + PG_SIZE <= KERN_BASE + PHY_STOP.

Definition pte_tab (c : Z) : Z := Z.lor (V2P c) MM_TYPE_TABLE.

Definition pte_leaf (e d : Z) : Prop :=
  0 <= e < 2 ^ 64 /\ Z.land e MM_TYPE_MASK = MM_TYPE_PAGE /\ Z.land e PG_ADDR_MASK = V2P d.

Ltac layout := pose proof kend_ok; unfold page_aligned, KERN_BASE, PHY_STOP, PHY_BASE, PG_SIZE in *.

Lemma kpage_ok p : kpage p -> page_ok kend p.
Proof. intros (Ha & Hl & Hh). split; [done|]. layout. zlia. Qed.

Lemma kpage_V2P p : kpage p -> V2P p = p - KERN_BASE.
Proof. intros (Ha & Hl & Hh). unfold V2P. apply u64_small. layout. lia. Qed.

Lemma kpage_P2V_V2P p : kpage p -> P2V (V2P p) = p.
Proof.
  intros Hp. rewrite kpage_V2P by done. destruct Hp as (Ha & Hl & Hh).
  unfold P2V. rewrite u64_small; layout; lia.
Qed.

Lemma land_addr_mask x :
  Z.land x PG_ADDR_MASK = (x / PG_SIZE * PG_SIZE) mod 2 ^ 48.
Proof.
  change PG_ADDR_MASK with (Z.land (Z.lnot (2 ^ 12 - 1)) (Z.ones 48)).
  by rewrite Z.land_assoc, land_lnot_ones, Z.land_ones.
Qed.

Lemma kpage_addr_mask p : kpage p -> Z.land p PG_ADDR_MASK = V2P p.
Proof.
  intros Hp. rewrite land_addr_mask, kpage_V2P by done.
  destruct Hp as (Ha & Hl & Hh). layout. zlia.
Qed.

Lemma V2P_addr_mask p : kpage p -> Z.land (V2P p) PG_ADDR_MASK = V2P p.
Proof.
  intros Hp. rewrite land_addr_mask, kpage_V2P by done.
  destruct Hp as (Ha & Hl & Hh). layout. zlia.
Qed.

Lemma V2P_type_mask p : kpage p -> Z.land (V2P p) 3 = 0.
Proof.
  intros Hp. change 3 with (Z.ones 2). rewrite Z.land_ones, kpage_V2P by done.
  destruct Hp as (Ha & Hl & Hh). layout. zlia.
Qed.

Lemma lor_range a b n : 0 <= n -> 0 <= a < 2 ^ n -> 0 <= b < 2 ^ n -> 0 <= Z.lor a b < 2 ^ n.
Proof.
  intros Hn Ha Hb. split; [apply Z.lor_nonneg; lia|].
  destruct (decide (Z.lor a b = 0)) as [->|]; [by apply Z.pow_pos_nonneg|].
  apply Z.log2_lt_pow2; [pose proof (proj2 (Z.lor_nonneg a b)); lia|].
  rewrite Z.log2_lor by lia. apply Z.max_lub_lt.
  - destruct (decide (a = 0)) as [->|]; [|apply Z.log2_lt_pow2; lia].
    simpl. destruct (decide (n = 0)) as [->|]; [|lia].
    exfalso. simpl in *. assert (b = 0) by lia. by subst.
  - destruct (decide (b = 0)) as [->|]; [|apply Z.log2_lt_pow2; lia].
    simpl. destruct (decide (n = 0)) as [->|]; [|lia].
    exfalso. simpl in *. assert (a = 0) by lia. by subst.
Qed.

Lemma pte_tab_type c : kpage c -> Z.land (pte_tab c) MM_TYPE_MASK = MM_TYPE_TABLE.
Proof.
  intros. unfold pte_tab, MM_TYPE_MASK, MM_TYPE_TABLE.
  by rewrite Z.land_lor_distr_l, V2P_type_mask.
Qed.

Lemma pte_tab_addr c : kpage c -> P2V (Z.land (pte_tab c) PG_ADDR_MASK) = c.
Proof.
  intros. unfold pte_tab. rewrite Z.land_lor_distr_l, V2P_addr_mask by done.
  change (Z.land MM_TYPE_TABLE PG_ADDR_MASK) with 0. rewrite Z.lor_0_r.
  by apply kpage_P2V_V2P.
Qed.

Lemma pte_tab_u64 c : u64 (pte_tab c) = pte_tab c.
Proof.
  apply u64_small. apply lor_range; [lia|apply u64_range|]. by vm_compute.
Qed.

Lemma pte_tab_inj c c' : kpage c -> kpage c' -> pte_tab c = pte_tab c' -> c = c'.
Proof. intros Hc Hc' E. rewrite <- (pte_tab_addr c), <- (pte_tab_addr c') by done. by rewrite E. Qed.

Lemma pte_tab_nonzero c : kpage c -> pte_tab c <> 0.
Proof. intros Hc E. pose proof (pte_tab_type c Hc) as H. by rewrite E in H. Qed.

Lemma pte_leaf_nonzero e d : pte_leaf e d -> e <> 0.
Proof. intros (_ & H & _) ->. by vm_compute in H. Qed.

Lemma pte_leaf_addr e d : kpage d -> pte_leaf e d -> P2V (Z.land e PG_ADDR_MASK) = d.
Proof. intros Hd (_ & _ & ->). by apply kpage_P2V_V2P. Qed.

Lemma type_valid e : Z.land e MM_TYPE_MASK = 3 -> Z.land e MM_TYPE_VALID = 1.
Proof.
  intros H. change MM_TYPE_VALID with (Z.land MM_TYPE_MASK 1).
  by rewrite Z.land_assoc, H.
Qed.

(** The flag words the kernel puts in leaf entries. *)
Definition leaf_flags (f : Z) : Prop :=
  0 <= f < 2 ^ 64 /\ Z.land f MM_TYPE_MASK = MM_TYPE_PAGE /\ Z.land f PG_ADDR_MASK = 0.

Lemma pte_leaf_make d f :
  kpage d -> leaf_flags f -> pte_leaf (Z.lor (Z.land d PG_ADDR_MASK) f) d.
Proof.
  intros Hd (Hr & Ht & Ha). rewrite kpage_addr_mask by done. split; [|split].
  - apply lor_range; [lia|apply u64_range|done].
  - unfold MM_TYPE_MASK in *. rewrite Z.land_lor_distr_l, V2P_type_mask by done. by rewrite Ht.
  - rewrite Z.land_lor_distr_l, V2P_addr_mask by done. by rewrite Ha, Z.lor_0_r.
Qed.

(** * Roles and the invariant *)

Inductive role : Type :=
  | Tab (r : Z) (k : nat) (pre : Z)
  | Dat (r v : Z)
  | Other.

Definition ent (m : mem) (p i : Z) : Z := load64 m (p + 8 * i).

(** [pre k va]: the number, among the level-[k] tables, of the one that covers
    [va]; [vpn va = pre 4 va] is the virtual page number. *)
Fixpoint pre (k : nat) (va : Z) : Z :=
  match k with
  | O => 0
  | S k' => pre k' va * 512 + PX (Z.of_nat k') va
  end.

Definition vpn (va : Z) : Z := pre 4 va.

Record vm_inv (s : kmem) (l : list Z) (O : gmap Z role) : Prop := {
  vi_kmem : kmem_inv kend s l;
  vi_pool : Forall kpage l;
  vi_free : forall p, p ∈ l -> O !! p = None;
  vi_page : forall p ρ, O !! p = Some ρ -> kpage p;
  vi_root : forall p r b, O !! p = Some (Tab r 0 b) -> p = r /\ b = 0;
  vi_tab : forall p r k b i, O !! p = Some (Tab r k b) -> (k < 3)%nat -> 0 <= i < 512 ->
    ent (km_mem s) p i = 0 \/
    exists c, ent (km_mem s) p i = pte_tab c /\ O !! c = Some (Tab r (S k) (b * 512 + i));
  vi_leaf : forall p r b i, O !! p = Some (Tab r 3 b) -> 0 <= i < 512 ->
    ent (km_mem s) p i = 0 \/
    exists d, pte_leaf (ent (km_mem s) p i) d /\ O !! d = Some (Dat r (b * 512 + i));
  vi_up : forall c r k b, O !! c = Some (Tab r (S k) b) ->
    (k < 3)%nat /\ exists p, O !! p = Some (Tab r k (b / 512)) /\
      ent (km_mem s) p (b mod 512) = pte_tab c;
  vi_dat : forall d r v, O !! d = Some (Dat r v) ->
    exists p, O !! p = Some (Tab r 3 (v / 512)) /\ pte_leaf (ent (km_mem s) p (v mod 512)) d;
}.

Lemma vi_bytes s l O : vm_inv s l O -> bytes_ok (km_mem s).
Proof. intros H. apply (ki_bytes _ _ _ (vi_kmem _ _ _ H)). Qed.

Lemma pre_div k va : (k < 4)%nat -> pre (S k) va / 512 = pre k va.
Proof. intros. simpl. pose proof (PX_range (Z.of_nat k) va). zlia. Qed.

Lemma pre_mod k va : (k < 4)%nat -> pre (S k) va mod 512 = PX (Z.of_nat k) va.
Proof. intros. simpl. pose proof (PX_range (Z.of_nat k) va). zlia. Qed.

(** A page has at most one role, and a table role at most one page. *)
Lemma tab_unique s l O p p' r k b :
  vm_inv s l O -> O !! p = Some (Tab r k b) -> O !! p' = Some (Tab r k b) -> p = p'.
Proof.
  intros HI. revert p p' b. induction k as [|k IH]; intros p p' b Hp Hp'.
  - destruct (vi_root _ _ _ HI _ _ _ Hp), (vi_root _ _ _ HI _ _ _ Hp'). congruence.
  - destruct (vi_up _ _ _ HI _ _ _ _ Hp) as (_ & q & Hq & Eq).
    destruct (vi_up _ _ _ HI _ _ _ _ Hp') as (_ & q' & Hq' & Eq').
    assert (q = q') as <- by (by eapply IH).
    apply pte_tab_inj; [by eapply vi_page..|congruence].
Qed.

(** Entries of distinct slots do not overlap. *)
Lemma ent_disjoint p q i j :
  page_aligned p -> page_aligned q -> 0 <= i < 512 -> 0 <= j < 512 -> (p, i) <> (q, j) ->
  p + 8 * i + 8 <= q + 8 * j \/ q + 8 * j + 8 <= p + 8 * i.
Proof.
  intros Hp Hq Hi Hj Hne. destruct (decide (p = q)) as [->|Hpq].
  - destruct (decide (i = j)) as [->|]; [done|lia].
  - destruct (page_aligned_disjoint p q Hp Hq Hpq); unfold PG_SIZE in *; lia.
Qed.

Lemma kpage_slot p i : kpage p -> 0 <= i < 512 -> u64 (p + 8 * i) = p + 8 * i.
Proof. intros (Ha & Hl & Hh) Hi. apply u64_small. layout. lia. Qed.

Lemma kpage_ne_0 p : kpage p -> p <> 0.
Proof. intros (Ha & Hl & Hh). layout. lia. Qed.

(** * Walking without allocation *)

Definition tab_next (m : mem) (p i : Z) : option Z :=
  let e := load64 m (u64 (p + 8 * i)) in
  if Z.land e MM_TYPE_MASK =? MM_TYPE_TABLE then Some (P2V (Z.land e PG_ADDR_MASK)) else None.

(** The level-[k] table that covers [va], if there is one. *)
Fixpoint tab_path (m : mem) (r va : Z) (k : nat) : option Z :=
  match k with
  | O => Some r
  | S k' => p ← tab_path m r va k'; tab_next m p (PX (Z.of_nat k') va)
  end.

(** The address of the leaf slot of [va], 0 if its table does not exist. *)
Definition slot (m : mem) (r va : Z) : Z :=
  match tab_path m r va 3 with
  | Some p => u64 (p + 8 * PX 3 va)
  | None => 0
  end.

Definition leaf (m : mem) (r va : Z) : Z :=
  match tab_path m r va 3 with
  | Some p => load64 m (u64 (p + 8 * PX 3 va))
  | None => 0
  end.

Lemma walk_level_ro va level p s :
  walk_level false va level p s = Ok (tab_next (km_mem s) p (PX level va)) s.
Proof.
  unfold walk_level, tab_next, mbind, M_bind, gets. simpl.
  destruct (_ =? MM_TYPE_TABLE); [done|]. by destruct (ctrue _).
Qed.

Lemma walk_ro r va s : walk r va false s = Ok (slot (km_mem s) r va) s.
Proof.
  unfold walk, walk_levels, slot. unfold mbind, M_bind. rewrite walk_level_ro. cbn [tab_path].
  unfold mbind, option_bind. change (Z.of_nat 0) with 0. change (Z.of_nat 1) with 1.
  change (Z.of_nat 2) with 2.
  destruct (tab_next (km_mem s) r (PX 0 va)) as [p1|]; [|done]. rewrite walk_level_ro.
  destruct (tab_next (km_mem s) p1 (PX 1 va)) as [p2|]; [|done]. rewrite walk_level_ro.
  by destruct (tab_next (km_mem s) p2 (PX 2 va)) as [p3|].
Qed.

Lemma tab_next_table s l O p r k b i c :
  vm_inv s l O -> O !! p = Some (Tab r k b) -> (k < 3)%nat -> 0 <= i < 512 ->
  tab_next (km_mem s) p i = Some c <->
  ent (km_mem s) p i = pte_tab c /\ O !! c = Some (Tab r (S k) (b * 512 + i)).
Proof.
  intros HI Hp Hk Hi. unfold tab_next. fold (ent (km_mem s) p i).
  rewrite kpage_slot by (done || by eapply vi_page). fold (ent (km_mem s) p i).
  destruct (vi_tab _ _ _ HI _ _ _ _ _ Hp Hk Hi) as [->|(c' & -> & Hc')].
  - change (Z.land 0 MM_TYPE_MASK) with 0. simpl. split; [done|]. intros [E Hc].
    destruct (pte_tab_nonzero c); [by eapply vi_page|done].
  - assert (kpage c') by (by eapply vi_page).
    rewrite pte_tab_type, pte_tab_addr by done. simpl. split.
    + intros [= <-]. done.
    + intros [E Hc]. f_equal. apply pte_tab_inj; [done| |done]. by eapply vi_page.
Qed.

Lemma tab_path_spec s l O r va k p :
  vm_inv s l O -> O !! r = Some (Tab r 0 0) -> (k <= 3)%nat ->
  tab_path (km_mem s) r va k = Some p <-> O !! p = Some (Tab r k (pre k va)).
Proof.
  intros HI Hr. revert p. induction k as [|k IH]; intros p Hk.
  - simpl. split; [by intros [= <-]|]. intros Hp.
    destruct (vi_root _ _ _ HI _ _ _ Hp). congruence.
  - cbn [tab_path]. pose proof (PX_range (Z.of_nat k) va ltac:(lia)) as HPX. split.
    + intros (q & Hq & Hn)%bind_Some. apply IH in Hq; [|lia].
      by apply (tab_next_table s l O q r k (pre k va)) in Hn as [_ ?]; [|done..|lia].
    + intros Hp. destruct (vi_up _ _ _ HI _ _ _ _ Hp) as (_ & q & Hq & Eq).
      rewrite pre_div in Hq by lia. rewrite pre_mod in Eq by lia.
      apply bind_Some. exists q. split; [apply IH; [lia|done]|].
      by apply (tab_next_table s l O q r k (pre k va)); [..|lia|].
Qed.

Lemma leaf_tab s l O r va p :
  vm_inv s l O -> O !! r = Some (Tab r 0 0) -> O !! p = Some (Tab r 3 (pre 3 va)) ->
  leaf (km_mem s) r va = ent (km_mem s) p (PX 3 va) /\
  slot (km_mem s) r va = p + 8 * PX 3 va.
Proof.
  intros HI Hr Hp. unfold leaf, slot. rewrite (proj2 (tab_path_spec s l O r va 3 p HI Hr ltac:(lia)) Hp).
  rewrite kpage_slot; [done|by eapply vi_page|]. apply PX_range. lia.
Qed.

Lemma leaf_none s l O r va :
  vm_inv s l O -> O !! r = Some (Tab r 0 0) ->
  (forall p, O !! p <> Some (Tab r 3 (pre 3 va))) ->
  leaf (km_mem s) r va = 0 /\ slot (km_mem s) r va = 0.
Proof.
  intros HI Hr Hn. unfold leaf, slot.
  destruct (tab_path (km_mem s) r va 3) as [p|] eqn:E; [|done].
  apply (tab_path_spec s l O) in E; [|done..|lia]. by destruct (Hn p).
Qed.

(** [leaf] in terms of the roles: either the leaf table of [va] exists and
    [e] is the entry in it, or it does not and [e] is 0. *)
Definition leaf_is (O : gmap Z role) (m : mem) (r va e : Z) : Prop :=
  (exists p, O !! p = Some (Tab r 3 (pre 3 va)) /\ e = ent m p (PX 3 va)) \/
  ((forall p, O !! p <> Some (Tab r 3 (pre 3 va))) /\ e = 0).

Lemma leaf_is_leaf s l O r va :
  vm_inv s l O -> O !! r = Some (Tab r 0 0) -> leaf_is O (km_mem s) r va (leaf (km_mem s) r va).
Proof.
  intros HI Hr. destruct (tab_path (km_mem s) r va 3) as [p|] eqn:E.
  - apply (tab_path_spec s l O) in E; [|done..|lia]. left. exists p. split; [done|].
    by apply (leaf_tab s l O).
  - right. assert (Hn : forall p, O !! p <> Some (Tab r 3 (pre 3 va))).
    { intros p Hp. apply (tab_path_spec s l O) in Hp; [|done..|lia]. congruence. }
    split; [done|]. by apply (leaf_none s l O).
Qed.

Lemma leaf_is_unique s l O r va e :
  vm_inv s l O -> O !! r = Some (Tab r 0 0) ->
  leaf_is O (km_mem s) r va e -> leaf (km_mem s) r va = e.
Proof.
  intros HI Hr [(p & Hp & ->)|(Hn & ->)]; [by apply (leaf_tab s l O)|by apply (leaf_none s l O)].
Qed.

(** * Changing roles *)

Definition in_page (p x : Z) : Prop := p <= x < p + PG_SIZE.

Lemma ent_in_page p i x : 0 <= i < 512 -> p + 8 * i <= x < p + 8 * i + 8 -> in_page p x.
Proof. unfold in_page, PG_SIZE. lia. Qed.

Lemma in_page_disjoint p q x :
  page_aligned p -> page_aligned q -> in_page p x -> in_page q x -> p = q.
Proof.
  unfold in_page. intros Hp Hq H1 H2. destruct (decide (p = q)) as [|Hne]; [done|].
  destruct (page_aligned_disjoint p q Hp Hq Hne); lia.
Qed.

Lemma vm_inv_ext s s' l O :
  vm_inv s l O -> (forall x, km_mem s' x = km_mem s x) -> km_freelist s' = km_freelist s ->
  vm_inv s' l O.
Proof.
  intros [[Hb Hr Ho Hn] H1 H2 H3 H4 H5 H6 H7 H8] Hm Hf.
  assert (He : forall p i, ent (km_mem s') p i = ent (km_mem s) p i).
  { intros p i. apply load64_ext. intros. apply Hm. }
  split; [|done..| | | | ]; try (intros *; rewrite He; eauto).
  - split; [|rewrite Hf|done..].
    + intros x. rewrite Hm. apply Hb.
    + eapply freelist_rep_ext; [|done]. intros. by rewrite Hm.
  - intros c r k b Hc. destruct (H7 c r k b Hc) as (Hk & p & Hp & Ep).
    split; [done|]. exists p. by rewrite He.
  - intros d r v Hd. destruct (H8 d r v Hd) as (p & Hp & Ep). exists p. by rewrite He.
Qed.

(** A page taken off the free list, whatever is written to it. *)
Lemma vm_take s s' c l O :
  vm_inv s (c :: l) O -> kmem_inv kend s' l ->
  (forall x, ~ in_page c x -> km_mem s' x = km_mem s x) ->
  vm_inv s' l (<[c := Other]> O).
Proof.
  intros [Hk H1 H2 H3 H4 H5 H6 H7 H8] Hk' Hm.
  assert (HcO : O !! c = None) by (apply H2; left).
  apply Forall_cons in H1 as [Hc H1]. pose proof (ki_nodup _ _ _ Hk) as Hnd.
  apply NoDup_cons in Hnd as [Hcl Hnd].
  assert (He : forall p ρ i, O !! p = Some ρ -> 0 <= i < 512 ->
            ent (km_mem s') p i = ent (km_mem s) p i).
  { intros p ρ i Hp Hi. apply load64_ext. intros x Hx. apply Hm. intros Hcx.
    assert (c = p) as <-; [|congruence].
    eapply in_page_disjoint; [apply Hc|by apply (H3 p ρ)|done|by eapply ent_in_page]. }
  assert (HO : forall p ρ, ρ <> Other -> <[c:=Other]> O !! p = Some ρ -> O !! p = Some ρ).
  { intros p ρ Hρ Hp. by rewrite lookup_insert_Some in Hp; destruct Hp as [[_ ?]|[_ ?]]. }
  assert (HO' : forall p ρ, O !! p = Some ρ -> <[c:=Other]> O !! p = Some ρ).
  { intros p ρ Hp. rewrite lookup_insert_ne; [done|congruence]. }
  split; [done|done|..].
  - intros p Hp. rewrite lookup_insert_ne; [|set_solver]. apply H2. by right.
  - intros p ρ Hp. apply lookup_insert_Some in Hp as [[<- _]|[_ Hp]]; [done|by eapply H3].
  - intros p r b Hp. apply HO in Hp; [|done]. by eapply H4.
  - intros p r k b i Hp Hk2 Hi. apply HO in Hp; [|done]. rewrite (He p _ i Hp Hi).
    destruct (H5 p r k b i Hp Hk2 Hi) as [?|(d & ? & ?)]; eauto.
  - intros p r b i Hp Hi. apply HO in Hp; [|done]. rewrite (He p _ i Hp Hi).
    destruct (H6 p r b i Hp Hi) as [?|(d & ? & ?)]; eauto.
  - intros d r k b Hd. apply HO in Hd; [|done].
    destruct (H7 d r k b Hd) as (? & p & Hp & Ep). split; [done|]. exists p.
    split; [by apply HO'|]. rewrite (He p _ _ Hp); [done|]. zlia.
  - intros d r v Hd. apply HO in Hd; [|done]. destruct (H8 d r v Hd) as (p & Hp & Ep).
    exists p. split; [by apply HO'|]. rewrite (He p _ _ Hp); [done|]. zlia.
Qed.

(** Entries after a word is stored into entry [i] of page [p]. *)
Lemma ent_store m p i q j v :
  page_aligned p -> page_aligned q -> 0 <= i < 512 -> 0 <= j < 512 ->
  ent (store64 m (p + 8 * i) v) q j = if decide ((p, i) = (q, j)) then u64 v else ent m q j.
Proof.
  intros. unfold ent. case_decide as E.
  - simplify_eq. apply load64_store64_eq.
  - apply load64_store64_ne. by apply ent_disjoint.
Qed.

Lemma kmem_inv_store s l O p i v ρ :
  vm_inv s l O -> O !! p = Some ρ -> 0 <= i < 512 ->
  kmem_inv kend (set_mem (fun m => store64 m (p + 8 * i) v) s) l.
Proof.
  intros HI Hp Hi. apply kmem_inv_set_mem; [apply HI|by apply store64_ok, (vi_bytes s l O)|].
  intros q x Hq Hx. apply store64_out.
  assert (~ (p + 8 * i <= x < p + 8 * i + 8)); [|lia]. intros Hx'.
  assert (p = q) as <-.
  { eapply in_page_disjoint; [by eapply (vi_page s l O)| |by eapply ent_in_page|exact Hx].
    pose proof (vi_pool _ _ _ HI) as Hpool. rewrite Forall_forall in Hpool. by apply Hpool. }
  rewrite (vi_free _ _ _ HI p Hq) in Hp. done.
Qed.

(** Linking a zeroed page as a new table. *)
Lemma vm_link_tab s l O p r k b i c :
  vm_inv s l O -> O !! p = Some (Tab r k b) -> (k < 3)%nat -> 0 <= i < 512 ->
  ent (km_mem s) p i = 0 -> O !! c = Some Other ->
  (forall j, 0 <= j < 512 -> ent (km_mem s) c j = 0) ->
  vm_inv (set_mem (fun m => store64 m (p + 8 * i) (pte_tab c)) s) l
    (<[c := Tab r (S k) (b * 512 + i)]> O).
Proof.
  intros HI Hp Hk Hi Hpi Hc Hz.
  pose proof (kmem_inv_store s l O p i (pte_tab c) _ HI Hp Hi) as Hki.
  pose proof HI as [_ H1 H2 H3 H4 H5 H6 H7 H8].
  assert (Hpa : page_aligned p) by (by apply (H3 _ _ Hp)).
  assert (Hcp : kpage c) by (by apply (H3 _ _ Hc)).
  set (ρc := Tab r (S k) (b * 512 + i)).
  assert (Hne : c <> p) by congruence.
  assert (He : forall q j, page_aligned q -> 0 <= j < 512 ->
     ent (km_mem (set_mem (fun m => store64 m (p + 8 * i) (pte_tab c)) s)) q j
     = if decide ((p, i) = (q, j)) then pte_tab c else ent (km_mem s) q j).
  { intros q j Hq Hj. simpl. rewrite ent_store by done. by rewrite pte_tab_u64. }
  assert (HO : forall q ρ, <[c:=ρc]> O !! q = Some ρ ->
            (q = c /\ ρ = ρc) \/ (q <> c /\ O !! q = Some ρ)).
  { intros q ρ Hq. apply lookup_insert_Some in Hq. naive_solver. }
  assert (HO' : forall q ρ, O !! q = Some ρ -> ρ <> Other -> <[c:=ρc]> O !! q = Some ρ).
  { intros q ρ Hq Hρ. rewrite lookup_insert_ne; [done|congruence]. }
  split; [done|done|..].
  - intros q Hq. rewrite lookup_insert_ne; [by apply H2|]. intros ->. rewrite H2 in Hc; done.
  - intros q ρ Hq. apply HO in Hq as [[-> _]|[_ Hq]]; [done|by eapply H3].
  - intros q r' b' Hq. apply HO in Hq as [[_ ?]|[_ Hq]]; [done|by eapply H4].
  - intros q r' k' b' j Hq Hk' Hj. apply HO in Hq as [[-> ?]|[Hqc Hq]].
    + left. rewrite He by (done || apply Hcp). rewrite decide_False by congruence. by apply Hz.
    + rewrite He by (done || by apply (H3 _ _ Hq)). case_decide as E.
      * simplify_eq. right. exists c. split; [done|]. apply lookup_insert_eq.
      * destruct (H5 q r' k' b' j Hq Hk' Hj) as [?|(d & ? & ?)]; [by left|].
        right. exists d. split; [done|]. by apply HO'.
  - intros q r' b' j Hq Hj. apply HO in Hq as [[-> ?]|[Hqc Hq]].
    + left. rewrite He by (done || apply Hcp). rewrite decide_False by congruence. by apply Hz.
    + rewrite He by (done || by apply (H3 _ _ Hq)). rewrite decide_False.
      * destruct (H6 q r' b' j Hq Hj) as [?|(d & ? & ?)]; [by left|].
        right. exists d. split; [done|]. by apply HO'.
      * intros [= -> ->]. rewrite Hp in Hq. simplify_eq. lia.
  - intros d r' k' b' Hd. apply HO in Hd as [[-> ?]|[Hdc Hd]].
    + unfold ρc in *. simplify_eq. split; [done|]. exists p. split.
      * replace ((b * 512 + i) / 512) with b by zlia. by apply HO'.
      * replace ((b * 512 + i) mod 512) with i by zlia.
        rewrite He by done. by rewrite decide_True.
    + destruct (H7 d r' k' b' Hd) as (? & q & Hq & Eq). split; [done|]. exists q.
      split; [by apply HO'|]. rewrite He; [|by apply (H3 _ _ Hq)|zlia].
      rewrite decide_False; [done|]. intros [= -> E]. rewrite <- E, Hpi in Eq.
      destruct (pte_tab_nonzero d); [by eapply H3|done].
  - intros d r' v Hd. apply HO in Hd as [[_ ?]|[Hdc Hd]]; [done|].
    destruct (H8 d r' v Hd) as (q & Hq & Eq). exists q. split; [by apply HO'|].
    rewrite He; [|by apply (H3 _ _ Hq)|zlia]. rewrite decide_False; [done|].
    intros [= -> E]. rewrite Hp in Hq. simplify_eq. lia.
Qed.

(** Storing a new leaf entry [e], or clearing one, in a level-3 table: the data
    page [d] takes role [ρ]. *)
Lemma vm_set_leaf s l O p r b i e d ρ ρ' :
  vm_inv s l O -> O !! p = Some (Tab r 3 b) -> 0 <= i < 512 -> O !! d = Some ρ ->
  (ρ = Other /\ ent (km_mem s) p i = 0 /\ ρ' = Dat r (b * 512 + i) /\ pte_leaf e d) \/
  (ρ = Dat r (b * 512 + i) /\ ρ' = Other /\ e = 0) \/
  (ρ = Dat r (b * 512 + i) /\ ρ' = ρ /\ pte_leaf e d) ->
  vm_inv (set_mem (fun m => store64 m (p + 8 * i) e) s) l (<[d := ρ']> O).
Proof.
  intros HI Hp Hi Hd Hcase.
  pose proof (kmem_inv_store s l O p i e _ HI Hp Hi) as Hki.
  pose proof HI as [_ H1 H2 H3 H4 H5 H6 H7 H8].
  assert (Hpa : page_aligned p) by (by apply (H3 _ _ Hp)).
  assert (Hu : u64 e = e).
  { apply u64_small. destruct Hcase as [(_ & _ & _ & H & _)|[(_ & _ & ->)|(_ & _ & H & _)]]; [done|lia|done]. }
  assert (Hρ : forall r k b, ρ <> Tab r k b /\ ρ' <> Tab r k b) by (naive_solver congruence).
  assert (Hdp : d <> p) by (intros ->; rewrite Hp in Hd; naive_solver).
  assert (He : forall q j, page_aligned q -> 0 <= j < 512 ->
     ent (km_mem (set_mem (fun m => store64 m (p + 8 * i) e) s)) q j
     = if decide ((p, i) = (q, j)) then e else ent (km_mem s) q j).
  { intros q j Hq Hj. simpl. rewrite ent_store by done. by rewrite Hu. }
  assert (HT : forall q r' k b', <[d:=ρ']> O !! q = Some (Tab r' k b') <-> O !! q = Some (Tab r' k b')).
  { intros q r' k b'. rewrite lookup_insert_Some. split.
    - intros [[_ ?]|[_ ?]]; [naive_solver|done].
    - intros Hq. right. split; [|done]. intros ->. rewrite Hq in Hd. naive_solver. }
  assert (Hold : forall d', pte_leaf (ent (km_mem s) p i) d' -> O !! d' = Some (Dat r (b * 512 + i)) ->
            ρ = Dat r (b * 512 + i) -> d' = d).
  { intros d' Hl Hd' ->. destruct (H8 d _ _ Hd) as (q & Hq & Eq).
    replace ((b * 512 + i) / 512) with b in Hq by zlia.
    replace ((b * 512 + i) mod 512) with i in Eq by zlia.
    assert (q = p) as -> by (by eapply (tab_unique s l O)).
    rewrite <- (pte_leaf_addr _ d (H3 _ _ Hd) Eq). symmetry.
    by apply pte_leaf_addr; [eapply H3|]. }
  split; [done|done|..].
  - intros q Hq. rewrite lookup_insert_ne; [by apply H2|]. intros ->. rewrite H2 in Hd; done.
  - intros q ρ0 Hq. apply lookup_insert_Some in Hq as [[<- _]|[_ Hq]]; by eapply H3.
  - intros q r' b' Hq. apply HT in Hq. by eapply H4.
  - intros q r' k' b' j Hq Hk' Hj. apply HT in Hq.
    rewrite He by (done || by apply (H3 _ _ Hq)). rewrite decide_False.
    + destruct (H5 q r' k' b' j Hq Hk' Hj) as [?|(c & ? & ?)]; [by left|].
      right. exists c. split; [done|]. by apply HT.
    + intros [= -> ->]. rewrite Hp in Hq. simplify_eq. lia.
  - intros q r' b' j Hq Hj. apply HT in Hq.
    rewrite He by (done || by apply (H3 _ _ Hq)). case_decide as E.
    + simplify_eq.
      destruct Hcase as [(-> & _ & -> & ?)|[(-> & -> & ->)|(-> & -> & ?)]]; [|by left|];
        (right; exists d; split; [done|by rewrite lookup_insert_eq]).
    + destruct (H6 q r' b' j Hq Hj) as [?|(d' & Hl & Hd')]; [by left|].
      right. exists d'. split; [done|]. rewrite lookup_insert_ne; [done|]. intros <-.
      rewrite Hd in Hd'. simplify_eq.
      destruct Hcase as [(? & _)|[(? & _ & _)|(? & -> & _)]]; simplify_eq.
      * destruct E. assert (q = p) as ->; [|f_equal; lia].
        eapply (tab_unique s l O); [done|exact Hq|]. rewrite Hp. do 2 f_equal. lia.
      * destruct E. assert (q = p) as ->; [|f_equal; lia].
        eapply (tab_unique s l O); [done|exact Hq|]. rewrite Hp. do 2 f_equal. lia.
  - intros c r' k' b' Hc. apply HT in Hc. destruct (H7 c r' k' b' Hc) as (? & q & Hq & Eq).
    split; [done|]. exists q. split; [by apply HT|].
    rewrite He; [|by apply (H3 _ _ Hq)|zlia]. rewrite decide_False; [done|].
    intros [= -> E]. rewrite Hp in Hq. simplify_eq. lia.
  - intros d' r' v Hd'. apply lookup_insert_Some in Hd' as [[<- ->]|[Hne Hd']].
    + assert (r' = r /\ v = b * 512 + i /\ pte_leaf e d) as (-> & -> & Hl) by naive_solver congruence.
      exists p. replace ((b * 512 + i) / 512) with b by zlia.
      replace ((b * 512 + i) mod 512) with i by zlia. split; [by apply HT|].
      rewrite He by done. by rewrite decide_True.
    + destruct (H8 d' r' v Hd') as (q & Hq & Eq). exists q. split; [by apply HT|].
      rewrite He; [|by apply (H3 _ _ Hq)|zlia]. rewrite decide_False; [done|].
      intros [= -> E]. rewrite Hp in Hq. simplify_eq.
      destruct Hcase as [(_ & Hz & _)|Hcase].
      * rewrite Hz in Eq. by apply (pte_leaf_nonzero 0 d') in Eq.
      * destruct Hne. symmetry. apply Hold; [done| |naive_solver].
        rewrite Hd'. do 2 f_equal. zlia.
Qed.

(** * Walking with allocation *)

(** [grown s l O s' l' O']: some pages of the pool became tables; roles,
    translations and all memory outside tables and free pages are kept. *)
Record grown (s : kmem) (l : list Z) (O : gmap Z role)
    (s' : kmem) (l' : list Z) (O' : gmap Z role) : Prop := {
  gr_inv : vm_inv s' l' O';
  gr_sub : forall p ρ, O !! p = Some ρ -> O' !! p = Some ρ;
  gr_new : forall p ρ, O' !! p = Some ρ -> O !! p = Some ρ \/
    p ∈ l /\ exists r k b, ρ = Tab r (S k) b;
  gr_pool : exists new, l = new ++ l' /\
    Forall (fun p => exists r k b, O' !! p = Some (Tab r (S k) b)) new;
  gr_leaf : forall r va, O !! r = Some (Tab r 0 0) ->
    leaf (km_mem s') r va = leaf (km_mem s) r va;
  gr_mem : forall x, (forall p r k b, O !! p = Some (Tab r k b) -> ~ in_page p x) ->
    (forall p, p ∈ l -> ~ in_page p x) -> km_mem s' x = km_mem s x;
}.

Lemma grown_refl s l O : vm_inv s l O -> grown s l O s l O.
Proof. intros H. split; try done; [by left|by exists []]. Qed.

Lemma grown_trans s l O s1 l1 O1 s2 l2 O2 :
  grown s l O s1 l1 O1 -> grown s1 l1 O1 s2 l2 O2 -> grown s l O s2 l2 O2.
Proof.
  intros [A1 A2 A3 [n1 [A4 A4']] A5 A6] [B1 B2 B3 [n2 [B4 B4']] B5 B6]. split.
  - done.
  - auto.
  - intros p ρ Hp. destruct (B3 p ρ Hp) as [H|[H1 H2]]; [by apply A3|].
    right. split; [|done]. subst. set_solver.
  - exists (n1 ++ n2). subst. rewrite <- app_assoc. split; [done|]. apply Forall_app. split; [|done].
    eapply Forall_impl; [exact A4'|]. naive_solver.
  - intros r va Hr. rewrite B5 by auto. auto.
  - intros x Hx Hl. rewrite B6; [by apply A6|..].
    + intros p r k b Hp. destruct (A3 p _ Hp) as [H|[H _]]; [by eapply Hx|by apply Hl].
    + intros p Hp. apply Hl. subst. set_solver.
Qed.

(** [kalloc] followed by clearing the page. *)
Lemma kalloc_zeroed s c l O :
  vm_inv s (c :: l) O ->
  exists s1, kalloc s = Ok c s1 /\
    let s2 := set_mem (fun m => memset m c 0 PG_SIZE) s1 in
    vm_inv s2 l (<[c := Other]> O) /\
    (forall x, ~ in_page c x -> km_mem s2 x = km_mem s x) /\
    (forall x, in_page c x -> km_mem s2 x = 0).
Proof.
  intros HI. destruct (kalloc_cons kend s c l (vi_kmem _ _ _ HI)) as (s1 & Hs1 & Hk1 & Hm1).
  exists s1. split; [done|]. intros s2.
  assert (Hout : forall x, ~ in_page c x -> km_mem s2 x = km_mem s x).
  { intros x Hx. unfold s2. simpl. rewrite memset_out.
    - rewrite Hm1. unfold in_page in Hx.
      destruct (Z.leb_spec c x), (Z.ltb_spec x (c + PG_SIZE)); simpl; done || lia.
    - unfold in_page in Hx. change (u32 PG_SIZE) with PG_SIZE. lia. }
  split; [|split; [done|]].
  - eapply vm_take; [done| |done]. apply kmem_inv_set_mem; [done|apply memset_ok, Hk1|].
    intros p x Hp Hx. apply memset_out. change (u32 PG_SIZE) with PG_SIZE.
    pose proof (ki_nodup _ _ _ (vi_kmem _ _ _ HI)) as [Hc _]%NoDup_cons.
    pose proof (vi_pool _ _ _ HI) as [Hcp Hpp]%Forall_cons. rewrite Forall_forall in Hpp.
    destruct (page_aligned_disjoint c p) as [?|?]; [apply Hcp|by apply Hpp|set_solver|lia..].
  - intros x Hx. unfold s2. simpl. by rewrite memset_in.
Qed.

(** [leaf] only depends on table pages. *)
Lemma leaf_same s l O s' l' O' r va :
  vm_inv s l O -> vm_inv s' l' O' -> O !! r = Some (Tab r 0 0) -> O' !! r = Some (Tab r 0 0) ->
  (forall p, O' !! p = Some (Tab r 3 (pre 3 va)) ->
     (O !! p = Some (Tab r 3 (pre 3 va)) /\
      ent (km_mem s') p (PX 3 va) = ent (km_mem s) p (PX 3 va)) \/
     ((forall q, O !! q <> Some (Tab r 3 (pre 3 va))) /\ ent (km_mem s') p (PX 3 va) = 0)) ->
  (forall p, O !! p = Some (Tab r 3 (pre 3 va)) -> O' !! p = Some (Tab r 3 (pre 3 va))) ->
  leaf (km_mem s') r va = leaf (km_mem s) r va.
Proof.
  intros HI HI' Hr Hr' H1 H2.
  destruct (leaf_is_leaf s' l' O' r va HI' Hr') as [(p & Hp & ->)|(Hn & ->)].
  - destruct (H1 p Hp) as [[Hp' ->]|[Hq ->]].
    + symmetry. by apply (leaf_tab s l O).
    + symmetry. by apply (leaf_none s l O).
  - symmetry. apply (leaf_none s l O); [done..|]. intros p Hp. by apply (Hn p), H2.
Qed.

Section link.
Context (s s2 : kmem) (c : Z) (l : list Z) (O : gmap Z role) (r : Z) (k : nat) (va p : Z).
Context (HI : vm_inv s (c :: l) O) (Hk : (k < 3)%nat).
Context (Hp : O !! p = Some (Tab r k (pre k va))).
Context (Hz : ent (km_mem s) p (PX (Z.of_nat k) va) = 0).
Context (HI2 : vm_inv s2 l (<[c:=Other]> O)).
Context (Hout : forall x, ~ in_page c x -> km_mem s2 x = km_mem s x).
Context (Hin : forall x, in_page c x -> km_mem s2 x = 0).

Let s3 := set_mem (fun m => store64 m (p + 8 * PX (Z.of_nat k) va) (pte_tab c)) s2.
Let O3 := <[c := Tab r (S k) (pre (S k) va)]> O.

Lemma link_ent q ρ i :
  O !! q = Some ρ -> 0 <= i < 512 -> ent (km_mem s2) q i = ent (km_mem s) q i.
Proof.
  intros Hq Hi. apply load64_ext. intros x Hx. apply Hout. intros Hcx.
  assert (HcO : O !! c = None) by (eapply vi_free; [done|left]).
  assert (c = q) as <-; [|congruence].
  eapply in_page_disjoint; [|by eapply (vi_page _ _ _ HI)|done|by eapply ent_in_page].
  apply (vi_page _ _ _ HI2 c Other). apply lookup_insert_eq.
Qed.

Lemma link_inv : vm_inv s3 l O3.
Proof.
  pose proof (PX_range (Z.of_nat k) va ltac:(lia)) as HPX.
  assert (HcO : O !! c = None) by (eapply vi_free; [done|left]).
  assert (Hcz : forall j, 0 <= j < 512 -> ent (km_mem s2) c j = 0).
  { intros j Hj. apply load64_zero. intros x Hx. apply Hin. by eapply ent_in_page. }
  assert (HI3 := vm_link_tab s2 l (<[c:=Other]> O) p r k (pre k va) (PX (Z.of_nat k) va) c HI2).
  rewrite insert_insert_eq in HI3. rewrite lookup_insert_ne in HI3 by congruence.
  specialize (HI3 Hp Hk HPX). rewrite (link_ent p _ _ Hp HPX) in HI3.
  exact (HI3 Hz (lookup_insert_eq _ _ _) Hcz).
Qed.

(** No leaf table for the addresses below the new table existed before. *)
Lemma link_fresh q : O !! q <> Some (Tab r (S k) (pre (S k) va)).
Proof.
  intros Hq. destruct (vi_up _ _ _ HI _ _ _ _ Hq) as (_ & q' & Hq' & Eq').
  rewrite pre_div in Hq' by lia. rewrite pre_mod in Eq' by lia.
  assert (q' = p) as -> by (by eapply (tab_unique s _ O)).
  rewrite Hz in Eq'. destruct (pte_tab_nonzero q); [by eapply (vi_page _ _ _ HI)|done].
Qed.

Lemma link_leaf r' va' :
  O !! r' = Some (Tab r' 0 0) -> leaf (km_mem s3) r' va' = leaf (km_mem s) r' va'.
Proof.
  intros Hr'. assert (HcO : O !! c = None) by (eapply vi_free; [done|left]).
  assert (Hpk : kpage p) by (by eapply (vi_page _ _ _ HI)).
  assert (Hck : kpage c) by (eapply vi_page; [exact HI2|apply lookup_insert_eq]).
  pose proof (PX_range (Z.of_nat k) va ltac:(lia)) as HPX.
  pose proof (PX_range 3 va' ltac:(lia)) as HPX3.
  apply (leaf_same s (c :: l) O s3 l O3); [done|apply link_inv|done| | |].
  - unfold O3. rewrite lookup_insert_ne; [done|congruence].
  - intros q Hq. apply lookup_insert_Some in Hq as [[<- E]|[Hqc Hq]].
    + right. assert (r' = r /\ 3%nat = S k /\ pre 3 va' = pre (S k) va) as (-> & Ek & Eb)
        by (split_and!; congruence). split.
      * intros q. rewrite Eb, Ek. apply link_fresh.
      * unfold s3. simpl. rewrite ent_store; [|apply Hpk|apply Hck|done..].
        rewrite decide_False by congruence. apply load64_zero. intros x Hx. apply Hin.
        by eapply ent_in_page.
    + left. split; [done|]. unfold s3. simpl.
      rewrite ent_store; [|apply Hpk|by eapply (vi_page _ _ _ HI)|done..].
      rewrite decide_False; [by eapply link_ent|]. intros [= <- _].
      rewrite Hp in Hq. simplify_eq. lia.
  - intros q Hq. unfold O3. rewrite lookup_insert_ne; [done|congruence].
Qed.

Lemma grown_link : grown s (c :: l) O s3 l O3.
Proof.
  assert (HcO : O !! c = None) by (eapply vi_free; [done|left]).
  pose proof (PX_range (Z.of_nat k) va ltac:(lia)) as HPX.
  split.
  - apply link_inv.
  - intros q ρ Hq. unfold O3. rewrite lookup_insert_ne; [done|congruence].
  - intros q ρ Hq. apply lookup_insert_Some in Hq as [[<- <-]|[_ Hq]]; [right|by left].
    split; [left|]. by eexists _, _, _.
  - exists [c]. split; [done|]. constructor; [|done]. eexists _, _, _. apply lookup_insert_eq.
  - apply link_leaf.
  - intros x Hx Hl. unfold s3. simpl. rewrite store64_out.
    + apply Hout. apply Hl. left.
    + assert (~ (p + 8 * PX (Z.of_nat k) va <= x < p + 8 * PX (Z.of_nat k) va + 8)); [|lia].
      intros Hx'. eapply Hx; [exact Hp|]. by eapply ent_in_page.
Qed.
End link.

(** [walk] at one level with allocation. *)
Lemma walk_level_alloc s l O r k va p :
  vm_inv s l O -> O !! r = Some (Tab r 0 0) -> (k < 3)%nat ->
  O !! p = Some (Tab r k (pre k va)) ->
  wp (walk_level true va (Z.of_nat k) p) s (fun res s' =>
    match res with
    | Some c => exists l' O', grown s l O s' l' O' /\
        O' !! c = Some (Tab r (S k) (pre (S k) va)) /\ (length l <= length l' + 1)%nat
    | None => s' = s /\ l = []
    end).
Proof.
  intros HI Hr Hk Hp. pose proof (PX_range (Z.of_nat k) va ltac:(lia)) as HPX.
  assert (Hpk : kpage p) by (by eapply vi_page).
  unfold walk_level. rewrite kpage_slot by done. apply wp_bind, wp_gets.
  fold (ent (km_mem s) p (PX (Z.of_nat k) va)).
  destruct (vi_tab _ _ _ HI _ _ _ _ _ Hp Hk HPX) as [Hz|(c & Hc & HcO)].
  2:{ assert (kpage c) by (by eapply vi_page).
      rewrite Hc, pte_tab_type, pte_tab_addr by done. simpl. apply wp_ret.
      exists l, O. split_and!; [by apply grown_refl|done|lia]. }
  rewrite Hz. simpl. change (Z.land 0 MM_TYPE_MASK =? MM_TYPE_TABLE) with false.
  change (ctrue (Z.land 0 MM_TYPE_VALID)) with false. simpl. apply wp_bind.
  destruct l as [|c l].
  { eapply wp_ok; [apply (kalloc_empty kend), HI|]. by apply wp_ret. }
  destruct (kalloc_zeroed s c l O HI) as (s1 & Hs1 & HI2 & Hout & Hin).
  eapply wp_ok; [done|].
  assert (Hck : kpage c) by (eapply vi_page; [exact HI2|apply lookup_insert_eq]).
  destruct (Z.eqb_spec c 0); [by destruct (kpage_ne_0 c)|].
  apply wp_bind, wp_modify, wp_bind, wp_modify, wp_ret.
  exists l, (<[c := Tab r (S k) (pre (S k) va)]> O).
  split_and!; [by apply grown_link|apply lookup_insert_eq|simpl; lia].
Qed.

Lemma walk_alloc s l O r va :
  vm_inv s l O -> O !! r = Some (Tab r 0 0) ->
  wp (walk r va true) s (fun a s' =>
    (exists l' O' p, grown s l O s' l' O' /\ O' !! p = Some (Tab r 3 (pre 3 va)) /\
       a = p + 8 * PX 3 va /\ a <> 0 /\ (length l <= length l' + 3)%nat) \/
    (a = 0 /\ (length l <= 2)%nat /\ exists O', grown s l O s' [] O')).
Proof.
  intros HI Hr. unfold walk, walk_levels. apply wp_bind, wp_bind.
  eapply wp_mono; [apply (walk_level_alloc s l O r 0 va r); [done|done|lia|done]|].
  intros [p1|] s1; simpl.
  2:{ intros [-> ->]. apply wp_ret, wp_ret. right. split_and!; [done|simpl; lia|].
      exists O. by apply grown_refl. }
  intros (l1 & O1 & G1 & Hp1 & L1). apply wp_bind.
  assert (Hr1 : O1 !! r = Some (Tab r 0 0)) by (by eapply gr_sub).
  eapply wp_mono; [apply (walk_level_alloc s1 l1 O1 r 1 va p1); [apply G1|done|lia|done]|].
  intros [p2|] s2; simpl.
  2:{ intros [-> ->]. apply wp_ret, wp_ret. right. split_and!; [done|simpl in *; lia|].
      by exists O1. }
  intros (l2 & O2 & G2 & Hp2 & L2). apply wp_bind.
  assert (Hr2 : O2 !! r = Some (Tab r 0 0)) by (by eapply gr_sub).
  eapply wp_mono; [apply (walk_level_alloc s2 l2 O2 r 2 va p2); [apply G2|done|lia|done]|].
  intros [p3|] s3; simpl.
  2:{ intros [-> ->]. apply wp_ret, wp_ret. right. split_and!; [done|simpl in *; lia|].
      exists O2. by eapply grown_trans. }
  intros (l3 & O3 & G3 & Hp3 & L3). apply wp_ret, wp_ret. left. exists l3, O3, p3.
  assert (kpage p3) by (eapply vi_page; [apply G3|done]).
  pose proof (PX_range 3 va ltac:(lia)) as HPX.
  rewrite kpage_slot by done. split; [eapply grown_trans; [exact G1|by eapply grown_trans]|].
  split_and!; [done|done| |lia]. assert (Hk : kpage p3) by done. destruct Hk as (_ & ? & _).
  layout. lia.
Qed.

Lemma pre3_vpn va : pre 3 va = vpn va / 512 /\ PX 3 va = vpn va mod 512.
Proof.
  unfold vpn. rewrite pre_div, pre_mod by lia. done.
Qed.

(** The leaf entries after a store into entry [i] of the leaf table [p]. *)
Lemma leaf_set s l O s' l' O' p r b i e :
  vm_inv s l O -> vm_inv s' l' O' -> O !! p = Some (Tab r 3 b) -> 0 <= i < 512 -> u64 e = e ->
  (forall q r k c, O' !! q = Some (Tab r k c) <-> O !! q = Some (Tab r k c)) ->
  km_mem s' = store64 (km_mem s) (p + 8 * i) e ->
  forall r' va, O !! r' = Some (Tab r' 0 0) ->
  leaf (km_mem s') r' va =
    if decide (r' = r /\ vpn va = b * 512 + i) then e else leaf (km_mem s) r' va.
Proof.
  intros HI HI' Hp Hi Hu HT Hm r' va Hr'.
  assert (Hr'2 : O' !! r' = Some (Tab r' 0 0)) by (by apply HT).
  pose proof (PX_range 3 va ltac:(lia)) as HPX. destruct (pre3_vpn va) as [E3 EX].
  destruct (leaf_is_leaf s' l' O' r' va HI' Hr'2) as [(q & Hq & ->)|(Hn & ->)].
  - apply HT in Hq. rewrite Hm, ent_store; [|by eapply (vi_page _ _ _ HI)..|done|done].
    case_decide as E; case_decide as E'.
    + done.
    + destruct E'. simplify_eq. by split.
    + destruct E. destruct E' as [-> E'].
      assert (p = q) as ->; [|f_equal; zlia].
      eapply (tab_unique s l O); [done|exact Hp|]. rewrite Hq. do 2 f_equal. zlia.
    + symmetry. by apply (leaf_tab s l O).
  - rewrite decide_False.
    + symmetry. apply (leaf_none s l O); [done..|]. intros q Hq. by apply (Hn q), HT.
    + intros [-> E]. apply (Hn p), HT. rewrite Hp. do 2 f_equal. zlia.
Qed.

(** What [mappages] of one page does on success. *)
Record mapped (s : kmem) (l : list Z) (O : gmap Z role) (r va d e : Z)
    (s' : kmem) (l' : list Z) (O' : gmap Z role) : Prop := {
  mp_inv : vm_inv s' l' O';
  mp_dat : O' !! d = Some (Dat r (vpn va));
  mp_sub : forall p ρ, p <> d -> O !! p = Some ρ -> O' !! p = Some ρ;
  mp_new : forall p ρ, p <> d -> O' !! p = Some ρ -> O !! p = Some ρ \/
    p ∈ l /\ exists r k b, ρ = Tab r (S k) b;
  mp_pool : exists new, l = new ++ l' /\
    Forall (fun p => exists r k b, O' !! p = Some (Tab r (S k) b)) new;
  mp_leaf : forall r' va', O !! r' = Some (Tab r' 0 0) ->
    leaf (km_mem s') r' va' =
      if decide (r' = r /\ vpn va' = vpn va) then e else leaf (km_mem s) r' va';
  mp_mem : forall x, (forall p r k b, O !! p = Some (Tab r k b) -> ~ in_page p x) ->
    (forall p, p ∈ l -> ~ in_page p x) -> km_mem s' x = km_mem s x;
}.

Lemma leaf_vpn s l O r va va' :
  vm_inv s l O -> O !! r = Some (Tab r 0 0) -> vpn va = vpn va' ->
  leaf (km_mem s) r va = leaf (km_mem s) r va'.
Proof.
  intros HI Hr E. apply (leaf_is_unique s l O); [done..|].
  pose proof (leaf_is_leaf s l O r va' HI Hr) as H.
  destruct (pre3_vpn va) as [A B], (pre3_vpn va') as [A' B'].
  unfold leaf_is in *. rewrite A, B, E, <- A', <- B'. done.
Qed.

Lemma mappages_body_page s l O r va d f :
  vm_inv s l O -> O !! r = Some (Tab r 0 0) -> O !! d = Some Other -> leaf_flags f ->
  leaf (km_mem s) r va = 0 ->
  wp (mappages_body r va f (va, d)) s (fun res s' =>
    (res = inr 0 /\ exists l' O', mapped s l O r va d (Z.lor (Z.land d PG_ADDR_MASK) f) s' l' O' /\
       (length l <= length l' + 3)%nat) \/
    (res = inr (-1) /\ (length l <= 2)%nat /\ exists O', grown s l O s' [] O')).
Proof.
  intros HI Hr Hd Hf Hz. assert (Hdk : kpage d) by (by eapply vi_page).
  pose proof (PX_range 3 va ltac:(lia)) as HPX.
  unfold mappages_body. apply wp_bind.
  eapply wp_mono; [by apply walk_alloc|]. intros a s1 [(l1 & O1 & p & G & Hp & -> & Hne & Hlen)|(-> & Hlen & O1 & G)].
  2:{ simpl. apply wp_ret. right. split_and!; [done|done|]. by exists O1. }
  destruct (Z.eqb_spec (p + 8 * PX 3 va) 0); [done|].
  assert (HI1 : vm_inv s1 l1 O1) by apply G.
  assert (Hr1 : O1 !! r = Some (Tab r 0 0)) by (by eapply gr_sub).
  assert (Hd1 : O1 !! d = Some Other) by (by eapply gr_sub).
  assert (He : ent (km_mem s1) p (PX 3 va) = 0).
  { rewrite <- Hz, <- (gr_leaf _ _ _ _ _ _ G r va Hr). symmetry. by apply (leaf_tab s1 l1 O1). }
  apply wp_bind, wp_gets. fold (ent (km_mem s1) p (PX 3 va)). rewrite He.
  change (ctrue (Z.land 0 MM_TYPE_VALID)) with false. cbn match.
  apply wp_bind, wp_modify. rewrite Z.eqb_refl. apply wp_ret. left. split; [done|].
  set (e := Z.lor (Z.land d PG_ADDR_MASK) f).
  assert (Hle : pte_leaf e d) by (by apply pte_leaf_make).
  assert (HI2 := vm_set_leaf s1 l1 O1 p r (pre 3 va) (PX 3 va) e d Other
                   (Dat r (vpn va)) HI1 Hp HPX Hd1 (or_introl (conj eq_refl (conj He (conj eq_refl Hle))))).
  set (s2 := set_mem _ s1) in *. exists l1, (<[d:=Dat r (vpn va)]> O1). split; [|done]. split.
  - done.
  - apply lookup_insert_eq.
  - intros q ρ Hq HO. rewrite lookup_insert_ne by done. by eapply gr_sub.
  - intros q ρ Hq HO. rewrite lookup_insert_ne in HO by done. by eapply gr_new.
  - destruct (gr_pool _ _ _ _ _ _ G) as (new & El & Hnew). exists new. split; [done|].
    eapply Forall_impl; [exact Hnew|]. intros q (r0 & k & b & Hq). exists r0, k, b.
    rewrite lookup_insert_ne; [done|congruence].
  - intros r' va' Hr'.
    rewrite (leaf_set s1 l1 O1 s2 l1 (<[d:=Dat r (vpn va)]> O1) p r (pre 3 va) (PX 3 va) e
               HI1 HI2 Hp HPX); [..|by eapply gr_sub].
    + change (pre 3 va * 512 + PX 3 va) with (vpn va). case_decide; [done|].
      by apply (gr_leaf _ _ _ _ _ _ G).
    + by apply u64_small, Hle.
    + intros q r0 k c. rewrite lookup_insert_Some. split; [naive_solver|].
      intros Hq. right. split; [congruence|done].
    + done.
  - intros x Hx Hl. unfold s2. simpl. rewrite store64_out; [by apply (gr_mem _ _ _ _ _ _ G)|].
    assert (~ (p + 8 * PX 3 va <= x < p + 8 * PX 3 va + 8)); [|lia]. intros Hx'.
    assert (in_page p x) by (by eapply ent_in_page).
    destruct (gr_new _ _ _ _ _ _ G p _ Hp) as [HO|[HO _]]; [by eapply Hx|by eapply Hl].
Qed.

Lemma page_round_down_last va :
  page_aligned va -> 0 <= va -> va + PG_SIZE <= 2 ^ 64 ->
  PG_ROUND_DOWN va = va /\ PG_ROUND_DOWN (u64 (va + PG_SIZE - 1)) = va.
Proof.
  intros Ha Hn Hm. rewrite u64_small by (unfold PG_SIZE in *; lia).
  rewrite !PG_ROUND_DOWN_div. layout. zlia.
Qed.

Lemma mappages_page s l O r va d f :
  vm_inv s l O -> O !! r = Some (Tab r 0 0) -> O !! d = Some Other -> leaf_flags f ->
  leaf (km_mem s) r va = 0 -> page_aligned va -> 0 <= va -> va + PG_SIZE <= 2 ^ 64 ->
  wp (mappages r va d PG_SIZE f) s (fun ret s' =>
    (ret = 0 /\ exists l' O', mapped s l O r va d (Z.lor (Z.land d PG_ADDR_MASK) f) s' l' O' /\
       (length l <= length l' + 3)%nat) \/
    (ret = -1 /\ (length l <= 2)%nat /\ exists O', grown s l O s' [] O')).
Proof.
  intros HI Hr Hd Hf Hz Ha Hn Hm. unfold mappages.
  destruct (page_round_down_last va) as [-> ->]; [done..|].
  change (PG_SIZE =? 0) with false. cbn match.
  change (Z.to_nat (PG_SIZE / PG_SIZE + 2)) with 3%nat. cbn [loop]. apply wp_bind.
  eapply wp_mono; [by apply mappages_body_page|].
  intros res s' [[-> H]|[-> H]]; apply wp_ret; [by left|by right].
Qed.
End tables.
