(* ===== verification/VmOps.v ===== *)
(** Theorems on the operations of [kernel/vm.c] that take and return whole
    ranges of pages: [uvmunmap], [uvmalloc] and [uvmdealloc], in terms of the
    page-table invariant of [VmTables]. *)

From stdpp Require Import gmap.
From S2P Require Import Prelude CString Layout Kalloc Vm VmTables.

Section ops.
Context `{KE : KernelEnd}.

(** * Virtual page numbers *)

Lemma vpn_div va : vpn va = va / PG_SIZE mod 2 ^ 36.
Proof.
  unfold vpn. cbn [pre]. rewrite !PX_div by lia.
  change (2 ^ PX_OFFSET (Z.of_nat 0)) with (4096 * 134217728).
  change (2 ^ PX_OFFSET (Z.of_nat 1)) with (4096 * 262144).
  change (2 ^ PX_OFFSET (Z.of_nat 2)) with (4096 * 512).
  change (2 ^ PX_OFFSET (Z.of_nat 3)) with 4096.
  rewrite <- !Z.div_div by lia. unfold PG_SIZE. generalize (va / 4096). intros w. zlia.
Qed.

Lemma vpn_user va : 0 <= va < MAXVA -> vpn va = va / PG_SIZE.
Proof. intros H. rewrite vpn_div. unfold MAXVA, PG_SIZE in *. zlia. Qed.

(** * Giving pages back *)

Lemma vm_give s s' d l O :
  vm_inv s l O -> O !! d = Some Other -> kmem_inv kend s' (d :: l) ->
  (forall x, ~ in_page d x -> km_mem s' x = km_mem s x) ->
  vm_inv s' (d :: l) (delete d O).
Proof.
  intros [Hk H1 H2 H3 H4 H5 H6 H7 H8] Hd Hk' Hm.
  assert (Hdk : kpage d) by (by eapply H3).
  assert (He : forall p ρ i, O !! p = Some ρ -> p <> d -> 0 <= i < 512 ->
            ent (km_mem s') p i = ent (km_mem s) p i).
  { intros p ρ i Hp Hpd Hi. apply load64_ext. intros x Hx. apply Hm. intros Hcx.
    destruct Hpd. eapply in_page_disjoint; [by apply (H3 _ _ Hp)|apply Hdk| |exact Hcx].
    by eapply ent_in_page. }
  split.
  - done.
  - by constructor.
  - intros p [->|Hp]%elem_of_cons; [apply lookup_delete_eq|].
    rewrite lookup_delete_None. right. by apply H2.
  - intros p ρ [_ Hp]%lookup_delete_Some. by eapply H3.
  - intros p r b [_ Hp]%lookup_delete_Some. by eapply H4.
  - intros p r k b i [Hne Hp]%lookup_delete_Some Hk3 Hi. rewrite (He p _ i Hp) by done.
    destruct (H5 _ _ _ _ _ Hp Hk3 Hi) as [?|(c & Hc & HO)]; [by left|].
    right. exists c. split; [done|]. rewrite lookup_delete_ne; [done|congruence].
  - intros p r b i [Hne Hp]%lookup_delete_Some Hi. rewrite (He p _ i Hp) by done.
    destruct (H6 _ _ _ _ Hp Hi) as [?|(c & Hc & HO)]; [by left|].
    right. exists c. split; [done|]. rewrite lookup_delete_ne; [done|congruence].
  - intros c r k b [Hne Hc]%lookup_delete_Some.
    destruct (H7 c r k b Hc) as (Hk3 & p & Hp & Ep). split; [done|]. exists p.
    rewrite lookup_delete_ne by congruence. split; [done|]. rewrite (He p _ _ Hp); [done|congruence|].
    by apply Z.mod_pos_bound.
  - intros c r v [Hne Hc]%lookup_delete_Some.
    destruct (H8 c r v Hc) as (p & Hp & Ep). exists p.
    rewrite lookup_delete_ne by congruence. split; [done|]. rewrite (He p _ _ Hp); [done|congruence|].
    by apply Z.mod_pos_bound.
Qed.

(** A zeroed page becomes the root of a new, empty address space. *)
Lemma vm_root s l O p :
  vm_inv s l O -> O !! p = Some Other -> (forall i, 0 <= i < 512 -> ent (km_mem s) p i = 0) ->
  vm_inv s l (<[p := Tab p 0 0]> O).
Proof.
  intros [Hk H1 H2 H3 H4 H5 H6 H7 H8] Hp Hz.
  assert (HO : forall q ρ, O !! q = Some ρ -> ρ <> Other -> <[p := Tab p 0 0]> O !! q = Some ρ).
  { intros q ρ Hq Hρ. rewrite lookup_insert_ne; [done|congruence]. }
  split; [done|done|..].
  - intros q Hq. rewrite lookup_insert_ne; [by apply H2|]. intros ->. rewrite H2 in Hp; done.
  - intros q ρ [[<- <-]|[_ Hq]]%lookup_insert_Some; by eapply H3.
  - intros q r b [[<- E]|[_ Hq]]%lookup_insert_Some; [by simplify_eq|by eapply H4].
  - intros q r k b i [[<- E]|[_ Hq]]%lookup_insert_Some Hk3 Hi; [left; by apply Hz|].
    destruct (H5 _ _ _ _ _ Hq Hk3 Hi) as [?|(c & ? & ?)]; [by left|]. right. exists c.
    split; [done|]. by apply HO.
  - intros q r b i [[<- E]|[_ Hq]]%lookup_insert_Some Hi; [done|].
    destruct (H6 _ _ _ _ Hq Hi) as [?|(c & ? & ?)]; [by left|]. right. exists c.
    split; [done|]. by apply HO.
  - intros c r k b [[<- E]|[_ Hq]]%lookup_insert_Some; [done|].
    destruct (H7 c r k b Hq) as (? & q & ? & ?). split; [done|]. exists q. split; [by apply HO|done].
  - intros c r v [[<- E]|[_ Hq]]%lookup_insert_Some; [done|].
    destruct (H8 c r v Hq) as (q & ? & ?). exists q. split; [by apply HO|done].
Qed.

(** The page frame of a mapped virtual page. *)
Lemma leaf_page s l O r va :
  vm_inv s l O -> O !! r = Some (Tab r 0 0) -> leaf (km_mem s) r va <> 0 ->
  exists p d, O !! p = Some (Tab r 3 (pre 3 va)) /\ O !! d = Some (Dat r (vpn va)) /\
    leaf (km_mem s) r va = ent (km_mem s) p (PX 3 va) /\ pte_leaf (leaf (km_mem s) r va) d /\
    slot (km_mem s) r va = p + 8 * PX 3 va.
Proof.
  intros HI Hr Hne. destruct (leaf_is_leaf s l O r va HI Hr) as [(p & Hp & E)|(_ & E)]; [|done].
  destruct (leaf_tab s l O r va p HI Hr Hp) as [E1 E2].
  destruct (vi_leaf _ _ _ HI p r (pre 3 va) (PX 3 va) Hp) as [E0|(d & Hd & HO)].
  { apply PX_range. lia. }
  { congruence. }
  exists p, d. rewrite E1. done.
Qed.

(** * [uvmunmap] *)

(** [n] pages from [va] on unmapped and returned to the pool. *)
Record unmapped (s : kmem) (l : list Z) (O : gmap Z role) (r va n : Z)
    (s' : kmem) (l' : list Z) (O' : gmap Z role) : Prop := {
  um_inv : vm_inv s' l' O';
  um_sub : forall p ρ, O' !! p = Some ρ -> O !! p = Some ρ;
  um_keep : forall p ρ, O !! p = Some ρ ->
    (forall v, va / PG_SIZE <= v < va / PG_SIZE + n -> ρ <> Dat r v) -> O' !! p = Some ρ;
  um_pool : exists freed, l' = freed ++ l /\ Z.of_nat (length freed) = n /\
    Forall (fun p => exists v, va / PG_SIZE <= v < va / PG_SIZE + n /\ O !! p = Some (Dat r v)) freed;
  um_freed : forall p v, O !! p = Some (Dat r v) ->
    va / PG_SIZE <= v < va / PG_SIZE + n -> p ∈ l';
  um_leaf : forall r' va', O !! r' = Some (Tab r' 0 0) ->
    leaf (km_mem s') r' va' =
      if decide (r' = r /\ va / PG_SIZE <= vpn va' < va / PG_SIZE + n) then 0
      else leaf (km_mem s) r' va';
  um_mem : forall x, (forall p r k b, O !! p = Some (Tab r k b) -> ~ in_page p x) ->
    (forall d v, O !! d = Some (Dat r v) -> va / PG_SIZE <= v < va / PG_SIZE + n -> ~ in_page d x) ->
    km_mem s' x = km_mem s x;
}.

Lemma dat_unique s l O r v d d' :
  vm_inv s l O -> O !! d = Some (Dat r v) -> O !! d' = Some (Dat r v) -> d = d'.
Proof.
  intros HI Hd Hd'. destruct (vi_dat _ _ _ HI _ _ _ Hd) as (p & Hp & E).
  destruct (vi_dat _ _ _ HI _ _ _ Hd') as (p' & Hp' & E').
  assert (p = p') as <- by (by eapply (tab_unique s l O)).
  rewrite <- (pte_leaf_addr _ d (vi_page _ _ _ HI _ _ Hd) E).
  by apply pte_leaf_addr; [by eapply vi_page|].
Qed.

Lemma store64_other_page m p i v q x :
  kpage p -> kpage q -> p <> q -> 0 <= i < 512 -> in_page q x -> store64 m (p + 8 * i) v x = m x.
Proof.
  intros Hp Hq Hne Hi Hx. apply store64_out.
  assert (~ (p + 8 * i <= x < p + 8 * i + 8)); [|lia]. intros Hx'. destruct Hne.
  eapply in_page_disjoint; [apply Hp|apply Hq|by eapply ent_in_page|done].
Qed.

(** [leaf] depends only on the page tables. *)
Lemma leaf_frame s l O s' l' O' r va :
  vm_inv s l O -> vm_inv s' l' O' -> O !! r = Some (Tab r 0 0) ->
  (forall p r k b, O' !! p = Some (Tab r k b) <-> O !! p = Some (Tab r k b)) ->
  (forall p r k b x, O !! p = Some (Tab r k b) -> in_page p x -> km_mem s' x = km_mem s x) ->
  leaf (km_mem s') r va = leaf (km_mem s) r va.
Proof.
  intros HI HI' Hr HT Hm. apply (leaf_same s l O s' l' O'); [done|done|done|by apply HT|..].
  - intros p Hp%HT. left. split; [done|]. apply load64_ext. intros x Hx.
    eapply Hm; [done|]. eapply ent_in_page; [apply (PX_range 3 va); lia|lia].
  - intros p. by rewrite HT.
Qed.

Lemma free_leaf s l O r va :
  vm_inv s l O -> O !! r = Some (Tab r 0 0) -> 0 <= va < MAXVA -> leaf (km_mem s) r va <> 0 ->
  exists s1,
    kfree kend (P2V (Z.land (leaf (km_mem s) r va) PG_ADDR_MASK)) s = Ok tt s1 /\
    exists l' O', unmapped s l O r va 1
      (set_mem (fun m => store64 m (slot (km_mem s) r va) 0) s1) l' O'.
Proof.
  intros HI Hr Hva Hne.
  destruct (leaf_page s l O r va HI Hr Hne) as (p & d & Hp & Hd & El & Hpl & Es).
  assert (Hdk : kpage d) by (by eapply vi_page).
  assert (Hpk : kpage p) by (by eapply vi_page).
  pose proof (PX_range 3 va ltac:(lia)) as HPX.
  rewrite (pte_leaf_addr _ d Hdk Hpl).
  assert (Hdl : d ∉ l) by (intros Hin; rewrite (vi_free _ _ _ HI d Hin) in Hd; done).
  destruct (kfree_good kend s d l (vi_kmem _ _ _ HI) (kpage_ok d Hdk) Hdl)
    as (s1 & Hs1 & Hk1 & Hm1).
  exists s1. split; [done|]. exists (d :: l), (delete d O).
  set (s2 := set_mem _ s1). set (O1 := <[d:=Other]> O).
  set (s0 := set_mem (fun m => store64 m (p + 8 * PX 3 va) 0) s).
  assert (HT1 : forall q r k c, O1 !! q = Some (Tab r k c) <-> O !! q = Some (Tab r k c)).
  { intros q r0 k c. unfold O1. rewrite lookup_insert_Some. naive_solver. }
  assert (HI0 : vm_inv s0 l O1).
  { eapply (vm_set_leaf s l O p r (pre 3 va) (PX 3 va) 0 d); [done..|]. right. left. done. }
  assert (Hm2 : forall x, ~ in_page d x -> km_mem s2 x = km_mem s0 x).
  { intros x Hx. unfold s2, s0. simpl. rewrite Es. apply store64_ext, Hm1.
    unfold in_page, PG_SIZE in Hx. lia. }
  assert (Hk2 : kmem_inv kend s2 (d :: l)).
  { apply kmem_inv_set_mem; [done|by apply store64_ok, Hk1|]. intros q x Hq Hx. rewrite Es.
    apply store64_other_page with q; [done| | |done|done].
    - apply elem_of_cons in Hq as [->|Hq]; [done|].
      pose proof (vi_pool _ _ _ HI) as Hpool. rewrite Forall_forall in Hpool. by apply Hpool.
    - intros <-. apply elem_of_cons in Hq as [->|Hq]; [congruence|].
      rewrite (vi_free _ _ _ HI p Hq) in Hp. done. }
  assert (HI2 : vm_inv s2 (d :: l) (delete d O)).
  { replace (delete d O) with (delete d O1) by apply delete_insert_eq.
    apply (vm_give s0); [done|apply lookup_insert_eq|done|done]. }
  split.
  - done.
  - intros q ρ [_ Hq]%lookup_delete_Some. done.
  - intros q ρ Hq Hv. apply lookup_delete_Some. split; [|done]. intros <-.
    apply (Hv (vpn va)); [|congruence]. rewrite vpn_user by done. lia.
  - exists [d]. split_and!; [done|done|]. constructor; [|done]. exists (vpn va).
    split; [|done]. rewrite vpn_user by done. lia.
  - intros q v Hq Hv. assert (v = vpn va) as -> by (rewrite vpn_user by done; lia).
    assert (q = d) as -> by (by eapply (dat_unique s l O)). left.
  - intros r' va' Hr'.
    rewrite (leaf_frame s0 l O1 s2 (d :: l) (delete d O) r' va' HI0 HI2).
    + rewrite (leaf_set s l O s0 l O1 p r (pre 3 va) (PX 3 va) 0 HI HI0 Hp HPX eq_refl HT1 eq_refl r' va' Hr').
      change (pre 3 va * 512 + PX 3 va) with (vpn va). rewrite (vpn_user va) by done.
      do 2 case_decide; try done; lia.
    + unfold O1. rewrite lookup_insert_ne by congruence. done.
    + intros q r0 k b. rewrite HT1, lookup_delete_Some. naive_solver.
    + intros q r0 k b x Hq Hx. apply Hm2. intros Hdx. apply HT1 in Hq.
      assert (q = d); [|congruence].
      eapply in_page_disjoint; [by apply (vi_page _ _ _ HI q _ Hq)|apply Hdk|done|done].
  - intros x Hx1 Hx2. rewrite Hm2.
    + unfold s0. simpl. apply store64_out.
      assert (~ (p + 8 * PX 3 va <= x < p + 8 * PX 3 va + 8)); [|lia].
      intros Hx'. apply (Hx1 _ _ _ _ Hp). by eapply ent_in_page.
    + eapply Hx2; [done|]. rewrite vpn_user by done. lia.
Qed.

Lemma unmapped_refl s l O r va : vm_inv s l O -> unmapped s l O r va 0 s l O.
Proof.
  intros HI. split; try done; [by exists []|intros; lia|]. intros. rewrite decide_False; [done|lia].
Qed.

Lemma unmapped_cons s l O r va n s1 l1 O1 s2 l2 O2 :
  O !! r = Some (Tab r 0 0) -> 0 <= n ->
  unmapped s l O r va 1 s1 l1 O1 -> unmapped s1 l1 O1 r (va + PG_SIZE) n s2 l2 O2 ->
  unmapped s l O r va (n + 1) s2 l2 O2.
Proof.
  intros Hr Hn [A1 A2 A3 [f1 (A4 & A4' & F1)] A7 A5 A6] [B1 B2 B3 [f2 (B4 & B4' & F2)] B7 B5 B6].
  assert (Hdiv : (va + PG_SIZE) / PG_SIZE = va / PG_SIZE + 1) by (unfold PG_SIZE; zlia).
  rewrite Hdiv in *. split.
  - done.
  - auto.
  - intros p ρ Hp Hv. apply B3; [apply A3; [done|]|]; intros v Hlt; apply Hv; lia.
  - exists (f2 ++ f1). subst. rewrite length_app, app_assoc. split_and!; [done|lia|].
    apply Forall_app. split; (eapply Forall_impl; [eassumption|]).
    + intros p (v & Hv & Hp). exists v. split; [lia|auto].
    + intros p (v & Hv & Hp). exists v. split; [lia|auto].
  - intros p v Hp Hv. destruct (decide (v = va / PG_SIZE)) as [->|].
    + subst l2. apply elem_of_app. right. eapply A7; [done|lia].
    + eapply (B7 _ v); [|lia]. apply A3; [done|]. intros v' Hv' [= ->]. lia.
  - intros r' va' Hr'. rewrite B5, A5; [|done|].
    + repeat case_decide; try done; lia.
    + apply A3; [done|]. done.
  - intros x Hx1 Hx2. rewrite B6; [apply A6; [done|]|..].
    + intros d v Hd Hv. eapply Hx2; [done|lia].
    + intros p r' k b Hp. by eapply Hx1, A2.
    + intros d v Hd Hv. eapply Hx2; [by apply A2|lia].
Qed.

Lemma leaf_valid s l O r va :
  vm_inv s l O -> O !! r = Some (Tab r 0 0) -> leaf (km_mem s) r va <> 0 ->
  slot (km_mem s) r va <> 0 /\ load64 (km_mem s) (slot (km_mem s) r va) = leaf (km_mem s) r va /\
  Z.land (leaf (km_mem s) r va) MM_TYPE_VALID = 1 /\
  Z.land (leaf (km_mem s) r va) MM_TYPE_MASK = MM_TYPE_PAGE.
Proof.
  intros HI Hr Hne.
  destruct (leaf_page s l O r va HI Hr Hne) as (p & d & Hp & Hd & El & (_ & Ht & _) & Es).
  assert (Hpk : kpage p) by (by eapply vi_page).
  pose proof (PX_range 3 va ltac:(lia)) as HPX. split_and!.
  - rewrite Es. destruct Hpk as (_ & Hlo & _). pose proof kend_ok.
    unfold KERN_BASE, PHY_BASE in *. lia.
  - by rewrite Es, El.
  - by apply type_valid.
  - done.
Qed.

Lemma uvmunmap_body_step s l O r va limit :
  vm_inv s l O -> O !! r = Some (Tab r 0 0) -> 0 <= va < limit -> limit <= MAXVA ->
  leaf (km_mem s) r va <> 0 ->
  wp (uvmunmap_body kend r limit true va) s (fun res s' =>
    res = inl (u64 (va + PG_SIZE)) /\ exists l' O', unmapped s l O r va 1 s' l' O').
Proof.
  intros HI Hr Hva Hlim Hne. unfold uvmunmap_body.
  destruct (leaf_valid s l O r va HI Hr Hne) as (Hs & Hl & Hv & Ht).
  destruct (Z.ltb_spec va limit); [|lia].
  apply wp_bind. eapply wp_ok; [apply walk_ro|].
  destruct (Z.eqb_spec (slot (km_mem s) r va) 0); [done|].
  apply wp_bind, wp_gets. rewrite Hl, Hv, Ht, Z.eqb_refl. cbn [negb Z.eqb when].
  destruct (free_leaf s l O r va HI Hr) as (s1 & Hs1 & l' & O' & Hu); [lia|done|].
  apply wp_bind. eapply wp_ok; [done|]. apply wp_bind, wp_modify, wp_ret.
  split; [done|]. by exists l', O'.
Qed.

Lemma uvmunmap_loop n s l O r va fuel :
  vm_inv s l O -> O !! r = Some (Tab r 0 0) -> page_aligned va -> 0 <= va ->
  va + Z.of_nat n * PG_SIZE <= MAXVA ->
  (forall a, va <= a < va + Z.of_nat n * PG_SIZE -> leaf (km_mem s) r a <> 0) ->
  (n < fuel)%nat ->
  wp (loop fuel (uvmunmap_body kend r (va + Z.of_nat n * PG_SIZE) true) va) s (fun _ s' =>
    exists l' O', unmapped s l O r va (Z.of_nat n) s' l' O').
Proof.
  revert s l O va fuel. induction n as [|n IH]; intros s l O va fuel HI Hr Ha H0 Hmax Hmap Hfuel.
  - destruct fuel as [|fuel]; [lia|]. eapply wp_ok; [apply loop_exit|].
    + unfold uvmunmap_body. destruct (Z.ltb_spec va (va + Z.of_nat 0 * PG_SIZE)); [lia|done].
    + exists l, O. by apply unmapped_refl.
  - destruct fuel as [|fuel]; [lia|]. cbn [loop]. apply wp_bind.
    eapply wp_mono; [apply (uvmunmap_body_step s l O); [done|done| |done|]|].
    + unfold PG_SIZE. lia.
    + apply Hmap. unfold PG_SIZE. lia.
    + intros res s1 [-> (l1 & O1 & U)].
      rewrite u64_small by (unfold PG_SIZE, MAXVA in *; lia).
      replace (va + Z.of_nat (S n) * PG_SIZE) with (va + PG_SIZE + Z.of_nat n * PG_SIZE) by lia.
      assert (Hr1 : O1 !! r = Some (Tab r 0 0)) by (apply (um_keep _ _ _ _ _ _ _ _ _ U); done).
      eapply wp_mono; [apply (IH s1 l1 O1); [apply U|done| | | | |lia]|].
      * unfold page_aligned, PG_SIZE in *. zlia.
      * unfold PG_SIZE in *. lia.
      * lia.
      * intros a Hra. rewrite (um_leaf _ _ _ _ _ _ _ _ _ U) by done.
        rewrite decide_False; [apply Hmap; unfold PG_SIZE in *; lia|]. intros [_ Hv].
        rewrite vpn_user in Hv by (unfold PG_SIZE in *; lia). unfold PG_SIZE in *. zlia.
      * intros _ s2 (l2 & O2 & U2). exists l2, O2.
        replace (Z.of_nat (S n)) with (Z.of_nat n + 1) by lia.
        by eapply unmapped_cons; [|lia|..].
Qed.

Lemma uvmunmap_ok s l O r va n :
  vm_inv s l O -> O !! r = Some (Tab r 0 0) -> page_aligned va -> 0 <= va -> 0 <= n ->
  va + n * PG_SIZE <= MAXVA ->
  (forall a, va <= a < va + n * PG_SIZE -> leaf (km_mem s) r a <> 0) ->
  wp (uvmunmap kend r va n true) s (fun _ s' => exists l' O', unmapped s l O r va n s' l' O').
Proof.
  intros HI Hr Ha H0 Hn Hmax Hmap. unfold uvmunmap. unfold page_aligned in Ha.
  rewrite Ha, Z.eqb_refl. cbn [negb].
  rewrite u64_small by (unfold PG_SIZE, MAXVA in *; lia).
  destruct (Z_of_nat_complete n Hn) as [k ->].
  apply uvmunmap_loop; try done. lia.
Qed.

(** * [uvmalloc] *)

(** [n] fresh pages mapped from [va] on: virtual page [v] with flags [f v]
    and contents [c v]. *)
Record allocated (s : kmem) (l : list Z) (O : gmap Z role) (r va n : Z)
    (f : Z -> Z) (c : Z -> Z -> Z)
    (s' : kmem) (l' : list Z) (O' : gmap Z role) : Prop := {
  al_inv : vm_inv s' l' O';
  al_sub : forall p ρ, O !! p = Some ρ -> O' !! p = Some ρ;
  al_new : forall p ρ, O' !! p = Some ρ -> O !! p = Some ρ \/ p ∈ l /\
    ((exists r k b, ρ = Tab r (S k) b) \/
     exists v, va / PG_SIZE <= v < va / PG_SIZE + n /\ ρ = Dat r v);
  al_pool : (forall p, p ∈ l' -> p ∈ l) /\ (forall p, p ∈ l -> p ∈ l' \/ is_Some (O' !! p));
  al_out : forall r' va', O !! r' = Some (Tab r' 0 0) ->
    ~ (r' = r /\ va / PG_SIZE <= vpn va' < va / PG_SIZE + n) ->
    leaf (km_mem s') r' va' = leaf (km_mem s) r' va';
  al_in : forall va', va / PG_SIZE <= vpn va' < va / PG_SIZE + n ->
    exists d, O' !! d = Some (Dat r (vpn va')) /\ d ∈ l /\
      leaf (km_mem s') r va' = Z.lor (Z.land d PG_ADDR_MASK) (f (vpn va')) /\
      forall x, in_page d x -> km_mem s' x = c (vpn va') (x - d);
  al_mem : forall x, (forall p r k b, O !! p = Some (Tab r k b) -> ~ in_page p x) ->
    (forall p, p ∈ l -> ~ in_page p x) -> km_mem s' x = km_mem s x;
}.

Lemma allocated_refl s l O r va f c : vm_inv s l O -> allocated s l O r va 0 f c s l O.
Proof. intros HI. split; try done; [by left|split; auto|intros; lia]. Qed.

(** A page with a role is not in the pool, nor a page with another role. *)
Lemma page_not_pool s l O p ρ q x :
  vm_inv s l O -> O !! p = Some ρ -> in_page p x -> q ∈ l -> ~ in_page q x.
Proof.
  intros HI Hp Hx Hq Hqx. assert (p = q) as <-.
  { eapply in_page_disjoint; [by apply (vi_page _ _ _ HI p _ Hp)| |done|done].
    pose proof (vi_pool _ _ _ HI) as Hl. rewrite Forall_forall in Hl. by apply Hl. }
  rewrite (vi_free _ _ _ HI p Hq) in Hp. done.
Qed.

Lemma page_not_other s l O p ρ q ρ' x :
  vm_inv s l O -> O !! p = Some ρ -> O !! q = Some ρ' -> ρ <> ρ' -> in_page p x -> ~ in_page q x.
Proof.
  intros HI Hp Hq Hne Hx Hqx. assert (p = q) as <-; [|congruence].
  eapply in_page_disjoint; [by apply (vi_page _ _ _ HI p _ Hp)|by apply (vi_page _ _ _ HI q _ Hq)|done..].
Qed.

Lemma take_leaf s s' d l O r va :
  vm_inv s (d :: l) O -> vm_inv s' l (<[d := Other]> O) ->
  (forall x, ~ in_page d x -> km_mem s' x = km_mem s x) -> O !! r = Some (Tab r 0 0) ->
  leaf (km_mem s') r va = leaf (km_mem s) r va.
Proof.
  intros HI HI' Hm Hr. assert (HdO : O !! d = None) by (eapply vi_free; [exact HI|left]).
  apply (leaf_frame s (d :: l) O s' l (<[d:=Other]> O)); [done..| |].
  - intros p r0 k b. rewrite lookup_insert_Some. naive_solver.
  - intros p r0 k b x Hp Hx. apply Hm. eapply page_not_pool; [exact HI|done..|left].
Qed.

Lemma kfree_other s l O d :
  vm_inv s l O -> O !! d = Some Other ->
  exists s', kfree kend d s = Ok tt s' /\ kmem_inv kend s' (d :: l) /\
    (forall x, ~ in_page d x -> km_mem s' x = km_mem s x).
Proof.
  intros HI Hd. assert (Hdl : d ∉ l) by (intros Hin; rewrite (vi_free _ _ _ HI d Hin) in Hd; done).
  assert (Hdk : kpage d) by (by eapply vi_page).
  destruct (kfree_good kend s d l (vi_kmem _ _ _ HI) (kpage_ok d Hdk) Hdl) as (s1 & Hs1 & Hk1 & Hm1).
  exists s1. split_and!; [done|done|]. intros x Hx. apply Hm1. unfold in_page, PG_SIZE in Hx. lia.
Qed.

(** One more page: taken from the pool, zeroed, mapped. *)
Lemma allocated_snoc s l O r va n f c s1 d l1 O1 s2 s3 l3 O3 :
  O !! r = Some (Tab r 0 0) -> 0 <= n -> 0 <= va -> va + n * PG_SIZE < MAXVA ->
  allocated s l O r va n f c s1 (d :: l1) O1 ->
  vm_inv s2 l1 (<[d := Other]> O1) ->
  (forall x, ~ in_page d x -> km_mem s2 x = km_mem s1 x) ->
  (forall x, in_page d x -> km_mem s2 x = c (va / PG_SIZE + n) (x - d)) ->
  mapped s2 l1 (<[d := Other]> O1) r (va + n * PG_SIZE) d
    (Z.lor (Z.land d PG_ADDR_MASK) (f (va / PG_SIZE + n))) s3 l3 O3 ->
  allocated s l O r va (n + 1) f c s3 l3 O3.
Proof.
  intros Hr Hn H0 Hmax [A1 A2 A3 [A4 A4'] A5 A6 A7] HI2 Hout Hin [B1 B2 B3 B4 [new' [B5 B5']] B6 B7].
  assert (HdO1 : O1 !! d = None) by (eapply vi_free; [done|left]).
  assert (Hdl : d ∈ l) by (apply A4; left).
  assert (Hvpn : vpn (va + n * PG_SIZE) = va / PG_SIZE + n).
  { unfold PG_SIZE in *. rewrite vpn_user by lia. unfold PG_SIZE. zlia. }
  rewrite Hvpn in *.
  assert (HO1 : forall p ρ, O1 !! p = Some ρ -> O3 !! p = Some ρ).
  { intros p ρ Hp. apply B3; [congruence|]. rewrite lookup_insert_ne; [done|congruence]. }
  assert (Hleaf : forall r' va', O1 !! r' = Some (Tab r' 0 0) ->
     leaf (km_mem s2) r' va' = leaf (km_mem s1) r' va').
  { intros r' va' Hr'. by eapply take_leaf. }
  assert (HB7 : forall p ρ x, <[d:=Other]> O1 !! p = Some ρ -> (forall r k b, ρ <> Tab r k b) ->
     in_page p x -> km_mem s3 x = km_mem s2 x).
  { intros p ρ x Hp Hρ Hx. apply B7.
    - intros q r0 k b Hq. by eapply (page_not_other _ _ _ p ρ q _ x HI2).
    - intros q Hq. by eapply (page_not_pool _ _ _ p ρ q x HI2). }
  assert (Hpool : forall p, p ∈ l1 -> p ∈ l) by (intros; apply A4; by right).
  assert (HrO : forall r', O !! r' = Some (Tab r' 0 0) -> <[d:=Other]> O1 !! r' = Some (Tab r' 0 0)).
  { intros r' Hr'. rewrite lookup_insert_ne; [auto|]. intros ->. rewrite (A2 _ _ Hr') in HdO1. done. }
  split.
  - done.
  - auto.
  - intros p ρ Hp. destruct (decide (p = d)) as [->|Hpd].
    { right. split; [done|]. right. exists (va / PG_SIZE + n). split; [lia|congruence]. }
    destruct (B4 p ρ Hpd Hp) as [Hp1|[Hp1 Ht]]; [|right; eauto].
    rewrite lookup_insert_ne in Hp1 by done.
    destruct (A3 p ρ Hp1) as [?|[? [?|(v & Hv & ->)]]]; [by left|right; eauto|].
    right. split; [done|]. right. exists v. split; [lia|done].
  - split; [subst l1; set_solver|]. rewrite Forall_forall in B5'. intros p Hp.
    destruct (A4' p Hp) as [[->|Hp1]%elem_of_cons|[ρ Hp1]]; [eauto| |eauto].
    subst l1. apply elem_of_app in Hp1 as [Hp1|]; [|by left].
    destruct (B5' p Hp1) as (? & ? & ? & ?). eauto.
  - intros r' va' Hr' Hne.
    rewrite B6, decide_False by (auto || intros [-> ?]; apply Hne; lia).
    rewrite Hleaf by auto. apply A5; [done|]. intros [-> ?]. apply Hne. lia.
  - intros va' Hv. destruct (decide (vpn va' = va / PG_SIZE + n)) as [E|E].
    + exists d. rewrite !E. split_and!; [done|done| |].
      * by rewrite B6, decide_True by auto.
      * intros x Hx. rewrite (HB7 d Other x) by (done || apply lookup_insert_eq). by apply Hin.
    + destruct (A6 va') as (d' & Hd' & Hdl' & Hlf & Hz); [lia|]. exists d'. split_and!; [auto|done| |].
      * rewrite B6, decide_False by (auto || by intros [_ ?]). rewrite Hleaf; auto.
      * intros x Hx. rewrite (HB7 d' (Dat r (vpn va')) x); [|rewrite lookup_insert_ne; [done|congruence]|done|done].
        rewrite Hout; [by apply Hz|]. eapply page_not_pool; [exact A1|done..|left].
  - intros x Hx Hl. rewrite B7; [rewrite Hout by auto; by apply A7|..].
    + intros p r0 k b Hp. apply lookup_insert_Some in Hp as [[_ ?]|[_ Hp]]; [done|].
      destruct (A3 _ _ Hp) as [?|[? _]]; [by eapply Hx|by apply Hl].
    + intros p Hp. by apply Hl, Hpool.
Qed.

(** * Growing and shrinking back

    What is left when an operation fails: the address spaces and the data
    are as before, some free pages have become (empty) page tables. *)
Record settled (s : kmem) (l : list Z) (O : gmap Z role)
    (s' : kmem) (l' : list Z) (O' : gmap Z role) : Prop := {
  st_inv : vm_inv s' l' O';
  st_sub : forall p ρ, O !! p = Some ρ -> O' !! p = Some ρ;
  st_new : forall p ρ, O' !! p = Some ρ -> O !! p = Some ρ \/
    p ∈ l /\ exists r k b, ρ = Tab r (S k) b;
  st_pool : (forall p, p ∈ l' -> p ∈ l) /\
    (forall p, p ∈ l -> p ∈ l' \/ exists r k b, O' !! p = Some (Tab r (S k) b));
  st_leaf : forall r va, O !! r = Some (Tab r 0 0) ->
    leaf (km_mem s') r va = leaf (km_mem s) r va;
  st_mem : forall x, (forall p r k b, O !! p = Some (Tab r k b) -> ~ in_page p x) ->
    (forall p, p ∈ l -> ~ in_page p x) -> km_mem s' x = km_mem s x;
}.

(** A failed attempt to map a fresh page [d], which is then freed. *)
Lemma settled_retry s d l O s2 s3 l3 O3 s4 :
  vm_inv s (d :: l) O -> vm_inv s2 l (<[d := Other]> O) ->
  (forall x, ~ in_page d x -> km_mem s2 x = km_mem s x) ->
  grown s2 l (<[d := Other]> O) s3 l3 O3 ->
  kmem_inv kend s4 (d :: l3) ->
  (forall x, ~ in_page d x -> km_mem s4 x = km_mem s3 x) ->
  settled s (d :: l) O s4 (d :: l3) (delete d O3).
Proof.
  intros HI HI2 Hm2 [B1 B2 B3 [new [B4 B4']] B5 B6] Hk4 Hm4.
  assert (HdO : O !! d = None) by (eapply vi_free; [exact HI|left]).
  assert (Hd3 : O3 !! d = Some Other) by (apply B2, lookup_insert_eq).
  assert (HI4 : vm_inv s4 (d :: l3) (delete d O3)) by (by apply (vm_give s3)).
  assert (Hdk : kpage d) by (by eapply (vi_page _ _ _ B1)).
  assert (HO : forall p ρ, O !! p = Some ρ -> <[d:=Other]> O !! p = Some ρ).
  { intros p ρ Hp. rewrite lookup_insert_ne; [done|congruence]. }
  split.
  - done.
  - intros p ρ Hp. rewrite lookup_delete_ne by congruence. auto.
  - intros p ρ [Hne Hp]%lookup_delete_Some. destruct (B3 p ρ Hp) as [Hp'|[? ?]].
    + rewrite lookup_insert_ne in Hp' by done. by left.
    + right. split; [by right|done].
  - rewrite Forall_forall in B4'. split; [subst l; set_solver|].
    intros p [->|Hp]%elem_of_cons; [left; left|]. subst l.
    apply elem_of_app in Hp as [Hp|]; [|left; by right].
    destruct (B4' p Hp) as (r & k & b & HpO). right. exists r, k, b.
    rewrite lookup_delete_ne; [done|congruence].
  - intros r va Hr.
    rewrite (leaf_frame s3 l3 O3 s4 (d :: l3) (delete d O3)); [|done..|by apply B2, HO| |].
    + rewrite B5 by auto. by eapply take_leaf.
    + intros p r0 k b. rewrite lookup_delete_Some. naive_solver.
    + intros p r0 k b x Hp Hx. apply Hm4. by eapply (page_not_other _ _ _ p _ d _ x B1).
  - intros x Hx Hl. rewrite Hm4 by (apply Hl; left). rewrite B6.
    + apply Hm2, Hl. left.
    + intros p r k b [[_ ?]|[_ Hp]]%lookup_insert_Some; [done|by eapply Hx].
    + intros p Hp. apply Hl. by right.
Qed.

Lemma allocated_settled s l O r va n f c s1 l1 O1 s2 l2 O2 :
  O !! r = Some (Tab r 0 0) ->
  allocated s l O r va n f c s1 l1 O1 -> settled s1 l1 O1 s2 l2 O2 ->
  allocated s l O r va n f c s2 l2 O2.
Proof.
  intros Hr [A1 A2 A3 [A4 A4'] A5 A6 A7] [B1 B2 B3 [B4 B4'] B5 B6]. split.
  - done.
  - auto.
  - intros p ρ Hp. destruct (B3 p ρ Hp) as [?|[? ?]]; [auto|]. right. auto.
  - split; [auto|]. intros p Hp. destruct (A4' p Hp) as [Hp1|[ρ ?]]; [|eauto].
    destruct (B4' p Hp1) as [?|(? & ? & ? & ?)]; eauto.
  - intros r' va' Hr' Hne. rewrite B5 by auto. auto.
  - intros va' Hv. destruct (A6 va' Hv) as (d & Hd & Hdl & Hlf & Hz). exists d.
    split_and!; [auto|done|by rewrite B5 by auto|]. intros x Hx. rewrite B6; [auto|..].
    + intros p r0 k b Hp. by eapply (page_not_other _ _ _ d _ p _ x A1).
    + intros p Hp. by eapply (page_not_pool _ _ _ d _ p x A1).
  - intros x Hx Hl. rewrite B6; [by apply A7|..].
    + intros p r0 k b Hp. destruct (A3 _ _ Hp) as [?|[? _]]; [by eapply Hx|by apply Hl].
    + intros p Hp. apply Hl. auto.
Qed.

(** Unmapping what was allocated. *)
Lemma allocated_unmapped s l O r va n f c s1 l1 O1 s2 l2 O2 :
  vm_inv s l O -> O !! r = Some (Tab r 0 0) ->
  (forall a, va / PG_SIZE <= vpn a < va / PG_SIZE + n -> leaf (km_mem s) r a = 0) ->
  (forall p v, va / PG_SIZE <= v < va / PG_SIZE + n -> O !! p <> Some (Dat r v)) ->
  allocated s l O r va n f c s1 l1 O1 -> unmapped s1 l1 O1 r va n s2 l2 O2 ->
  settled s l O s2 l2 O2.
Proof.
  intros HI Hr Hz Hno [A1 A2 A3 [A4 A4'] A5 A6 A7] [B1 B2 B3 [fr (B4 & _ & F)] B7 B5 B6]. split.
  - done.
  - intros p ρ Hp. apply B3; [auto|]. intros v Hv ->. by apply (Hno p v).
  - intros p ρ Hp. destruct (A3 p ρ (B2 _ _ Hp)) as [?|[Hpl [?|(v & Hv & ->)]]]; [by left|by right|].
    exfalso. pose proof (B7 p v (B2 _ _ Hp) Hv) as Hp2. rewrite (vi_free _ _ _ B1 p Hp2) in Hp. done.
  - rewrite Forall_forall in F. split.
    + subst l2. intros p [Hp|Hp]%elem_of_app; [|auto]. destruct (F p Hp) as (v & Hv & HO1).
      destruct (A3 _ _ HO1) as [?|[? _]]; [by destruct (Hno p v)|done].
    + intros p Hp. destruct (A4' p Hp) as [?|[ρ HO1]]; [left; subst l2; set_solver|].
      destruct (A3 _ _ HO1) as [HO|[_ [(r0 & k & b & ->)|(v & Hv & ->)]]].
      * by rewrite (vi_free _ _ _ HI p Hp) in HO.
      * right. exists r0, k, b. by apply B3.
      * left. by eapply B7.
  - intros r' va' Hr'. rewrite B5 by auto. case_decide as E.
    + destruct E as [-> E]. symmetry. by apply Hz.
    + by apply A5.
  - intros x Hx Hl. rewrite B6; [by apply A7|..].
    + intros p r0 k b Hp. destruct (A3 _ _ Hp) as [?|[? _]]; [by eapply Hx|by apply Hl].
    + intros d v Hd Hv. destruct (A3 _ _ Hd) as [?|[? _]]; [by destruct (Hno d v)|by apply Hl].
Qed.

(** * Counting *)

Lemma dat_leaf s l O r d v :
  vm_inv s l O -> O !! r = Some (Tab r 0 0) -> O !! d = Some (Dat r v) -> 0 <= v < 2 ^ 36 ->
  leaf (km_mem s) r (v * PG_SIZE) <> 0.
Proof.
  intros HI Hr Hd Hv. destruct (vi_dat _ _ _ HI _ _ _ Hd) as (p & Hp & E).
  assert (Hvp : vpn (v * PG_SIZE) = v).
  { rewrite vpn_div. unfold PG_SIZE. rewrite Z.div_mul, Z.mod_small; lia. }
  destruct (pre3_vpn (v * PG_SIZE)) as [E1 E2]. rewrite Hvp in E1, E2.
  rewrite (proj1 (leaf_tab s l O r (v * PG_SIZE) p HI Hr ltac:(by rewrite E1))), E2.
  by eapply pte_leaf_nonzero.
Qed.

(** The data pages of an address space fit in physical memory. *)
Lemma dat_list s l O r a n :
  vm_inv s l O -> (forall v, a <= v < a + Z.of_nat n -> exists d, O !! d = Some (Dat r v)) ->
  exists ds, length ds = n /\ NoDup ds /\
    forall d, d ∈ ds -> exists v, a <= v < a + Z.of_nat n /\ O !! d = Some (Dat r v).
Proof.
  intros HI. revert a. induction n as [|n IH]; intros a H.
  - exists []. split_and!; [done|constructor|]. by intros d ?%elem_of_nil.
  - destruct (IH (a + 1)) as (ds & Hlen & Hnd & Hds); [intros v Hv; apply H; lia|].
    destruct (H a) as [d Hd]; [lia|]. exists (d :: ds). split_and!.
    + simpl. by rewrite Hlen.
    + constructor; [|done]. intros Hin. destruct (Hds d Hin) as (v & Hv & Hd').
      rewrite Hd in Hd'. simplify_eq. lia.
    + intros d' [->|Hd']%elem_of_cons; [exists a; split; [lia|done]|].
      destruct (Hds d' Hd') as (v & Hv & ?). exists v. split; [lia|done].
Qed.

Lemma dat_count s l O r a n :
  vm_inv s l O -> (forall v, a <= v < a + Z.of_nat n -> exists d, O !! d = Some (Dat r v)) ->
  Z.of_nat n <= PHY_STOP / PG_SIZE.
Proof.
  intros HI H. destruct (dat_list s l O r a n HI H) as (ds & Hlen & Hnd & Hds).
  set (N := Z.to_nat (PHY_STOP / PG_SIZE)).
  assert (ds ⊆+ pages KERN_BASE N) as Hsub%submseteq_length.
  { apply NoDup_submseteq; [done|]. intros d Hd. destruct (Hds d Hd) as (v & _ & HO).
    destruct (vi_page _ _ _ HI d _ HO) as (Ha & Hlo & Hhi). pose proof kend_ok.
    apply elem_of_pages. exists (Z.to_nat ((d - KERN_BASE) / PG_SIZE)).
    unfold N, page_aligned, KERN_BASE, PHY_STOP, PHY_BASE, PG_SIZE in *. zlia. }
  assert (Hpl : forall b k, length (pages b k) = k).
  { intros b k. revert b. induction k; intros b; simpl; auto. }
  rewrite Hpl, Hlen in Hsub. unfold N in Hsub. unfold PHY_STOP, PHY_BASE, PG_SIZE in *. zlia.
Qed.

(** * [uvmdealloc] *)

Lemma uvmdealloc_ok s l O r oldsz newsz :
  vm_inv s l O -> O !! r = Some (Tab r 0 0) -> 0 <= newsz <= oldsz -> oldsz <= MAXVA ->
  (forall a, PG_ROUND_UP newsz <= a < PG_ROUND_UP oldsz -> leaf (km_mem s) r a <> 0) ->
  wp (uvmdealloc kend r oldsz newsz) s (fun ret s' => ret = newsz /\ exists l' O',
    unmapped s l O r (PG_ROUND_UP newsz) ((PG_ROUND_UP oldsz - PG_ROUND_UP newsz) / PG_SIZE) s' l' O').
Proof.
  intros HI Hr Hle Hmax Hmap. unfold uvmdealloc.
  rewrite !PG_ROUND_UP_div in * by (unfold PG_SIZE, MAXVA in *; lia).
  set (o := (oldsz + PG_SIZE - 1) / PG_SIZE) in *. set (w := (newsz + PG_SIZE - 1) / PG_SIZE) in *.
  assert (Hwo : w <= o /\ 0 <= w /\ o * PG_SIZE <= MAXVA).
  { unfold o, w, PG_SIZE, MAXVA in *. zlia. }
  replace (o * PG_SIZE - w * PG_SIZE) with ((o - w) * PG_SIZE) by lia.
  rewrite Z.div_mul by done.
  destruct (Z.leb_spec oldsz newsz).
  { assert (oldsz = newsz) by lia. apply wp_ret. split; [done|]. exists l, O.
    assert (w = o) as -> by (unfold o, w; congruence). rewrite Z.sub_diag. by apply unmapped_refl. }
  apply wp_bind. destruct (Z.ltb_spec (w * PG_SIZE) (o * PG_SIZE)) as [Hlt|Hge]; cbn [when].
  2:{ apply wp_ret, wp_ret. split; [done|]. exists l, O.
      assert (w = o) as -> by (unfold PG_SIZE in *; lia). rewrite Z.sub_diag. by apply unmapped_refl. }
  assert (Hn : Z.of_nat (Z.to_nat (o - w)) <= PHY_STOP / PG_SIZE).
  { apply (dat_count s l O r w _ HI). intros v Hv.
    destruct (leaf_page s l O r (v * PG_SIZE) HI Hr) as (p & d & _ & Hd & _).
    - apply Hmap. unfold PG_SIZE in *. lia.
    - exists d. rewrite Hd, vpn_user; [by rewrite Z.div_mul|]. unfold PG_SIZE in *. lia. }
  rewrite s32_small by (unfold PHY_STOP, PHY_BASE, PG_SIZE in *; zlia).
  rewrite u64_small by (unfold PHY_STOP, PHY_BASE, PG_SIZE in *; zlia).
  eapply wp_mono; [apply (uvmunmap_ok s l O); try done|].
  - unfold page_aligned. by apply Z.mod_mul.
  - unfold PG_SIZE. lia.
  - unfold PG_SIZE in *. lia.
  - unfold PG_SIZE in *. lia.
  - intros a Ha. apply Hmap. unfold PG_SIZE in *. lia.
  - intros [] s' H'. by apply wp_ret.
Qed.

(** * Undoing an allocation *)

Section undo.
Context (s0 : kmem) (l0 : list Z) (O0 : gmap Z role) (r va n : Z) (f : Z -> Z) (c : Z -> Z -> Z).
Context (HI0 : vm_inv s0 l0 O0) (Hr0 : O0 !! r = Some (Tab r 0 0)).
Context (Hva : 0 <= va) (Hal : page_aligned va) (Hn : 0 <= n) (Hmax : va + n * PG_SIZE <= MAXVA).

Lemma vpn_range b :
  va <= b < va + n * PG_SIZE -> va / PG_SIZE <= vpn b < va / PG_SIZE + n.
Proof.
  intros Hb. unfold page_aligned, PG_SIZE in *. rewrite vpn_user by lia. unfold PG_SIZE. zlia.
Qed.

Lemma allocated_mapped s l O b :
  allocated s0 l0 O0 r va n f c s l O -> (forall v, va / PG_SIZE <= v < va / PG_SIZE + n -> leaf_flags (f v)) ->
  va <= b < va + n * PG_SIZE -> leaf (km_mem s) r b <> 0.
Proof.
  intros HA Hf Hb. pose proof (vpn_range b Hb) as Hv.
  destruct (al_in _ _ _ _ _ _ _ _ _ _ _ HA b Hv) as (d & Hd & _ & -> & _).
  eapply pte_leaf_nonzero, pte_leaf_make; [|by apply Hf]. eapply vi_page; [apply HA|done].
Qed.

Lemma allocated_undo s l O s' l' O' :
  (forall a, va <= a < va + n * PG_SIZE -> leaf (km_mem s0) r a = 0) ->
  allocated s0 l0 O0 r va n f c s l O -> unmapped s l O r va n s' l' O' ->
  settled s0 l0 O0 s' l' O'.
Proof.
  intros Hz HA U. eapply allocated_unmapped; [exact HI0|exact Hr0|..|exact HA|exact U].
  - intros b Hb. rewrite (leaf_vpn s0 l0 O0 r b (vpn b * PG_SIZE) HI0 Hr0).
    + apply Hz. unfold page_aligned, PG_SIZE in *. zlia.
    + rewrite (vpn_user (vpn b * PG_SIZE)); [by rewrite Z.div_mul|].
      unfold page_aligned, PG_SIZE in *. zlia.
  - intros p v Hv Hp. apply (dat_leaf s0 l0 O0 r p v HI0 Hr0 Hp).
    + unfold page_aligned, PG_SIZE, MAXVA in *. zlia.
    + apply Hz. unfold page_aligned, PG_SIZE in *. zlia.
Qed.
End undo.

Section alloc.
Context (s0 : kmem) (l0 : list Z) (O0 : gmap Z role) (r va f : Z).
Context (HI0 : vm_inv s0 l0 O0) (Hr0 : O0 !! r = Some (Tab r 0 0)).
Context (Hva : 0 <= va) (Hal : page_aligned va) (Hf : leaf_flags f).

(** The rollback on both error paths of [uvmalloc]. *)
Lemma uvmalloc_undo n s l O :
  0 <= n -> va + n * PG_SIZE <= MAXVA ->
  (forall a, va <= a < va + n * PG_SIZE -> leaf (km_mem s0) r a = 0) ->
  allocated s0 l0 O0 r va n (fun _ => f) (fun _ _ => 0) s l O ->
  wp (uvmdealloc kend r (va + n * PG_SIZE) va) s (fun _ s' =>
    exists l' O', settled s0 l0 O0 s' l' O').
Proof.
  intros Hn Hmax Hz HA. set (a := va + n * PG_SIZE).
  assert (Hup : PG_ROUND_UP a = a /\ PG_ROUND_UP va = va).
  { unfold a, page_aligned, PG_SIZE, MAXVA in *. rewrite !PG_ROUND_UP_div by (unfold PG_SIZE; lia).
    unfold PG_SIZE. zlia. }
  destruct Hup as [Ea Eva].
  eapply wp_mono; [apply (uvmdealloc_ok s l O); [apply HA|by eapply al_sub| |done|]|].
  - unfold a, PG_SIZE. lia.
  - rewrite Ea, Eva. intros b Hb.
    by apply (allocated_mapped s0 l0 O0 r va n (fun _ => f) (fun _ _ => 0) Hva Hal Hmax s l O).
  - rewrite Ea, Eva. intros _ s' (_ & l' & O' & U). exists l', O'.
    replace ((a - va) / PG_SIZE) with n in U by (unfold a; unfold PG_SIZE; zlia).
    by eapply (allocated_undo s0 l0 O0 r va n (fun _ => f) (fun _ _ => 0)).
Qed.

Lemma uvmalloc_body_step newsz n s l O :
  0 <= n -> va + n * PG_SIZE < newsz -> newsz <= MAXVA ->
  (forall a, va <= a < newsz -> leaf (km_mem s0) r a = 0) ->
  allocated s0 l0 O0 r va n (fun _ => f) (fun _ _ => 0) s l O ->
  wp (uvmalloc_body kend r va newsz f (va + n * PG_SIZE)) s (fun res s' =>
    (res = inl (va + (n + 1) * PG_SIZE) /\ exists l' O', allocated s0 l0 O0 r va (n + 1) (fun _ => f) (fun _ _ => 0) s' l' O' /\
       (length l <= length l' + 4)%nat) \/
    (res = inr 0 /\ (length l <= 3)%nat /\ exists l' O', settled s0 l0 O0 s' l' O')).
Proof.
  intros Hn Hlt Hmax Hz HA. set (a := va + n * PG_SIZE) in *.
  assert (HI : vm_inv s l O) by apply HA. unfold uvmalloc_body.
  destruct (Z.ltb_spec a newsz); [|lia]. apply wp_bind. destruct l as [|d l].
  { eapply wp_ok; [apply (kalloc_empty kend), HI|]. cbn [Z.eqb]. apply wp_bind.
    eapply wp_mono; [apply (uvmalloc_undo n s [] O); [done|unfold a in *; lia| |done]|].
    - intros b Hb. apply Hz. unfold a in *. lia.
    - intros x s' H'. apply wp_ret. right. split_and!; [done|simpl; lia|done]. }
  destruct (kalloc_zeroed s d l O HI) as (s1 & Hs1 & HI2 & Hout & Hin).
  eapply wp_ok; [done|]. set (s2 := set_mem _ s1) in *.
  assert (Hdk : kpage d) by (eapply vi_page; [exact HI2|apply lookup_insert_eq]).
  destruct (Z.eqb_spec d 0); [by destruct (kpage_ne_0 d)|].
  apply wp_bind, wp_modify. fold s2. apply wp_bind.
  assert (HrO : O !! r = Some (Tab r 0 0)) by (by eapply al_sub).
  assert (HdO : O !! d = None) by (eapply vi_free; [exact HI|left]).
  eapply wp_mono.
  { apply (mappages_page s2 l (<[d:=Other]> O) r a d f); try done.
    - rewrite lookup_insert_ne; [done|congruence].
    - apply lookup_insert_eq.
    - rewrite (take_leaf s s2 d l O r a HI HI2 Hout HrO), (al_out _ _ _ _ _ _ _ _ _ _ _ HA) by
        (done || rewrite vpn_user by (unfold a, PG_SIZE in *; lia);
         unfold a, page_aligned, PG_SIZE in *; zlia).
      apply Hz. unfold a, PG_SIZE in *. lia.
    - unfold a, page_aligned, PG_SIZE in *. zlia.
    - unfold a, PG_SIZE in *. lia.
    - unfold a, PG_SIZE, MAXVA in *. lia. }
  intros ret s3 [(-> & l3 & O3 & HM & Hlen)|(-> & Hlen & O3 & HG)]; cbn [negb Z.eqb].
  - apply wp_ret. left. split.
    + f_equal. unfold a. rewrite u64_small; [lia|]. unfold a, PG_SIZE, MAXVA in *. lia.
    + exists l3, O3. split; [|simpl; lia].
      eapply allocated_snoc; [exact Hr0|done|done| |exact HA|exact HI2|done|done|exact HM].
      unfold a in *. lia.
  - apply wp_bind.
    destruct (kfree_other s3 [] O3 d) as (s4 & Hs4 & Hk4 & Hm4); [apply HG|apply HG, lookup_insert_eq|].
    eapply wp_ok; [done|]. apply wp_bind.
    pose proof (settled_retry s d l O s2 s3 [] O3 s4 HI HI2 Hout HG Hk4 Hm4) as HS.
    eapply wp_mono; [apply (uvmalloc_undo n s4 [d] (delete d O3)); [done|unfold a in *; lia| |]|].
    + intros b Hb. apply Hz. unfold a in *. lia.
    + by eapply allocated_settled.
    + intros x s' H'. apply wp_ret. right. split_and!; [done|simpl; lia|done].
Qed.

Lemma uvmalloc_loop newsz k n s l O fuel :
  0 <= n -> newsz <= MAXVA -> (forall a, va <= a < newsz -> leaf (km_mem s0) r a = 0) ->
  newsz <= va + (n + Z.of_nat k) * PG_SIZE ->
  (k <> 0%nat -> va + (n + Z.of_nat k - 1) * PG_SIZE < newsz) ->
  (k < fuel)%nat ->
  Z.of_nat (length l0) <= Z.of_nat (length l) + 4 * n ->
  allocated s0 l0 O0 r va n (fun _ => f) (fun _ _ => 0) s l O ->
  wp (loop fuel (uvmalloc_body kend r va newsz f) (va + n * PG_SIZE)) s (fun ret s' =>
    exists l' O',
      (ret = newsz /\ allocated s0 l0 O0 r va (n + Z.of_nat k) (fun _ => f) (fun _ _ => 0) s' l' O') \/
      (ret = 0 /\ Z.of_nat (length l0) < 4 * (n + Z.of_nat k) /\ settled s0 l0 O0 s' l' O')).
Proof.
  intros Hn Hmax Hz. revert n s l O fuel Hn.
  induction k as [|k IH]; intros n s l O fuel Hn Hhi Hlo Hfuel Hlen HA; (destruct fuel as [|fuel]; [lia|]).
  - eapply wp_ok; [apply loop_exit|].
    + unfold uvmalloc_body. destruct (Z.ltb_spec (va + n * PG_SIZE) newsz); [lia|done].
    + exists l, O. left. rewrite Z.add_0_r. done.
  - cbn [loop]. apply wp_bind.
    eapply wp_mono; [apply (uvmalloc_body_step newsz n s l O); try done|].
    { specialize (Hlo ltac:(done)). unfold PG_SIZE in *. lia. }
    intros res s1 [(-> & l1 & O1 & HA1 & Hlen1)|(-> & Hlen1 & l1 & O1 & HS)].
    + replace (n + Z.of_nat (S k)) with (n + 1 + Z.of_nat k) in * by lia.
      apply (IH (n + 1) s1 l1 O1); [lia|done| |lia|lia|done].
      intros _. apply Hlo. done.
    + apply wp_ret. exists l1, O1. right. split_and!; [done|lia|done].
Qed.
End alloc.

Lemma uvmalloc_ok s l O r oldsz newsz f :
  vm_inv s l O -> O !! r = Some (Tab r 0 0) -> leaf_flags f ->
  0 <= oldsz <= newsz -> newsz <= MAXVA ->
  (forall a, PG_ROUND_UP oldsz <= a < newsz -> leaf (km_mem s) r a = 0) ->
  let n := (PG_ROUND_UP newsz - PG_ROUND_UP oldsz) / PG_SIZE in
  wp (uvmalloc kend r oldsz newsz f) s (fun ret s' => exists l' O',
    (ret = newsz /\ allocated s l O r (PG_ROUND_UP oldsz) n (fun _ => f) (fun _ _ => 0) s' l' O') \/
    (ret = 0 /\ Z.of_nat (length l) < 4 * n /\ settled s l O s' l' O')).
Proof.
  intros HI Hr Hf Hle Hmax Hz n. unfold uvmalloc.
  destruct (Z.ltb_spec newsz oldsz); [lia|].
  assert (Hup : forall x, 0 <= x <= MAXVA -> x <= PG_ROUND_UP x < x + PG_SIZE /\ page_aligned (PG_ROUND_UP x)).
  { intros x Hx. rewrite PG_ROUND_UP_div by (unfold PG_SIZE, MAXVA in *; lia).
    unfold page_aligned, PG_SIZE. zlia. }
  assert (Hn : 0 <= n /\ PG_ROUND_UP oldsz + n * PG_SIZE = PG_ROUND_UP newsz).
  { unfold n. rewrite !PG_ROUND_UP_div by (unfold PG_SIZE, MAXVA in *; lia). unfold PG_SIZE. zlia. }
  pose proof (Hup oldsz ltac:(lia)) as [Ho Hoa]. pose proof (Hup newsz ltac:(lia)) as [Hw _].
  pose proof (uvmalloc_loop s l O r (PG_ROUND_UP oldsz) f HI Hr ltac:(lia) Hoa Hf newsz
    (Z.to_nat n) 0 s l O (Z.to_nat ((newsz - PG_ROUND_UP oldsz) / PG_SIZE + 2))) as L.
  rewrite Z.mul_0_l, !Z.add_0_r, Z.add_0_l, Z2Nat.id in L by lia. clearbody n. apply L; try done; try lia.
  - unfold page_aligned, PG_SIZE in *. zlia.
  - by apply allocated_refl.
Qed.

(** C16: [uvmalloc] grows an address space from [oldsz] to [newsz]: either it
    returns [newsz] and every new page is mapped, with the given flags, to a
    fresh zeroed frame while every other mapping of every address space and
    all other memory is as before; or it returns 0, which only happens when
    fewer than four free frames per requested page are left, and then every
    mapping is as before and every free frame is still free or has become a
    page table. *)
Theorem uvmalloc_grows s l O r oldsz newsz f :
  vm_inv s l O -> O !! r = Some (Tab r 0 0) -> leaf_flags f ->
  0 <= oldsz <= newsz -> newsz <= MAXVA ->
  (forall a, PG_ROUND_UP oldsz <= a < newsz -> leaf (km_mem s) r a = 0) ->
  let n := (PG_ROUND_UP newsz - PG_ROUND_UP oldsz) / PG_SIZE in
  wp (uvmalloc kend r oldsz newsz f) s (fun ret s' => exists l' O',
    (ret = newsz /\ allocated s l O r (PG_ROUND_UP oldsz) n (fun _ => f) (fun _ _ => 0) s' l' O') \/
    (ret = 0 /\ Z.of_nat (length l) < 4 * n /\ settled s l O s' l' O')).
Proof. apply uvmalloc_ok. Qed.
End ops.
