(* ===== verification/VmExample.v ===== *)
(** Concrete address spaces: a root table with eight free pages, and a space
    whose first page is mapped for the user.  The witnesses of the theorems
    on [kernel/vm.c] are evaluated on them. *)

From stdpp Require Import gmap.
From S2P Require Import Prelude CString Layout Kalloc Vm VmTables VmOps.

Definition kernel_ex : KernelEnd := {| kend := kend_ex; kend_ok := ltac:(by vm_compute) |}.
#[local] Existing Instance kernel_ex.

Lemma page_ex_kpage i : 0 <= i < 1024 -> kpage (page_ex i).
Proof.
  intros Hi. unfold kpage, page_aligned. simpl.
  unfold kend_ex, page_ex, KERN_BASE, PHY_STOP, PHY_BASE, PG_SIZE. zlia.
Qed.

Lemma page_ex_inj i j : page_ex i = page_ex j -> i = j.
Proof. unfold page_ex, PG_SIZE. lia. Qed.

(** * A root table and eight free pages *)

Fixpoint chain (m : mem) (i : Z) (n : nat) : mem :=
  match n with
  | O => m
  | S n' => chain (store64 m (page_ex i) (page_ex (i + 1))) (i + 1) n'
  end.

Definition root_ex : Z := page_ex 8.
Definition pool_ex : list Z := page_ex <$> range 0 8.
Definition space_ex : kmem := Kmem (chain (fun _ => 0) 0 7) (page_ex 0).
Definition roles_ex : gmap Z role := {[ root_ex := Tab root_ex 0 0 ]}.

Lemma chain_out m i n x : 0 <= i -> page_ex (i + Z.of_nat n) <= x -> chain m i n x = m x.
Proof.
  revert m i. induction n as [|n IH]; intros m i Hi Hx; simpl; [done|].
  rewrite IH by (lia || by replace (i + 1 + Z.of_nat n) with (i + Z.of_nat (S n)) by lia).
  apply store64_out. unfold page_ex, PG_SIZE in *. lia.
Qed.

Lemma chain_ok m i n : bytes_ok m -> bytes_ok (chain m i n).
Proof. revert m i. induction n as [|n IH]; intros m i H; simpl; [done|]. by apply IH, store64_ok. Qed.

Lemma space_ex_ent i : 0 <= i < 512 -> ent (km_mem space_ex) root_ex i = 0.
Proof.
  intros Hi. apply load64_zero. intros x Hx. simpl.
  change (chain (fun _ => 0) 0 7 x = 0). rewrite chain_out; [done|lia|].
  unfold root_ex, page_ex, PG_SIZE in *. lia.
Qed.

Lemma roles_ex_Some p ρ : roles_ex !! p = Some ρ -> p = root_ex /\ ρ = Tab root_ex 0 0.
Proof. unfold roles_ex. rewrite lookup_singleton_Some. naive_solver. Qed.

Lemma space_ex_inv : vm_inv space_ex pool_ex roles_ex.
Proof.
  split.
  - split.
    + by apply chain_ok.
    + by vm_compute.
    + repeat constructor; by vm_compute.
    + apply NoDup_fmap_2_strong; [|apply NoDup_range]. intros i j _ _. apply page_ex_inj.
  - apply Forall_fmap, Forall_forall. intros i Hi%elem_of_range. apply page_ex_kpage. lia.
  - intros p (i & -> & Hi%elem_of_range)%list_elem_of_fmap. apply lookup_singleton_ne.
    unfold root_ex. intros E%page_ex_inj. lia.
  - intros p ρ [-> _]%roles_ex_Some. by apply page_ex_kpage.
  - intros p r b [-> E]%roles_ex_Some. by simplify_eq.
  - intros p r k b i [-> E]%roles_ex_Some _ Hi. left. by apply space_ex_ent.
  - intros p r b i [-> E]%roles_ex_Some. done.
  - intros p r k b [_ E]%roles_ex_Some. done.
  - intros p r v [_ E]%roles_ex_Some. done.
Qed.

Lemma uvmalloc_grows_witness :
  wp (uvmalloc kend root_ex 0 4097 USER_4K_PAGE_RW) space_ex (fun ret s' => exists l' O',
    ret = 4097 /\ allocated space_ex pool_ex roles_ex root_ex 0 2 (fun _ => USER_4K_PAGE_RW)
      (fun _ _ => 0) s' l' O').
Proof.
  eapply wp_mono; [apply (uvmalloc_grows space_ex pool_ex roles_ex root_ex 0 4097 USER_4K_PAGE_RW)|].
  - apply space_ex_inv.
  - apply lookup_singleton_eq.
  - by vm_compute.
  - lia.
  - by vm_compute.
  - intros a _. destruct (decide (leaf (km_mem space_ex) root_ex a = 0)) as [|Hne]; [done|].
    destruct (leaf_page space_ex pool_ex roles_ex root_ex a space_ex_inv) as (p & d & Hp & _);
      [apply lookup_singleton_eq|done|].
    apply roles_ex_Some in Hp as [_ Hp]. done.
  - assert (E0 : PG_ROUND_UP 0 = 0) by (by vm_compute).
    assert (E1 : PG_ROUND_UP 4097 = 8192) by (by vm_compute). rewrite E0, E1.
    intros ret s' (l' & O' & [[-> HA]|(_ & Hlt & _)]); [exists l', O'; split; [reflexivity|exact HA]|].
    exfalso. unfold pool_ex in Hlt. rewrite length_fmap, length_range in Hlt. by vm_compute in Hlt.
Defined.

(** * A space with its first page mapped *)

Definition roles_base : gmap Z role :=
  <[page_ex 13 := Other]> (<[page_ex 12 := Other]> (<[page_ex 11 := Other]>
    (<[page_ex 10 := Other]> (<[page_ex 9 := Other]> roles_ex)))).

Definition mapped_mem (m : mem) : mem :=
  store64 (store64 (store64 (store64 m (page_ex 8) (pte_tab (page_ex 9)))
    (page_ex 9) (pte_tab (page_ex 10))) (page_ex 10) (pte_tab (page_ex 11)))
    (page_ex 11) (Z.lor (Z.land (page_ex 12) PG_ADDR_MASK) USER_4K_PAGE_RW).

Definition mapped_ex : kmem := Kmem (mapped_mem (fun _ => 0)) 0.

Definition mapped_roles : gmap Z role :=
  <[page_ex 12 := Dat root_ex 0]> (<[page_ex 11 := Tab root_ex 3 0]>
    (<[page_ex 10 := Tab root_ex 2 0]> (<[page_ex 9 := Tab root_ex 1 0]> roles_base))).

Lemma roles_base_Some p ρ :
  roles_base !! p = Some ρ -> (exists i, 8 <= i <= 13 /\ p = page_ex i) /\
    ((p = root_ex /\ ρ = Tab root_ex 0 0) \/ ρ = Other).
Proof.
  unfold roles_base. rewrite !lookup_insert_Some. intros H.
  repeat (destruct H as [[<- <-]|[_ H]]; [split; [eexists; split; [|done]; lia|by right]|]).
  apply roles_ex_Some in H as [-> ->]. split; [|by left]. exists 8. split; [lia|done].
Qed.

Lemma base_inv : vm_inv (Kmem (fun _ => 0) 0) [] roles_base.
Proof.
  split.
  - split; [done|done|constructor|constructor].
  - constructor.
  - by intros p ?%elem_of_nil.
  - intros p ρ [(i & Hi & ->) _]%roles_base_Some. apply page_ex_kpage. lia.
  - intros p r b [_ [[-> E]|E]]%roles_base_Some; by simplify_eq.
  - intros p r k b i _ _ _. left. by apply load64_zero.
  - intros p r b i _ _. left. by apply load64_zero.
  - intros p r k b [_ [[_ E]|E]]%roles_base_Some; done.
  - intros p r v [_ [[_ E]|E]]%roles_base_Some; done.
Qed.

Lemma link_ex m O i k :
  vm_inv (Kmem m 0) [] O -> (forall x, page_ex i <= x -> m x = 0) -> 0 <= i -> (k < 3)%nat ->
  O !! page_ex i = Some (Tab root_ex k 0) -> O !! page_ex (i + 1) = Some Other ->
  let m' := store64 m (page_ex i) (pte_tab (page_ex (i + 1))) in
  vm_inv (Kmem m' 0) [] (<[page_ex (i + 1) := Tab root_ex (S k) 0]> O) /\
  (forall x, page_ex (i + 1) <= x -> m' x = 0).
Proof.
  intros HI Hm Hi Hk Hp Hc m'.
  assert (Hge : page_ex i + PG_SIZE <= page_ex (i + 1)) by (unfold page_ex; lia).
  unfold PG_SIZE in Hge. split.
  - pose proof (vm_link_tab (Kmem m 0) [] O (page_ex i) root_ex k 0 0 (page_ex (i + 1))) as L.
    replace (page_ex i + 8 * 0) with (page_ex i) in L by lia. apply L; try done.
    + apply load64_zero. intros x Hx. apply Hm. lia.
    + intros j Hj. apply load64_zero. intros x Hx. apply Hm. lia.
  - intros x Hx. unfold m'. rewrite store64_out by lia. apply Hm. lia.
Qed.

Lemma mapped_ex_inv : vm_inv mapped_ex [] mapped_roles.
Proof.
  pose proof base_inv as H0.
  destruct (link_ex _ _ 8 0 H0) as [H1 Z1]; [done|lia|lia|by vm_compute|by vm_compute|].
  destruct (link_ex _ _ 9 1 H1) as [H2 Z2]; [done|lia|lia|by vm_compute|by vm_compute|].
  destruct (link_ex _ _ 10 2 H2) as [H3 Z3]; [done|lia|lia|by vm_compute|by vm_compute|].
  pose proof (vm_set_leaf _ _ _ (page_ex 11) root_ex 0 0
    (Z.lor (Z.land (page_ex 12) PG_ADDR_MASK) USER_4K_PAGE_RW) (page_ex 12) Other
    (Dat root_ex 0) H3) as L.
  replace (page_ex 11 + 8 * 0) with (page_ex 11) in L by lia. apply L.
  - by vm_compute.
  - lia.
  - by vm_compute.
  - left. split_and!; [done|by vm_compute|done|by vm_compute].
Qed.

Lemma mapped_root : mapped_roles !! root_ex = Some (Tab root_ex 0 0).
Proof. by vm_compute. Qed.

Lemma mapped_roles_page p ρ : mapped_roles !! p = Some ρ -> page_ex 8 <= p.
Proof.
  unfold mapped_roles. rewrite !lookup_insert_Some. intros H.
  repeat (destruct H as [[<- _]|[_ H]]; [unfold page_ex, PG_SIZE; lia|]).
  apply roles_base_Some in H as [(i & Hi & ->) _]. unfold page_ex, PG_SIZE. lia.
Qed.
