(* ===== verification/VmCopy.v ===== *)
(** Copies between kernel and user memory: [walkaddr], [copyout], [copyin]
    and [copyinstr] of [kernel/vm.c], against a view of user memory as a
    partial function [uaddr] from user addresses to bytes of physical
    memory. *)

From stdpp Require Import gmap.
From S2P Require Import Prelude CString Layout Kalloc Vm VmTables VmOps VmExample.

(** * User addresses *)

(** The frame of a page the user may access. *)
Definition upage (m : mem) (r va : Z) : option Z :=
  if MAXVA <=? va then None
  else
    let e := leaf m r va in
    if negb (Z.land e MM_TYPE_MASK =? MM_TYPE_PAGE) then None
    else if Z.land e AP_USER =? 0 then None
    else Some (P2V (Z.land e PG_ADDR_MASK)).

(** Where the byte at user address [va] is kept. *)
Definition uaddr (m : mem) (r va : Z) : option Z :=
  p ← upage m r va; Some (p + va mod PG_SIZE).

Section copy.
Context `{KE : KernelEnd}.

Lemma leaf_slot s l O r va :
  vm_inv s l O -> O !! r = Some (Tab r 0 0) -> slot (km_mem s) r va <> 0 ->
  load64 (km_mem s) (slot (km_mem s) r va) = leaf (km_mem s) r va.
Proof.
  intros HI Hr Hne. unfold slot, leaf in *. by destruct (tab_path (km_mem s) r va 3).
Qed.

Lemma leaf_slot_0 s l O r va :
  vm_inv s l O -> O !! r = Some (Tab r 0 0) -> slot (km_mem s) r va = 0 ->
  leaf (km_mem s) r va = 0.
Proof.
  intros HI Hr E. destruct (decide (leaf (km_mem s) r va = 0)) as [|Hne]; [done|].
  by destruct (leaf_valid s l O r va HI Hr Hne) as (? & _).
Qed.

Lemma walkaddr_upage s l O r va :
  vm_inv s l O -> O !! r = Some (Tab r 0 0) ->
  walkaddr r va s = Ok (default 0 (upage (km_mem s) r va)) s.
Proof.
  intros HI Hr. unfold walkaddr, upage. destruct (MAXVA <=? va); [done|].
  erewrite bind_ok by apply walk_ro.
  destruct (Z.eqb_spec (slot (km_mem s) r va) 0) as [E|E].
  - by rewrite (leaf_slot_0 s l O r va HI Hr E).
  - unfold mbind, M_bind, gets. rewrite (leaf_slot s l O r va HI Hr E).
    destruct (negb _); [done|]. by destruct (_ =? 0).
Qed.

Lemma upage_dat s l O r va p :
  vm_inv s l O -> O !! r = Some (Tab r 0 0) -> 0 <= va -> upage (km_mem s) r va = Some p ->
  va < MAXVA /\ O !! p = Some (Dat r (va / PG_SIZE)) /\ kpage p.
Proof.
  intros HI Hr H0. unfold upage. destruct (Z.leb_spec MAXVA va); [done|].
  destruct (negb _) eqn:E1; [done|]. destruct (_ =? 0) eqn:E2; [done|]. intros [= <-].
  assert (Hne : leaf (km_mem s) r va <> 0).
  { intros E. rewrite E in E2. by vm_compute in E2. }
  destruct (leaf_page s l O r va HI Hr Hne) as (q & d & _ & Hd & _ & Hl & _).
  assert (Hdk : kpage d) by (by eapply vi_page).
  rewrite (pte_leaf_addr _ d Hdk Hl). rewrite vpn_user in Hd by lia. done.
Qed.

Lemma upage_same_page s l O r va va' :
  vm_inv s l O -> O !! r = Some (Tab r 0 0) -> va / PG_SIZE = va' / PG_SIZE ->
  upage (km_mem s) r va = upage (km_mem s) r va'.
Proof.
  intros HI Hr E. unfold upage. rewrite (leaf_vpn s l O r va va' HI Hr) by (by rewrite !vpn_div, E).
  assert (MAXVA <= va <-> MAXVA <= va') by (unfold MAXVA, PG_SIZE in *; zlia).
  destruct (Z.leb_spec MAXVA va), (Z.leb_spec MAXVA va'); done || lia.
Qed.

Lemma uaddr_page s l O r va p i :
  vm_inv s l O -> O !! r = Some (Tab r 0 0) -> upage (km_mem s) r va = Some p ->
  0 <= i < PG_SIZE - va mod PG_SIZE -> uaddr (km_mem s) r (va + i) = Some (p + va mod PG_SIZE + i).
Proof.
  intros HI Hr Hp Hi. unfold uaddr.
  rewrite (upage_same_page s l O r (va + i) va HI Hr), Hp by (unfold PG_SIZE in *; zlia).
  simpl. f_equal. unfold PG_SIZE in *. zlia.
Qed.

Lemma uaddr_dat s l O r va a :
  vm_inv s l O -> O !! r = Some (Tab r 0 0) -> 0 <= va -> uaddr (km_mem s) r va = Some a ->
  va < MAXVA /\ exists d, O !! d = Some (Dat r (va / PG_SIZE)) /\ kpage d /\ a = d + va mod PG_SIZE /\
    in_page d a.
Proof.
  intros HI Hr H0 (d & Hd & [= <-])%bind_Some.
  destruct (upage_dat s l O r va d HI Hr H0 Hd) as (Hm & HO & Hk).
  split; [done|]. exists d. split_and!; try done. unfold in_page.
  pose proof (Z.mod_pos_bound va PG_SIZE eq_refl). lia.
Qed.

(** Distinct user addresses are distinct bytes. *)
Lemma uaddr_inj s l O r va va' a :
  vm_inv s l O -> O !! r = Some (Tab r 0 0) -> 0 <= va -> 0 <= va' ->
  uaddr (km_mem s) r va = Some a -> uaddr (km_mem s) r va' = Some a -> va = va'.
Proof.
  intros HI Hr H0 H0' Ha Ha'.
  destruct (uaddr_dat s l O r va a HI Hr H0 Ha) as (_ & d & Hd & Hk & E & Hin).
  destruct (uaddr_dat s l O r va' a HI Hr H0' Ha') as (_ & d' & Hd' & Hk' & E' & Hin').
  assert (d = d') as <- by (eapply in_page_disjoint; [apply Hk|apply Hk'|done|done]).
  assert (va / PG_SIZE = va' / PG_SIZE) by congruence. unfold PG_SIZE in *. zlia.
Qed.

(** * Writes outside the page tables *)

Lemma vm_inv_write s s' l O :
  vm_inv s l O -> bytes_ok (km_mem s') -> km_freelist s' = km_freelist s ->
  (forall p r k b x, O !! p = Some (Tab r k b) -> in_page p x -> km_mem s' x = km_mem s x) ->
  (forall p x, p ∈ l -> in_page p x -> km_mem s' x = km_mem s x) ->
  vm_inv s' l O.
Proof.
  intros HI Hb Hf Ht Hp. pose proof HI as [[_ Hr Ho Hn] H1 H2 H3 H4 H5 H6 H7 H8].
  assert (He : forall p r k b i, O !! p = Some (Tab r k b) -> 0 <= i < 512 ->
            ent (km_mem s') p i = ent (km_mem s) p i).
  { intros p r k b i HO Hi. apply load64_ext. intros x Hx. eapply Ht; [done|]. by eapply ent_in_page. }
  split; [|done..| | | |].
  - split; [done|rewrite Hf|done..]. eapply freelist_rep_ext; [|done].
    intros p x Hpl Hx. symmetry. apply (Hp p); [done|]. unfold in_page, PG_SIZE. lia.
  - intros p r k b i HO Hk Hi. rewrite (He p r k b) by done. eauto.
  - intros p r b i HO Hi. rewrite (He p r 3%nat b) by done. eauto.
  - intros c r k b HO. destruct (H7 c r k b HO) as (Hk & p & HpO & Ep). split; [done|].
    exists p. split; [done|]. rewrite (He p r k (b / 512)); [done|done|by apply Z.mod_pos_bound].
  - intros d r v HO. destruct (H8 d r v HO) as (p & HpO & Ep). exists p. split; [done|].
    rewrite (He p r 3%nat (v / 512)); [done|done|by apply Z.mod_pos_bound].
Qed.

Lemma uaddr_write s s' l O r va :
  vm_inv s l O -> vm_inv s' l O -> O !! r = Some (Tab r 0 0) ->
  (forall p r k b x, O !! p = Some (Tab r k b) -> in_page p x -> km_mem s' x = km_mem s x) ->
  uaddr (km_mem s') r va = uaddr (km_mem s) r va.
Proof.
  intros HI HI' Hr Ht. unfold uaddr, upage.
  by rewrite (leaf_frame s l O s' l O r va HI HI' Hr) by done.
Qed.

(** * [copyout] *)

(** [k] bytes from kernel address [src] stored at user address [dst]. *)
Record copied_out (s : kmem) (r dst src k : Z) (s' : kmem) : Prop := {
  co_in : forall i, 0 <= i < k -> exists a,
    uaddr (km_mem s) r (dst + i) = Some a /\ km_mem s' a = km_mem s (src + i);
  co_out : forall x, (forall i, 0 <= i < k -> uaddr (km_mem s) r (dst + i) <> Some x) ->
    km_mem s' x = km_mem s x;
  co_list : km_freelist s' = km_freelist s;
}.

Lemma copied_out_refl s r dst src : copied_out s r dst src 0 s.
Proof. split; [intros; lia|done|done]. Qed.

(** The bytes in no data page of [r]. *)
Definition outside (O : gmap Z role) (r x : Z) : Prop :=
  forall d v, O !! d = Some (Dat r v) -> ~ in_page d x.

Lemma outside_uaddr s l O r va x :
  vm_inv s l O -> O !! r = Some (Tab r 0 0) -> 0 <= va -> outside O r x ->
  uaddr (km_mem s) r va <> Some x.
Proof.
  intros HI Hr H0 Hx Ha. destruct (uaddr_dat s l O r va x HI Hr H0 Ha) as (_ & d & Hd & _ & _ & Hin).
  by apply (Hx d (va / PG_SIZE)).
Qed.

Lemma outside_table s l O r r' p k b x :
  vm_inv s l O -> O !! p = Some (Tab r' k b) -> in_page p x -> outside O r x.
Proof. intros HI Hp Hx d v Hd. by eapply (page_not_other s l O p _ d _ x). Qed.

Lemma outside_pool s l O r p x : vm_inv s l O -> p ∈ l -> in_page p x -> outside O r x.
Proof. intros HI Hp Hx d v Hd Hdx. by eapply (page_not_pool s l O d _ p x). Qed.

Lemma copied_out_inv s l O r dst src k s' :
  vm_inv s l O -> O !! r = Some (Tab r 0 0) -> 0 <= dst -> bytes_ok (km_mem s') ->
  copied_out s r dst src k s' ->
  vm_inv s' l O /\ forall va, uaddr (km_mem s') r va = uaddr (km_mem s) r va.
Proof.
  intros HI Hr H0 Hb HC.
  assert (Hout : forall x, outside O r x -> km_mem s' x = km_mem s x).
  { intros x Hx. apply (co_out _ _ _ _ _ _ HC). intros i Hi. eapply outside_uaddr; [done..|lia|done]. }
  assert (HI' : vm_inv s' l O).
  { apply (vm_inv_write s); [done|done|apply HC|..].
    - intros. apply Hout. by eapply outside_table.
    - intros. apply Hout. by eapply outside_pool. }
  split; [done|]. intros va. apply (uaddr_write s s' l O r va); [done..|].
  intros. apply Hout. by eapply outside_table.
Qed.

Lemma copied_out_app s l O r dst src n k s1 s2 :
  vm_inv s l O -> O !! r = Some (Tab r 0 0) -> 0 <= dst -> bytes_ok (km_mem s1) ->
  0 <= n -> 0 <= k -> (forall i, n <= i < n + k -> outside O r (src + i)) ->
  copied_out s r dst src n s1 -> copied_out s1 r (dst + n) (src + n) k s2 ->
  copied_out s r dst src (n + k) s2.
Proof.
  intros HI Hr H0 Hb Hn Hk Hsrc HC [B1 B2 B3].
  destruct (copied_out_inv s l O r dst src n s1 HI Hr H0 Hb HC) as [HI1 Hu].
  destruct HC as [A1 A2 A3]. split; [| |congruence].
  - intros i Hi. destruct (decide (i < n)) as [Hlt|Hge].
    + destruct (A1 i) as (a & Ha & E); [lia|]. exists a. split; [done|]. rewrite B2; [done|].
      intros j Hj. rewrite Hu. intros Ha'.
      assert (dst + i = dst + n + j) by (eapply (uaddr_inj s l O r); [done|done|lia|lia|done|done]). lia.
    + destruct (B1 (i - n)) as (a & Ha & E); [lia|]. rewrite Hu in Ha.
      replace (dst + n + (i - n)) with (dst + i) in Ha by lia. exists a. split; [done|]. rewrite E.
      replace (src + n + (i - n)) with (src + i) by lia. apply A2. intros j Hj.
      eapply outside_uaddr; [done..|lia|]. apply Hsrc. lia.
  - intros x Hx. rewrite B2; [apply A2|].
    + intros i Hi. apply Hx. lia.
    + intros i Hi. rewrite Hu. replace (dst + n + i) with (dst + (n + i)) by lia. apply Hx. lia.
Qed.

(** One page of [copyout]. *)
Lemma copied_out_page s l O r dst src p n :
  vm_inv s l O -> O !! r = Some (Tab r 0 0) -> upage (km_mem s) r dst = Some p ->
  0 <= n <= PG_SIZE - dst mod PG_SIZE ->
  copied_out s r dst src n (set_mem (fun m => memmove m (p + dst mod PG_SIZE) src n) s).
Proof.
  intros HI Hr Hp Hn. pose proof (vi_bytes _ _ _ HI) as Hb.
  assert (Hn32 : u32 n = n).
  { apply u32_small. pose proof (Z.mod_pos_bound dst PG_SIZE eq_refl). unfold PG_SIZE in *. lia. }
  split; [| |done].
  - intros i Hi. exists (p + dst mod PG_SIZE + i).
    split; [apply (uaddr_page s l O); [done..|lia]|]. simpl.
    rewrite memmove_in by (done || lia). f_equal. lia.
  - intros x Hx. simpl. apply memmove_out; [done|]. rewrite Hn32.
    assert (~ (p + dst mod PG_SIZE <= x < p + dst mod PG_SIZE + n)); [|lia]. intros Hin.
    apply (Hx (x - (p + dst mod PG_SIZE))); [lia|].
    rewrite (uaddr_page s l O r dst p) by (done || lia). f_equal. lia.
Qed.

Lemma round_down_mod va : va - PG_ROUND_DOWN va = va mod PG_SIZE.
Proof. rewrite PG_ROUND_DOWN_div. unfold PG_SIZE. zlia. Qed.

Lemma walkaddr_down s l O r va :
  vm_inv s l O -> O !! r = Some (Tab r 0 0) ->
  walkaddr r (PG_ROUND_DOWN va) s = Ok (default 0 (upage (km_mem s) r va)) s.
Proof.
  intros HI Hr. rewrite (walkaddr_upage s l O) by done. do 2 f_equal.
  apply (upage_same_page s l O); [done..|]. rewrite PG_ROUND_DOWN_div. by rewrite Z.div_mul.
Qed.

(** How far a copy of [len] bytes at user address [va] gets, and what it
    returns. *)
Definition copy_result (m : mem) (r va len ret k : Z) : Prop :=
  (ret = 0 /\ k = len) \/ (ret = -1 /\ 0 <= k < len /\ uaddr m r (va + k) = None).

(** The last page of the user address space is never left upward, so the
    user address does not wrap around. *)
Lemma next_page s l O r va p n :
  vm_inv s l O -> O !! r = Some (Tab r 0 0) -> 0 <= va -> upage (km_mem s) r va = Some p ->
  n = PG_SIZE - va mod PG_SIZE -> u64 (PG_ROUND_DOWN va + PG_SIZE) = va + n.
Proof.
  intros HI Hr H0 Hp ->. destruct (upage_dat s l O r va p HI Hr H0 Hp) as (Hm & _).
  pose proof (round_down_mod va). rewrite u64_small; [lia|]. 
  pose proof (Z.mod_pos_bound va PG_SIZE eq_refl). unfold PG_SIZE, MAXVA in *. lia.
Qed.

Lemma copyout_loop fuel s l O r dst src len :
  vm_inv s l O -> O !! r = Some (Tab r 0 0) -> 0 <= dst -> 0 <= len ->
  (forall i, 0 <= i < len -> outside O r (src + i)) ->
  (dst mod PG_SIZE + len + PG_SIZE - 1) / PG_SIZE < Z.of_nat fuel ->
  wp (loop fuel (copyout_body r) (dst, src, len)) s (fun ret s' => exists k,
    copied_out s r dst src k s' /\ copy_result (km_mem s) r dst len ret k /\ bytes_ok (km_mem s')).
Proof.
  revert s dst src len. induction fuel as [|fuel IH]; intros s dst src len HI Hr H0 Hlen Hsrc Hfuel.
  { exfalso. pose proof (Z.mod_pos_bound dst PG_SIZE eq_refl). unfold PG_SIZE in *. zlia. }
  pose proof (vi_bytes _ _ _ HI) as Hb. pose proof (Z.mod_pos_bound dst PG_SIZE eq_refl) as Hmod.
  cbn [loop]. apply wp_bind. unfold copyout_body. destruct (Z.ltb_spec 0 len).
  2:{ apply wp_ret, wp_ret. exists 0. split_and!; [apply copied_out_refl|left; lia|done]. }
  apply wp_bind. eapply wp_ok; [by apply (walkaddr_down s l O)|].
  destruct (upage (km_mem s) r dst) as [p|] eqn:Hp; cbn [from_option id].
  2:{ apply wp_ret, wp_ret. exists 0. split_and!; [apply copied_out_refl| |done].
      right. split_and!; [done|lia|done|]. rewrite Z.add_0_r. unfold uaddr. by rewrite Hp. }
  destruct (upage_dat s l O r dst p HI Hr H0 Hp) as (Hmx & _ & Hpk).
  destruct (Z.eqb_spec p 0) as [Ep|_]; [by destruct (kpage_ne_0 p)|].
  rewrite round_down_mod. set (n := Z.min (PG_SIZE - dst mod PG_SIZE) len).
  apply wp_bind, wp_modify, wp_ret.
  pose proof (copied_out_page s l O r dst src p n HI Hr Hp ltac:(lia)) as HC.
  set (s1 := set_mem _ s) in *. assert (Hb1 : bytes_ok (km_mem s1)) by (by apply memmove_ok).
  destruct (copied_out_inv s l O r dst src n s1 HI Hr H0 Hb1 HC) as [HI1 Hu].
  destruct (decide (len <= PG_SIZE - dst mod PG_SIZE)) as [Hlast|Hmore].
  - assert (En : n = len) by lia. rewrite En, Z.sub_diag.
    destruct fuel as [|fuel]; [exfalso; unfold PG_SIZE in *; zlia|].
    eapply wp_ok; [by apply loop_exit|]. exists len. rewrite <- En.
    split_and!; [done|by left|done].
  - assert (En : n = PG_SIZE - dst mod PG_SIZE) by lia.
    rewrite (next_page s l O r dst p n HI Hr H0 Hp En).
    eapply wp_mono; [apply (IH s1 (dst + n) (src + n) (len - n)); try done; try lia|].
    + intros i Hi. replace (src + n + i) with (src + (n + i)) by lia. apply Hsrc. lia.
    + rewrite En. unfold PG_SIZE in *. zlia.
    + intros ret s2 (k & HC2 & Hres & Hb2). exists (n + k).
      assert (Hk : 0 <= k <= len - n) by (destruct Hres as [[_ ->]|(_ & ? & _)]; lia).
      split_and!; [|destruct Hres as [[-> ->]|(-> & Hk' & Hnone)]|done].
      * eapply (copied_out_app s l O r dst src n k s1 s2); try done; try lia.
        intros i Hi. apply Hsrc. lia.
      * left. lia.
      * right. split_and!; [done|lia|lia|]. rewrite Hu in Hnone. by rewrite Z.add_assoc.
Qed.

Lemma copyout_ok s l O r dst src len :
  vm_inv s l O -> O !! r = Some (Tab r 0 0) -> 0 <= dst < 2 ^ 64 -> 0 <= len < 2 ^ 64 ->
  (forall i, 0 <= i < len -> outside O r (src + i)) ->
  wp (copyout r dst src len) s (fun ret s' => vm_inv s' l O /\
    (forall va, uaddr (km_mem s') r va = uaddr (km_mem s) r va) /\ exists k,
    copied_out s r dst src k s' /\ copy_result (km_mem s) r dst len ret k).
Proof.
  intros HI Hr Hdst Hlen Hsrc. unfold copyout.
  eapply wp_mono; [apply (copyout_loop _ s l O r dst src len); try done; try lia|].
  - pose proof (Z.mod_pos_bound dst PG_SIZE eq_refl). unfold PG_SIZE in *. zlia.
  - intros ret s' (k & HC & Hres & Hb).
    destruct (copied_out_inv s l O r dst src k s') as [HI' Hu]; [done|done|lia|done|done|].
    split_and!; [done|done|by exists k].
Qed.

(** * [copyin] *)

(** [k] bytes from user address [src] stored at kernel address [dst]. *)
Record copied_in (s : kmem) (r dst src k : Z) (s' : kmem) : Prop := {
  ci_in : forall i, 0 <= i < k -> exists a,
    uaddr (km_mem s) r (src + i) = Some a /\ km_mem s' (dst + i) = km_mem s a;
  ci_out : forall x, ~ (dst <= x < dst + k) -> km_mem s' x = km_mem s x;
  ci_list : km_freelist s' = km_freelist s;
}.

(** The bytes of the kernel's own memory: in no page table, no free page, no
    data page of [r]. *)
Definition kernel_byte (l : list Z) (O : gmap Z role) (r x : Z) : Prop :=
  outside O r x /\ (forall p r' k b, O !! p = Some (Tab r' k b) -> ~ in_page p x) /\
  (forall p, p ∈ l -> ~ in_page p x).

Lemma copied_in_refl s r dst src : copied_in s r dst src 0 s.
Proof. split; [intros; lia|done|done]. Qed.

Lemma copied_in_inv s l O r dst src k s' :
  vm_inv s l O -> O !! r = Some (Tab r 0 0) -> bytes_ok (km_mem s') ->
  (forall i, 0 <= i < k -> kernel_byte l O r (dst + i)) ->
  copied_in s r dst src k s' ->
  vm_inv s' l O /\ (forall va, uaddr (km_mem s') r va = uaddr (km_mem s) r va) /\
  (forall va a, 0 <= va -> uaddr (km_mem s) r va = Some a -> km_mem s' a = km_mem s a).
Proof.
  intros HI Hr Hb Hk HC.
  assert (Hnk : forall x, ~ kernel_byte l O r x -> km_mem s' x = km_mem s x).
  { intros x Hx. apply (ci_out _ _ _ _ _ _ HC). intros Hin. apply Hx.
    replace x with (dst + (x - dst)) by lia. apply Hk. lia. }
  assert (Ht : forall p r' j b x, O !! p = Some (Tab r' j b) -> in_page p x -> km_mem s' x = km_mem s x).
  { intros p r' j b x HO Hx. apply Hnk. intros (_ & H & _). by eapply H. }
  assert (HI' : vm_inv s' l O).
  { apply (vm_inv_write s); [done|done|apply HC|done|].
    intros p x Hp Hx. apply Hnk. intros (_ & _ & H). by eapply H. }
  split_and!; [done| |].
  - intros va. by apply (uaddr_write s s' l O r va).
  - intros va a H0 Ha. apply Hnk. intros (H & _).
    by eapply (outside_uaddr s l O r va a).
Qed.

Lemma copied_in_app s l O r dst src n k s1 s2 :
  vm_inv s l O -> O !! r = Some (Tab r 0 0) -> 0 <= src -> bytes_ok (km_mem s1) ->
  0 <= n -> 0 <= k -> (forall i, 0 <= i < n -> kernel_byte l O r (dst + i)) ->
  copied_in s r dst src n s1 -> copied_in s1 r (dst + n) (src + n) k s2 ->
  copied_in s r dst src (n + k) s2.
Proof.
  intros HI Hr H0 Hb Hn Hk Hdst HC [B1 B2 B3].
  destruct (copied_in_inv s l O r dst src n s1 HI Hr Hb Hdst HC) as (HI1 & Hu & Hd).
  destruct HC as [A1 A2 A3]. split; [| |congruence].
  - intros i Hi. destruct (decide (i < n)) as [Hlt|Hge].
    + destruct (A1 i) as (a & Ha & E); [lia|]. exists a. split; [done|]. rewrite B2 by lia. done.
    + destruct (B1 (i - n)) as (a & Ha & E); [lia|]. rewrite Hu in Ha.
      replace (src + n + (i - n)) with (src + i) in Ha by lia.
      replace (dst + n + (i - n)) with (dst + i) in E by lia.
      exists a. split; [done|]. rewrite E. eapply Hd; [|exact Ha]. lia.
  - intros x Hx. rewrite B2 by lia. apply A2. lia.
Qed.

Lemma copied_in_page s l O r dst src p n :
  vm_inv s l O -> O !! r = Some (Tab r 0 0) -> upage (km_mem s) r src = Some p ->
  0 <= n <= PG_SIZE - src mod PG_SIZE ->
  copied_in s r dst src n (set_mem (fun m => memmove m dst (p + src mod PG_SIZE) n) s).
Proof.
  intros HI Hr Hp Hn. pose proof (vi_bytes _ _ _ HI) as Hb.
  assert (Hn32 : u32 n = n).
  { apply u32_small. pose proof (Z.mod_pos_bound src PG_SIZE eq_refl). unfold PG_SIZE in *. lia. }
  split; [| |done].
  - intros i Hi. exists (p + src mod PG_SIZE + i).
    split; [apply (uaddr_page s l O); [done..|lia]|]. simpl.
    rewrite memmove_in by (done || lia). f_equal. lia.
  - intros x Hx. simpl. apply memmove_out; [done|]. rewrite Hn32. lia.
Qed.

Lemma copyin_loop fuel s l O r dst src len :
  vm_inv s l O -> O !! r = Some (Tab r 0 0) -> 0 <= src -> 0 <= len ->
  (forall i, 0 <= i < len -> kernel_byte l O r (dst + i)) ->
  (src mod PG_SIZE + len + PG_SIZE - 1) / PG_SIZE < Z.of_nat fuel ->
  wp (loop fuel (copyin_body r) (dst, src, len)) s (fun ret s' => exists k,
    copied_in s r dst src k s' /\ copy_result (km_mem s) r src len ret k /\ bytes_ok (km_mem s')).
Proof.
  revert s dst src len. induction fuel as [|fuel IH]; intros s dst src len HI Hr H0 Hlen Hdst Hfuel.
  { exfalso. pose proof (Z.mod_pos_bound src PG_SIZE eq_refl). unfold PG_SIZE in *. zlia. }
  pose proof (vi_bytes _ _ _ HI) as Hb. pose proof (Z.mod_pos_bound src PG_SIZE eq_refl) as Hmod.
  cbn [loop]. apply wp_bind. unfold copyin_body. destruct (Z.ltb_spec 0 len).
  2:{ apply wp_ret, wp_ret. exists 0. split_and!; [apply copied_in_refl|left; lia|done]. }
  apply wp_bind. eapply wp_ok; [by apply (walkaddr_down s l O)|].
  destruct (upage (km_mem s) r src) as [p|] eqn:Hp; cbn [from_option id].
  2:{ apply wp_ret, wp_ret. exists 0. split_and!; [apply copied_in_refl| |done].
      right. split_and!; [done|lia|done|]. rewrite Z.add_0_r. unfold uaddr. by rewrite Hp. }
  destruct (upage_dat s l O r src p HI Hr H0 Hp) as (Hmx & _ & Hpk).
  destruct (Z.eqb_spec p 0) as [Ep|_]; [by destruct (kpage_ne_0 p)|].
  rewrite round_down_mod. set (n := Z.min (PG_SIZE - src mod PG_SIZE) len).
  apply wp_bind, wp_modify, wp_ret.
  pose proof (copied_in_page s l O r dst src p n HI Hr Hp ltac:(lia)) as HC.
  set (s1 := set_mem _ s) in *. assert (Hb1 : bytes_ok (km_mem s1)) by (by apply memmove_ok).
  assert (Hdn : forall i, 0 <= i < n -> kernel_byte l O r (dst + i)) by (intros i Hi; apply Hdst; lia).
  destruct (copied_in_inv s l O r dst src n s1 HI Hr Hb1 Hdn HC) as (HI1 & Hu & _).
  destruct (decide (len <= PG_SIZE - src mod PG_SIZE)) as [Hlast|Hmore].
  - assert (En : n = len) by lia. rewrite En, Z.sub_diag.
    destruct fuel as [|fuel]; [exfalso; unfold PG_SIZE in *; zlia|].
    eapply wp_ok; [by apply loop_exit|]. exists len. rewrite <- En.
    split_and!; [done|by left|done].
  - assert (En : n = PG_SIZE - src mod PG_SIZE) by lia.
    rewrite (next_page s l O r src p n HI Hr H0 Hp En).
    eapply wp_mono; [apply (IH s1 (dst + n) (src + n) (len - n)); try done; try lia|].
    + intros i Hi. replace (dst + n + i) with (dst + (n + i)) by lia. apply Hdst. lia.
    + rewrite En. unfold PG_SIZE in *. zlia.
    + intros ret s2 (k & HC2 & Hres & Hb2). exists (n + k).
      assert (Hk : 0 <= k <= len - n) by (destruct Hres as [[_ ->]|(_ & ? & _)]; lia).
      split_and!; [|destruct Hres as [[-> ->]|(-> & Hk' & Hnone)]|done].
      * eapply (copied_in_app s l O r dst src n k s1 s2); try done; lia.
      * left. lia.
      * right. split_and!; [done|lia|lia|]. rewrite Hu in Hnone. by rewrite Z.add_assoc.
Qed.

Lemma copyin_ok s l O r dst src len :
  vm_inv s l O -> O !! r = Some (Tab r 0 0) -> 0 <= src < 2 ^ 64 -> 0 <= len < 2 ^ 64 ->
  (forall i, 0 <= i < len -> kernel_byte l O r (dst + i)) ->
  wp (copyin r dst src len) s (fun ret s' => vm_inv s' l O /\ exists k,
    copied_in s r dst src k s' /\ copy_result (km_mem s) r src len ret k).
Proof.
  intros HI Hr Hsrc Hlen Hdst. unfold copyin.
  eapply wp_mono; [apply (copyin_loop _ s l O r dst src len); try done; try lia|].
  - pose proof (Z.mod_pos_bound src PG_SIZE eq_refl). unfold PG_SIZE in *. zlia.
  - intros ret s' (k & HC & Hres & Hb). split; [|by exists k].
    eapply (copied_in_inv s l O); [done..| |exact HC]. intros i Hi. apply Hdst.
    destruct Hres as [[_ ->]|(_ & ? & _)]; lia.
Qed.

(** * [copyinstr] *)

(** The inner loop: up to [n] bytes, to the first NUL. *)
Lemma copyinstr_page_ok n s p dst max :
  bytes_ok (km_mem s) -> dst + Z.of_nat n <= p \/ p + Z.of_nat n <= dst ->
  wp (copyinstr_page n p dst max) s (fun res s' => exists k : nat,
    km_freelist s' = km_freelist s /\ bytes_ok (km_mem s') /\
    (forall i, 0 <= i < Z.of_nat k -> km_mem s (p + i) <> 0) /\
    match res with
    | inl (dst', max') => k = n /\ dst' = dst + Z.of_nat n /\ max' = max - Z.of_nat n /\
        forall x, km_mem s' x = moved (km_mem s) dst p (Z.of_nat k) x
    | inr _ => (k < n)%nat /\ km_mem s (p + Z.of_nat k) = 0 /\
        forall x, km_mem s' x = moved (km_mem s) dst p (Z.of_nat k + 1) x
    end).
Proof.
  revert s p dst max. induction n as [|n IH]; intros s p dst max Hb Hd.
  - apply wp_ret. exists 0%nat. split_and!; [done|done|lia|done|lia|lia|].
    intros x. moved_cases x; done || lia.
  - cbn [copyinstr_page]. apply wp_bind, wp_gets. destruct (Z.eqb_spec (km_mem s p) 0) as [E|E].
    + apply wp_bind, wp_modify, wp_ret. exists 0%nat.
      split_and!; [done|by apply store8_ok|lia|lia|by rewrite Z.add_0_r|].
      intros x. simpl. moved_cases x; try (done || lia). all: replace x with dst by lia.
      all: by rewrite Z.sub_diag, Z.add_0_r, E.
    + apply wp_bind, wp_modify. set (s1 := set_mem _ s).
      assert (Hb1 : bytes_ok (km_mem s1)) by (by apply store8_ok).
      assert (Hs1 : forall x, km_mem s1 x = if x =? dst then km_mem s p else km_mem s x).
      { intros x. unfold s1. simpl. unfold store8. destruct (x =? dst); [|done]. by apply store8_same. }
      eapply wp_mono; [apply (IH s1 (p + 1) (dst + 1) (max - 1)); [done|lia]|].
      intros res s' (k & Hf & Hb' & Hnz & Hres). exists (S k).
      assert (Hp : forall i, 0 <= i < Z.of_nat (S n) -> km_mem s1 (p + i) = km_mem s (p + i)).
      { intros i Hi. rewrite Hs1. destruct (Z.eqb_spec (p + i) dst); [lia|done]. }
      assert (Hmv : forall j x, 0 <= j <= Z.of_nat n ->
        moved (km_mem s1) (dst + 1) (p + 1) j x = moved (km_mem s) dst p (j + 1) x).
      { intros j x Hj. unfold moved. rewrite !Hs1. moved_cases x; try (done || lia); f_equal; lia. }
      split_and!; [by rewrite Hf|done| |].
      * intros i Hi. destruct (decide (i = 0)) as [->|]; [by rewrite Z.add_0_r|].
        rewrite <- Hp by (destruct res as [[]|]; lia).
        replace (p + i) with (p + 1 + (i - 1)) by lia. apply Hnz. lia.
      * destruct res as [[dst' max']|[]].
        -- destruct Hres as (-> & -> & -> & Hx). split_and!; [done|lia|lia|].
           intros x. rewrite Hx, Hmv by lia. f_equal. lia.
        -- destruct Hres as (Hk & Hz & Hx). split_and!; [lia| |].
           ++ rewrite <- Hp by lia. by replace (p + Z.of_nat (S k)) with (p + 1 + Z.of_nat k) by lia.
           ++ intros x. rewrite Hx, Hmv by lia. f_equal. lia.
Qed.

(** What [copyinstr] promises: with [k] non-NUL bytes of the user string
    copied, either it stops at the NUL, which is copied too, or the string is
    not terminated within [max] bytes of mapped user memory. *)
Definition copiedstr (s : kmem) (r dst src max ret : Z) (s' : kmem) : Prop :=
  exists k, 0 <= k <= max /\
    (forall i, 0 <= i < k -> exists a, uaddr (km_mem s) r (src + i) = Some a /\ km_mem s a <> 0) /\
    ((ret = 0 /\ k < max /\ copied_in s r dst src (k + 1) s' /\
        exists a, uaddr (km_mem s) r (src + k) = Some a /\ km_mem s a = 0) \/
     (ret = -1 /\ copied_in s r dst src k s' /\
        (k = max \/ uaddr (km_mem s) r (src + k) = None))).

(** The bytes of one page moved by the inner loop. *)
Lemma moved_in_page s l O r dst src p n s' :
  vm_inv s l O -> O !! r = Some (Tab r 0 0) -> upage (km_mem s) r src = Some p ->
  0 <= n <= PG_SIZE - src mod PG_SIZE -> km_freelist s' = km_freelist s ->
  (forall x, km_mem s' x = moved (km_mem s) dst (p + src mod PG_SIZE) n x) ->
  copied_in s r dst src n s'.
Proof.
  intros HI Hr Hp Hn Hf Hx. split; [| |done].
  - intros i Hi. exists (p + src mod PG_SIZE + i).
    split; [apply (uaddr_page s l O); [done..|lia]|]. rewrite Hx.
    moved_cases (dst + i); try lia. f_equal. lia.
  - intros x Hnx. rewrite Hx. moved_cases x; done || lia.
Qed.

(** A user page and kernel bytes do not overlap. *)
Lemma kernel_apart s l O r dst src p n :
  vm_inv s l O -> O !! r = Some (Tab r 0 0) -> 0 <= src -> upage (km_mem s) r src = Some p ->
  0 <= n <= PG_SIZE - src mod PG_SIZE -> (forall i, 0 <= i < n -> kernel_byte l O r (dst + i)) ->
  dst + n <= p + src mod PG_SIZE \/ p + src mod PG_SIZE + n <= dst.
Proof.
  intros HI Hr H0 Hp Hn Hk. set (q := p + src mod PG_SIZE).
  pose proof (Z.mod_pos_bound src PG_SIZE eq_refl).
  destruct (upage_dat s l O r src p HI Hr H0 Hp) as (_ & HO & _).
  assert (Hin : forall x, q <= x < q + n -> in_page p x) by (unfold in_page, q; lia).
  destruct (decide (dst + n <= q \/ q + n <= dst)) as [|Hov]; [done|]. exfalso.
  destruct (decide (dst <= q)).
  - destruct (Hk (q - dst)) as (Ho & _); [lia|]. apply (Ho p _ HO), Hin. lia.
  - destruct (Hk 0) as (Ho & _); [lia|]. apply (Ho p _ HO), Hin. lia.
Qed.

Lemma copiedstr_app s l O r dst src n max ret s1 s2 :
  vm_inv s l O -> O !! r = Some (Tab r 0 0) -> 0 <= src -> bytes_ok (km_mem s1) -> 0 <= n ->
  (forall i, 0 <= i < n -> kernel_byte l O r (dst + i)) ->
  (forall i, 0 <= i < n -> exists a, uaddr (km_mem s) r (src + i) = Some a /\ km_mem s a <> 0) ->
  copied_in s r dst src n s1 -> copiedstr s1 r (dst + n) (src + n) (max - n) ret s2 ->
  copiedstr s r dst src max ret s2.
Proof.
  intros HI Hr H0 Hb Hn Hdst Hnz HC (k & Hk & Hnz2 & Hcase).
  destruct (copied_in_inv s l O r dst src n s1 HI Hr Hb Hdst HC) as (_ & Hu & Hd).
  exists (n + k). split_and!; [lia|lia| |].
  - intros i Hi. destruct (decide (i < n)); [apply Hnz; lia|].
    destruct (Hnz2 (i - n)) as (a & Ha & E); [lia|]. rewrite Hu in Ha.
    replace (src + n + (i - n)) with (src + i) in Ha by lia.
    exists a. split; [done|]. by rewrite <- (Hd (src + i) a ltac:(lia) Ha).
  - destruct Hcase as [(-> & Hlt & HC2 & a & Ha & E)|(-> & HC2 & Hend)].
    + left. rewrite Hu, <- Z.add_assoc in Ha. split_and!; [done|lia| |].
      * replace (n + k + 1) with (n + (k + 1)) by lia. eapply copied_in_app; try done; lia.
      * exists a. split; [done|]. by rewrite <- (Hd (src + (n + k)) a ltac:(lia) Ha).
    + right. split_and!; [done|eapply copied_in_app; try done; lia|].
      rewrite Hu, <- Z.add_assoc in Hend. destruct Hend; [left; lia|by right].
Qed.

Lemma copyinstr_loop fuel s l O r dst src max :
  vm_inv s l O -> O !! r = Some (Tab r 0 0) -> 0 <= src -> 0 <= max ->
  (forall i, 0 <= i < max -> kernel_byte l O r (dst + i)) ->
  (src mod PG_SIZE + max + PG_SIZE - 1) / PG_SIZE < Z.of_nat fuel ->
  wp (loop fuel (copyinstr_body r) (dst, src, max)) s (fun ret s' =>
    copiedstr s r dst src max ret s' /\ bytes_ok (km_mem s')).
Proof.
  revert s dst src max. induction fuel as [|fuel IH]; intros s dst src max HI Hr H0 Hmax Hdst Hfuel.
  { exfalso. pose proof (Z.mod_pos_bound src PG_SIZE eq_refl). unfold PG_SIZE in *. zlia. }
  pose proof (vi_bytes _ _ _ HI) as Hb. pose proof (Z.mod_pos_bound src PG_SIZE eq_refl) as Hmod.
  cbn [loop]. apply wp_bind. unfold copyinstr_body. destruct (Z.ltb_spec 0 max).
  2:{ apply wp_ret, wp_ret. split; [|done]. exists 0. split_and!; [lia|lia|intros; lia|].
      right. split_and!; [done|apply copied_in_refl|left; lia]. }
  apply wp_bind. eapply wp_ok; [by apply (walkaddr_down s l O)|].
  destruct (upage (km_mem s) r src) as [p|] eqn:Hp; cbn [from_option id].
  2:{ apply wp_ret, wp_ret. split; [|done]. exists 0. split_and!; [lia|lia|intros; lia|].
      right. split_and!; [done|apply copied_in_refl|]. right. rewrite Z.add_0_r. unfold uaddr. by rewrite Hp. }
  destruct (upage_dat s l O r src p HI Hr H0 Hp) as (Hmx & _ & Hpk).
  destruct (Z.eqb_spec p 0) as [Ep|_]; [by destruct (kpage_ne_0 p)|].
  rewrite round_down_mod. set (n := Z.min (PG_SIZE - src mod PG_SIZE) max).
  assert (Hdn : forall j, j <= n -> forall i, 0 <= i < j -> kernel_byte l O r (dst + i))
    by (intros j Hj i Hi; apply Hdst; lia).
  apply wp_bind. eapply wp_mono; [apply (copyinstr_page_ok (Z.to_nat n) s _ dst max Hb)|].
  { rewrite Z2Nat.id by lia. eapply kernel_apart; [done..|lia|]. by apply Hdn. }
  intros res s1 (k & Hf & Hb1 & Hnz & Hres).
  assert (Hua : forall i, 0 <= i < n -> uaddr (km_mem s) r (src + i) = Some (p + src mod PG_SIZE + i)).
  { intros i Hi. apply (uaddr_page s l O); [done..|lia]. }
  destruct res as [[dst' max']|[]].
  - destruct Hres as (-> & -> & -> & Hx). rewrite Z2Nat.id in * by lia. apply wp_ret.
    assert (HC : copied_in s r dst src n s1) by (eapply moved_in_page; [done..|lia|done|done]).
    assert (Hnz' : forall i, 0 <= i < n -> exists a,
      uaddr (km_mem s) r (src + i) = Some a /\ km_mem s a <> 0).
    { intros i Hi. eexists. split; [by apply Hua|by apply Hnz]. }
    destruct (copied_in_inv s l O r dst src n s1 HI Hr Hb1 (Hdn n ltac:(lia)) HC) as (HI1 & _).
    destruct (decide (max <= PG_SIZE - src mod PG_SIZE)) as [Hlast|Hmore].
    + assert (En : n = max) by lia. rewrite En, Z.sub_diag.
      destruct fuel as [|fuel]; [exfalso; unfold PG_SIZE in *; zlia|].
      eapply wp_ok; [by apply loop_exit|]. split; [|done]. exists max. rewrite En in *.
      split_and!; [lia|lia|done|]. right. split_and!; [done|done|by left].
    + assert (En : n = PG_SIZE - src mod PG_SIZE) by lia.
      rewrite (next_page s l O r src p n HI Hr H0 Hp En).
      eapply wp_mono; [apply (IH s1 (dst + n) (src + n) (max - n)); try done; try lia|].
      * intros i Hi. replace (dst + n + i) with (dst + (n + i)) by lia. apply Hdst. lia.
      * rewrite En. unfold PG_SIZE in *. zlia.
      * intros ret s2 [HS Hb2]. split; [|done].
        exact (copiedstr_app s l O r dst src n max ret s1 s2 HI Hr H0 Hb1 ltac:(lia)
          (Hdn n ltac:(lia)) Hnz' HC HS).
  - destruct Hres as (Hk & Hz & Hx). apply wp_ret, wp_ret. split; [|done].
    exists (Z.of_nat k). split_and!; [lia|lia| |].
    + intros i Hi. eexists. split; [apply Hua; lia|by apply Hnz].
    + left. split_and!; [done|lia| |].
      * eapply moved_in_page; [done..|lia|done|done].
      * eexists. split; [apply Hua; lia|done].
Qed.

Lemma copyinstr_ok s l O r dst src max :
  vm_inv s l O -> O !! r = Some (Tab r 0 0) -> 0 <= src < 2 ^ 64 -> 0 <= max < 2 ^ 64 ->
  (forall i, 0 <= i < max -> kernel_byte l O r (dst + i)) ->
  wp (copyinstr r dst src max) s (fun ret s' => vm_inv s' l O /\ copiedstr s r dst src max ret s').
Proof.
  intros HI Hr Hsrc Hmax Hdst. unfold copyinstr.
  eapply wp_mono; [apply (copyinstr_loop _ s l O r dst src max); try done; try lia|].
  - pose proof (Z.mod_pos_bound src PG_SIZE eq_refl). unfold PG_SIZE in *. zlia.
  - intros ret s' [HS Hb]. split; [|done]. destruct HS as (k & Hk & _ & [(_ & Hlt & HC & _)|(_ & HC & _)]).
    + eapply (copied_in_inv s l O); [done..| |exact HC]. intros i Hi. apply Hdst. lia.
    + eapply (copied_in_inv s l O); [done..| |exact HC]. intros i Hi. apply Hdst. lia.
Qed.

(** C17: [copyout] of [len] bytes to user address [dst] copies a prefix of the
    source, byte for byte, to the user pages of the address space [r] and
    writes nothing else.  It returns 0 exactly when the prefix is everything,
    and -1 with the next user address not mapped for the user.  The page
    tables and the free list are left intact. *)
Theorem copyout_copies s l O r dst src len :
  vm_inv s l O -> O !! r = Some (Tab r 0 0) -> 0 <= dst < 2 ^ 64 -> 0 <= len < 2 ^ 64 ->
  (forall i, 0 <= i < len -> outside O r (src + i)) ->
  wp (copyout r dst src len) s (fun ret s' => vm_inv s' l O /\ exists k,
    copied_out s r dst src k s' /\ copy_result (km_mem s) r dst len ret k).
Proof.
  intros. eapply wp_mono; [by apply (copyout_ok s l O)|]. intros ret s' (HI' & _ & H'). done.
Qed.

(** What [copyout] stores, [copyin] reads back: when [copyout] returns 0,
    [copyin] of the same user range returns 0 and the kernel buffer holds the
    original bytes; when [copyout] returns -1, so does [copyin]. *)
Theorem copyout_copyin s l O r va src dst len :
  vm_inv s l O -> O !! r = Some (Tab r 0 0) -> 0 <= va < 2 ^ 64 -> 0 <= len < 2 ^ 64 ->
  (forall i, 0 <= i < len -> outside O r (src + i)) ->
  (forall i, 0 <= i < len -> kernel_byte l O r (dst + i)) ->
  wp (a ← copyout r va src len; b ← copyin r dst va len; mret (a, b)) s (fun res s' =>
    (res = (0, 0) /\ forall i, 0 <= i < len -> km_mem s' (dst + i) = km_mem s (src + i)) \/
    res = (-1, -1)).
Proof.
  intros HI Hr Hva Hlen Hsrc Hdst. apply wp_bind.
  eapply wp_mono; [by apply (copyout_ok s l O)|].
  intros a s1 (HI1 & Hu & k & [Cin _ _] & Hres). apply wp_bind.
  eapply wp_mono; [by apply (copyin_ok s1 l O)|].
  intros b s2 (_ & j & [Din _ _] & Hres2). apply wp_ret.
  destruct Hres as [[-> ->]|(-> & Hk & Hnone)], Hres2 as [[-> ->]|(-> & Hj & Hnone2)].
  - left. split; [done|]. intros i Hi. destruct (Din i Hi) as (x & Hx & ->).
    destruct (Cin i Hi) as (x' & Hx' & E). rewrite Hu in Hx. congruence.
  - destruct (Cin j Hj) as (x & Hx & _). rewrite Hu in Hnone2. congruence.
  - destruct (Din k Hk) as (x & Hx & _). rewrite Hu in Hx. congruence.
  - by right.
Qed.

(** [copyinstr] copies the NUL-terminated string at user address [src]
    into the kernel buffer, terminator included, and returns 0; it returns -1
    exactly when there is no NUL within [max] bytes of user memory that the
    user may access.  Nothing but the buffer is written. *)
Theorem copyinstr_copies s l O r dst src max :
  vm_inv s l O -> O !! r = Some (Tab r 0 0) -> 0 <= src < 2 ^ 64 -> 0 <= max < 2 ^ 64 ->
  (forall i, 0 <= i < max -> kernel_byte l O r (dst + i)) ->
  wp (copyinstr r dst src max) s (fun ret s' => vm_inv s' l O /\ copiedstr s r dst src max ret s').
Proof. intros. by apply (copyinstr_ok s l O). Qed.
End copy.

#[local] Existing Instance kernel_ex.

(** A kernel buffer below the pages of the example. *)
Definition buf_ex : Z := KERN_BASE + PHY_BASE + 0x10000.

Lemma buf_ex_kernel i : 0 <= i < 0x10000 -> kernel_byte [] mapped_roles root_ex (buf_ex + i).
Proof.
  intros Hi. assert (H : forall p ρ, mapped_roles !! p = Some ρ -> ~ in_page p (buf_ex + i)).
  { intros p ρ Hp%mapped_roles_page Hin. unfold in_page, buf_ex, page_ex, PG_SIZE in *. lia. }
  split_and!; [by intros d v ?; eapply H|by intros p r k b ?; eapply H|by intros p ?%elem_of_nil].
Qed.

Lemma copyout_copies_witness :
  wp (copyout root_ex 4000 buf_ex 200) mapped_ex (fun ret s' => vm_inv s' [] mapped_roles /\ exists k,
    copied_out mapped_ex root_ex 4000 buf_ex k s' /\
    copy_result (km_mem mapped_ex) root_ex 4000 200 ret k).
Proof.
  apply (copyout_copies mapped_ex [] mapped_roles).
  - apply mapped_ex_inv.
  - apply mapped_root.
  - lia.
  - lia.
  - intros i Hi. apply buf_ex_kernel. lia.
Defined.

Lemma copyout_copyin_witness :
  wp (a ← copyout root_ex 16 buf_ex 100; b ← copyin root_ex (buf_ex + 4096) 16 100; mret (a, b))
    mapped_ex (fun res s' =>
    (res = (0, 0) /\ forall i, 0 <= i < 100 ->
       km_mem s' (buf_ex + 4096 + i) = km_mem mapped_ex (buf_ex + i)) \/
    res = (-1, -1)).
Proof.
  apply (copyout_copyin mapped_ex [] mapped_roles).
  - apply mapped_ex_inv.
  - apply mapped_root.
  - lia.
  - lia.
  - intros i Hi. apply buf_ex_kernel. lia.
  - intros i Hi. rewrite <- Z.add_assoc. apply buf_ex_kernel. lia.
Defined.

Lemma copyinstr_copies_witness :
  wp (copyinstr root_ex buf_ex 32 64) mapped_ex (fun ret s' =>
    vm_inv s' [] mapped_roles /\ copiedstr mapped_ex root_ex buf_ex 32 64 ret s').
Proof.
  apply (copyinstr_copies mapped_ex [] mapped_roles).
  - apply mapped_ex_inv.
  - apply mapped_root.
  - lia.
  - lia.
  - intros i Hi. apply buf_ex_kernel. lia.
Defined.
