(* ===== verification/VmFork.v ===== *)
(** [uvmcopy] of [kernel/vm.c], the copy of an address space made by [fork]. *)

From stdpp Require Import gmap.
From S2P Require Import Prelude CString Layout Kalloc Vm VmTables VmOps VmExample.

Section fork.
Context `{KE : KernelEnd}.

(** * [uvmcopy] *)

Lemma kalloc_copied s d l O src ρ :
  vm_inv s (d :: l) O -> O !! src = Some ρ ->
  exists s1, kalloc s = Ok d s1 /\
    let s2 := set_mem (fun m => memmove m d src PG_SIZE) s1 in
    vm_inv s2 l (<[d := Other]> O) /\
    (forall x, ~ in_page d x -> km_mem s2 x = km_mem s x) /\
    (forall x, in_page d x -> km_mem s2 x = km_mem s (src + (x - d))).
Proof.
  intros HI Hsrc. destruct (kalloc_cons kend s d l (vi_kmem _ _ _ HI)) as (s1 & Hs1 & Hk1 & Hm1).
  exists s1. split; [done|]. intros s2. pose proof (ki_bytes _ _ _ Hk1) as Hb1.
  assert (Hpool := vi_pool _ _ _ HI). apply Forall_cons in Hpool as [Hdk Hpool].
  assert (Hout1 : forall x, ~ in_page d x -> km_mem s1 x = km_mem s x).
  { intros x Hx. rewrite Hm1. unfold in_page in Hx.
    destruct (Z.leb_spec d x), (Z.ltb_spec x (d + PG_SIZE)); simpl; done || lia. }
  assert (Hout : forall x, ~ in_page d x -> km_mem s2 x = km_mem s1 x).
  { intros x Hx. apply memmove_out; [done|]. unfold in_page in Hx. change (u32 PG_SIZE) with PG_SIZE. lia. }
  assert (Hk2 : kmem_inv kend s2 l).
  { apply kmem_inv_set_mem; [done|by apply memmove_ok|]. intros q x Hq Hx.
    apply Hout. intros Hdx. pose proof (ki_nodup _ _ _ (vi_kmem _ _ _ HI)) as [Hnd _]%NoDup_cons.
    rewrite Forall_forall in Hpool. assert (q = d) as ->; [|done].
    eapply in_page_disjoint; [by apply Hpool|apply Hdk|done|done]. }
  split_and!.
  - apply (vm_take s); [done|done|]. intros x Hx. by rewrite Hout, Hout1.
  - intros x Hx. by rewrite Hout, Hout1.
  - intros x Hx. unfold s2. simpl. rewrite memmove_in by done. apply Hout1.
    eapply page_not_pool; [exact HI|exact Hsrc| |left]. unfold in_page in *. lia.
Qed.

Lemma mask_flags e : Z.land e MM_TYPE_MASK = MM_TYPE_PAGE -> leaf_flags (Z.land e MASK_4K_PAGE).
Proof.
  intros He. unfold leaf_flags. split_and; [|rewrite <- !Z.land_assoc; split_and!].
  - replace (Z.land e MASK_4K_PAGE) with (Z.land (Z.land e MASK_4K_PAGE) (Z.ones 64)).
    + rewrite Z.land_ones by lia. by apply Z.mod_pos_bound.
    + rewrite <- Z.land_assoc. by change (Z.land MASK_4K_PAGE (Z.ones 64)) with MASK_4K_PAGE.
  - change (Z.land MASK_4K_PAGE MM_TYPE_MASK) with MM_TYPE_MASK. done.
  - change (Z.land MASK_4K_PAGE PG_ADDR_MASK) with 0. apply Z.land_0_r.
Qed.

Section uvmcopy.
Context (s0 : kmem) (l0 : list Z) (O0 : gmap Z role) (old new size : Z).
Context (HI0 : vm_inv s0 l0 O0).
Context (Hold : O0 !! old = Some (Tab old 0 0)) (Hnew : O0 !! new = Some (Tab new 0 0)).
Context (Hne : old <> new) (Hsz : 0 <= size <= MAXVA).
Context (Hmap : forall a, 0 <= a < size -> leaf (km_mem s0) old a <> 0).
Context (Hfree : forall a, 0 <= a < size -> leaf (km_mem s0) new a = 0).

(** The flags and the contents of virtual page [v] of the parent. *)
Definition copy_flags (v : Z) : Z := Z.land (leaf (km_mem s0) old (v * PG_SIZE)) MASK_4K_PAGE.
Definition copy_bytes (v off : Z) : Z :=
  km_mem s0 (P2V (Z.land (leaf (km_mem s0) old (v * PG_SIZE)) PG_ADDR_MASK) + off).

Abbreviation copied := (allocated s0 l0 O0 new 0).

Lemma copy_flags_ok n v : n * PG_SIZE < size + PG_SIZE -> 0 <= v < n -> leaf_flags (copy_flags v).
Proof.
  intros Hn Hv. apply mask_flags.
  eapply (leaf_valid s0 l0 O0); [done..|]. apply Hmap. unfold PG_SIZE in *. lia.
Qed.

(** The error exit: all copied pages are given back. *)
Lemma uvmcopy_err_ok n s l O :
  0 <= n -> n * PG_SIZE < size ->
  copied n copy_flags copy_bytes s l O ->
  wp (uvmcopy_err kend new (n * PG_SIZE)) s (fun res s' =>
    res = inr (-1) /\ exists l' O', settled s0 l0 O0 s' l' O').
Proof.
  intros Hn Hlt HA. unfold uvmcopy_err. rewrite Z.div_mul by done.
  apply wp_bind. eapply wp_mono; [apply (uvmunmap_ok s l O new 0 n)|].
  - apply HA.
  - by eapply al_sub.
  - done.
  - lia.
  - done.
  - lia.
  - intros a Ha. eapply (allocated_mapped s0 l0 O0 new 0 n copy_flags copy_bytes); try done; [lia|].
    intros v Hv. apply (copy_flags_ok n); [unfold PG_SIZE in *; lia|done].
  - intros [] s' (l' & O' & U). apply wp_ret. split; [done|]. exists l', O'.
    eapply (allocated_undo s0 l0 O0 new 0 n copy_flags copy_bytes); try done; [lia|].
    intros a Ha. apply Hfree. lia.
Qed.

(** The parent's page, as seen while the copy is under way. *)
Lemma copy_source n s l O :
  0 <= n -> n * PG_SIZE < size -> copied n copy_flags copy_bytes s l O ->
  let e := leaf (km_mem s0) old (n * PG_SIZE) in
  leaf (km_mem s) old (n * PG_SIZE) = e /\
  exists d, O !! d = Some (Dat old n) /\ P2V (Z.land e PG_ADDR_MASK) = d /\
    forall x, in_page d x -> km_mem s x = km_mem s0 x.
Proof.
  intros Hn Hlt HA e.
  assert (He : leaf (km_mem s) old (n * PG_SIZE) = e).
  { apply (al_out _ _ _ _ _ _ _ _ _ _ _ HA); [done|]. by intros [? _]. }
  split; [done|]. assert (Hnz : e <> 0) by (apply Hmap; unfold PG_SIZE in *; lia).
  destruct (leaf_page s0 l0 O0 old _ HI0 Hold Hnz) as (p & d & _ & Hd & _ & Hl & _).
  rewrite vpn_user, Z.div_mul in Hd by (unfold PG_SIZE in *; lia).
  exists d. split_and!; [by eapply al_sub|by apply pte_leaf_addr; [by eapply vi_page|]|].
  intros x Hx. apply (al_mem _ _ _ _ _ _ _ _ _ _ _ HA).
  - intros q r k b Hq. by eapply (page_not_other s0 l0 O0 d _ q _ x).
  - intros q Hq. by eapply (page_not_pool s0 l0 O0 d _ q x).
Qed.

(** The parent's entry is not touched by the allocation of a page. *)
Lemma copy_pte s s2 d l O a :
  vm_inv s (d :: l) O -> vm_inv s2 l (<[d := Other]> O) ->
  (forall x, ~ in_page d x -> km_mem s2 x = km_mem s x) ->
  O !! old = Some (Tab old 0 0) -> leaf (km_mem s) old a <> 0 ->
  load64 (km_mem s2) (slot (km_mem s) old a) = leaf (km_mem s) old a.
Proof.
  intros HI HI2 Hm Ho Hl.
  destruct (leaf_page s (d :: l) O old a HI Ho Hl) as (p & d' & Hp & _ & _ & _ & Es).
  assert (HdO : O !! d = None) by (eapply vi_free; [exact HI|left]).
  assert (HO2 : forall q ρ, O !! q = Some ρ -> <[d:=Other]> O !! q = Some ρ).
  { intros q ρ Hq. rewrite lookup_insert_ne; [done|congruence]. }
  rewrite Es, <- (take_leaf s s2 d l O old a HI HI2 Hm Ho).
  by rewrite (proj1 (leaf_tab s2 l (<[d:=Other]> O) old a p HI2 (HO2 _ _ Ho) (HO2 _ _ Hp))).
Qed.

Lemma uvmcopy_body_step n s l O :
  0 <= n -> n * PG_SIZE < size -> copied n copy_flags copy_bytes s l O ->
  wp (uvmcopy_body kend old new size (n * PG_SIZE)) s (fun res s' =>
    (res = inl ((n + 1) * PG_SIZE) /\ exists l' O', copied (n + 1) copy_flags copy_bytes s' l' O' /\
       (length l <= length l' + 4)%nat) \/
    (res = inr (-1) /\ (length l <= 3)%nat /\ exists l' O', settled s0 l0 O0 s' l' O')).
Proof.
  intros Hn Hlt HA. assert (HI : vm_inv s l O) by apply HA.
  assert (HoO : O !! old = Some (Tab old 0 0)) by (by eapply al_sub).
  assert (HnO : O !! new = Some (Tab new 0 0)) by (by eapply al_sub).
  destruct (copy_source n s l O Hn Hlt HA) as (He & src & Hsrc & Esrc & Hbytes).
  set (a := n * PG_SIZE) in *. set (e := leaf (km_mem s0) old a) in *.
  assert (Hnz : leaf (km_mem s) old a <> 0) by (rewrite He; apply Hmap; unfold a, PG_SIZE in *; lia).
  destruct (leaf_valid s l O old a HI HoO Hnz) as (Hs & Hl & Hv & Ht). rewrite He in *.
  unfold uvmcopy_body. destruct (Z.ltb_spec a size); [|lia].
  apply wp_bind. eapply wp_ok; [apply walk_ro|].
  destruct (Z.eqb_spec (slot (km_mem s) old a) 0); [done|].
  apply wp_bind, wp_gets. rewrite Hl, Hv, Esrc. cbn [Z.eqb]. apply wp_bind.
  assert (Herr : forall s l O, copied n copy_flags copy_bytes s l O -> forall P : Prop, P ->
    wp (uvmcopy_err kend new a) s (fun res s' =>
      res = inr (-1) /\ P /\ exists l' O', settled s0 l0 O0 s' l' O')).
  { intros s' l' O' HA' P HP. eapply wp_mono; [by apply (uvmcopy_err_ok n s' l' O')|]. naive_solver. }
  destruct l as [|d l].
  { eapply wp_ok; [apply (kalloc_empty kend), HI|]. cbn [Z.eqb].
    eapply wp_mono; [apply (Herr s [] O HA (length (@nil Z) <= 3)%nat); simpl; lia|]. by right. }
  destruct (kalloc_copied s d l O src _ HI Hsrc) as (s1 & Hs1 & HI2 & Hout & Hin).
  eapply wp_ok; [done|]. set (s2 := set_mem _ s1) in *.
  assert (Hdk : kpage d) by (eapply vi_page; [exact HI2|apply lookup_insert_eq]).
  assert (HdO : O !! d = None) by (eapply vi_free; [exact HI|left]).
  destruct (Z.eqb_spec d 0) as [Ed|_]; [by destruct (kpage_ne_0 d)|].
  apply wp_bind, wp_modify. fold s2. apply wp_bind, wp_gets.
  rewrite (copy_pte s s2 d l O a HI HI2 Hout HoO) by (by rewrite He). rewrite He.
  fold (copy_flags n). apply wp_bind. eapply wp_mono.
  { apply (mappages_page s2 l (<[d:=Other]> O) new a d (copy_flags n)); try done.
    - rewrite lookup_insert_ne; [done|congruence].
    - apply lookup_insert_eq.
    - apply (copy_flags_ok (n + 1)); [unfold a, PG_SIZE in *; lia|lia].
    - rewrite (take_leaf s s2 d l O new a HI HI2 Hout HnO), (al_out _ _ _ _ _ _ _ _ _ _ _ HA) by
        (done || unfold a in *; rewrite vpn_user, Z.div_mul by (unfold PG_SIZE in *; lia);
         rewrite Z.div_0_l by done; lia).
      apply Hfree. unfold a, PG_SIZE in *. lia.
    - unfold a, page_aligned. by rewrite Z.mod_mul.
    - unfold a, PG_SIZE in *. lia.
    - unfold a, PG_SIZE, MAXVA in *. lia. }
  intros ret s3 [(-> & l3 & O3 & HM & Hlen)|(-> & Hlen & O3 & HG)]; cbn [negb Z.eqb].
  - apply wp_ret. left. split.
    + f_equal. unfold a in *. rewrite u64_small; [lia|]. unfold PG_SIZE, MAXVA in *. lia.
    + exists l3, O3. split; [|simpl; lia].
      eapply (allocated_snoc s0 l0 O0 new 0 n); [exact Hnew|done|done| |exact HA|exact HI2|done| |exact HM].
      * unfold a in *. lia.
      * intros x Hx. rewrite Hin by done. unfold copy_bytes. rewrite Z.div_0_l, Z.add_0_l by done.
        fold a e. rewrite Esrc. apply Hbytes. unfold in_page in *. lia.
  - apply wp_bind.
    destruct (kfree_other s3 [] O3 d) as (s4 & Hs4 & Hk4 & Hm4); [apply HG|apply HG, lookup_insert_eq|].
    eapply wp_ok; [done|].
    pose proof (settled_retry s d l O s2 s3 [] O3 s4 HI HI2 Hout HG Hk4 Hm4) as HS.
    eapply wp_mono; [apply (Herr s4 [d] (delete d O3)) with (P := (length (d :: l) <= 3)%nat)|by right].
    + by eapply allocated_settled.
    + simpl. lia.
Qed.

Lemma uvmcopy_loop k n s l O fuel :
  0 <= n -> size <= (n + Z.of_nat k) * PG_SIZE ->
  (k <> 0%nat -> (n + Z.of_nat k - 1) * PG_SIZE < size) ->
  (k < fuel)%nat ->
  Z.of_nat (length l0) <= Z.of_nat (length l) + 4 * n ->
  copied n copy_flags copy_bytes s l O ->
  wp (loop fuel (uvmcopy_body kend old new size) (n * PG_SIZE)) s (fun ret s' =>
    exists l' O',
      (ret = 0 /\ copied (n + Z.of_nat k) copy_flags copy_bytes s' l' O') \/
      (ret = -1 /\ Z.of_nat (length l0) < 4 * (n + Z.of_nat k) /\ settled s0 l0 O0 s' l' O')).
Proof.
  revert n s l O fuel.
  induction k as [|k IH]; intros n s l O fuel Hn Hhi Hlo Hfuel Hlen HA; (destruct fuel as [|fuel]; [lia|]).
  - eapply wp_ok; [apply loop_exit|].
    + unfold uvmcopy_body. destruct (Z.ltb_spec (n * PG_SIZE) size); [lia|done].
    + exists l, O. left. rewrite Z.add_0_r. done.
  - cbn [loop]. apply wp_bind.
    eapply wp_mono; [apply (uvmcopy_body_step n s l O); try done|].
    { specialize (Hlo ltac:(done)). unfold PG_SIZE in *. lia. }
    intros res s1 [(-> & l1 & O1 & HA1 & Hlen1)|(-> & Hlen1 & l1 & O1 & HS)].
    + replace (n + Z.of_nat (S k)) with (n + 1 + Z.of_nat k) in * by lia.
      apply (IH (n + 1) s1 l1 O1); [lia|done| |lia|lia|done].
      intros _. apply Hlo. done.
    + apply wp_ret. exists l1, O1. right. split_and!; [done|lia|done].
Qed.
End uvmcopy.

Lemma uvmcopy_ok s l O old new size :
  vm_inv s l O -> O !! old = Some (Tab old 0 0) -> O !! new = Some (Tab new 0 0) -> old <> new ->
  0 <= size <= MAXVA ->
  (forall a, 0 <= a < size -> leaf (km_mem s) old a <> 0) ->
  (forall a, 0 <= a < size -> leaf (km_mem s) new a = 0) ->
  let n := (size + PG_SIZE - 1) / PG_SIZE in
  wp (uvmcopy kend old new size) s (fun ret s' => exists l' O',
    (ret = 0 /\ allocated s l O new 0 n (copy_flags s old) (copy_bytes s old) s' l' O') \/
    (ret = -1 /\ Z.of_nat (length l) < 4 * n /\ settled s l O s' l' O')).
Proof.
  intros HI Hold Hnew Hne Hsz Hmap Hfree n. unfold uvmcopy.
  assert (Hn : 0 <= n /\ size <= n * PG_SIZE < size + PG_SIZE) by (unfold n, PG_SIZE; zlia).
  pose proof (uvmcopy_loop s l O old new size HI Hold Hnew Hne Hsz Hmap Hfree (Z.to_nat n) 0 s l O
    (Z.to_nat (size / PG_SIZE + 2))) as L.
  rewrite Z.mul_0_l, !Z.add_0_r, Z.add_0_l, Z2Nat.id in L by lia. apply L; try done; try lia.
  - unfold n, PG_SIZE in *. zlia.
  - by apply allocated_refl.
Qed.

(** C15: [uvmcopy], the memory copy of [fork]: when the parent's pages below
    [size] are mapped and the child's are not, it returns 0 with each page of
    the child on a frame of its own, with the parent's contents and the
    parent's flags, every other mapping (the parent's included) and all other
    memory unchanged; or it returns -1, only when fewer than four free frames
    per page are left, with every mapping as before and no frame lost. *)
Theorem uvmcopy_clones s l O old new size :
  vm_inv s l O -> O !! old = Some (Tab old 0 0) -> O !! new = Some (Tab new 0 0) -> old <> new ->
  0 <= size <= MAXVA ->
  (forall a, 0 <= a < size -> leaf (km_mem s) old a <> 0) ->
  (forall a, 0 <= a < size -> leaf (km_mem s) new a = 0) ->
  let n := (size + PG_SIZE - 1) / PG_SIZE in
  wp (uvmcopy kend old new size) s (fun ret s' => exists l' O',
    (ret = 0 /\ allocated s l O new 0 n (copy_flags s old) (copy_bytes s old) s' l' O') \/
    (ret = -1 /\ Z.of_nat (length l) < 4 * n /\ settled s l O s' l' O')).
Proof. apply uvmcopy_ok. Qed.
End fork.

#[local] Existing Instance kernel_ex.

(** The child's root table beside the mapped parent. *)
Definition child_ex : Z := page_ex 13.
Definition fork_roles : gmap Z role := <[child_ex := Tab child_ex 0 0]> mapped_roles.

Lemma mapped_ex_zero x : page_ex 12 <= x -> km_mem mapped_ex x = 0.
Proof.
  intros Hx. simpl. unfold mapped_mem, page_ex, PG_SIZE in *. by rewrite !store64_out by lia.
Qed.

Lemma fork_inv : vm_inv mapped_ex [] fork_roles.
Proof.
  apply vm_root; [apply mapped_ex_inv|by vm_compute|]. intros i Hi.
  apply load64_zero. intros x Hx. apply mapped_ex_zero. unfold child_ex, page_ex, PG_SIZE in *. lia.
Qed.

Lemma mapped_ex_leaf a : 0 <= a < PG_SIZE -> leaf (km_mem mapped_ex) root_ex a <> 0.
Proof.
  intros Ha. rewrite (leaf_vpn mapped_ex [] mapped_roles root_ex a 0 mapped_ex_inv mapped_root).
  - by vm_compute.
  - rewrite !vpn_div. unfold PG_SIZE in *. zlia.
Qed.

Lemma uvmcopy_clones_witness :
  wp (uvmcopy kend root_ex child_ex 4000) mapped_ex (fun ret s' => exists l' O',
    (ret = 0 /\ allocated mapped_ex [] fork_roles child_ex 0 1 (copy_flags mapped_ex root_ex)
       (copy_bytes mapped_ex root_ex) s' l' O') \/
    (ret = -1 /\ 0 < 4 /\ settled mapped_ex [] fork_roles s' l' O')).
Proof.
  apply (uvmcopy_clones mapped_ex [] fork_roles root_ex child_ex 4000).
  - apply fork_inv.
  - by vm_compute.
  - by vm_compute.
  - by vm_compute.
  - by vm_compute.
  - intros a Ha. apply mapped_ex_leaf. unfold PG_SIZE. lia.
  - intros a Ha.
    rewrite (leaf_vpn mapped_ex [] fork_roles child_ex a 0 fork_inv) by
      first [by vm_compute | rewrite !vpn_div; unfold PG_SIZE; zlia].
    by vm_compute.
Defined.
