(* ===== verification/VmFree.v ===== *)
(** [freewalk] and [uvmfree] of [kernel/vm.c]: releasing an address space
    returns its pages and its tables to the allocator, each once, and nothing
    else. *)

From stdpp Require Import gmap.
From S2P Require Import Prelude CString Layout Kalloc Vm VmTables VmOps VmExample VmFork.

(** Whether a page belongs to the address space with root [r]. *)
Definition owned (r : Z) (ρ : role) : Prop :=
  match ρ with
  | Tab r' _ _ | Dat r' _ => r' = r
  | Other => False
  end.
#[export] Instance owned_dec r ρ : Decision (owned r ρ).
Proof. destruct ρ; simpl; apply _. Defined.

Section free.
Context `{KE : KernelEnd}.

(** The pages [P] have been freed. *)
Definition freed (P : Z -> Prop) (s : kmem) (l : list Z) (s' : kmem) : Prop :=
  exists fr, kmem_inv kend s' (fr ++ l) /\ (forall q, q ∈ fr <-> P q) /\
    forall x, (forall q, P q -> ~ in_page q x) -> km_mem s' x = km_mem s x.

Section walk.
Context (s0 : kmem) (l0 : list Z) (O : gmap Z role) (HI : vm_inv s0 l0 O).
Context (r : Z) (Hnodat : forall d v, O !! d <> Some (Dat r v)).

(** The tables below (and including) the level-[k] table number [b]. *)
Definition under (k : nat) (b : Z) (q : Z) : Prop :=
  exists j c, O !! q = Some (Tab r (k + j) c) /\ c / 512 ^ Z.of_nat j = b.

Lemma under_self k b p : O !! p = Some (Tab r k b) -> under k b p.
Proof. intros Hp. exists 0%nat, b. rewrite Nat.add_0_r. split; [done|]. change (512 ^ Z.of_nat 0) with 1. apply Z.div_1_r. Qed.

Lemma under_kpage k b q : under k b q -> kpage q.
Proof. intros (j & c & Hq & _). by eapply (vi_page _ _ _ HI). Qed.

Lemma pow512_S j : 512 ^ Z.of_nat (S j) = 512 ^ Z.of_nat j * 512.
Proof. rewrite Nat2Z.inj_succ, Z.pow_succ_r by lia. lia. Qed.
Lemma pow512_pos j : 0 < 512 ^ Z.of_nat j.
Proof. apply Z.pow_pos_nonneg; lia. Qed.

Lemma under_child k b i q : 0 <= i < 512 -> under (S k) (b * 512 + i) q -> under k b q.
Proof.
  intros Hi (j & c & Hq & Hc). exists (S j), c. replace (k + S j)%nat with (S k + j)%nat by lia. split; [done|].
  rewrite pow512_S, <- Z.div_div by (pose proof (pow512_pos j); lia). rewrite Hc. zlia.
Qed.

Lemma under_split k b p q :
  O !! p = Some (Tab r k b) -> under k b q -> q = p \/ exists i, 0 <= i < 512 /\ under (S k) (b * 512 + i) q.
Proof.
  intros Hp (j & c & Hq & Hc). destruct j as [|j].
  - left. rewrite Nat.add_0_r in Hq. change (512 ^ Z.of_nat 0) with 1 in Hc. rewrite Z.div_1_r in Hc. subst.
    by eapply (tab_unique s0 l0 O).
  - right. exists (c / 512 ^ Z.of_nat j mod 512). split; [by apply Z.mod_pos_bound|]. exists j, c.
    replace (S k + j)%nat with (k + S j)%nat by lia. split; [done|].
    rewrite pow512_S, <- Z.div_div in Hc by (pose proof (pow512_pos j); lia). zlia.
Qed.

(** Every number met on the way up is that of a table. *)
Lemma under_top k b q : under k b q -> exists c, O !! c = Some (Tab r k b).
Proof.
  intros (j & c & Hq & Hc). revert q c Hq Hc. induction j as [|j IH]; intros q c Hq Hc.
  - rewrite Nat.add_0_r in Hq. change (512 ^ Z.of_nat 0) with 1 in Hc. rewrite Z.div_1_r in Hc. subst. eauto.
  - replace (k + S j)%nat with (S (k + j)) in Hq by lia. destruct (vi_up _ _ _ HI _ _ _ _ Hq) as (_ & p & Hp & _).
    apply (IH p _ Hp). rewrite pow512_S, Z.mul_comm, <- Z.div_div in Hc by (pose proof (pow512_pos j); lia). done.
Qed.

Lemma under_inj k b b' q : under k b q -> under k b' q -> b = b'.
Proof.
  intros (j & c & Hq & <-) (j' & c' & Hq' & <-). rewrite Hq in Hq'. simplify_eq. by replace j' with j by lia.
Qed.

(** The child in a slot, and no child where the slot is empty. *)
Lemma slot_child k b p i :
  O !! p = Some (Tab r k b) -> 0 <= i < 512 ->
  (ent (km_mem s0) p i = 0 /\ forall q, ~ under (S k) (b * 512 + i) q) \/
  exists c, (k < 3)%nat /\ ent (km_mem s0) p i = pte_tab c /\ O !! c = Some (Tab r (S k) (b * 512 + i)).
Proof.
  intros Hp Hi. assert (Hno : (forall c, O !! c <> Some (Tab r (S k) (b * 512 + i))) -> forall q, ~ under (S k) (b * 512 + i) q).
  { intros H q [c Hc]%under_top. by apply (H c). }
  destruct (decide (k < 3)%nat) as [Hk|Hk].
  - destruct (vi_tab _ _ _ HI _ _ _ _ _ Hp Hk Hi) as [E|(c & E & Hc)]; [left|right; eauto]. split; [done|]. apply Hno.
    intros c Hc. destruct (vi_up _ _ _ HI _ _ _ _ Hc) as (_ & p' & Hp' & Ep).
    replace ((b * 512 + i) / 512) with b in Hp' by zlia. replace ((b * 512 + i) mod 512) with i in Ep by zlia.
    rewrite (tab_unique s0 l0 O p' p r k b HI Hp' Hp), E in Ep. by destruct (pte_tab_nonzero c); [by eapply (vi_page _ _ _ HI)|].
  - left. assert (k = 3%nat) as ->.
    { destruct k as [|k]; [lia|]. destruct (vi_up _ _ _ HI _ _ _ _ Hp). lia. }
    split.
    + destruct (vi_leaf _ _ _ HI _ _ _ _ Hp Hi) as [?|(d & _ & Hd)]; [done|by destruct (Hnodat d (b * 512 + i))].
    + apply Hno. intros c Hc. destruct (vi_up _ _ _ HI _ _ _ _ Hc). lia.
Qed.

(** [q] is still as it was at the start. *)
Definition intact (P : Z -> Prop) (s : kmem) : Prop := forall q x, P q -> in_page q x -> km_mem s x = km_mem s0 x.

(** What the recursive call does on the tables of the next level. *)
Definition frees (k : nat) (rec : Z -> M kmem unit) : Prop := forall c e s l,
  O !! c = Some (Tab r k e) -> (forall q, under k e q -> q ∉ l) -> kmem_inv kend s l -> intact (under k e) s ->
  wp (rec c) s (fun _ s' => freed (under k e) s l s').

Definition from (k : nat) (b i : Z) (q : Z) : Prop := exists j, i <= j < 512 /\ under (S k) (b * 512 + j) q.

Lemma apart k b i j q q' x :
  under (S k) (b * 512 + i) q -> under (S k) (b * 512 + j) q' -> i <> j -> in_page q x -> ~ in_page q' x.
Proof.
  intros H1 H2 Hne Hx Hx'. assert (q = q') as <-.
  { eapply in_page_disjoint; [by apply (under_kpage _ _ _ H1)|by apply (under_kpage _ _ _ H2)|done|done]. }
  pose proof (under_inj _ _ _ _ H1 H2). lia.
Qed.

Lemma not_self k b p i q x :
  O !! p = Some (Tab r k b) -> under (S k) (b * 512 + i) q -> in_page q x -> ~ in_page p x.
Proof.
  intros Hp Hq Hx Hx'. assert (q = p) as ->.
  { eapply in_page_disjoint; [by apply (under_kpage _ _ _ Hq)|by apply (vi_page _ _ _ HI _ _ Hp)|done|done]. }
  destruct Hq as (j & c & Hq & _). rewrite Hp in Hq. simplify_eq. lia.
Qed.

Lemma freewalk_entries_ok rec k b p :
  O !! p = Some (Tab r k b) -> ((k < 3)%nat -> frees (S k) rec) -> forall n i s l, i + Z.of_nat n = 512 -> 0 <= i ->
  p ∉ l -> (forall q, from k b i q -> q ∉ l) -> kmem_inv kend s l -> intact (from k b i) s ->
  (forall j, i <= j < 512 -> ent (km_mem s) p j = ent (km_mem s0) p j) ->
  wp (freewalk_entries rec p n i) s (fun _ s' => exists fr, kmem_inv kend s' (fr ++ l) /\
    (forall q, q ∈ fr <-> from k b i q) /\
    forall x, (forall q, from k b i q -> ~ in_page q x) -> ~ in_page p x -> km_mem s' x = km_mem s x).
Proof.
  intros Hp Hrec. induction n as [|n IH]; intros i s l Hn H0 Hpl Hl HK Hin Hent.
  { apply wp_ret. exists []. split_and!; [done| |done]. intros q. split; [by intros ?%elem_of_nil|]. intros (j & ? & _). lia. }
  pose proof (vi_page _ _ _ HI _ _ Hp) as Hkp. cbn [freewalk_entries]. apply wp_bind, wp_gets.
  change (load64 (km_mem s) (p + 8 * i)) with (ent (km_mem s) p i). rewrite Hent by lia.
  destruct (slot_child k b p i Hp ltac:(lia)) as [[-> Hno]|(c & Hk & -> & Hc)].
  - change (Z.land 0 MM_TYPE_MASK =? MM_TYPE_TABLE) with false. cbn match.
    change (ctrue (Z.land 0 MM_TYPE_VALID)) with false. cbn [when]. apply wp_bind, wp_ret.
    assert (Hsame : forall q, from k b (i + 1) q <-> from k b i q).
    { intros q. split; intros (j & Hj & Hq); exists j; (split; [|done]); [lia|].
      destruct (decide (j = i)) as [->|]; [by destruct (Hno q)|lia]. }
    eapply wp_mono; [apply (IH (i + 1) s l)|]; [lia|lia|done|by intros q ?%Hsame; apply Hl|done| |intros; apply Hent; lia|].
    { intros q x Hq%Hsame. by apply Hin. }
    intros [] s' (fr & F1 & F2 & F3). exists fr. split_and!; [done|intros q; by rewrite F2|].
    intros x Hx. apply F3. intros q ?%Hsame. by apply Hx.
  - assert (kpage c) as Hck by (by eapply (vi_page _ _ _ HI)).
    rewrite pte_tab_type, pte_tab_addr, Z.eqb_refl by done. apply wp_bind, wp_bind.
    assert (Hfr : forall q, under (S k) (b * 512 + i) q -> from k b i q) by (intros q Hq; exists i; split; [lia|done]).
    eapply wp_mono; [apply (Hrec Hk c (b * 512 + i) s l Hc); [auto|done|intros q x Hq; by apply Hin, Hfr]|].
    intros [] s1 (fr & F1 & F2 & F3). apply wp_modify.
    assert (Hnp : p ∉ fr ++ l).
    { rewrite elem_of_app, F2. intros [Hq|?]; [|done]. apply (not_self k b p i p p Hp Hq); unfold in_page, PG_SIZE; lia. }
    assert (Hout : forall x, ~ in_page p x -> km_mem (set_mem (fun m => store64 m (p + 8 * i) 0) s1) x = km_mem s1 x).
    { intros x Hx. simpl. apply store64_out. assert (~ (p + 8 * i <= x < p + 8 * i + 8)); [|lia].
      intros Hx'. apply Hx. by apply (ent_in_page p i); [lia|]. }
    eapply wp_mono; [apply (IH (i + 1) _ (fr ++ l))|]; [lia|lia|done| | | | |].
    + intros q (j & Hj & Hq). rewrite elem_of_app, F2. intros [Hq'|Hq'].
      * pose proof (under_inj _ _ _ _ Hq Hq'). lia.
      * apply (Hl q); [|done]. exists j. split; [lia|done].
    + apply kmem_inv_set_mem; [done|apply store64_ok, (ki_bytes _ _ _ F1)|].
      intros q x Hq Hx. apply Hout. intros Hx'. apply Hnp. assert (p = q) as ->; [|done].
      pose proof (ki_ok _ _ _ F1) as Hok. rewrite Forall_forall in Hok.
      eapply in_page_disjoint; [apply Hkp|by apply Hok|done|done].
    + intros q x (j & Hj & Hq) Hx. rewrite Hout by (by eapply not_self).
      rewrite F3; [apply (Hin q); [exists j; split; [lia|done]|done]|].
      intros q' Hq'. eapply (apart k b j i); [exact Hq|exact Hq'|lia|done].
    + intros j Hj. simpl. rewrite ent_store by (try apply Hkp; lia). rewrite decide_False by (intros [=]; lia).
      rewrite <- Hent by lia. apply load64_ext. intros x Hx. apply F3. intros q Hq Hqx.
      apply (not_self k b p i q x Hp Hq Hqx). by apply (ent_in_page p j); [lia|].
    + intros [] s' (fr' & G1 & G2 & G3). exists (fr' ++ fr). split_and!.
      * by rewrite <- app_assoc.
      * intros q. rewrite elem_of_app, F2, G2. split.
        -- intros [(j & Hj & Hq)|Hq]; [exists j; split; [lia|done]|auto].
        -- intros (j & Hj & Hq). destruct (decide (j = i)) as [->|]; [by right|left; exists j; split; [lia|done]].
      * intros x Hx Hxp. rewrite G3, Hout by (done || (intros q (j & Hj & Hq); apply Hx; exists j; split; [lia|done])).
        apply F3. intros q Hq. by apply Hx, Hfr.
Qed.

Lemma freewalk_ok depth k : (depth = 4 - k)%nat -> (k < 4)%nat -> frees k (freewalk kend depth).
Proof.
  revert k. induction depth as [|depth IH]; intros k Hd Hk c e s l Hc Hl HK Hin; [lia|].
  cbn [freewalk]. apply wp_bind. pose proof (vi_page _ _ _ HI _ _ Hc) as Hkc.
  assert (Hfrom : forall q, from k e 0 q -> under k e q) by (intros q (j & Hj & Hq); by eapply under_child).
  eapply wp_mono; [apply (freewalk_entries_ok _ k e c Hc)|]; try done.
  - intros Hk3. apply IH; lia.
  - by apply Hl, under_self.
  - intros q Hq. by apply Hl, Hfrom.
  - intros q x Hq. by apply Hin, Hfrom.
  - intros j Hj. apply load64_ext. intros x Hx. apply (Hin c); [by apply under_self|]. by apply (ent_in_page c j).
  - intros [] s1 (fr & F1 & F2 & F3).
    assert (Hnc : c ∉ fr ++ l).
    { rewrite elem_of_app, F2. intros [(j & Hj & Hq)|Hq]; [|by apply (Hl c); [apply under_self|]].
      apply (not_self k e c j c c Hc Hq); unfold in_page, PG_SIZE; lia. }
    destruct (kfree_good kend s1 c (fr ++ l) F1 (kpage_ok c Hkc) Hnc) as (s2 & E & F4 & F5).
    eapply wp_ok; [exact E|]. exists (c :: fr). split_and!; [done| |].
    + intros q. rewrite elem_of_cons, F2. split.
      * intros [->|Hq]; [by apply under_self|auto].
      * intros Hq. destruct (under_split k e c q Hc Hq) as [->|(j & Hj & Hq')]; [by left|right; by exists j].
    + intros x Hx. rewrite F5.
      * apply F3; [|by apply Hx, under_self]. intros q Hq. by apply Hx, Hfrom.
      * pose proof (Hx c (under_self _ _ _ Hc)) as Hnx. unfold in_page, PG_SIZE in Hnx. lia.
Qed.

Lemma tab_number q k b : O !! q = Some (Tab r k b) -> b / 512 ^ Z.of_nat k = 0.
Proof.
  revert q b. induction k as [|k IH]; intros q b Hq.
  - destruct (vi_root _ _ _ HI _ _ _ Hq) as [_ ->]. done.
  - destruct (vi_up _ _ _ HI _ _ _ _ Hq) as (_ & p & Hp & _). rewrite pow512_S, Z.mul_comm, <- Z.div_div by (pose proof (pow512_pos k); lia).
    by apply (IH p).
Qed.

Lemma under_root q : under 0 0 q <-> exists ρ, O !! q = Some ρ /\ owned r ρ.
Proof.
  split.
  - intros (j & c & Hq & _). by eexists.
  - intros ([r' k b|r' v|] & Hq & Ho); simpl in Ho; [subst r'|subst r'; by destruct (Hnodat q v)|done].
    exists k, b. split; [done|]. by eapply tab_number.
Qed.
End walk.

Definition released (r : Z) (O : gmap Z role) : gmap Z role := filter (fun pρ => ~ owned r (snd pρ)) O.

Lemma released_Some r O p ρ : released r O !! p = Some ρ <-> O !! p = Some ρ /\ ~ owned r ρ.
Proof. unfold released. by rewrite map_lookup_filter_Some. Qed.

(** Once the tables are free the roles of the other address spaces stand. *)
Lemma vm_release s l O r s' l' :
  vm_inv s l O -> kmem_inv kend s' l' ->
  (forall p, p ∈ l' <-> p ∈ l \/ exists ρ, O !! p = Some ρ /\ owned r ρ) ->
  (forall p ρ x, O !! p = Some ρ -> ~ owned r ρ -> in_page p x -> km_mem s' x = km_mem s x) ->
  vm_inv s' l' (released r O).
Proof.
  intros [Hk H1 H2 H3 H4 H5 H6 H7 H8] Hk' Hl Hm.
  assert (He : forall p ρ i, O !! p = Some ρ -> ~ owned r ρ -> 0 <= i < 512 -> ent (km_mem s') p i = ent (km_mem s) p i).
  { intros p ρ i Hp Hn Hi. apply load64_ext. intros x Hx. apply (Hm p ρ); [done|done|]. by eapply ent_in_page. }
  rewrite Forall_forall in H1. split.
  - done.
  - apply Forall_forall. intros p [Hp|(ρ & Hp & _)]%Hl; [by apply H1|by eapply H3].
  - intros p Hp. destruct (released r O !! p) as [ρ|] eqn:E; [|done]. apply released_Some in E as [E Hn].
    apply Hl in Hp as [Hp|(ρ' & Hp & Ho)]; [by rewrite (H2 p Hp) in E|congruence].
  - intros p ρ [Hp _]%released_Some. by eapply H3.
  - intros p r' b [Hp _]%released_Some. by eapply H4.
  - intros p r' k b i [Hp Hn]%released_Some Hk3 Hi. rewrite (He p _ i Hp Hn Hi).
    destruct (H5 _ _ _ _ _ Hp Hk3 Hi) as [?|(c & Hc & HO)]; [by left|right]. exists c. by rewrite released_Some.
  - intros p r' b i [Hp Hn]%released_Some Hi. rewrite (He p _ i Hp Hn Hi).
    destruct (H6 _ _ _ _ Hp Hi) as [?|(c & Hc & HO)]; [by left|right]. exists c. by rewrite released_Some.
  - intros c r' k b [Hc Hn]%released_Some. destruct (H7 c r' k b Hc) as (Hk3 & p & Hp & Ep). split; [done|].
    exists p. rewrite released_Some, (He p _ _ Hp Hn) by (by apply Z.mod_pos_bound). done.
  - intros c r' v [Hc Hn]%released_Some. destruct (H8 c r' v Hc) as (p & Hp & Ep).
    exists p. rewrite released_Some, (He p _ _ Hp Hn) by (by apply Z.mod_pos_bound). done.
Qed.

(** The address space of root [r] is the pages below [size]. *)
Record space (m : mem) (r size : Z) : Prop := {
  sp_size : 0 <= size <= MAXVA;
  sp_mapped : forall a, 0 <= a < size -> leaf m r a <> 0;
  sp_end : forall a, PG_ROUND_UP size <= a < MAXVA -> leaf m r a = 0;
}.

(** [r] is gone: its pages are free, the rest is as before. *)
Record vacated (s : kmem) (l : list Z) (O : gmap Z role) (r : Z) (s' : kmem) (l' : list Z) : Prop := {
  vc_inv : vm_inv s' l' (released r O);
  vc_pool : forall p, p ∈ l' <-> p ∈ l \/ exists ρ, O !! p = Some ρ /\ owned r ρ;
  vc_leaf : forall r' va, O !! r' = Some (Tab r' 0 0) -> r' <> r -> leaf (km_mem s') r' va = leaf (km_mem s) r' va;
  vc_mem : forall x, (forall p r' k b, O !! p = Some (Tab r' k b) -> ~ in_page p x) ->
    (forall d v, O !! d = Some (Dat r v) -> ~ in_page d x) -> km_mem s' x = km_mem s x;
}.

Lemma round_up_pages size : 0 <= size <= MAXVA ->
  PG_ROUND_UP size = (size + PG_SIZE - 1) / PG_SIZE * PG_SIZE /\ 0 <= (size + PG_SIZE - 1) / PG_SIZE /\
  PG_ROUND_UP size <= MAXVA.
Proof.
  intros H. rewrite PG_ROUND_UP_div by (unfold MAXVA, PG_SIZE in *; lia). unfold MAXVA, PG_SIZE in *. split_and!; [done|zlia|zlia].
Qed.

(** The data pages of a space have numbers below its end. *)
Lemma space_dat s l O r size d v :
  vm_inv s l O -> O !! r = Some (Tab r 0 0) -> space (km_mem s) r size -> O !! d = Some (Dat r v) ->
  0 <= v < (size + PG_SIZE - 1) / PG_SIZE.
Proof.
  intros HI Hr [Hs _ Hend] Hd. destruct (vi_dat _ _ _ HI _ _ _ Hd) as (p & Hp & _).
  pose proof (tab_number s l O HI r p 3 (v / 512) Hp) as Hn. change (512 ^ Z.of_nat 3) with (2 ^ 27) in Hn.
  assert (Hv : 0 <= v < 2 ^ 36) by zlia. split; [lia|]. destruct (round_up_pages size Hs) as (E & H0 & _).
  destruct (decide (v < (size + PG_SIZE - 1) / PG_SIZE)) as [|Hge]; [done|exfalso].
  apply (dat_leaf s l O r d v HI Hr Hd Hv). apply Hend. rewrite E. unfold PG_SIZE, MAXVA in *. lia.
Qed.

(** The walk over a space without data pages. *)
Lemma freewalk_frees s l O r :
  vm_inv s l O -> O !! r = Some (Tab r 0 0) -> (forall d v, O !! d <> Some (Dat r v)) ->
  wp (freewalk kend 4 r) s (fun _ s' => exists l', vacated s l O r s' l').
Proof.
  intros HI Hr Hno. eapply wp_mono.
  - apply (freewalk_ok s l O HI r Hno 4 0 eq_refl ltac:(lia) r 0 s l Hr); [|apply HI|done].
    intros q (ρ & Hq & _)%(under_root s l O HI r Hno) Hin. by rewrite (vi_free _ _ _ HI q Hin) in Hq.
  - intros [] s' (fr & F1 & F2 & F3). exists (fr ++ l).
    assert (Hpool : forall p, p ∈ fr ++ l <-> p ∈ l \/ exists ρ, O !! p = Some ρ /\ owned r ρ).
    { intros p. rewrite elem_of_app, F2, (under_root s l O HI r Hno). tauto. }
    assert (Hm : forall p ρ x, O !! p = Some ρ -> ~ owned r ρ -> in_page p x -> km_mem s' x = km_mem s x).
    { intros p ρ x Hp Hn Hx. apply F3. intros q (ρ' & Hq & Ho)%(under_root s l O HI r Hno) Hx'.
      assert (p = q) as <-; [|congruence].
      eapply in_page_disjoint; [by apply (vi_page _ _ _ HI _ _ Hp)|by apply (vi_page _ _ _ HI _ _ Hq)|done|done]. }
    assert (HI' : vm_inv s' (fr ++ l) (released r O)) by (by eapply vm_release).
    split; [done|done| |].
    + intros r' va Hr' Hne. apply (leaf_same s l O s' (fr ++ l) (released r O)); try done.
      * by apply released_Some.
      * intros p [Hp _]%released_Some. left. split; [done|]. apply load64_ext. intros x Hx. apply (Hm p _ x Hp); [done|].
        eapply ent_in_page; [apply (PX_range 3 va); lia|lia].
      * intros p Hp. by apply released_Some.
    + intros x Hx Hd. apply F3. intros q (ρ & Hq & Ho)%(under_root s l O HI r Hno).
      destruct ρ as [r0 k b|r0 v|]; [by eapply Hx|by destruct (Hno q v); simpl in Ho; subst|done].
Qed.

(** Unmapping everything and then walking. *)
Lemma vacated_unmapped s l O r n s1 l1 O1 s2 l2 :
  vm_inv s l O -> O !! r = Some (Tab r 0 0) -> (forall d v, O !! d = Some (Dat r v) -> 0 <= v < n) ->
  unmapped s l O r 0 n s1 l1 O1 -> vacated s1 l1 O1 r s2 l2 -> vacated s l O r s2 l2.
Proof.
  intros HI Hr Hdat [U1 U2 U3 [fr (U4 & _ & U4')] U5 U6 U7] [V1 V2 V3 V4].
  change (0 / PG_SIZE) with 0 in *. rewrite Forall_forall in U4'.
  assert (HO : forall p ρ, O !! p = Some ρ -> ~ owned r ρ -> O1 !! p = Some ρ).
  { intros p ρ Hp Hn. apply U3; [done|]. intros v _ ->. by apply Hn. }
  assert (E : released r O1 = released r O).
  { apply map_eq. intros p. apply option_eq. intros ρ. rewrite !released_Some. naive_solver. }
  split.
  - by rewrite <- E.
  - intros p. rewrite V2. split.
    + intros [Hp|(ρ & Hp & Ho)]; [|eauto]. subst l1. apply elem_of_app in Hp as [Hp|]; [|by left].
      destruct (U4' p Hp) as (v & _ & HD). right. by exists (Dat r v).
    + intros [Hp|(ρ & Hp & Ho)]; [left; subst l1; set_solver|]. destruct ρ as [r' k b|r' v|]; simpl in Ho; [subst r'| |done].
      * right. exists (Tab r k b). split; [|done]. by apply U3.
      * subst r'. left. apply (U5 p v Hp). pose proof (Hdat p v Hp). lia.
  - intros r' va Hr' Hne. rewrite V3; [|by apply HO; [|simpl]|done]. rewrite U6, decide_False by (done || naive_solver). done.
  - intros x Hx Hd. rewrite V4.
    + apply U7; [done|]. intros d v Hdv _. by eapply Hd.
    + intros p r' k b Hp%U2. by eapply Hx.
    + intros d v Hdv%U2. by eapply Hd.
Qed.

Lemma uvmfree_ok s l O r size :
  vm_inv s l O -> O !! r = Some (Tab r 0 0) -> space (km_mem s) r size ->
  wp (uvmfree kend 4 r size) s (fun _ s' => exists l', vacated s l O r s' l').
Proof.
  intros HI Hr Hsp. pose proof (space_dat s l O r size) as Hdat. pose proof Hsp as [Hs Hmap _].
  destruct (round_up_pages size Hs) as (E & H0 & Hmax). set (n := (size + PG_SIZE - 1) / PG_SIZE) in *.
  unfold uvmfree. apply wp_bind. rewrite E, Z.div_mul by done.
  destruct (Z.ltb_spec 0 size) as [Hpos|Hz]; cbn [when].
  - eapply wp_mono; [apply (uvmunmap_ok s l O r 0 n); try done; [lia|]|].
    + intros a Ha. rewrite (leaf_vpn s l O r a (a / PG_SIZE * PG_SIZE) HI Hr).
      * apply Hmap. unfold n, PG_SIZE in *. zlia.
      * rewrite !vpn_user by (unfold PG_SIZE in *; zlia). by rewrite Z.div_mul.
    + intros [] s1 (l1 & O1 & U). pose proof U as [U1 _ U3 _ U5 _ _]. eapply wp_mono; [apply (freewalk_frees s1 l1 O1 r)|].
      * done.
      * by apply U3.
      * intros d v Hd. pose proof (um_sub _ _ _ _ _ _ _ _ _ U _ _ Hd) as HD. pose proof (Hdat d v HI Hr Hsp HD).
        assert (d ∈ l1) by (apply (U5 d v HD); change (0 / PG_SIZE) with 0; lia). by rewrite (vi_free _ _ _ U1 d) in Hd.
      * intros [] s2 (l2 & V). exists l2. apply (vacated_unmapped s l O r n s1 l1 O1 s2 l2); try done.
        intros d v Hd. exact (Hdat d v HI Hr Hsp Hd).
  - apply wp_ret. apply freewalk_frees; [done|done|]. intros d v Hd. pose proof (Hdat d v HI Hr Hsp Hd) as Hv.
    assert (size = 0) as -> by lia. vm_compute in Hv. destruct Hv as [Hv1 Hv2]. destruct v; done.
Qed.

(** C13: [uvmfree] gives an address space back.  From a space whose pages below
    [size] are mapped and no others it returns, and then the free pages are
    those that were free before and exactly the pages and tables of that
    space; every other address space translates as before and the contents of
    its pages, like all other memory, are untouched. *)
Theorem uvmfree_frees s l O r size :
  vm_inv s l O -> O !! r = Some (Tab r 0 0) -> space (km_mem s) r size ->
  wp (uvmfree kend 4 r size) s (fun _ s' => exists l', vacated s l O r s' l').
Proof. apply uvmfree_ok. Qed.
End free.

#[local] Existing Instance kernel_ex.

Lemma mapped_roles_dat : map_Forall (fun _ ρ => match ρ with Dat _ v => v = 0 | _ => True end) mapped_roles.
Proof. unfold mapped_roles. repeat (apply map_Forall_insert_2; [done|]). apply map_Forall_empty. Qed.

Lemma mapped_space : space (km_mem mapped_ex) root_ex PG_SIZE.
Proof.
  split; [by vm_compute|apply mapped_ex_leaf|]. intros a Ha. change (PG_ROUND_UP PG_SIZE) with PG_SIZE in Ha.
  destruct (decide (leaf (km_mem mapped_ex) root_ex a = 0)) as [|Hne]; [done|exfalso].
  destruct (leaf_page _ _ _ _ _ mapped_ex_inv mapped_root Hne) as (_ & d & _ & Hd & _).
  pose proof (mapped_roles_dat d _ Hd) as E. simpl in E. rewrite vpn_user in E by (unfold PG_SIZE in *; lia).
  unfold PG_SIZE in *. zlia.
Qed.

Lemma uvmfree_frees_witness :
  wp (uvmfree kend 4 root_ex PG_SIZE) mapped_ex (fun _ s' => exists l', vacated mapped_ex [] mapped_roles root_ex s' l').
Proof.
  apply (uvmfree_frees mapped_ex [] mapped_roles root_ex PG_SIZE); [apply mapped_ex_inv|apply mapped_root|apply mapped_space].
Defined.
