(* ===== verification/Sleeplock.v ===== *)
(** Sleep locks, [kernel/sleeplock.c].

    The lock word and the holder's pid, with the operations as the process
    [pid] performs them while it holds the inner spin lock.  [acquiresleep]
    returns [None] when the caller has to sleep.  [SleepWake] has the
    processes that contend for one lock. *)

From S2P Require Import Prelude.

Record sleeplock : Type := Sleeplock {
  locked : Z;
  lkpid : Z;
}.

Definition initsleeplock : sleeplock := Sleeplock 0 0.

(** The test of the [while] loop and, once it fails, the rest. *)
Definition acquiresleep (pid : Z) (lk : sleeplock) : option sleeplock :=
  if ctrue (locked lk) then None else Some (Sleeplock 1 pid).

Definition releasesleep (lk : sleeplock) : sleeplock := Sleeplock 0 0.

Definition holdingsleep (pid : Z) (lk : sleeplock) : bool :=
  ctrue (locked lk) && (lkpid lk =? pid).

Lemma acquiresleep_holding pid lk lk' :
  acquiresleep pid lk = Some lk' -> holdingsleep pid lk' = true.
Proof.
  unfold acquiresleep. destruct (ctrue _); [done|]. intros [= <-].
  unfold holdingsleep. simpl. by rewrite Z.eqb_refl.
Qed.
