(* ===== verification/Bio.v ===== *)
(** The buffer cache, [kernel/bio.c].

    The cache is the array [bcache.buf] with the list head [bcache.head]
    behind it; a pointer to a buffer is its index, [HEAD] the list head.  The
    doubly linked LRU list is kept in the [prev] and [next] fields as in the
    source.  [disk_rw] is what [virtio_disk_rw] achieves (see [Virtio]); the
    writes are also kept in order, for reasoning about crashes. *)

From stdpp Require Import gmap.
From S2P Require Import Prelude Layout Sleeplock.

Definition NBUF : nat := 30.
Definition HEAD : nat := NBUF.
Definition BSIZE : Z := 1024.

Record buf : Type := Buf {
  b_valid : Z;
  b_dev : Z;
  b_blockno : Z;
  b_lock : sleeplock;
  b_refcnt : Z;
  b_prev : nat;
  b_next : nat;
  b_data : list Z;
}.

Definition set_valid v b := Buf v (b_dev b) (b_blockno b) (b_lock b) (b_refcnt b) (b_prev b) (b_next b) (b_data b).
Definition set_dev v b := Buf (b_valid b) v (b_blockno b) (b_lock b) (b_refcnt b) (b_prev b) (b_next b) (b_data b).
Definition set_blockno v b := Buf (b_valid b) (b_dev b) v (b_lock b) (b_refcnt b) (b_prev b) (b_next b) (b_data b).
Definition set_lock v b := Buf (b_valid b) (b_dev b) (b_blockno b) v (b_refcnt b) (b_prev b) (b_next b) (b_data b).
Definition set_refcnt v b := Buf (b_valid b) (b_dev b) (b_blockno b) (b_lock b) v (b_prev b) (b_next b) (b_data b).
Definition set_prev v b := Buf (b_valid b) (b_dev b) (b_blockno b) (b_lock b) (b_refcnt b) v (b_next b) (b_data b).
Definition set_next v b := Buf (b_valid b) (b_dev b) (b_blockno b) (b_lock b) (b_refcnt b) (b_prev b) v (b_data b).
Definition set_data v b := Buf (b_valid b) (b_dev b) (b_blockno b) (b_lock b) (b_refcnt b) (b_prev b) (b_next b) v.

(** The state: the buffers, the disk by block number, the disk writes so far
    (oldest first), the pid of the running process. *)
Record bio : Type := Bio {
  bufs : nat -> buf;
  disk : Z -> list Z;
  writes : list (Z * list Z);
  curpid : Z;
}.

Definition upd {A} (f : nat -> A) (i : nat) (g : A -> A) : nat -> A :=
  fun j => if decide (j = i) then g (f j) else f j.

(** An assignment to a field of buffer [b]. *)
Definition set_buf (b : nat) (g : buf -> buf) (s : bio) : bio :=
  Bio (upd (bufs s) b g) (disk s) (writes s) (curpid s).

Definition write_disk (n : Z) (d : list Z) (s : bio) : bio :=
  Bio (bufs s) (fun k => if k =? n then d else disk s k) (writes s ++ [(n, d)]) (curpid s).

Definition disk_rw (b : nat) (write : bool) : M bio unit :=
  bb ← gets (fun s => bufs s b);
  if write
  then modify (write_disk (b_blockno bb) (b_data bb))
  else modify (fun s => set_buf b (set_data (disk s (b_blockno bb))) s).

(** * Operations *)

(** The body of the loop of [binit]. *)
Definition binit_body (b : nat) : M bio unit :=
  first ← gets (fun s => b_next (bufs s HEAD));
  modify (set_buf b (set_next first));;
  modify (set_buf b (set_prev HEAD));;
  modify (set_buf b (set_lock initsleeplock));;
  modify (set_buf first (set_prev b));;
  modify (set_buf HEAD (set_next b)).

Fixpoint binit_loop (n : nat) (b : nat) : M bio unit :=
  match n with
  | O => mret tt
  | S n' => binit_body b;; binit_loop n' (S b)
  end.

Definition binit : M bio unit :=
  modify (set_buf HEAD (set_prev HEAD));;
  modify (set_buf HEAD (set_next HEAD));;
  binit_loop NBUF 0.

Definition acquiresleep_buf (b : nat) : M bio unit :=
  r ← gets (fun s => acquiresleep (curpid s) (b_lock (bufs s b)));
  match r with
  | None => sleep_on (ChanSleeplockBuf b)
  | Some lk => modify (set_buf b (set_lock lk))
  end.

(** The first loop of [bget]: [Some b] for a hit. *)
Fixpoint bget_hit (fuel : nat) (dv bn : Z) (b : nat) : M bio (option nat) :=
  match fuel with
  | O => nofuel
  | S fuel' =>
      if decide (b = HEAD) then mret None
      else
        bb ← gets (fun s => bufs s b);
        if (b_dev bb =? dv) && (b_blockno bb =? bn) then mret (Some b)
        else bget_hit fuel' dv bn (b_next bb)
  end.

(** The second loop: the least recently used free buffer. *)
Fixpoint bget_free (fuel : nat) (b : nat) : M bio (option nat) :=
  match fuel with
  | O => nofuel
  | S fuel' =>
      if decide (b = HEAD) then mret None
      else
        bb ← gets (fun s => bufs s b);
        if b_refcnt bb =? 0 then mret (Some b)
        else bget_free fuel' (b_prev bb)
  end.

Definition bget (dv bn : Z) : M bio nat :=
  first ← gets (fun s => b_next (bufs s HEAD));
  hit ← bget_hit (S NBUF) dv bn first;
  match hit with
  | Some b =>
      modify (set_buf b (fun bb => set_refcnt (u32 (b_refcnt bb + 1)) bb));;
      acquiresleep_buf b;;
      mret b
  | None =>
      last ← gets (fun s => b_prev (bufs s HEAD));
      free ← bget_free (S NBUF) last;
      match free with
      | Some b =>
          modify (set_buf b (set_dev dv));;
          modify (set_buf b (set_blockno bn));;
          modify (set_buf b (set_valid 0));;
          modify (set_buf b (set_refcnt 1));;
          acquiresleep_buf b;;
          mret b
      | None => panic "no buffers"
      end
  end.

Definition bread (dv bn : Z) : M bio nat :=
  b ← bget dv bn;
  v ← gets (fun s => b_valid (bufs s b));
  when (v =? 0) (
    disk_rw b false;;
    modify (set_buf b (set_valid 1)));;
  mret b.

Definition holdingsleep_buf (b : nat) : M bio bool :=
  gets (fun s => holdingsleep (curpid s) (b_lock (bufs s b))).

Definition bwrite (b : nat) : M bio unit :=
  h ← holdingsleep_buf b;
  if negb h then panic "bwrite" else disk_rw b true.

Definition brelse (b : nat) : M bio unit :=
  h ← holdingsleep_buf b;
  if negb h then panic "brelse"
  else
    modify (set_buf b (fun bb => set_lock (releasesleep (b_lock bb)) bb));;
    modify (set_buf b (fun bb => set_refcnt (u32 (b_refcnt bb - 1)) bb));;
    r ← gets (fun s => b_refcnt (bufs s b));
    when (r =? 0) (
      bb ← gets (fun s => bufs s b);
      modify (set_buf (b_next bb) (set_prev (b_prev bb)));;
      bb ← gets (fun s => bufs s b);
      modify (set_buf (b_prev bb) (set_next (b_next bb)));;
      first ← gets (fun s => b_next (bufs s HEAD));
      modify (set_buf b (set_next first));;
      modify (set_buf b (set_prev HEAD));;
      first ← gets (fun s => b_next (bufs s HEAD));
      modify (set_buf first (set_prev b));;
      modify (set_buf HEAD (set_next b))).

Definition bpin (b : nat) : M bio unit :=
  modify (set_buf b (fun bb => set_refcnt (u32 (b_refcnt bb + 1)) bb)).

Definition bunpin (b : nat) : M bio unit :=
  modify (set_buf b (fun bb => set_refcnt (u32 (b_refcnt bb - 1)) bb)).

(** [b->data] changed by the holder. *)
Definition put_data (b : nat) (d : list Z) : M bio unit := modify (set_buf b (set_data d)).

(** * The LRU list *)

(** [lseg nx pv x l y]: following [next] from [x] one meets [l] and then [y],
    and [prev] leads back. *)
Fixpoint lseg (nx pv : nat -> nat) (x : nat) (l : list nat) (y : nat) : Prop :=
  match l with
  | [] => nx x = y /\ pv y = x
  | z :: l' => nx x = z /\ pv z = x /\ lseg nx pv z l' y
  end.

Lemma lseg_app nx pv x l z l' y :
  lseg nx pv x (l ++ z :: l') y <-> lseg nx pv x l z /\ lseg nx pv z l' y.
Proof.
  revert x. induction l as [|w l IH]; intros x; simpl; [tauto|]. rewrite IH. tauto.
Qed.

Lemma lseg_ext nx pv nx' pv' x l y :
  (forall z, z = x \/ z ∈ l -> nx' z = nx z) -> (forall z, z ∈ l \/ z = y -> pv' z = pv z) ->
  lseg nx pv x l y -> lseg nx' pv' x l y.
Proof.
  revert x. induction l as [|w l IH]; intros x Hn Hp; simpl.
  - intros [E1 E2]. rewrite Hn, Hp by auto. done.
  - intros (E1 & E2 & H). rewrite Hn, Hp by (auto || left; left). split_and!; [done|done|].
    apply IH; [| |done].
    + intros z [->|Hz]; apply Hn; right; [left|by right].
    + intros z [Hz|Hz]; apply Hp; [left; by right|by right].
Qed.

Lemma lseg_last nx pv x l y : lseg nx pv x l y -> pv y = x \/ pv y ∈ l.
Proof.
  revert x. induction l as [|w l IH]; intros x; simpl; [naive_solver|].
  intros (_ & _ & H). right. destruct (IH w H) as [->|]; [left|by right].
Qed.

Lemma lseg_first nx pv x l y : lseg nx pv x l y -> nx x ∈ l \/ nx x = y.
Proof. destruct l; simpl; [naive_solver|]. intros (-> & _). left. left. Qed.

Lemma upd_eq {A} (f : nat -> A) i g : upd f i g i = g (f i).
Proof. unfold upd. by rewrite decide_True. Qed.

Lemma upd_ne {A} (f : nat -> A) i g j : j <> i -> upd f i g j = f j.
Proof. intros. unfold upd. by rewrite decide_False. Qed.

(** Membership in short lists. *)
Ltac mem :=
  repeat (rewrite ?not_elem_of_app, ?not_elem_of_cons, ?elem_of_app, ?elem_of_cons in * );
  intuition congruence.

(** Unlinking [b]. *)
Lemma lseg_unlink nx pv x l1 b l2 y :
  NoDup (l1 ++ l2) -> x ∉ l1 ++ l2 -> y ∉ l1 ++ l2 ->
  lseg nx pv x l1 b -> lseg nx pv b l2 y ->
  lseg (upd nx (pv b) (fun _ => nx b)) (upd pv (nx b) (fun _ => pv b)) x (l1 ++ l2) y.
Proof.
  intros Hnd Hx Hy H1 H2. revert x Hx H1.
  induction l1 as [|w l1 IH]; intros x Hx H1; simpl in *.
  - destruct H1 as [Ex Eb]. rewrite Eb. destruct l2 as [|z l2]; simpl in *.
    + destruct H2 as [-> _]. by rewrite !upd_eq.
    + destruct H2 as (-> & _ & H2). rewrite !upd_eq. split_and!; [done|done|].
      apply NoDup_cons in Hnd as [Hz _]. eapply lseg_ext; [| |exact H2].
      * intros u Hu. apply upd_ne. mem.
      * intros u Hu. apply upd_ne. mem.
  - destruct H1 as (Ex & Ew & H1). apply NoDup_cons in Hnd as [Hw Hnd].
    rewrite !upd_ne; [split_and!; [done|done|]|..].
    + apply IH; mem.
    + pose proof (lseg_first _ _ _ _ _ H2). mem.
    + pose proof (lseg_last _ _ _ _ _ H1). mem.
Qed.

(** Linking [b] in behind the head. *)
Lemma lseg_push nx pv h b l :
  NoDup l -> h ∉ l -> b ∉ l -> b <> h -> lseg nx pv h l h ->
  lseg (upd (upd nx b (fun _ => nx h)) h (fun _ => b))
       (upd (upd pv b (fun _ => h)) (nx h) (fun _ => b)) h (b :: l) h.
Proof.
  intros Hnd Hh Hb Hbh H. pose proof (lseg_first _ _ _ _ _ H) as Hf. cbn [lseg].
  rewrite upd_eq, (upd_ne _ (nx h)), upd_eq by mem. split_and!; [done|done|].
  destruct l as [|z l]; simpl in *.
  - destruct H as [-> _]. by rewrite (upd_ne _ h), !upd_eq by done.
  - destruct H as (-> & _ & H). rewrite (upd_ne _ h), !upd_eq by done. split_and!; [done|done|].
    apply NoDup_cons in Hnd as [Hz _]. eapply lseg_ext; [| |exact H].
    + intros u Hu. rewrite !upd_ne by mem. done.
    + intros u Hu. rewrite !upd_ne by mem. done.
Qed.

Definition nx (s : bio) (b : nat) : nat := b_next (bufs s b).
Definition pv (s : bio) (b : nat) : nat := b_prev (bufs s b).

Lemma upd_same {A B} (p : A -> B) (f : nat -> A) i g j :
  (forall a, p (g a) = p a) -> p (upd f i g j) = p (f j).
Proof. intros H. unfold upd. case_decide; [apply H|done]. Qed.

Definition is_block (s : bio) (dv bn : Z) (b : nat) : bool :=
  (b_dev (bufs s b) =? dv) && (b_blockno (bufs s b) =? bn).

(** The loops of [bget] search the LRU list from its front and its back. *)
Lemma bget_hit_find s dv bn x l fuel :
  lseg (nx s) (pv s) x l HEAD -> HEAD ∉ l -> (length l < fuel)%nat ->
  bget_hit fuel dv bn (nx s x) s = Ok (find (is_block s dv bn) l) s.
Proof.
  revert x fuel. induction l as [|b l IH]; intros x [|fuel] H Hh Hf; simpl in *; try lia.
  - destruct H as [-> _]. done.
  - destruct H as (-> & _ & H). apply not_elem_of_cons in Hh as [Hb Hh].
    rewrite decide_False by done. unfold mbind, M_bind, gets, is_block.
    destruct (_ && _); [done|]. apply (IH b); [done|done|lia].
Qed.

Lemma bget_free_find s x l y fuel :
  lseg (nx s) (pv s) x l y -> x = HEAD -> HEAD ∉ l -> (length l < fuel)%nat ->
  bget_free fuel (pv s y) s = Ok (find (fun b => b_refcnt (bufs s b) =? 0) (reverse l)) s.
Proof.
  intros H -> Hh. revert y fuel H. induction l as [|b l IH] using rev_ind; intros y [|fuel] H Hf; try lia.
  - destruct H as [_ ->]. done.
  - apply lseg_app in H as [H1 [_ ->]]. rewrite reverse_app. cbn [reverse rev_append app find].
    rewrite length_app in Hf. simpl in Hf. cbn [bget_free].
    assert (b <> HEAD /\ HEAD ∉ l) as [Hb Hh'] by mem. rewrite decide_False by done.
    unfold mbind, M_bind, gets. simpl. destruct (_ =? 0); [done|]. apply IH; [done|done|lia].
Qed.

(** * What the cache promises

    The abstract state: the contents of each block as its users see it, the
    contents on disk, the blocks held (by buffer), the blocks pinned. *)

Record abio : Type := ABio {
  av : Z -> list Z;
  ad : Z -> list Z;
  held : gmap nat Z;
  pins : gset Z;
}.

Definition is_held (a : abio) (n : Z) : Prop := exists b, held a !! b = Some n.

(** Buffer [b] is the buffer of block [n]. *)
Definition caches (s : bio) (n : Z) (b : nat) : Prop :=
  b_dev (bufs s b) = ROOTDEV /\ b_blockno (bufs s b) = n.

Record bio_rep (s : bio) (a : abio) (order : list nat) : Prop := {
  br_ring : lseg (nx s) (pv s) HEAD order HEAD;
  br_perm : order ≡ₚ seq 0 NBUF;
  br_disk : forall n, disk s n = ad a n;
  br_dev : forall b, (b < NBUF)%nat -> b_dev (bufs s b) = 0 \/ b_dev (bufs s b) = ROOTDEV;
  br_uniq : forall b b' n, (b < NBUF)%nat -> (b' < NBUF)%nat ->
    caches s n b -> caches s n b' -> b = b';
  br_held : forall b n, held a !! b = Some n -> (b < NBUF)%nat /\ caches s n b /\
    b_valid (bufs s b) <> 0 /\ b_lock (bufs s b) = Sleeplock 1 (curpid s);
  br_unheld : forall b, (b < NBUF)%nat -> held a !! b = None ->
    b_lock (bufs s b) = Sleeplock 0 0;
  br_ref : forall b, (b < NBUF)%nat -> b_refcnt (bufs s b) =
    (if decide (is_Some (held a !! b)) then 1 else 0) +
    (if decide (b_dev (bufs s b) = ROOTDEV /\ b_blockno (bufs s b) ∈ pins a) then 1 else 0);
  br_pin : forall n, n ∈ pins a -> exists b, (b < NBUF)%nat /\ caches s n b /\
    b_valid (bufs s b) <> 0;
  br_data : forall b n, (b < NBUF)%nat -> caches s n b -> b_valid (bufs s b) <> 0 ->
    b_data (bufs s b) = av a n;
  br_clean : forall n, n ∉ pins a -> ~ is_held a n -> av a n = ad a n;
}.

Lemma is_block_caches s n b : (is_block s ROOTDEV n b = true) <-> caches s n b.
Proof. unfold is_block, caches. rewrite andb_true_iff, !Z.eqb_eq. done. Qed.

Lemma order_NoDup s a order : bio_rep s a order ->
  NoDup order /\ (HEAD ∉ order) /\ (length order = NBUF) /\ forall b, b ∈ order <-> (b < NBUF)%nat.
Proof.
  intros H. pose proof (br_perm _ _ _ H) as Hp. split_and!.
  - rewrite Hp. apply NoDup_ListNoDup, seq_NoDup.
  - rewrite Hp, elem_of_seq. unfold HEAD. lia.
  - by rewrite Hp, length_seq.
  - intros b. rewrite Hp, elem_of_seq. lia.
Qed.

Definition hold (b : nat) (n : Z) (a : abio) : abio := ABio (av a) (ad a) (<[b := n]> (held a)) (pins a).

Lemma ring_same s s' l :
  (forall x, nx s' x = nx s x) -> (forall x, pv s' x = pv s x) ->
  lseg (nx s) (pv s) HEAD l HEAD -> lseg (nx s') (pv s') HEAD l HEAD.
Proof. intros Hn Hp. apply lseg_ext; auto. Qed.

Lemma caches_same s s' n b : bufs s' b = bufs s b -> caches s' n b <-> caches s n b.
Proof. unfold caches. by intros ->. Qed.

Lemma held_inj s a order b b' n :
  bio_rep s a order -> held a !! b = Some n -> held a !! b' = Some n -> b = b'.
Proof.
  intros H Hb Hb'. destruct (br_held _ _ _ H _ _ Hb) as (? & ? & _), (br_held _ _ _ H _ _ Hb') as (? & ? & _).
  by eapply br_uniq.
Qed.

(** Buffer [b] taken for block [n], whether it was the block's buffer already
    or a recycled one. *)
Lemma bio_rep_hold s s' a order b n :
  bio_rep s a order -> (b < NBUF)%nat -> held a !! b = None -> ~ is_held a n ->
  caches s n b \/ (b_refcnt (bufs s b) = 0 /\ forall b', (b' < NBUF)%nat -> ~ caches s n b') ->
  (forall x, x <> b -> bufs s' x = bufs s x) -> nx s' b = nx s b -> pv s' b = pv s b ->
  (forall k, disk s' k = disk s k) -> curpid s' = curpid s ->
  caches s' n b -> b_valid (bufs s' b) <> 0 -> b_lock (bufs s' b) = Sleeplock 1 (curpid s) ->
  b_data (bufs s' b) = av a n -> b_refcnt (bufs s' b) = 1 + (if decide (n ∈ pins a) then 1 else 0) ->
  bio_rep s' (hold b n a) order.
Proof.
  intros H Hb Hbh Hnh Hcase Hx Hnx Hpv Hd Hpid Hc Hv Hl Hdata Href.
  assert (Hun : forall b' m, (b' < NBUF)%nat -> b' <> b -> caches s' m b' -> m <> n).
  { intros b' m Hb' Hne Hm ->. apply (caches_same s s' n b' (Hx _ Hne)) in Hm.
    destruct Hcase as [Hcb|[_ Hno]]; [|by eapply Hno]. by destruct Hne; eapply (br_uniq _ _ _ H). }
  split; simpl.
  - apply (ring_same s); [| |apply H]; intros x; destruct (decide (x = b)) as [->|Hne]; try done;
      unfold nx, pv; by rewrite Hx.
  - apply H.
  - intros k. rewrite Hd. apply H.
  - intros x Hxn. destruct (decide (x = b)) as [->|Hne]; [right; apply Hc|].
    rewrite Hx by done. by apply (br_dev _ _ _ H).
  - intros x y m Hxn Hyn Hxc Hyc.
    destruct (decide (x = b)) as [->|Hxb], (decide (y = b)) as [->|Hyb]; [done|..].
    + assert (m = n) by (destruct Hc, Hxc; congruence). by destruct (Hun y m Hyn Hyb Hyc).
    + assert (m = n) by (destruct Hc, Hyc; congruence). by destruct (Hun x m Hxn Hxb Hxc).
    + apply (caches_same s s' m x (Hx _ Hxb)) in Hxc. apply (caches_same s s' m y (Hx _ Hyb)) in Hyc.
      by eapply (br_uniq _ _ _ H).
  - intros x m [[<- <-]|[Hne Hm]]%lookup_insert_Some; [by rewrite Hpid|].
    unfold caches. rewrite Hx, Hpid by done. by apply (br_held _ _ _ H).
  - intros x Hxn [Hm Hne]%lookup_insert_None. rewrite Hx by done. by apply (br_unheld _ _ _ H).
  - intros x Hxn. destruct (decide (x = b)) as [->|Hne].
    + rewrite Href, lookup_insert_eq, (decide_True (P := is_Some _)) by done. f_equal.
      destruct Hc as [-> ->]. do 2 case_decide; tauto.
    + rewrite lookup_insert_ne, Hx by done. by apply (br_ref _ _ _ H).
  - intros m Hm. destruct (decide (m = n)) as [->|Hmn]; [by exists b|].
    destruct (br_pin _ _ _ H m Hm) as (b' & Hb' & Hc' & Hv'). exists b'.
    assert (b' <> b).
    { intros ->. destruct Hcase as [[_ ?]|[Hr0 _]]; [destruct Hc'; congruence|].
      rewrite (br_ref _ _ _ H b Hb), Hbh in Hr0. destruct Hc' as [E1 E2].
      rewrite (decide_True (P := _ /\ _)) in Hr0 by (split; [done|by rewrite E2]).
      clear Href. case_decide; lia. }
    unfold caches. by rewrite Hx.
  - intros x m Hxn Hxc Hxv. destruct (decide (x = b)) as [->|Hne].
    + assert (m = n) as -> by (destruct Hc, Hxc; congruence). done.
    + rewrite Hx in Hxv |- * by done. apply (br_data _ _ _ H); [done| |done].
      by apply (caches_same s s' m x (Hx _ Hne)).
  - intros m Hm Hmh. apply (br_clean _ _ _ H); [done|]. intros [b' Hb']. apply Hmh. exists b'.
    simpl. rewrite lookup_insert_ne; [done|congruence].
Qed.

Definition busy (a : abio) : gset Z := pins a ∪ map_img (held a).

Lemma ref_zero s a order b :
  bio_rep s a order -> (b < NBUF)%nat -> b_refcnt (bufs s b) = 0 ->
  held a !! b = None /\ forall n, caches s n b -> n ∉ pins a.
Proof.
  intros H Hb Hr. rewrite (br_ref _ _ _ H b Hb) in Hr.
  destruct (decide (is_Some (held a !! b))) as [?|Hn]; [case_decide; lia|].
  split; [by apply eq_None_not_Some|]. intros n [E1 E2] Hp. rewrite decide_True in Hr; [lia|].
  by rewrite E2.
Qed.

Lemma ref_nonzero s a order b :
  bio_rep s a order -> (b < NBUF)%nat -> b_refcnt (bufs s b) <> 0 ->
  caches s (b_blockno (bufs s b)) b /\ b_blockno (bufs s b) ∈ busy a.
Proof.
  intros H Hb Hr. rewrite (br_ref _ _ _ H b Hb) in Hr. unfold busy. rewrite elem_of_union, elem_of_map_img.
  destruct (decide (is_Some (held a !! b))) as [[m Hm]|Hn].
  - destruct (br_held _ _ _ H _ _ Hm) as (_ & [E1 E2] & _). split; [done|]. right. exists b. by rewrite E2.
  - case_decide as E; [|lia]. destruct E as [E1 E2]. split; [done|by left].
Qed.

(** Fewer busy blocks than buffers: some buffer can be recycled. *)
Lemma free_exists s a order :
  bio_rep s a order -> (size (busy a) < NBUF)%nat ->
  exists b, (b < NBUF)%nat /\ b_refcnt (bufs s b) = 0.
Proof.
  intros H Hsz. destruct (decide (Exists (fun b => b_refcnt (bufs s b) = 0) (seq 0 NBUF))) as [E|E].
  { apply Exists_exists in E as (b & Hb & E). apply elem_of_seq in Hb. exists b. split; [lia|done]. }
  exfalso. apply not_Exists_Forall in E; [|intros b; apply _]. rewrite Forall_forall in E.
  assert (Hr : forall b, b ∈ seq 0 NBUF -> (b < NBUF)%nat /\ b_refcnt (bufs s b) <> 0).
  { intros b Hb. split; [apply elem_of_seq in Hb; lia|by apply E]. }
  assert (((fun b => b_blockno (bufs s b)) <$> seq 0 NBUF) ⊆+ elements (busy a)) as Hsub%submseteq_length.
  { apply NoDup_submseteq.
    - apply NoDup_fmap_2_strong; [|apply NoDup_ListNoDup, seq_NoDup]. intros b b' Hb Hb' Eb.
      destruct (Hr b Hb), (Hr b' Hb'). eapply (br_uniq _ _ _ H b b'); [done|done| |].
      + by apply (ref_nonzero s a order b H).
      + rewrite Eb. by apply (ref_nonzero s a order b' H).
    - intros n (b & -> & Hb)%list_elem_of_fmap. destruct (Hr b Hb). apply elem_of_elements.
      by apply (ref_nonzero s a order b H). }
  rewrite length_fmap, length_seq in Hsub. unfold size, set_size in Hsz. simpl in *. lia.
Qed.

(** The last part of [bread]: the buffer filled if it is not valid. *)
Lemma bread_fill s a order b n s1 :
  bio_rep s a order -> (b < NBUF)%nat -> held a !! b = None -> ~ is_held a n ->
  caches s n b \/ (b_refcnt (bufs s b) = 0 /\ forall b', (b' < NBUF)%nat -> ~ caches s n b') ->
  (forall x, x <> b -> bufs s1 x = bufs s x) -> nx s1 b = nx s b -> pv s1 b = pv s b ->
  disk s1 = disk s -> curpid s1 = curpid s -> writes s1 = writes s ->
  caches s1 n b -> b_lock (bufs s1 b) = Sleeplock 1 (curpid s) ->
  b_refcnt (bufs s1 b) = 1 + (if decide (n ∈ pins a) then 1 else 0) ->
  (b_valid (bufs s1 b) <> 0 -> b_data (bufs s1 b) = av a n) ->
  (b_valid (bufs s1 b) = 0 -> n ∉ pins a) ->
  wp (v ← gets (fun s => b_valid (bufs s b));
      when (v =? 0) (disk_rw b false;; modify (set_buf b (set_valid 1)));;
      mret b) s1 (fun b' s' => held a !! b' = None /\
    bio_rep s' (hold b' n a) order /\ writes s' = writes s /\ curpid s' = curpid s).
Proof.
  intros H Hb Hbh Hnh Hcase Hx Hnx Hpv Hd Hpid Hw Hc Hl Hr Hv1 Hv0.
  apply wp_bind, wp_gets, wp_bind. destruct (Z.eqb_spec (b_valid (bufs s1 b)) 0) as [E|E]; cbn [when].
  - unfold disk_rw. apply wp_bind, wp_bind, wp_gets, wp_modify, wp_modify, wp_ret.
    split_and!; [done| |done|done]. destruct Hc as [Hc1 Hc2].
    eapply (bio_rep_hold s); try done; simpl.
    + intros x Hne. rewrite !upd_ne by done. by apply Hx.
    + unfold nx. simpl. by rewrite !upd_eq.
    + unfold pv. simpl. by rewrite !upd_eq.
    + intros k. by rewrite Hd.
    + split; simpl; by rewrite !upd_eq.
    + by rewrite !upd_eq.
    + by rewrite !upd_eq.
    + rewrite !upd_eq. simpl. rewrite Hc2, Hd, (br_disk _ _ _ H). symmetry.
      apply (br_clean _ _ _ H); [by apply Hv0|done].
    + by rewrite !upd_eq.
  - apply wp_ret, wp_ret. split_and!; [done| |done|done].
    eapply (bio_rep_hold s); try done; [|by apply Hv1]. intros k. by rewrite Hd.
Qed.

(** [bread] returns the block's current contents in a buffer of its own,
    locked by the caller; nothing a client can see changes otherwise. *)
Lemma bread_ok s a order n :
  bio_rep s a order -> ~ is_held a n -> n ∈ pins a \/ (size (busy a) < NBUF)%nat ->
  wp (bread ROOTDEV n) s (fun b s' => held a !! b = None /\
    bio_rep s' (hold b n a) order /\ writes s' = writes s /\ curpid s' = curpid s).
Proof.
  intros H Hnh Hroom. destruct (order_NoDup s a order H) as (Hnd & Hh & Hlen & Hin).
  unfold bread, bget. apply wp_bind, wp_bind, wp_gets. fold (nx s HEAD). apply wp_bind.
  eapply wp_ok; [apply (bget_hit_find s _ _ HEAD order); [apply H|done|lia]|].
  destruct (find (is_block s ROOTDEV n) order) as [b|] eqn:E.
  - apply find_some in E as [Hb Hc%is_block_caches].
    assert (Hbn : (b < NBUF)%nat) by (by apply Hin, list_elem_of_In).
    assert (Hbh : held a !! b = None).
    { destruct (held a !! b) as [m|] eqn:Em; [|done]. destruct Hnh. exists b.
      destruct (br_held _ _ _ H _ _ Em) as (_ & [_ E2] & _). rewrite Em. f_equal. rewrite <- E2. apply Hc. }
    pose proof (br_ref _ _ _ H b Hbn) as Hr. rewrite Hbh, decide_False in Hr by (by intros [? ?]).
    apply wp_bind, wp_modify. unfold acquiresleep_buf. apply wp_bind, wp_bind, wp_gets. simpl.
    rewrite upd_eq. simpl. rewrite (br_unheld _ _ _ H b Hbn Hbh). cbn [acquiresleep locked ctrue Z.eqb negb].
    apply wp_modify, wp_ret. eapply (bread_fill s a order b n); try done; try by left.
    all: unfold nx, pv, caches; simpl; rewrite ?upd_eq; simpl; try done.
    + intros x Hne. by rewrite !upd_ne.
    + destruct Hc as [-> ->] in Hr. rewrite Hr. do 2 case_decide; try done; tauto.
    + intros Hv. by apply (br_data _ _ _ H).
    + intros Hv Hp. destruct (br_pin _ _ _ H n Hp) as (b' & Hb' & Hc' & Hv').
      assert (b = b') as <- by (by eapply (br_uniq _ _ _ H)). done.
  - assert (Hmiss : forall b', (b' < NBUF)%nat -> ~ caches s n b').
    { intros b' Hb' Hc'%is_block_caches. apply Hin, list_elem_of_In in Hb'.
      apply (find_none _ _ E) in Hb'. congruence. }
    assert (Hnp : n ∉ pins a).
    { intros Hp. destruct (br_pin _ _ _ H n Hp) as (b' & Hb' & Hc' & _). by apply (Hmiss b'). }
    destruct Hroom as [?|Hroom]; [done|].
    apply wp_bind, wp_gets. fold (pv s HEAD). apply wp_bind.
    eapply wp_ok; [apply (bget_free_find s HEAD order HEAD); [apply H|done|done|lia]|].
    destruct (find _ (reverse order)) as [b|] eqn:Ef.
    2:{ exfalso. destruct (free_exists s a order H Hroom) as (b & Hb & Hr).
        assert (Hb' : In b (reverse order)) by (by apply list_elem_of_In, elem_of_reverse, Hin).
        apply (find_none _ _ Ef) in Hb'. by rewrite Hr in Hb'. }
    apply find_some in Ef as [Hb Hr%Z.eqb_eq].
    assert (Hbn : (b < NBUF)%nat) by (by apply Hin, elem_of_reverse, list_elem_of_In).
    destruct (ref_zero s a order b H Hbn Hr) as [Hbh _].
    do 4 (apply wp_bind, wp_modify). unfold acquiresleep_buf. apply wp_bind, wp_bind, wp_gets. simpl.
    rewrite !upd_eq. simpl. rewrite (br_unheld _ _ _ H b Hbn Hbh). cbn [acquiresleep locked ctrue Z.eqb negb].
    apply wp_modify, wp_ret. eapply (bread_fill s a order b n); try done; try by right.
    all: unfold nx, pv, caches; simpl; rewrite ?upd_eq; simpl; try done.
    + intros x Hne. by rewrite !upd_ne.
    + by rewrite decide_False.
Qed.

(** * The other operations *)

(** A change to the held buffer [b] of block [n] that keeps its identity. *)
Lemma bio_rep_edit s s' a a' order b n :
  bio_rep s a order -> held a !! b = Some n ->
  (forall x, x <> b -> bufs s' x = bufs s x) ->
  b_dev (bufs s' b) = b_dev (bufs s b) -> b_blockno (bufs s' b) = b_blockno (bufs s b) ->
  b_valid (bufs s' b) = b_valid (bufs s b) -> nx s' b = nx s b -> pv s' b = pv s b ->
  curpid s' = curpid s -> (forall k, disk s' k = ad a' k) ->
  (forall x, x <> b -> held a' !! x = held a !! x) ->
  (held a' !! b = Some n /\ b_lock (bufs s' b) = Sleeplock 1 (curpid s)) \/
  (held a' !! b = None /\ b_lock (bufs s' b) = Sleeplock 0 0) ->
  (forall k, k <> n -> k ∈ pins a' <-> k ∈ pins a) ->
  b_refcnt (bufs s' b) = (if decide (is_Some (held a' !! b)) then 1 else 0) +
    (if decide (n ∈ pins a') then 1 else 0) ->
  (forall k, k <> n -> av a' k = av a k /\ ad a' k = ad a k) -> b_data (bufs s' b) = av a' n ->
  (n ∉ pins a' -> held a' !! b = None -> av a' n = ad a' n) ->
  bio_rep s' a' order.
Proof.
  intros H Hb Hx Edev Ebn Ev Enx Epv Epid Hd Hh Hl Hp Hr Hav Hdata Hcl.
  destruct (br_held _ _ _ H _ _ Hb) as (Hbn & Hc & Hv & _).
  assert (HC : forall x k, caches s' k x <-> caches s k x).
  { intros x k. destruct (decide (x = b)) as [->|Hne]; [unfold caches; by rewrite Edev, Ebn|].
    by apply caches_same, Hx. }
  assert (HV : forall x, b_valid (bufs s' x) = b_valid (bufs s x)).
  { intros x. destruct (decide (x = b)) as [->|Hne]; [done|by rewrite Hx]. }
  assert (Hkey : forall x k, (x < NBUF)%nat -> x <> b -> caches s k x -> k <> n).
  { intros x k Hxn Hne Hk ->. by destruct Hne; eapply (br_uniq _ _ _ H). }
  split.
  - apply (ring_same s); [| |apply H]; intros x; destruct (decide (x = b)) as [->|Hne]; try done;
      unfold nx, pv; by rewrite Hx.
  - apply H.
  - done.
  - intros x Hxn. destruct (decide (x = b)) as [->|Hne]; [rewrite Edev|rewrite Hx by done];
      by apply (br_dev _ _ _ H).
  - intros x y k Hxn Hyn ?%HC ?%HC. by eapply (br_uniq _ _ _ H).
  - intros x k Hk. rewrite HC, HV, Epid. destruct (decide (x = b)) as [->|Hne].
    + destruct Hl as [[E ?]|[E _]]; simplify_eq. done.
    + rewrite Hh in Hk by done. rewrite Hx by done. by apply (br_held _ _ _ H).
  - intros x Hxn Hk. destruct (decide (x = b)) as [->|Hne].
    + destruct Hl as [[E ?]|[_ ?]]; [congruence|done].
    + rewrite Hh in Hk by done. rewrite Hx by done. by apply (br_unheld _ _ _ H).
  - intros x Hxn. destruct (decide (x = b)) as [->|Hne].
    + rewrite Hr, Edev, Ebn. clear Hr. f_equal. destruct Hc as [-> ->]. do 2 case_decide; tauto.
    + rewrite Hx, Hh, (br_ref _ _ _ H x Hxn) by done. clear Hr. f_equal.
      assert (Hiff : b_dev (bufs s x) = ROOTDEV -> b_blockno (bufs s x) ∈ pins a' <-> b_blockno (bufs s x) ∈ pins a).
      { intros E. apply Hp. by apply (Hkey x). }
      do 2 case_decide; try done; tauto.
  - intros k Hk. destruct (decide (k = n)) as [->|Hkn].
    + exists b. by rewrite HC, HV.
    + apply Hp in Hk; [|done]. destruct (br_pin _ _ _ H k Hk) as (x & ? & ? & ?). exists x. by rewrite HC, HV.
  - intros x k Hxn Hk Hxv. rewrite HC in Hk. rewrite HV in Hxv. destruct (decide (x = b)) as [->|Hne].
    + assert (k = n) as -> by (destruct Hc, Hk; congruence). done.
    + rewrite Hx by done. rewrite (proj1 (Hav k (Hkey x k Hxn Hne Hk))). by apply (br_data _ _ _ H).
  - intros k Hk Hkh. destruct (decide (k = n)) as [->|Hkn].
    + apply Hcl; [done|]. destruct Hl as [[E _]|[E _]]; [destruct Hkh; by exists b|done].
    + destruct (Hav k Hkn) as [-> ->]. apply (br_clean _ _ _ H); [by rewrite <- Hp|].
      intros [x Hxk]. apply Hkh. exists x. rewrite Hh; [done|]. intros ->. congruence.
Qed.

Definition set_av (n : Z) (d : list Z) (a : abio) : abio :=
  ABio (fun k => if k =? n then d else av a k) (ad a) (held a) (pins a).
Definition set_ad (n : Z) (d : list Z) (a : abio) : abio :=
  ABio (av a) (fun k => if k =? n then d else ad a k) (held a) (pins a).
Definition pin (n : Z) (a : abio) : abio := ABio (av a) (ad a) (held a) ({[n]} ∪ pins a).
Definition unpin (n : Z) (a : abio) : abio := ABio (av a) (ad a) (held a) (pins a ∖ {[n]}).
Definition unhold (b : nat) (a : abio) : abio := ABio (av a) (ad a) (delete b (held a)) (pins a).

Lemma held_ref s a order b n :
  bio_rep s a order -> held a !! b = Some n ->
  b_refcnt (bufs s b) = 1 + (if decide (n ∈ pins a) then 1 else 0).
Proof.
  intros H Hb. destruct (br_held _ _ _ H _ _ Hb) as (Hbn & [E1 E2] & _).
  rewrite (br_ref _ _ _ H b Hbn), Hb, (decide_True (P := is_Some _)) by done. f_equal.
  rewrite E1, E2. do 2 case_decide; tauto.
Qed.

(** The trivial side conditions of an edit of one buffer. *)
Ltac edit_tac b :=
  try done; unfold nx, pv; simpl; rewrite ?upd_eq; simpl; try done;
  try (intros ? ?; rewrite ?upd_ne by done; done).

Lemma put_data_ok s a order b n d :
  bio_rep s a order -> held a !! b = Some n ->
  wp (put_data b d) s (fun _ s' => bio_rep s' (set_av n d a) order /\
    writes s' = writes s /\ curpid s' = curpid s).
Proof.
  intros H Hb. unfold put_data. apply wp_modify. split_and!; [|done|done].
  destruct (br_held _ _ _ H _ _ Hb) as (_ & _ & _ & Hl).
  eapply (bio_rep_edit s _ a _ order b n); edit_tac b.
  - intros k. apply (br_disk _ _ _ H).
  - by left.
  - rewrite (held_ref s a order b n), Hb, (decide_True (P := is_Some _)) by done. done.
  - intros k Hk. destruct (Z.eqb_spec k n); done.
  - by rewrite Z.eqb_refl.
  - intros _ ?. congruence.
Qed.

Lemma bwrite_ok s a order b n :
  bio_rep s a order -> held a !! b = Some n ->
  wp (bwrite b) s (fun _ s' => bio_rep s' (set_ad n (av a n) a) order /\
    writes s' = writes s ++ [(n, av a n)] /\ curpid s' = curpid s).
Proof.
  intros H Hb. destruct (br_held _ _ _ H _ _ Hb) as (Hbn & Hc & Hv & Hl).
  unfold bwrite, holdingsleep_buf. apply wp_bind, wp_gets. rewrite Hl. unfold holdingsleep. simpl.
  rewrite Z.eqb_refl. cbn [negb]. unfold disk_rw. apply wp_bind, wp_gets, wp_modify.
  rewrite (br_data _ _ _ H b n Hbn Hc Hv). destruct Hc as [_ ->]. split_and!; [|done|done].
  eapply (bio_rep_edit s _ a _ order b n); edit_tac b.
  - intros k. simpl. by rewrite (br_disk _ _ _ H).
  - by left.
  - rewrite (held_ref s a order b n), Hb, (decide_True (P := is_Some _)) by done. done.
  - intros k Hk. destruct (Z.eqb_spec k n); done.
  - by apply (br_data _ _ _ H); [|apply (br_held _ _ _ H)|].
  - intros _ ?. congruence.
Qed.

Lemma bpin_ok s a order b n :
  bio_rep s a order -> held a !! b = Some n -> n ∉ pins a ->
  wp (bpin b) s (fun _ s' => bio_rep s' (pin n a) order /\ writes s' = writes s /\ curpid s' = curpid s).
Proof.
  intros H Hb Hn. destruct (br_held _ _ _ H _ _ Hb) as (Hbn & Hc & Hv & Hl).
  unfold bpin. apply wp_modify. split_and!; [|done|done].
  eapply (bio_rep_edit s _ a _ order b n); edit_tac b.
  - apply (br_disk _ _ _ H).
  - by left.
  - intros k Hk. set_solver.
  - rewrite (held_ref s a order b n), Hb, (decide_False (P := n ∈ pins a)) by done.
    rewrite !decide_True by (done || set_solver). done.
  - by apply (br_data _ _ _ H).
  - intros _ ?. congruence.
Qed.

Lemma bunpin_ok s a order b n :
  bio_rep s a order -> held a !! b = Some n -> n ∈ pins a ->
  wp (bunpin b) s (fun _ s' => bio_rep s' (unpin n a) order /\ writes s' = writes s /\ curpid s' = curpid s).
Proof.
  intros H Hb Hn. destruct (br_held _ _ _ H _ _ Hb) as (Hbn & Hc & Hv & Hl).
  unfold bunpin. apply wp_modify. split_and!; [|done|done].
  eapply (bio_rep_edit s _ a _ order b n); edit_tac b.
  - apply (br_disk _ _ _ H).
  - by left.
  - intros k Hk. set_solver.
  - rewrite (held_ref s a order b n), Hb, (decide_True (P := n ∈ pins a)) by done.
    rewrite decide_True, decide_False by (done || set_solver). done.
  - by apply (br_data _ _ _ H).
  - intros _ ?. congruence.
Qed.

(** The links may change, as long as they still form the list. *)
Lemma bio_rep_ring s s' a order order' :
  bio_rep s a order -> order' ≡ₚ order -> lseg (nx s') (pv s') HEAD order' HEAD ->
  (forall b, b_valid (bufs s' b) = b_valid (bufs s b) /\ b_dev (bufs s' b) = b_dev (bufs s b) /\
     b_blockno (bufs s' b) = b_blockno (bufs s b) /\ b_lock (bufs s' b) = b_lock (bufs s b) /\
     b_refcnt (bufs s' b) = b_refcnt (bufs s b) /\ b_data (bufs s' b) = b_data (bufs s b)) ->
  disk s' = disk s -> curpid s' = curpid s -> bio_rep s' a order'.
Proof.
  intros H Hperm Hring Hf Hd Hpid.
  assert (HC : forall x k, caches s' k x <-> caches s k x).
  { intros x k. destruct (Hf x) as (_ & E1 & E2 & _). unfold caches. by rewrite E1, E2. }
  split.
  - done.
  - rewrite Hperm. apply H.
  - intros n. rewrite Hd. apply H.
  - intros b Hb. destruct (Hf b) as (_ & -> & _). by apply H.
  - intros b b' n Hb Hb' ?%HC ?%HC. by eapply (br_uniq _ _ _ H).
  - intros b n Hb. destruct (Hf b) as (-> & _ & _ & -> & _). rewrite HC, Hpid. by apply H.
  - intros b Hb Hn. destruct (Hf b) as (_ & _ & _ & -> & _). by apply (br_unheld _ _ _ H).
  - intros b Hb. destruct (Hf b) as (_ & -> & -> & _ & -> & _). by apply (br_ref _ _ _ H).
  - intros n Hn. destruct (br_pin _ _ _ H n Hn) as (b & ? & ? & ?). exists b.
    destruct (Hf b) as (-> & _). by rewrite HC.
  - intros b n Hb Hc Hv. rewrite HC in Hc. destruct (Hf b) as (E & _ & _ & _ & _ & ->).
    rewrite E in Hv. by apply (br_data _ _ _ H).
  - apply H.
Qed.

Lemma nx_next s b v x : nx (set_buf b (set_next v) s) x = upd (nx s) b (fun _ => v) x.
Proof. unfold nx. simpl. unfold upd. by case_decide. Qed.
Lemma pv_next s b v x : pv (set_buf b (set_next v) s) x = pv s x.
Proof. unfold pv. simpl. by apply upd_same. Qed.
Lemma nx_prev s b v x : nx (set_buf b (set_prev v) s) x = nx s x.
Proof. unfold nx. simpl. by apply upd_same. Qed.
Lemma pv_prev s b v x : pv (set_buf b (set_prev v) s) x = upd (pv s) b (fun _ => v) x.
Proof. unfold pv. simpl. unfold upd. by case_decide. Qed.

Definition unlink (b : nat) (s : bio) : bio :=
  let s1 := set_buf (nx s b) (set_prev (pv s b)) s in
  set_buf (pv s1 b) (set_next (nx s1 b)) s1.

Definition push_front (b : nat) (s : bio) : bio :=
  let s1 := set_buf b (set_prev HEAD) (set_buf b (set_next (nx s HEAD)) s) in
  set_buf HEAD (set_next b) (set_buf (nx s1 HEAD) (set_prev b) s1).

Lemma unlink_ring s l1 b l2 :
  NoDup (l1 ++ b :: l2) -> HEAD ∉ l1 ++ b :: l2 -> lseg (nx s) (pv s) HEAD (l1 ++ b :: l2) HEAD ->
  lseg (nx (unlink b s)) (pv (unlink b s)) HEAD (l1 ++ l2) HEAD.
Proof.
  intros Hnd Hh H. apply lseg_app in H as [H1 H2].
  assert (Hnd' : NoDup (l1 ++ l2) /\ b ∉ l1 ++ l2).
  { rewrite <- Permutation_middle, NoDup_cons in Hnd. tauto. }
  destruct Hnd' as [Hnd' Hb]. pose proof (lseg_first _ _ _ _ _ H2) as Hf.
  assert (Hne : nx s b <> b) by mem.
  pose proof (lseg_unlink (nx s) (pv s) HEAD l1 b l2 HEAD Hnd' ltac:(mem) ltac:(mem) H1 H2) as H.
  unfold unlink. eapply lseg_ext; [| |exact H].
  - intros z _. rewrite nx_next, pv_prev, nx_prev, (upd_ne (pv s)) by congruence. unfold upd.
    case_decide; [done|apply nx_prev].
  - intros z _. by rewrite pv_next, pv_prev.
Qed.

Lemma push_front_ring s b l :
  NoDup (b :: l) -> HEAD ∉ b :: l -> lseg (nx s) (pv s) HEAD l HEAD ->
  lseg (nx (push_front b s)) (pv (push_front b s)) HEAD (b :: l) HEAD.
Proof.
  intros [Hb Hnd]%NoDup_cons Hh H. assert (Hbh : b <> HEAD /\ HEAD ∉ l) by mem. destruct Hbh as [Hbh Hhl].
  pose proof (lseg_push (nx s) (pv s) HEAD b l Hnd Hhl Hb Hbh H) as H'.
  unfold push_front. eapply lseg_ext; [| |exact H'].
  - intros z _. rewrite nx_next. unfold upd at 1 2. case_decide; [done|].
    by rewrite !nx_prev, nx_next.
  - intros z _. rewrite pv_next, pv_prev, nx_prev, nx_next, (upd_ne (nx s)) by congruence. unfold upd.
    repeat case_decide; rewrite ?pv_prev; unfold upd; repeat case_decide; try congruence.
    apply pv_next.
Qed.

(** [brelse] gives the buffer back.  The block must be pinned or on disk as
    its users see it: a clean unpinned buffer may be recycled. *)
Lemma brelse_ok s a order b n :
  bio_rep s a order -> held a !! b = Some n -> n ∈ pins a \/ av a n = ad a n ->
  wp (brelse b) s (fun _ s' => exists order', bio_rep s' (unhold b a) order' /\
    writes s' = writes s /\ curpid s' = curpid s).
Proof.
  intros H Hb Hcl. destruct (br_held _ _ _ H _ _ Hb) as (Hbn & Hc & Hv & Hl).
  unfold brelse, holdingsleep_buf. apply wp_bind, wp_gets. rewrite Hl. unfold holdingsleep. simpl.
  rewrite Z.eqb_refl. cbn [negb]. do 2 (apply wp_bind, wp_modify). apply wp_bind, wp_gets.
  set (s1 := set_buf b _ (set_buf b _ s)).
  assert (Hr1 : b_refcnt (bufs s1 b) = if decide (n ∈ pins a) then 1 else 0).
  { simpl. rewrite !upd_eq. simpl. rewrite (held_ref s a order b n H Hb). by case_decide. }
  assert (H1 : bio_rep s1 (unhold b a) order).
  { eapply (bio_rep_edit s _ a _ order b n); edit_tac b.
    - apply (br_disk _ _ _ H).
    - intros x Hne. by rewrite lookup_delete_ne.
    - right. by rewrite lookup_delete_eq.
    - rewrite (held_ref s a order b n H Hb), lookup_delete_eq, (decide_False (P := is_Some _)) by (by intros [? ?]).
      by case_decide.
    - by apply (br_data _ _ _ H).
    - intros Hn _. simpl in *. by destruct Hcl. }
  rewrite Hr1. destruct (decide (n ∈ pins a)) as [Hp|Hp]; cbn [Z.eqb when].
  { apply wp_ret. exists order. by split_and!. }
  apply (wp_ok _ _ tt (push_front b (unlink b s1))); [reflexivity|].
  destruct (order_NoDup s a order H) as (Hnd & Hh & _ & Hin).
  assert (Hbo : b ∈ order) by (by apply Hin). apply list_elem_of_split in Hbo as (l1 & l2 & ->).
  exists (b :: l1 ++ l2). split_and!; [|done|done].
  assert (Hperm : b :: l1 ++ l2 ≡ₚ l1 ++ b :: l2) by apply Permutation_middle.
  apply (bio_rep_ring s1 _ _ (l1 ++ b :: l2)); [done|done| | |done|done].
  - apply push_front_ring; [by rewrite Hperm|by rewrite Hperm|].
    apply unlink_ring; [done|done|apply H1].
  - intros x. unfold push_front, unlink. simpl. split_and!; repeat (rewrite upd_same; [|done]); done.
Qed.

(** * The initial cache *)

(** What the loop of [binit] has built after the buffers below [b]. *)
Record binit_inv (s0 s : bio) (b : nat) (l : list nat) : Prop := {
  bn_ring : lseg (nx s) (pv s) HEAD l HEAD;
  bn_list : l ≡ₚ seq 0 b;
  bn_lock : forall x, (x < b)%nat -> b_lock (bufs s x) = initsleeplock;
  bn_same : forall x, b_valid (bufs s x) = b_valid (bufs s0 x) /\
    b_dev (bufs s x) = b_dev (bufs s0 x) /\ b_refcnt (bufs s x) = b_refcnt (bufs s0 x);
  bn_disk : disk s = disk s0 /\ writes s = writes s0 /\ curpid s = curpid s0;
}.

Lemma nx_lock s b v x : nx (set_buf b (set_lock v) s) x = nx s x.
Proof. unfold nx. simpl. by apply upd_same. Qed.
Lemma pv_lock s b v x : pv (set_buf b (set_lock v) s) x = pv s x.
Proof. unfold pv. simpl. by apply upd_same. Qed.

Lemma binit_step s0 s b l :
  (b < NBUF)%nat -> binit_inv s0 s b l ->
  exists s', binit_body b s = Ok tt s' /\ binit_inv s0 s' (S b) (b :: l).
Proof.
  intros Hb [H1 H2 H3 H4 H5]. eexists. split; [reflexivity|].
  assert (Hh : (HEAD ∉ b :: l) /\ NoDup (b :: l)).
  { rewrite H2, NoDup_cons, not_elem_of_cons, !elem_of_seq. unfold HEAD.
    split_and!; [lia|lia|lia|apply NoDup_ListNoDup, seq_NoDup]. }
  destruct Hh as [Hh Hnd]. assert (Hne : b <> HEAD) by (unfold HEAD; lia).
  change (b_next (bufs s HEAD)) with (nx s HEAD). split.
  - pose proof (push_front_ring s b l Hnd Hh H1) as H. unfold push_front in H.
    rewrite nx_prev, nx_next, upd_ne in H by congruence. eapply lseg_ext; [| |exact H]; intros z _.
    + rewrite !nx_next. unfold upd. case_decide; [done|]. rewrite !nx_prev, nx_lock, nx_prev. done.
    + rewrite !pv_next, !pv_prev. unfold upd. case_decide; [done|]. by rewrite pv_lock.
  - rewrite H2, seq_S. simpl. by rewrite <- Permutation_cons_append.
  - intros x Hx. simpl. rewrite !(upd_same b_lock _ HEAD), (upd_same b_lock _ (nx s HEAD)) by done.
    destruct (decide (x = b)) as [->|Hxb]; [by rewrite upd_eq|].
    rewrite !upd_ne by done. apply H3. lia.
  - intros x. simpl. rewrite !(upd_same b_valid), !(upd_same b_dev), !(upd_same b_refcnt) by done. apply H4.
  - done.
Qed.

Lemma binit_loop_ok n s0 s b l :
  (b + n <= NBUF)%nat -> binit_inv s0 s b l ->
  wp (binit_loop n b) s (fun _ s' => exists l', binit_inv s0 s' (b + n) l').
Proof.
  revert s b l. induction n as [|n IH]; intros s b l Hb H; simpl.
  - apply wp_ret. exists l. by rewrite Nat.add_0_r.
  - destruct (binit_step s0 s b l ltac:(lia) H) as (s' & Hs' & H'). apply wp_bind.
    eapply wp_ok; [exact Hs'|]. replace (b + S n)%nat with (S b + n)%nat by lia. eapply IH; [lia|done].
Qed.

(** The cache after [binit], on a bss that is all zero: nothing is held or
    pinned and every block reads as it is on disk. *)
Lemma binit_ok s :
  (forall b, b_valid (bufs s b) = 0 /\ b_dev (bufs s b) = 0 /\ b_refcnt (bufs s b) = 0) ->
  wp binit s (fun _ s' => exists order, bio_rep s' (ABio (disk s) (disk s) ∅ ∅) order /\
    writes s' = writes s /\ curpid s' = curpid s).
Proof.
  intros Hz. unfold binit. do 2 (apply wp_bind, wp_modify). set (s1 := set_buf HEAD _ _).
  assert (H1 : binit_inv s s1 0 []).
  { split; [|done|lia| |done].
    - unfold s1. cbn [lseg]. by rewrite nx_next, pv_next, pv_prev, !upd_eq.
    - intros x. unfold s1, set_buf. cbn [bufs].
      by rewrite !(upd_same b_valid), !(upd_same b_dev), !(upd_same b_refcnt). }
  eapply wp_mono; [by eapply (binit_loop_ok NBUF s s1 0 [])|].
  intros [] s' (l & [R1 R2 R3 R4 (R5 & R6 & R7)]). exists l. split_and!; [|done|done].
  assert (Hd : forall b, b_dev (bufs s' b) = 0) by (intros b; destruct (R4 b) as (_ & -> & _); apply Hz).
  assert (Hc : forall n b, ~ caches s' n b) by (intros n b [E _]; rewrite Hd in E; done).
  split; simpl; try done.
  - intros n. by rewrite R5.
  - intros b _. left. apply Hd.
  - intros b b' n _ _ ? _. by destruct (Hc n b).
  - intros b Hb _. by apply R3.
  - intros b _. destruct (R4 b) as (_ & _ & ->). destruct (Hz b) as (_ & _ & ->).
    rewrite !decide_False; [done|set_solver|by intros [? ?]].
  - intros b n _ ? _. by destruct (Hc n b).
Qed.

(** * The cache as a sequence of clients' calls *)

(** The calls a client makes.  Buffers are named by the block they hold, as a
    client that keeps the pointers returned by [bread] does. *)
Inductive bop : Type :=
  | Bread (n : Z)
  | Bmodify (n : Z) (d : list Z)
  | Bwrite (n : Z)
  | Bpin (n : Z)
  | Bunpin (n : Z)
  | Brelse (n : Z).

Module Cache.
(** What clients may assume: every block has one current content, seen by all
    reads and changed only by its holder; the disk changes only by [Bwrite].
    A call outside the contract has no step. *)
Record state : Type := State {
  view : Z -> list Z;
  ondisk : Z -> list Z;
  inuse : gset Z;
  pinned : gset Z;
}.

Definition step (o : bop) (st : state) : option (state * list (list Z)) :=
  match o with
  | Bread n =>
      if bool_decide (n ∉ inuse st) &&
         (bool_decide (n ∈ pinned st) || bool_decide (size (pinned st ∪ inuse st) < NBUF)%nat)
      then Some (State (view st) (ondisk st) ({[n]} ∪ inuse st) (pinned st), [view st n])
      else None
  | Bmodify n d =>
      if bool_decide (n ∈ inuse st)
      then Some (State (fun k => if k =? n then d else view st k) (ondisk st) (inuse st) (pinned st), [])
      else None
  | Bwrite n =>
      if bool_decide (n ∈ inuse st)
      then Some (State (view st) (fun k => if k =? n then view st n else ondisk st k)
                   (inuse st) (pinned st), [])
      else None
  | Bpin n =>
      if bool_decide (n ∈ inuse st) && bool_decide (n ∉ pinned st)
      then Some (State (view st) (ondisk st) (inuse st) ({[n]} ∪ pinned st), [])
      else None
  | Bunpin n =>
      if bool_decide (n ∈ inuse st) && bool_decide (n ∈ pinned st)
      then Some (State (view st) (ondisk st) (inuse st) (pinned st ∖ {[n]}), [])
      else None
  | Brelse n =>
      if bool_decide (n ∈ inuse st) &&
         (bool_decide (n ∈ pinned st) || bool_decide (view st n = ondisk st n))
      then Some (State (view st) (ondisk st) (inuse st ∖ {[n]}) (pinned st), [])
      else None
  end.

Fixpoint run (ops : list bop) (st : state) : option (state * list (list Z)) :=
  match ops with
  | [] => Some (st, [])
  | o :: ops' =>
      r ← step o st;
      r' ← run ops' r.1;
      Some (r'.1, r.2 ++ r'.2)
  end.
End Cache.

(** The same calls made on the cache; [t] holds the client's buffers. *)
Definition bop_step (o : bop) (t : gmap Z nat) : M bio (gmap Z nat * list (list Z)) :=
  match o with
  | Bread n =>
      b ← bread ROOTDEV n;
      d ← gets (fun s => b_data (bufs s b));
      mret (<[n := b]> t, [d])
  | Bmodify n d => put_data (default 0%nat (t !! n)) d;; mret (t, [])
  | Bwrite n => bwrite (default 0%nat (t !! n));; mret (t, [])
  | Bpin n => bpin (default 0%nat (t !! n));; mret (t, [])
  | Bunpin n => bunpin (default 0%nat (t !! n));; mret (t, [])
  | Brelse n => brelse (default 0%nat (t !! n));; mret (delete n t, [])
  end.

Fixpoint bop_run (ops : list bop) (t : gmap Z nat) : M bio (gmap Z nat * list (list Z)) :=
  match ops with
  | [] => mret (t, [])
  | o :: ops' =>
      r ← bop_step o t;
      r' ← bop_run ops' r.1;
      mret (r'.1, r.2 ++ r'.2)
  end.

(** The cache and the client's table implement the abstract state. *)
Definition cache_rep (s : bio) (t : gmap Z nat) (st : Cache.state) : Prop :=
  exists a order, bio_rep s a order /\
    (forall n, av a n = Cache.view st n) /\ (forall n, ad a n = Cache.ondisk st n) /\
    pins a = Cache.pinned st /\ dom t = Cache.inuse st /\
    (forall b n, held a !! b = Some n <-> t !! n = Some b).

Lemma cache_busy a (t : gmap Z nat) st :
  dom t = Cache.inuse st -> pins a = Cache.pinned st ->
  (forall b n, held a !! b = Some n <-> t !! n = Some b) ->
  busy a = Cache.pinned st ∪ Cache.inuse st.
Proof.
  intros Hd Hp Ht. unfold busy. rewrite Hp. f_equal. apply set_eq. intros n.
  rewrite elem_of_map_img, <- Hd, elem_of_dom. unfold is_Some. split; intros [b Hb]; exists b; by apply Ht.
Qed.

Lemma cache_step o s t st st' out :
  cache_rep s t st -> Cache.step o st = Some (st', out) ->
  wp (bop_step o t) s (fun r s' => r.2 = out /\ cache_rep s' r.1 st').
Proof.
  intros (a & order & H & Hv & Hd & Hp & Hdom & Ht) Hstep.
  assert (Hheld : forall n, n ∈ Cache.inuse st -> exists b, t !! n = Some b /\ held a !! b = Some n).
  { intros n Hn. rewrite <- Hdom in Hn. apply elem_of_dom in Hn as [b Hb]. exists b. split; [done|]. by apply Ht. }
  destruct o as [n|n d|n|n|n|n]; simpl in Hstep; case_match eqn:E; simplify_eq; unfold bop_step.
  - apply andb_true_iff in E as [En%bool_decide_eq_true Er%orb_true_iff].
    rewrite !bool_decide_eq_true in Er. rewrite <- (cache_busy a t st Hdom Hp Ht), <- Hp in Er.
    assert (Hnh : ~ is_held a n).
    { intros [b Hb]. apply En. rewrite <- Hdom. apply elem_of_dom. exists b. by apply Ht. }
    apply wp_bind. eapply wp_mono; [by apply (bread_ok s a order n)|].
    intros b s' (Hbn & H' & _ & _). apply wp_bind, wp_gets, wp_ret.
    destruct (br_held _ _ _ H' b n (lookup_insert_eq _ _ _)) as (Hb' & Hc & Hval & _).
    split; [simpl; by rewrite (br_data _ _ _ H' b n Hb' Hc Hval), <- Hv|].
    exists (hold b n a), order. split_and!; try done; simpl; [by rewrite dom_insert_L, Hdom|].
    intros x k. rewrite !lookup_insert_Some, Ht.
    assert (t !! n = None) by (apply not_elem_of_dom; by rewrite Hdom).
    assert (forall m, t !! m <> Some b) by (intros m Hm; apply Ht in Hm; congruence).
    naive_solver.
  - apply bool_decide_eq_true in E. destruct (Hheld n E) as (b & -> & Hb). simpl.
    apply wp_bind. eapply wp_mono; [by eapply put_data_ok|]. intros [] s' (H' & _ & _). apply wp_ret.
    split; [done|]. exists (set_av n d a), order. split_and!; try done. simpl. intros k.
    case_match; [done|apply Hv].
  - apply bool_decide_eq_true in E. destruct (Hheld n E) as (b & -> & Hb). simpl.
    apply wp_bind. eapply wp_mono; [by eapply bwrite_ok|]. intros [] s' (H' & _ & _). apply wp_ret.
    split; [done|]. exists (set_ad n (av a n) a), order. split_and!; try done. simpl. intros k.
    rewrite Hv. case_match; [done|apply Hd].
  - apply andb_true_iff in E as [E%bool_decide_eq_true En%bool_decide_eq_true]. rewrite <- Hp in *.
    destruct (Hheld n E) as (b & -> & Hb). simpl.
    apply wp_bind. eapply wp_mono; [by eapply bpin_ok|]. intros [] s' (H' & _ & _). apply wp_ret.
    split; [done|]. exists (pin n a), order. by split_and!.
  - apply andb_true_iff in E as [E%bool_decide_eq_true En%bool_decide_eq_true]. rewrite <- Hp in *.
    destruct (Hheld n E) as (b & -> & Hb). simpl.
    apply wp_bind. eapply wp_mono; [by eapply bunpin_ok|]. intros [] s' (H' & _ & _). apply wp_ret.
    split; [done|]. exists (unpin n a), order. by split_and!.
  - apply andb_true_iff in E as [E%bool_decide_eq_true En%orb_true_iff].
    rewrite !bool_decide_eq_true, <- Hp, <- Hv, <- Hd in En.
    destruct (Hheld n E) as (b & Htn & Hb). rewrite Htn. simpl.
    apply wp_bind. eapply wp_mono; [by eapply brelse_ok|]. intros [] s' (order' & H' & _ & _). apply wp_ret.
    split; [done|]. exists (unhold b a), order'. split_and!; try done; simpl.
    + by rewrite dom_delete_L, Hdom.
    + intros x k. rewrite !lookup_delete_Some, Ht. split.
      * intros [Hx Hk]. split; [|done]. intros ->. congruence.
      * intros [Hk Hx]. split; [|done]. intros ->. apply Ht in Hx. congruence.
Qed.

Lemma cache_run ops s t st st' out :
  cache_rep s t st -> Cache.run ops st = Some (st', out) ->
  wp (bop_run ops t) s (fun r s' => r.2 = out /\ cache_rep s' r.1 st').
Proof.
  revert s t st out. induction ops as [|o ops IH]; intros s t st out H Hrun; simpl in Hrun.
  - simplify_eq. by apply wp_ret.
  - apply bind_Some in Hrun as ([st1 out1] & H1 & Hrun).
    apply bind_Some in Hrun as ([st2 out2] & H2 & Hrun). simplify_eq/=.
    apply wp_bind. eapply wp_mono; [by eapply cache_step|]. intros [t1 o1] s1 [Eo H1']. simpl in *. subst o1.
    apply wp_bind. eapply wp_mono; [by eapply IH|]. intros [t2 o2] s2 [Eo H2']. simpl in *. subst o2.
    by apply wp_ret.
Qed.

(** The bss before [binit]. *)
Definition bio_zero (d : Z -> list Z) (p : Z) : bio :=
  Bio (fun _ => Buf 0 0 0 (Sleeplock 0 0) 0 0 0 []) d [] p.

(** C2: after [binit], any sequence of calls a client makes within the
    contract of the cache returns normally (no panic, no wait) and every
    [bread] returns the block's current contents, in spite of the LRU
    recycling of buffers: the linked list of 30 buffers refines a plain map
    from block numbers to contents with a disk behind it. *)
Theorem bcache_refines d p ops st out :
  Cache.run ops (Cache.State d d ∅ ∅) = Some (st, out) ->
  wp (binit;; bop_run ops ∅) (bio_zero d p) (fun r s' => r.2 = out /\ cache_rep s' r.1 st).
Proof.
  intros Hrun. apply wp_bind. eapply wp_mono; [by apply (binit_ok (bio_zero d p))|].
  intros [] s (order & H & _ & _). eapply cache_run; [|exact Hrun].
  exists (ABio d d ∅ ∅), order. by split_and!.
Qed.

Lemma bcache_refines_witness :
  wp (binit;; bop_run [Bread 3; Bmodify 3 [7]; Bwrite 3; Brelse 3; Bread 4; Bread 3] ∅)
    (bio_zero (fun n => [n]) 1)
    (fun r s' => r.2 = [[3]; [4]; [7]] /\ exists st, cache_rep s' r.1 st).
Proof.
  eapply wp_mono; [eapply (bcache_refines (fun n => [n]) 1); vm_compute; reflexivity|].
  intros r s' [-> H]. split; [done|]. by eexists.
Defined.
