(* ===== verification/Log.v ===== *)
(** The redo log, [kernel/log.c].

    The log's memory state sits beside the buffer cache; [lb] runs a cache
    operation.  [begin_op] in a sequential run waits ([Sleep]) when there is
    no room; [end_op] commits when it closes the last operation. *)

From stdpp Require Import gmap.
From S2P Require Import Prelude CString Sleeplock Bio.

Definition MAXOPBLOCKS : Z := 10.
Definition LOGSIZE : Z := MAXOPBLOCKS * 3.

(** * Words in a block *)

Definition get32 (l : list Z) (off : nat) : Z := le_combine (take 4 (drop off l)).
Definition put32 (l : list Z) (off : nat) (v : Z) : list Z :=
  take off l ++ le_split 4 v ++ drop (off + 4) l.

(** * State *)

Record logheader : Type := Logheader {
  lh_n : Z;
  lh_block : list Z;
}.

Record log : Type := Log {
  lg_start : Z;
  lg_size : Z;
  lg_outstanding : Z;
  lg_committing : Z;
  lg_dev : Z;
  lg_lh : logheader;
}.

Record lstate : Type := LState {
  ls_bio : bio;
  ls_log : log;
}.

Definition set_bio (b : bio) (s : lstate) : lstate := LState b (ls_log s).
Definition set_log (f : log -> log) (s : lstate) : lstate := LState (ls_bio s) (f (ls_log s)).
Definition set_start v l := Log v (lg_size l) (lg_outstanding l) (lg_committing l) (lg_dev l) (lg_lh l).
Definition set_size v l := Log (lg_start l) v (lg_outstanding l) (lg_committing l) (lg_dev l) (lg_lh l).
Definition set_outstanding v l := Log (lg_start l) (lg_size l) v (lg_committing l) (lg_dev l) (lg_lh l).
Definition set_committing v l := Log (lg_start l) (lg_size l) (lg_outstanding l) v (lg_dev l) (lg_lh l).
Definition set_logdev v l := Log (lg_start l) (lg_size l) (lg_outstanding l) (lg_committing l) v (lg_lh l).
Definition set_lh f l := Log (lg_start l) (lg_size l) (lg_outstanding l) (lg_committing l) (lg_dev l) (f (lg_lh l)).
Definition set_n v h := Logheader v (lh_block h).
Definition set_block (i : nat) v h := Logheader (lh_n h) (<[i := v]> (lh_block h)).

Definition lb {A} (m : M bio A) : M lstate A := zoom ls_bio set_bio m.
Definition log_gets {A} (f : log -> A) : M lstate A := gets (fun s => f (ls_log s)).
Definition log_modify (f : log -> log) : M lstate unit := modify (set_log f).

(** [log.lh.block[i] = v], undefined outside the array. *)
Definition store_block (i v : Z) : M lstate unit :=
  if (0 <=? i) && (i <? LOGSIZE) then log_modify (set_lh (set_block (Z.to_nat i) v))
  else undefined "log.lh.block".

Definition load_block (i : Z) : M lstate Z :=
  if (0 <=? i) && (i <? LOGSIZE)
  then log_gets (fun l => default 0 (lh_block (lg_lh l) !! Z.to_nat i))
  else undefined "log.lh.block".

Definition buf_data (b : nat) : M lstate (list Z) := lb (gets (fun s => b_data (bufs s b))).

(** * Operations *)

Fixpoint install_trans_loop (n : nat) (recovering : bool) (tail : Z) : M lstate unit :=
  match n with
  | O => mret tt
  | S n' =>
      l ← log_gets (fun l => l);
      lbuf ← lb (bread (lg_dev l) (u32 (lg_start l + tail + 1)));
      bn ← load_block tail;
      dbuf ← lb (bread (lg_dev l) (u32 bn));
      d ← buf_data lbuf;
      lb (put_data dbuf d);;
      lb (bwrite dbuf);;
      when (negb recovering) (lb (bunpin dbuf));;
      lb (brelse lbuf);;
      lb (brelse dbuf);;
      install_trans_loop n' recovering (tail + 1)
  end.

Definition install_trans (recovering : bool) : M lstate unit :=
  n ← log_gets (fun l => lh_n (lg_lh l));
  install_trans_loop (Z.to_nat n) recovering 0.

Fixpoint read_head_loop (n : nat) (d : list Z) (i : Z) : M lstate unit :=
  match n with
  | O => mret tt
  | S n' =>
      store_block i (s32 (get32 d (Z.to_nat (4 + 4 * i))));;
      read_head_loop n' d (i + 1)
  end.

Definition read_head : M lstate unit :=
  l ← log_gets (fun l => l);
  buf ← lb (bread (lg_dev l) (u32 (lg_start l)));
  d ← buf_data buf;
  log_modify (set_lh (set_n (s32 (get32 d 0))));;
  n ← log_gets (fun l => lh_n (lg_lh l));
  read_head_loop (Z.to_nat n) d 0;;
  lb (brelse buf).

(** The header block written over [d] with [n] block numbers. *)
Fixpoint put_blocks (d : list Z) (bs : list Z) (i : nat) : list Z :=
  match bs with
  | [] => d
  | b :: bs' => put_blocks (put32 d (4 + 4 * i) b) bs' (S i)
  end.

Fixpoint write_head_loop (n : nat) (buf : nat) (i : Z) : M lstate unit :=
  match n with
  | O => mret tt
  | S n' =>
      bn ← load_block i;
      d ← buf_data buf;
      lb (put_data buf (put32 d (Z.to_nat (4 + 4 * i)) bn));;
      write_head_loop n' buf (i + 1)
  end.

Definition write_head : M lstate unit :=
  l ← log_gets (fun l => l);
  buf ← lb (bread (lg_dev l) (u32 (lg_start l)));
  d ← buf_data buf;
  lb (put_data buf (put32 d 0 (lh_n (lg_lh l))));;
  write_head_loop (Z.to_nat (lh_n (lg_lh l))) buf 0;;
  lb (bwrite buf);;
  lb (brelse buf).

Definition recover_from_log : M lstate unit :=
  read_head;;
  install_trans true;;
  log_modify (set_lh (set_n 0));;
  write_head.

(** [initlog]; the two words of the super block it reads are arguments. *)
Definition initlog (dv logstart nlog : Z) : M lstate unit :=
  if BSIZE <=? 4 + 4 * LOGSIZE then panic "initlog: too big logheader"
  else
    log_modify (set_start (s32 logstart));;
    log_modify (set_size (s32 nlog));;
    log_modify (set_logdev dv);;
    recover_from_log.

Fixpoint write_log_loop (n : nat) (tail : Z) : M lstate unit :=
  match n with
  | O => mret tt
  | S n' =>
      l ← log_gets (fun l => l);
      to ← lb (bread (lg_dev l) (u32 (lg_start l + tail + 1)));
      bn ← load_block tail;
      from ← lb (bread (lg_dev l) (u32 bn));
      d ← buf_data from;
      lb (put_data to d);;
      lb (bwrite to);;
      lb (brelse from);;
      lb (brelse to);;
      write_log_loop n' (tail + 1)
  end.

Definition write_log : M lstate unit :=
  n ← log_gets (fun l => lh_n (lg_lh l));
  write_log_loop (Z.to_nat n) 0.

Definition commit : M lstate unit :=
  n ← log_gets (fun l => lh_n (lg_lh l));
  when (0 <? n) (
    write_log;;
    write_head;;
    install_trans false;;
    log_modify (set_lh (set_n 0));;
    write_head).

(** The search of [log_write]: the index of [bn] among the first [n] blocks,
    or [n]. *)
Fixpoint log_find (bs : list Z) (n : nat) (bn : Z) (i : Z) : Z :=
  match n, bs with
  | S n', b :: bs' => if u32 b =? bn then i else log_find bs' n' bn (i + 1)
  | _, _ => i
  end.

Definition log_write (b : nat) : M lstate unit :=
  l ← log_gets (fun l => l);
  let n := lh_n (lg_lh l) in
  if (LOGSIZE <=? n) || (lg_size l - 1 <=? n) then panic "too big a transaction"
  else if lg_outstanding l <? 1 then panic "log_write outside of trans"
  else
    bn ← lb (gets (fun s => b_blockno (bufs s b)));
    let i := log_find (lh_block (lg_lh l)) (Z.to_nat n) bn 0 in
    store_block i (s32 bn);;
    when (i =? n) (
      lb (bpin b);;
      log_modify (set_lh (fun h => set_n (lh_n h + 1) h))).

(** [begin_op]: one pass of its loop; the caller sleeps on the log until it
    can be admitted. *)
Definition begin_op : M lstate unit :=
  l ← log_gets (fun l => l);
  if ctrue (lg_committing l) then sleep_on ChanLog
  else if LOGSIZE <? lh_n (lg_lh l) + (lg_outstanding l + 1) * MAXOPBLOCKS then sleep_on ChanLog
  else log_modify (set_outstanding (lg_outstanding l + 1)).

Definition end_op : M lstate unit :=
  log_modify (fun l => set_outstanding (lg_outstanding l - 1) l);;
  l ← log_gets (fun l => l);
  if ctrue (lg_committing l) then panic "log.committing"
  else if lg_outstanding l =? 0 then
    log_modify (set_committing 1);;
    commit;;
    log_modify (set_committing 0)
  else mret tt.
