(* ===== verification/LogSafe.v ===== *)
(** Crash safety of the redo log of [kernel/log.c].

    The proofs go through the promises of the buffer cache ([Bio]): the state
    is described by [LR], the log's memory, the disk writes so far and the
    abstract cache.  A crash keeps the disk and nothing else, so a crash during
    a commit leaves the disk after some prefix of the commit's writes. *)

From stdpp Require Import gmap.
From S2P Require Import Prelude CString Layout Sleeplock Bio Log.

(** * Cache operations beside the log *)

Definition fset (f : Z -> list Z) (n : Z) (d : list Z) : Z -> list Z :=
  fun k => if k =? n then d else f k.

Lemma fset_eq f n d : fset f n d n = d.
Proof. unfold fset. by rewrite Z.eqb_refl. Qed.

Lemma fset_ne f n d k : k <> n -> fset f n d k = f k.
Proof. intros H. unfold fset. by destruct (Z.eqb_spec k n). Qed.

Record LR (s : lstate) (L : log) (W : list (Z * list Z)) (a : abio) : Prop := {
  lr_log : ls_log s = L;
  lr_writes : writes (ls_bio s) = W;
  lr_rep : exists order, bio_rep (ls_bio s) a order;
}.

Section rules.
Context (L : log).

Lemma lb_bread s W v d h P n :
  LR s L W (ABio v d h P) -> (forall b, h !! b <> Some n) ->
  n ∈ P \/ (size (P ∪ map_img h : gset Z) < NBUF)%nat ->
  wp (lb (bread ROOTDEV n)) s (fun b s' => h !! b = None /\ LR s' L W (ABio v d (<[b := n]> h) P)).
Proof.
  intros [El Ew [order H]] Hn Hroom. apply wp_zoom.
  eapply wp_mono; [apply (bread_ok _ _ _ n H); [by intros [b Hb]; eapply Hn|done]|].
  intros b s' (Hb & H' & Ew' & _). split; [done|]. split; [done|simpl; congruence|by exists order].
Qed.

Lemma lb_data s W v d h P b n :
  LR s L W (ABio v d h P) -> h !! b = Some n -> wp (buf_data b) s (fun x s' => s' = s /\ x = v n).
Proof.
  intros [_ _ [order H]] Hb. unfold buf_data. apply wp_zoom, wp_gets.
  destruct (br_held _ _ _ H b n Hb) as (Hbn & Hc & Hv & _). split; [by destruct s|].
  by apply (br_data _ _ _ H b n).
Qed.

Lemma lb_put s W v d h P b n x :
  LR s L W (ABio v d h P) -> h !! b = Some n ->
  wp (lb (put_data b x)) s (fun _ s' => LR s' L W (ABio (fset v n x) d h P)).
Proof.
  intros [El Ew [order H]] Hb. apply wp_zoom. eapply wp_mono; [by eapply put_data_ok|].
  intros [] s' (H' & Ew' & _). split; [done|simpl; congruence|by exists order].
Qed.

Lemma lb_bwrite s W v d h P b n :
  LR s L W (ABio v d h P) -> h !! b = Some n ->
  wp (lb (bwrite b)) s (fun _ s' => LR s' L (W ++ [(n, v n)]) (ABio v (fset d n (v n)) h P)).
Proof.
  intros [El Ew [order H]] Hb. apply wp_zoom. eapply wp_mono; [by eapply bwrite_ok|].
  intros [] s' (H' & Ew' & _). split; [done|simpl in *; by rewrite Ew', Ew|by exists order].
Qed.

Lemma lb_brelse s W v d h P b n :
  LR s L W (ABio v d h P) -> h !! b = Some n -> n ∈ P \/ v n = d n ->
  wp (lb (brelse b)) s (fun _ s' => LR s' L W (ABio v d (delete b h) P)).
Proof.
  intros [El Ew [order H]] Hb Hcl. apply wp_zoom. eapply wp_mono; [by eapply brelse_ok|].
  intros [] s' (order' & H' & Ew' & _). split; [done|simpl; congruence|by exists order'].
Qed.

Lemma lb_bpin s W v d h P b n :
  LR s L W (ABio v d h P) -> h !! b = Some n -> n ∉ P ->
  wp (lb (bpin b)) s (fun _ s' => LR s' L W (ABio v d h ({[n]} ∪ P))).
Proof.
  intros [El Ew [order H]] Hb Hn. apply wp_zoom. eapply wp_mono; [by eapply bpin_ok|].
  intros [] s' (H' & Ew' & _). split; [done|simpl; congruence|by exists order].
Qed.

Lemma lb_bunpin s W v d h P b n :
  LR s L W (ABio v d h P) -> h !! b = Some n -> n ∈ P ->
  wp (lb (bunpin b)) s (fun _ s' => LR s' L W (ABio v d h (P ∖ {[n]}))).
Proof.
  intros [El Ew [order H]] Hb Hn. apply wp_zoom. eapply wp_mono; [by eapply bunpin_ok|].
  intros [] s' (H' & Ew' & _). split; [done|simpl; congruence|by exists order].
Qed.

Lemma log_gets_ok {A} (f : log -> A) s W a (Q : A -> lstate -> Prop) :
  LR s L W a -> Q (f L) s -> wp (log_gets f) s Q.
Proof. intros [El _ _] HQ. apply wp_gets. by rewrite El. Qed.
End rules.

(** The abstract cache only matters pointwise. *)
Lemma LR_ext s L W v d h P v' d' :
  LR s L W (ABio v d h P) -> (forall n, v' n = v n) -> (forall n, d' n = d n) ->
  LR s L W (ABio v' d' h P).
Proof.
  intros [El Ew [order [H1 H2 H3 H4 H5 H6 H7 H8 H9 H10 H11]]] Hv Hd.
  split; [done|done|]. exists order. split; try done; simpl in *.
  - intros n. by rewrite Hd.
  - intros b n ???. rewrite Hv. by apply H10.
  - intros n ??. rewrite Hv, Hd. by apply H11.
Qed.

(** Entries of the header in memory. *)
Lemma load_block_ok L s W a i b (Q : Z -> lstate -> Prop) :
  LR s L W a -> 0 <= i < LOGSIZE -> lh_block (lg_lh L) !! Z.to_nat i = Some b -> Q b s ->
  wp (load_block i) s Q.
Proof.
  intros H Hi Hb HQ. unfold load_block.
  destruct (Z.leb_spec 0 i), (Z.ltb_spec i LOGSIZE); try lia. simpl.
  eapply log_gets_ok; [done|]. by rewrite Hb.
Qed.

(** * Writing the log *)

(** The writes of [write_log] for the blocks [bs] whose first slot is number
    [tail]. *)
Fixpoint log_writes (start tail : Z) (bs : list Z) (v : Z -> list Z) : list (Z * list Z) :=
  match bs with
  | [] => []
  | b :: bs' => (start + tail + 1, v b) :: log_writes start (tail + 1) bs' v
  end.

Fixpoint apply_writes (W : list (Z * list Z)) (f : Z -> list Z) : Z -> list Z :=
  match W with
  | [] => f
  | (n, d) :: W' => apply_writes W' (fset f n d)
  end.

Lemma apply_writes_app W W' f n : apply_writes (W ++ W') f n = apply_writes W' (apply_writes W f) n.
Proof. revert f. induction W as [|[k d] W IH]; intros f; simpl; [done|apply IH]. Qed.

Lemma apply_writes_ext W f g n : (forall k, f k = g k) -> apply_writes W f n = apply_writes W g n.
Proof.
  revert f g. induction W as [|[k d] W IH]; intros f g H; simpl; [apply H|].
  apply IH. intros m. unfold fset. by destruct (m =? k).
Qed.

Lemma apply_writes_out W f n : n ∉ W.*1 -> apply_writes W f n = f n.
Proof.
  revert f. induction W as [|[k d] W IH]; intros f H; simpl in *; [done|].
  apply not_elem_of_cons in H as [Hne H]. rewrite IH by done. by apply fset_ne.
Qed.

(** The log as [mkfs] lays it out, the in-memory header with [n] blocks. *)
Record log_ok (L : log) (bs : list Z) : Prop := {
  lo_dev : lg_dev L = ROOTDEV;
  lo_start : 0 <= lg_start L /\ lg_start L + LOGSIZE < 2 ^ 31;
  lo_n : lh_n (lg_lh L) = Z.of_nat (length bs);
  lo_blocks : forall i b, bs !! i = Some b -> lh_block (lg_lh L) !! i = Some b;
  lo_len : length (lh_block (lg_lh L)) = Z.to_nat LOGSIZE;
  lo_max : Z.of_nat (length bs) < LOGSIZE;
  lo_home : forall b, b ∈ bs -> 0 <= b < 2 ^ 31 /\
    ~ (lg_start L <= b < lg_start L + LOGSIZE);
}.

Lemma log_slot_u32 L bs tail :
  log_ok L bs -> 0 <= tail < LOGSIZE -> u32 (lg_start L + tail + 1) = lg_start L + tail + 1.
Proof. intros H Ht. pose proof (lo_start _ _ H). apply u32_small. unfold LOGSIZE, MAXOPBLOCKS in *. lia. Qed.

Lemma log_writes_ext start tail bs v v' :
  (forall b, b ∈ bs -> v' b = v b) -> log_writes start tail bs v' = log_writes start tail bs v.
Proof.
  revert tail. induction bs as [|b bs IH]; intros tail H; simpl; [done|].
  rewrite H by left. f_equal. apply IH. intros. apply H. by right.
Qed.

Lemma write_log_loop_ok L all bs tail s W v d P :
  log_ok L all -> 0 <= tail -> drop (Z.to_nat tail) all = bs ->
  LR s L W (ABio v d ∅ P) -> (size P < NBUF)%nat -> (forall b, b ∈ all -> b ∈ P) ->
  let LW := log_writes (lg_start L) tail bs v in
  wp (write_log_loop (length bs) tail) s (fun _ s' =>
    LR s' L (W ++ LW) (ABio (apply_writes LW v) (apply_writes LW d) ∅ P)).
Proof.
  intros HL. revert tail s W v d. induction bs as [|b bs IH]; intros tail s W v d Ht Hdrop H HP Hsub LW.
  - apply wp_ret. subst LW. simpl. by rewrite app_nil_r.
  - assert (Hbi : all !! Z.to_nat tail = Some b).
    { rewrite <- (Nat.add_0_r (Z.to_nat tail)), <- lookup_drop, Hdrop. done. }
    assert (Htl : tail < LOGSIZE - 1).
    { apply lookup_lt_Some in Hbi. pose proof (lo_max _ _ HL). lia. }
    assert (Hb : b ∈ all) by (by eapply list_elem_of_lookup_2).
    destruct (lo_home _ _ HL b Hb) as [Hb32 Hbh]. pose proof (Hsub b Hb) as HbP.
    cbn [length write_log_loop]. apply wp_bind. eapply log_gets_ok; [done|].
    rewrite (lo_dev _ _ HL), (log_slot_u32 L all tail HL) by lia. simpl.
    set (slot := lg_start L + tail + 1). assert (Hne : slot <> b) by (unfold slot; lia).
    apply wp_bind. eapply wp_mono; [eapply lb_bread; [done|done|right]|].
    { rewrite map_img_empty_L, union_empty_r_L. done. }
    intros to s1 [_ H1]. apply wp_bind.
    eapply load_block_ok; [done|lia|by eapply (lo_blocks _ _ HL)|].
    rewrite u32_small by lia. apply wp_bind. eapply wp_mono; [eapply lb_bread; [done| |by left]|].
    { intros x [[_ ?]|[_ ?]]%lookup_insert_Some; done. }
    intros from s2 [Hft H2]. apply lookup_insert_None in Hft as [_ Hft].
    apply wp_bind. eapply wp_mono; [eapply (lb_data _ _ _ _ _ _ _ from b); [done|apply lookup_insert_eq]|].
    intros x ? [-> ->]. apply wp_bind.
    eapply wp_mono; [eapply (lb_put _ _ _ _ _ _ _ to slot); [done|]|].
    { rewrite lookup_insert_ne by done. apply lookup_insert_eq. }
    intros [] s3 H3. apply wp_bind. eapply wp_mono; [eapply (lb_bwrite _ _ _ _ _ _ _ to slot); [done|]|].
    { rewrite lookup_insert_ne by done. apply lookup_insert_eq. }
    rewrite fset_eq. intros [] s4 H4. apply wp_bind.
    eapply wp_mono; [eapply (lb_brelse _ _ _ _ _ _ _ from b); [done|apply lookup_insert_eq|by left]|].
    intros [] s5 H5. rewrite delete_insert_id in H5 by (by rewrite lookup_insert_ne). apply wp_bind.
    eapply wp_mono; [eapply (lb_brelse _ _ _ _ _ _ _ to slot); [done|apply lookup_insert_eq|right]|].
    { by rewrite !fset_eq. }
    intros [] s6 H6. rewrite delete_insert_id in H6 by done.
    eapply wp_mono; [eapply (IH (tail + 1) s6); [lia| |exact H6|done|done]|].
    { rewrite Z2Nat.inj_add, <- drop_drop, Hdrop by lia. done. }
    assert (Hext : log_writes (lg_start L) (tail + 1) bs (fset v slot (v b)) =
                   log_writes (lg_start L) (tail + 1) bs v).
    { apply log_writes_ext. intros k Hk. apply fset_ne. intros ->.
      assert (Hs : slot ∈ all).
      { rewrite <- (take_drop (Z.to_nat tail) all), Hdrop. apply elem_of_app. right. by right. }
      destruct (lo_home _ _ HL slot Hs) as [_ ?]. unfold slot in *. lia. }
    intros [] s7. rewrite Hext. subst LW. simpl. by rewrite <- app_assoc.
Qed.

(** * The header *)

Definition head_data (bs : list Z) (d : list Z) : list Z :=
  put_blocks (put32 d 0 (Z.of_nat (length bs))) bs 0.

Lemma write_head_loop_ok L all bs i s W v d P buf n :
  log_ok L all -> drop i all = bs -> LR s L W (ABio v d {[buf := n]} P) ->
  wp (write_head_loop (length bs) buf (Z.of_nat i)) s (fun _ s' =>
    LR s' L W (ABio (fset v n (put_blocks (v n) bs i)) d {[buf := n]} P)).
Proof.
  intros HL. revert i s v. induction bs as [|b bs IH]; intros i s v Hdrop H.
  - apply wp_ret. eapply LR_ext; [exact H| |done]. intros k. unfold fset. simpl.
    destruct (Z.eqb_spec k n) as [->|]; done.
  - assert (Hbi : all !! i = Some b).
    { rewrite <- (Nat.add_0_r i), <- lookup_drop, Hdrop. done. }
    assert (Htl : Z.of_nat i < LOGSIZE).
    { apply lookup_lt_Some in Hbi. pose proof (lo_max _ _ HL). lia. }
    cbn [length write_head_loop]. apply wp_bind.
    eapply load_block_ok; [done|lia| |].
    { rewrite Nat2Z.id. by eapply (lo_blocks _ _ HL). }
    apply wp_bind. eapply wp_mono; [eapply (lb_data _ _ _ _ _ _ _ buf n); [done|apply lookup_singleton_eq]|].
    intros x ? [-> ->]. apply wp_bind.
    eapply wp_mono; [eapply (lb_put _ _ _ _ _ _ _ buf n); [done|apply lookup_singleton_eq]|].
    intros [] s1 H1. replace (Z.of_nat i + 1) with (Z.of_nat (S i)) by lia.
    eapply wp_mono; [eapply (IH (S i) s1); [|exact H1]|].
    { rewrite <- Nat.add_1_r, <- drop_drop, Hdrop. done. }
    intros [] s2 H2. eapply LR_ext; [exact H2| |done]. intros k.
    replace (Z.to_nat (4 + 4 * Z.of_nat i)) with (4 + 4 * i)%nat by lia. simpl.
    unfold fset. destruct (Z.eqb_spec k n) as [->|]; [|done]. by rewrite Z.eqb_refl.
Qed.

Lemma write_head_ok L bs s W v d P :
  log_ok L bs -> LR s L W (ABio v d ∅ P) -> (size P < NBUF)%nat ->
  let start := lg_start L in
  let h := head_data bs (v start) in
  wp write_head s (fun _ s' =>
    LR s' L (W ++ [(start, h)]) (ABio (fset v start h) (fset d start h) ∅ P)).
Proof.
  intros HL H HP start h. unfold write_head. apply wp_bind. eapply log_gets_ok; [done|].
  pose proof (lo_start _ _ HL) as Hst.
  rewrite (lo_dev _ _ HL), (lo_n _ _ HL), u32_small, Nat2Z.id by (unfold LOGSIZE, MAXOPBLOCKS in *; lia).
  fold start. apply wp_bind. eapply wp_mono; [eapply lb_bread; [done|done|right]|].
  { by rewrite map_img_empty_L, union_empty_r_L. }
  intros buf s1 [_ H1]. rewrite insert_empty in H1.
  apply wp_bind. eapply wp_mono; [eapply (lb_data _ _ _ _ _ _ _ buf start); [done|apply lookup_singleton_eq]|].
  intros x ? [-> ->]. apply wp_bind.
  eapply wp_mono; [eapply (lb_put _ _ _ _ _ _ _ buf start); [done|apply lookup_singleton_eq]|].
  intros [] s2 H2. apply wp_bind.
  eapply wp_mono; [apply (write_head_loop_ok L bs bs 0 s2 _ _ _ _ buf start HL eq_refl H2)|].
  rewrite fset_eq. intros [] s3 H3. apply wp_bind.
  eapply wp_mono; [eapply (lb_bwrite _ _ _ _ _ _ _ buf start); [done|apply lookup_singleton_eq]|].
  rewrite fset_eq. intros [] s4 H4.
  eapply wp_mono; [eapply (lb_brelse _ _ _ _ _ _ _ buf start); [done|apply lookup_singleton_eq|right]|].
  { by rewrite !fset_eq. }
  intros [] s5 H5. rewrite delete_singleton_eq in H5. eapply LR_ext; [exact H5| |done].
  intros k. unfold fset. by destruct (k =? start).
Qed.

(** * Installing the log *)

Fixpoint inst_writes (start tail : Z) (bs : list Z) (v : Z -> list Z) : list (Z * list Z) :=
  match bs with
  | [] => []
  | b :: bs' => (b, v (start + tail + 1)) :: inst_writes start (tail + 1) bs' v
  end.

Lemma inst_writes_ext start tail bs v v' :
  (forall i, tail <= i < tail + Z.of_nat (length bs) -> v' (start + i + 1) = v (start + i + 1)) ->
  inst_writes start tail bs v' = inst_writes start tail bs v.
Proof.
  revert tail. induction bs as [|b bs IH]; intros tail H; simpl in *; [done|].
  rewrite H by lia. f_equal. apply IH. intros. apply H. lia.
Qed.

Definition unpinned (recovering : bool) (P : gset Z) (bs : list Z) : gset Z :=
  if recovering then P else P ∖ list_to_set bs.

Lemma install_trans_loop_ok L all bs tail s W v d P (recovering : bool) :
  log_ok L all -> NoDup all -> 0 <= tail -> drop (Z.to_nat tail) all = bs ->
  LR s L W (ABio v d ∅ P) -> (size P < NBUF)%nat ->
  (if recovering then P = ∅ else forall b, b ∈ bs -> b ∈ P) ->
  (forall i, 0 <= i < LOGSIZE - 1 -> v (lg_start L + i + 1) = d (lg_start L + i + 1)) ->
  let IW := inst_writes (lg_start L) tail bs v in
  wp (install_trans_loop (length bs) recovering tail) s (fun _ s' =>
    LR s' L (W ++ IW) (ABio (apply_writes IW v) (apply_writes IW d) ∅ (unpinned recovering P bs))).
Proof.
  intros HL Hnd. revert tail s W v d P.
  induction bs as [|b bs IH]; intros tail s W v d P Ht Hdrop H HP Hrec Hcl IW.
  - apply wp_ret. subst IW. simpl. rewrite app_nil_r. unfold unpinned. destruct recovering; [done|].
    by rewrite list_to_set_nil, difference_empty_L.
  - assert (Hbi : all !! Z.to_nat tail = Some b).
    { rewrite <- (Nat.add_0_r (Z.to_nat tail)), <- lookup_drop, Hdrop. done. }
    assert (Htl : tail + Z.of_nat (length bs) < LOGSIZE - 1).
    { assert (length (drop (Z.to_nat tail) all) = S (length bs)) as Hlen by (by rewrite Hdrop).
      rewrite length_drop in Hlen. pose proof (lo_max _ _ HL). lia. }
    assert (Hb : b ∈ all) by (by eapply list_elem_of_lookup_2).
    destruct (lo_home _ _ HL b Hb) as [Hb32 Hbh].
    cbn [length install_trans_loop]. apply wp_bind. eapply log_gets_ok; [done|].
    rewrite (lo_dev _ _ HL), (log_slot_u32 L all tail HL) by lia.
    set (slot := lg_start L + tail + 1). assert (Hne : slot <> b) by (unfold slot; lia).
    apply wp_bind. eapply wp_mono; [eapply lb_bread; [done|done|right]|].
    { by rewrite map_img_empty_L, union_empty_r_L. }
    intros lbuf s1 [_ H1]. rewrite insert_empty in H1. apply wp_bind.
    eapply load_block_ok; [done|lia|by eapply (lo_blocks _ _ HL)|].
    rewrite u32_small by lia. apply wp_bind. eapply wp_mono; [eapply lb_bread; [done| |]|].
    { intros x [_ ?]%lookup_singleton_Some. done. }
    { destruct recovering; [right|left; apply Hrec; left]. subst P.
      rewrite map_img_singleton_L, union_empty_l_L, size_singleton. unfold NBUF. lia. }
    intros dbuf s2 [Hft H2]. apply lookup_singleton_None in Hft.
    apply wp_bind. eapply wp_mono; [eapply (lb_data _ _ _ _ _ _ _ lbuf slot); [done|]|].
    { rewrite lookup_insert_ne by done. apply lookup_singleton_eq. }
    intros x ? [-> ->]. apply wp_bind.
    eapply wp_mono; [eapply (lb_put _ _ _ _ _ _ _ dbuf b); [done|apply lookup_insert_eq]|].
    intros [] s3 H3. apply wp_bind.
    eapply wp_mono; [eapply (lb_bwrite _ _ _ _ _ _ _ dbuf b); [done|apply lookup_insert_eq]|].
    rewrite fset_eq. intros [] s4 H4. apply wp_bind.
    eapply (wp_mono _ _ (fun _ s5 => LR s5 L (W ++ [(b, v slot)])
      (ABio (fset v b (v slot)) (fset d b (v slot)) (<[dbuf:=b]> {[lbuf:=slot]}) (unpinned recovering P [b])))).
    { destruct recovering; cbn [negb when]; [by apply wp_ret|]. unfold unpinned.
      replace (list_to_set [b] : gset Z) with ({[b]} : gset Z) by set_solver.
      eapply lb_bunpin; [done|apply lookup_insert_eq|]. apply Hrec. left. }
    intros [] s5 H5. apply wp_bind.
    eapply wp_mono; [eapply (lb_brelse _ _ _ _ _ _ _ lbuf slot); [done| |right]|].
    { rewrite lookup_insert_ne by done. apply lookup_singleton_eq. }
    { rewrite !fset_ne by done. apply Hcl. lia. }
    intros [] s6 H6. rewrite delete_insert_ne, delete_singleton_eq, insert_empty in H6 by done. apply wp_bind.
    eapply wp_mono; [eapply (lb_brelse _ _ _ _ _ _ _ dbuf b); [done|apply lookup_singleton_eq|right]|].
    { by rewrite !fset_eq. }
    intros [] s7 H7. rewrite delete_singleton_eq in H7.
    assert (Hnb : NoDup (b :: bs)).
    { rewrite <- (take_drop (Z.to_nat tail) all), Hdrop in Hnd. by apply NoDup_app in Hnd as (_ & _ & ?). }
    apply NoDup_cons in Hnb as [Hbn _].
    assert (Hslot : forall i, 0 <= i < LOGSIZE - 1 -> lg_start L + i + 1 <> b) by lia.
    assert (Hun : unpinned recovering (unpinned recovering P [b]) bs = unpinned recovering P (b :: bs)).
    { unfold unpinned. destruct recovering; [done|]. rewrite !list_to_set_cons, list_to_set_nil. set_solver. }
    eapply wp_mono; [eapply (IH (tail + 1) s7); [lia| |exact H7| | |]|].
    { rewrite Z2Nat.inj_add, <- drop_drop, Hdrop by lia. done. }
    { eapply Nat.le_lt_trans; [|exact HP]. apply subseteq_size. unfold unpinned.
      destruct recovering; set_solver. }
    { unfold unpinned. destruct recovering; [done|]. intros k Hk.
      rewrite list_to_set_cons, list_to_set_nil, union_empty_r_L.
      apply elem_of_difference. split; [apply Hrec; by right|]. set_solver. }
    { intros i Hi. rewrite !fset_ne by (by apply Hslot). by apply Hcl. }
    rewrite Hun, (inst_writes_ext _ _ _ v (fset v b (v slot))).
    + intros [] s8. subst IW. simpl. by rewrite <- app_assoc.
    + intros i Hi. apply fset_ne, Hslot. lia.
Qed.

(** * Reading the header back *)

Lemma length_put32 l off v : (off + 4 <= length l)%nat -> length (put32 l off v) = length l.
Proof.
  intros H. unfold put32. rewrite !length_app, length_take, length_drop, length_le_split. lia.
Qed.

Lemma get32_put32_eq l off v : (off + 4 <= length l)%nat -> get32 (put32 l off v) off = u32 v.
Proof.
  intros H. unfold get32, put32. rewrite drop_app_length' by (rewrite length_take; lia).
  rewrite take_app_length' by (by rewrite length_le_split). by rewrite le_combine_split.
Qed.

Lemma get32_lookup l l' off :
  (forall i, (off <= i < off + 4)%nat -> l' !! i = l !! i) -> get32 l' off = get32 l off.
Proof.
  intros H. unfold get32. f_equal. apply list_eq. intros i.
  destruct (decide (i < 4)%nat); [|by rewrite !lookup_take_ge by lia].
  rewrite !lookup_take_lt, !lookup_drop by done. apply H. lia.
Qed.

Lemma lookup_put32 l off v i :
  (off + 4 <= length l)%nat -> (i < off \/ off + 4 <= i)%nat -> put32 l off v !! i = l !! i.
Proof.
  intros Hl Hi. unfold put32. destruct (decide (i < off)%nat).
  - rewrite lookup_app_l by (rewrite length_take; lia). by rewrite lookup_take_lt.
  - rewrite lookup_app_r by (rewrite length_take; lia). rewrite length_take.
    rewrite lookup_app_r by (rewrite length_le_split; lia). rewrite length_le_split, lookup_drop.
    f_equal. lia.
Qed.

Lemma get32_put32_ne l off off' v :
  (off + 4 <= length l)%nat -> (off' + 4 <= off \/ off + 4 <= off')%nat ->
  get32 (put32 l off v) off' = get32 l off'.
Proof. intros Hl Ho. apply get32_lookup. intros i Hi. apply lookup_put32; lia. Qed.

(** The header block [d] lists the blocks [bs]. *)
Definition head_is (d : list Z) (bs : list Z) : Prop :=
  s32 (get32 d 0) = Z.of_nat (length bs) /\
  forall i b, bs !! i = Some b -> s32 (get32 d (4 + 4 * i)) = b.

Lemma s32_u32 x : - 2 ^ 31 <= x < 2 ^ 31 -> s32 (u32 x) = x.
Proof.
  intros H. unfold s32, u32. rewrite Z.mod_mod by lia.
  destruct (Z.ltb_spec (x mod 2 ^ 32) (2 ^ 31)); zlia.
Qed.

Lemma put_blocks_get bs d i0 off :
  (4 + 4 * (i0 + length bs) <= length d)%nat ->
  (off + 4 <= 4 + 4 * i0)%nat \/ (exists i, off = (4 + 4 * i)%nat /\ (i0 + length bs <= i)%nat) ->
  get32 (put_blocks d bs i0) off = get32 d off.
Proof.
  revert d i0. induction bs as [|b bs IH]; intros d i0 Hd Hoff; cbn [put_blocks length] in *; [done|].
  rewrite IH.
  - apply get32_put32_ne; [lia|]. destruct Hoff as [?|(i & -> & ?)]; lia.
  - rewrite length_put32 by lia. lia.
  - destruct Hoff as [?|(i & -> & ?)]; [left; lia|right; exists i; lia].
Qed.

Lemma put_blocks_in bs d i0 i b :
  (4 + 4 * (i0 + length bs) <= length d)%nat -> bs !! i = Some b ->
  get32 (put_blocks d bs i0) (4 + 4 * (i0 + i)) = u32 b.
Proof.
  revert d i0 i. induction bs as [|c bs IH]; intros d i0 [|i] Hd Hb; cbn [put_blocks length] in *; simpl in Hb; simplify_eq.
  - rewrite put_blocks_get; [|rewrite length_put32; lia|left; lia].
    rewrite Nat.add_0_r. apply get32_put32_eq. lia.
  - replace (i0 + S i)%nat with (S i0 + i)%nat by lia. apply IH; [|done]. rewrite length_put32; lia.
Qed.

Lemma length_put_blocks bs d i0 :
  (4 + 4 * (i0 + length bs) <= length d)%nat -> length (put_blocks d bs i0) = length d.
Proof.
  revert d i0. induction bs as [|c bs IH]; intros d i0 Hd; cbn [put_blocks length] in *; [done|].
  rewrite IH; rewrite length_put32; lia.
Qed.

Lemma head_data_is bs d :
  (4 + 4 * length bs <= length d)%nat -> (length bs < 1000)%nat ->
  (forall b, b ∈ bs -> 0 <= b < 2 ^ 31) -> head_is (head_data bs d) bs.
Proof.
  intros Hd Hn Hb. unfold head_data. split.
  - rewrite put_blocks_get; [|rewrite length_put32; lia|left; lia].
    rewrite get32_put32_eq by lia. apply s32_u32. lia.
  - intros i b Hi. replace (4 + 4 * i)%nat with (4 + 4 * (0 + i))%nat by lia.
    rewrite (put_blocks_in bs _ 0 i b); [|rewrite length_put32; lia|done].
    apply s32_u32. assert (b ∈ bs) by (by eapply list_elem_of_lookup_2). apply Hb in H. lia.
Qed.

Lemma head_clear_is d : (4 <= length d)%nat -> head_is (head_data [] d) [].
Proof. intros Hd. apply head_data_is; [simpl; lia|simpl; lia|by intros b ?%elem_of_nil]. Qed.

Lemma log_modify_ok f s L W a (Q : unit -> lstate -> Prop) :
  LR s L W a -> (forall s', LR s' (f L) W a -> Q tt s') -> wp (log_modify f) s Q.
Proof. intros [El Ew H] HQ. apply wp_modify, HQ. split; [simpl; by rewrite El|done|done]. Qed.

(** The geometry of the log and the blocks [bs] that can be logged. *)
Record geometry (start : Z) (bs : list Z) : Prop := {
  ge_start : 0 <= start /\ start + LOGSIZE < 2 ^ 31;
  ge_max : Z.of_nat (length bs) < LOGSIZE;
  ge_nodup : NoDup bs;
  ge_home : forall b, b ∈ bs -> 0 <= b < 2 ^ 31 /\ ~ (start <= b < start + LOGSIZE);
}.

Lemma read_head_loop_ok s L W a d n i :
  LR s L W a -> 0 <= i -> i + Z.of_nat n <= LOGSIZE ->
  length (lh_block (lg_lh L)) = Z.to_nat LOGSIZE ->
  wp (read_head_loop n d i) s (fun _ s' => exists blk,
    LR s' (set_lh (fun h => Logheader (lh_n h) blk) L) W a /\ length blk = Z.to_nat LOGSIZE /\
    (forall j, 0 <= j < i -> blk !! Z.to_nat j = lh_block (lg_lh L) !! Z.to_nat j) /\
    (forall j, i <= j < i + Z.of_nat n ->
       blk !! Z.to_nat j = Some (s32 (get32 d (Z.to_nat (4 + 4 * j)))))).
Proof.
  revert s L i. induction n as [|n IH]; intros s L i H Hi Hmax Hlen.
  - apply wp_ret. exists (lh_block (lg_lh L)). split_and!; try done; [|intros; lia].
    by destruct L as [????? []].
  - cbn [read_head_loop]. apply wp_bind. unfold store_block.
    destruct (Z.leb_spec 0 i), (Z.ltb_spec i LOGSIZE); try lia. simpl.
    eapply log_modify_ok; [exact H|]. intros s1 Hs1.
    eapply wp_mono; [apply (IH s1 _ (i + 1) Hs1); [lia|lia|simpl; by rewrite length_insert]|].
    intros [] s2 (blk & H2 & Hl & Hlow & Hhi). exists blk. split_and!; [exact H2|done| |].
    + intros j Hj. rewrite Hlow by lia. simpl. apply list_lookup_insert_ne. lia.
    + intros j Hj. destruct (decide (j = i)) as [->|]; [|apply Hhi; lia].
      rewrite Hlow by lia. simpl. apply list_lookup_insert_eq. rewrite Hlen.
      apply Z2Nat.inj_lt; lia.
Qed.

Lemma read_head_ok s L W v d P bs :
  LR s L W (ABio v d ∅ P) -> (size P < NBUF)%nat -> lg_dev L = ROOTDEV ->
  length (lh_block (lg_lh L)) = Z.to_nat LOGSIZE -> geometry (lg_start L) bs ->
  head_is (v (lg_start L)) bs -> v (lg_start L) = d (lg_start L) ->
  wp read_head s (fun _ s' => exists L', LR s' L' W (ABio v d ∅ P) /\ log_ok L' bs /\
    lg_start L' = lg_start L).
Proof.
  intros H HP Hdev Hlen [Hst Hmax Hnd Hhome] [Hn Hblk] Hcl. unfold read_head.
  apply wp_bind. eapply log_gets_ok; [exact H|].
  rewrite Hdev, u32_small by (unfold LOGSIZE, MAXOPBLOCKS in *; lia).
  apply wp_bind. eapply wp_mono; [eapply lb_bread; [done|done|right]|].
  { by rewrite map_img_empty_L, union_empty_r_L. }
  intros buf s1 [_ H1]. rewrite insert_empty in H1. apply wp_bind.
  eapply wp_mono; [eapply (lb_data _ _ _ _ _ _ _ buf (lg_start L)); [done|apply lookup_singleton_eq]|].
  intros x ? [-> ->]. rewrite Hn. apply wp_bind. eapply log_modify_ok; [exact H1|]. intros s2 H2.
  apply wp_bind. eapply log_gets_ok; [exact H2|]. simpl. rewrite Nat2Z.id. apply wp_bind.
  eapply wp_mono; [apply (read_head_loop_ok s2 _ _ _ _ _ 0 H2); [done|lia|done]|].
  intros [] s3 (blk & H3 & Hl & _ & Hhi).
  eapply wp_mono; [eapply (lb_brelse _ _ _ _ _ _ _ buf (lg_start L)); [done|apply lookup_singleton_eq|by right]|].
  intros [] s4 H4. rewrite delete_singleton_eq in H4. eexists. split_and!; [exact H4| |done].
  split; simpl; try done. intros i b Hb. pose proof (lookup_lt_Some _ _ _ Hb).
  specialize (Hhi (Z.of_nat i)). rewrite Nat2Z.id in Hhi. rewrite Hhi by lia.
  replace (Z.to_nat (4 + 4 * Z.of_nat i)) with (4 + 4 * i)%nat by lia. by rewrite (Hblk i b).
Qed.

(** * Recovery *)

(** What recovery does to a disk whose header lists [bs]: the logged blocks
    go home and the header is cleared. *)
Definition recovered (start : Z) (bs : list Z) (d : Z -> list Z) : Z -> list Z :=
  fset (apply_writes (inst_writes start 0 bs d) d) start (head_data [] (d start)).

Lemma inst_writes_dom start tail bs v : (inst_writes start tail bs v).*1 = bs.
Proof. revert tail. induction bs as [|b bs IH]; intros tail; simpl; [done|]. by rewrite IH. Qed.

Lemma log_ok_clear L bs : log_ok L bs -> log_ok (set_lh (set_n 0) L) [].
Proof.
  intros [H1 H2 H3 H4 H5 H6 H7]. split; simpl; try done.
  - by intros b ?%elem_of_nil.
Qed.

Lemma recover_from_log_ok s L W d bs :
  LR s L W (ABio d d ∅ ∅) -> lg_dev L = ROOTDEV ->
  length (lh_block (lg_lh L)) = Z.to_nat LOGSIZE -> geometry (lg_start L) bs ->
  head_is (d (lg_start L)) bs ->
  wp recover_from_log s (fun _ s' => exists L' W', log_ok L' [] /\ lg_start L' = lg_start L /\
    let d' := recovered (lg_start L) bs d in LR s' L' W' (ABio d' d' ∅ ∅)).
Proof.
  intros H Hdev Hlen Hgeo Hhead. unfold recover_from_log. apply wp_bind.
  assert (HNB : (size (∅ : gset Z) < NBUF)%nat) by (rewrite size_empty; unfold NBUF; lia).
  eapply wp_mono; [by eapply (read_head_ok s L W d d ∅ bs)|].
  intros [] s1 (L1 & H1 & HL1 & Est). apply wp_bind. unfold install_trans. apply wp_bind.
  eapply log_gets_ok; [exact H1|]. rewrite (lo_n _ _ HL1), Nat2Z.id.
  eapply wp_mono; [by eapply (install_trans_loop_ok L1 bs bs 0 s1 W d d ∅ true HL1 (ge_nodup _ _ Hgeo))|].
  intros [] s2 H2. apply wp_bind. eapply log_modify_ok; [exact H2|]. intros s3 H3.
  eapply wp_mono; [eapply (write_head_ok _ [] s3); [by eapply log_ok_clear|exact H3|done]|].
  intros [] s4 H4. eexists _, _. split_and!; [by eapply log_ok_clear|by simpl|].
  simpl in H4. rewrite Est in H4. unfold recovered.
  rewrite (apply_writes_out _ d (lg_start L)) in H4; [exact H4|].
  rewrite inst_writes_dom. intros Hin. destruct (ge_home _ _ Hgeo _ Hin) as [_ ?].
  unfold LOGSIZE, MAXOPBLOCKS in *. lia.
Qed.

(** * Commit *)

Definition home_writes (bs : list Z) (v : Z -> list Z) : list (Z * list Z) :=
  (fun b => (b, v b)) <$> bs.

(** All disk writes of a commit of the blocks [bs] with contents [v]. *)
Definition commit_writes (start : Z) (bs : list Z) (v : Z -> list Z) : list (Z * list Z) :=
  let h := head_data bs (v start) in
  log_writes start 0 bs v ++ [(start, h)] ++ home_writes bs v ++ [(start, head_data [] h)].

Lemma log_writes_dom start tail bs v k :
  k ∈ (log_writes start tail bs v).*1 <-> start + tail + 1 <= k < start + tail + 1 + Z.of_nat (length bs).
Proof.
  revert tail. induction bs as [|b bs IH]; intros tail; simpl.
  - split; [by intros ?%elem_of_nil|lia].
  - rewrite elem_of_cons, IH. lia.
Qed.

Lemma log_writes_get start tail bs v f i b :
  bs !! i = Some b -> apply_writes (log_writes start tail bs v) f (start + tail + Z.of_nat i + 1) = v b.
Proof.
  revert tail f i. induction bs as [|c bs IH]; intros tail f [|i] Hb; simpl in *; simplify_eq.
  - rewrite apply_writes_out; [unfold fset; case_match eqn:E; [done|apply Z.eqb_neq in E; lia]|].
    rewrite log_writes_dom. lia.
  - replace (start + tail + Z.of_nat (S i) + 1) with (start + (tail + 1) + Z.of_nat i + 1) by lia.
    by apply (IH (tail + 1)).
Qed.

Lemma inst_home start tail bs v w :
  (forall i b, bs !! i = Some b -> w (start + tail + Z.of_nat i + 1) = v b) ->
  inst_writes start tail bs w = home_writes bs v.
Proof.
  revert tail. induction bs as [|b bs IH]; intros tail H; simpl; [done|]. f_equal.
  - f_equal. rewrite <- (H 0%nat b) by done. f_equal. lia.
  - apply IH. intros i c Hc. rewrite <- (H (S i) c) by done. f_equal. lia.
Qed.

Lemma home_writes_get bs v f b : b ∈ bs -> apply_writes (home_writes bs v) f b = v b.
Proof.
  revert f. induction bs as [|c bs IH]; intros f Hb; simpl; [by apply elem_of_nil in Hb|].
  destruct (decide (b ∈ bs)) as [Hin|Hn]; [by apply IH|].
  apply elem_of_cons in Hb as [->|]; [|done]. rewrite apply_writes_out; [apply fset_eq|].
  unfold home_writes. rewrite <- list_fmap_compose. simpl. by rewrite list_fmap_id.
Qed.

Lemma home_writes_dom bs v : (home_writes bs v).*1 = bs.
Proof. unfold home_writes. rewrite <- list_fmap_compose. apply list_fmap_id. Qed.

(** The cache is clean outside the pinned blocks. *)
Lemma LR_clean s L W v d P n : LR s L W (ABio v d ∅ P) -> n ∉ P -> v n = d n.
Proof. intros [_ _ [order H]] Hn. apply (br_clean _ _ _ H n Hn). by intros [b Hb]. Qed.

Lemma commit_ok s L W v d bs :
  log_ok L bs -> NoDup bs -> bs <> [] -> LR s L W (ABio v d ∅ (list_to_set bs)) ->
  wp commit s (fun _ s' => exists L', log_ok L' [] /\ lg_start L' = lg_start L /\
    let CW := commit_writes (lg_start L) bs v in
    LR s' L' (W ++ CW) (ABio (apply_writes CW v) (apply_writes CW d) ∅ ∅)).
Proof.
  intros HL Hnd Hne H. set (start := lg_start L). set (P := list_to_set bs : gset Z) in *.
  assert (HP : (size P < NBUF)%nat).
  { unfold P. rewrite size_list_to_set by done. pose proof (lo_max _ _ HL).
    unfold LOGSIZE, MAXOPBLOCKS, NBUF in *. lia. }
  assert (HPin : forall b, b ∈ bs <-> b ∈ P) by (intros b; unfold P; by rewrite elem_of_list_to_set).
  assert (Hlen : 0 < Z.of_nat (length bs)) by (destruct bs; simpl; [done|lia]).
  unfold commit. apply wp_bind. eapply log_gets_ok; [exact H|]. rewrite (lo_n _ _ HL).
  destruct (Z.ltb_spec 0 (Z.of_nat (length bs))); [|lia]. cbn [when].
  apply wp_bind. unfold write_log. apply wp_bind. eapply log_gets_ok; [exact H|].
  rewrite (lo_n _ _ HL), Nat2Z.id.
  eapply wp_mono; [apply (write_log_loop_ok L bs bs 0 s W v d P HL); [done|done|done|done|by intros; apply HPin]|].
  fold start. set (LW := log_writes start 0 bs v). intros [] s1 H1.
  apply wp_bind. eapply wp_mono; [by apply (write_head_ok L bs s1 _ _ _ P HL H1)|].
  fold start. assert (HLWs : forall f, apply_writes LW f start = f start).
  { intros f. apply apply_writes_out. unfold LW. rewrite log_writes_dom. lia. }
  rewrite HLWs. set (h := head_data bs (v start)). intros [] s2 H2.
  apply wp_bind. unfold install_trans. apply wp_bind. eapply log_gets_ok; [exact H2|].
  rewrite (lo_n _ _ HL), Nat2Z.id.
  assert (Hslots : forall f i b, bs !! i = Some b -> fset (apply_writes LW f) start h (start + 0 + Z.of_nat i + 1) = v b).
  { intros f i b Hb. rewrite fset_ne by lia. by apply log_writes_get. }
  eapply wp_mono; [eapply (install_trans_loop_ok L bs bs 0 s2 _ _ _ P false HL Hnd); [done|done|exact H2|done| |]|].
  { intros b Hb. by apply HPin. }
  { fold start. intros i Hi. destruct (decide (i < Z.of_nat (length bs))) as [Hi'|Hi'].
    - destruct (lookup_lt_is_Some_2 bs (Z.to_nat i)) as [b Hb]; [lia|].
      pose proof (Hslots v _ _ Hb) as E1. pose proof (Hslots d _ _ Hb) as E2. rewrite Z2Nat.id in E1, E2 by lia.
      replace (start + i + 1) with (start + 0 + i + 1) by lia. congruence.
    - rewrite !fset_ne, !apply_writes_out by (lia || unfold LW; rewrite log_writes_dom; lia).
      eapply LR_clean; [exact H|]. intros Hin%HPin. destruct (lo_home _ _ HL _ Hin). unfold start in *. lia. }
  fold start. rewrite (inst_home start 0 bs v _ (Hslots v)). set (HW := home_writes bs v).
  assert (Hun : unpinned false P bs = ∅) by (unfold unpinned, P; set_solver). rewrite Hun.
  intros [] s3 H3. apply wp_bind. eapply log_modify_ok; [exact H3|]. intros s4 H4.
  eapply wp_mono; [eapply (write_head_ok _ [] s4); [by eapply log_ok_clear|exact H4|by rewrite size_empty; unfold NBUF; lia]|].
  assert (HHWs : forall f, apply_writes HW f start = f start).
  { intros f. apply apply_writes_out. unfold HW. rewrite home_writes_dom. intros Hin.
    destruct (lo_home _ _ HL _ Hin). unfold start in *. unfold LOGSIZE, MAXOPBLOCKS in *. lia. }
  simpl. fold start. rewrite HHWs, fset_eq. intros [] s5 H5.
  eexists. split_and!; [by eapply log_ok_clear|done|].
  unfold commit_writes. fold h LW HW.
  replace (W ++ LW ++ [(start, h)] ++ HW ++ [(start, head_data [] h)])
    with ((((W ++ LW) ++ [(start, h)]) ++ HW) ++ [(start, head_data [] h)]) by (by rewrite <- !app_assoc).
  eapply LR_ext; [exact H5|..]; intros n; by rewrite !apply_writes_app.
Qed.

(** * Crashes *)

(** The blocks outside the log. *)
Definition outside_log (start k : Z) : Prop := ~ (start <= k < start + LOGSIZE).

(** Booting on disk [D]: the buffer cache is set up and the log recovered. *)
Definition boot (start nlog : Z) : M lstate unit :=
  lb binit;; initlog ROOTDEV start nlog.

Definition boot_state (D : Z -> list Z) (pid : Z) (L : log) : lstate := LState (bio_zero D pid) L.

Lemma boot_ok D pid L start nlog bs :
  length (lh_block (lg_lh L)) = Z.to_nat LOGSIZE -> geometry start bs -> head_is (D start) bs ->
  wp (boot start nlog) (boot_state D pid L) (fun _ s' => exists L' W',
    log_ok L' [] /\ lg_start L' = start /\
    let d' := recovered start bs D in LR s' L' W' (ABio d' d' ∅ ∅)).
Proof.
  intros Hlen Hgeo Hhead. unfold boot. apply wp_bind, wp_zoom.
  eapply wp_mono; [by apply (binit_ok (bio_zero D pid))|].
  intros [] b (order & Hb & Hw & _). unfold initlog. simpl.
  pose proof (ge_start _ _ Hgeo) as Hst.
  assert (H0 : LR (set_bio b (boot_state D pid L)) L [] (ABio D D ∅ ∅)) by (split; [done|done|by exists order]).
  apply wp_bind. eapply log_modify_ok; [exact H0|]. intros s1 H1.
  apply wp_bind. eapply log_modify_ok; [exact H1|]. intros s2 H2.
  apply wp_bind. eapply log_modify_ok; [exact H2|]. intros s3 H3.
  rewrite (s32_small start) in H3 by (unfold LOGSIZE, MAXOPBLOCKS in *; lia).
  eapply wp_mono; [by eapply (recover_from_log_ok s3 _ _ D bs H3)|]. done.
Qed.

Lemma take_writes_dom (j : nat) (W : list (Z * list Z)) k : k ∈ (take j W).*1 -> k ∈ W.*1.
Proof. intros Hk. rewrite <- (take_drop j W), fmap_app, elem_of_app. by left. Qed.

Section crash.
Context (start : Z) (bs : list Z) (v d : Z -> list Z).
Context (Hgeo : geometry start bs).
Context (Hlen : length (v start) = Z.to_nat BSIZE).
Context (Hstart : v start = d start) (Hclear : head_is (d start) []).
Context (Hclean : forall k, k ∉ bs -> outside_log start k -> v k = d k).

Abbreviation CW := (commit_writes start bs v).
Abbreviation h := (head_data bs (v start)).

(** Which blocks the header lists after the first [j] writes. *)
Definition crash_blocks (j : nat) : list Z :=
  if decide (length bs < j <= 2 * length bs + 1)%nat then bs else [].

Lemma length_log_writes tail : length (log_writes start tail bs v) = length bs.
Proof. clear. revert tail. induction bs as [|b l IH]; intros tail; simpl; auto. Qed.

Lemma length_home_writes : length (home_writes bs v) = length bs.
Proof. unfold home_writes. by rewrite length_fmap. Qed.

Lemma outside_slots k tail : outside_log start k -> 0 <= tail -> tail + Z.of_nat (length bs) < LOGSIZE ->
  k ∉ (log_writes start tail bs v).*1.
Proof. unfold outside_log. intros Hk Ht Hl. rewrite log_writes_dom. lia. Qed.

(** Before the header is written. *)
Lemma crash_early j D :
  (j <= length bs)%nat -> D = apply_writes (take j CW) d ->
  D start = d start /\ forall k, outside_log start k -> D k = d k.
Proof.
  intros Hj ->. unfold commit_writes. rewrite take_app_le by (rewrite length_log_writes; lia).
  pose proof (ge_max _ _ Hgeo) as Hmax.
  assert (Hin : forall k, k ∈ (take j (log_writes start 0 bs v)).*1 -> k ∈ (log_writes start 0 bs v).*1).
  { intros k. apply take_writes_dom. }
  split.
  - apply apply_writes_out. intros Hk%Hin. rewrite log_writes_dom in Hk. lia.
  - intros k Hk. apply apply_writes_out. intros Hk'%Hin. revert Hk'. apply outside_slots; [done|lia|lia].
Qed.

(** Between the two header writes. *)
Lemma crash_middle j D :
  (length bs < j <= 2 * length bs + 1)%nat -> D = apply_writes (take j CW) d ->
  D start = h /\ (forall i b, bs !! i = Some b -> D (start + 0 + Z.of_nat i + 1) = v b) /\
  forall k, outside_log start k -> k ∉ bs -> D k = d k.
Proof.
  intros Hj ->. unfold commit_writes. pose proof (ge_max _ _ Hgeo) as Hmax.
  rewrite take_app_ge by (rewrite length_log_writes; lia). rewrite length_log_writes.
  destruct (j - length bs)%nat as [|m] eqn:Em; [lia|]. cbn [app take].
  rewrite take_app_le by (rewrite length_home_writes; lia).
  assert (Hin : forall k, k ∈ (take m (home_writes bs v)).*1 -> k ∈ bs).
  { intros k Hk%take_writes_dom. by rewrite home_writes_dom in Hk. }
  assert (Hout : forall k, ~ outside_log start k -> k ∉ (take m (home_writes bs v)).*1).
  { intros k Hk Hk'%Hin. by destruct (ge_home _ _ Hgeo k Hk'). }
  split_and!.
  - rewrite apply_writes_app. simpl. rewrite apply_writes_out; [apply fset_eq|].
    apply Hout. unfold outside_log, LOGSIZE, MAXOPBLOCKS. lia.
  - intros i b Hb. pose proof (lookup_lt_Some _ _ _ Hb). rewrite apply_writes_app. simpl.
    rewrite apply_writes_out by (apply Hout; unfold outside_log; lia).
    rewrite fset_ne by lia. by apply log_writes_get.
  - intros k Hk Hkb. rewrite apply_writes_app. simpl. rewrite apply_writes_out by (by intros ?%Hin).
    rewrite fset_ne by (intros ->; apply Hk; unfold LOGSIZE, MAXOPBLOCKS; lia).
    apply apply_writes_out, outside_slots; [done|lia|lia].
Qed.

(** After the last write. *)
Lemma crash_late j D :
  (2 * length bs + 1 < j)%nat -> D = apply_writes (take j CW) d ->
  D start = head_data [] h /\ forall k, outside_log start k -> D k = v k.
Proof.
  intros Hj ->. pose proof (ge_max _ _ Hgeo) as Hmax. rewrite take_ge.
  2:{ unfold commit_writes. rewrite !length_app, length_log_writes, length_home_writes. simpl. lia. }
  unfold commit_writes. split.
  - rewrite !apply_writes_app. simpl. apply fset_eq.
  - intros k Hk. rewrite !apply_writes_app. simpl.
    rewrite fset_ne by (intros ->; apply Hk; unfold LOGSIZE, MAXOPBLOCKS; lia).
    destruct (decide (k ∈ bs)) as [Hb|Hb]; [by apply home_writes_get|].
    rewrite apply_writes_out by (by rewrite home_writes_dom).
    rewrite fset_ne by (intros ->; apply Hk; unfold LOGSIZE, MAXOPBLOCKS; lia).
    rewrite apply_writes_out by (apply outside_slots; [done|lia|lia]). symmetry. by apply Hclean.
Qed.

Lemma geometry_nil : geometry start [].
Proof.
  destruct Hgeo as [H1 _ _ _]. split; [done|unfold LOGSIZE, MAXOPBLOCKS; simpl; lia|constructor|].
  by intros b ?%elem_of_nil.
Qed.

Lemma crash_recovers j D :
  D = apply_writes (take j CW) d ->
  head_is (D start) (crash_blocks j) /\ geometry start (crash_blocks j) /\
  forall k, outside_log start k ->
    recovered start (crash_blocks j) D k = if decide (j <= length bs)%nat then d k else v k.
Proof.
  intros HD. pose proof (ge_max _ _ Hgeo) as Hmax. unfold LOGSIZE, MAXOPBLOCKS in Hmax.
  assert (Hns : forall k, outside_log start k -> k <> start).
  { intros k Hk ->. apply Hk. unfold LOGSIZE, MAXOPBLOCKS. lia. }
  assert (Hh : length h = Z.to_nat BSIZE).
  { unfold head_data. unfold BSIZE in *. rewrite length_put_blocks; rewrite length_put32; lia. }
  unfold crash_blocks. destruct (decide (j <= length bs)%nat) as [Hj|Hj].
  - rewrite decide_False by lia. destruct (crash_early j D Hj HD) as [Es Hk].
    split_and!; [by rewrite Es|apply geometry_nil|]. intros k Hko. unfold recovered.
    rewrite fset_ne by auto. simpl. by apply Hk.
  - destruct (decide (length bs < j <= 2 * length bs + 1)%nat) as [Hm|Hm].
    + destruct (crash_middle j D Hm HD) as (Es & Hslot & Hk). split_and!; [|done|].
      * rewrite Es. apply head_data_is; [unfold BSIZE in *; lia|lia|].
        intros b Hb. by apply (ge_home _ _ Hgeo).
      * intros k Hko. unfold recovered. rewrite fset_ne by auto. rewrite (inst_home start 0 bs v D Hslot).
        destruct (decide (k ∈ bs)) as [Hb|Hb]; [by apply home_writes_get|].
        rewrite apply_writes_out by (by rewrite home_writes_dom). rewrite Hk by done. symmetry. by apply Hclean.
    + destruct (crash_late j D ltac:(lia) HD) as [Es Hk].
      split_and!; [|apply geometry_nil|].
      * rewrite Es. apply head_clear_is. unfold BSIZE in *. lia.
      * intros k Hko. unfold recovered. rewrite fset_ne by auto. simpl. by apply Hk.
Qed.
End crash.

(** C1: Crash safety of the redo log.  Let a transaction have modified the
    blocks [bs] in the cache ([v]) while the disk is [d] with an empty log.
    [commit] returns with all of [v] on disk; and if the machine stops after
    any number [j] of the disk writes [commit] makes, booting again (buffer
    cache set up, log recovered) returns with a file system in which every
    block outside the log is as before the transaction ([j] at most the number
    of logged blocks: the header was not written) or every one is as after it. *)
Theorem commit_crash_safe s L W v d bs :
  log_ok L bs -> NoDup bs -> bs <> [] -> LR s L W (ABio v d ∅ (list_to_set bs)) ->
  length (v (lg_start L)) = Z.to_nat BSIZE -> head_is (d (lg_start L)) [] ->
  let start := lg_start L in
  let CW := commit_writes start bs v in
  wp commit s (fun _ s' => writes (ls_bio s') = W ++ CW /\
    forall k, outside_log start k -> disk (ls_bio s') k = v k) /\
  forall j pid L0 nlog, length (lh_block (lg_lh L0)) = Z.to_nat LOGSIZE ->
    wp (boot start nlog) (boot_state (apply_writes (take j CW) d) pid L0) (fun _ s' =>
      forall k, outside_log start k ->
        disk (ls_bio s') k = if decide (j <= length bs)%nat then d k else v k).
Proof.
  intros HL Hnd Hne H Hlen Hclear start CW.
  assert (Hgeo : geometry start bs) by (destruct HL; split; try done; lia).
  assert (Hin : forall b, b ∈ bs <-> b ∈ (list_to_set bs : gset Z)) by (intros b; by rewrite elem_of_list_to_set).
  assert (Hst : v start = d start).
  { eapply LR_clean; [exact H|]. intros Hs%Hin. destruct (ge_home _ _ Hgeo _ Hs). unfold LOGSIZE, MAXOPBLOCKS in *. lia. }
  assert (Hclean : forall k, k ∉ bs -> outside_log start k -> v k = d k).
  { intros k Hk _. eapply LR_clean; [exact H|]. by rewrite <- Hin. }
  split.
  - eapply wp_mono; [by apply (commit_ok s L W v d bs)|].
    intros [] s' (L' & _ & _ & [_ Hw [order Hr]]). split; [done|]. intros k Hk.
    rewrite (br_disk _ _ _ Hr). simpl. fold start.
    destruct (crash_late start bs v d Hgeo Hlen Hclean (length CW + 2 * length bs + 2) _ ltac:(lia) eq_refl) as [_ Hl].
    rewrite take_ge in Hl by (unfold CW; lia). by apply Hl.
  - intros j pid L0 nlog HL0.
    destruct (crash_recovers start bs v d Hgeo Hlen Hclear Hclean j _ eq_refl) as (Hh & Hg & Hrec).
    eapply wp_mono; [by apply (boot_ok _ pid L0 start nlog _ HL0 Hg Hh)|].
    intros [] s' (L' & W' & _ & _ & [_ _ [order Hr]]) k Hk. rewrite (br_disk _ _ _ Hr). by apply Hrec.
Qed.

(** * A concrete transaction *)

Definition disk_ex (k : Z) : list Z := replicate 1024 0.
Definition log_ex (n : Z) (bs : list Z) : log :=
  Log 2 30 1 0 ROOTDEV (Logheader n (bs ++ replicate (30 - length bs) 0)).

Lemma log_ex_ok : log_ok (log_ex 1 [50]) [50].
Proof.
  split; try done.
  - intros [|i] b Hb; simpl in *; by simplify_eq.
  - intros b ->%list_elem_of_singleton. simpl. unfold LOGSIZE, MAXOPBLOCKS. lia.
Qed.

(** Block 50 modified in the cache and pinned. *)
Lemma log_ex_state : exists s,
  LR s (log_ex 1 [50]) [] (ABio (fset disk_ex 50 [1; 2; 3]) disk_ex ∅ (list_to_set [50])).
Proof.
  assert (W0 : wp (b ← lb (binit;; bread ROOTDEV 50);
            lb (put_data b [1; 2; 3]);; lb (bpin b);; lb (brelse b))
    (boot_state disk_ex 1 (log_ex 1 [50])) (fun _ s =>
      LR s (log_ex 1 [50]) [] (ABio (fset disk_ex 50 [1; 2; 3]) disk_ex ∅ (list_to_set [50])))).
  { apply wp_bind, wp_zoom, wp_bind. eapply wp_mono; [by apply (binit_ok (bio_zero disk_ex 1))|].
    intros [] s (order & H & Hw & _).
    eapply wp_mono; [eapply (bread_ok s _ order 50 H); [by intros [b Hb]|right; unfold busy; simpl]|].
    { rewrite map_img_empty_L, union_empty_r_L, size_empty. unfold NBUF. lia. }
    intros b s1 (Hb & H1 & Hw1 & _).
    assert (H1' : LR (set_bio s1 (boot_state disk_ex 1 (log_ex 1 [50]))) (log_ex 1 [50]) []
      (ABio disk_ex disk_ex {[b := 50]} ∅)).
    { split; [done|simpl; by rewrite Hw1, Hw|by exists order]. }
    apply wp_bind. eapply wp_mono; [eapply (lb_put _ _ _ _ _ _ _ b 50); [exact H1'|apply lookup_singleton_eq]|].
    intros [] s2 H2. apply wp_bind.
    eapply wp_mono; [eapply (lb_bpin _ _ _ _ _ _ _ b 50); [exact H2|apply lookup_singleton_eq|set_solver]|].
    intros [] s3 H3.
    eapply wp_mono; [eapply (lb_brelse _ _ _ _ _ _ _ b 50); [exact H3|apply lookup_singleton_eq|left; set_solver]|].
    intros [] s4 H4. rewrite delete_singleton_eq in H4. simpl. done. }
  destruct (wp_inv _ _ _ W0) as ([] & s & _ & H). by exists s.
Qed.

Lemma commit_crash_safe_witness :
  exists s, wp commit s (fun _ s' => forall k, outside_log 2 k ->
      disk (ls_bio s') k = fset disk_ex 50 [1; 2; 3] k) /\
    wp (boot 2 30) (boot_state (apply_writes (take 1 (commit_writes 2 [50] (fset disk_ex 50 [1; 2; 3]))) disk_ex)
          1 (log_ex 0 [])) (fun _ s' => disk (ls_bio s') 50 = disk_ex 50) /\
    wp (boot 2 30) (boot_state (apply_writes (take 2 (commit_writes 2 [50] (fset disk_ex 50 [1; 2; 3]))) disk_ex)
          1 (log_ex 0 [])) (fun _ s' => disk (ls_bio s') 50 = [1; 2; 3]).
Proof.
  destruct log_ex_state as [s H]. exists s.
  destruct (commit_crash_safe s (log_ex 1 [50]) [] (fset disk_ex 50 [1; 2; 3]) disk_ex [50] log_ex_ok) as [Hc Hb];
    [by apply NoDup_singleton|done|exact H|by vm_compute|split; [by vm_compute|by intros i b ?]|].
  assert (Ho : outside_log 2 50) by (unfold outside_log, LOGSIZE, MAXOPBLOCKS; lia).
  split_and!.
  - eapply wp_mono; [exact Hc|]. by intros [] s' [_ Hk].
  - eapply wp_mono; [apply (Hb 1%nat 1 (log_ex 0 []) 30 eq_refl)|]. intros [] s' Hk. by rewrite Hk.
  - eapply wp_mono; [apply (Hb 2%nat 1 (log_ex 0 []) 30 eq_refl)|]. intros [] s' Hk. by rewrite Hk.
Defined.

(** * Recording writes *)

Lemma log_find_spec (blk bs : list Z) n bn i0 :
  (forall i b, bs !! i = Some b -> blk !! i = Some b) -> (forall b, b ∈ bs -> 0 <= b < 2 ^ 31) ->
  n = length bs ->
  (exists i, bs !! i = Some bn /\ log_find blk n bn i0 = i0 + Z.of_nat i) \/
  ((bn ∉ bs) /\ log_find blk n bn i0 = i0 + Z.of_nat n).
Proof.
  revert blk n i0. induction bs as [|b bs IH]; intros blk n i0 Hblk Hr ->.
  - right. split; [by intros ?%elem_of_nil|]. destruct blk; simpl; lia.
  - destruct blk as [|c blk]; [by specialize (Hblk 0%nat b eq_refl)|].
    assert (c = b) as -> by (specialize (Hblk 0%nat b eq_refl); simpl in Hblk; congruence).
    cbn [length log_find]. rewrite u32_small by (specialize (Hr b ltac:(left)); lia).
    destruct (Z.eqb_spec b bn) as [->|Hne]; [left; exists 0%nat; split; [done|lia]|].
    destruct (IH blk (length bs) (i0 + 1)) as [(i & Hi & E)|[Hn E]]; [|intros; apply Hr; by right|done| |].
    + intros i x Hx. apply (Hblk (S i) x). done.
    + left. exists (S i). split; [done|]. rewrite E. lia.
    + right. split; [by apply not_elem_of_cons|]. rewrite E. lia.
Qed.

(** What [log_write] of a held block does. *)
Lemma log_write_ok s L W v d hb bs b n :
  log_ok L bs -> NoDup bs -> LR s L W (ABio v d hb (list_to_set bs)) -> hb !! b = Some n ->
  1 <= lg_outstanding L -> Z.of_nat (length bs) < Z.min (LOGSIZE - 1) (lg_size L - 1) ->
  0 <= n < 2 ^ 31 -> outside_log (lg_start L) n ->
  let bs' := if decide (n ∈ bs) then bs else bs ++ [n] in
  wp (log_write b) s (fun _ s' => exists L', log_ok L' bs' /\ NoDup bs' /\
    LR s' L' W (ABio v d hb (list_to_set bs')) /\
    lg_start L' = lg_start L /\ lg_size L' = lg_size L /\ lg_outstanding L' = lg_outstanding L).
Proof.
  intros HL Hnd H Hb Ho Hmax Hn Hout bs'. unfold log_write.
  assert (HL' := HL). destruct HL' as [H1 H2 H3 H4 H5 H6 H7].
  apply wp_bind. eapply log_gets_ok; [exact H|]. rewrite H3.
  destruct (Z.leb_spec LOGSIZE (Z.of_nat (length bs))); [lia|].
  destruct (Z.leb_spec (lg_size L - 1) (Z.of_nat (length bs))); [lia|]. cbn [orb].
  destruct (Z.ltb_spec (lg_outstanding L) 1); [lia|].
  apply wp_bind, wp_zoom, wp_gets. destruct (lr_rep _ _ _ _ H) as [order Hr].
  destruct (br_held _ _ _ Hr b n Hb) as (_ & [_ Ebn] & _). rewrite Ebn, Nat2Z.id.
  assert (Hs : set_bio (ls_bio s) s = s) by (by destruct s). rewrite Hs.
  apply wp_bind. unfold store_block.
  destruct (log_find_spec (lh_block (lg_lh L)) bs (length bs) n 0 H4) as [(i & Hi & ->)|[Hni ->]];
    [intros x Hx; by apply H7|done|..].
  - pose proof (lookup_lt_Some _ _ _ Hi). rewrite Z.add_0_l.
    destruct (Z.leb_spec 0 (Z.of_nat i)), (Z.ltb_spec (Z.of_nat i) LOGSIZE); try lia. cbn [andb].
    eapply log_modify_ok; [exact H|]. intros s1 Hs1.
    destruct (Z.eqb_spec (Z.of_nat i) (Z.of_nat (length bs))); [lia|]. apply wp_ret.
    unfold bs'. rewrite decide_True by (by eapply list_elem_of_lookup_2).
    eexists. split_and!; [|done|exact Hs1|done|done|done]. split; try done; simpl.
    + intros j x Hx. rewrite Nat2Z.id, s32_small by lia. destruct (decide (i = j)) as [->|].
      * rewrite list_lookup_insert_eq; [congruence|]. rewrite H5. unfold LOGSIZE, MAXOPBLOCKS in *. lia.
      * rewrite list_lookup_insert_ne by done. by apply H4.
    + by rewrite length_insert.
  - rewrite Z.add_0_l.
    destruct (Z.leb_spec 0 (Z.of_nat (length bs))), (Z.ltb_spec (Z.of_nat (length bs)) LOGSIZE); try lia. cbn [andb].
    eapply log_modify_ok; [exact H|]. intros s1 Hs1. rewrite Z.eqb_refl. cbn [when].
    apply wp_bind. eapply wp_mono; [eapply (lb_bpin _ _ _ _ _ _ _ b n); [exact Hs1|done|]|].
    { by rewrite elem_of_list_to_set. }
    intros [] s2 Hs2. eapply log_modify_ok; [exact Hs2|]. intros s3 Hs3.
    unfold bs'. rewrite decide_False by done. exists (set_lh (fun h => set_n (lh_n h + 1) h)
      (set_lh (set_block (Z.to_nat (Z.of_nat (length bs))) (s32 n)) L)).
    split_and!; [| | |done|done|done].
    3:{ replace (list_to_set (bs ++ [n]) : gset Z) with ({[n]} ∪ list_to_set bs : gset Z) by set_solver.
        exact Hs3. }
    + split; try done; simpl.
      * rewrite H3, length_app. simpl. lia.
      * intros j x Hx. rewrite Nat2Z.id, s32_small by lia.
        apply lookup_app_Some in Hx as [Hx|[Hj Hx]].
        -- pose proof (lookup_lt_Some _ _ _ Hx). rewrite list_lookup_insert_ne by lia. by apply H4.
        -- apply list_lookup_singleton_Some in Hx as [Ej ->]. replace j with (length bs) by lia.
           apply list_lookup_insert_eq. rewrite H5. unfold LOGSIZE, MAXOPBLOCKS in *. lia.
      * by rewrite length_insert.
      * rewrite length_app. simpl. lia.
      * intros x [Hx| ->%list_elem_of_singleton]%elem_of_app; [by apply H7|done].
    + apply NoDup_app. split_and!; [done|intros x Hx ->%list_elem_of_singleton; done|apply NoDup_singleton].
Qed.

(** [log_write] of a held block records the block once: a block already in
    the transaction is absorbed, a new one is appended to the header in memory
    and its buffer pinned, so that the blocks of the transaction are exactly
    the pinned ones.  The log holds at most [min (LOGSIZE, size - 1)] blocks. *)
Theorem log_write_records s L W v d hb bs b n :
  log_ok L bs -> NoDup bs -> LR s L W (ABio v d hb (list_to_set bs)) -> hb !! b = Some n ->
  1 <= lg_outstanding L -> Z.of_nat (length bs) < Z.min (LOGSIZE - 1) (lg_size L - 1) ->
  0 <= n < 2 ^ 31 -> outside_log (lg_start L) n ->
  let bs' := if decide (n ∈ bs) then bs else bs ++ [n] in
  wp (log_write b) s (fun _ s' => exists L', log_ok L' bs' /\ NoDup bs' /\
    LR s' L' W (ABio v d hb (list_to_set bs'))).
Proof.
  intros HL Hnd H Hb Ho Hmax Hn Hout. cbv zeta.
  eapply wp_mono; [by eapply log_write_ok|]. intros [] s' (L' & ? & ? & ? & _). by exists L'.
Qed.

Lemma log_write_records_witness :
  exists s b, wp (log_write b) s (fun _ s' => exists L', log_ok L' [50] /\ NoDup [50] /\
    LR s' L' [] (ABio disk_ex disk_ex {[b := 50]} (list_to_set [50]))).
Proof.
  assert (HL : log_ok (log_ex 0 []) []).
  { split; try done. by intros b ?%elem_of_nil. }
  assert (Hs : exists s b, LR s (log_ex 0 []) [] (ABio disk_ex disk_ex {[b := 50]} (list_to_set []))).
  { assert (W0 : wp (binit;; bread ROOTDEV 50) (bio_zero disk_ex 1) (fun b s =>
      exists order, writes s = [] /\ bio_rep s (ABio disk_ex disk_ex {[b := 50]} ∅) order)).
    { apply wp_bind. eapply wp_mono; [by apply (binit_ok (bio_zero disk_ex 1))|].
      intros [] s (order & H & Hw & _).
      eapply wp_mono; [eapply (bread_ok s _ order 50 H); [by intros [b Hb]|right; unfold busy; simpl]|].
      { rewrite map_img_empty_L, union_empty_r_L, size_empty. unfold NBUF. lia. }
      intros b s1 (Hb & H1 & Hw1 & _). exists order. by rewrite Hw1, Hw. }
    destruct (wp_inv _ _ _ W0) as (b & s & _ & order & Hw & H).
    exists (LState s (log_ex 0 [])), b. split; [done|done|by exists order]. }
  destruct Hs as (s & b & H). exists s, b.
  apply (log_write_records s (log_ex 0 []) [] disk_ex disk_ex {[b := 50]} [] b 50 HL);
    [constructor|exact H|apply lookup_singleton_eq|by vm_compute|by vm_compute|lia|].
  unfold outside_log, LOGSIZE, MAXOPBLOCKS. simpl. lia.
Defined.

(** * The reservation of [begin_op] *)

(** The calls of an operation for a block it writes; what it puts into the
    buffer between them does not matter to the reservation. *)
Definition write_block (n : Z) : M lstate unit :=
  b ← lb (bread ROOTDEV n);
  log_write b;;
  lb (brelse b).

Fixpoint write_blocks (bs : list Z) : M lstate unit :=
  match bs with
  | [] => mret tt
  | n :: bs' => write_block n;; write_blocks bs'
  end.

Fixpoint begin_ops (k : nat) : M lstate unit :=
  match k with
  | O => mret tt
  | S k' => begin_op;; begin_ops k'
  end.

Lemma begin_ops_ok k s L W a Q :
  LR s L W a -> lg_committing L = 0 -> lh_n (lg_lh L) + (lg_outstanding L + Z.of_nat k) * MAXOPBLOCKS <= LOGSIZE ->
  (forall s', LR s' (set_outstanding (lg_outstanding L + Z.of_nat k) L) W a -> Q tt s') -> wp (begin_ops k) s Q.
Proof.
  revert s L. induction k as [|k IH]; intros s L H Hc Hres HQ; cbn [begin_ops].
  { apply wp_ret, HQ. rewrite Z.add_0_r. by destruct L. }
  apply wp_bind. unfold begin_op. apply wp_bind. eapply log_gets_ok; [exact H|]. rewrite Hc. cbn [ctrue negb Z.eqb].
  unfold MAXOPBLOCKS in *. destruct (Z.ltb_spec LOGSIZE (lh_n (lg_lh L) + (lg_outstanding L + 1) * 10)); [lia|].
  eapply log_modify_ok; [exact H|]. intros s1 H1. apply (IH s1 _ H1); [done|simpl; lia|].
  intros s2 H2. apply HQ. simpl in H2. replace (lg_outstanding L + Z.of_nat (S k)) with (lg_outstanding L + 1 + Z.of_nat k) by lia. exact H2.
Qed.

(** A transaction on log [L] that has logged [bs]. *)
Record logged (s : lstate) (L : log) (W : list (Z * list Z)) (v d : Z -> list Z) (bs : list Z) : Prop := {
  lw_ok : log_ok L bs;
  lw_nodup : NoDup bs;
  lw_rep : LR s L W (ABio v d ∅ (list_to_set bs));
  lw_open : 1 <= lg_outstanding L;
}.

Definition same_log (L L' : log) : Prop :=
  lg_start L' = lg_start L /\ lg_size L' = lg_size L /\ lg_outstanding L' = lg_outstanding L.

Lemma bread_room (bs : list Z) : NoDup bs -> Z.of_nat (length bs) < LOGSIZE -> (size (list_to_set bs ∪ map_img (∅ : gmap nat Z) : gset Z) < NBUF)%nat.
Proof.
  intros Hnd H. rewrite map_img_empty_L, union_empty_r_L, size_list_to_set by done.
  unfold LOGSIZE, MAXOPBLOCKS, NBUF in *. lia.
Qed.

(** A new block is recorded while there is room for it. *)
Lemma write_block_ok s L W v d bs n :
  logged s L W v d bs -> n ∉ bs -> Z.of_nat (length bs) < Z.min (LOGSIZE - 1) (lg_size L - 1) ->
  0 <= n < 2 ^ 31 -> outside_log (lg_start L) n ->
  wp (write_block n) s (fun _ s' => exists L', logged s' L' W v d (bs ++ [n]) /\ same_log L L').
Proof.
  intros [HL Hnd H Ho] Hnew Hmax Hn Hout. unfold write_block. apply wp_bind.
  eapply wp_mono; [apply (lb_bread L s W v d ∅ (list_to_set bs) n H); [by intros b ?|right; apply bread_room; [done|lia]]|].
  intros b s1 (_ & H1). apply wp_bind.
  eapply wp_mono; [apply (log_write_ok s1 L W v d {[b := n]} bs b n); try done; by rewrite lookup_singleton_eq|].
  intros [] s2 (L' & HL' & Hnd' & H2 & E). rewrite decide_False in HL', Hnd', H2 by done.
  eapply wp_mono; [apply (lb_brelse L' s2 W v d {[b := n]} _ b n H2); [by rewrite lookup_singleton_eq|left; set_solver]|].
  intros [] s3 H3. rewrite delete_singleton_eq in H3. exists L'. split; [split; try done; destruct E as (_ & _ & ->); done|done].
Qed.

Lemma write_blocks_ok ns s L W v d bs :
  logged s L W v d bs -> NoDup (bs ++ ns) -> Z.of_nat (length (bs ++ ns)) <= Z.min (LOGSIZE - 1) (lg_size L - 1) ->
  (forall n, n ∈ ns -> 0 <= n < 2 ^ 31 /\ outside_log (lg_start L) n) ->
  wp (write_blocks ns) s (fun _ s' => exists L', logged s' L' W v d (bs ++ ns) /\ same_log L L').
Proof.
  revert s L bs. induction ns as [|n ns IH]; intros s L bs HS Hnd Hmax Hns; cbn [write_blocks].
  { apply wp_ret. rewrite app_nil_r. by exists L. }
  destruct (Hns n) as [Hn Hout]; [left|]. rewrite length_app in Hmax. simpl in Hmax.
  apply wp_bind. eapply wp_mono; [apply (write_block_ok s L W v d bs n HS); [|lia|done|done]|].
  { intros Hin. apply NoDup_app in Hnd as (_ & Hnd & _). by apply (Hnd n Hin); left. }
  intros [] s1 (L1 & HS1 & E1 & E2 & E3). replace (bs ++ n :: ns) with ((bs ++ [n]) ++ ns) in * by (by rewrite <- app_assoc).
  eapply wp_mono; [apply (IH s1 L1 (bs ++ [n]) HS1 Hnd)|].
  - rewrite !length_app, E2. simpl. lia.
  - intros m Hm. rewrite E1. apply Hns. by right.
  - intros [] s2 (L2 & HS2 & E4 & E5 & E6). exists L2. split; [done|]. unfold same_log. by rewrite E4, E5, E6, E1, E2, E3.
Qed.

(** A log that is full refuses any block. *)
Lemma write_block_full s L W v d bs n :
  logged s L W v d bs -> Z.min LOGSIZE (lg_size L - 1) <= Z.of_nat (length bs) ->
  exists s', write_block n s = Panic "too big a transaction" s'.
Proof.
  intros [HL Hnd H Ho] Hfull. pose proof (lo_max _ _ HL).
  destruct (wp_inv _ _ _ (lb_bread L s W v d ∅ (list_to_set bs) n H ltac:(by intros b ?) (or_intror (bread_room bs Hnd ltac:(lia))))) as (b & s1 & E1 & _ & [El _ _]).
  unfold write_block. rewrite (bind_ok _ _ _ _ _ E1). unfold log_write, log_gets, gets, mbind, M_bind. rewrite El, (lo_n _ _ HL).
  destruct (Z.leb_spec LOGSIZE (Z.of_nat (length bs))); [by eexists|]. destruct (Z.leb_spec (lg_size L - 1) (Z.of_nat (length bs))); [by eexists|lia].
Qed.

Lemma write_blocks_app a b s s1 : write_blocks a s = Ok tt s1 -> write_blocks (a ++ b) s = write_blocks b s1.
Proof.
  revert s. induction a as [|n a IH]; intros s; cbn [write_blocks app]; [by intros [= <-]|].
  unfold mbind, M_bind. destruct (write_block n s); try done. apply IH.
Qed.

Lemma write_blocks_last ns n s L W v d :
  logged s L W v d [] -> NoDup ns -> lg_size L <= LOGSIZE -> Z.of_nat (length ns) = lg_size L - 1 ->
  (forall n, n ∈ ns -> 0 <= n < 2 ^ 31 /\ outside_log (lg_start L) n) ->
  exists s', write_blocks (ns ++ [n]) s = Panic "too big a transaction" s'.
Proof.
  intros HS Hnd Hsz Hlen Hns.
  destruct (wp_inv _ _ _ (write_blocks_ok ns s L W v d [] HS Hnd ltac:(simpl; lia) Hns)) as ([] & s1 & E1 & L1 & HS1 & _ & E & _).
  rewrite (write_blocks_app ns [n] s s1 E1). destruct (write_block_full s1 L1 W v d ns n HS1) as [s2 E2]; [rewrite E; lia|].
  exists s2. cbn [write_blocks]. unfold mbind, M_bind. by rewrite E2.
Qed.

Lemma length_concat_le (k : Z) (ls : list (list Z)) :
  Forall (fun l => Z.of_nat (length l) <= k) ls -> Z.of_nat (length (concat ls)) <= k * Z.of_nat (length ls).
Proof. induction 1; simpl; [lia|]. rewrite length_app. lia. Qed.

(** C18: the reservation of [begin_op] is one block more than a log of the size
    [mkfs] makes ([nlog = LOGSIZE]) holds.  From any state with an empty log
    and no operation under way, [begin_op] admits three operations and makes a
    fourth wait.  For all distinct blocks that the three write, at most
    [MAXOPBLOCKS] each as they may: fewer than [3 * MAXOPBLOCKS] in all are all
    recorded; with [3 * MAXOPBLOCKS] in all, [log_write] of the last runs into
    the panic "too big a transaction". *)
Theorem begin_op_reserves_too_much s L W v d ops :
  log_ok L [] -> LR s L W (ABio v d ∅ ∅) -> lg_committing L = 0 -> lg_outstanding L = 0 -> lg_size L = LOGSIZE ->
  length ops = 3%nat -> Forall (fun bs => Z.of_nat (length bs) <= MAXOPBLOCKS) ops -> NoDup (concat ops) ->
  (forall n, n ∈ concat ops -> 0 <= n < 2 ^ 31 /\ outside_log (lg_start L) n) ->
  exists s1, begin_ops 3 s = Ok tt s1 /\ begin_op s1 = Sleep ChanLog s1 /\
    if decide (Z.of_nat (length (concat ops)) = 3 * MAXOPBLOCKS)
    then exists s', write_blocks (concat ops) s1 = Panic "too big a transaction" s'
    else wp (write_blocks (concat ops)) s1 (fun _ s' => exists L', logged s' L' W v d (concat ops)).
Proof.
  intros HL H Hc Ho Hsz H3 Hmax Hnd Hns. assert (En := lo_n _ _ HL). simpl in En.
  assert (Hw : wp (begin_ops 3) s (fun _ s1 => LR s1 (set_outstanding 3 L) W (ABio v d ∅ ∅))).
  { apply (begin_ops_ok 3 s L W _ _ H Hc); [rewrite En, Ho; done|]. by rewrite Ho. }
  destruct (wp_inv _ _ _ Hw) as ([] & s1 & E1 & H1). exists s1. split; [done|].
  assert (HS : logged s1 (set_outstanding 3 L) W v d []) by (split; [by destruct HL|constructor|done|by simpl]).
  split; [unfold begin_op, log_gets, gets, mbind, M_bind; rewrite (lr_log _ _ _ _ H1); simpl; by rewrite Hc, En|].
  case_decide as Hlen.
  - destruct (concat ops) as [|n ns _] eqn:Ec using rev_ind; [done|]. apply NoDup_app in Hnd as (Hnd & _).
    rewrite length_app in Hlen. simpl in Hlen. apply (write_blocks_last ns n s1 _ _ _ _ HS); [done|by simpl; rewrite Hsz| |].
    + simpl. rewrite Hsz. unfold LOGSIZE, MAXOPBLOCKS in *. lia.
    + intros m Hm. apply Hns, elem_of_app. by left.
  - eapply wp_mono; [apply (write_blocks_ok (concat ops) s1 _ W v d [] HS); [done| |done]|].
    + simpl. pose proof (length_concat_le _ _ Hmax). rewrite Hsz. unfold LOGSIZE, MAXOPBLOCKS in *. lia.
    + intros [] s2 (L2 & HS2 & _). by exists L2.
Qed.

(** Three operations of ten blocks each, on the log that [mkfs] makes. *)
Definition ops_ex : list (list Z) := [seqZ 100 10; seqZ 200 10; seqZ 300 10].

Lemma begin_op_reserves_too_much_witness :
  exists s s1, begin_ops 3 s = Ok tt s1 /\ exists s', write_blocks (concat ops_ex) s1 = Panic "too big a transaction" s'.
Proof.
  assert (HL : log_ok (set_outstanding 0 (log_ex 0 [])) []) by (split; try done; by intros b ?%elem_of_nil).
  assert (Hs : exists s, LR s (set_outstanding 0 (log_ex 0 [])) [] (ABio disk_ex disk_ex ∅ ∅)).
  { destruct (wp_inv _ _ _ (binit_ok (bio_zero disk_ex 1) ltac:(done))) as ([] & s & _ & order & H & Hw & _).
    exists (LState s (set_outstanding 0 (log_ex 0 []))). split; [done|done|by exists order]. }
  destruct Hs as [s H]. exists s.
  destruct (begin_op_reserves_too_much s _ [] disk_ex disk_ex ops_ex HL H) as (s1 & E & _ & HP); try done.
  - by repeat constructor.
  - apply (bool_decide_unpack _). by vm_compute.
  - intros n Hn. apply list_elem_of_In in Hn. unfold outside_log, LOGSIZE, MAXOPBLOCKS. simpl in *. lia.
  - by exists s1.
Defined.
