(* ===== verification/Kernel.v ===== *)
(** The state of the kernel: the process table, the in-memory inodes, open
    files, pipes, the console and its serial port, over the page allocator's
    memory and the log, and the steps the components share.

    Every component above the log and the virtual memory runs on this state.
    The running thread is a process of the table ([k_cur]); spin locks are
    elided, so a section under a spin lock is one step.  A call to [sleep]
    marks the process SLEEPING and ends the run with the outcome [Sleep]. *)

From stdpp Require Import gmap.
From S2P Require Import Prelude CString Layout Kalloc Vm Sleeplock Bio Log.

(** * kernel/fs.h *)

Record superblock : Type := Superblock {
  sb_magic : Z; sb_size : Z; sb_nblocks : Z; sb_ninodes : Z;
  sb_nlog : Z; sb_logstart : Z; sb_inodestart : Z; sb_bmapstart : Z;
}.

(** [addrs] has [NDIRECT + 1] entries. *)
Record dinode : Type := Dinode {
  d_type : Z;
  d_major : Z;
  d_minor : Z;
  d_nlink : Z;
  d_size : Z;
  d_addrs : list Z;
}.

Definition set_d_type (v : Z) (x : dinode) : dinode :=
  Dinode v (d_major x) (d_minor x) (d_nlink x) (d_size x) (d_addrs x).
Definition set_d_major (v : Z) (x : dinode) : dinode :=
  Dinode (d_type x) v (d_minor x) (d_nlink x) (d_size x) (d_addrs x).
Definition set_d_minor (v : Z) (x : dinode) : dinode :=
  Dinode (d_type x) (d_major x) v (d_nlink x) (d_size x) (d_addrs x).
Definition set_d_nlink (v : Z) (x : dinode) : dinode :=
  Dinode (d_type x) (d_major x) (d_minor x) v (d_size x) (d_addrs x).
Definition set_d_size (v : Z) (x : dinode) : dinode :=
  Dinode (d_type x) (d_major x) (d_minor x) (d_nlink x) v (d_addrs x).
Definition set_d_addrs (v : list Z) (x : dinode) : dinode :=
  Dinode (d_type x) (d_major x) (d_minor x) (d_nlink x) (d_size x) v.

(** * kernel/file.h *)

(** [i_d] holds the copy of the disk inode. *)
Record inode : Type := Inode {
  i_dev : Z;
  i_inum : Z;
  i_ref : Z;
  i_lock : sleeplock;
  i_valid : Z;
  i_d : dinode;
}.

Definition set_i_dev (v : Z) (x : inode) : inode :=
  Inode v (i_inum x) (i_ref x) (i_lock x) (i_valid x) (i_d x).
Definition set_i_inum (v : Z) (x : inode) : inode :=
  Inode (i_dev x) v (i_ref x) (i_lock x) (i_valid x) (i_d x).
Definition set_i_ref (v : Z) (x : inode) : inode :=
  Inode (i_dev x) (i_inum x) v (i_lock x) (i_valid x) (i_d x).
Definition set_i_lock (v : sleeplock) (x : inode) : inode :=
  Inode (i_dev x) (i_inum x) (i_ref x) v (i_valid x) (i_d x).
Definition set_i_valid (v : Z) (x : inode) : inode :=
  Inode (i_dev x) (i_inum x) (i_ref x) (i_lock x) v (i_d x).
Definition set_i_d (v : dinode) (x : inode) : inode :=
  Inode (i_dev x) (i_inum x) (i_ref x) (i_lock x) (i_valid x) v.

Inductive filetype : Type := FD_NONE | FD_PIPE | FD_INODE | FD_DEVICE.

#[export] Instance filetype_eq_dec : EqDecision filetype.
Proof. solve_decision. Defined.

Record file : Type := File {
  f_type : filetype;
  f_ref : Z;
  f_readable : Z;
  f_writable : Z;
  f_pipe : Z;
  f_ip : option nat;
  f_off : Z;
  f_major : Z;
}.

Definition set_f_type (v : filetype) (x : file) : file :=
  File v (f_ref x) (f_readable x) (f_writable x) (f_pipe x) (f_ip x) (f_off x) (f_major x).
Definition set_f_ref (v : Z) (x : file) : file :=
  File (f_type x) v (f_readable x) (f_writable x) (f_pipe x) (f_ip x) (f_off x) (f_major x).
Definition set_f_readable (v : Z) (x : file) : file :=
  File (f_type x) (f_ref x) v (f_writable x) (f_pipe x) (f_ip x) (f_off x) (f_major x).
Definition set_f_writable (v : Z) (x : file) : file :=
  File (f_type x) (f_ref x) (f_readable x) v (f_pipe x) (f_ip x) (f_off x) (f_major x).
Definition set_f_pipe (v : Z) (x : file) : file :=
  File (f_type x) (f_ref x) (f_readable x) (f_writable x) v (f_ip x) (f_off x) (f_major x).
Definition set_f_ip (v : option nat) (x : file) : file :=
  File (f_type x) (f_ref x) (f_readable x) (f_writable x) (f_pipe x) v (f_off x) (f_major x).
Definition set_f_off (v : Z) (x : file) : file :=
  File (f_type x) (f_ref x) (f_readable x) (f_writable x) (f_pipe x) (f_ip x) v (f_major x).
Definition set_f_major (v : Z) (x : file) : file :=
  File (f_type x) (f_ref x) (f_readable x) (f_writable x) (f_pipe x) (f_ip x) (f_off x) v.

(** The device switch; the only device functions are the console's. *)
Inductive devfn : Type := Consoleread | Consolewrite.

Record devsw : Type := Devsw {
  dv_read : option devfn;
  dv_write : option devfn;
}.

(** * kernel/pipe.c *)

Definition PIPESIZE : Z := 512.

Record pipe : Type := Pipe {
  pi_data : list Z;
  pi_nread : Z;
  pi_nwrite : Z;
  pi_readopen : Z;
  pi_writeopen : Z;
}.

Definition set_pi_data (v : list Z) (x : pipe) : pipe :=
  Pipe v (pi_nread x) (pi_nwrite x) (pi_readopen x) (pi_writeopen x).
Definition set_pi_nread (v : Z) (x : pipe) : pipe :=
  Pipe (pi_data x) v (pi_nwrite x) (pi_readopen x) (pi_writeopen x).
Definition set_pi_nwrite (v : Z) (x : pipe) : pipe :=
  Pipe (pi_data x) (pi_nread x) v (pi_readopen x) (pi_writeopen x).
Definition set_pi_readopen (v : Z) (x : pipe) : pipe :=
  Pipe (pi_data x) (pi_nread x) (pi_nwrite x) v (pi_writeopen x).
Definition set_pi_writeopen (v : Z) (x : pipe) : pipe :=
  Pipe (pi_data x) (pi_nread x) (pi_nwrite x) (pi_readopen x) v.

(** * kernel/proc.h *)

Definition NPROC : nat := 64.

Inductive procstate : Type := UNUSED | USED | SLEEPING | RUNNABLE | RUNNING | ZOMBIE.

#[export] Instance procstate_eq_dec : EqDecision procstate.
Proof. solve_decision. Defined.

(** Pointers to processes, files and inodes are table indices; [context] lists
    x16 to x29, lr and sp; [name] is an array of 16 bytes. *)
Record proc : Type := Proc {
  p_state : procstate;
  p_chan : option chan;
  p_killed : Z;
  p_xstate : Z;
  p_pid : Z;
  p_parent : option nat;
  p_kstack : Z;
  p_size : Z;
  p_pagetable : Z;
  p_trapframe : Z;
  p_context : list Z;
  p_ofile : list (option nat);
  p_cwd : option nat;
  p_name : list Z;
}.

Definition set_p_state (v : procstate) (x : proc) : proc :=
  Proc v (p_chan x) (p_killed x) (p_xstate x) (p_pid x) (p_parent x) (p_kstack x) (p_size x)
    (p_pagetable x) (p_trapframe x) (p_context x) (p_ofile x) (p_cwd x) (p_name x).
Definition set_p_chan (v : option chan) (x : proc) : proc :=
  Proc (p_state x) v (p_killed x) (p_xstate x) (p_pid x) (p_parent x) (p_kstack x) (p_size x)
    (p_pagetable x) (p_trapframe x) (p_context x) (p_ofile x) (p_cwd x) (p_name x).
Definition set_p_killed (v : Z) (x : proc) : proc :=
  Proc (p_state x) (p_chan x) v (p_xstate x) (p_pid x) (p_parent x) (p_kstack x) (p_size x)
    (p_pagetable x) (p_trapframe x) (p_context x) (p_ofile x) (p_cwd x) (p_name x).
Definition set_p_xstate (v : Z) (x : proc) : proc :=
  Proc (p_state x) (p_chan x) (p_killed x) v (p_pid x) (p_parent x) (p_kstack x) (p_size x)
    (p_pagetable x) (p_trapframe x) (p_context x) (p_ofile x) (p_cwd x) (p_name x).
Definition set_p_pid (v : Z) (x : proc) : proc :=
  Proc (p_state x) (p_chan x) (p_killed x) (p_xstate x) v (p_parent x) (p_kstack x) (p_size x)
    (p_pagetable x) (p_trapframe x) (p_context x) (p_ofile x) (p_cwd x) (p_name x).
Definition set_p_parent (v : option nat) (x : proc) : proc :=
  Proc (p_state x) (p_chan x) (p_killed x) (p_xstate x) (p_pid x) v (p_kstack x) (p_size x)
    (p_pagetable x) (p_trapframe x) (p_context x) (p_ofile x) (p_cwd x) (p_name x).
Definition set_p_kstack (v : Z) (x : proc) : proc :=
  Proc (p_state x) (p_chan x) (p_killed x) (p_xstate x) (p_pid x) (p_parent x) v (p_size x)
    (p_pagetable x) (p_trapframe x) (p_context x) (p_ofile x) (p_cwd x) (p_name x).
Definition set_p_size (v : Z) (x : proc) : proc :=
  Proc (p_state x) (p_chan x) (p_killed x) (p_xstate x) (p_pid x) (p_parent x) (p_kstack x) v
    (p_pagetable x) (p_trapframe x) (p_context x) (p_ofile x) (p_cwd x) (p_name x).
Definition set_p_pagetable (v : Z) (x : proc) : proc :=
  Proc (p_state x) (p_chan x) (p_killed x) (p_xstate x) (p_pid x) (p_parent x) (p_kstack x)
    (p_size x) v (p_trapframe x) (p_context x) (p_ofile x) (p_cwd x) (p_name x).
Definition set_p_trapframe (v : Z) (x : proc) : proc :=
  Proc (p_state x) (p_chan x) (p_killed x) (p_xstate x) (p_pid x) (p_parent x) (p_kstack x)
    (p_size x) (p_pagetable x) v (p_context x) (p_ofile x) (p_cwd x) (p_name x).
Definition set_p_context (v : list Z) (x : proc) : proc :=
  Proc (p_state x) (p_chan x) (p_killed x) (p_xstate x) (p_pid x) (p_parent x) (p_kstack x)
    (p_size x) (p_pagetable x) (p_trapframe x) v (p_ofile x) (p_cwd x) (p_name x).
Definition set_p_ofile (v : list (option nat)) (x : proc) : proc :=
  Proc (p_state x) (p_chan x) (p_killed x) (p_xstate x) (p_pid x) (p_parent x) (p_kstack x)
    (p_size x) (p_pagetable x) (p_trapframe x) (p_context x) v (p_cwd x) (p_name x).
Definition set_p_cwd (v : option nat) (x : proc) : proc :=
  Proc (p_state x) (p_chan x) (p_killed x) (p_xstate x) (p_pid x) (p_parent x) (p_kstack x)
    (p_size x) (p_pagetable x) (p_trapframe x) (p_context x) (p_ofile x) v (p_name x).
Definition set_p_name (v : list Z) (x : proc) : proc :=
  Proc (p_state x) (p_chan x) (p_killed x) (p_xstate x) (p_pid x) (p_parent x) (p_kstack x)
    (p_size x) (p_pagetable x) (p_trapframe x) (p_context x) (p_ofile x) (p_cwd x) v.

(** * kernel/console.c and kernel/uart.c *)

Definition INPUT_BUF_SIZE : Z := 128.
Definition UART_TX_BUF_SIZE : Z := 32.

Record cons : Type := Cons {
  c_buf : list Z;
  c_r : Z;
  c_w : Z;
  c_e : Z;
}.

Definition set_c_buf (v : list Z) (x : cons) : cons :=
  Cons v (c_r x) (c_w x) (c_e x).
Definition set_c_r (v : Z) (x : cons) : cons :=
  Cons (c_buf x) v (c_w x) (c_e x).
Definition set_c_w (v : Z) (x : cons) : cons :=
  Cons (c_buf x) (c_r x) v (c_e x).
Definition set_c_e (v : Z) (x : cons) : cons :=
  Cons (c_buf x) (c_r x) (c_w x) v.

Record uart_tx : Type := UartTx {
  tx_buf : list Z;
  tx_w : Z;
  tx_r : Z;
}.

Definition set_tx_buf (v : list Z) (x : uart_tx) : uart_tx :=
  UartTx v (tx_w x) (tx_r x).
Definition set_tx_w (v : Z) (x : uart_tx) : uart_tx :=
  UartTx (tx_buf x) v (tx_r x).
Definition set_tx_r (v : Z) (x : uart_tx) : uart_tx :=
  UartTx (tx_buf x) (tx_w x) v.

(** Reads and writes of device registers, by address. *)
Inductive ioevent : Type :=
  | Rd (a v : Z)
  | Wr (a v : Z).

(** The interrupt handlers of [kernel/gic.c]. *)
Inductive handler : Type := Defintr | Timerintr | Uartintr | Virtio_disk_intr.

(** * The state *)

(** A pipe lives in the page it is allocated in; [k_pipes] gives the pipe at a
    page's address.  [k_io] lists the device accesses, newest first. *)
Record kernel : Type := Kernel {
  k_ls : lstate;
  k_sb : superblock;
  k_itable : nat -> inode;
  k_km : kmem;
  k_procs : nat -> proc;
  k_cur : option nat;
  k_nextpid : Z;
  k_initproc : option nat;
  k_first : Z;
  k_ftable : nat -> file;
  k_devsw : Z -> devsw;
  k_pipes : Z -> pipe;
  k_cons : cons;
  k_uart : uart_tx;
  k_io : list ioevent;
  k_panicked : Z;
  k_locking : Z;
  k_ticks : Z;
  k_ttbr0 : Z;
  k_intrs : list handler;
}.

Definition set_k_ls (v : lstate) (x : kernel) : kernel :=
  Kernel v (k_sb x) (k_itable x) (k_km x) (k_procs x) (k_cur x) (k_nextpid x) (k_initproc x)
    (k_first x) (k_ftable x) (k_devsw x) (k_pipes x) (k_cons x) (k_uart x) (k_io x)
    (k_panicked x) (k_locking x) (k_ticks x) (k_ttbr0 x) (k_intrs x).
Definition set_k_sb (v : superblock) (x : kernel) : kernel :=
  Kernel (k_ls x) v (k_itable x) (k_km x) (k_procs x) (k_cur x) (k_nextpid x) (k_initproc x)
    (k_first x) (k_ftable x) (k_devsw x) (k_pipes x) (k_cons x) (k_uart x) (k_io x)
    (k_panicked x) (k_locking x) (k_ticks x) (k_ttbr0 x) (k_intrs x).
Definition set_k_itable (v : nat -> inode) (x : kernel) : kernel :=
  Kernel (k_ls x) (k_sb x) v (k_km x) (k_procs x) (k_cur x) (k_nextpid x) (k_initproc x)
    (k_first x) (k_ftable x) (k_devsw x) (k_pipes x) (k_cons x) (k_uart x) (k_io x)
    (k_panicked x) (k_locking x) (k_ticks x) (k_ttbr0 x) (k_intrs x).
Definition set_k_km (v : kmem) (x : kernel) : kernel :=
  Kernel (k_ls x) (k_sb x) (k_itable x) v (k_procs x) (k_cur x) (k_nextpid x) (k_initproc x)
    (k_first x) (k_ftable x) (k_devsw x) (k_pipes x) (k_cons x) (k_uart x) (k_io x)
    (k_panicked x) (k_locking x) (k_ticks x) (k_ttbr0 x) (k_intrs x).
Definition set_k_procs (v : nat -> proc) (x : kernel) : kernel :=
  Kernel (k_ls x) (k_sb x) (k_itable x) (k_km x) v (k_cur x) (k_nextpid x) (k_initproc x)
    (k_first x) (k_ftable x) (k_devsw x) (k_pipes x) (k_cons x) (k_uart x) (k_io x)
    (k_panicked x) (k_locking x) (k_ticks x) (k_ttbr0 x) (k_intrs x).
Definition set_k_cur (v : option nat) (x : kernel) : kernel :=
  Kernel (k_ls x) (k_sb x) (k_itable x) (k_km x) (k_procs x) v (k_nextpid x) (k_initproc x)
    (k_first x) (k_ftable x) (k_devsw x) (k_pipes x) (k_cons x) (k_uart x) (k_io x)
    (k_panicked x) (k_locking x) (k_ticks x) (k_ttbr0 x) (k_intrs x).
Definition set_k_nextpid (v : Z) (x : kernel) : kernel :=
  Kernel (k_ls x) (k_sb x) (k_itable x) (k_km x) (k_procs x) (k_cur x) v (k_initproc x)
    (k_first x) (k_ftable x) (k_devsw x) (k_pipes x) (k_cons x) (k_uart x) (k_io x)
    (k_panicked x) (k_locking x) (k_ticks x) (k_ttbr0 x) (k_intrs x).
Definition set_k_initproc (v : option nat) (x : kernel) : kernel :=
  Kernel (k_ls x) (k_sb x) (k_itable x) (k_km x) (k_procs x) (k_cur x) (k_nextpid x) v
    (k_first x) (k_ftable x) (k_devsw x) (k_pipes x) (k_cons x) (k_uart x) (k_io x)
    (k_panicked x) (k_locking x) (k_ticks x) (k_ttbr0 x) (k_intrs x).
Definition set_k_first (v : Z) (x : kernel) : kernel :=
  Kernel (k_ls x) (k_sb x) (k_itable x) (k_km x) (k_procs x) (k_cur x) (k_nextpid x)
    (k_initproc x) v (k_ftable x) (k_devsw x) (k_pipes x) (k_cons x) (k_uart x) (k_io x)
    (k_panicked x) (k_locking x) (k_ticks x) (k_ttbr0 x) (k_intrs x).
Definition set_k_ftable (v : nat -> file) (x : kernel) : kernel :=
  Kernel (k_ls x) (k_sb x) (k_itable x) (k_km x) (k_procs x) (k_cur x) (k_nextpid x)
    (k_initproc x) (k_first x) v (k_devsw x) (k_pipes x) (k_cons x) (k_uart x) (k_io x)
    (k_panicked x) (k_locking x) (k_ticks x) (k_ttbr0 x) (k_intrs x).
Definition set_k_devsw (v : Z -> devsw) (x : kernel) : kernel :=
  Kernel (k_ls x) (k_sb x) (k_itable x) (k_km x) (k_procs x) (k_cur x) (k_nextpid x)
    (k_initproc x) (k_first x) (k_ftable x) v (k_pipes x) (k_cons x) (k_uart x) (k_io x)
    (k_panicked x) (k_locking x) (k_ticks x) (k_ttbr0 x) (k_intrs x).
Definition set_k_pipes (v : Z -> pipe) (x : kernel) : kernel :=
  Kernel (k_ls x) (k_sb x) (k_itable x) (k_km x) (k_procs x) (k_cur x) (k_nextpid x)
    (k_initproc x) (k_first x) (k_ftable x) (k_devsw x) v (k_cons x) (k_uart x) (k_io x)
    (k_panicked x) (k_locking x) (k_ticks x) (k_ttbr0 x) (k_intrs x).
Definition set_k_cons (v : cons) (x : kernel) : kernel :=
  Kernel (k_ls x) (k_sb x) (k_itable x) (k_km x) (k_procs x) (k_cur x) (k_nextpid x)
    (k_initproc x) (k_first x) (k_ftable x) (k_devsw x) (k_pipes x) v (k_uart x) (k_io x)
    (k_panicked x) (k_locking x) (k_ticks x) (k_ttbr0 x) (k_intrs x).
Definition set_k_uart (v : uart_tx) (x : kernel) : kernel :=
  Kernel (k_ls x) (k_sb x) (k_itable x) (k_km x) (k_procs x) (k_cur x) (k_nextpid x)
    (k_initproc x) (k_first x) (k_ftable x) (k_devsw x) (k_pipes x) (k_cons x) v (k_io x)
    (k_panicked x) (k_locking x) (k_ticks x) (k_ttbr0 x) (k_intrs x).
Definition set_k_io (v : list ioevent) (x : kernel) : kernel :=
  Kernel (k_ls x) (k_sb x) (k_itable x) (k_km x) (k_procs x) (k_cur x) (k_nextpid x)
    (k_initproc x) (k_first x) (k_ftable x) (k_devsw x) (k_pipes x) (k_cons x) (k_uart x) v
    (k_panicked x) (k_locking x) (k_ticks x) (k_ttbr0 x) (k_intrs x).
Definition set_k_panicked (v : Z) (x : kernel) : kernel :=
  Kernel (k_ls x) (k_sb x) (k_itable x) (k_km x) (k_procs x) (k_cur x) (k_nextpid x)
    (k_initproc x) (k_first x) (k_ftable x) (k_devsw x) (k_pipes x) (k_cons x) (k_uart x)
    (k_io x) v (k_locking x) (k_ticks x) (k_ttbr0 x) (k_intrs x).
Definition set_k_locking (v : Z) (x : kernel) : kernel :=
  Kernel (k_ls x) (k_sb x) (k_itable x) (k_km x) (k_procs x) (k_cur x) (k_nextpid x)
    (k_initproc x) (k_first x) (k_ftable x) (k_devsw x) (k_pipes x) (k_cons x) (k_uart x)
    (k_io x) (k_panicked x) v (k_ticks x) (k_ttbr0 x) (k_intrs x).
Definition set_k_ticks (v : Z) (x : kernel) : kernel :=
  Kernel (k_ls x) (k_sb x) (k_itable x) (k_km x) (k_procs x) (k_cur x) (k_nextpid x)
    (k_initproc x) (k_first x) (k_ftable x) (k_devsw x) (k_pipes x) (k_cons x) (k_uart x)
    (k_io x) (k_panicked x) (k_locking x) v (k_ttbr0 x) (k_intrs x).
Definition set_k_ttbr0 (v : Z) (x : kernel) : kernel :=
  Kernel (k_ls x) (k_sb x) (k_itable x) (k_km x) (k_procs x) (k_cur x) (k_nextpid x)
    (k_initproc x) (k_first x) (k_ftable x) (k_devsw x) (k_pipes x) (k_cons x) (k_uart x)
    (k_io x) (k_panicked x) (k_locking x) (k_ticks x) v (k_intrs x).
Definition set_k_intrs (v : list handler) (x : kernel) : kernel :=
  Kernel (k_ls x) (k_sb x) (k_itable x) (k_km x) (k_procs x) (k_cur x) (k_nextpid x)
    (k_initproc x) (k_first x) (k_ftable x) (k_devsw x) (k_pipes x) (k_cons x) (k_uart x)
    (k_io x) (k_panicked x) (k_locking x) (k_ticks x) (k_ttbr0 x) v.

Definition set_inode (i : nat) (f : inode -> inode) (s : kernel) : kernel :=
  set_k_itable (upd (k_itable s) i f) s.
Definition set_file (i : nat) (f : file -> file) (s : kernel) : kernel :=
  set_k_ftable (upd (k_ftable s) i f) s.
Definition set_proc (i : nat) (f : proc -> proc) (s : kernel) : kernel :=
  set_k_procs (upd (k_procs s) i f) s.
Definition set_pipe (a : Z) (f : pipe -> pipe) (s : kernel) : kernel :=
  set_k_pipes (fun b => if b =? a then f (k_pipes s b) else k_pipes s b) s.
Definition set_cons (f : cons -> cons) (s : kernel) : kernel := set_k_cons (f (k_cons s)) s.
Definition set_uart (f : uart_tx -> uart_tx) (s : kernel) : kernel := set_k_uart (f (k_uart s)) s.

(** * What the kernel image and the machine provide

    Addresses the linker and the compiler choose, the number of this CPU, the
    values device registers show, and a bound on how long the serial port
    stays full. *)
Class Platform : Type := {
  (** [bcache.buf[b].data] *)
  bufaddr : nat -> Z;
  (** a local variable whose address is taken *)
  klocal : Z;
  (** the symbols [trapret], [forkret], [eentry], [_binary_initcode_start] and
      [_binary_initcode_size] *)
  trapret : Z;
  forkret_addr : Z;
  eentry : Z;
  initcode_start : Z;
  initcode_size : Z;
  cpuid : Z;
  (** the value a device register shows after the given accesses *)
  io_read : list ioevent -> Z -> Z;
  polls : nat;
}.

Section steps.
Context `{KE : KernelEnd, PL : Platform}.

(** * Running the layers below *)

Definition vm {A} (m : M kmem A) : M kernel A := zoom k_km set_k_km m.

(** [myproc()], dereferenced: there is a running process. *)
Definition myproc : M kernel nat :=
  c ← gets k_cur;
  match c with
  | Some p => mret p
  | None => undefined "myproc()"
  end.

Definition the_proc (p : nat) : M kernel proc := gets (fun s => k_procs s p).

(** [sleep]: what [sleep] does up to [sched]; [wakeup] and the rest of
    [kernel/proc.c] are in [Sched]. *)
Definition sleep {A} (ch : chan) : M kernel A :=
  p ← myproc;
  modify (set_proc p (set_p_chan (Some ch)));;
  modify (set_proc p (set_p_state SLEEPING));;
  sleep_on ch.

(** An operation of the log or the buffer cache; waiting there is waiting of
    the running process. *)
Definition fl {A} (m : M lstate A) : M kernel A := fun s =>
  match zoom k_ls set_k_ls m s with
  | Sleep ch s' => sleep ch s'
  | o => o
  end.

Definition fb {A} (m : M bio A) : M kernel A := fl (lb m).

(** Kernel memory. *)
Definition load_mem (a : Z) (n : nat) : M kernel (list Z) :=
  gets (fun s => load_bytes (km_mem (k_km s)) a n).
Definition store_mem (a : Z) (l : list Z) : M kernel unit :=
  vm (modify (set_mem (fun m => store_bytes m a l))).

(** * Device registers *)

Definition rd (a : Z) : M kernel Z :=
  v ← gets (fun s => io_read (k_io s) a);
  modify (fun s => set_k_io (Rd a v :: k_io s) s);;
  mret v.

Definition wr (a v : Z) : M kernel unit :=
  modify (fun s => set_k_io (Wr a v :: k_io s) s).

(** * User copies from and to a local variable *)

Definition copyout_local (pt va : Z) (l : list Z) : M kernel Z :=
  store_mem klocal l;;
  vm (copyout pt va klocal (Z.of_nat (length l))).

Definition copyin_local (pt va : Z) (n : nat) : M kernel (Z * list Z) :=
  r ← vm (copyin pt klocal va (Z.of_nat n));
  l ← load_mem klocal n;
  mret (r, l).

(** * Rules *)

Lemma wp_vm {A} (m : M kmem A) s Q :
  wp m (k_km s) (fun a k => Q a (set_k_km k s)) -> wp (vm m) s Q.
Proof. apply wp_zoom. Qed.

Lemma wp_fl {A} (m : M lstate A) s Q :
  wp m (k_ls s) (fun a l => Q a (set_k_ls l s)) -> wp (fl m) s Q.
Proof.
  intros (a & l & E & HQ)%wp_inv. eapply wp_ok; [|exact HQ].
  unfold fl, zoom. by rewrite E.
Qed.

Lemma wp_rd a s Q :
  Q (io_read (k_io s) a) (set_k_io (Rd a (io_read (k_io s) a) :: k_io s) s) -> wp (rd a) s Q.
Proof. intros HQ. unfold rd. by wp_steps. Qed.

Lemma wp_wr a v s Q : Q tt (set_k_io (Wr a v :: k_io s) s) -> wp (wr a v) s Q.
Proof. intros HQ. unfold wr. by wp_steps. Qed.

Lemma wp_myproc s p Q : k_cur s = Some p -> Q p s -> wp myproc s Q.
Proof. intros E HQ. unfold myproc. wp_steps. rewrite E. by apply wp_ret. Qed.
End steps.
