(* ===== verification/UserMem.v ===== *)
(** What the virtual memory promises to the kernel's system calls: a process's
    memory is a partial function from user addresses to bytes, and the user
    copies from and to the kernel's buffers read and write it.

    [UserMem] is the interface; [vm_user_mem] implements it by the page tables
    of [VmTables] and the copies of [VmCopy]. *)

From stdpp Require Import gmap.
From S2P Require Import Prelude CString Layout Kalloc Vm VmTables VmOps VmCopy Sleeplock Bio Log Kernel.

(** The bytes of the local variable's stack slot. *)
Definition KLOCAL_SIZE : Z := 512.

(** [n] bytes of user memory from [va], if all are mapped. *)
Definition user_bytes (um : Z -> option Z) (va : Z) (l : list Z) : Prop :=
  forall i b, l !! i = Some b -> um (va + Z.of_nat i) = Some b.

(** User memory after [l] has been written at [va]. *)
Definition user_write (um : Z -> option Z) (va : Z) (l : list Z) : Z -> option Z :=
  fun x => match um x with
           | None => None
           | Some b => Some (default b (if x <? va then None else l !! Z.to_nat (x - va)))
           end.

Lemma user_write_nil um va : pointwise_relation Z eq (user_write um va []) um.
Proof.
  intros x. unfold user_write. destruct (um x); [|done]. by destruct (x <? va).
Qed.

Lemma user_write_app um va l l' :
  pointwise_relation Z eq (user_write (user_write um va l) (va + Z.of_nat (length l)) l')
    (user_write um va (l ++ l')).
Proof.
  intros x. unfold user_write. destruct (um x) as [b|]; [|done]. f_equal.
  destruct (Z.ltb_spec x va), (Z.ltb_spec x (va + Z.of_nat (length l))); simpl; try done; try lia.
  - by rewrite lookup_app_l by lia.
  - rewrite (lookup_ge_None_2 l), (lookup_app_r l) by lia. simpl.
    do 2 f_equal. lia.
Qed.

Section interface.
Context `{KE : KernelEnd, PL : Platform}.

(** The kernel memory the copies use: a local variable, or a part of the data
    of a disk buffer. *)
Definition kernel_buf (a : Z) (n : nat) : Prop :=
  (a = klocal /\ Z.of_nat n <= KLOCAL_SIZE) \/
  exists b, (b < NBUF)%nat /\ bufaddr b <= a /\ a + Z.of_nat n <= bufaddr b + BSIZE.

Class UserMem : Type := {
  um_rep : kmem -> Z -> (Z -> option Z) -> Prop;
  um_proper :: Proper (eq ==> eq ==> pointwise_relation Z eq ==> iff) um_rep;
  um_byte s pt um va b : um_rep s pt um -> um va = Some b -> 0 <= va < MAXVA /\ 0 <= b < 256;
  (** a store to a kernel buffer is not seen by the process *)
  um_store s pt um a l : um_rep s pt um -> kernel_buf a (length l) ->
    um_rep (set_mem (fun m => store_bytes m a l) s) pt um;
  um_copyin s pt um a va n : um_rep s pt um -> 0 <= va < 2 ^ 64 -> kernel_buf a n ->
    wp (copyin pt a va (Z.of_nat n)) s (fun r s' => um_rep s' pt um /\
      (forall x, ~ (a <= x < a + Z.of_nat n) -> km_mem s' x = km_mem s x) /\
      ((r = 0 /\ user_bytes um va (load_bytes (km_mem s') a n)) \/
       (r = -1 /\ exists i, 0 <= i < Z.of_nat n /\ um (va + i) = None)));
  um_copyout s pt um a va l : um_rep s pt um -> 0 <= va < 2 ^ 64 ->
    kernel_buf a (length l) -> Forall (fun b => 0 <= b < 256) l ->
    load_bytes (km_mem s) a (length l) = l ->
    wp (copyout pt va a (Z.of_nat (length l))) s (fun r s' =>
      (r = 0 /\ (forall i, 0 <= i < Z.of_nat (length l) -> is_Some (um (va + i))) /\
        um_rep s' pt (user_write um va l)) \/
      (r = -1 /\ exists k, 0 <= k < Z.of_nat (length l) /\ um (va + k) = None /\
        um_rep s' pt (user_write um va (take (Z.to_nat k) l))));
}.

(** The copies through a local, as the system calls use them. *)
Context {UM : UserMem}.

Lemma copyin_local_ok s pt um va n Q :
  um_rep (k_km s) pt um -> 0 <= va < 2 ^ 64 -> Z.of_nat n <= KLOCAL_SIZE ->
  (forall k l, um_rep k pt um -> length l = n -> user_bytes um va l -> Q (0, l) (set_k_km k s)) ->
  (forall k l i, um_rep k pt um -> 0 <= i < Z.of_nat n -> um (va + i) = None ->
     Q (-1, l) (set_k_km k s)) ->
  wp (copyin_local pt va n) s Q.
Proof.
  intros HU Hva Hn Hok Hbad. unfold copyin_local, load_mem. apply wp_bind, wp_vm.
  eapply wp_mono; [apply um_copyin; [done|done|by left]|]. intros r k (HU' & _ & Hr).
  wp_steps. destruct Hr as [[-> Hl]|[-> (i & Hi & Hi')]].
  - apply Hok; [done|by rewrite length_load_bytes|done].
  - by apply (Hbad k _ i).
Qed.

Lemma copyout_local_ok s pt um va l Q :
  um_rep (k_km s) pt um -> 0 <= va < 2 ^ 64 -> Z.of_nat (length l) <= KLOCAL_SIZE ->
  Forall (fun b => 0 <= b < 256) l ->
  (forall k, um_rep k pt (user_write um va l) ->
     (forall i, 0 <= i < Z.of_nat (length l) -> is_Some (um (va + i))) -> Q 0 (set_k_km k s)) ->
  (forall k i, 0 <= i < Z.of_nat (length l) -> um (va + i) = None ->
     um_rep k pt (user_write um va (take (Z.to_nat i) l)) -> Q (-1) (set_k_km k s)) ->
  wp (copyout_local pt va l) s Q.
Proof.
  intros HU Hva Hn Hl Hok Hbad. unfold copyout_local, store_mem. apply wp_bind, wp_vm. wp_steps.
  apply wp_vm. eapply wp_mono.
  - apply (um_copyout _ pt um klocal va l); [apply um_store; [done|by left]|done|by left|done|]. simpl.
    by apply load_store_bytes.
  - intros r k [(-> & Hs & HU')|(-> & i & Hi & Hn' & HU')]; simpl in *.
    + by apply Hok.
    + by apply (Hbad k i).
Qed.
End interface.

#[global] Opaque copyin_local copyout_local.

(** * The implementation *)

Section implementation.
Context `{KE : KernelEnd, PL : Platform}.

Lemma kernel_buf_size a n : kernel_buf a n -> Z.of_nat n <= BSIZE.
Proof. unfold kernel_buf, KLOCAL_SIZE, BSIZE. intros [[_ ?]|(b & _ & ? & ?)]; lia. Qed.

Definition ubyte (m : mem) (pt va : Z) : option Z :=
  if va <? 0 then None else a ← uaddr m pt va; Some (m a).

Definition vm_rep (s : kmem) (pt : Z) (um : Z -> option Z) : Prop :=
  exists l O, vm_inv s l O /\ O !! pt = Some (Tab pt 0 0) /\
    (forall a n i, kernel_buf a n -> 0 <= i < Z.of_nat n -> kernel_byte l O pt (a + i)) /\
    forall va, um va = ubyte (km_mem s) pt va.

Lemma ubyte_Some m pt va b :
  ubyte m pt va = Some b -> 0 <= va /\ exists a, uaddr m pt va = Some a /\ m a = b.
Proof.
  unfold ubyte. destruct (Z.ltb_spec va 0); [done|].
  destruct (uaddr m pt va) as [a|] eqn:E; simpl; [|done]. intros [= <-]. eauto.
Qed.

Lemma ubyte_None m pt va : 0 <= va -> ubyte m pt va = None <-> uaddr m pt va = None.
Proof.
  intros H. unfold ubyte. destruct (Z.ltb_spec va 0); [lia|]. by destruct (uaddr m pt va).
Qed.

Lemma ubyte_ext s l O s' pt :
  vm_inv s l O -> O !! pt = Some (Tab pt 0 0) ->
  (forall va, uaddr (km_mem s') pt va = uaddr (km_mem s) pt va) ->
  (forall va a, 0 <= va -> uaddr (km_mem s) pt va = Some a -> km_mem s' a = km_mem s a) ->
  forall va, ubyte (km_mem s') pt va = ubyte (km_mem s) pt va.
Proof.
  intros HI Hr Hu Hd va. unfold ubyte. destruct (Z.ltb_spec va 0); [done|].
  rewrite Hu. destruct (uaddr (km_mem s) pt va) as [a|] eqn:E; simpl; [|done].
  by rewrite (Hd va a).
Qed.

Lemma vm_rep_byte s pt um va b :
  vm_rep s pt um -> um va = Some b -> 0 <= va < MAXVA /\ 0 <= b < 256.
Proof.
  intros (l & O & HI & Hr & _ & Hum) Hb. rewrite Hum in Hb.
  apply ubyte_Some in Hb as (H0 & a & Ha & <-). split.
  - destruct (uaddr_dat s l O pt va a HI Hr H0 Ha). lia.
  - apply (vi_bytes _ _ _ HI).
Qed.

Lemma vm_rep_store s pt um a0 l :
  vm_rep s pt um -> kernel_buf a0 (length l) ->
  vm_rep (set_mem (fun m => store_bytes m a0 l) s) pt um.
Proof.
  intros (p & O & HI & Hr & Hk & Hum) Hl. set (s' := set_mem _ s).
  assert (Hout : forall x, ~ kernel_byte p O pt x -> km_mem s' x = km_mem s x).
  { intros x Hx. apply store_bytes_out. destruct (decide (a0 <= x < a0 + Z.of_nat (length l))); [|lia].
    exfalso. apply Hx. replace x with (a0 + (x - a0)) by lia. apply (Hk a0 (length l)); [done|lia]. }
  assert (Ht : forall q r k b x, O !! q = Some (Tab r k b) -> in_page q x -> km_mem s' x = km_mem s x).
  { intros q r k b x HO Hin. apply Hout. intros (_ & H & _). by apply (H q r k b). }
  assert (HI' : vm_inv s' p O).
  { apply (vm_inv_write s); [done|by apply store_bytes_ok, HI|done|done|].
    intros q x Hq Hin. apply Hout. intros (_ & _ & H). by apply (H q). }
  exists p, O. split_and!; [done|done|done|]. intros va. rewrite Hum. symmetry.
  apply (ubyte_ext s p O); [done|done|intros; by eapply uaddr_write|].
  intros va' a H0 Ha. apply Hout. intros (H & _).
  destruct (uaddr_dat s p O pt va' a HI Hr H0 Ha) as (_ & d & Hd & _ & _ & Hin). by apply (H d _ Hd).
Qed.

Lemma vm_rep_copyin s pt um a va n :
  vm_rep s pt um -> 0 <= va < 2 ^ 64 -> kernel_buf a n ->
  wp (copyin pt a va (Z.of_nat n)) s (fun r s' => vm_rep s' pt um /\
    (forall x, ~ (a <= x < a + Z.of_nat n) -> km_mem s' x = km_mem s x) /\
    ((r = 0 /\ user_bytes um va (load_bytes (km_mem s') a n)) \/
     (r = -1 /\ exists i, 0 <= i < Z.of_nat n /\ um (va + i) = None))).
Proof.
  intros (l & O & HI & Hr & Hk & Hum) Hva Hn. pose proof (kernel_buf_size a n Hn) as Hsz.
  pose proof (fun i => Hk a n i Hn) as Hkn.
  eapply wp_mono; [apply (copyin_ok s l O pt a va (Z.of_nat n)); try done; unfold BSIZE in *; lia|].
  intros r s' (HI' & k & HC & Hres).
  assert (Hkl : 0 <= k <= Z.of_nat n) by (destruct Hres as [[_ ->]|(_ & ? & _)]; lia).
  destruct (copied_in_inv s l O pt a va k s' HI Hr (vi_bytes _ _ _ HI')) as (_ & Hu & Hd).
  { intros i Hi. apply Hkn. lia. } { done. }
  split_and!.
  - exists l, O. split_and!; [done|done|done|]. intros x. rewrite Hum. symmetry. by eapply ubyte_ext.
  - intros x Hx. apply (ci_out _ _ _ _ _ _ HC). lia.
  - destruct Hres as [[-> ->]|(-> & Hi & E)].
    + left. split; [done|]. intros i b Hb.
      assert (i < n)%nat by (apply lookup_lt_Some in Hb; by rewrite length_load_bytes in Hb).
      rewrite lookup_load_bytes in Hb by done. injection Hb as <-.
      destruct (ci_in _ _ _ _ _ _ HC (Z.of_nat i)) as (x & Ha & E); [lia|].
      rewrite Hum, E. unfold ubyte. destruct (Z.ltb_spec (va + Z.of_nat i) 0); [lia|]. by rewrite Ha.
    + right. split; [done|]. exists k. split; [done|]. rewrite Hum. apply ubyte_None; [lia|done].
Qed.

(** User memory after [copyout] copied [k] bytes. *)
Lemma copied_out_write s l O pt a0 va bs k s' x :
  vm_inv s l O -> O !! pt = Some (Tab pt 0 0) -> 0 <= va ->
  load_bytes (km_mem s) a0 (length bs) = bs -> 0 <= k <= Z.of_nat (length bs) ->
  (forall va, uaddr (km_mem s') pt va = uaddr (km_mem s) pt va) ->
  copied_out s pt va a0 k s' ->
  ubyte (km_mem s') pt x = user_write (ubyte (km_mem s) pt) va (take (Z.to_nat k) bs) x.
Proof.
  intros HI Hr Hva Hbs Hk Hu HC. unfold user_write. unfold ubyte at 1 2.
  destruct (Z.ltb_spec x 0); [done|]. rewrite Hu.
  destruct (uaddr (km_mem s) pt x) as [a|] eqn:Ha; simpl; [|done]. f_equal.
  destruct (decide (va <= x < va + k)) as [Hin|Hnot].
  - destruct (co_in _ _ _ _ _ _ HC (x - va)) as (a' & Ha' & E); [lia|].
    replace (va + (x - va)) with x in Ha' by lia. simplify_eq. rewrite E.
    destruct (Z.ltb_spec x va); [lia|]. rewrite lookup_take_lt by lia.
    assert (bs !! Z.to_nat (x - va) = Some (km_mem s (a0 + (x - va)))) as ->; [|done].
    rewrite <- Hbs, lookup_load_bytes by lia. do 2 f_equal. lia.
  - rewrite (co_out _ _ _ _ _ _ HC).
    + destruct (Z.ltb_spec x va); [done|]. by rewrite lookup_take_ge by lia.
    + intros i Hi Ha'. assert (x = va + i) by (eapply (uaddr_inj s l O pt); [..|done|done]; [done|done|lia|lia]).
      lia.
Qed.

Lemma vm_rep_copyout s pt um a va bs :
  vm_rep s pt um -> 0 <= va < 2 ^ 64 -> kernel_buf a (length bs) ->
  Forall (fun b => 0 <= b < 256) bs -> load_bytes (km_mem s) a (length bs) = bs ->
  wp (copyout pt va a (Z.of_nat (length bs))) s (fun r s' =>
    (r = 0 /\ (forall i, 0 <= i < Z.of_nat (length bs) -> is_Some (um (va + i))) /\
      vm_rep s' pt (user_write um va bs)) \/
    (r = -1 /\ exists k, 0 <= k < Z.of_nat (length bs) /\ um (va + k) = None /\
      vm_rep s' pt (user_write um va (take (Z.to_nat k) bs)))).
Proof.
  intros (l & O & HI & Hr & Hk & Hum) Hva Hn Hb Hbs. pose proof (kernel_buf_size _ _ Hn) as Hsz.
  eapply wp_mono; [apply (copyout_ok s l O pt va a (Z.of_nat (length bs))); try done; try (unfold BSIZE in *; lia)|].
  { intros i Hi. by apply (Hk a (length bs)). }
  intros r s' (HI' & Hu & k & HC & Hres).
  assert (Hkn : 0 <= k <= Z.of_nat (length bs)) by (destruct Hres as [[_ ->]|(_ & ? & _)]; lia).
  assert (HR : vm_rep s' pt (user_write um va (take (Z.to_nat k) bs))).
  { exists l, O. split_and!; [done|done|done|]. intros x.
    rewrite (copied_out_write s l O pt a va bs k s') by (done || lia).
    unfold user_write. by rewrite Hum. }
  destruct Hres as [[-> ->]|(-> & Hi & E)].
  - left. split_and!; [done| |by rewrite Nat2Z.id, firstn_all in HR].
    intros i Hi. destruct (co_in _ _ _ _ _ _ HC i Hi) as (x & Ha & _). rewrite Hum. unfold ubyte.
    destruct (Z.ltb_spec (va + i) 0); [lia|]. by rewrite Ha.
  - right. split; [done|]. exists k. split_and!; [lia|lia| |done].
    rewrite Hum. apply ubyte_None; [lia|done].
Qed.

Lemma vm_rep_proper : Proper (eq ==> eq ==> pointwise_relation Z eq ==> iff) vm_rep.
Proof.
  intros s ? <- pt ? <- um um' E. unfold vm_rep.
  split; intros (l & O & HI & Hr & Hk & Hum); exists l, O; split_and!; try done; intros va.
  - by rewrite <- E.
  - by rewrite E.
Qed.

#[export] Instance vm_user_mem : UserMem := {
  um_rep := vm_rep;
  um_proper := vm_rep_proper;
  um_byte := vm_rep_byte;
  um_store := vm_rep_store;
  um_copyin := vm_rep_copyin;
  um_copyout := vm_rep_copyout;
}.
End implementation.
