(* ===== verification/Sched.v ===== *)
(** Process states, [kernel/proc.c]: the process table's scheduling half.
    Sleeping and waking, killing, yielding, pids, the copies between a kernel
    buffer and either address space, and growing a process.  [Process] holds
    the operations that also involve files. *)

From S2P Require Import Prelude CString Layout Kalloc Vm Sleeplock Bio Log Kernel.

Section sched.
Context `{KE : KernelEnd, PL : Platform}.

(** The loops over [proc[0..NPROC)]: [f] is the body for one process. *)
Fixpoint for_procs (f : nat -> M kernel unit) (n : nat) (p : nat) : M kernel unit :=
  match n with
  | O => mret tt
  | S n' => f p;; for_procs f n' (S p)
  end.

Definition procinit : M kernel unit :=
  for_procs (fun p => modify (set_proc p (set_p_state UNUSED))) NPROC 0.

Definition allocpid : M kernel Z :=
  pid ← gets k_nextpid;
  modify (set_k_nextpid (s32 (pid + 1)));;
  mret pid.

Definition killed (p : nat) : M kernel Z := gets (fun s => p_killed (k_procs s p)).

Definition setkilled (p : nat) : M kernel unit := modify (set_proc p (set_p_killed 1)).

(** The body of the loop of [wakeup]. *)
Definition wakeup_body (ch : chan) (p : nat) : M kernel unit :=
  cur ← gets k_cur;
  when (negb (bool_decide (cur = Some p))) (
    q ← the_proc p;
    when (bool_decide (p_state q = SLEEPING) && bool_decide (p_chan q = Some ch))
      (modify (set_proc p (set_p_state RUNNABLE)))).

Definition wakeup (ch : chan) : M kernel unit := for_procs (wakeup_body ch) NPROC 0.

(** [yield] up to [sched]: the caller is RUNNABLE and the scheduler runs. *)
Definition yield : M kernel unit :=
  p ← myproc;
  q ← the_proc p;
  when (bool_decide (p_state q = RUNNING)) (modify (set_proc p (set_p_state RUNNABLE))).

Fixpoint kill_loop (n : nat) (pid : Z) (p : nat) : M kernel Z :=
  match n with
  | O => mret (-1)
  | S n' =>
      q ← the_proc p;
      if p_pid q =? pid then
        modify (set_proc p (set_p_killed 1));;
        when (bool_decide (p_state q = SLEEPING)) (modify (set_proc p (set_p_state RUNNABLE)));;
        mret 0
      else kill_loop n' pid (S p)
  end.

Definition kill (pid : Z) : M kernel Z := kill_loop NPROC pid 0.

Definition uvmswitch (p : nat) : M kernel unit :=
  q ← the_proc p;
  if p_pagetable q =? 0 then panic "uvmswitch"
  else modify (set_k_ttbr0 (V2P (p_pagetable q))).

(** [c->proc = p]; the buffer cache sees the pid of the running process. *)
Definition set_cur (p : nat) (s : kernel) : kernel :=
  let b := ls_bio (k_ls s) in
  set_k_ls (set_bio (Bio (bufs b) (disk b) (writes b) (p_pid (k_procs s p))) (k_ls s))
    (set_k_cur (Some p) s).

(** The scheduler's choice: the body of its loop at process [p], up to
    [swtch]; [true] when it switches. *)
Definition scheduler_pick (p : nat) : M kernel bool :=
  q ← the_proc p;
  if bool_decide (p_state q = RUNNABLE) then
    modify (set_proc p (set_p_state RUNNING));;
    modify (set_cur p);;
    uvmswitch p;;
    mret true
  else mret false.

(** Once the process switches back. *)
Definition scheduler_back : M kernel unit := modify (set_k_cur None).

Definition either_copyout (user_dst : bool) (dst src len : Z) : M kernel Z :=
  p ← myproc;
  q ← the_proc p;
  if user_dst then vm (copyout (p_pagetable q) dst src len)
  else vm (modify (set_mem (fun m => memmove m dst src len)));; mret 0.

Definition either_copyin (dst : Z) (user_src : bool) (src len : Z) : M kernel Z :=
  p ← myproc;
  q ← the_proc p;
  if user_src then vm (copyin (p_pagetable q) dst src len)
  else vm (modify (set_mem (fun m => memmove m dst src len)));; mret 0.

Definition reparent_body (p pp : nat) : M kernel unit :=
  q ← the_proc pp;
  when (bool_decide (p_parent q = Some p)) (
    init ← gets k_initproc;
    modify (set_proc pp (set_p_parent init));;
    match init with
    | Some i => wakeup (ChanProc i)
    | None => mret tt
    end).

Definition reparent (p : nat) : M kernel unit := for_procs (reparent_body p) NPROC 0.

Definition growproc (n : Z) : M kernel Z :=
  p ← myproc;
  q ← the_proc p;
  let sz := p_size q in
  if 0 <? n then
    sz ← vm (uvmalloc kend (p_pagetable q) sz (u64 (sz + n)) USER_4K_PAGE_RW_XN);
    if sz =? 0 then mret (-1)
    else modify (set_proc p (set_p_size sz));; mret 0
  else if n <? 0 then
    sz ← vm (uvmdealloc kend (p_pagetable q) sz (u64 (sz + n)));
    modify (set_proc p (set_p_size sz));; mret 0
  else modify (set_proc p (set_p_size sz));; mret 0.

(** * What the loops over the table do *)

(** [s'] is [s] with another process table. *)
Definition with_procs (s : kernel) (f : nat -> proc) (s' : kernel) : Prop :=
  exists pr, s' = set_k_procs pr s /\ forall p, pr p = f p.

Lemma with_procs_same s f : (forall p, f p = k_procs s p) -> with_procs s f s.
Proof. intros H. exists (k_procs s). split; [by destruct s|]. intros p. by rewrite H. Qed.

Lemma with_procs_ext s f g s' : with_procs s f s' -> (forall p, f p = g p) -> with_procs s g s'.
Proof. intros (pr & -> & H) E. exists pr. split; [done|]. intros p. by rewrite H. Qed.

Lemma for_procs_ok (body : nat -> M kernel unit) (h : nat -> proc -> proc) n p s
    (I : kernel -> Prop) :
  (forall q s, I s -> wp (body q) s (fun _ s' => I s' /\ with_procs s (upd (k_procs s) q (h q)) s')) ->
  I s ->
  wp (for_procs body n p) s (fun _ s' => I s' /\ with_procs s (fun q =>
    if decide (p <= q < p + n)%nat then h q (k_procs s q) else k_procs s q) s').
Proof.
  intros Hb. revert p s. induction n as [|n IH]; intros p s HI; simpl.
  - apply wp_ret. split; [done|]. apply with_procs_same.
    intros q. by rewrite decide_False by lia.
  - apply wp_bind. eapply wp_mono; [by apply Hb|]. intros [] s1 [HI1 (pr & -> & Hpr)].
    eapply wp_mono; [by apply IH|]. intros [] s2 [HI2 (pr2 & -> & Hpr2)]. simpl in *.
    split; [done|]. exists pr2. split; [done|]. intros q. rewrite Hpr2, !Hpr. unfold upd.
    repeat case_decide; subst; try done; lia.
Qed.

(** The state of [q] = [proc[p]] after [wakeup(ch)]. *)
Definition woken (cur : option nat) (ch : chan) (p : nat) (q : proc) : proc :=
  if bool_decide (cur <> Some p /\ p_state q = SLEEPING /\ p_chan q = Some ch)
  then set_p_state RUNNABLE q else q.

Lemma woken_yes cur ch p q :
  cur <> Some p -> p_state q = SLEEPING -> p_chan q = Some ch ->
  woken cur ch p q = set_p_state RUNNABLE q.
Proof. intros. unfold woken. by rewrite bool_decide_true. Qed.

Lemma woken_not cur ch p q :
  ~ (cur <> Some p /\ p_state q = SLEEPING /\ p_chan q = Some ch) -> woken cur ch p q = q.
Proof. intros. unfold woken. by rewrite bool_decide_false. Qed.

Lemma wakeup_ok ch s :
  wp (wakeup ch) s (fun _ s' => with_procs s (fun p =>
    if decide (p < NPROC)%nat then woken (k_cur s) ch p (k_procs s p) else k_procs s p) s').
Proof.
  eapply wp_mono;
    [apply (for_procs_ok _ (woken (k_cur s) ch) _ _ _ (fun s' => k_cur s' = k_cur s)); [|done]|].
  - intros p s1 E. unfold wakeup_body, when. wp_steps. rewrite E.
    assert (Hsame : woken (k_cur s) ch p (k_procs s1 p) = k_procs s1 p ->
      k_cur s1 = k_cur s /\ with_procs s1 (upd (k_procs s1) p (woken (k_cur s) ch p)) s1).
    { intros Hw. split; [done|]. apply with_procs_same. intros q. unfold upd.
      case_decide; [by subst|done]. }
    destruct (decide (k_cur s = Some p)) as [E1|E1].
    { rewrite bool_decide_true by done. apply wp_ret, Hsame, woken_not. tauto. }
    rewrite bool_decide_false by done. wp_steps.
    destruct (decide (p_state (k_procs s1 p) = SLEEPING /\ p_chan (k_procs s1 p) = Some ch))
      as [[E2 E3]|E2].
    + rewrite !bool_decide_true by done. wp_steps. split; [done|].
      exists (upd (k_procs s1) p (set_p_state RUNNABLE)).
      split; [done|]. intros q. unfold upd. case_decide; [|done]. subst.
      by rewrite woken_yes.
    + destruct (_ && _) eqn:E4; [|apply wp_ret, Hsame, woken_not; tauto].
      apply andb_true_iff in E4 as [?%bool_decide_eq_true ?%bool_decide_eq_true]. tauto.
  - intros [] s' [_ H]. eapply with_procs_ext; [exact H|]. intros q. simpl.
    repeat case_decide; done || lia.
Qed.
End sched.

#[global] Opaque wakeup.
