(* ===== verification/Spinlock.v ===== *)
(** Spin locks, [kernel/spinlock.c], and several CPUs that contend for them.

    Locks and CPUs are named by numbers; [lk->cpu] is the CPU's number, [None]
    for 0; the lock's name, for debugging only, is left out.  Whether a CPU
    takes interrupts is its DAIF register.  The operations are written as one
    CPU performs them; the relation [cstep] interleaves them at the points
    where the source touches the lock. *)

From stdpp Require Import gmap.
From S2P Require Import Prelude Bio.

Record spinlock : Type := Spinlock {
  lk_locked : Z;
  lk_cpu : option nat;
}.

Record cpu : Type := Cpu {
  noff : Z;
  intena : Z;
  irq_on : bool;
}.

Record machine : Type := Machine {
  m_lock : nat -> spinlock;
  m_cpu : nat -> cpu;
}.

Definition set_spin (l : nat) (f : spinlock -> spinlock) (m : machine) : machine :=
  Machine (upd (m_lock m) l f) (m_cpu m).
Definition set_cpu (c : nat) (f : cpu -> cpu) (m : machine) : machine :=
  Machine (m_lock m) (upd (m_cpu m) c f).
Definition set_noff (x : Z) (c : cpu) : cpu := Cpu x (intena c) (irq_on c).
Definition set_intena (x : Z) (c : cpu) : cpu := Cpu (noff c) x (irq_on c).
Definition set_irq (x : bool) (c : cpu) : cpu := Cpu (noff c) (intena c) x.
Definition set_locked (x : Z) (l : spinlock) : spinlock := Spinlock x (lk_cpu l).
Definition set_lk_cpu (x : option nat) (l : spinlock) : spinlock := Spinlock (lk_locked l) x.

Section ops.
(** The CPU the code runs on. *)
Context (c : nat).

Definition initlock (l : nat) : M machine unit := modify (set_spin l (fun _ => Spinlock 0 None)).

Definition intr_get : M machine Z := gets (fun m => b2z (irq_on (m_cpu m c))).
Definition intr_on : M machine unit := modify (set_cpu c (set_irq true)).
Definition intr_off : M machine unit := modify (set_cpu c (set_irq false)).

Definition push_off : M machine unit :=
  old ← intr_get;
  intr_off;;
  x ← gets (fun m => m_cpu m c);
  when (noff x =? 0) (modify (set_cpu c (set_intena old)));;
  modify (set_cpu c (set_noff (noff x + 1))).

Definition pop_off : M machine unit :=
  x ← gets (fun m => m_cpu m c);
  i ← intr_get;
  if ctrue i then panic "pop_off - interruptible"
  else if noff x <? 1 then panic "pop_off"
  else
    modify (set_cpu c (set_noff (noff x - 1)));;
    when ((noff x - 1 =? 0) && ctrue (intena x)) intr_on.

Definition holding (l : nat) : M machine bool :=
  gets (fun m => ctrue (lk_locked (m_lock m l)) && bool_decide (lk_cpu (m_lock m l) = Some c)).

(** [acquire] up to its loop, one attempt of the loop, and what follows it.  A
    [ldxr] and [stxr] pair that succeeds is atomic. *)
Definition acquire_enter (l : nat) : M machine unit :=
  push_off;;
  h ← holding l;
  if h : bool then panic "acquire" else mret tt.

Definition acquire_try (l : nat) : M machine bool :=
  x ← gets (fun m => lk_locked (m_lock m l));
  if ctrue x then mret false
  else modify (set_spin l (set_locked 1));; mret true.

Definition acquire_done (l : nat) : M machine unit := modify (set_spin l (set_lk_cpu (Some c))).

(** With nothing else running, a taken lock stays taken. *)
Definition acquire (l : nat) : M machine unit :=
  acquire_enter l;;
  won ← acquire_try l;
  if won : bool then acquire_done l else nofuel.

(** [release] up to the barrier, and the store behind it. *)
Definition release_enter (l : nat) : M machine unit :=
  h ← holding l;
  if negb h then panic "release"
  else modify (set_spin l (set_lk_cpu None)).

Definition release_store (l : nat) : M machine unit := modify (set_spin l (set_locked 0)).

Definition release (l : nat) : M machine unit :=
  release_enter l;;
  release_store l;;
  pop_off.
End ops.

(** * CPUs that interleave *)

(** Where a CPU is: in its own code, or inside [acquire] or [release]. *)
Inductive place : Type :=
  | Run
  | Spin (l : nat)          (* in the loop of acquire *)
  | Won (l : nat)           (* the lock word is set, lk->cpu is not *)
  | Clear (l : nat)         (* lk->cpu is cleared, the lock word is not *)
  | Pop.                    (* before the pop_off of release *)

(** The locks a CPU has acquired and not begun to release, and its calls to
    [push_off] not yet matched, are recorded beside the machine. *)
Record conc : Type := Conc {
  cm : machine;
  at_ : nat -> place;
  held : nat -> gset nat;
  pushes : nat -> nat;
}.

Definition cgo (s : conc) (c : nat) (m : machine) (x : place) (h : gset nat) (n : nat) : conc :=
  Conc m (upd (at_ s) c (fun _ => x)) (upd (held s) c (fun _ => h)) (upd (pushes s) c (fun _ => n)).

Inductive cstep : conc -> conc -> Prop :=
  | c_acquire s c l m : at_ s c = Run -> acquire_enter c l (cm s) = Ok tt m ->
      cstep s (cgo s c m (Spin l) (held s c) (pushes s c))
  | c_try s c l won m : at_ s c = Spin l -> acquire_try l (cm s) = Ok won m ->
      cstep s (cgo s c m (if won : bool then Won l else Spin l) (held s c) (pushes s c))
  | c_done s c l m : at_ s c = Won l -> acquire_done c l (cm s) = Ok tt m ->
      cstep s (cgo s c m Run ({[l]} ∪ held s c) (pushes s c))
  | c_release s c l m : at_ s c = Run -> release_enter c l (cm s) = Ok tt m ->
      cstep s (cgo s c m (Clear l) (held s c ∖ {[l]}) (pushes s c))
  | c_store s c l m : at_ s c = Clear l -> release_store l (cm s) = Ok tt m ->
      cstep s (cgo s c m Pop (held s c) (pushes s c))
  | c_pop s c m : at_ s c = Pop -> pop_off c (cm s) = Ok tt m ->
      cstep s (cgo s c m Run (held s c) (pushes s c))
  | c_push_off s c m : at_ s c = Run -> push_off c (cm s) = Ok tt m ->
      cstep s (cgo s c m Run (held s c) (S (pushes s c)))
  | c_pop_off s c n m : at_ s c = Run -> pushes s c = S n -> pop_off c (cm s) = Ok tt m ->
      cstep s (cgo s c m Run (held s c) n)
  | c_intr s c b : at_ s c = Run -> noff (m_cpu (cm s) c) = 0 ->
      cstep s (Conc (set_cpu c (set_irq b) (cm s)) (at_ s) (held s) (pushes s)).

Definition cboot : conc :=
  Conc (Machine (fun _ => Spinlock 0 None) (fun _ => Cpu 0 0 false)) (fun _ => Run) (fun _ => ∅) (fun _ => O).

(** From winning the lock word to clearing it. *)
Definition owner (s : conc) (c l : nat) : Prop := l ∈ held s c \/ at_ s c = Won l \/ at_ s c = Clear l.

Definition depth (x : place) : Z := match x with Run => 0 | _ => 1 end.

(** * What the operations do *)

(** [m'] is [m] with CPU [c] changed to [x]. *)
Definition cpu_changed (m m' : machine) (c : nat) (x : cpu) : Prop :=
  m_lock m' = m_lock m /\ forall c', m_cpu m' c' = if decide (c' = c) then x else m_cpu m c'.

Definition pushed (x : cpu) : cpu :=
  Cpu (noff x + 1) (if noff x =? 0 then b2z (irq_on x) else intena x) false.
Definition popped (x : cpu) : cpu :=
  Cpu (noff x - 1) (intena x) ((noff x - 1 =? 0) && ctrue (intena x)).

Ltac run := unfold intr_get, intr_off, intr_on, when, gets, modify, mbind, M_bind, mret, M_ret, panic in *; simpl in *.

Lemma push_off_ok c m : exists m', push_off c m = Ok tt m' /\ cpu_changed m m' c (pushed (m_cpu m c)).
Proof.
  unfold push_off, cpu_changed, pushed. run. rewrite upd_eq. simpl.
  destruct (noff (m_cpu m c) =? 0); eexists; (split; [reflexivity|]); (split; [done|]);
    intros c'; simpl; unfold upd; repeat case_decide; subst; done.
Qed.

Lemma pop_off_inv c m m' :
  pop_off c m = Ok tt m' -> irq_on (m_cpu m c) = false /\ 1 <= noff (m_cpu m c) /\
    cpu_changed m m' c (popped (m_cpu m c)).
Proof.
  unfold pop_off, cpu_changed, popped. run. intros H. destruct (irq_on (m_cpu m c)) eqn:Ei; simpl in H; [done|].
  destruct (Z.ltb_spec (noff (m_cpu m c)) 1); [done|]. split_and!; [done|lia|..].
  - destruct (_ && _) in H; simplify_eq; done.
  - intros c'. destruct ((noff (m_cpu m c) - 1 =? 0) && ctrue (intena (m_cpu m c))); simplify_eq; simpl; unfold upd; repeat case_decide; subst; try done;
      unfold set_noff, set_irq; simpl; by rewrite ?Ei.
Qed.

Lemma pop_off_ok c m :
  irq_on (m_cpu m c) = false -> 1 <= noff (m_cpu m c) -> exists m', pop_off c m = Ok tt m'.
Proof.
  intros Hi Hn. unfold pop_off. run. rewrite Hi. simpl. destruct (Z.ltb_spec (noff (m_cpu m c)) 1); [lia|].
  destruct (_ && _); by eexists.
Qed.

Lemma acquire_enter_inv c l m m' :
  acquire_enter c l m = Ok tt m' -> cpu_changed m m' c (pushed (m_cpu m c)).
Proof.
  unfold acquire_enter. destruct (push_off_ok c m) as (m1 & E & H1). unfold mbind, M_bind. rewrite E.
  unfold holding. run. destruct (_ && _) eqn:Eh; intros [=]; by subst m1.
Qed.

(** A CPU's own bookkeeping: depth and interrupts. *)
Definition cpu_fits (x : cpu) (n : Z) : Prop := noff x = n /\ (0 < n -> irq_on x = false).

Lemma pushed_fits x n : 0 <= n -> cpu_fits x n -> cpu_fits (pushed x) (n + 1).
Proof. intros Hn [H1 H2]. split; simpl; [lia|done]. Qed.

Lemma popped_fits x n : cpu_fits x n -> cpu_fits (popped x) (n - 1).
Proof.
  intros [H1 H2]. split; simpl; [lia|]. intros Hn. destruct (Z.eqb_spec (noff x - 1) 0); [lia|done].
Qed.

(** The invariant of a lock: who is recorded, and who owns it. *)
Definition lock_fits (s : conc) (l : nat) : Prop :=
  ((lk_locked (m_lock (cm s) l) = 0 /\ forall c, ~ owner s c l) \/
   (lk_locked (m_lock (cm s) l) = 1 /\ exists c, owner s c l /\ forall c', owner s c' l -> c' = c)) /\
  (forall c, lk_cpu (m_lock (cm s) l) = Some c <-> l ∈ held s c).

Record cinv (s : conc) : Prop := {
  ci_cpu : forall c, cpu_fits (m_cpu (cm s) c)
    (Z.of_nat (size (held s c)) + Z.of_nat (pushes s c) + depth (at_ s c));
  ci_lock : forall l, lock_fits s l;
  ci_out : forall c l, at_ s c = Won l \/ at_ s c = Clear l -> l ∉ held s c;
}.

Lemma owner_cgo s c m x h n c' l :
  owner (cgo s c m x h n) c' l <->
  if decide (c' = c) then l ∈ h \/ x = Won l \/ x = Clear l else owner s c' l.
Proof. unfold owner, cgo. simpl. unfold upd. case_decide; [by subst|done]. Qed.

Lemma held_cgo s c m x h n c' : held (cgo s c m x h n) c' = if decide (c' = c) then h else held s c'.
Proof. unfold cgo. simpl. unfold upd. case_decide; [by subst|done]. Qed.

(** A step that leaves lock [l] and its owners alone. *)
Lemma lock_fits_same s c m x h n l :
  lock_fits s l -> m_lock m l = m_lock (cm s) l -> (l ∈ h <-> l ∈ held s c) ->
  (l ∈ h \/ x = Won l \/ x = Clear l <-> owner s c l) -> lock_fits (cgo s c m x h n) l.
Proof.
  intros [Hw Hc] El Hh Ho.
  assert (Hown : forall c', owner (cgo s c m x h n) c' l <-> owner s c' l).
  { intros c'. rewrite owner_cgo. case_decide; [by subst|done]. }
  split.
  - simpl. rewrite El. destruct Hw as [[E Hno]|(E & c0 & H0 & H1)]; [left|right]; split; try done.
    + intros c'. rewrite Hown. apply Hno.
    + exists c0. rewrite Hown. split; [done|]. intros c'. rewrite Hown. apply H1.
  - intros c'. rewrite held_cgo. simpl. rewrite El, Hc. case_decide; [by subst|done].
Qed.

Lemma cpu_fits_cgo s c m x h n y :
  (forall c', cpu_fits (m_cpu (cm s) c') (Z.of_nat (size (held s c')) + Z.of_nat (pushes s c') + depth (at_ s c'))) ->
  (forall c', m_cpu m c' = if decide (c' = c) then y else m_cpu (cm s) c') ->
  cpu_fits y (Z.of_nat (size h) + Z.of_nat n + depth x) ->
  forall c', cpu_fits (m_cpu m c') (Z.of_nat (size (held (cgo s c m x h n) c')) +
    Z.of_nat (pushes (cgo s c m x h n) c') + depth (at_ (cgo s c m x h n) c')).
Proof. intros H1 E Hy c'. rewrite E. simpl. unfold upd. case_decide; [done|apply H1]. Qed.

Lemma out_cgo s c m x h n :
  (forall c' l, at_ s c' = Won l \/ at_ s c' = Clear l -> l ∉ held s c') ->
  (forall l, x = Won l \/ x = Clear l -> l ∉ h) ->
  forall c' l, at_ (cgo s c m x h n) c' = Won l \/ at_ (cgo s c m x h n) c' = Clear l -> l ∉ held (cgo s c m x h n) c'.
Proof. intros H1 H2 c' l. simpl. unfold upd. case_decide; [apply H2|apply H1]. Qed.

(** The steps that touch no lock: [push_off], [pop_off], alone or inside
    [acquire] and [release]. *)
Lemma cpu_step_inv s c m x y n :
  cinv s -> cpu_changed (cm s) m c y -> (forall l, x <> Won l /\ x <> Clear l) ->
  (forall l, at_ s c <> Won l /\ at_ s c <> Clear l) ->
  cpu_fits y (Z.of_nat (size (held s c)) + Z.of_nat n + depth x) -> cinv (cgo s c m x (held s c) n).
Proof.
  intros [H1 H2 H3] [El Ec] Hx Hat Hy. constructor.
  - by eapply cpu_fits_cgo.
  - intros l. apply lock_fits_same; [done|by rewrite El|done|]. destruct (Hx l), (Hat l). unfold owner. tauto.
  - apply out_cgo; [done|]. intros l. destruct (Hx l). tauto.
Qed.

(** The steps on lock [l]. *)
Lemma lock_step_inv s c m x h l :
  cinv s -> m_cpu m = m_cpu (cm s) -> (forall l', l' <> l -> m_lock m l' = m_lock (cm s) l') ->
  (forall l', l' <> l -> l' ∈ h <-> l' ∈ held s c) ->
  (forall l', l' <> l -> x <> Won l' /\ x <> Clear l' /\ at_ s c <> Won l' /\ at_ s c <> Clear l') ->
  Z.of_nat (size h) + depth x = Z.of_nat (size (held s c)) + depth (at_ s c) ->
  (x = Won l \/ x = Clear l -> l ∉ h) -> lock_fits (cgo s c m x h (pushes s c)) l ->
  cinv (cgo s c m x h (pushes s c)).
Proof.
  intros [H1 H2 H3] Ec El Hh Hx Hn Hout Hl. constructor.
  - eapply cpu_fits_cgo; [done| |]; [intros c'; rewrite Ec; case_decide; [by subst|done]|].
    pose proof (H1 c) as Hc. by replace (Z.of_nat (size h) + Z.of_nat (pushes s c) + depth x) with
      (Z.of_nat (size (held s c)) + Z.of_nat (pushes s c) + depth (at_ s c)) by lia.
  - intros l'. destruct (decide (l' = l)) as [->|Hne]; [done|].
    apply lock_fits_same; [done|by apply El|by apply Hh|]. destruct (Hx l' Hne) as (? & ? & ? & ?).
    unfold owner. rewrite Hh by done. tauto.
  - apply out_cgo; [done|]. intros l' Hl'. destruct (decide (l' = l)) as [->|Hne]; [by apply Hout|].
    destruct (Hx l' Hne) as (? & ? & _). tauto.
Qed.

Lemma try_inv s c l won m :
  cinv s -> at_ s c = Spin l -> acquire_try l (cm s) = Ok won m ->
  cinv (cgo s c m (if won : bool then Won l else Spin l) (held s c) (pushes s c)).
Proof.
  intros HI Hat Ht. pose proof (ci_lock _ HI l) as [Hw Hc]. unfold acquire_try in Ht. run.
  destruct (ctrue (lk_locked (m_lock (cm s) l))) eqn:E; simplify_eq.
  - apply (cpu_step_inv s c (cm s) (Spin l) (m_cpu (cm s) c)); try done.
    + split; [done|]. intros c'. case_decide; [by subst|done].
    + by rewrite Hat.
    + pose proof (ci_cpu _ HI c) as H. by rewrite Hat in H.
  - destruct Hw as [[E0 Hno]|[E1 _]]; [|by rewrite E1 in E].
    apply lock_step_inv with (l := l); try done.
    + intros l' Hne. simpl. by apply upd_ne.
    + intros l' Hne. rewrite Hat. split_and!; congruence.
    + by rewrite Hat.
    + intros _ Hin. apply (Hno c). by left.
    + split; simpl; rewrite upd_eq; simpl.
      * right. split; [done|]. exists c. rewrite owner_cgo, decide_True by done. split; [by right; left|].
        intros c'. rewrite owner_cgo. case_decide; [done|]. intros Ho. by destruct (Hno c').
      * intros c'. rewrite Hc. unfold upd. case_decide; [by subst|done].
Qed.

Lemma done_inv s c l m :
  cinv s -> at_ s c = Won l -> acquire_done c l (cm s) = Ok tt m ->
  cinv (cgo s c m Run ({[l]} ∪ held s c) (pushes s c)).
Proof.
  intros HI Hat Hd. pose proof (ci_lock _ HI l) as [Hw Hc]. unfold acquire_done in Hd. run. simplify_eq.
  assert (Hout : l ∉ held s c) by (apply (ci_out _ HI); by left).
  assert (Hown : owner s c l) by (by right; left).
  destruct Hw as [[_ Hno]|(E & c0 & _ & H1)]; [by destruct (Hno c)|]. assert (c0 = c) as -> by (symmetry; by apply H1).
  apply lock_step_inv with (l := l); try done.
  - intros l' Hne. simpl. by apply upd_ne.
  - intros l' Hne. set_solver.
  - intros l' Hne. rewrite Hat. split_and!; congruence.
  - rewrite Hat, size_union by set_solver. rewrite size_singleton. simpl. lia.
  - by intros [?|?].
  - split; simpl; rewrite upd_eq; simpl.
    + right. split; [done|]. exists c. rewrite owner_cgo, decide_True by done. split; [left; set_solver|].
      intros c'. rewrite owner_cgo. case_decide; [done|]. apply H1.
    + intros c'. unfold upd. case_decide as Hcc; [subst; set_solver|].
      split; [congruence|]. intros Hin. destruct Hcc. apply H1. by left.
Qed.

Lemma release_inv s c l m :
  cinv s -> at_ s c = Run -> release_enter c l (cm s) = Ok tt m ->
  cinv (cgo s c m (Clear l) (held s c ∖ {[l]}) (pushes s c)).
Proof.
  intros HI Hat Hr. pose proof (ci_lock _ HI l) as [Hw Hc]. unfold release_enter, holding in Hr. run.
  destruct (_ && _) eqn:Eh; simplify_eq. apply andb_true_iff in Eh as [_ Eh%bool_decide_eq_true].
  assert (Hin : l ∈ held s c) by (by apply Hc). simpl in Hr. simplify_eq.
  destruct Hw as [[_ Hno]|(E & c0 & _ & H1)]; [by destruct (Hno c); left|].
  assert (c0 = c) as -> by (symmetry; apply H1; by left).
  apply lock_step_inv with (l := l); try done.
  - intros l' Hne. simpl. by apply upd_ne.
  - intros l' Hne. set_solver.
  - intros l' Hne. rewrite Hat. split_and!; congruence.
  - rewrite Hat, size_difference by set_solver. rewrite size_singleton.
    assert (size (held s c) <> 0%nat) by (apply size_non_empty_iff; set_solver). simpl. lia.
  - set_solver.
  - split; simpl; rewrite upd_eq; simpl.
    + right. split; [done|]. exists c. rewrite owner_cgo, decide_True by done. split; [by right; right|].
      intros c'. rewrite owner_cgo. case_decide; [done|]. apply H1.
    + intros c'. unfold upd. case_decide as Hcc; [subst; set_solver|].
      split; [congruence|]. intros Hin'. destruct Hcc. apply H1. by left.
Qed.

Lemma store_inv s c l m :
  cinv s -> at_ s c = Clear l -> release_store l (cm s) = Ok tt m -> cinv (cgo s c m Pop (held s c) (pushes s c)).
Proof.
  intros HI Hat Hr. pose proof (ci_lock _ HI l) as [Hw Hc]. unfold release_store in Hr. run. simplify_eq.
  assert (Hout : l ∉ held s c) by (apply (ci_out _ HI); by right).
  assert (Hown : owner s c l) by (by right; right).
  destruct Hw as [[_ Hno]|(E & c0 & _ & H1)]; [by destruct (Hno c)|]. assert (c0 = c) as -> by (symmetry; by apply H1).
  apply lock_step_inv with (l := l); try done.
  - intros l' Hne. simpl. by apply upd_ne.
  - intros l' Hne. rewrite Hat. split_and!; congruence.
  - by rewrite Hat.
  - split; simpl; rewrite upd_eq; simpl.
    + left. split; [done|]. intros c'. rewrite owner_cgo. case_decide as Hcc; [naive_solver|].
      intros Ho. destruct Hcc. by apply H1.
    + intros c'. rewrite Hc. unfold upd. case_decide; [by subst|done].
Qed.

Lemma cstep_inv s s' : cinv s -> cstep s s' -> cinv s'.
Proof.
  intros HI Hs. destruct Hs as [s c l m Hat E|s c l won m Hat E|s c l m Hat E|s c l m Hat E|s c l m Hat E|s c m Hat E|s c m Hat E|s c n m Hat Ep E|s c b Hat E].
  - eapply cpu_step_inv; [done|by eapply acquire_enter_inv|done|by rewrite Hat|].
    pose proof (ci_cpu _ HI c) as H. rewrite Hat in H. apply pushed_fits in H; [|simpl; lia]. simpl in *.
    by rewrite Z.add_0_r in H.
  - by eapply try_inv.
  - by eapply done_inv.
  - by eapply release_inv.
  - by eapply store_inv.
  - apply pop_off_inv in E as (_ & _ & E). eapply cpu_step_inv; [done|exact E|done|by rewrite Hat|].
    pose proof (ci_cpu _ HI c) as H. rewrite Hat in H. apply popped_fits in H. simpl in *.
    by rewrite Z.add_simpl_r, <- (Z.add_0_r (_ + _)) in H.
  - destruct (push_off_ok c (cm s)) as (m1 & E1 & H1). rewrite E1 in E. simplify_eq.
    eapply cpu_step_inv; [done|exact H1|done|by rewrite Hat|].
    pose proof (ci_cpu _ HI c) as H. rewrite Hat in H. apply pushed_fits in H; [|simpl; lia]. simpl in *.
    eapply eq_ind; [exact H|]. lia.
  - apply pop_off_inv in E as (_ & _ & E). eapply cpu_step_inv; [done|exact E|done|by rewrite Hat|].
    pose proof (ci_cpu _ HI c) as H. rewrite Hat in H. apply popped_fits in H. simpl in *. rewrite Ep in H.
    eapply eq_ind; [exact H|]. lia.
  - destruct HI as [H1 H2 H3]. constructor; [|done|done]. intros c'. simpl. unfold upd. case_decide; [|done]. subst.
    destruct (H1 c) as [Hn _]. split; [by rewrite <- Hn|]. simpl. lia.
Qed.

Definition creach (s : conc) : Prop := rtc cstep cboot s.

Lemma creach_inv s : creach s -> cinv s.
Proof.
  intros Hr. assert (H0 : cinv cboot).
  { constructor.
    - intros c. cbn [held pushes at_ cboot depth]. rewrite size_empty. by split.
    - intros l. split; [left; split; [done|]|].
      + intros c [H|[H|H]]; [set_solver|done|done].
      + intros c. simpl. split; [done|set_solver].
    - intros c l [?|?]; done. }
  unfold creach in Hr. revert H0. generalize cboot, Hr. clear. intros s0 Hr.
  induction Hr as [s|s s1 s2 Hs _ IH]; intros HI; [done|]. apply IH. by eapply cstep_inv.
Qed.

(** C33: spin locks exclude: however the CPUs interleave, at most one of them is
    between winning a lock's word and clearing it, its interrupts stay off for
    as long, and [holding] tells exactly the CPU that has the lock. *)
Theorem spinlock_exclusive s c c' l :
  creach s -> owner s c l ->
  (owner s c' l -> c' = c) /\ irq_on (m_cpu (cm s) c) = false /\
  holding c' l (cm s) = Ok (bool_decide (l ∈ held s c')) (cm s).
Proof.
  intros HI%creach_inv Ho. destruct (ci_lock _ HI l) as [[[_ Hno]|(E & c0 & H0 & H1)] Hc]; [by destruct (Hno c)|].
  assert (c0 = c) as -> by (symmetry; by apply H1). split_and!; [apply H1| |].
  - destruct (ci_cpu _ HI c) as [_ Hi]. apply Hi. destruct Ho as [Hin|[Hat|Hat]]; rewrite ?Hat; simpl; try lia.
    assert (size (held s c) <> 0%nat) by (apply size_non_empty_iff; set_solver).
    destruct (at_ s c); simpl; lia.
  - unfold holding. run. rewrite E. simpl. by rewrite (bool_decide_ext _ _ (Hc c')).
Qed.

(** In every reachable state a CPU that spins on a free lock wins it with its
    next attempt, the CPU that holds a lock passes the check of [release], and
    the [pop_off] at the end of [release] does not panic. *)
Theorem spinlock_live s c l :
  creach s ->
  (at_ s c = Spin l -> (forall c', ~ owner s c' l) -> exists m, acquire_try l (cm s) = Ok true m) /\
  (at_ s c = Run -> l ∈ held s c -> exists m, release_enter c l (cm s) = Ok tt m) /\
  (at_ s c = Pop -> exists m, pop_off c (cm s) = Ok tt m).
Proof.
  intros HI%creach_inv. destruct (ci_lock _ HI l) as [Hw Hc]. split_and!.
  - intros _ Hno. destruct Hw as [[E _]|(_ & c0 & H0 & _)]; [|by destruct (Hno c0)].
    unfold acquire_try. run. rewrite E. by eexists.
  - intros _ Hin. destruct Hw as [[_ Hno]|(E & _)]; [by destruct (Hno c); left|].
    unfold release_enter, holding. run. rewrite E. apply Hc in Hin. rewrite Hin, bool_decide_true by done. by eexists.
  - intros Hat. destruct (ci_cpu _ HI c) as [E Hi]. rewrite Hat in *. simpl in *. apply pop_off_ok; [apply Hi; lia|lia].
Qed.

(** Two CPUs; the first takes lock 7. *)
Lemma one_holds : exists s, creach s /\ 7%nat ∈ held s 0 /\ at_ s 0%nat = Run.
Proof.
  eexists. split; [|split].
  - eapply rtc_l; [apply (c_acquire cboot 0 7); reflexivity|].
    eapply rtc_l; [apply (c_try _ 0 7 true); reflexivity|].
    eapply rtc_l; [apply (c_done _ 0 7); reflexivity|]. apply rtc_refl.
  - simpl. set_solver.
  - done.
Qed.

Lemma spinlock_exclusive_witness : exists s, creach s /\ irq_on (m_cpu (cm s) 0%nat) = false.
Proof.
  destruct one_holds as (s & Hr & Hin & _). exists s. split; [done|].
  apply (spinlock_exclusive s 0 0 7 Hr). by left.
Defined.

Lemma spinlock_live_witness : exists s m, creach s /\ release_enter 0 7 (cm s) = Ok tt m.
Proof.
  destruct one_holds as (s & Hr & Hin & Hat).
  destruct (proj1 (proj2 (spinlock_live s 0 7 Hr)) Hat Hin) as [m E]. by exists s, m.
Defined.
