(* ===== verification/SleepWake.v ===== *)
(** Sleep locks under interleaving: [acquiresleep] and [releasesleep] of
    [kernel/sleeplock.c] on one lock, through [sleep], [wakeup], [sched] and
    the scheduler of [kernel/proc.c].

    Any number of processes run at once, each at its own program point; a step
    is what one of them does between two points at which another CPU can
    interfere.  The inner spin lock and the processes' locks are held by one
    process at a time ([Spinlock] shows that they are); a process that finds
    one taken cannot step.  A process that switches to the scheduler leaves
    its lock to it.  The scheduler's visits to processes that are not RUNNABLE
    are not shown: they take and return the process's lock. *)

From S2P Require Import Prelude Sleeplock Bio Log Kernel.

(** The points a process can be at; after [Idle] those of [acquiresleep] with
    [sleep], then those of [releasesleep] with [wakeup]. *)
Inductive point : Type :=
  | Idle
  | AAcquire                 (* acquire(&lk->lk), from either place *)
  | ATest                    (* while (lk->locked) *)
  | SAcquire                 (* sleep: acquire(&p->lock) *)
  | SRelease                 (* release(lk) *)
  | SSleep                   (* p->state = SLEEPING; sched() *)
  | SOff                     (* in the scheduler, before release(&p->lock) *)
  | SWait                    (* not on any CPU *)
  | SBack                    (* switched to: p->chan = NULL, ... *)
  | ATake                    (* lk->locked = 1, ... *)
  | Held                     (* between acquiresleep and releasesleep *)
  | RAcquire                 (* acquire(&lk->lk) *)
  | RClear                   (* lk->locked = 0, ... *)
  | RWake (i : nat)          (* wakeup: the test of its loop, at proc[i] *)
  | RTest (i : nat)          (* holding proc[i].lock *)
  | RRelease.                (* release(&lk->lk) *)

#[export] Instance point_eq_dec : EqDecision point.
Proof. solve_decision. Defined.

(** The lock, its inner spin lock, and for each process its lock, its state,
    whether [p->chan] is the sleep lock, its pid and its program point.  A spin
    lock is the process that holds it. *)
Record sys : Type := Sys {
  y_lock : sleeplock;
  y_lk : option nat;
  y_plock : nat -> option nat;
  y_state : nat -> procstate;
  y_chan : nat -> bool;
  y_at : nat -> point;
}.

Definition set_lock (x : sleeplock) (s : sys) : sys :=
  Sys x (y_lk s) (y_plock s) (y_state s) (y_chan s) (y_at s).
Definition set_lk (x : option nat) (s : sys) : sys :=
  Sys (y_lock s) x (y_plock s) (y_state s) (y_chan s) (y_at s).
Definition set_plock (p : nat) (x : option nat) (s : sys) : sys :=
  Sys (y_lock s) (y_lk s) (upd (y_plock s) p (fun _ => x)) (y_state s) (y_chan s) (y_at s).
Definition set_state (p : nat) (x : procstate) (s : sys) : sys :=
  Sys (y_lock s) (y_lk s) (y_plock s) (upd (y_state s) p (fun _ => x)) (y_chan s) (y_at s).
Definition set_chan (p : nat) (x : bool) (s : sys) : sys :=
  Sys (y_lock s) (y_lk s) (y_plock s) (y_state s) (upd (y_chan s) p (fun _ => x)) (y_at s).
Definition go (p : nat) (x : point) (s : sys) : sys :=
  Sys (y_lock s) (y_lk s) (y_plock s) (y_state s) (y_chan s) (upd (y_at s) p (fun _ => x)).

Section machine.
(** The number of processes, and their pids. *)
Context (N : nat) (pid : nat -> Z).

(** [acquiresleep], from one point to the next. *)
Definition acquiresleep_step (p : nat) (s : sys) : option sys :=
  match y_at s p with
  | AAcquire => match y_lk s with None => Some (go p ATest (set_lk (Some p) s)) | Some _ => None end
  | ATest => Some (go p (if ctrue (locked (y_lock s)) then SAcquire else ATake) s)
  | ATake => Some (go p Held (set_lk None (set_lock (Sleeplock 1 (pid p)) s)))
  | _ => None
  end.

(** [sleep(lk, &lk->lk)]. *)
Definition sleep_step (p : nat) (s : sys) : option sys :=
  match y_at s p with
  | SAcquire => match y_plock s p with None => Some (go p SRelease (set_plock p (Some p) s)) | Some _ => None end
  | SRelease => Some (go p SSleep (set_lk None s))
  | SSleep => Some (go p SOff (set_state p SLEEPING (set_chan p true s)))
  | SBack => Some (go p AAcquire (set_plock p None (set_chan p false s)))
  | _ => None
  end.

(** The scheduler at process [p]: after [swtch] returns to it, and when it
    finds [p] RUNNABLE. *)
Definition scheduler_step (p : nat) (s : sys) : option sys :=
  match y_at s p with
  | SOff => Some (go p SWait (set_plock p None s))
  | SWait =>
      match y_plock s p with
      | None =>
          if decide (y_state s p = RUNNABLE) then
            Some (go p SBack (set_state p RUNNING (set_plock p (Some p) s)))
          else None
      | Some _ => None
      end
  | _ => None
  end.

(** The loop of [wakeup(lk)], run by [p]. *)
Definition wakeup_step (p : nat) (s : sys) : option sys :=
  match y_at s p with
  | RWake i =>
      if decide (i < N)%nat then
        if decide (i = p) then Some (go p (RWake (S i)) s)
        else match y_plock s i with None => Some (go p (RTest i) (set_plock i (Some p) s)) | Some _ => None end
      else Some (go p RRelease s)
  | RTest i =>
      let s := if decide (y_state s i = SLEEPING) then
                 if y_chan s i then set_state i RUNNABLE s else s
               else s in
      Some (go p (RWake (S i)) (set_plock i None s))
  | _ => None
  end.

Definition releasesleep_step (p : nat) (s : sys) : option sys :=
  match y_at s p with
  | RAcquire => match y_lk s with None => Some (go p RClear (set_lk (Some p) s)) | Some _ => None end
  | RClear => Some (go p (RWake 0) (set_lock (Sleeplock 0 0) s))
  | RRelease => Some (go p Idle (set_lk None s))
  | _ => None
  end.

(** What goes on by itself: the step of process [p], or of the scheduler at
    [p]; [None] when it waits or has nothing to do. *)
Definition step (p : nat) (s : sys) : option sys :=
  match y_at s p with
  | Idle | Held => None
  | AAcquire | ATest | ATake => acquiresleep_step p s
  | SAcquire | SRelease | SSleep | SBack => sleep_step p s
  | SOff | SWait => scheduler_step p s
  | RWake _ | RTest _ => wakeup_step p s
  | RAcquire | RClear | RRelease => releasesleep_step p s
  end.

(** What starts from outside: a call to [acquiresleep] by an idle process, to
    [releasesleep] by the holder, and [kill(pid)], which wakes a sleeper. *)
Inductive starts : sys -> sys -> Prop :=
  | starts_acquire s p : (p < N)%nat -> y_at s p = Idle -> starts s (go p AAcquire s)
  | starts_release s p : (p < N)%nat -> y_at s p = Held -> starts s (go p RAcquire s)
  | starts_kill s p : (p < N)%nat -> y_plock s p = None -> y_state s p = SLEEPING ->
      starts s (set_state p RUNNABLE s).

Inductive runs : sys -> sys -> Prop :=
  | runs_step s p s' : (p < N)%nat -> step p s = Some s' -> runs s s'.

Definition boot : sys :=
  Sys initsleeplock None (fun _ => None) (fun _ => RUNNING) (fun _ => false) (fun _ => Idle).

Definition reachable (s : sys) : Prop := rtc (fun s s' => starts s s' \/ runs s s') boot s.

(** * The invariant *)

(** Who holds the inner lock, the sleep lock, and the lock of [q]. *)
Definition has_lk (x : point) : bool :=
  match x with
  | ATest | SAcquire | SRelease | ATake | RClear | RWake _ | RTest _ | RRelease => true
  | _ => false
  end.
Definition owns (x : point) : bool := match x with Held | RAcquire | RClear => true | _ => false end.
Definition has_own (x : point) : bool :=
  match x with SRelease | SSleep | SOff | SBack => true | _ => false end.
Definition holds_plock (s : sys) (p q : nat) : Prop :=
  if decide (p = q) then has_own (y_at s q) = true else y_at s p = RTest q.

(** On the way to sleep or asleep. *)
Definition falls_asleep (x : point) : bool :=
  match x with SAcquire | SRelease | SSleep | SOff => true | _ => false end.
Definition asleep (s : sys) (p : nat) : Prop := y_at s p = SWait /\ y_state s p = SLEEPING.

(** A releaser that has yet to come to [p] in its loop. *)
Definition wakes (s : sys) (p : nat) : Prop :=
  exists q i, (y_at s q = RWake i \/ y_at s q = RTest i) /\ (i <= p)%nat.

Definition state_fits (x : point) (st : procstate) (ch : bool) : Prop :=
  match x with
  | SOff => st = SLEEPING /\ ch = true
  | SWait => (st = SLEEPING \/ st = RUNNABLE) /\ ch = true
  | _ => st = RUNNING
  end.

Record inv (s : sys) : Prop := {
  inv_lk : forall p, y_lk s = Some p <-> has_lk (y_at s p) = true;
  inv_owner : forall p, owns (y_at s p) = true -> locked (y_lock s) = 1 /\ lkpid (y_lock s) = pid p;
  inv_one : forall p q, owns (y_at s p) = true -> owns (y_at s q) = true -> p = q;
  inv_free : locked (y_lock s) = 0 \/ exists p, (p < N)%nat /\ owns (y_at s p) = true;
  inv_take : forall p, y_at s p = ATake -> locked (y_lock s) = 0;
  inv_after : forall p i, y_at s p = RWake i \/ y_at s p = RTest i \/ y_at s p = RRelease -> locked (y_lock s) = 0;
  inv_plock : forall p q, y_plock s q = Some p <-> holds_plock s p q;
  inv_state : forall p, state_fits (y_at s p) (y_state s p) (y_chan s p);
  inv_sleep : forall p, falls_asleep (y_at s p) = true \/ asleep s p ->
    locked (y_lock s) = 1 \/ wakes s p;
  inv_other : forall p i, y_at s p = RTest i -> i <> p /\ (i < N)%nat;
  inv_idle : forall p, (N <= p)%nat -> y_at s p = Idle;
}.

Lemma lk_one s p q : inv s -> has_lk (y_at s p) = true -> has_lk (y_at s q) = true -> p = q.
Proof. intros HI Hp%(inv_lk _ HI) Hq%(inv_lk _ HI). congruence. Qed.

Lemma wakes_go s s' p q x :
  wakes s p -> y_at s' = upd (y_at s) q (fun _ => x) ->
  (forall i, y_at s q = RWake i \/ y_at s q = RTest i -> exists j, (x = RWake j \/ x = RTest j) /\ (i <= p -> j <= p)%nat) ->
  wakes s' p.
Proof.
  intros (r & i & Hr & Hi) E Hx. destruct (decide (r = q)) as [->|Hne].
  - destruct (Hx i Hr) as (j & Hj & Hij). exists q, j. rewrite E, upd_eq. auto.
  - exists r, i. rewrite E, upd_ne by done. auto.
Qed.

(** A process whose lock a releaser holds is not on its way to sleep. *)
Lemma tested_awake s p q : inv s -> y_at s p = RTest q -> has_own (y_at s q) = false /\ falls_asleep (y_at s q) = false.
Proof.
  intros HI E. pose proof (inv_plock _ HI p q) as H1. pose proof (inv_plock _ HI q q) as H2.
  destruct (inv_other _ HI p q E) as [Ho _]. unfold holds_plock in *. repeat case_decide; subst; try done.
  assert (Hlk : has_lk (y_at s q) = false).
  { destruct (has_lk (y_at s q)) eqn:Eq; [|done]. assert (p = q); [|done]. by apply (lk_one s); rewrite ?E. }
  assert (Hown : has_own (y_at s q) = false).
  { destruct (has_own (y_at s q)); [|done]. apply proj2 in H1, H2. rewrite H1 in H2 by done. naive_solver. }
  split; [done|]. by destruct (y_at s q).
Qed.

(** The cases of [step p s = Some s']. *)
Ltac step_cases Hs Ep :=
  unfold step, acquiresleep_step, sleep_step, scheduler_step, wakeup_step, releasesleep_step in Hs;
  lazymatch type of Hs with context [y_at ?s ?p] => destruct (y_at s p) eqn:Ep end; try done;
  repeat first [case_decide|case_match]; simplify_eq; simpl in *.

(** * Each clause is kept *)

Section keep.
Context (s s' : sys) (p : nat) (HI : inv s) (Hp : (p < N)%nat) (Hs : step p s = Some s').

Lemma step_at : exists x, y_at s' = upd (y_at s) p (fun _ => x).
Proof using Hs HI Hp. step_cases Hs Ep; by eexists. Qed.

Lemma keep_lk q : y_lk s' = Some q <-> has_lk (y_at s' q) = true.
Proof using Hs HI Hp.
  pose proof (inv_lk _ HI q) as Iq. pose proof (inv_lk _ HI p) as Ip.
  step_cases Hs Ep; unfold upd; case_decide; subst; rewrite ?Ep in *; simpl in *; clear HI; intuition congruence.
Qed.

Lemma keep_one q r : owns (y_at s' q) = true -> owns (y_at s' r) = true -> q = r.
Proof using Hs HI Hp.
  intros Hq Hr. pose proof (inv_one _ HI) as I3. pose proof (inv_owner _ HI) as I2. pose proof (inv_take _ HI p) as I5.
  step_cases Hs Ep; unfold upd in *; repeat case_decide; subst; try done; try (by apply I3).
  all: try (apply I3; [|done]; by rewrite Ep); try (apply I3; [done|]; by rewrite Ep).
  all: exfalso; (destruct (I2 _ Hr) || destruct (I2 _ Hq)); rewrite I5 in *; done.
Qed.

Lemma keep_owner q : owns (y_at s' q) = true -> locked (y_lock s') = 1 /\ lkpid (y_lock s') = pid q.
Proof using Hs HI Hp.
  intros Hq. pose proof (inv_one _ HI p q) as I3. pose proof (inv_owner _ HI) as I2. pose proof (inv_take _ HI p) as I5.
  step_cases Hs Ep; unfold upd in *; repeat case_decide; subst; try done; try (by apply I2); try (apply I2; by rewrite Ep).
  - exfalso. destruct (I2 _ Hq). rewrite I5 in *; done.
  - exfalso. by destruct I3.
Qed.

Lemma keep_free : locked (y_lock s') = 0 \/ exists q, (q < N)%nat /\ owns (y_at s' q) = true.
Proof using Hs HI Hp.
  pose proof (inv_free _ HI) as [I4|(q & Hq & I4)].
  - step_cases Hs Ep; try by left. right. exists p. by rewrite upd_eq.
  - step_cases Hs Ep; try (by left); right; try (exists p; by rewrite upd_eq).
    all: exists q; split; [done|]; rewrite upd_ne; [done|]; intros ->; by rewrite Ep in I4.
Qed.

Lemma locked_01 : ctrue (locked (y_lock s)) = false -> locked (y_lock s) = 0.
Proof using. unfold ctrue. destruct (Z.eqb_spec (locked (y_lock s)) 0); done. Qed.

Lemma keep_take q : y_at s' q = ATake -> locked (y_lock s') = 0.
Proof using Hs HI Hp.
  intros Hq. pose proof (inv_take _ HI q) as I5. pose proof (inv_lk _ HI) as I1.
  step_cases Hs Ep; unfold upd in *; repeat case_decide; subst; try done; try (by apply I5).
  all: try by apply locked_01.
  exfalso. assert (q = p); [|done]. apply (lk_one s); rewrite ?Hq, ?Ep; done.
Qed.

Lemma keep_after q i :
  y_at s' q = RWake i \/ y_at s' q = RTest i \/ y_at s' q = RRelease -> locked (y_lock s') = 0.
Proof using Hs HI Hp.
  intros Hq. pose proof (inv_after _ HI) as I6.
  assert (Hlk : has_lk (y_at s q) = true -> has_lk (y_at s p) = true -> q = p) by (by apply lk_one).
  step_cases Hs Ep; unfold upd in *; repeat case_decide; subst; try done; try (by apply (I6 q i)).
  all: try (by apply (I6 p i0); tauto); try (by apply (I6 p p); tauto); try (by destruct Hq as [?|[?|?]]).
  exfalso. destruct Hlk; [|done..]. by destruct Hq as [->|[->| ->]].
Qed.

Lemma keep_plock q r : y_plock s' r = Some q <-> holds_plock s' q r.
Proof using Hs HI Hp.
  pose proof (inv_plock _ HI q r) as I7. pose proof (inv_plock _ HI p r) as I7'.
  pose proof (inv_other _ HI p r) as Io. unfold holds_plock in *.
  step_cases Hs Ep; unfold upd in *; repeat case_decide; subst; rewrite ?Ep in *; simpl in *;
    try done; clear HI; try congruence; try (intuition congruence).
Qed.

Lemma keep_state q : state_fits (y_at s' q) (y_state s' q) (y_chan s' q).
Proof using Hs HI Hp.
  pose proof (inv_state _ HI q) as I8. pose proof (tested_awake _ p q HI) as Hq.
  step_cases Hs Ep; unfold upd in *; repeat case_decide; subst; rewrite ?Ep in *; simpl in *; try done; try tauto.
  all: destruct (Hq eq_refl) as [? _]; destruct (y_at s i); simpl in *; try congruence; tauto.
Qed.

Lemma keep_other q i : y_at s' q = RTest i -> i <> q /\ (i < N)%nat.
Proof using Hs HI Hp.
  intros Hq. pose proof (inv_other _ HI q i) as Io.
  step_cases Hs Ep; unfold upd in *; repeat case_decide; subst; simplify_eq; try done; auto.
Qed.

Lemma keep_idle q : (N <= q)%nat -> y_at s' q = Idle.
Proof using Hs HI Hp.
  intros Hq. destruct step_at as [x ->]. rewrite upd_ne by lia. by apply (inv_idle _ HI).
Qed.

(** The process is the one that steps. *)
Lemma keep_sleep_self : falls_asleep (y_at s' p) = true \/ asleep s' p -> locked (y_lock s') = 1 \/ wakes s' p.
Proof using Hs HI Hp.
  intros Hq. pose proof (inv_sleep _ HI p) as I9. pose proof (inv_free _ HI) as I4. pose proof (inv_owner _ HI) as I2.
  assert (Hw : forall s1 x, wakes s p -> y_at s1 = upd (y_at s) p (fun _ => x) ->
    (forall i, y_at s p <> RWake i /\ y_at s p <> RTest i) -> wakes s1 p).
  { intros s1 x Hw E Hno. eapply wakes_go; [exact Hw|exact E|]. intros i [?|?]; by destruct (Hno i). }
  unfold asleep in *. step_cases Hs Ep; rewrite ?upd_eq in *; simpl in *; try (by destruct Hq as [?|[? ?]]).
  { left. unfold ctrue in *. destruct I4 as [E|(q & _ & Ho)]; [by rewrite E in *|by apply (I2 q)]. }
  all: destruct I9 as [?|?]; [tauto|by left|right; by eapply Hw].
Qed.

(** Another process. *)
Lemma keep_sleep_other q :
  q <> p -> falls_asleep (y_at s' q) = true \/ asleep s' q -> locked (y_lock s') = 1 \/ wakes s' q.
Proof using Hs HI Hp.
  intros Hne Hq. pose proof (inv_sleep _ HI q) as I9. pose proof (tested_awake _ p q HI) as Ht.
  assert (Hold : falls_asleep (y_at s q) = true \/ asleep s q).
  { unfold asleep in *. step_cases Hs Ep; rewrite ?upd_ne in Hq by done; try exact Hq.
    unfold upd in Hq. case_decide; [|exact Hq]. destruct Hq as [?|[_ ?]]; [by left|done]. }
  assert (Hqn : (q < N)%nat).
  { destruct (decide (q < N)%nat); [done|]. unfold asleep in Hold. rewrite (inv_idle _ HI) in Hold by lia. naive_solver. }
  specialize (I9 Hold).
  assert (Hw : forall s1 x, wakes s q -> y_at s1 = upd (y_at s) p (fun _ => x) ->
    (forall i, y_at s p = RWake i \/ y_at s p = RTest i -> (i <= q)%nat -> exists j, (x = RWake j \/ x = RTest j) /\ (j <= q)%nat) ->
    wakes s1 q).
  { intros s1 x (r & i & Hr & Hi) E Hx. destruct (decide (r = p)) as [->|Hrp].
    - destruct (Hx i Hr Hi) as (j & Hj & Hij). exists p, j. by rewrite E, upd_eq.
    - exists r, i. by rewrite E, upd_ne. }
  step_cases Hs Ep; rewrite ?upd_ne in * by done.
  all: try (destruct I9 as [?|?]; [by left|right; eapply Hw; [done|done|intros i0 [?|?]; by simplify_eq]]).
  all: try by left.
  { right. exists p, O. simpl. rewrite upd_eq. split; [by left|lia]. }
  all: destruct I9 as [?|?]; [by left|right; eapply Hw; [done|done|intros i0 [?|?]; simplify_eq; intros Hi]].
  - exists (S i0). split; [by left|lia].
  - exists i0. split; [by right|lia].
  - lia.
  - exists (S i0). split; [by left|]. assert (q <> i0); [|lia]. intros ->.
    destruct (Ht eq_refl) as [_ Hf]. rewrite Hf in Hq. unfold asleep in Hq. simpl in Hq. rewrite upd_eq in Hq. by destruct Hq as [?|[_ ?]].
  - exists (S i0). split; [by left|]. assert (q <> i0); [|lia]. intros ->.
    destruct (Ht eq_refl) as [_ Hf]. rewrite Hf in Hold. destruct Hold as [?|[Hat _]]; [done|].
    pose proof (inv_state _ HI i0) as I8. rewrite Hat in I8. destruct I8 as [_ I8]. congruence.
  - exists (S i0). split; [by left|]. assert (q <> i0); [|lia]. intros ->.
    destruct (Ht eq_refl) as [_ Hf]. rewrite Hf in Hold. by destruct Hold as [?|[_ ?]].
Qed.
End keep.

Lemma step_inv s p s' : inv s -> (p < N)%nat -> step p s = Some s' -> inv s'.
Proof.
  intros HI Hp Hs. constructor.
  - by eapply keep_lk.
  - by eapply keep_owner.
  - by eapply keep_one.
  - by eapply keep_free.
  - by eapply keep_take.
  - by eapply keep_after.
  - by eapply keep_plock.
  - by eapply keep_state.
  - intros q. destruct (decide (q = p)) as [->|]; [by eapply keep_sleep_self|by eapply keep_sleep_other].
  - by eapply keep_other.
  - by eapply keep_idle.
Qed.

(** A call begins. *)
Lemma call_inv s p x :
  inv s -> (p < N)%nat -> (y_at s p = Idle /\ x = AAcquire) \/ (y_at s p = Held /\ x = RAcquire) -> inv (go p x s).
Proof.
  intros HI Hp Hx. assert (Hne : forall i, y_at s p <> RWake i /\ y_at s p <> RTest i /\ x <> RWake i /\ x <> RTest i).
  { intros i. by destruct Hx as [[-> ->]|[-> ->]]. }
  constructor; simpl.
  - intros q. rewrite (inv_lk _ HI). unfold upd. case_decide; [|done]. subst. by destruct Hx as [[-> ->]|[-> ->]].
  - intros q Ho. apply (inv_owner _ HI). unfold upd in Ho. case_decide; [|done]. subst. by destruct Hx as [[-> ->]|[-> ->]].
  - intros q r Hq Hr. apply (inv_one _ HI).
    + unfold upd in Hq. case_decide; [|done]. subst. by destruct Hx as [[-> ->]|[-> ->]].
    + unfold upd in Hr. case_decide; [|done]. subst. by destruct Hx as [[-> ->]|[-> ->]].
  - destruct (inv_free _ HI) as [?|(q & Hq & Ho)]; [by left|]. right. exists q. split; [done|].
    unfold upd. case_decide; [|done]. subst. by destruct Hx as [[E ->]|[E ->]]; rewrite E in Ho.
  - intros q Hq. apply (inv_take _ HI q). unfold upd in Hq. case_decide; [|done]. by destruct Hx as [[_ ->]|[_ ->]].
  - intros q i Hq. apply (inv_after _ HI q i). unfold upd in Hq. case_decide; [|done]. destruct Hx as [[_ ->]|[_ ->]]; naive_solver.
  - intros q r. rewrite (inv_plock _ HI). unfold holds_plock. simpl. unfold upd. destruct (Hne r) as (_ & ? & _ & ?).
    repeat case_decide; subst; try done. by destruct Hx as [[-> ->]|[-> ->]].
  - intros q. pose proof (inv_state _ HI q) as I8. unfold upd. case_decide; [|done]. subst. by destruct Hx as [[E ->]|[E ->]]; rewrite E in I8.
  - intros q Hq. destruct (inv_sleep _ HI q) as [?|Hw]; [|by left|].
    + unfold asleep in *. simpl in Hq. unfold upd in Hq. case_decide; [|done]. destruct Hx as [[_ ->]|[_ ->]]; naive_solver.
    + right. eapply wakes_go; [done|done|]. intros i [?|?]; by destruct (Hne i) as (? & ? & _).
  - intros q i. unfold upd. case_decide; [|apply (inv_other _ HI)]. by destruct Hx as [[_ ->]|[_ ->]].
  - intros q Hq. rewrite upd_ne by lia. by apply (inv_idle _ HI).
Qed.

Lemma kill_inv s p :
  inv s -> y_plock s p = None -> y_state s p = SLEEPING -> inv (set_state p RUNNABLE s).
Proof.
  intros HI El Est.
  assert (Ep : y_at s p = SWait).
  { pose proof (inv_state _ HI p) as I8. pose proof (inv_plock _ HI p p) as I7. unfold holds_plock in I7.
    rewrite decide_True in I7 by done. rewrite Est in I8. destruct (y_at s p); simpl in *; try done. apply proj2 in I7. naive_solver. }
  destruct HI as [I1 I2 I3 I4 I5 I6 I7 I8 I9 I10 I11]. constructor; simpl; try done.
  - intros q. unfold upd. case_decide; [|done]. subst. specialize (I8 p). rewrite Ep in *. simpl in *. tauto.
  - intros q Hq. destruct (I9 q) as [?|(r & i & ?)]; [|by left|right; by exists r, i].
    unfold asleep in *. simpl in Hq. unfold upd in Hq. case_decide; naive_solver.
Qed.

Lemma starts_inv s s' : inv s -> starts s s' -> inv s'.
Proof.
  intros HI Hs. destruct Hs as [s p Hp Ep|s p Hp Ep|s p Hp El Est].
  - apply call_inv; auto.
  - apply call_inv; auto.
  - by apply kill_inv.
Qed.

Lemma reachable_inv s : reachable s -> inv s.
Proof.
  intros Hr. assert (H0 : inv boot).
  { constructor; simpl; try done; try (intros; naive_solver).
    - intros p q. unfold holds_plock. simpl. case_decide; naive_solver.
    - intros p [?|[? ?]]; done. }
  unfold reachable in Hr. revert H0. generalize boot, Hr. clear. intros s0 Hr.
  induction Hr as [s|s s1 s2 [Hs|Hs] _ IH]; intros HI; [done| |].
  - apply IH. by eapply starts_inv.
  - apply IH. destruct Hs as [s p s' Hp Hs]. by eapply step_inv.
Qed.

(** * Progress *)

(** The steps a process has left before it is idle, holds the lock or sleeps;
    a releaser pays for the processes it wakes. *)
Definition left_to_do (x : point) (st : procstate) : nat :=
  match x with
  | Idle | Held => 0
  | ATake | SOff => 1
  | SSleep => 2
  | SRelease => 3
  | SAcquire => 4
  | ATest => 5
  | AAcquire => 6
  | SBack => 7
  | SWait => if decide (st = RUNNABLE) then 8 else 0
  | RRelease => 1
  | RWake i => 2 + 12 * (N - i)
  | RTest i => 1 + 12 * (N - i)
  | RClear => 3 + 12 * N
  | RAcquire => 4 + 12 * N
  end.

Definition work (s : sys) : nat := sum_list ((fun p => left_to_do (y_at s p) (y_state s p)) <$> seq 0 N).

(** Nothing goes on: every process is idle, holds the lock or sleeps. *)
Definition settled (s : sys) : Prop :=
  forall p, (p < N)%nat -> y_at s p = Idle \/ y_at s p = Held \/ asleep s p.

Lemma sum_one (f g : nat -> nat) a n p d e :
  (a <= p < a + n)%nat -> (forall q, q <> p -> g q = f q) -> (g p + d <= f p + e)%nat ->
  (sum_list (g <$> seq a n) + d <= sum_list (f <$> seq a n) + e)%nat.
Proof.
  revert a. induction n as [|n IH]; intros a Hp Hq Hd; [lia|].
  rewrite <- !cons_seq, !fmap_cons.
  change (g a + sum_list (g <$> seq (S a) n) + d <= f a + sum_list (f <$> seq (S a) n) + e)%nat.
  destruct (decide (a = p)) as [->|Hne].
  - assert (E : g <$> seq (S p) n = f <$> seq (S p) n); [|rewrite E; lia].
    apply list_fmap_ext. intros i x Hx. apply lookup_seq in Hx as [-> _]. apply Hq. lia.
  - rewrite Hq by done. specialize (IH (S a) ltac:(lia) Hq Hd). lia.
Qed.

(** One process does something, and may wake another. *)
Lemma sum_two (f g : nat -> nat) n p i d e :
  (p < n)%nat -> (i < n)%nat -> i <> p -> (forall q, q <> p -> q <> i -> g q = f q) ->
  (g p + d <= f p)%nat -> (g i <= f i + e)%nat ->
  (sum_list (g <$> seq 0 n) + d <= sum_list (f <$> seq 0 n) + e)%nat.
Proof.
  intros Hp Hi Hne Hq Hd He. set (h := fun q => if decide (q = p) then g p else f q).
  assert (H1 : (sum_list (h <$> seq 0 n) + d <= sum_list (f <$> seq 0 n) + 0)%nat).
  { apply (sum_one _ _ _ _ p); [lia| |]; unfold h; [intros; by rewrite decide_False|by rewrite decide_True, Nat.add_0_r]. }
  assert (H2 : (sum_list (g <$> seq 0 n) + 0 <= sum_list (h <$> seq 0 n) + e)%nat).
  { apply (sum_one _ _ _ _ i); [lia| |]; unfold h.
    - intros q Hqi. case_decide; [by subst|by apply Hq].
    - rewrite decide_False by done. lia. }
  lia.
Qed.

Lemma work_one s s' p :
  (p < N)%nat -> (forall q, q <> p -> y_at s' q = y_at s q /\ y_state s' q = y_state s q) ->
  (left_to_do (y_at s' p) (y_state s' p) < left_to_do (y_at s p) (y_state s p))%nat -> (work s' < work s)%nat.
Proof.
  intros Hp Hq Hw. unfold work.
  pose proof (sum_one (fun p => left_to_do (y_at s p) (y_state s p)) (fun p => left_to_do (y_at s' p) (y_state s' p)) 0 N p 1 0) as H.
  cut (sum_list ((fun p => left_to_do (y_at s' p) (y_state s' p)) <$> seq 0 N) + 1 <=
    sum_list ((fun p => left_to_do (y_at s p) (y_state s p)) <$> seq 0 N) + 0)%nat; [lia|].
  apply H; [lia| |lia]. intros q Hne. by destruct (Hq q Hne) as [-> ->].
Qed.

Lemma test_work s p i s' :
  inv s -> (p < N)%nat -> y_at s p = RTest i -> step p s = Some s' -> (work s' < work s)%nat.
Proof.
  intros HI Hp Ei Hs. destruct (inv_other _ HI p i Ei) as [Hne Hi]. unfold work.
  assert (Hat : y_at s' = upd (y_at s) p (fun _ => RWake (S i))) by (step_cases Hs Ep; by simplify_eq).
  assert (Hst : forall q, q <> i -> y_state s' q = y_state s q).
  { intros q Hq. step_cases Hs Ep; simplify_eq; by rewrite ?upd_ne. }
  pose proof (sum_two (fun p => left_to_do (y_at s p) (y_state s p)) (fun p => left_to_do (y_at s' p) (y_state s' p)) N p i 9 8) as H.
  cut (sum_list ((fun p => left_to_do (y_at s' p) (y_state s' p)) <$> seq 0 N) + 9 <=
    sum_list ((fun p => left_to_do (y_at s p) (y_state s p)) <$> seq 0 N) + 8)%nat; [lia|].
  apply H; try done; rewrite Hat.
  - intros q Hq Hqi. by rewrite upd_ne, Hst.
  - rewrite upd_eq, Ei. cbn [left_to_do]. lia.
  - rewrite upd_ne by done. destruct (y_at s i); cbn [left_to_do]; try lia. repeat case_decide; lia.
Qed.

Lemma step_work s p s' : inv s -> (p < N)%nat -> step p s = Some s' -> (work s' < work s)%nat.
Proof.
  intros HI Hp Hs. assert (Hcase : (exists i, y_at s p = RTest i) \/ (forall i, y_at s p <> RTest i)).
  { destruct (y_at s p); eauto; by right. }
  destruct Hcase as [[i Ei]|Hno]; [by eapply test_work|]. apply (work_one s s' p Hp).
  - intros q Hq. step_cases Hs Ep; rewrite ?upd_ne by done; try done. by destruct (Hno i).
  - pose proof (inv_state _ HI p) as I8. step_cases Hs Ep; rewrite ?upd_eq; cbn [left_to_do]; rewrite ?decide_True by done; try lia; try (by destruct (Hno i)).
    destruct I8 as [-> _]. simpl. lia.
Qed.

(** The lock of [q] is free unless [q] itself or a releaser at [q] can step. *)
Lemma plock_free s q :
  inv s -> (forall p, (p < N)%nat -> step p s = None) -> (q < N)%nat -> y_plock s q = None.
Proof.
  intros HI Hno Hq. destruct (y_plock s q) as [r|] eqn:E; [|done]. exfalso.
  apply (inv_plock _ HI) in E. unfold holds_plock in E. case_decide; subst.
  - specialize (Hno q Hq). unfold step, sleep_step, scheduler_step in Hno. by destruct (y_at s q).
  - assert (Hr : (r < N)%nat).
    { destruct (decide (r < N)%nat); [done|]. by rewrite (inv_idle _ HI) in E by lia. }
    specialize (Hno r Hr). unfold step, wakeup_step in Hno. by rewrite E in Hno.
Qed.

Lemma lk_free s : inv s -> (forall p, (p < N)%nat -> step p s = None) -> y_lk s = None.
Proof.
  intros HI Hno. destruct (y_lk s) as [p|] eqn:E; [|done]. exfalso. apply (inv_lk _ HI) in E.
  assert (Hp : (p < N)%nat).
  { destruct (decide (p < N)%nat); [done|]. by rewrite (inv_idle _ HI) in E by lia. }
  pose proof (plock_free s) as Hfree. specialize (Hno p Hp) as Hs.
  unfold step, acquiresleep_step, sleep_step, wakeup_step, releasesleep_step in Hs.
  destruct (y_at s p) as [| | | | | | | | | | | | |i|i|]; simpl in *; try done.
  - by rewrite Hfree in Hs.
  - repeat case_decide; simplify_eq. by rewrite Hfree in Hs.
Qed.

(** When nothing can step, everything is settled. *)
Lemma stuck_settled s : inv s -> (forall p, (p < N)%nat -> step p s = None) -> settled s.
Proof.
  intros HI Hno p Hp. pose proof (lk_free s HI Hno) as El. pose proof (plock_free s p HI Hno Hp) as Ep.
  pose proof (inv_lk _ HI p) as I1. pose proof (inv_state _ HI p) as I8. specialize (Hno p Hp).
  unfold step, acquiresleep_step, sleep_step, scheduler_step, releasesleep_step in Hno. rewrite El in *. rewrite Ep in *.
  unfold asleep. destruct (y_at s p); simpl in *; auto; try done; try (by apply proj2 in I1; specialize (I1 eq_refl)).
  case_decide; [done|]. tauto.
Qed.

(** A sleep lock is held by at most one process at a time, from the moment
    [acquiresleep] takes it to the moment [releasesleep] clears it, in every
    interleaving of any number of processes; the lock's record says which. *)
Theorem sleeplock_exclusive s p q :
  reachable s -> owns (y_at s p) = true -> owns (y_at s q) = true ->
  p = q /\ holdingsleep (pid p) (y_lock s) = true.
Proof.
  intros HI%reachable_inv Hp Hq. split; [by eapply (inv_one _ HI)|].
  destruct (inv_owner _ HI p Hp) as [E1 E2]. unfold holdingsleep. rewrite E1, E2, Z.eqb_refl. done.
Qed.

(** C31: no wakeup is lost: whenever a process sleeps on the lock, another one
    holds it, or a releaser's [wakeup] loop has yet to reach the sleeper. *)
Theorem no_lost_wakeup s p :
  reachable s -> asleep s p ->
  (exists q, owns (y_at s q) = true) \/ wakes s p.
Proof.
  intros HI%reachable_inv Hp. destruct (inv_sleep _ HI p (or_intror Hp)) as [E|]; [left|by right].
  destruct (inv_free _ HI) as [E'|(q & _ & Ho)]; [by rewrite E in E'|by exists q].
Qed.

(** C32: the lock makes progress under every schedule: once no further call is
    made, any run of the processes and the scheduler ends, within [work s]
    steps, in a state where nothing can step only because each process is idle,
    holds the lock, or sleeps while some process holds it. *)
Theorem sleeplock_progress s :
  reachable s ->
  (forall n s', nsteps runs n s s' -> (n + work s' <= work s)%nat) /\
  (forall s', rtc runs s s' -> (forall p, (p < N)%nat -> step p s' = None) ->
     settled s' /\ forall p, asleep s' p -> exists q, y_at s' q = Held).
Proof.
  intros HI%reachable_inv. split.
  - intros n s' Hr. induction Hr as [s|n s s1 s2 Hs _ IH]; [lia|]. destruct Hs as [s p s1 Hp Hs].
    pose proof (step_work s p s1 HI Hp Hs). specialize (IH (step_inv s p s1 HI Hp Hs)). lia.
  - intros s' Hr Hno. assert (HI' : inv s').
    { clear Hno. induction Hr as [s|s s1 s2 Hs _ IH]; [done|]. destruct Hs. apply IH. by eapply step_inv. }
    pose proof (stuck_settled s' HI' Hno) as Hset. split; [done|]. intros p Hp.
    assert (Hpt : forall q, y_at s' q = Idle \/ y_at s' q = Held \/ asleep s' q).
    { intros q. destruct (decide (q < N)%nat); [by apply Hset|left; apply (inv_idle _ HI'); lia]. }
    destruct (inv_sleep _ HI' p (or_intror Hp)) as [E|(q & i & Hq & _)].
    + destruct (inv_free _ HI') as [E'|(q & _ & Ho)]; [by rewrite E in E'|exists q].
      destruct (Hpt q) as [Eq|[Eq|[Eq _]]]; by rewrite Eq in *.
    + destruct (Hpt q) as [Eq|[Eq|[Eq _]]]; rewrite Eq in *; naive_solver.
Qed.
End machine.

(** * A run *)

(** Two processes, with pids 1 and 2.  A schedule is a list of the process to
    step and whether it makes a call first. *)
Definition pid_ex (p : nat) : Z := Z.of_nat p + 1.

Fixpoint schedule (l : list (bool * nat)) (s : sys) : option sys :=
  match l with
  | [] => Some s
  | (call, p) :: l' =>
      if call then
        if decide ((p < 2)%nat /\ y_at s p = Idle) then schedule l' (go p AAcquire s) else None
      else
        if decide (p < 2)%nat then s' ← step 2 pid_ex p s; schedule l' s' else None
  end.

Lemma schedule_reachable l s s' :
  reachable 2 pid_ex s -> schedule l s = Some s' -> reachable 2 pid_ex s'.
Proof.
  revert s. induction l as [|[call p] l IH]; intros s Hr Hl; simpl in Hl; [by simplify_eq|].
  destruct call; case_decide as Hd; simplify_option_eq.
  - eapply IH; [|done]. destruct Hd. eapply rtc_r; [exact Hr|]. left. by constructor.
  - eapply IH; [|done]. eapply rtc_r; [exact Hr|]. right. by econstructor.
Qed.

(** Process 0 takes the lock; process 1 finds it taken and falls asleep. *)
Definition both_call : list (bool * nat) :=
  [(true, 0); (true, 1); (false, 0); (false, 0); (false, 0);
   (false, 1); (false, 1); (false, 1); (false, 1); (false, 1); (false, 1)]%nat.

Lemma both_called : exists s, reachable 2 pid_ex s /\ y_at s 0%nat = Held /\ asleep s 1.
Proof.
  destruct (schedule both_call boot) as [s|] eqn:E; [|by vm_compute in E]. exists s.
  split; [eapply schedule_reachable; [apply rtc_refl|exact E]|]. vm_compute in E. by simplify_eq.
Qed.

Lemma sleeplock_exclusive_witness :
  exists s, y_at s 0%nat = Held /\ holdingsleep (pid_ex 0) (y_lock s) = true.
Proof.
  destruct both_called as (s & Hr & H0 & _). exists s. split; [done|].
  apply (sleeplock_exclusive 2 pid_ex s 0 0 Hr); by rewrite H0.
Defined.

Lemma no_lost_wakeup_witness :
  exists s, asleep s 1 /\ ((exists q, owns (y_at s q) = true) \/ wakes s 1).
Proof.
  destruct both_called as (s & Hr & _ & H1). exists s. split; [done|].
  apply (no_lost_wakeup 2 pid_ex s 1 Hr H1).
Defined.

Lemma sleeplock_progress_witness :
  exists s, asleep s 1 /\ (forall n s', nsteps (runs 2 pid_ex) n s s' -> (n + work 2 s' <= work 2 s)%nat).
Proof.
  destruct both_called as (s & Hr & _ & H1). exists s. split; [done|].
  apply (sleeplock_progress 2 pid_ex s Hr).
Defined.
