(* ===== verification/Virtio.v ===== *)
(** The disk driver, [kernel/virtio_disk.c].

    The driver and the device share three structures: the descriptors, the
    [avail] ring on which the driver puts the heads of descriptor chains, and
    the [used] ring on which the device puts back the heads of finished ones.
    The driver's code runs under [vdisk_lock], in sections that end where it
    sleeps or returns; the device works at the same time.  The machine below
    interleaves any number of processes in [virtio_disk_rw], the interrupt
    handler and the device.

    The addresses in descriptors are kept as the objects they point to.  The
    registers QUEUE_NOTIFY and INTERRUPT_ACK only prompt the other side; here
    both sides may move at any time.  [virtio_disk_init] is in [Boot]. *)

From stdpp Require Import gmap.
From S2P Require Import Prelude Layout Sleeplock Bio.

Definition NUM : nat := 8.
Definition VRING_DESC_F_NEXT : Z := 1.
Definition VRING_DESC_F_WRITE : Z := 2.
Definition VIRTIO_BLK_T_IN : Z := 0.
Definition VIRTIO_BLK_T_OUT : Z := 1.

(** What a descriptor's [addr] points to: [disk.ops[i]], [b->data],
    [disk.info[i].status]. *)
Inductive object : Type := Null | Ops (i : nat) | Data (b : nat) | Status (i : nat).

Record virtq_desc : Type := Desc { d_addr : object; d_len : Z; d_flags : Z; d_next : Z }.
Record virtio_blk_req : Type := Req { r_type : Z; r_reserved : Z; r_sector : Z }.
Record virtq_avail : Type := Avail { av_idx : Z; av_ring : nat -> Z }.
Record virtq_used : Type := Used { us_idx : Z; us_ring : nat -> Z }.
Record info : Type := Info { in_b : option nat; in_status : Z }.

(** The fields of [struct buf] the driver uses. *)
Record vbuf : Type := Vbuf { v_disk : Z; v_blockno : Z; v_data : list Z }.

(** Where a process is: outside; about to look for descriptors, or asleep on
    [&disk.free[0]]; with its chain on the ring but not yet counted in
    [avail->idx]; about to test [b->disk] with the lock, or without it after
    [sleep(b)] was woken; asleep on [b]. *)
Inductive pc : Type :=
  | Idle
  | Alloc (b : nat) (w : bool)
  | WaitFree (b : nat) (w : bool)
  | Filled (b : nat) (w : bool) (i0 i1 i2 : nat)
  | Posted (b : nat) (w : bool) (i0 i1 i2 : nat)
  | WaitBuf (b : nat) (w : bool) (i0 i1 i2 : nat)
  | Woken (b : nat) (w : bool) (i0 i1 i2 : nat).

(** Who has [vdisk_lock]. *)
Inductive holder : Type := Nobody | Handler | Process (p : nat).

Record vdisk : Type := Vdisk {
  x_desc : nat -> virtq_desc;
  x_avail : virtq_avail;
  x_used : virtq_used;
  x_free : nat -> Z;
  x_used_idx : Z;
  x_info : nat -> info;
  x_ops : nat -> virtio_blk_req;
  x_buf : nat -> vbuf;
  x_pc : nat -> pc;
  x_lock : holder;
  (** the device: how far it has read [avail], the chains it works on, the
      sectors of the disk *)
  x_seen : Z;
  x_taken : list nat;
  x_sectors : Z -> list Z;
}.

Definition set_desc i f x := Vdisk (upd (x_desc x) i f) (x_avail x) (x_used x) (x_free x) (x_used_idx x) (x_info x) (x_ops x) (x_buf x) (x_pc x) (x_lock x) (x_seen x) (x_taken x) (x_sectors x).
Definition set_avail v x := Vdisk (x_desc x) v (x_used x) (x_free x) (x_used_idx x) (x_info x) (x_ops x) (x_buf x) (x_pc x) (x_lock x) (x_seen x) (x_taken x) (x_sectors x).
Definition set_used v x := Vdisk (x_desc x) (x_avail x) v (x_free x) (x_used_idx x) (x_info x) (x_ops x) (x_buf x) (x_pc x) (x_lock x) (x_seen x) (x_taken x) (x_sectors x).
Definition set_free i v x := Vdisk (x_desc x) (x_avail x) (x_used x) (upd (x_free x) i (fun _ => v)) (x_used_idx x) (x_info x) (x_ops x) (x_buf x) (x_pc x) (x_lock x) (x_seen x) (x_taken x) (x_sectors x).
Definition set_used_idx v x := Vdisk (x_desc x) (x_avail x) (x_used x) (x_free x) v (x_info x) (x_ops x) (x_buf x) (x_pc x) (x_lock x) (x_seen x) (x_taken x) (x_sectors x).
Definition set_info i f x := Vdisk (x_desc x) (x_avail x) (x_used x) (x_free x) (x_used_idx x) (upd (x_info x) i f) (x_ops x) (x_buf x) (x_pc x) (x_lock x) (x_seen x) (x_taken x) (x_sectors x).
Definition set_ops i v x := Vdisk (x_desc x) (x_avail x) (x_used x) (x_free x) (x_used_idx x) (x_info x) (upd (x_ops x) i (fun _ => v)) (x_buf x) (x_pc x) (x_lock x) (x_seen x) (x_taken x) (x_sectors x).
Definition set_vbuf b f x := Vdisk (x_desc x) (x_avail x) (x_used x) (x_free x) (x_used_idx x) (x_info x) (x_ops x) (upd (x_buf x) b f) (x_pc x) (x_lock x) (x_seen x) (x_taken x) (x_sectors x).
Definition set_pcs g x := Vdisk (x_desc x) (x_avail x) (x_used x) (x_free x) (x_used_idx x) (x_info x) (x_ops x) (x_buf x) g (x_lock x) (x_seen x) (x_taken x) (x_sectors x).
Definition set_vlock v x := Vdisk (x_desc x) (x_avail x) (x_used x) (x_free x) (x_used_idx x) (x_info x) (x_ops x) (x_buf x) (x_pc x) v (x_seen x) (x_taken x) (x_sectors x).
Definition set_dev n t d x := Vdisk (x_desc x) (x_avail x) (x_used x) (x_free x) (x_used_idx x) (x_info x) (x_ops x) (x_buf x) (x_pc x) (x_lock x) n t d.
Definition goto p q x := set_pcs (upd (x_pc x) p (fun _ => q)) x.

Definition set_d_addr v d := Desc v (d_len d) (d_flags d) (d_next d).
Definition set_d_len v d := Desc (d_addr d) v (d_flags d) (d_next d).
Definition set_d_flags v d := Desc (d_addr d) (d_len d) v (d_next d).
Definition set_d_next v d := Desc (d_addr d) (d_len d) (d_flags d) v.

(** * The driver *)

(** [wakeup(&disk.free[0])] and [wakeup(b)]: the caller is not asleep. *)
Definition woke_free (c : pc) : pc := match c with WaitFree b w => Alloc b w | _ => c end.
Definition wakeup_free : M vdisk unit := modify (fun x => set_pcs (fun p => woke_free (x_pc x p)) x).

Definition woke_buf (b : nat) (c : pc) : pc :=
  match c with
  | WaitBuf b' w i0 i1 i2 => if decide (b' = b) then Woken b' w i0 i1 i2 else c
  | _ => c
  end.
Definition wakeup_buf (b : nat) : M vdisk unit := modify (fun x => set_pcs (fun p => woke_buf b (x_pc x p)) x).

Fixpoint alloc_desc_loop (n i : nat) : M vdisk Z :=
  match n with
  | O => mret (-1)
  | S n' =>
      f ← gets (fun x => x_free x i);
      if ctrue f then modify (set_free i 0);; mret (Z.of_nat i)
      else alloc_desc_loop n' (S i)
  end.
Definition alloc_desc : M vdisk Z := alloc_desc_loop NUM 0.

Definition free_desc (i : nat) : M vdisk unit :=
  if (NUM <=? i)%nat then panic "free_desc 1"
  else
    f ← gets (fun x => x_free x i);
    if ctrue f then panic "free_desc 2"
    else
      modify (set_desc i (set_d_addr Null));;
      modify (set_desc i (set_d_len 0));;
      modify (set_desc i (set_d_flags 0));;
      modify (set_desc i (set_d_next 0));;
      modify (set_free i 1);;
      wakeup_free.

(** A chain that does not end within [NUM] descriptors has freed one twice. *)
Definition free_chain (i : nat) : M vdisk unit :=
  loop (S NUM) (fun i =>
    d ← gets (fun x => x_desc x i);
    let flag := d_flags d in
    let nxt := d_next d in
    free_desc i;;
    if ctrue (Z.land flag VRING_DESC_F_NEXT) then mret (inl (Z.to_nat nxt)) else mret (inr tt)) i.

Fixpoint free_all (l : list nat) : M vdisk unit :=
  match l with
  | [] => mret tt
  | i :: l' => free_desc i;; free_all l'
  end.

(** [got] holds [idx[0..i)]. *)
Fixpoint alloc3_desc_loop (n : nat) (got : list nat) : M vdisk (option (list nat)) :=
  match n with
  | O => mret (Some got)
  | S n' =>
      i ← alloc_desc;
      if i <? 0 then free_all got;; mret None
      else alloc3_desc_loop n' (got ++ [Z.to_nat i])
  end.
Definition alloc3_desc : M vdisk (option (list nat)) := alloc3_desc_loop 3 [].

(** [virtio_disk_rw] from the descriptors to the ring entry, before the first
    barrier. *)
Definition fill (b : nat) (w : bool) (i0 i1 i2 : nat) : M vdisk unit :=
  v ← gets (fun x => x_buf x b);
  let sector := u32 (v_blockno v * (BSIZE / 512)) in
  modify (set_ops i0 (Req (if w then VIRTIO_BLK_T_OUT else VIRTIO_BLK_T_IN) 0 sector));;
  modify (set_desc i0 (set_d_addr (Ops i0)));;
  modify (set_desc i0 (set_d_len 16));;
  modify (set_desc i0 (set_d_flags VRING_DESC_F_NEXT));;
  modify (set_desc i0 (set_d_next (Z.of_nat i1)));;
  modify (set_desc i1 (set_d_addr (Data b)));;
  modify (set_desc i1 (set_d_len BSIZE));;
  modify (set_desc i1 (set_d_flags (if w then 0 else VRING_DESC_F_WRITE)));;
  modify (set_desc i1 (fun d => set_d_flags (Z.lor (d_flags d) VRING_DESC_F_NEXT) d));;
  modify (set_desc i1 (set_d_next (Z.of_nat i2)));;
  modify (set_info i0 (fun n => Info (in_b n) 0xff));;
  modify (set_desc i2 (set_d_addr (Status i0)));;
  modify (set_desc i2 (set_d_len 1));;
  modify (set_desc i2 (set_d_flags VRING_DESC_F_WRITE));;
  modify (set_desc i2 (set_d_next 0));;
  modify (set_vbuf b (fun v => Vbuf 1 (v_blockno v) (v_data v)));;
  modify (set_info i0 (fun n => Info (Some b) (in_status n)));;
  modify (fun x => let a := x_avail x in
    set_avail (Avail (av_idx a) (upd (av_ring a) (Z.to_nat (av_idx a mod Z.of_nat NUM)) (fun _ => Z.of_nat i0))) x).

(** The code between the sections' ends, for process [p]: looking for
    descriptors and filling them in; counting the ring entry; the loop that
    waits; the end. *)
Definition rw_alloc (p b : nat) (w : bool) : M vdisk unit :=
  r ← alloc3_desc;
  match r with
  | Some [i0; i1; i2] =>
      fill b w i0 i1 i2;;
      modify (set_vlock (Process p));;
      modify (goto p (Filled b w i0 i1 i2))
  | _ => modify (goto p (WaitFree b w));; modify (set_vlock Nobody)
  end.

Definition rw_post (p b : nat) (w : bool) (i0 i1 i2 : nat) : M vdisk unit :=
  modify (fun x => let a := x_avail x in set_avail (Avail (u16 (av_idx a + 1)) (av_ring a)) x);;
  modify (goto p (Posted b w i0 i1 i2)).

Definition rw_wait (p b : nat) (w : bool) (i0 i1 i2 : nat) : M vdisk unit :=
  v ← gets (fun x => x_buf x b);
  if v_disk v =? 1 then modify (goto p (WaitBuf b w i0 i1 i2));; modify (set_vlock Nobody)
  else
    modify (set_info i0 (fun n => Info None (in_status n)));;
    free_chain i0;;
    modify (goto p Idle);;
    modify (set_vlock Nobody).

(** One turn of the loop of [virtio_disk_intr]: [true] at its end. *)
Definition intr_body : M vdisk bool :=
  u ← gets x_used_idx;
  us ← gets x_used;
  if u =? us_idx us then mret true
  else
    let id := Z.to_nat (us_ring us (Z.to_nat (u mod Z.of_nat NUM))) in
    n ← gets (fun x => x_info x id);
    if negb (in_status n =? 0) then panic "virtio_disk_intr status"
    else
      match in_b n with
      | None => undefined "b"
      | Some b =>
          modify (set_vbuf b (fun v => Vbuf 0 (v_blockno v) (v_data v)));;
          wakeup_buf b;;
          modify (set_used_idx (u16 (u + 1)));;
          mret false
      end.

(** [virtio_disk_intr] with the device at rest; the loop ends within as many
    turns as the index has values. *)
Definition virtio_disk_intr : M vdisk unit :=
  loop (Z.to_nat (2 ^ 16)) (fun _ => e ← intr_body; if e : bool then mret (inr tt) else mret (inl tt)) tt.

(** * The device, as the virtio specification has it *)

(** The request at descriptor [i]: header, data, status. *)
Definition request (x : vdisk) (i : nat) : option (virtio_blk_req * nat * Z * bool * nat) :=
  let d0 := x_desc x i in
  let d1 := x_desc x (Z.to_nat (d_next d0)) in
  let d2 := x_desc x (Z.to_nat (d_next d1)) in
  if negb (Z.testbit (d_flags d0) 0 && Z.testbit (d_flags d1) 0 && negb (Z.testbit (d_flags d2) 0)
           && negb (Z.testbit (d_flags d0) 1) && Z.testbit (d_flags d2) 1
           && (d_len d0 =? 16) && (d_len d2 =? 1)) then None
  else
    match d_addr d0, d_addr d1, d_addr d2 with
    | Ops k, Data b, Status j => Some (x_ops x k, b, d_len d1, Z.testbit (d_flags d1) 1, j)
    | _, _, _ => None
    end.

Fixpoint read_sectors (d : Z -> list Z) (s : Z) (n : nat) : list Z :=
  match n with
  | O => []
  | S n' => d s ++ read_sectors d (s + 1) n'
  end.
Fixpoint write_sectors (d : Z -> list Z) (s : Z) (n : nat) (l : list Z) : Z -> list Z :=
  match n with
  | O => d
  | S n' => write_sectors (fun k => if k =? s then take 512 l else d k) (s + 1) n' (drop 512 l)
  end.

(** The transfer a request asks for. *)
Definition transfer (r : virtio_blk_req * nat * Z * bool * nat) (x : vdisk) : option vdisk :=
  let '(q, b, len, writable, _) := r in
  let n := Z.to_nat (len / 512) in
  if (r_type q =? VIRTIO_BLK_T_IN) && writable then
    Some (set_vbuf b (fun v => Vbuf (v_disk v) (v_blockno v) (read_sectors (x_sectors x) (r_sector q) n)) x)
  else if (r_type q =? VIRTIO_BLK_T_OUT) && negb writable then
    Some (set_dev (x_seen x) (x_taken x) (write_sectors (x_sectors x) (r_sector q) n (v_data (x_buf x b))) x)
  else None.

(** The device writes a status, gives chain [i] back and counts it. *)
Definition give_back (i j : nat) (status : Z) (x : vdisk) : vdisk :=
  let u := x_used x in
  set_dev (x_seen x) (filter (fun k => k <> i) (x_taken x)) (x_sectors x)
    (set_used (Used (u16 (us_idx u + 1)) (upd (us_ring u) (Z.to_nat (us_idx u mod Z.of_nat NUM)) (fun _ => Z.of_nat i)))
      (set_info j (fun n => Info (in_b n) status) x)).

(** A device takes entries off the [avail] ring in order and serves the chains
    it has taken in any order; it may report an error without a transfer.
    What it does with a chain that is not a request is not known. *)
Inductive virtio_spec : vdisk -> outcome vdisk unit -> Prop :=
  | dev_take x :
      x_seen x <> av_idx (x_avail x) ->
      virtio_spec x (Ok tt (set_dev (u16 (x_seen x + 1))
        (x_taken x ++ [Z.to_nat (av_ring (x_avail x) (Z.to_nat (x_seen x mod Z.of_nat NUM)))]) (x_sectors x) x))
  | dev_serve x x' i r :
      i ∈ x_taken x -> request x i = Some r -> transfer r x = Some x' ->
      virtio_spec x (Ok tt (give_back i r.2 0 x'))
  | dev_error x i r e :
      i ∈ x_taken x -> request x i = Some r -> e <> 0 ->
      virtio_spec x (Ok tt (give_back i r.2 e x))
  | dev_lost x i :
      i ∈ x_taken x -> (request x i ≫= fun r => transfer r x) = None ->
      virtio_spec x (Panic "device" x).

(** A device that keeps to the specification. *)
Class VirtioDevice : Type := {
  device : vdisk -> outcome vdisk unit -> Prop;
  device_spec : forall x o, device x o -> virtio_spec x o;
}.

(** * All together *)

(** What a caller sees: a call with the block number and the contents of the
    buffer it holds, a return with the contents. *)
Inductive event : Type :=
  | Tau
  | Call (p b : nat) (w : bool) (n : Z) (d : list Z)
  | Ret (p b : nat) (d : list Z).

Definition uses (c : pc) (b : nat) : Prop :=
  match c with
  | Idle => False
  | Alloc b' _ | WaitFree b' _ | Filled b' _ _ _ _ | Posted b' _ _ _ _ | WaitBuf b' _ _ _ _ | Woken b' _ _ _ _ => b' = b
  end.

(** The event of the section that ends at [x']. *)
Definition ends (p b : nat) (o : outcome vdisk unit) : event :=
  match o with
  | Ok _ x' => match x_pc x' p with Idle => Ret p b (v_data (x_buf x' b)) | _ => Tau end
  | _ => Tau
  end.

Section machine.
Context `{VD : VirtioDevice}.

Inductive step : vdisk -> event -> outcome vdisk unit -> Prop :=
  | st_call x p b w n d :
      x_pc x p = Idle -> (forall q, ~ uses (x_pc x q) b) ->
      0 <= n < 2 ^ 31 -> length d = Z.to_nat BSIZE ->
      step x (Call p b w n d) (Ok tt (goto p (Alloc b w) (set_vbuf b (fun v => Vbuf (v_disk v) n d) x)))
  | st_alloc x p b w :
      x_pc x p = Alloc b w -> x_lock x = Nobody -> step x Tau (rw_alloc p b w x)
  | st_post x p b w i0 i1 i2 :
      x_pc x p = Filled b w i0 i1 i2 -> step x Tau (rw_post p b w i0 i1 i2 x)
  | st_wait x p b w i0 i1 i2 o :
      x_pc x p = Posted b w i0 i1 i2 -> rw_wait p b w i0 i1 i2 x = o -> step x (ends p b o) o
  | st_woken x p b w i0 i1 i2 o :
      x_pc x p = Woken b w i0 i1 i2 -> x_lock x = Nobody -> rw_wait p b w i0 i1 i2 x = o -> step x (ends p b o) o
  | st_intr x :
      x_lock x = Nobody -> step x Tau (Ok tt (set_vlock Handler x))
  | st_intr_body x o :
      x_lock x = Handler ->
      (e ← intr_body; when e (modify (set_vlock Nobody))) x = o -> step x Tau o
  | st_device x o : device x o -> step x Tau o.

(** The events of a run, [Tau] left out. *)
Definition visible (e : event) : list event := match e with Tau => [] | _ => [e] end.

Inductive exec (x0 : vdisk) : list event -> outcome vdisk unit -> Prop :=
  | ex_nil : exec x0 [] (Ok tt x0)
  | ex_step tr x e o : exec x0 tr (Ok tt x) -> step x e o -> exec x0 (tr ++ visible e) o.
End machine.

(** What [virtio_disk_init] leaves, with the given disk. *)
Definition vdisk_boot (sectors : Z -> list Z) : vdisk :=
  Vdisk (fun _ => Desc Null 0 0 0) (Avail 0 (fun _ => 0)) (Used 0 (fun _ => 0)) (fun _ => 1) 0
    (fun _ => Info None 0) (fun _ => Req 0 0 0) (fun _ => Vbuf 0 0 []) (fun _ => Idle) Nobody 0 [] sectors.

(** * What the buffer cache relies on

    Each call is one [disk_rw], at some moment between the call and the
    return. *)

Inductive apc : Type := AIdle | APending (b : nat) (w : bool) | ADone (b : nat).
Record abs : Type := Abs { a_bio : bio; a_pc : nat -> apc }.

Definition blank : buf := Buf 0 0 0 initsleeplock 0 0 0 [].
Definition abs_boot (sectors : Z -> list Z) : abs :=
  Abs (Bio (fun _ => blank) (fun n => sectors (2 * n) ++ sectors (2 * n + 1)) [] 0) (fun _ => AIdle).

Inductive astep : abs -> event -> abs -> Prop :=
  | as_call s p b w n d :
      a_pc s p = AIdle ->
      astep s (Call p b w n d)
        (Abs (set_buf b (fun x => set_data d (set_blockno n x)) (a_bio s)) (upd (a_pc s) p (fun _ => APending b w)))
  | as_rw s p b w t :
      a_pc s p = APending b w -> disk_rw b w (a_bio s) = Ok tt t ->
      astep s Tau (Abs t (upd (a_pc s) p (fun _ => ADone b)))
  | as_ret s p b :
      a_pc s p = ADone b ->
      astep s (Ret p b (b_data (bufs (a_bio s) b))) (Abs (a_bio s) (upd (a_pc s) p (fun _ => AIdle))).

Inductive aexec (s0 : abs) : list event -> abs -> Prop :=
  | ax_nil : aexec s0 [] s0
  | ax_step tr s e s' : aexec s0 tr s -> astep s e s' -> aexec s0 (tr ++ visible e) s'.
