(* ===== verification/VirtioSafe.v ===== *)
(** The disk driver refines the disk of the buffer cache.

    The invariant of the machine of [Virtio]: which chain belongs to whom, what
    its descriptors say and where it is on its way through the rings; each step
    keeps it and is matched by a step of the specification. *)

From stdpp Require Import gmap.
From S2P Require Import Prelude Layout Sleeplock Bio Virtio.

(** * The invariant *)

(** The buffer and the chain a process has. *)
Definition own (c : pc) : option (nat * bool * nat * nat * nat) :=
  match c with
  | Filled b w i0 i1 i2 | Posted b w i0 i1 i2 | WaitBuf b w i0 i1 i2 | Woken b w i0 i1 i2 => Some (b, w, i0, i1, i2)
  | _ => None
  end.
Definition posted (c : pc) : bool := match c with Posted _ _ _ _ _ | WaitBuf _ _ _ _ _ | Woken _ _ _ _ _ => true | _ => false end.

(** The chain of a request, filled in. *)
Definition filled_in (x : vdisk) (b : nat) (w : bool) (i0 i1 i2 : nat) : Prop :=
  x_desc x i0 = Desc (Ops i0) 16 1 (Z.of_nat i1) /\
  x_desc x i1 = Desc (Data b) BSIZE (if w then 1 else 3) (Z.of_nat i2) /\
  x_desc x i2 = Desc (Status i0) 1 2 0 /\
  x_ops x i0 = Req (if w then 1 else 0) 0 (2 * v_blockno (x_buf x b)) /\
  in_b (x_info x i0) = Some b.

(** A ring of which the entries from [start] on hold [l]. *)
Definition ring_holds (ring : nat -> Z) (start : Z) (l : list nat) : Prop :=
  forall k i, l !! k = Some i -> ring (Z.to_nat ((start + Z.of_nat k) mod Z.of_nat NUM)) = Z.of_nat i.

(** [A] are the chains on the [avail] ring the device has not taken, [U] those
    on the [used] ring the handler has not seen. *)
Record vinv (x : vdisk) (A U : list nat) : Prop := {
  vi_chain p b w i0 i1 i2 :
    own (x_pc x p) = Some (b, w, i0, i1, i2) ->
    NoDup [i0; i1; i2] /\ Forall (fun i => (i < NUM)%nat /\ x_free x i = 0) [i0; i1; i2] /\
    filled_in x b w i0 i1 i2;
  vi_disjoint p q b w i0 i1 i2 b' w' j0 j1 j2 i :
    own (x_pc x p) = Some (b, w, i0, i1, i2) -> own (x_pc x q) = Some (b', w', j0, j1, j2) ->
    i ∈ [i0; i1; i2] -> i ∈ [j0; j1; j2] -> p = q;
  vi_buf p q b : uses (x_pc x p) b -> uses (x_pc x q) b -> p = q;
  vi_block p b : uses (x_pc x p) b ->
    0 <= v_blockno (x_buf x b) < 2 ^ 31 /\ length (v_data (x_buf x b)) = Z.to_nat BSIZE;
  vi_sectors n : length (x_sectors x n) = 512%nat;
  vi_nodup : NoDup (A ++ x_taken x ++ U);
  vi_lists i : i ∈ A ++ x_taken x ++ U ->
    exists p b w i1 i2, own (x_pc x p) = Some (b, w, i, i1, i2) /\ posted (x_pc x p) = true;
  vi_disk p b w i0 i1 i2 :
    own (x_pc x p) = Some (b, w, i0, i1, i2) ->
    v_disk (x_buf x b) = if posted (x_pc x p) then b2z (bool_decide (i0 ∈ A ++ x_taken x ++ U)) else 1;
  vi_seen : 0 <= x_seen x < 2 ^ 16;
  vi_avail : av_idx (x_avail x) = u16 (x_seen x + Z.of_nat (length A));
  vi_avail_ring : ring_holds (av_ring (x_avail x)) (x_seen x) A;
  vi_filled p b w i0 i1 i2 :
    x_pc x p = Filled b w i0 i1 i2 ->
    x_lock x = Process p /\ av_ring (x_avail x) (Z.to_nat (av_idx (x_avail x) mod Z.of_nat NUM)) = Z.of_nat i0;
  vi_posted p b w i0 i1 i2 : x_pc x p = Posted b w i0 i1 i2 -> x_lock x = Process p;
  vi_used_idx : 0 <= x_used_idx x < 2 ^ 16;
  vi_used : us_idx (x_used x) = u16 (x_used_idx x + Z.of_nat (length U));
  vi_used_ring : ring_holds (us_ring (x_used x)) (x_used_idx x) U;
  vi_free i : (i < NUM)%nat -> x_free x i = 0 \/ x_free x i = 1;
}.

(** The abstract state of a machine's state. *)
Record refines (x : vdisk) (A U : list nat) (s : abs) : Prop := {
  rf_idle p : x_pc x p = Idle -> a_pc s p = AIdle;
  rf_early p b w : x_pc x p = Alloc b w \/ x_pc x p = WaitFree b w -> a_pc s p = APending b w;
  rf_own p b w i0 i1 i2 :
    own (x_pc x p) = Some (b, w, i0, i1, i2) ->
    a_pc s p = if posted (x_pc x p) && bool_decide (i0 ∉ A ++ x_taken x)
                 && negb (bool_decide (i0 ∈ U /\ in_status (x_info x i0) <> 0))
               then ADone b else APending b w;
  rf_buf p b : uses (x_pc x p) b ->
    b_blockno (bufs (a_bio s) b) = v_blockno (x_buf x b) /\ b_data (bufs (a_bio s) b) = v_data (x_buf x b);
  rf_disk n : 0 <= n < 2 ^ 31 ->
    disk (a_bio s) n = x_sectors x (2 * n) ++ x_sectors x (2 * n + 1);
}.

(** * Rings *)

Lemma idx_mod a : u16 a mod Z.of_nat NUM = a mod Z.of_nat NUM.
Proof. unfold u16, NUM. zlia. Qed.

Lemma vring_pop ring start i l :
  ring_holds ring start (i :: l) ->
  ring (Z.to_nat (start mod Z.of_nat NUM)) = Z.of_nat i /\ ring_holds ring (u16 (start + 1)) l.
Proof.
  intros H. split.
  - rewrite <- (H O i eq_refl). simpl. by rewrite Z.add_0_r.
  - intros k j Hk. rewrite <- (H (S k) j Hk). do 2 f_equal.
    rewrite <- Z.add_mod_idemp_l, idx_mod, Z.add_mod_idemp_l by done. f_equal. lia.
Qed.

Lemma vring_push ring start l i idx :
  idx = u16 (start + Z.of_nat (length l)) -> (length l < NUM)%nat -> ring_holds ring start l ->
  ring_holds (upd ring (Z.to_nat (idx mod Z.of_nat NUM)) (fun _ => Z.of_nat i)) start (l ++ [i]).
Proof.
  intros -> Hl H k j Hk. rewrite idx_mod. unfold upd. destruct (decide (k = length l)) as [->|Hne].
  - rewrite lookup_app_r, Nat.sub_diag in Hk by lia. injection Hk as <-. by rewrite decide_True.
  - assert (k < length l)%nat as Hlt.
    { apply lookup_lt_Some in Hk. rewrite length_app in Hk. simpl in Hk. lia. }
    rewrite lookup_app_l in Hk by done. rewrite decide_False; [by apply H|].
    intros E. apply Z2Nat.inj in E; [|apply Z.mod_pos_bound; done|apply Z.mod_pos_bound; done].
    unfold NUM in *. change (Z.of_nat 8) with 8 in E. Z.div_mod_to_equations. lia.
Qed.

(** The slot behind the entries is not one of theirs. *)
Lemma ring_slot ring start l i idx :
  idx = u16 (start + Z.of_nat (length l)) -> (length l < NUM)%nat -> ring_holds ring start l ->
  ring_holds (upd ring (Z.to_nat (idx mod Z.of_nat NUM)) (fun _ => Z.of_nat i)) start l.
Proof.
  intros E Hl H k j Hk. apply (vring_push ring start l i idx E Hl H).
  rewrite lookup_app_l; [done|by eapply lookup_lt_Some].
Qed.

Lemma ring_end ring start l i idx :
  idx = u16 (start + Z.of_nat (length l)) -> ring (Z.to_nat (idx mod Z.of_nat NUM)) = Z.of_nat i ->
  ring_holds ring start l -> ring_holds ring start (l ++ [i]).
Proof.
  intros -> E H k j [Hk|[Hk Hj]]%lookup_app_Some; [by apply H|].
  destruct (k - length l)%nat as [|m] eqn:Em; [|done]. injection Hj as <-.
  rewrite idx_mod in E. rewrite <- E. do 4 f_equal. lia.
Qed.

Lemma idx_empty start (l : list nat) :
  0 <= start < 2 ^ 16 -> (length l <= NUM)%nat -> (u16 (start + Z.of_nat (length l)) = start <-> l = []).
Proof.
  intros Hs Hl. unfold NUM in *. split.
  - intros E. destruct l; [done|]. simpl in *. unfold u16 in E. Z.div_mod_to_equations. lia.
  - intros ->. simpl. rewrite Z.add_0_r. by apply u16_small.
Qed.

(** At most [NUM] chains are under way. *)
Lemma below_NUM (l : list nat) : NoDup l -> (forall i, i ∈ l -> (i < NUM)%nat) -> (length l <= NUM)%nat.
Proof.
  intros Hn H. rewrite <- (length_seq NUM 0). apply submseteq_length, NoDup_submseteq; [done|].
  intros i Hi. apply elem_of_seq. specialize (H i Hi). lia.
Qed.

(** * Freeing and allocating descriptors *)

(** What is not a matter of descriptors and waiting. *)
Definition rest_same (x x' : vdisk) : Prop :=
  x_avail x' = x_avail x /\ x_used x' = x_used x /\ x_used_idx x' = x_used_idx x /\ x_info x' = x_info x /\
  x_ops x' = x_ops x /\ x_buf x' = x_buf x /\ x_lock x' = x_lock x /\ x_seen x' = x_seen x /\
  x_taken x' = x_taken x /\ x_sectors x' = x_sectors x.

Record freed (l : list nat) (x x' : vdisk) : Prop := {
  fr_desc i : x_desc x' i = if decide (i ∈ l) then Desc Null 0 0 0 else x_desc x i;
  fr_free i : x_free x' i = if decide (i ∈ l) then 1 else x_free x i;
  fr_pc p : x_pc x' p = if decide (l = []) then x_pc x p else woke_free (x_pc x p);
  fr_rest : rest_same x x';
}.

Lemma rest_same_trans x y z : rest_same x y -> rest_same y z -> rest_same x z.
Proof. unfold rest_same. intuition congruence. Qed.

Lemma freed_nil x : freed [] x x.
Proof. split; intros; rewrite ?decide_False by apply not_elem_of_nil; done. Qed.

Lemma woke_free_idem c : woke_free (woke_free c) = woke_free c.
Proof. by destruct c. Qed.

Lemma freed_cons i l x y z : freed [i] x y -> freed l y z -> freed (i :: l) x z.
Proof.
  intros [D1 F1 P1 R1] [D2 F2 P2 R2]. split.
  - intros j. rewrite D2, D1. repeat case_decide; set_solver.
  - intros j. rewrite F2, F1. repeat case_decide; set_solver.
  - intros p. rewrite P2, P1. rewrite (decide_False (P := [i] = [])), (decide_False (P := i :: l = [])) by done.
    case_decide; [done|apply woke_free_idem].
  - by eapply rest_same_trans.
Qed.

Lemma free_desc_ok i x :
  (i < NUM)%nat -> x_free x i = 0 -> exists x', free_desc i x = Ok tt x' /\ freed [i] x x'.
Proof.
  intros Hi Hf. eexists. split.
  - unfold free_desc. replace (NUM <=? i)%nat with false by (symmetry; apply Nat.leb_gt; lia).
    unfold gets, mbind, M_bind. rewrite Hf. reflexivity.
  - split; simpl; [| | |done].
    + intros j. unfold upd. rewrite (decide_ext (j ∈ [i]) (j = i)) by set_solver. by case_decide.
    + intros j. unfold upd. rewrite (decide_ext (j ∈ [i]) (j = i)) by set_solver. by case_decide.
    + done.
Qed.

Lemma free_all_ok l x :
  NoDup l -> Forall (fun i => (i < NUM)%nat /\ x_free x i = 0) l ->
  exists x', free_all l x = Ok tt x' /\ freed l x x'.
Proof.
  revert x. induction l as [|i l IH]; intros x Hn Hf.
  - exists x. split; [done|apply freed_nil].
  - apply NoDup_cons in Hn as [Hi Hn]. apply Forall_cons in Hf as [[H1 H2] Hf].
    destruct (free_desc_ok i x H1 H2) as (y & Ey & Fy).
    destruct (IH y Hn) as (z & Ez & Fz).
    { rewrite Forall_forall in *. intros j Hj. rewrite (fr_free _ _ _ Fy).
      rewrite decide_False by (intros ->%list_elem_of_singleton; done). auto. }
    exists z. split; [|by eapply freed_cons]. cbn [free_all]. by rewrite (bind_ok _ _ _ _ _ Ey).
Qed.

(** [free_chain] on the chain of a request frees its three descriptors. *)
Lemma free_chain_ok i0 i1 i2 x b w :
  NoDup [i0; i1; i2] -> Forall (fun i => (i < NUM)%nat /\ x_free x i = 0) [i0; i1; i2] ->
  x_desc x i0 = Desc (Ops i0) 16 1 (Z.of_nat i1) ->
  x_desc x i1 = Desc (Data b) BSIZE (if w : bool then 1 else 3) (Z.of_nat i2) ->
  x_desc x i2 = Desc (Status i0) 1 2 0 ->
  exists x', free_chain i0 x = Ok tt x' /\ freed [i0; i1; i2] x x'.
Proof.
  intros Hn Hf E0 E1 E2. apply NoDup_cons in Hn as [N0 [N1 _]%NoDup_cons].
  apply Forall_cons in Hf as [[L0 F0] [[L1 F1] [[L2 F2] _]%Forall_cons]%Forall_cons].
  assert (i1 <> i0 /\ i2 <> i0 /\ i2 <> i1) as (D1 & D2 & D3) by set_solver.
  destruct (free_desc_ok i0 x L0 F0) as (y & Ey & Fy).
  assert (H1 : x_free y i1 = 0 /\ x_desc y i1 = x_desc x i1 /\ x_free y i2 = 0 /\ x_desc y i2 = x_desc x i2).
  { rewrite !(fr_free _ _ _ Fy), !(fr_desc _ _ _ Fy).
    rewrite !decide_False by (rewrite list_elem_of_singleton; done). done. }
  destruct H1 as (H1 & H2 & H3 & H4).
  destruct (free_desc_ok i1 y L1 H1) as (z & Ez & Fz).
  assert (x_free z i2 = 0 /\ x_desc z i2 = x_desc x i2) as [H5 H6].
  { rewrite (fr_free _ _ _ Fz), (fr_desc _ _ _ Fz).
    rewrite !decide_False by (rewrite list_elem_of_singleton; done). by rewrite H4. }
  destruct (free_desc_ok i2 z L2 H5) as (t & Et & Ft).
  exists t. split; [|by eapply freed_cons; [|eapply freed_cons]].
  unfold free_chain, NUM.
  erewrite loop_next; [|unfold gets, mbind at 1, M_bind at 1; rewrite E0; cbn [d_flags d_next];
    rewrite (bind_ok _ _ _ _ _ Ey); cbn; rewrite Nat2Z.id; reflexivity].
  erewrite loop_next; [|unfold gets, mbind at 1, M_bind at 1; rewrite H2, E1; cbn [d_flags d_next];
    rewrite (bind_ok _ _ _ _ _ Ez); destruct w; cbn; rewrite Nat2Z.id; reflexivity].
  erewrite loop_exit; [done|]. unfold gets, mbind at 1, M_bind at 1. rewrite H6, E2. cbn [d_flags d_next].
  by rewrite (bind_ok _ _ _ _ _ Et).
Qed.

Lemma alloc_desc_loop_ok n i x :
  (exists j, (i <= j < i + n)%nat /\ x_free x j <> 0 /\ alloc_desc_loop n i x = Ok (Z.of_nat j) (set_free j 0 x)) \/
  ((forall j, (i <= j < i + n)%nat -> x_free x j = 0) /\ alloc_desc_loop n i x = Ok (-1) x).
Proof.
  revert i. induction n as [|n IH]; intros i; simpl; [right; split; [lia|done]|].
  unfold gets, mbind, M_bind, ctrue. destruct (Z.eqb_spec (x_free x i) 0) as [E|E]; simpl.
  - destruct (IH (S i)) as [(j & Hj & H1 & H2)|[H1 H2]]; [left; exists j; split; [lia|done]|right].
    split; [|done]. intros j Hj. destruct (decide (j = i)); [by subst|apply H1; lia].
  - left. exists i. split; [lia|done].
Qed.

Lemma alloc_desc_ok x :
  (exists j, (j < NUM)%nat /\ x_free x j <> 0 /\ alloc_desc x = Ok (Z.of_nat j) (set_free j 0 x)) \/
  ((forall j, (j < NUM)%nat -> x_free x j = 0) /\ alloc_desc x = Ok (-1) x).
Proof.
  destruct (alloc_desc_loop_ok NUM 0 x) as [(j & ? & ?)|[H1 H2]]; [left; exists j|right]; unfold alloc_desc.
  - split; [lia|done].
  - split; [|done]. intros j Hj. apply H1. lia.
Qed.

(** [x] with the descriptors of [l] taken. *)
Definition take_all (l : list nat) (x : vdisk) : vdisk := foldl (fun y i => set_free i 0 y) x l.

Lemma take_all_free l x i : x_free (take_all l x) i = if decide (i ∈ l) then 0 else x_free x i.
Proof.
  revert x. induction l as [|j l IH]; intros x.
  { rewrite decide_False by apply not_elem_of_nil. done. }
  unfold take_all in *. cbn [foldl]. rewrite IH. simpl. unfold upd. repeat case_decide; set_solver.
Qed.

Lemma take_all_rest l x : x_desc (take_all l x) = x_desc x /\ x_pc (take_all l x) = x_pc x /\ rest_same x (take_all l x).
Proof.
  revert x. induction l as [|j l IH]; intros x; [done|]. unfold take_all in *. simpl.
  destruct (IH (set_free j 0 x)) as (E1 & E2 & E3). rewrite E1, E2. split_and!; done.
Qed.

(** [alloc3_desc] gives three free descriptors, or has put back what it took
    because fewer than three were free. *)
Lemma alloc3_desc_loop_ok n got x y :
  y = take_all got x -> NoDup got -> Forall (fun i => (i < NUM)%nat /\ x_free x i <> 0) got ->
  (exists l, length l = n /\ alloc3_desc_loop n got y = Ok (Some (got ++ l)) (take_all (got ++ l) x) /\
     NoDup (got ++ l) /\ Forall (fun i => (i < NUM)%nat /\ x_free x i <> 0) (got ++ l)) \/
  (exists l x', (length l < length got + n)%nat /\ alloc3_desc_loop n got y = Ok None x' /\ freed l (take_all l x) x' /\
     Forall (fun i => (i < NUM)%nat /\ x_free x i <> 0) l /\
     forall i, (i < NUM)%nat -> x_free x i <> 0 -> i ∈ l).
Proof.
  revert got y. induction n as [|n IH]; intros got y -> Hn Hf; simpl.
  { left. exists []. rewrite app_nil_r. done. }
  destruct (alloc_desc_ok (take_all got x)) as [(j & Hj & Hfree & E)|[Hnone E]]; rewrite (bind_ok _ _ _ _ _ E).
  - replace (Z.of_nat j <? 0) with false by (symmetry; apply Z.ltb_ge; lia). rewrite Nat2Z.id.
    rewrite take_all_free in Hfree. case_decide as Hin; [done|].
    destruct (IH (got ++ [j]) (set_free j 0 (take_all got x))) as [(l & Hl & E1 & H1)|(l & x' & Hl & H1)].
    + unfold take_all. by rewrite foldl_app.
    + apply NoDup_app. split_and!; [done|set_solver|apply NoDup_singleton].
    + apply Forall_app. split; [done|]. by constructor.
    + left. exists (j :: l). rewrite <- app_assoc in *. simpl in *. split; [lia|]. done.
    + right. exists l, x'. rewrite length_app in Hl. simpl in Hl. split; [lia|]. done.
  - right. simpl. destruct (free_all_ok got (take_all got x) Hn) as (x' & E' & F').
    { rewrite Forall_forall in *. intros i Hi. rewrite take_all_free, decide_True by done. naive_solver. }
    exists got, x'. rewrite (bind_ok _ _ _ _ _ E'). split_and!; [lia|done|done|done|].
    intros i Hi Hx. specialize (Hnone i Hi). rewrite take_all_free in Hnone. by case_decide.
Qed.

Ltac upd_step := first [rewrite upd_eq | rewrite upd_ne by congruence].

(** What [fill] leaves. *)
Record filled_by (b : nat) (w : bool) (i0 i1 i2 : nat) (x x' : vdisk) : Prop := {
  fl_in : filled_in x' b w i0 i1 i2;
  fl_desc i : i ∉ [i0; i1; i2] -> x_desc x' i = x_desc x i;
  fl_ops i : i <> i0 -> x_ops x' i = x_ops x i /\ x_info x' i = x_info x i;
  fl_buf b' : x_buf x' b' = if decide (b' = b) then Vbuf 1 (v_blockno (x_buf x b)) (v_data (x_buf x b)) else x_buf x b';
  fl_avail : x_avail x' = Avail (av_idx (x_avail x))
    (upd (av_ring (x_avail x)) (Z.to_nat (av_idx (x_avail x) mod Z.of_nat NUM)) (fun _ => Z.of_nat i0));
  fl_free : x_free x' = x_free x;
  fl_pc : x_pc x' = x_pc x;
  fl_rest : x_used x' = x_used x /\ x_used_idx x' = x_used_idx x /\ x_lock x' = x_lock x /\
    x_seen x' = x_seen x /\ x_taken x' = x_taken x /\ x_sectors x' = x_sectors x;
}.

Lemma fill_ok b w i0 i1 i2 x :
  NoDup [i0; i1; i2] -> 0 <= v_blockno (x_buf x b) < 2 ^ 31 ->
  wp (fill b w i0 i1 i2) x (fun _ x' => filled_by b w i0 i1 i2 x x').
Proof.
  intros [N0 [N1 _]%NoDup_cons]%NoDup_cons Hb.
  assert (i1 <> i0 /\ i2 <> i0 /\ i2 <> i1) as (D1 & D2 & D3) by set_solver.
  unfold fill. repeat wp_step. split; simpl; try done.
  - unfold filled_in; simpl. repeat upd_step. simpl.
    change (BSIZE / 512) with 2. rewrite u32_small by lia. split_and!; try done.
    + by destruct w.
    + f_equal. lia.
  - intros i Hi. assert (i <> i0 /\ i <> i1 /\ i <> i2) as (? & ? & ?) by set_solver. by repeat upd_step.
  - intros i Hi. by repeat upd_step.
  - intros b'. case_decide; subst; by upd_step.
Qed.

Lemma own_uses c b w i0 i1 i2 : own c = Some (b, w, i0, i1, i2) -> uses c b.
Proof. destruct c; simpl; intros; simplify_eq; done. Qed.

Lemma woke_free_own c : own (woke_free c) = own c /\ posted (woke_free c) = posted c.
Proof. by destruct c. Qed.
Lemma woke_free_uses c b : uses (woke_free c) b <-> uses c b.
Proof. by destruct c. Qed.

(** Steps that touch neither the rings nor the device, nor what belongs to a
    chain that stays. *)
Record keeps (x x' : vdisk) : Prop := {
  kp_rings : x_avail x' = x_avail x /\ x_used x' = x_used x /\ x_used_idx x' = x_used_idx x;
  kp_dev : x_seen x' = x_seen x /\ x_taken x' = x_taken x /\ x_sectors x' = x_sectors x;
  kp_own p c : own (x_pc x' p) = Some c -> own (x_pc x p) = Some c /\ posted (x_pc x' p) = posted (x_pc x p);
  kp_uses p b : uses (x_pc x' p) b -> uses (x_pc x p) b /\ x_buf x' b = x_buf x b;
  kp_chain p b w i0 i1 i2 : own (x_pc x' p) = Some (b, w, i0, i1, i2) ->
    (forall i, i ∈ [i0; i1; i2] -> x_desc x' i = x_desc x i /\ x_free x' i = x_free x i) /\
    x_ops x' i0 = x_ops x i0 /\ x_info x' i0 = x_info x i0;
  kp_filled p b w i0 i1 i2 : x_pc x' p = Filled b w i0 i1 i2 ->
    x_pc x p = Filled b w i0 i1 i2 /\ x_lock x' = x_lock x;
  kp_posted p b w i0 i1 i2 : x_pc x' p = Posted b w i0 i1 i2 ->
    x_pc x p = Posted b w i0 i1 i2 /\ x_lock x' = x_lock x;
  kp_free i : (i < NUM)%nat -> x_free x' i = 0 \/ x_free x' i = 1;
}.

Lemma vinv_keeps x x' A U :
  vinv x A U -> keeps x x' ->
  (forall p b w i0 i1 i2, own (x_pc x p) = Some (b, w, i0, i1, i2) -> i0 ∈ A ++ x_taken x ++ U ->
     own (x_pc x' p) = own (x_pc x p)) ->
  vinv x' A U.
Proof.
  intros HI [(R1 & R2 & R3) (D1 & D2 & D3) Ko Ku Kc Kf Kp Kfree] Hl.
  split; rewrite ?R1, ?R2, ?R3, ?D1, ?D2, ?D3; try (by apply HI).
  - intros p b w i0 i1 i2 E. destruct (Ko _ _ E) as [E' _]. destruct (Kc _ _ _ _ _ _ E) as (Kd & Kop & Ki).
    destruct (vi_chain _ _ _ HI _ _ _ _ _ _ E') as (H1 & H2 & H3 & H4 & H5 & H6 & H7).
    destruct (Ku _ _ (own_uses _ _ _ _ _ _ E)) as [_ Eb].
    split; [done|]. split.
    + rewrite Forall_forall in *. intros i Hi. rewrite (proj2 (Kd i Hi)). by apply H2.
    + unfold filled_in. rewrite Kop, Ki, Eb. rewrite !(fun i H => proj1 (Kd i H)) by set_solver. done.
  - intros p q b w i0 i1 i2 b' w' j0 j1 j2 i Ep Eq. destruct (Ko _ _ Ep) as [Ep' _], (Ko _ _ Eq) as [Eq' _].
    by eapply (vi_disjoint _ _ _ HI).
  - intros p q b Hp Hq. eapply (vi_buf _ _ _ HI); by apply Ku.
  - intros p b Hp. destruct (Ku _ _ Hp) as [Hp' ->]. by eapply (vi_block _ _ _ HI).
  - intros i Hi. destruct (vi_lists _ _ _ HI i Hi) as (p & b & w & i1 & i2 & Ho & Hp).
    pose proof (Hl _ _ _ _ _ _ Ho Hi) as E. exists p, b, w, i1, i2. rewrite E. split; [done|].
    rewrite Ho in E. by rewrite (proj2 (Ko _ _ E)).
  - intros p b w i0 i1 i2 E. destruct (Ko _ _ E) as [E' ->]. destruct (Ku _ _ (own_uses _ _ _ _ _ _ E)) as [_ ->].
    by apply (vi_disk _ _ _ HI) with (1 := E').
  - intros p b w i0 i1 i2 E. destruct (Kf _ _ _ _ _ _ E) as [E' ->]. by eapply (vi_filled _ _ _ HI).
  - intros p b w i0 i1 i2 E. destruct (Kp _ _ _ _ _ _ E) as [E' ->]. by eapply (vi_posted _ _ _ HI).
  - apply Kfree.
Qed.

(** With nothing returned or called, the abstract state stays. *)
Lemma refines_keeps x x' A U s :
  refines x A U s -> keeps x x' ->
  (forall p, x_pc x' p = Idle -> x_pc x p = Idle) ->
  (forall p b w, x_pc x' p = Alloc b w \/ x_pc x' p = WaitFree b w -> x_pc x p = Alloc b w \/ x_pc x p = WaitFree b w) ->
  refines x' A U s.
Proof.
  intros HR [_ (_ & D2 & D3) Ko Ku Kc _ _ _] Hi He. split; rewrite ?D2, ?D3.
  - intros p E. by apply HR, Hi.
  - intros p b w E. by apply HR, He.
  - intros p b w i0 i1 i2 E. destruct (Ko _ _ E) as [E' Ep]. destruct (Kc _ _ _ _ _ _ E) as (_ & _ & ->).
    rewrite Ep. by apply (rf_own _ _ _ _ HR) with (1 := E').
  - intros p b E. destruct (Ku _ _ E) as [E' ->]. by eapply (rf_buf _ _ _ _ HR).
  - apply HR.
Qed.

(** * Every step *)

Definition good (x : vdisk) (s : abs) : Prop := exists A U, vinv x A U /\ refines x A U s.

(** A step that ends in [o] is matched by the specification: by no step, or by
    one with the same event.  The driver panics only on an error the device
    has reported. *)
Definition matched (s : abs) (e : event) (o : outcome vdisk unit) : Prop :=
  match o with
  | Ok _ x' => exists s', (e = Tau /\ s' = s \/ astep s e s') /\ good x' s'
  | Panic msg x' => msg = "virtio_disk_intr status"%string /\ exists i, in_status (x_info x' i) <> 0
  | _ => False
  end.

Lemma goto_pc p c x q : x_pc (goto p c x) q = if decide (q = p) then c else x_pc x q.
Proof. done. Qed.

Lemma call_matched x s p b w n d :
  good x s -> x_pc x p = Idle -> (forall q, ~ uses (x_pc x q) b) -> 0 <= n < 2 ^ 31 -> length d = Z.to_nat BSIZE ->
  matched s (Call p b w n d) (Ok tt (goto p (Alloc b w) (set_vbuf b (fun v => Vbuf (v_disk v) n d) x))).
Proof.
  intros (A & U & HI & HR) Hp Hb Hn Hd. set (x' := goto _ _ _).
  assert (Ho : forall q c, own (x_pc x' q) = Some c -> x_pc x' q = x_pc x q).
  { intros q c. unfold x'. rewrite goto_pc. by case_decide. }
  assert (Hu : forall q b', uses (x_pc x' q) b' -> q = p /\ b' = b \/ q <> p /\ uses (x_pc x q) b' /\ b' <> b /\ x_buf x' b' = x_buf x b').
  { intros q b'. unfold x'. rewrite goto_pc. case_decide; simpl; [naive_solver|]. intros H1. right.
    assert (b' <> b) by (intros ->; by apply (Hb q)). split_and!; try done. by rewrite upd_ne. }
  assert (Hbuf : x_buf x' b = Vbuf (v_disk (x_buf x b)) n d) by (unfold x'; simpl; by rewrite upd_eq).
  assert (Hown : forall q b' w' i0 i1 i2, own (x_pc x' q) = Some (b', w', i0, i1, i2) ->
    own (x_pc x q) = Some (b', w', i0, i1, i2) /\ posted (x_pc x' q) = posted (x_pc x q) /\ x_buf x' b' = x_buf x b').
  { intros q b' w' i0 i1 i2 E. pose proof (Ho _ _ E) as E1. rewrite E1 in *. split_and!; [done|done|].
    destruct (Hu q b') as [[-> _]|H]; [rewrite E1; by eapply own_uses|by rewrite Hp in E|naive_solver]. }
  eexists. split; [right; apply as_call; by apply HR|]. exists A, U. split.
  - split; try (by apply HI).
    + intros q b' w' i0 i1 i2 E. destruct (Hown _ _ _ _ _ _ E) as (E1 & _ & E2).
      destruct (vi_chain _ _ _ HI _ _ _ _ _ _ E1) as (H1 & H2 & H3). split_and!; [done|done|].
      unfold filled_in in *. by rewrite E2.
    + intros q r b' w' i0 i1 i2 b'' w'' j0 j1 j2 i E1 E2. apply Hown in E1 as [E1 _], E2 as [E2 _].
      by eapply (vi_disjoint _ _ _ HI).
    + intros q r b' [[-> ->]|(? & H1 & ? & _)]%Hu [[-> E]|(? & H2 & ? & _)]%Hu; try done. by eapply (vi_buf _ _ _ HI).
    + intros q b' [[-> ->]|(_ & H1 & _ & ->)]%Hu; [by rewrite Hbuf|by eapply (vi_block _ _ _ HI)].
    + intros i Hi. destruct (vi_lists _ _ _ HI i Hi) as (q & b' & w' & i1 & i2 & E & Ep).
      exists q, b', w', i1, i2. unfold x'. rewrite goto_pc. case_decide; [subst; by rewrite Hp in E|done].
    + intros q b' w' i0 i1 i2 E. destruct (Hown _ _ _ _ _ _ E) as (E1 & -> & ->). by eapply (vi_disk _ _ _ HI).
    + intros q b' w' i0 i1 i2 E. assert (own (x_pc x' q) = Some (b', w', i0, i1, i2)) as H1 by by rewrite E.
      apply (vi_filled _ _ _ HI q b' w' i0 i1 i2). by rewrite <- (Ho _ _ H1).
    + intros q b' w' i0 i1 i2 E. assert (own (x_pc x' q) = Some (b', w', i0, i1, i2)) as H1 by by rewrite E.
      apply (vi_posted _ _ _ HI q b' w' i0 i1 i2). by rewrite <- (Ho _ _ H1).
  - split; simpl.
    + intros q. unfold upd. case_decide; [done|]. apply HR.
    + intros q b' w'. unfold upd. case_decide; [naive_solver|]. apply HR.
    + intros q b' w' i0 i1 i2 E. destruct (Hown _ _ _ _ _ _ E) as (E1 & E2 & _).
      rewrite upd_ne by (intros ->; by rewrite Hp in E1).
      change (upd (x_pc x) p (fun _ => Alloc b w) q) with (x_pc x' q). rewrite E2. by apply (rf_own _ _ _ _ HR) with (1 := E1).
    + intros q b' H. destruct (Hu q b' H) as [[-> ->]|(_ & H1 & H2 & _)]; [by rewrite !upd_eq|].
      rewrite !upd_ne by done. by eapply (rf_buf _ _ _ _ HR).
    + apply HR.
Qed.

(** Taking descriptors and putting them back changes no descriptor in use. *)
Lemma taken_back x l x' :
  (forall i, (i < NUM)%nat -> x_free x i = 0 \/ x_free x i = 1) ->
  Forall (fun i => (i < NUM)%nat /\ x_free x i <> 0) l -> freed l (take_all l x) x' ->
  (forall i, x_free x i = 0 -> x_desc x' i = x_desc x i) /\ (forall i, x_free x' i = x_free x i) /\
  (forall q, x_pc x' q = x_pc x q \/ x_pc x' q = woke_free (x_pc x q)) /\ rest_same x x'.
Proof.
  intros H01 Hl [D F P R]. destruct (take_all_rest l x) as (E1 & E2 & E3). rewrite Forall_forall in Hl.
  split_and!.
  - intros i Hi. rewrite D, E1. destruct (decide (i ∈ l)) as [Hin|]; [|done]. by destruct (Hl i Hin).
  - intros i. rewrite F, take_all_free. destruct (decide (i ∈ l)) as [Hin|]; [|done]. destruct (Hl i Hin). destruct (H01 i); congruence.
  - intros q. rewrite P, E2. case_decide; auto.
  - by eapply rest_same_trans.
Qed.

Lemma alloc_fail_keeps x x1 A U p b w :
  vinv x A U -> x_lock x = Nobody -> x_pc x p = Alloc b w ->
  (forall i, x_free x i = 0 -> x_desc x1 i = x_desc x i) -> (forall i, x_free x1 i = x_free x i) ->
  (forall q, x_pc x1 q = x_pc x q \/ x_pc x1 q = woke_free (x_pc x q)) -> rest_same x x1 ->
  keeps x (set_vlock Nobody (goto p (WaitFree b w) x1)).
Proof.
  intros HI Hl Hp Hd Hf Hpc (R1 & R2 & R3 & R4 & R5 & R6 & R7 & R8 & R9 & R10). set (x' := set_vlock _ _).
  assert (Ho : forall q c, own (x_pc x' q) = Some c -> x_pc x' q = x_pc x q).
  { intros q c. simpl. unfold upd. case_decide; [done|]. destruct (Hpc q) as [E|E]; rewrite E; [done|].
    by destruct (x_pc x q). }
  split; try done.
  - intros q c E. by rewrite <- (Ho q c E).
  - intros q b'. simpl. unfold upd. rewrite R6. case_decide as Hq; simpl.
    + subst q. by rewrite Hp.
    + destruct (Hpc q) as [E|E]; rewrite E; [done|]. intros H. split; [by apply woke_free_uses|done].
  - intros q b' w' i0 i1 i2 E. simpl. rewrite R4, R5. split; [|done]. intros i Hi. rewrite Hf. split; [|done]. apply Hd.
    rewrite (Ho _ _ E) in E. destruct (vi_chain _ _ _ HI _ _ _ _ _ _ E) as (_ & H & _).
    rewrite Forall_forall in H. by apply H.
  - intros q b' w' i0 i1 i2 E. assert (E' : x_pc x q = Filled b' w' i0 i1 i2).
    { rewrite <- E. symmetry. apply (Ho q (b', w', i0, i1, i2)). by rewrite E. }
    by rewrite Hl.
  - intros q b' w' i0 i1 i2 E. assert (E' : x_pc x q = Posted b' w' i0 i1 i2).
    { rewrite <- E. symmetry. apply (Ho q (b', w', i0, i1, i2)). by rewrite E. }
    by rewrite Hl.
  - intros i Hi. simpl. rewrite Hf. by apply HI.
Qed.

Lemma alloc_fail_good x x1 s p b w :
  good x s -> x_lock x = Nobody -> x_pc x p = Alloc b w ->
  (forall i, x_free x i = 0 -> x_desc x1 i = x_desc x i) -> (forall i, x_free x1 i = x_free x i) ->
  (forall q, x_pc x1 q = x_pc x q \/ x_pc x1 q = woke_free (x_pc x q)) -> rest_same x x1 ->
  good (set_vlock Nobody (goto p (WaitFree b w) x1)) s.
Proof.
  intros (A & U & HI & HR) Hl Hp Hd Hf Hpc Hr. exists A, U.
  assert (HK := alloc_fail_keeps x x1 A U p b w HI Hl Hp Hd Hf Hpc Hr). split.
  - eapply vinv_keeps; [done|done|]. intros q b' w' i0 i1 i2 E _. simpl. unfold upd.
    case_decide; [subst; by rewrite Hp in E|]. destruct (Hpc q) as [E'|E']; rewrite E'; [done|apply woke_free_own].
  - eapply refines_keeps; [done|done| |].
    + intros q. simpl. unfold upd. case_decide; [done|]. destruct (Hpc q) as [E|E]; rewrite E; [done|by destruct (x_pc x q)].
    + intros q b' w'. simpl. unfold upd. case_decide; [subst; rewrite Hp; naive_solver|].
      destruct (Hpc q) as [E|E]; rewrite E; [done|destruct (x_pc x q); simpl; naive_solver].
Qed.

(** A chain of descriptors that were free is nobody's. *)
Lemma fresh_chain x A U l q b w j0 j1 j2 i :
  vinv x A U -> Forall (fun i => (i < NUM)%nat /\ x_free x i <> 0) l ->
  own (x_pc x q) = Some (b, w, j0, j1, j2) -> i ∈ [j0; j1; j2] -> i ∉ l.
Proof.
  intros HI Hl E Hi Hin. destruct (vi_chain _ _ _ HI _ _ _ _ _ _ E) as (_ & H & _).
  rewrite Forall_forall in *. by destruct (Hl i Hin), (H i Hi).
Qed.

Lemma lists_below x A U : vinv x A U ->
  forall i, i ∈ A ++ x_taken x ++ U -> (i < NUM)%nat /\ x_free x i = 0.
Proof.
  intros HI i Hi. destruct (vi_lists _ _ _ HI i Hi) as (q & b & w & i1 & i2 & E & _).
  destruct (vi_chain _ _ _ HI _ _ _ _ _ _ E) as (_ & H & _). by apply Forall_cons in H as [H _].
Qed.

(** A chain head not among those under way leaves room on the rings. *)
Lemma lists_room x A U i :
  vinv x A U -> (i < NUM)%nat -> i ∉ A ++ x_taken x ++ U -> (length (A ++ x_taken x ++ U) < NUM)%nat.
Proof.
  intros HI Hi Hn. enough (length (i :: A ++ x_taken x ++ U) <= NUM)%nat by (simpl in *; lia).
  apply below_NUM; [constructor; [done|apply HI]|]. intros j [->|Hj]%elem_of_cons; [done|].
  by eapply lists_below.
Qed.

Section alloc.
Variables (x z : vdisk) (A U : list nat) (p b : nat) (w : bool) (i0 i1 i2 : nat).
Hypothesis HI : vinv x A U.
Hypothesis Hlock : x_lock x = Nobody.
Hypothesis Hp : x_pc x p = Alloc b w.
Hypothesis Hn : NoDup [i0; i1; i2].
Hypothesis Hf : Forall (fun i => (i < NUM)%nat /\ x_free x i <> 0) [i0; i1; i2].
Hypothesis Hz : filled_by b w i0 i1 i2 (take_all [i0; i1; i2] x) z.
Let x' := goto p (Filled b w i0 i1 i2) (set_vlock (Process p) z).

Local Lemma ap_pc q : x_pc x' q = if decide (q = p) then Filled b w i0 i1 i2 else x_pc x q.
Proof using All. unfold x'. rewrite goto_pc. simpl. by rewrite (fl_pc _ _ _ _ _ _ _ Hz). Qed.

Local Lemma ap_own q b' w' j0 j1 j2 :
  own (x_pc x' q) = Some (b', w', j0, j1, j2) ->
  q = p /\ (b', w', j0, j1, j2) = (b, w, i0, i1, i2) \/
  q <> p /\ x_pc x' q = x_pc x q /\ own (x_pc x q) = Some (b', w', j0, j1, j2) /\ b' <> b.
Proof using All.
  rewrite ap_pc. case_decide as Hq; simpl; intros E; [left; naive_solver|right]. split_and!; try done.
  intros ->. apply Hq. apply (vi_buf _ _ _ HI q p b); [by eapply own_uses|by rewrite Hp].
Qed.

Local Lemma ap_fresh q b' w' j0 j1 j2 i :
  own (x_pc x q) = Some (b', w', j0, j1, j2) -> i ∈ [j0; j1; j2] -> i ∉ [i0; i1; i2].
Proof using All. by apply (fresh_chain x A U). Qed.

Local Lemma ap_buf b' : b' <> b -> x_buf x' b' = x_buf x b'.
Proof using All. intros. unfold x'. simpl. rewrite (fl_buf _ _ _ _ _ _ _ Hz). by rewrite decide_False. Qed.

Local Lemma ap_buf_b : x_buf x' b = Vbuf 1 (v_blockno (x_buf x b)) (v_data (x_buf x b)).
Proof using All. unfold x'. simpl. rewrite (fl_buf _ _ _ _ _ _ _ Hz). by rewrite decide_True. Qed.

Local Lemma ap_new : i0 ∉ A ++ x_taken x ++ U.
Proof using All.
  intros Hi. destruct (vi_lists _ _ _ HI i0 Hi) as (q & b' & w' & j1 & j2 & E & _).
  by apply (ap_fresh _ _ _ _ _ _ i0 E); left.
Qed.

Local Lemma ap_room : (length A < NUM)%nat.
Proof using All.
  pose proof (lists_room x A U i0 HI ltac:(apply Forall_cons in Hf; tauto) ap_new) as H. rewrite !length_app in H. lia.
Qed.

Lemma alloc_ok_vinv : vinv x' A U.
Proof using All.
  destruct (fl_rest _ _ _ _ _ _ _ Hz) as (R1 & R2 & R3 & R4 & R5 & R6).
  pose proof (fl_free _ _ _ _ _ _ _ Hz) as Ff. pose proof (fl_avail _ _ _ _ _ _ _ Hz) as Fa.
  assert (Et : x_taken x' = x_taken x) by exact R5.
  assert (Ea : x_avail x' = Avail (av_idx (x_avail x)) (upd (av_ring (x_avail x))
    (Z.to_nat (av_idx (x_avail x) mod Z.of_nat NUM)) (fun _ => Z.of_nat i0))) by exact Fa.
  split; rewrite ?Et, ?Ea; try (by apply HI).
  - intros q b' w' j0 j1 j2 [[-> E]|(Hq & _ & E & Hb)]%ap_own.
    + simplify_eq. split_and!; [done| |apply Hz]. rewrite Forall_forall in *. intros i Hi. unfold x'. simpl.
      rewrite Ff, take_all_free, decide_True by done. split; [by apply Hf|done].
    + destruct (vi_chain _ _ _ HI _ _ _ _ _ _ E) as (H1 & H2 & H3).
      pose proof (fun i => ap_fresh _ _ _ _ _ _ i E) as Hfr. split_and!; [done| |].
      * rewrite Forall_forall in *. intros i Hi. unfold x'. simpl. rewrite Ff, take_all_free, decide_False by auto. by apply H2.
      * unfold filled_in in *. rewrite (ap_buf b' Hb). unfold x'. simpl.
        rewrite !(fl_desc _ _ _ _ _ _ _ Hz) by (apply Hfr; set_solver).
        assert (j0 <> i0) by (intros ->; apply (Hfr i0); set_solver).
        destruct (fl_ops _ _ _ _ _ _ _ Hz j0) as [-> ->]; done.
  - intros q r b' w' j0 j1 j2 b'' w'' k0 k1 k2 i [[-> E]|(Hq & _ & E & _)]%ap_own [[-> E']|(Hr & _ & E' & _)]%ap_own Hi Hj;
      simplify_eq; try done.
    + by destruct (ap_fresh _ _ _ _ _ _ i E' Hj).
    + by destruct (ap_fresh _ _ _ _ _ _ i E Hi).
    + by eapply (vi_disjoint _ _ _ HI).
  - intros q r b' Hq Hr. apply (vi_buf _ _ _ HI q r b'); [clear Hr|clear Hq]; rewrite ap_pc in *;
      case_decide; subst; by rewrite ?Hp.
  - intros q b' Hq. assert (Hu : uses (x_pc x q) b') by (rewrite ap_pc in Hq; case_decide; subst; by rewrite ?Hp).
    destruct (vi_block _ _ _ HI _ _ Hu). destruct (decide (b' = b)) as [->|Hb]; [by rewrite ap_buf_b|by rewrite ap_buf].
  - intros n. unfold x'. simpl. rewrite R6. apply HI.
  - intros i Hi. destruct (vi_lists _ _ _ HI i Hi) as (q & b' & w' & j1 & j2 & E & Ep). exists q, b', w', j1, j2.
    rewrite ap_pc. case_decide; [subst; by rewrite Hp in E|done].
  - intros q b' w' j0 j1 j2 [[-> E]|(Hq & Epc & E & Hb)]%ap_own.
    + simplify_eq. rewrite ap_buf_b, ap_pc, decide_True by done. done.
    + rewrite Epc, ap_buf by done. by apply (vi_disk _ _ _ HI) with (1 := E).
  - unfold x'. simpl. rewrite R4. apply HI.
  - simpl. unfold x'. simpl. rewrite R4. apply HI.
  - simpl. unfold x'. simpl. rewrite R4. apply ring_slot; [apply HI|apply ap_room|apply HI].
  - intros q b' w' j0 j1 j2 E. rewrite ap_pc in E. case_decide as Hq.
    + simplify_eq. simpl. split; [done|by rewrite upd_eq].
    + destruct (vi_filled _ _ _ HI _ _ _ _ _ _ E) as [E1 _]. by rewrite Hlock in E1.
  - intros q b' w' j0 j1 j2 E. rewrite ap_pc in E. case_decide as Hq; [done|].
    apply (vi_posted _ _ _ HI) in E. by rewrite Hlock in E.
  - unfold x'. simpl. rewrite R2. apply HI.
  - unfold x'. simpl. rewrite R1, R2. apply HI.
  - unfold x'. simpl. rewrite R1, R2. apply HI.
  - intros i Hi. unfold x'. simpl. rewrite Ff, take_all_free. case_decide; [by left|by apply HI].
Qed.

Lemma alloc_ok_refines s : refines x A U s -> refines x' A U s.
Proof using All.
  intros HR. destruct (fl_rest _ _ _ _ _ _ _ Hz) as (_ & _ & _ & _ & R5 & R6).
  assert (Et : x_taken x' = x_taken x) by exact R5. split; rewrite ?Et.
  - intros q. rewrite ap_pc. case_decide; [done|]. apply HR.
  - intros q b' w'. rewrite ap_pc. case_decide; [naive_solver|]. apply HR.
  - intros q b' w' j0 j1 j2 [[-> E]|(Hq & Epc & E & Hb)]%ap_own.
    + simplify_eq. rewrite ap_pc, decide_True by done. simpl. apply HR. by left.
    + rewrite Epc. assert (j0 <> i0) by (intros ->; apply (ap_fresh _ _ _ _ _ _ i0 E); set_solver).
      unfold x'. simpl. destruct (fl_ops _ _ _ _ _ _ _ Hz j0) as [_ ->]; [done|].
      rewrite (proj1 (proj2 (proj2 (proj2 (proj2 (proj2 (take_all_rest [i0; i1; i2] x))))))).
      by apply (rf_own _ _ _ _ HR) with (1 := E).
  - intros q b' Hq. assert (Hu : uses (x_pc x q) b') by (rewrite ap_pc in Hq; case_decide; subst; by rewrite ?Hp).
    destruct (rf_buf _ _ _ _ HR _ _ Hu). destruct (decide (b' = b)) as [->|Hb]; [by rewrite ap_buf_b|by rewrite ap_buf].
  - intros n Hn'. unfold x'. simpl. rewrite R6. by apply HR.
Qed.
End alloc.

Lemma rw_alloc_matched x s p b w :
  good x s -> x_lock x = Nobody -> x_pc x p = Alloc b w -> matched s Tau (rw_alloc p b w x).
Proof.
  intros (A & U & HI & HR) Hl Hp. unfold rw_alloc, alloc3_desc.
  destruct (alloc3_desc_loop_ok 3 [] x x eq_refl) as [(l & Hlen & E & Hn & Hf)|(l & x1 & _ & E & F & Hf & _)];
    [constructor|done| |]; rewrite (bind_ok _ _ _ _ _ E); cbn [app] in *.
  - destruct l as [|i0 [|i1 [|i2 [|]]]]; try done.
    assert (Hb : 0 <= v_blockno (x_buf (take_all [i0; i1; i2] x) b) < 2 ^ 31).
    { apply (vi_block _ _ _ HI p b). by rewrite Hp. }
    destruct (wp_inv _ _ _ (fill_ok b w i0 i1 i2 _ Hn Hb)) as ([] & z & Ez & Hz).
    rewrite (bind_ok _ _ _ _ _ Ez). exists s. split; [by left|]. exists A, U.
    split; [by apply (alloc_ok_vinv x)|by apply (alloc_ok_refines x)].
  - destruct (taken_back x l x1 (vi_free _ _ _ HI) Hf F) as (H1 & H2 & H3 & H4).
    exists s. split; [by left|]. apply (alloc_fail_good x); try done. by exists A, U.
Qed.

(** Two processes' chains have different heads. *)
Lemma heads_differ x A U p q b w i0 i1 i2 b' w' j0 j1 j2 :
  vinv x A U -> own (x_pc x p) = Some (b, w, i0, i1, i2) -> own (x_pc x q) = Some (b', w', j0, j1, j2) ->
  p <> q -> i0 <> j0.
Proof.
  intros HI Ep Eq Hpq ->. apply Hpq. apply (vi_disjoint _ _ _ HI _ _ _ _ _ _ _ _ _ _ _ _ j0 Ep Eq); set_solver.
Qed.

(** The chains under way belong to processes that have posted them. *)
Lemma under_way x A U p b w i0 i1 i2 :
  vinv x A U -> own (x_pc x p) = Some (b, w, i0, i1, i2) -> i0 ∈ A ++ x_taken x ++ U -> posted (x_pc x p) = true.
Proof.
  intros HI E Hi. destruct (vi_lists _ _ _ HI i0 Hi) as (q & b' & w' & j1 & j2 & E' & Hq).
  destruct (decide (p = q)) as [->|Hne]; [done|]. by destruct (heads_differ _ _ _ _ _ _ _ _ _ _ _ _ _ _ _ HI E E' Hne).
Qed.

Lemma list_posted (A T U : list nat) i : (A ++ [i]) ++ T ++ U ≡ₚ i :: A ++ T ++ U.
Proof. rewrite <- app_assoc. simpl. symmetry. apply Permutation_middle. Qed.

Section post.
Variables (x : vdisk) (A U : list nat) (p b : nat) (w : bool) (i0 i1 i2 : nat).
Hypothesis HI : vinv x A U.
Hypothesis Hp : x_pc x p = Filled b w i0 i1 i2.
Let x' := goto p (Posted b w i0 i1 i2)
  (set_avail (Avail (u16 (av_idx (x_avail x) + 1)) (av_ring (x_avail x))) x).

Local Lemma po_pc q : x_pc x' q = if decide (q = p) then Posted b w i0 i1 i2 else x_pc x q.
Proof using All. done. Qed.

Local Lemma po_own_p : own (x_pc x p) = Some (b, w, i0, i1, i2).
Proof using All. by rewrite Hp. Qed.

Local Lemma po_own q : own (x_pc x' q) = own (x_pc x q).
Proof using All. rewrite po_pc. case_decide; [subst; by rewrite Hp|done]. Qed.

Local Lemma po_uses q b' : uses (x_pc x' q) b' <-> uses (x_pc x q) b'.
Proof using All. rewrite po_pc. case_decide; [subst; by rewrite Hp|done]. Qed.

Local Lemma po_new : i0 ∉ A ++ x_taken x ++ U.
Proof using All.
  intros Hi. pose proof (under_way _ _ _ _ _ _ _ _ _ HI po_own_p Hi) as H. by rewrite Hp in H.
Qed.

Lemma post_vinv : vinv x' (A ++ [i0]) U.
Proof using All.
  assert (Et : x_taken x' = x_taken x) by done. destruct (vi_filled _ _ _ HI _ _ _ _ _ _ Hp) as [Hlock Hring].
  split; rewrite ?Et; try (by apply HI).
  - intros q b' w' j0 j1 j2. rewrite po_own. by apply (vi_chain _ _ _ HI).
  - intros q r b' w' j0 j1 j2 b'' w'' k0 k1 k2 i. rewrite !po_own. apply (vi_disjoint _ _ _ HI).
  - intros q r b'. rewrite !po_uses. apply (vi_buf _ _ _ HI).
  - intros q b'. rewrite po_uses. apply (vi_block _ _ _ HI).
  - rewrite list_posted. constructor; [apply po_new|apply HI].
  - intros i. rewrite list_posted. intros [->|Hi]%elem_of_cons.
    + exists p, b, w, i1, i2. rewrite po_own, po_own_p, po_pc. by rewrite decide_True.
    + destruct (vi_lists _ _ _ HI i Hi) as (q & b' & w' & j1 & j2 & E & Eq). exists q, b', w', j1, j2.
      rewrite po_own, po_pc. split; [done|]. by case_decide.
  - intros q b' w' j0 j1 j2. rewrite po_own. intros E. change (x_buf x') with (x_buf x).
    rewrite (vi_disk _ _ _ HI _ _ _ _ _ _ E), po_pc. case_decide as Hq.
    + subst q. rewrite po_own_p in E. simplify_eq. rewrite Hp. simpl. rewrite bool_decide_true; [done|].
      rewrite list_posted. by left.
    + case_match; [|done]. f_equal. apply bool_decide_ext. rewrite list_posted, elem_of_cons.
      pose proof (heads_differ _ _ _ _ _ _ _ _ _ _ _ _ _ _ _ HI E po_own_p Hq). naive_solver.
  - simpl. rewrite (vi_avail _ _ _ HI), length_app. simpl. unfold u16. rewrite Zplus_mod_idemp_l. f_equal. lia.
  - simpl. eapply ring_end; [apply HI|done|apply HI].
  - intros q b' w' j0 j1 j2 E. rewrite po_pc in E. case_decide as Hq; [done|].
    destruct (vi_filled _ _ _ HI _ _ _ _ _ _ E) as [E' _]. rewrite Hlock in E'. by simplify_eq.
  - intros q b' w' j0 j1 j2 E. rewrite po_pc in E. case_decide as Hq; [by subst|]. by apply (vi_posted _ _ _ HI) in E.
Qed.

Lemma post_refines s : refines x A U s -> refines x' (A ++ [i0]) U s.
Proof using All.
  intros HR. split; try (by apply HR).
  - intros q. rewrite po_pc. case_decide; [done|]. apply HR.
  - intros q b' w'. rewrite po_pc. case_decide; [naive_solver|]. apply HR.
  - intros q b' w' j0 j1 j2. rewrite po_own. intros E. rewrite (rf_own _ _ _ _ HR _ _ _ _ _ _ E), po_pc.
    change (x_taken x') with (x_taken x). change (x_info x') with (x_info x). case_decide as Hq.
    + subst q. rewrite po_own_p in E. simplify_eq. rewrite Hp. simpl. rewrite bool_decide_false; [done|].
      set_solver.
    + rewrite (bool_decide_ext (j0 ∉ A ++ x_taken x) (j0 ∉ (A ++ [i0]) ++ x_taken x)); [done|].
      pose proof (heads_differ _ _ _ _ _ _ _ _ _ _ _ _ _ _ _ HI E po_own_p Hq). set_solver.
  - intros q b'. rewrite po_uses. apply (rf_buf _ _ _ _ HR).
Qed.
End post.

Lemma rw_post_matched x s p b w i0 i1 i2 :
  good x s -> x_pc x p = Filled b w i0 i1 i2 -> matched s Tau (rw_post p b w i0 i1 i2 x).
Proof.
  intros (A & U & HI & HR) Hp. exists s. split; [by left|]. exists (A ++ [i0]), U.
  split; [by apply post_vinv|by apply post_refines].
Qed.

Section wait.
Variables (x : vdisk) (A U : list nat) (p b : nat) (w : bool) (i0 i1 i2 : nat).
Hypothesis HI : vinv x A U.
Hypothesis Hp : own (x_pc x p) = Some (b, w, i0, i1, i2).
Hypothesis Hpost : posted (x_pc x p) = true.
Hypothesis Hlock : x_lock x = Nobody \/ x_lock x = Process p.

Local Lemma wt_alone q c : q <> p -> x_pc x q = c ->
  match c with Filled _ _ _ _ _ | Posted _ _ _ _ _ => False | _ => True end.
Proof using All.
  intros Hq <-. destruct (x_pc x q) eqn:E; try done.
  - apply (vi_filled _ _ _ HI) in E as [E _]. destruct Hlock; congruence.
  - apply (vi_posted _ _ _ HI) in E. destruct Hlock; congruence.
Qed.

(** Going to sleep. *)
Lemma wait_keeps : keeps x (set_vlock Nobody (goto p (WaitBuf b w i0 i1 i2) x)).
Proof using All.
  split; try done.
  - intros q c. simpl. unfold upd. case_decide; [subst; rewrite Hp, Hpost; done|done].
  - intros q b'. simpl. unfold upd. case_decide; [|done]. subst. simpl. intros <-. split; [by eapply own_uses|done].
  - intros q b' w' j0 j1 j2 E. simpl in E. unfold upd in E. case_decide; [done|]. by apply wt_alone in E.
  - intros q b' w' j0 j1 j2 E. simpl in E. unfold upd in E. case_decide; [done|]. by apply wt_alone in E.
  - apply HI.
Qed.

Lemma wait_good s : refines x A U s -> good (set_vlock Nobody (goto p (WaitBuf b w i0 i1 i2) x)) s.
Proof using All.
  intros HR. exists A, U. split.
  - eapply vinv_keeps; [exact HI|apply wait_keeps|]. intros q b' w' j0 j1 j2 E _. simpl. unfold upd.
    case_decide; [subst; by rewrite Hp|done].
  - eapply refines_keeps; [done|apply wait_keeps| |].
    + intros q. simpl. unfold upd. by case_decide.
    + intros q b' w'. simpl. unfold upd. case_decide; naive_solver.
Qed.

(** Returning. *)
Hypothesis Hdone : v_disk (x_buf x b) <> 1.

Local Lemma wt_out : i0 ∉ A ++ x_taken x ++ U.
Proof using All.
  intros Hi. apply Hdone. rewrite (vi_disk _ _ _ HI _ _ _ _ _ _ Hp), Hpost. by rewrite bool_decide_true.
Qed.

Variables (z : vdisk).
Hypothesis Hz : freed [i0; i1; i2] (set_info i0 (fun n => Info None (in_status n)) x) z.
Let x' := set_vlock Nobody (goto p Idle z).

Local Lemma rt_pc q : x_pc x' q = if decide (q = p) then Idle else woke_free (x_pc x q).
Proof using All. unfold x'. simpl. unfold upd. by rewrite (fr_pc _ _ _ Hz), (decide_False (P := [i0; i1; i2] = [])). Qed.

Local Lemma rt_own q c : own (x_pc x' q) = Some c -> q <> p /\ own (x_pc x q) = Some c /\ x_pc x' q = x_pc x q.
Proof using All. rewrite rt_pc. case_decide; [done|]. intros E. split; [done|]. by destruct (x_pc x q). Qed.

Lemma return_keeps : keeps x x'.
Proof using All.
  destruct (fr_rest _ _ _ Hz) as (R1 & R2 & R3 & R4 & R5 & R6 & R7 & R8 & R9 & R10). split; try done.
  - intros q c E. destruct (rt_own q c E) as (_ & E1 & ->). done.
  - intros q b'. rewrite rt_pc. case_decide; [done|]. intros H1. split; [by apply woke_free_uses|].
    unfold x'. simpl. by rewrite R6.
  - intros q b' w' j0 j1 j2 E. destruct (rt_own _ _ E) as (Hq & E1 & _).
    assert (Hfr : forall i, i ∈ [j0; j1; j2] -> i ∉ [i0; i1; i2]).
    { intros i Hi Hj. apply Hq. by apply (vi_disjoint _ _ _ HI _ _ _ _ _ _ _ _ _ _ _ _ i E1 Hp). }
    unfold x'. simpl. split.
    + intros i Hi. rewrite (fr_desc _ _ _ Hz), (fr_free _ _ _ Hz), !decide_False by auto. done.
    + rewrite R4, R5. simpl. rewrite upd_ne; [done|]. intros ->. apply (Hfr i0); set_solver.
  - intros q b' w' j0 j1 j2 E. destruct (rt_own q (b', w', j0, j1, j2)) as (Hq & _ & E1); [by rewrite E|].
    rewrite E in E1. by destruct (wt_alone q _ Hq (eq_sym E1)).
  - intros q b' w' j0 j1 j2 E. destruct (rt_own q (b', w', j0, j1, j2)) as (Hq & _ & E1); [by rewrite E|].
    rewrite E in E1. by destruct (wt_alone q _ Hq (eq_sym E1)).
  - intros i Hi. unfold x'. simpl. rewrite (fr_free _ _ _ Hz). case_decide; [by right|]. by apply HI.
Qed.

Lemma return_good s :
  refines x A U s ->
  astep s (Ret p b (v_data (x_buf x' b))) (Abs (a_bio s) (upd (a_pc s) p (fun _ => AIdle))) /\
  good x' (Abs (a_bio s) (upd (a_pc s) p (fun _ => AIdle))).
Proof using All.
  intros HR. pose proof return_keeps as HK. pose proof wt_out as Hout. split.
  - assert (E : v_data (x_buf x' b) = b_data (bufs (a_bio s) b)).
    { unfold x'. simpl. rewrite (proj1 (proj2 (proj2 (proj2 (proj2 (proj2 (fr_rest _ _ _ Hz))))))). simpl.
      symmetry. apply (rf_buf _ _ _ _ HR p). by eapply own_uses. }
    rewrite E. apply as_ret. rewrite (rf_own _ _ _ _ HR _ _ _ _ _ _ Hp), Hpost.
    rewrite bool_decide_true, bool_decide_false by set_solver. done.
  - exists A, U. split.
    + eapply vinv_keeps; [exact HI|done|]. intros q b' w' j0 j1 j2 E Hj. rewrite rt_pc.
      case_decide; [subst q; rewrite Hp in E; by simplify_eq|apply woke_free_own].
    + destruct HK as [_ (_ & D2 & D3) Ko Ku Kc _ _ _]. split; cbn [a_bio a_pc]; rewrite ?D2, ?D3.
      * intros q. rewrite rt_pc. unfold upd. case_decide; [done|]. intros E. apply HR. by destruct (x_pc x q).
      * intros q b' w'. rewrite rt_pc. unfold upd. case_decide; [naive_solver|]. intros E. apply HR.
        destruct (x_pc x q); naive_solver.
      * intros q b' w' j0 j1 j2 E. destruct (rt_own _ _ E) as (Hq & E1 & Epc). rewrite upd_ne, Epc by done.
        destruct (Kc _ _ _ _ _ _ E) as (_ & _ & ->). by apply (rf_own _ _ _ _ HR) with (1 := E1).
      * intros q b' Hu. destruct (Ku _ _ Hu) as [Hu' ->]. by apply (rf_buf _ _ _ _ HR) with (1 := Hu').
      * apply HR.
Qed.
End wait.

Lemma rw_wait_matched x s p b w i0 i1 i2 :
  good x s -> own (x_pc x p) = Some (b, w, i0, i1, i2) -> posted (x_pc x p) = true ->
  x_lock x = Nobody \/ x_lock x = Process p ->
  matched s (ends p b (rw_wait p b w i0 i1 i2 x)) (rw_wait p b w i0 i1 i2 x).
Proof.
  intros (A & U & HI & HR) Hp Hpost Hl.
  assert (E0 : rw_wait p b w i0 i1 i2 x = (if v_disk (x_buf x b) =? 1
    then modify (goto p (WaitBuf b w i0 i1 i2));; modify (set_vlock Nobody)
    else modify (set_info i0 (fun n => Info None (in_status n)));; free_chain i0;; modify (goto p Idle);;
      modify (set_vlock Nobody)) x) by done.
  rewrite E0. destruct (Z.eqb_spec (v_disk (x_buf x b)) 1) as [E|E].
  - change (matched s (ends p b (Ok tt (set_vlock Nobody (goto p (WaitBuf b w i0 i1 i2) x))))
      (Ok tt (set_vlock Nobody (goto p (WaitBuf b w i0 i1 i2) x)))).
    exists s. split; [|by eapply wait_good]. left. split; [|done]. simpl. by rewrite upd_eq.
  - destruct (vi_chain _ _ _ HI _ _ _ _ _ _ Hp) as (H1 & H2 & H3 & H4 & H5 & _).
    destruct (free_chain_ok i0 i1 i2 (set_info i0 (fun n => Info None (in_status n)) x) b w) as (z & Ez & Hz); try done.
    rewrite (bind_ok _ _ _ tt (set_info i0 (fun n => Info None (in_status n)) x)) by done.
    rewrite (bind_ok _ _ _ _ _ Ez).
    destruct (return_good x A U p b w i0 i1 i2 HI Hp Hpost Hl E z Hz s HR) as [Hs Hg].
    eexists. split; [right|exact Hg]. simpl. rewrite upd_eq. exact Hs.
Qed.

(** While no process has the lock, none is between its stores. *)
Lemma lock_good x s l : good x s -> (forall p, x_lock x <> Process p) -> good (set_vlock l x) s.
Proof.
  intros (A & U & HI & HR) Hl. exists A, U.
  assert (HK : keeps x (set_vlock l x)).
  { split; try done.
    - intros q b w i0 i1 i2 E. apply (vi_filled _ _ _ HI) in E as [E _]. by destruct (Hl q).
    - intros q b w i0 i1 i2 E. apply (vi_posted _ _ _ HI) in E. by destruct (Hl q).
    - apply HI. }
  split; [by eapply vinv_keeps|]. eapply refines_keeps; naive_solver.
Qed.

Lemma under_way_length x A U : vinv x A U -> (length A + length (x_taken x) + length U <= NUM)%nat.
Proof.
  intros HI. pose proof (below_NUM _ (vi_nodup _ _ _ HI) (fun i Hi => proj1 (lists_below _ _ _ HI i Hi))) as H.
  rewrite !length_app in H. lia.
Qed.

Section handler.
Variables (x : vdisk) (A U : list nat) (i p b : nat) (w : bool) (i1 i2 : nat).
Hypothesis HI : vinv x A (i :: U).
Hypothesis Hp : own (x_pc x p) = Some (b, w, i, i1, i2).
Hypothesis Hpost : posted (x_pc x p) = true.
Let x' := set_used_idx (u16 (x_used_idx x + 1)) (set_pcs (fun q => woke_buf b (x_pc x q))
  (set_vbuf b (fun v => Vbuf 0 (v_blockno v) (v_data v)) x)).

Local Lemma hd_pc q : own (x_pc x' q) = own (x_pc x q) /\ posted (x_pc x' q) = posted (x_pc x q) /\
  (forall b', uses (x_pc x' q) b' <-> uses (x_pc x q) b').
Proof using All. unfold x'. simpl. unfold woke_buf. destruct (x_pc x q); try done. by case_decide. Qed.

Local Lemma hd_out : (i ∉ A ++ x_taken x) /\ (i ∉ U).
Proof using All.
  pose proof (vi_nodup _ _ _ HI) as H. rewrite app_assoc in H.
  apply NoDup_app in H as (_ & H1 & [H2 _]%NoDup_cons). split; [|done]. intros Hi. apply (H1 i Hi). by left.
Qed.

Local Lemma hd_buf b' : v_blockno (x_buf x' b') = v_blockno (x_buf x b') /\ v_data (x_buf x' b') = v_data (x_buf x b').
Proof using All. unfold x'. simpl. unfold upd. by case_decide. Qed.

Local Lemma hd_other q b' w' j0 j1 j2 : own (x_pc x q) = Some (b', w', j0, j1, j2) -> q <> p -> b' <> b /\ j0 <> i.
Proof using All.
  intros E Hq. split; [|by eapply heads_differ].
  intros ->. apply Hq. by apply (vi_buf _ _ _ HI q p b); eapply own_uses.
Qed.

Lemma handler_vinv : vinv x' A U.
Proof using All.
  destruct hd_out as [Ho1 Ho2]. assert (Et : x_taken x' = x_taken x) by done. split; rewrite ?Et; try (by apply HI).
  - intros q b' w' j0 j1 j2. rewrite (proj1 (hd_pc q)). intros E.
    destruct (vi_chain _ _ _ HI _ _ _ _ _ _ E) as (H1 & H2 & H3). split_and!; [done|done|].
    unfold filled_in in *. by rewrite (proj1 (hd_buf b')).
  - intros q r b' w' j0 j1 j2 b'' w'' k0 k1 k2 j. rewrite (proj1 (hd_pc q)), (proj1 (hd_pc r)). apply (vi_disjoint _ _ _ HI).
  - intros q r b' Hq%hd_pc Hr%hd_pc. by apply (vi_buf _ _ _ HI q r b').
  - intros q b' Hq%hd_pc. destruct (hd_buf b') as [-> ->]. by apply (vi_block _ _ _ HI q).
  - eapply sublist_NoDup; [apply HI|]. apply sublist_app; [done|]. apply sublist_app; [done|]. by apply sublist_cons.
  - intros j Hj. destruct (vi_lists _ _ _ HI j) as (q & b' & w' & j1 & j2 & E & Eq); [set_solver|].
    exists q, b', w', j1, j2. destruct (hd_pc q) as (-> & -> & _). done.
  - intros q b' w' j0 j1 j2. destruct (hd_pc q) as (-> & -> & _). intros E. destruct (decide (q = p)) as [->|Hq].
    + rewrite Hp in E. simplify_eq. unfold x'. simpl. rewrite upd_eq, Hpost, bool_decide_false by set_solver. done.
    + destruct (hd_other _ _ _ _ _ _ E Hq) as [Hb Hi]. unfold x'. simpl. rewrite upd_ne by done.
      rewrite (vi_disk _ _ _ HI _ _ _ _ _ _ E). case_match; [|done]. f_equal. apply bool_decide_ext. set_solver.
  - intros q b' w' j0 j1 j2 E. apply (vi_filled _ _ _ HI q b' w' j0 j1 j2). unfold x' in E. simpl in E. unfold woke_buf in E.
    destruct (x_pc x q); try done. by case_decide.
  - intros q b' w' j0 j1 j2 E. apply (vi_posted _ _ _ HI q b' w' j0 j1 j2). unfold x' in E. simpl in E. unfold woke_buf in E.
    destruct (x_pc x q); try done. by case_decide.
  - unfold x'. simpl. unfold u16. apply Z.mod_pos_bound. done.
  - unfold x'. simpl. rewrite (vi_used _ _ _ HI). simpl. unfold u16. rewrite Zplus_mod_idemp_l. f_equal. lia.
  - unfold x'. simpl. eapply proj2, (vring_pop _ _ i), HI.
Qed.

Lemma handler_refines s :
  in_status (x_info x i) = 0 -> refines x A (i :: U) s -> refines x' A U s.
Proof using All.
  intros Hs HR. destruct hd_out as [Ho1 Ho2]. split; try (by apply HR).
  - intros q E. apply HR. unfold x' in E. simpl in E. unfold woke_buf in E. destruct (x_pc x q); try done. by case_decide.
  - intros q b' w' E. apply HR. unfold x' in E. simpl in E. unfold woke_buf in E.
    destruct (x_pc x q); try done; case_decide; naive_solver.
  - intros q b' w' j0 j1 j2. destruct (hd_pc q) as (-> & -> & _). intros E.
    rewrite (rf_own _ _ _ _ HR _ _ _ _ _ _ E). change (x_taken x') with (x_taken x). change (x_info x') with (x_info x).
    destruct (decide (q = p)) as [->|Hq].
    + rewrite Hp in E. simplify_eq. rewrite !(bool_decide_false (_ /\ _)) by naive_solver. done.
    + destruct (hd_other _ _ _ _ _ _ E Hq) as [_ Hi].
      rewrite (bool_decide_ext (j0 ∈ i :: U /\ in_status (x_info x j0) <> 0) (j0 ∈ U /\ in_status (x_info x j0) <> 0)); [done|].
      set_solver.
  - intros q b' Hq%hd_pc. destruct (hd_buf b') as [-> ->]. by apply (rf_buf _ _ _ _ HR q).
Qed.
End handler.

Lemma intr_matched x s :
  good x s -> x_lock x = Handler -> matched s Tau ((e ← intr_body; when e (modify (set_vlock Nobody))) x).
Proof.
  intros (A & U & HI & HR) Hl.
  pose proof (under_way_length _ _ _ HI) as Hlen. pose proof (idx_empty (x_used_idx x) U (vi_used_idx _ _ _ HI)) as Hemp.
  unfold intr_body, gets, mbind, M_bind. rewrite (vi_used _ _ _ HI). destruct U as [|i U].
  - replace (_ =? _) with true by (symmetry; apply Z.eqb_eq; symmetry; apply Hemp; [simpl; lia|done]).
    exists s. split; [by left|]. apply lock_good; [by exists A, []|by rewrite Hl].
  - replace (_ =? _) with false by (symmetry; apply Z.eqb_neq; intros E; symmetry in E; apply Hemp in E; [done|lia]).
    destruct (vring_pop _ _ _ _ (vi_used_ring _ _ _ HI)) as [-> _]. rewrite Nat2Z.id.
    destruct (vi_lists _ _ _ HI i) as (p & b & w & i1 & i2 & E & Ep); [set_solver|].
    destruct (vi_chain _ _ _ HI _ _ _ _ _ _ E) as (_ & _ & _ & _ & _ & _ & ->).
    destruct (Z.eqb_spec (in_status (x_info x i)) 0) as [Es|Es]; [|by split; [|exists i]].
    exists s. split; [by left|]. exists A, U. split.
    + exact (handler_vinv x A U i p b w i1 i2 HI E Ep).
    + exact (handler_refines x A U i p b w i1 i2 HI E Ep s Es HR).
Qed.

(** * The device's steps *)

Lemma take_good x s i A U :
  vinv x (i :: A) U -> refines x (i :: A) U s ->
  good (set_dev (u16 (x_seen x + 1)) (x_taken x ++ [i]) (x_sectors x) x) s.
Proof.
  intros HI HR. exists A, U. set (x' := set_dev _ _ _ _).
  assert (Hperm : A ++ x_taken x' ++ U ≡ₚ (i :: A) ++ x_taken x ++ U).
  { unfold x'. simpl. rewrite <- app_assoc. simpl. rewrite !(app_assoc A). symmetry. apply Permutation_middle. }
  destruct (vring_pop _ _ _ _ (vi_avail_ring _ _ _ HI)) as [Hr1 Hr2]. split.
  - split; try (by apply HI).
    + rewrite Hperm. apply HI.
    + intros j. rewrite Hperm. apply HI.
    + intros p b w i0 i1 i2 E. change (x_buf x') with (x_buf x). change (x_pc x') with (x_pc x).
      rewrite (vi_disk _ _ _ HI _ _ _ _ _ _ E). case_match; [|done].
      f_equal. apply bool_decide_ext. by rewrite Hperm.
    + simpl. unfold u16. by apply Z.mod_pos_bound.
    + simpl. rewrite (vi_avail _ _ _ HI). simpl. unfold u16. rewrite Zplus_mod_idemp_l. f_equal. lia.
    + done.
  - split; try (by apply HR). intros p b w i0 i1 i2 E. rewrite (rf_own _ _ _ _ HR _ _ _ _ _ _ E). simpl.
    rewrite (bool_decide_ext (i0 ∉ i :: A ++ x_taken x) (i0 ∉ A ++ x_taken x ++ [i])); [done|set_solver].
Qed.

(** The request of a chain that has been filled in. *)
Lemma request_filled x b w i0 i1 i2 :
  filled_in x b w i0 i1 i2 ->
  request x i0 = Some (Req (if w then 1 else 0) 0 (2 * v_blockno (x_buf x b)), b, BSIZE, negb w, i0).
Proof.
  intros (E0 & E1 & E2 & E3 & _). unfold request. rewrite E0. cbn [d_next d_flags d_addr d_len].
  rewrite Nat2Z.id, E1. cbn [d_next d_flags d_addr d_len]. rewrite Nat2Z.id, E2, E3. by destruct w.
Qed.

(** The state of the disk and of the buffer after the transfer. *)
Definition served (b : nat) (w : bool) (x : vdisk) : vdisk :=
  let n := 2 * v_blockno (x_buf x b) in
  if w then set_dev (x_seen x) (x_taken x) (write_sectors (x_sectors x) n 2 (v_data (x_buf x b))) x
  else set_vbuf b (fun v => Vbuf (v_disk v) (v_blockno v) (read_sectors (x_sectors x) n 2)) x.

Lemma transfer_filled x b (w : bool) j :
  transfer (Req (if w then 1 else 0) 0 (2 * v_blockno (x_buf x b)), b, BSIZE, negb w, j) x = Some (served b w x).
Proof. by destruct w. Qed.

Lemma write_two (d : Z -> list Z) n l k : write_sectors d n 2 l k =
  if k =? n + 1 then take 512 (drop 512 l) else if k =? n then take 512 l else d k.
Proof. done. Qed.

Lemma served_vinv x A U p b w :
  vinv x A U -> uses (x_pc x p) b -> vinv (served b w x) A U.
Proof.
  intros HI Hu. destruct (vi_block _ _ _ HI p b Hu) as [Hn Hd]. unfold served. destruct w.
  - destruct HI. split; try done. intros n. cbn [x_sectors set_dev]. rewrite write_two.
    change (Z.to_nat BSIZE) with 1024%nat in Hd. repeat case_match; rewrite ?length_take, ?length_drop; [lia|lia|done].
  - set (x' := set_vbuf _ _ _).
    assert (Hb : forall b', v_blockno (x_buf x' b') = v_blockno (x_buf x b') /\ v_disk (x_buf x' b') = v_disk (x_buf x b')).
    { intros b'. unfold x'. simpl. unfold upd. by case_decide. }
    split; try (by apply HI).
    + intros q b' w' i0 i1 i2 E. destruct (vi_chain _ _ _ HI _ _ _ _ _ _ E) as (H1 & H2 & H3).
      split_and!; [done|done|]. unfold filled_in in *. by rewrite (proj1 (Hb b')).
    + intros q b' Hq. rewrite (proj1 (Hb b')). destruct (vi_block _ _ _ HI q b' Hq). split; [done|].
      unfold x'. simpl. unfold upd. case_decide; [|done]. simpl. rewrite !length_app, !(vi_sectors _ _ _ HI). done.
    + intros q b' w' i0 i1 i2 E. rewrite (proj2 (Hb b')). by apply (vi_disk _ _ _ HI) with (1 := E).
Qed.

Lemma filter_back (l : list nat) i : NoDup l -> i ∈ l -> filter (fun k => k <> i) l ++ [i] ≡ₚ l.
Proof.
  intros Hn Hi. apply NoDup_Permutation; [|done|].
  - apply NoDup_app. split_and!; [by apply NoDup_filter| |apply NoDup_singleton].
    intros j [Hj _]%list_elem_of_filter. by rewrite list_elem_of_singleton.
  - intros j. rewrite elem_of_app, list_elem_of_filter, list_elem_of_singleton. destruct (decide (j = i)); naive_solver.
Qed.

Section give.
Variables (x : vdisk) (A U : list nat) (p b : nat) (w : bool) (i i1 i2 : nat) (e : Z).
Hypothesis HI : vinv x A U.
Hypothesis Hi : i ∈ x_taken x.
Hypothesis Hp : own (x_pc x p) = Some (b, w, i, i1, i2).
Let x' := give_back i i e x.

Lemma give_lists : A ++ x_taken x' ++ U ++ [i] ≡ₚ A ++ x_taken x ++ U.
Proof using All.
  f_equiv. rewrite (Permutation_app_comm U). rewrite app_assoc. f_equiv. apply filter_back; [|done].
  by pose proof (vi_nodup _ _ _ HI) as (_ & _ & (Hn & _)%NoDup_app)%NoDup_app.
Qed.

Local Lemma gv_info j : in_b (x_info x' j) = in_b (x_info x j).
Proof using All. unfold x'. simpl. unfold upd. by case_decide. Qed.

Lemma give_vinv : vinv x' A (U ++ [i]).
Proof using All.
  pose proof give_lists as Hl. pose proof (under_way_length _ _ _ HI) as Hlen.
  assert (0 < length (x_taken x))%nat by (destruct (x_taken x); [by apply not_elem_of_nil in Hi|simpl; lia]).
  split; try (by apply HI).
  - intros q b' w' j0 j1 j2 E. destruct (vi_chain _ _ _ HI _ _ _ _ _ _ E) as (H1 & H2 & H3). split_and!; [done|done|].
    unfold filled_in in *. by rewrite gv_info.
  - rewrite Hl. apply HI.
  - intros j. rewrite Hl. apply HI.
  - intros q b' w' j0 j1 j2 E. change (x_buf x') with (x_buf x). change (x_pc x') with (x_pc x).
    rewrite (vi_disk _ _ _ HI _ _ _ _ _ _ E). case_match; [|done]. f_equal. apply bool_decide_ext. by rewrite Hl.
  - unfold x'. simpl. rewrite (vi_used _ _ _ HI), length_app. simpl. unfold u16. rewrite Zplus_mod_idemp_l. f_equal. lia.
  - unfold x'. simpl. apply vring_push; [apply HI|lia|apply HI].
Qed.

(** The other requests are where they were. *)
Lemma give_others q b' w' j0 j1 j2 :
  own (x_pc x q) = Some (b', w', j0, j1, j2) -> q <> p ->
  (j0 ∉ A ++ x_taken x' <-> j0 ∉ A ++ x_taken x) /\
  (j0 ∈ U ++ [i] /\ in_status (x_info x' j0) <> 0 <-> j0 ∈ U /\ in_status (x_info x j0) <> 0).
Proof using All.
  intros E Hq. pose proof (heads_differ _ _ _ _ _ _ _ _ _ _ _ _ _ _ _ HI E Hp Hq) as Hne. unfold x'. simpl. split.
  - rewrite !not_elem_of_app, list_elem_of_filter. tauto.
  - rewrite upd_ne by done. set_solver.
Qed.

Lemma give_out : (i ∈ A ++ x_taken x) /\ (i ∉ A ++ x_taken x') /\ in_status (x_info x' i) = e /\ (i ∈ U ++ [i]).
Proof using All.
  pose proof (vi_nodup _ _ _ HI) as (_ & Ha & _)%NoDup_app. split_and!.
  - set_solver.
  - unfold x'. simpl. rewrite not_elem_of_app, list_elem_of_filter. split; [|tauto]. intros H. apply (Ha i H). set_solver.
  - unfold x'. simpl. by rewrite upd_eq.
  - set_solver.
Qed.
End give.

Lemma taken_owner x A U i :
  vinv x A U -> i ∈ x_taken x ->
  exists p b w i1 i2, own (x_pc x p) = Some (b, w, i, i1, i2) /\ posted (x_pc x p) = true /\ filled_in x b w i i1 i2.
Proof.
  intros HI Hi. destruct (vi_lists _ _ _ HI i) as (p & b & w & i1 & i2 & E & Ep); [set_solver|].
  exists p, b, w, i1, i2. split_and!; [done|done|]. by apply (vi_chain _ _ _ HI _ _ _ _ _ _ E).
Qed.

(** A reported error leaves the request pending. *)
Lemma error_good x A U s i e :
  vinv x A U -> refines x A U s -> i ∈ x_taken x -> e <> 0 -> good (give_back i i e x) s.
Proof.
  intros HI HR Hi He. destruct (taken_owner x A U i HI Hi) as (p & b & w & i1 & i2 & Hp & Hpost & _).
  exists A, (U ++ [i]). split; [by eapply give_vinv|]. split; try (by apply HR).
  intros q b' w' j0 j1 j2 E. change (x_pc (give_back i i e x)) with (x_pc x) in *.
  rewrite (rf_own _ _ _ _ HR _ _ _ _ _ _ E). destruct (decide (q = p)) as [->|Hq].
  - rewrite Hp in E. simplify_eq. destruct (give_out x A U p b' w' j0 j1 j2 e HI Hi Hp) as (H1 & H2 & H3 & H4).
    rewrite Hpost, (bool_decide_false (j0 ∉ A ++ x_taken x)) by tauto.
    rewrite (bool_decide_true (j0 ∈ U ++ [j0] /\ _)) by (rewrite H3; done). simpl. by rewrite !andb_false_r.
  - destruct (give_others x A U p b w i i1 i2 e HI Hi Hp _ _ _ _ _ _ E Hq) as [H1 H2].
    by rewrite (bool_decide_ext _ _ H1), (bool_decide_ext _ _ H2).
Qed.

(** What [disk_rw] does to the specification's state. *)
Definition rw_abs (b : nat) (w : bool) (t : bio) : bio :=
  if w then write_disk (b_blockno (bufs t b)) (b_data (bufs t b)) t
  else set_buf b (set_data (disk t (b_blockno (bufs t b)))) t.

Lemma disk_rw_abs b w t : disk_rw b w t = Ok tt (rw_abs b w t).
Proof. by destruct w. Qed.

(** The transfer is [disk_rw]. *)
Lemma served_data x A U s p b w :
  vinv x A U -> refines x A U s -> uses (x_pc x p) b ->
  let x1 := served b w x in let t := rw_abs b w (a_bio s) in
  (forall q b', uses (x_pc x q) b' ->
     b_blockno (bufs t b') = v_blockno (x_buf x1 b') /\ b_data (bufs t b') = v_data (x_buf x1 b')) /\
  (forall n, 0 <= n < 2 ^ 31 -> disk t n = x_sectors x1 (2 * n) ++ x_sectors x1 (2 * n + 1)).
Proof.
  intros HI HR Hu x1 t. destruct (rf_buf _ _ _ _ HR p b Hu) as [E1 E2], (vi_block _ _ _ HI p b Hu) as [Hn Hd].
  change (Z.to_nat BSIZE) with 1024%nat in Hd. subst x1 t. unfold served, rw_abs. destruct w; split.
  - apply (rf_buf _ _ _ _ HR).
  - intros n Hr. cbn [x_sectors set_dev write_disk disk]. rewrite E1, E2, !write_two.
    replace (2 * n =? 2 * v_blockno (x_buf x b) + 1) with false by (symmetry; apply Z.eqb_neq; lia).
    replace (2 * n + 1 =? 2 * v_blockno (x_buf x b)) with false by (symmetry; apply Z.eqb_neq; lia).
    destruct (Z.eqb_spec n (v_blockno (x_buf x b))) as [->|Hne].
    + rewrite !Z.eqb_refl. rewrite (take_ge (drop 512 _)) by (rewrite length_drop; lia). by rewrite take_drop.
    + replace (2 * n =? _) with false by (symmetry; apply Z.eqb_neq; lia).
      replace (2 * n + 1 =? _) with false by (symmetry; apply Z.eqb_neq; lia). by apply HR.
  - intros q b' Hq. destruct (rf_buf _ _ _ _ HR q b' Hq) as [E3 E4].
    cbn [x_buf set_vbuf set_buf bufs]. destruct (decide (b' = b)) as [->|Hb].
    + rewrite !upd_eq. cbn [b_blockno set_data b_data v_blockno v_data read_sectors]. split; [done|].
      rewrite E1, (rf_disk _ _ _ _ HR) by done. by rewrite app_nil_r.
    + by rewrite !upd_ne.
  - apply (rf_disk _ _ _ _ HR).
Qed.

Lemma serve_good x A U s p b w i i1 i2 :
  vinv x A U -> refines x A U s -> i ∈ x_taken x ->
  own (x_pc x p) = Some (b, w, i, i1, i2) -> posted (x_pc x p) = true ->
  good (give_back i i 0 (served b w x)) (Abs (rw_abs b w (a_bio s)) (upd (a_pc s) p (fun _ => ADone b))).
Proof.
  intros HI HR Hi Hp Hpost. pose proof (own_uses _ _ _ _ _ _ Hp) as Hu.
  destruct (served_data x A U s p b w HI HR Hu) as [Hb Hd]. pose proof (served_vinv x A U p b w HI Hu) as HI1.
  set (x1 := served b w x) in *.
  assert (x_taken x1 = x_taken x /\ x_pc x1 = x_pc x /\ x_info x1 = x_info x) as (Et & Epc & Ein).
  { unfold x1, served. by destruct w. }
  assert (Hi1 : i ∈ x_taken x1) by by rewrite Et. assert (Hp1 : own (x_pc x1 p) = Some (b, w, i, i1, i2)) by by rewrite Epc.
  exists A, (U ++ [i]). split; [by eapply give_vinv|].
  split; change (x_pc (give_back i i 0 x1)) with (x_pc x1); rewrite ?Epc.
  - intros q E. simpl. rewrite upd_ne by (intros ->; by rewrite E in Hp). by apply HR.
  - intros q b' w' E. simpl. rewrite upd_ne by (intros ->; destruct E as [E|E]; by rewrite E in Hp). by apply HR.
  - intros q b' w' j0 j1 j2 E. cbn [a_pc]. destruct (decide (q = p)) as [->|Hq].
    + rewrite Hp in E. simplify_eq. rewrite upd_eq, Hpost.
      destruct (give_out x1 A U p b' w' j0 j1 j2 0 HI1 Hi1 Hp1) as (_ & H2 & H3 & _).
      rewrite (bool_decide_true _ H2), bool_decide_false by (rewrite H3; tauto). done.
    + rewrite upd_ne, (rf_own _ _ _ _ HR _ _ _ _ _ _ E) by done. rewrite <- Epc in E.
      destruct (give_others x1 A U p b w i i1 i2 0 HI1 Hi1 Hp1 _ _ _ _ _ _ E Hq) as [H1 H2].
      rewrite (bool_decide_ext _ _ H1), (bool_decide_ext _ _ H2). by rewrite Et, Ein.
  - exact Hb.
  - exact Hd.
Qed.

Lemma virtio_spec_matched x s o : good x s -> virtio_spec x o -> matched s Tau o.
Proof.
  intros (A & U & HI & HR) Ho. destruct Ho as [x Hne|x x' i r Hi Hr Ht|x i r e Hi Hr He|x i Hi Hl].
  - pose proof (under_way_length _ _ _ HI) as Hlen. exists s. split; [by left|]. destruct A as [|i A].
    + destruct Hne. rewrite (vi_avail _ _ _ HI). symmetry. apply (idx_empty _ []); [apply HI|simpl; lia|done].
    + destruct (vring_pop _ _ _ _ (vi_avail_ring _ _ _ HI)) as [-> _]. rewrite Nat2Z.id. by eapply take_good.
  - destruct (taken_owner x A U i HI Hi) as (p & b & w & i1 & i2 & Hp & Hpost & Hf).
    rewrite (request_filled _ _ _ _ _ _ Hf) in Hr. injection Hr as <-. rewrite transfer_filled in Ht. injection Ht as <-.
    eexists. split; [right|by eapply serve_good]. eapply as_rw; [|apply disk_rw_abs].
    rewrite (rf_own _ _ _ _ HR _ _ _ _ _ _ Hp), Hpost, bool_decide_false; [done|set_solver].
  - destruct (taken_owner x A U i HI Hi) as (p & b & w & i1 & i2 & Hp & Hpost & Hf).
    rewrite (request_filled _ _ _ _ _ _ Hf) in Hr. injection Hr as <-.
    exists s. split; [by left|]. by eapply error_good.
  - destruct (taken_owner x A U i HI Hi) as (p & b & w & i1 & i2 & Hp & Hpost & Hf).
    rewrite (request_filled _ _ _ _ _ _ Hf) in Hl. cbn [mbind option_bind] in Hl. by rewrite transfer_filled in Hl.
Qed.

(** * The theorem *)

Section theorem.
Context `{VD : VirtioDevice}.

Lemma step_matched x s e o : good x s -> step x e o -> matched s e o.
Proof using VD.
  intros Hg Hs. destruct Hs as [x p b w n d|x p b w|x p b w i0 i1 i2|x p b w i0 i1 i2 o E <-|x p b w i0 i1 i2 o E Hl <-|x Hl|x o Hl <-|x o Hd].
  - by apply call_matched.
  - by apply rw_alloc_matched.
  - by apply rw_post_matched.
  - assert (Hl : x_lock x = Process p) by (destruct Hg as (A & U & HI & _); by eapply vi_posted).
    apply rw_wait_matched; [done|by rewrite E|by rewrite E|by right].
  - apply rw_wait_matched; [done|by rewrite E|by rewrite E|by left].
  - exists s. split; [by left|]. apply lock_good; [done|by rewrite Hl].
  - by apply intr_matched.
  - eapply virtio_spec_matched; [done|by apply device_spec].
Qed.

Lemma boot_good sectors : (forall n, length (sectors n) = 512%nat) -> good (vdisk_boot sectors) (abs_boot sectors).
Proof.
  intros Hs. exists [], []. split; split; simpl; try done.
  - constructor.
  - intros i Hi. by apply not_elem_of_nil in Hi.
  - by right.
  - naive_solver.
Qed.

Lemma exec_matched sectors tr o :
  (forall n, length (sectors n) = 512%nat) -> exec (vdisk_boot sectors) tr o ->
  match o with
  | Ok _ x => exists s, aexec (abs_boot sectors) tr s /\ good x s
  | Panic msg x => msg = "virtio_disk_intr status"%string /\ exists i, in_status (x_info x i) <> 0
  | _ => False
  end.
Proof using VD.
  intros Hs. induction 1 as [|tr x e o Hx IH Hstep].
  - exists (abs_boot sectors). split; [constructor|by apply boot_good].
  - destruct IH as (s & Ha & Hg). pose proof (step_matched _ _ _ _ Hg Hstep) as Hm.
    destruct o as [[] x'|msg x'| | |]; try done.
    destruct Hm as (s' & [[-> E]|Hst] & Hg'); [subst s'; exists s|exists s']; (split; [|done]).
    + by rewrite app_nil_r.
    + by eapply ax_step.
Qed.

(** C3: [virtio_disk_rw] is the disk access the buffer cache relies on: for any
    number of processes, any interleaving of the driver, the interrupt handler
    and a device that keeps to the virtio specification, the calls and returns
    are those of a disk on which each call performs one [disk_rw] between its
    call and its return.  The driver never frees a descriptor twice, loses a
    buffer or gives the device a malformed request, its 16-bit ring indices
    wrapping included; it panics only on an error the device reports. *)
Theorem virtio_refines_disk_rw sectors tr o :
  (forall n, length (sectors n) = 512%nat) -> exec (vdisk_boot sectors) tr o ->
  match o with
  | Ok _ x => exists s, aexec (abs_boot sectors) tr s /\
      forall n, 0 <= n < 2 ^ 31 -> disk (a_bio s) n = x_sectors x (2 * n) ++ x_sectors x (2 * n + 1)
  | Panic msg x => msg = "virtio_disk_intr status"%string /\ exists i, in_status (x_info x i) <> 0
  | _ => False
  end.
Proof using VD.
  intros Hs Hx. pose proof (exec_matched sectors tr o Hs Hx) as H. destruct o; try done.
  destruct H as (s' & Ha & A & U & _ & HR). exists s'. split; [done|]. apply HR.
Qed.
End theorem.
