(* ===== verification/VirtioWait.v ===== *)
(** Waiting in the disk driver, and a run of it.

    Who sleeps in [virtio_disk_rw] sleeps for a reason: the device or the
    handler has something to do, or fewer than three descriptors are free; and
    no descriptor is lost.  A concrete run shows that the hypotheses of this
    and of [VirtioSafe]'s theorem hold. *)

From stdpp Require Import gmap.
From S2P Require Import Prelude Layout Sleeplock Bio Virtio VirtioSafe.

Definition is_free (x : vdisk) (i : nat) : Prop := x_free x i <> 0.
#[export] Instance is_free_dec x i : Decision (is_free x i).
Proof. unfold is_free. solve_decision. Defined.

(** The number of free descriptors. *)
Definition free_count (x : vdisk) : nat := length (filter (is_free x) (seq 0 NUM)).

Lemma free_count_le x x' : (forall i, is_free x' i -> is_free x i) -> (free_count x' <= free_count x)%nat.
Proof.
  intros H. unfold free_count. induction (seq 0 NUM) as [|i l IH]; [done|]. rewrite !filter_cons.
  repeat case_decide; simpl; try lia. naive_solver.
Qed.

Lemma free_count_in x l : (forall i, (i < NUM)%nat -> is_free x i -> i ∈ l) -> (free_count x <= length l)%nat.
Proof.
  intros H. unfold free_count. apply submseteq_length, NoDup_submseteq; [apply NoDup_filter, NoDup_seq|].
  intros i [Hi Hin]%list_elem_of_filter. apply H; [|done]. apply elem_of_seq in Hin. lia.
Qed.

Record winv (x : vdisk) : Prop := {
  wi_buf p b w i0 i1 i2 : x_pc x p = WaitBuf b w i0 i1 i2 -> v_disk (x_buf x b) = 1;
  wi_free p b w : x_pc x p = WaitFree b w -> (free_count x < 3)%nat;
  wi_owned i : (i < NUM)%nat -> x_free x i = 0 ->
    exists p b w i0 i1 i2, own (x_pc x p) = Some (b, w, i0, i1, i2) /\ i ∈ [i0; i1; i2];
}.

(** Steps that leave the descriptors and the sleepers alone. *)
Lemma winv_same x x' :
  winv x -> x_free x' = x_free x -> (forall p, x_pc x' p = x_pc x p) ->
  (forall b, v_disk (x_buf x' b) = v_disk (x_buf x b)) -> winv x'.
Proof.
  intros [H1 H2 H3] Ef Ep Eb. split.
  - intros p b w i0 i1 i2. rewrite Ep, Eb. apply H1.
  - intros p b w. rewrite Ep. intros E. eapply Nat.le_lt_trans; [|by eapply H2].
    apply free_count_le. intros i. unfold is_free. by rewrite Ef.
  - intros i Hi. rewrite Ef. intros E. destruct (H3 i Hi E) as (p & H). exists p. by rewrite Ep.
Qed.

(** A process that moves on, without sleeping, with the chain it had. *)
Lemma winv_goto x p c :
  winv x -> own c = own (x_pc x p) ->
  (forall b w, c <> WaitFree b w) ->
  (forall b w i0 i1 i2, c = WaitBuf b w i0 i1 i2 -> v_disk (x_buf x b) = 1) -> winv (goto p c x).
Proof.
  intros [H1 H2 H3] Eo Hc Hb. split.
  - intros q b w i0 i1 i2. rewrite goto_pc. case_decide; [apply Hb|apply H1].
  - intros q b w. rewrite goto_pc. case_decide; [intros ->; by destruct (Hc b w)|apply H2].
  - intros i Hi E. destruct (H3 i Hi E) as (q & b & w & i0 & i1 & i2 & Ho & Hin). exists q, b, w, i0, i1, i2.
    rewrite goto_pc. case_decide; [subst; by rewrite Eo|done].
Qed.

Lemma alloc_winv x p b w x' A U :
  vinv x A U -> winv x -> x_pc x p = Alloc b w -> rw_alloc p b w x = Ok tt x' -> winv x'.
Proof.
  intros HI [H1 H2 H3] Hp. unfold rw_alloc, alloc3_desc.
  destruct (alloc3_desc_loop_ok 3 [] x x eq_refl) as [(l & Hlen & E & Hn & Hf)|(l & x1 & Hlen & E & F & Hf & Hall)];
    [constructor|done| |]; rewrite (bind_ok _ _ _ _ _ E); cbn [app] in *.
  - destruct l as [|i0 [|i1 [|i2 [|]]]]; try done.
    assert (Hb : 0 <= v_blockno (x_buf (take_all [i0; i1; i2] x) b) < 2 ^ 31) by (apply (vi_block _ _ _ HI p b); by rewrite Hp).
    destruct (wp_inv _ _ _ (fill_ok b w i0 i1 i2 _ Hn Hb)) as ([] & z & Ez & Hz).
    rewrite (bind_ok _ _ _ _ _ Ez). intros [= <-]. set (x' := goto _ _ _).
    assert (Epc : forall q, x_pc x' q = if decide (q = p) then Filled b w i0 i1 i2 else x_pc x q).
    { intros q. unfold x'. rewrite goto_pc. simpl. by rewrite (fl_pc _ _ _ _ _ _ _ Hz). }
    assert (Ef : forall i, x_free x' i = if decide (i ∈ [i0; i1; i2]) then 0 else x_free x i).
    { intros i. unfold x'. simpl. by rewrite (fl_free _ _ _ _ _ _ _ Hz), take_all_free. }
    split.
    + intros q b' w' j0 j1 j2. rewrite Epc. case_decide; [done|]. intros Eq. unfold x'. simpl.
      rewrite (fl_buf _ _ _ _ _ _ _ Hz). case_decide; [done|]. by apply (H1 q _ _ _ _ _ Eq).
    + intros q b' w'. rewrite Epc. case_decide; [done|]. intros Eq. eapply Nat.le_lt_trans; [|by eapply H2].
      apply free_count_le. intros i. unfold is_free. rewrite Ef. by case_decide.
    + intros i Hi. rewrite Ef. case_decide as Hin.
      * intros _. exists p, b, w, i0, i1, i2. rewrite Epc. by rewrite decide_True.
      * intros Ei. destruct (H3 i Hi Ei) as (q & b' & w' & j0 & j1 & j2 & Ho & Hj). exists q, b', w', j0, j1, j2.
        rewrite Epc. case_decide; [subst; by rewrite Hp in Ho|done].
  - destruct (taken_back x l x1 (vi_free _ _ _ HI) Hf F) as (_ & Ef & Hpc & R). intros [= <-].
    assert (Hc : (free_count x < 3)%nat).
    { eapply Nat.le_lt_trans; [by apply (free_count_in x l)|]. simpl in Hlen. lia. }
    assert (Hc' : (free_count x1 < 3)%nat).
    { eapply Nat.le_lt_trans; [|exact Hc]. apply free_count_le. intros i. unfold is_free. by rewrite Ef. }
    split; simpl; unfold upd.
    + intros q b' w' j0 j1 j2. case_decide; [done|]. intros Eq. destruct R as (_ & _ & _ & _ & _ & -> & _).
      apply (H1 q b' w' j0 j1 j2). destruct (Hpc q) as [E'|E']; rewrite E' in Eq; [done|by destruct (x_pc x q)].
    + intros q b' w' _. exact Hc'.
    + intros i Hi. rewrite Ef. intros Ei. destruct (H3 i Hi Ei) as (q & b' & w' & j0 & j1 & j2 & Ho & Hj).
      exists q, b', w', j0, j1, j2. case_decide; [subst; by rewrite Hp in Ho|].
      destruct (Hpc q) as [E'|E']; rewrite E'; [done|]. by rewrite (proj1 (woke_free_own _)).
Qed.

Lemma wait_winv x p b w i0 i1 i2 x' A U :
  vinv x A U -> winv x -> own (x_pc x p) = Some (b, w, i0, i1, i2) -> rw_wait p b w i0 i1 i2 x = Ok tt x' -> winv x'.
Proof.
  intros HI Hw Hp.
  assert (E0 : rw_wait p b w i0 i1 i2 x = (if v_disk (x_buf x b) =? 1
    then modify (goto p (WaitBuf b w i0 i1 i2));; modify (set_vlock Nobody)
    else modify (set_info i0 (fun n => Info None (in_status n)));; free_chain i0;; modify (goto p Idle);;
      modify (set_vlock Nobody)) x) by done.
  rewrite E0. clear E0. destruct (Z.eqb_spec (v_disk (x_buf x b)) 1) as [E|E].
  - intros [= <-]. eapply (winv_same (goto p (WaitBuf b w i0 i1 i2) x)); [|done|done|done].
    apply winv_goto; [done|by rewrite Hp|done|]. intros; by simplify_eq.
  - destruct (vi_chain _ _ _ HI _ _ _ _ _ _ Hp) as (N1 & N2 & D0 & D1 & D2 & _).
    destruct (free_chain_ok i0 i1 i2 (set_info i0 (fun n => Info None (in_status n)) x) b w) as (z & Ez & Hz); try done.
    rewrite (bind_ok _ _ _ tt (set_info i0 (fun n => Info None (in_status n)) x)) by done.
    rewrite (bind_ok _ _ _ _ _ Ez). intros [= <-]. destruct Hw as [H1 H2 H3]. set (x' := set_vlock _ _).
    assert (Epc : forall q, x_pc x' q = if decide (q = p) then Idle else woke_free (x_pc x q)).
    { intros q. unfold x'. simpl. unfold upd. by rewrite (fr_pc _ _ _ Hz), (decide_False (P := [i0; i1; i2] = [])). }
    split.
    + intros q b' w' j0 j1 j2. rewrite Epc. case_decide; [done|]. intros Eq. unfold x'. simpl.
      rewrite (proj1 (proj2 (proj2 (proj2 (proj2 (proj2 (fr_rest _ _ _ Hz))))))).
      apply (H1 q b' w' j0 j1 j2). by destruct (x_pc x q).
    + intros q b' w'. rewrite Epc. case_decide; [done|]. by destruct (x_pc x q).
    + intros i Hi. replace (x_free x' i) with (x_free z i) by done. rewrite (fr_free _ _ _ Hz).
      case_decide as Hin; [done|]. intros Ei.
      destruct (H3 i Hi Ei) as (q & b' & w' & j0 & j1 & j2 & Ho & Hj). exists q, b', w', j0, j1, j2.
      rewrite Epc. case_decide; [subst; rewrite Hp in Ho; by simplify_eq|]. by rewrite (proj1 (woke_free_own _)).
Qed.

Lemma handler_winv x x' :
  winv x -> (e ← intr_body; when e (modify (set_vlock Nobody))) x = Ok tt x' -> winv x'.
Proof.
  intros Hw. unfold intr_body, gets, mbind, M_bind, when, modify.
  destruct (x_used_idx x =? us_idx (x_used x)).
  { intros [= <-]. by apply (winv_same x). }
  destruct (negb _); [done|]. destruct (in_b _) as [b|]; [|done]. intros [= <-]. destruct Hw as [H1 H2 H3].
  assert (Ho : forall q, own (woke_buf b (x_pc x q)) = own (x_pc x q)).
  { intros q. unfold woke_buf. destruct (x_pc x q); try done. by case_decide. }
  split; simpl.
  - intros q b' w i0 i1 i2. unfold woke_buf. destruct (x_pc x q) eqn:E; try done. case_decide; [done|].
    intros [= -> -> -> -> ->]. rewrite upd_ne by done. by eapply H1.
  - intros q b' w. unfold woke_buf. destruct (x_pc x q) eqn:E; try done; [|by case_decide].
    intros _. by apply (H2 q b0 w0).
  - intros i Hi Ei. destruct (H3 i Hi Ei) as (q & H). exists q. by rewrite Ho.
Qed.

Lemma device_winv x x' : winv x -> virtio_spec x (Ok tt x') -> winv x'.
Proof.
  intros Hw Hs. inversion Hs as [? Hne|? y i r Hi Hr Ht|? i r e Hi Hr He|]; subst; [by apply (winv_same x)| |by apply (winv_same x)].
  destruct r as [[[[q b] len] wr] j]. unfold transfer in Ht. cbn [snd].
  repeat case_match; simplify_eq; apply (winv_same x); try done.
  intros b'. simpl. unfold upd. by case_decide.
Qed.

(** The entry of a ring that is [i], among the ones from [start] up to [idx]. *)
Definition on_ring (ring : nat -> Z) (start idx : Z) (i : nat) : Prop :=
  exists k, 0 <= k < u16 (idx - start) /\ ring (Z.to_nat ((start + k) mod Z.of_nat NUM)) = Z.of_nat i.

Lemma ring_holds_on ring start l i :
  (length l <= NUM)%nat -> ring_holds ring start l -> i ∈ l -> on_ring ring start (u16 (start + Z.of_nat (length l))) i.
Proof.
  intros Hl Hr [k Hk]%list_elem_of_lookup. pose proof (lookup_lt_Some _ _ _ Hk). exists (Z.of_nat k).
  split; [|by apply Hr]. unfold u16, NUM in *. zlia.
Qed.

Section sleepers.
Context `{VD : VirtioDevice}.

Lemma step_winv x A U e x' : vinv x A U -> winv x -> step x e (Ok tt x') -> winv x'.
Proof using VD.
  intros HI Hw Hs. remember (Ok tt x') as o eqn:Eo.
  destruct Hs as [x p b w n d E _ _ _|x p b w E _|x p b w i0 i1 i2 E|x p b w i0 i1 i2 o E <-|x p b w i0 i1 i2 o E _ <-|x _|x o _ <-|x o Hd].
  - injection Eo as <-. eapply (winv_goto (set_vbuf b (fun v => Vbuf (v_disk v) n d) x)); [|by simpl; rewrite E|done|done].
    apply (winv_same x); try done. intros b'. simpl. unfold upd. by case_decide.
  - by eapply alloc_winv.
  - injection Eo as <-. apply winv_goto; [by apply (winv_same x)|by simpl; rewrite E|done|done].
  - eapply wait_winv; [done|done| |done]. by rewrite E.
  - eapply wait_winv; [done|done| |done]. by rewrite E.
  - injection Eo as <-. by apply (winv_same x).
  - by eapply handler_winv.
  - subst o. eapply device_winv; [done|by apply device_spec].
Qed.

Lemma exec_winv sectors tr o :
  (forall n, length (sectors n) = 512%nat) -> exec (vdisk_boot sectors) tr o ->
  match o with Ok _ x => exists A U, vinv x A U /\ winv x | _ => True end.
Proof using VD.
  intros Hs. induction 1 as [|tr x e o Hx IH Hstep].
  - destruct (boot_good sectors Hs) as (A & U & HI & _). exists A, U. split; [done|]. by split.
  - destruct o as [[] x'| | | |]; try done. destruct IH as (A & U & HI & Hw).
    pose proof (exec_matched sectors _ _ Hs (ex_step _ _ _ _ _ Hx Hstep)) as (s & _ & A' & U' & HI' & _).
    exists A', U'. split; [done|]. by apply (step_winv x A U e x').
Qed.

(** C4: nobody sleeps in the driver without cause, and no descriptor is lost: a
    process asleep on its buffer has the buffer marked with the disk and its
    own request described by the chain it holds, and the head of that very
    chain is in one of the entries of the [avail] ring the device has not
    taken, with the device, or in one of the entries of the [used] ring the
    handler has not seen; a process asleep on [disk.free] sleeps while fewer
    than three descriptors are free; and each descriptor that is not free
    belongs to a request under way. *)
Theorem virtio_sleepers sectors tr x :
  (forall n, length (sectors n) = 512%nat) -> exec (vdisk_boot sectors) tr (Ok tt x) ->
  (forall p b w i0 i1 i2, x_pc x p = WaitBuf b w i0 i1 i2 ->
     v_disk (x_buf x b) = 1 /\ filled_in x b w i0 i1 i2 /\
     (on_ring (av_ring (x_avail x)) (x_seen x) (av_idx (x_avail x)) i0 \/
      i0 ∈ x_taken x \/
      on_ring (us_ring (x_used x)) (x_used_idx x) (us_idx (x_used x)) i0)) /\
  (forall p b w, x_pc x p = WaitFree b w -> (free_count x < 3)%nat) /\
  (forall i, (i < NUM)%nat -> x_free x i = 0 ->
     exists p b w i0 i1 i2, own (x_pc x p) = Some (b, w, i0, i1, i2) /\ i ∈ [i0; i1; i2]).
Proof using VD.
  intros Hs Hx. destruct (exec_winv sectors tr _ Hs Hx) as (A & U & HI & [H1 H2 H3]). split_and!; [|done|done].
  intros p b w i0 i1 i2 E. pose proof (under_way_length _ _ _ HI) as Hlen.
  pose proof (vi_disk _ _ _ HI p b w i0 i1 i2 ltac:(by rewrite E)) as Hd. rewrite (H1 _ _ _ _ _ _ E), E in Hd. simpl in Hd.
  split; [by eapply H1|]. split; [apply (vi_chain _ _ _ HI p b w i0 i1 i2); by rewrite E|].
  case_bool_decide as Hin; [|done]. rewrite !elem_of_app in Hin. destruct Hin as [Hin|[Hin|Hin]].
  - left. rewrite (vi_avail _ _ _ HI). apply (ring_holds_on _ _ A); [lia|apply HI|done].
  - by right; left.
  - right; right. rewrite (vi_used _ _ _ HI). apply (ring_holds_on _ _ U); [lia|apply HI|done].
Qed.
End sleepers.

(** * A run *)

(** The device that does all the specification allows. *)
Definition device_any : VirtioDevice := {| device := virtio_spec; device_spec := fun _ _ H => H |}.

(** Who moves next. *)
Inductive move : Type :=
  | MCall (p b : nat) (w : bool) (n : Z) (d : list Z)
  | MProc (p : nat)
  | MIntr
  | MTake
  | MServe (i : nat).

Definition locked (x : vdisk) : bool := match x_lock x with Nobody => false | _ => true end.

Definition act (m : move) (x : vdisk) : option (event * vdisk) :=
  match m with
  | MCall p b w n d =>
      match x_pc x p with
      | Idle => Some (Call p b w n d, goto p (Alloc b w) (set_vbuf b (fun v => Vbuf (v_disk v) n d) x))
      | _ => None
      end
  | MProc p =>
      match x_pc x p with
      | Alloc b w => if locked x then None else match rw_alloc p b w x with Ok _ x' => Some (Tau, x') | _ => None end
      | Filled b w i0 i1 i2 => match rw_post p b w i0 i1 i2 x with Ok _ x' => Some (Tau, x') | _ => None end
      | Posted b w i0 i1 i2 =>
          let o := rw_wait p b w i0 i1 i2 x in match o with Ok _ x' => Some (ends p b o, x') | _ => None end
      | Woken b w i0 i1 i2 => if locked x then None else
          let o := rw_wait p b w i0 i1 i2 x in match o with Ok _ x' => Some (ends p b o, x') | _ => None end
      | _ => None
      end
  | MIntr =>
      match x_lock x with
      | Nobody => Some (Tau, set_vlock Handler x)
      | Handler => match (e ← intr_body; when e (modify (set_vlock Nobody))) x with Ok _ x' => Some (Tau, x') | _ => None end
      | Process _ => None
      end
  | MTake =>
      if x_seen x =? av_idx (x_avail x) then None
      else Some (Tau, set_dev (u16 (x_seen x + 1))
        (x_taken x ++ [Z.to_nat (av_ring (x_avail x) (Z.to_nat (x_seen x mod Z.of_nat NUM)))]) (x_sectors x) x)
  | MServe i =>
      if decide (i ∈ x_taken x) then
        match request x i with
        | Some r => match transfer r x with Some x' => Some (Tau, give_back i r.2 0 x') | None => None end
        | None => None
        end
      else None
  end.

(** The side conditions of a call. *)
Definition callable (m : move) (x : vdisk) : Prop :=
  match m with
  | MCall _ b _ n d => (forall q, ~ uses (x_pc x q) b) /\ 0 <= n < 2 ^ 31 /\ length d = Z.to_nat BSIZE
  | _ => True
  end.

Lemma locked_false x : locked x = false -> x_lock x = Nobody.
Proof. unfold locked. by destruct (x_lock x). Qed.

#[local] Existing Instance device_any.

Lemma act_step m x e x' : callable m x -> act m x = Some (e, x') -> step x e (Ok tt x').
Proof.
  intros Hc. destruct m as [p b w n d|p| | |i]; cbn [act].
  - destruct (x_pc x p) eqn:E; try done. intros [= <- <-]. destruct Hc as (? & ? & ?). by apply st_call.
  - destruct (x_pc x p) eqn:E; try done.
    + destruct (locked x) eqn:El; [done|]. destruct (rw_alloc _ _ _ _) as [[] y| | | |] eqn:Eo; try done. intros [= <- <-].
      rewrite <- Eo. apply st_alloc; [done|by apply locked_false].
    + intros [= <- <-]. by apply (st_post x p b w i0 i1 i2).
    + destruct (rw_wait _ _ _ _ _ _ _) as [[] y| | | |] eqn:Eo; try done. intros [= <- <-].
      exact (st_wait x p b w i0 i1 i2 (Ok tt y) E Eo).
    + destruct (locked x) eqn:El; [done|]. destruct (rw_wait _ _ _ _ _ _ _) as [[] y| | | |] eqn:Eo; try done. intros [= <- <-].
      exact (st_woken x p b w i0 i1 i2 (Ok tt y) E (locked_false x El) Eo).
  - destruct (x_lock x) eqn:El; [|destruct ((e ← intr_body; when e (modify (set_vlock Nobody))) x) as [[] y| | | |] eqn:Eo; try done|done]; intros [= <- <-].
    + by apply st_intr.
    + by apply st_intr_body.
  - destruct (Z.eqb_spec (x_seen x) (av_idx (x_avail x))); [done|]. intros [= <- <-]. by apply st_device, dev_take.
  - case_decide as Hi; [|done]. destruct (request x i) as [r|] eqn:Er; [|done]. destruct (transfer r x) as [y|] eqn:Et; [|done].
    intros [= <- <-]. by apply st_device, (dev_serve _ _ i).
Qed.

Fixpoint run (ms : list move) (x : vdisk) : option (list event * vdisk) :=
  match ms with
  | [] => Some ([], x)
  | m :: ms' => '(e, y) ← act m x; '(tr, z) ← run ms' y; Some (visible e ++ tr, z)
  end.

(** The calls of a run come when they may. *)
Fixpoint callable_run (ms : list move) (x : vdisk) : Prop :=
  match ms with
  | [] => True
  | m :: ms' => callable m x /\ match act m x with Some (_, y) => callable_run ms' y | None => True end
  end.

Lemma run_exec x0 tr0 ms x tr z :
  exec x0 tr0 (Ok tt x) -> callable_run ms x -> run ms x = Some (tr, z) -> exec x0 (tr0 ++ tr) (Ok tt z).
Proof.
  revert tr0 x tr. induction ms as [|m ms IH]; intros tr0 x tr Hx Hc; simpl.
  - intros [= <- <-]. by rewrite app_nil_r.
  - destruct Hc as [Hm Hc]. destruct (act m x) as [[e y]|] eqn:Ea; [|done]. simpl.
    destruct (run ms y) as [[tr' z']|] eqn:Er; [|done]. simpl. intros [= <- <-]. rewrite app_assoc.
    apply (IH _ y); [|done|done]. eapply ex_step; [done|by eapply act_step].
Qed.

(** Process 1 writes block 3 from buffer 5 while process 2 reads it into buffer
    6; the device serves the write first.  Process 3's request waits for
    descriptors. *)
Definition zero_disk : Z -> list Z := fun _ => replicate 512 0.
Definition sevens : list Z := replicate 1024 7.
Definition zeros : list Z := replicate 1024 0.
Definition calls : list move := [MCall 1 5 true 3 sevens; MCall 2 6 false 3 zeros; MCall 3 7 false 4 sevens].
Definition busy : list move := calls ++ [MProc 1; MProc 1; MProc 1; MProc 2; MProc 2; MProc 2; MProc 3].
Definition finish : list move :=
  [MTake; MTake; MServe 0; MServe 3; MIntr; MIntr; MIntr; MIntr; MProc 2; MProc 1].

Definition no_call (m : move) : Prop := match m with MCall _ _ _ _ _ => False | _ => True end.

Lemma callable_no_call ms x : Forall no_call ms -> callable_run ms x.
Proof.
  revert x. induction ms as [|m ms IH]; intros x; [done|]. intros [Hm Hms]%Forall_cons. split; [by destruct m|].
  destruct (act m x) as [[? ?]|]; [by apply IH|done].
Qed.

Lemma callable_app ms1 ms2 x : callable_run ms1 x -> Forall no_call ms2 -> callable_run (ms1 ++ ms2) x.
Proof.
  revert x. induction ms1 as [|m ms IH]; intros x H1 H2; [by apply callable_no_call|].
  destruct H1 as [Hm H1]. split; [done|]. destruct (act m x) as [[? y]|]; [by apply IH|done].
Qed.

Lemma calls_callable : callable_run calls (vdisk_boot zero_disk).
Proof.
  assert (length sevens = Z.to_nat BSIZE /\ length zeros = Z.to_nat BSIZE) as [H1 H2] by (by vm_compute).
  unfold calls. revert H1 H2. generalize sevens, zeros. intros l l' H1 H2. simpl.
  split_and!; try done; try lia; intros q; unfold upd; repeat case_decide; simpl; lia || tauto.
Qed.

Lemma run_busy ms :
  Forall no_call ms ->
  forall tr z, run (busy ++ ms) (vdisk_boot zero_disk) = Some (tr, z) -> exec (vdisk_boot zero_disk) tr (Ok tt z).
Proof.
  intros Hms tr z Hr. apply (run_exec (vdisk_boot zero_disk) [] (busy ++ ms) (vdisk_boot zero_disk)); [constructor| |done].
  unfold busy. rewrite <- app_assoc. apply callable_app; [apply calls_callable|]. apply Forall_app. split; [repeat constructor|done].
Qed.

Lemma virtio_refines_disk_rw_witness :
  exists s, aexec (abs_boot zero_disk)
    [Call 1 5 true 3 sevens; Call 2 6 false 3 zeros; Call 3 7 false 4 sevens; Ret 2 6 sevens; Ret 1 5 sevens] s /\
    disk (a_bio s) 3 = sevens.
Proof.
  destruct (run (busy ++ finish) (vdisk_boot zero_disk)) as [[tr z]|] eqn:E.
  - assert (Ht : tr = [Call 1 5 true 3 sevens; Call 2 6 false 3 zeros; Call 3 7 false 4 sevens; Ret 2 6 sevens; Ret 1 5 sevens] /\
      x_sectors z 6 ++ x_sectors z 7 = sevens).
    { assert (E2 : (fun r => (r.1, x_sectors r.2 6 ++ x_sectors r.2 7)) <$> run (busy ++ finish) (vdisk_boot zero_disk) =
        Some ([Call 1 5 true 3 sevens; Call 2 6 false 3 zeros; Call 3 7 false 4 sevens; Ret 2 6 sevens; Ret 1 5 sevens], sevens))
        by (vm_compute; reflexivity).
      rewrite E in E2. injection E2 as -> E3. by split. }
    destruct Ht as [-> Hz].
    destruct (virtio_refines_disk_rw zero_disk _ (Ok tt z) ltac:(done) (run_busy finish ltac:(repeat constructor) _ _ E))
      as (s & Ha & Hd).
    exists s. split; [done|]. rewrite Hd by lia. exact Hz.
  - exfalso. assert (E2 : is_Some (fst <$> run (busy ++ finish) (vdisk_boot zero_disk))) by (vm_compute; by eexists).
    rewrite E in E2. by destruct E2.
Defined.

(** After [busy] the third process waits for descriptors, the others for the
    device. *)
Lemma virtio_sleepers_witness :
  exists x, x_pc x 3%nat = WaitFree 7 false /\ x_pc x 1%nat = WaitBuf 5 true 0 1 2 /\ (free_count x < 3)%nat /\
    v_disk (x_buf x 5%nat) = 1 /\ filled_in x 5 true 0 1 2 /\
    (on_ring (av_ring (x_avail x)) (x_seen x) (av_idx (x_avail x)) 0 \/ 0%nat ∈ x_taken x \/
     on_ring (us_ring (x_used x)) (x_used_idx x) (us_idx (x_used x)) 0).
Proof.
  destruct (run (busy ++ []) (vdisk_boot zero_disk)) as [[tr z]|] eqn:E.
  - assert (Ht : x_pc z 3%nat = WaitFree 7 false /\ x_pc z 1%nat = WaitBuf 5 true 0 1 2).
    { assert (E2 : (fun r => (x_pc r.2 3%nat, x_pc r.2 1%nat)) <$> run (busy ++ []) (vdisk_boot zero_disk) =
        Some (WaitFree 7 false, WaitBuf 5 true 0 1 2)) by (vm_compute; reflexivity).
      rewrite E in E2. injection E2 as E3 E4. by split. }
    destruct (virtio_sleepers zero_disk tr z ltac:(done) (run_busy [] ltac:(constructor) _ _ E)) as (H1 & H2 & _).
    destruct Ht as [Ht3 Ht1]. exists z. split; [done|]. split; [done|]. split; [by eapply H2|by eapply H1].
  - exfalso. assert (E2 : is_Some (fst <$> run (busy ++ []) (vdisk_boot zero_disk))) by (vm_compute; by eexists).
    rewrite E in E2. by destruct E2.
Defined.
