(* ===== verification/Uart.v ===== *)
(** The serial port driver, [kernel/uart.c].

    The transmit ring is the array and its two counters; register accesses go
    through the trace of the kernel state, their values come from the
    [Platform].  A busy-wait on another CPU's panic never ends ([nofuel]). *)

From S2P Require Import Prelude Ring CString Layout Kalloc Vm Sleeplock Bio Log Kernel Sched.

Definition UART_BASE : Z := 0x09000000.
Definition UART_DR : Z := 0.
Definition UART_FR : Z := 6.
Definition UART_FR_TXFF : Z := Z.shiftl 1 5.
Definition UART_FR_RXFE : Z := Z.shiftl 1 4.
Definition UART_IBRD : Z := 9.
Definition UART_FBRD : Z := 10.
Definition UART_LCRH : Z := 11.
Definition UART_LCRH_FEN : Z := Z.shiftl 1 4.
Definition UART_CR : Z := 12.
Definition UART_CR_RXE : Z := Z.shiftl 1 9.
Definition UART_CR_TXE : Z := Z.shiftl 1 8.
Definition UART_CR_EN : Z := Z.shiftl 1 0.
Definition UART_IMSC : Z := 14.
Definition UART_RXI : Z := Z.shiftl 1 4.
Definition UART_TXI : Z := Z.shiftl 1 5.
Definition UART_MIS : Z := 16.
Definition UART_ICR : Z := 17.
Definition UART_BITRATE : Z := 19200.
Definition UART_CLK : Z := 24000000.

(** [R(r)]: the registers are words from the kernel address of the device. *)
Definition R (r : Z) : Z := P2V UART_BASE + 4 * r.

Section uart.
Context `{KE : KernelEnd, PL : Platform}.

Definition uartinit : M kernel unit :=
  wr (R UART_IBRD) (UART_CLK / (16 * UART_BITRATE));;
  let left := UART_CLK mod (16 * UART_BITRATE) in
  wr (R UART_FBRD) ((left * 4 + UART_BITRATE / 2) / UART_BITRATE);;
  cr ← rd (R UART_CR);
  wr (R UART_CR) (Z.lor cr (lors [UART_CR_EN; UART_CR_RXE; UART_CR_TXE]));;
  lcrh ← rd (R UART_LCRH);
  wr (R UART_LCRH) (Z.lor lcrh UART_LCRH_FEN).

(** One pass of the loop of [uartstart]. *)
Definition uartstart_body (_ : unit) : M kernel (unit + unit) :=
  t ← gets k_uart;
  if tx_w t =? tx_r t then mret (inr tt)
  else
    fr ← rd (R UART_FR);
    if ctrue (Z.land fr UART_FR_TXFF) then mret (inr tt)
    else
      let c := default 0 (tx_buf t !! Z.to_nat (tx_r t mod UART_TX_BUF_SIZE)) in
      modify (set_uart (fun t => set_tx_r (u64 (tx_r t + 1)) t));;
      wakeup ChanUartTxR;;
      wr (R UART_DR) c;;
      mret (inl tt).

(** The ring holds at most [UART_TX_BUF_SIZE] characters. *)
Definition uartstart : M kernel unit :=
  loop (Z.to_nat (UART_TX_BUF_SIZE + 1)) uartstart_body tt.

(** The test for another CPU's panic. *)
Definition stop_if_panicked : M kernel unit :=
  p ← gets k_panicked;
  when ((0 <=? p) && negb (p =? cpuid)) nofuel.

Definition uartputc (c : Z) : M kernel unit :=
  stop_if_panicked;;
  t ← gets k_uart;
  if tx_w t =? u64 (tx_r t + UART_TX_BUF_SIZE) then sleep ChanUartTxR
  else
    modify (set_uart (fun t => set_tx_buf (<[Z.to_nat (tx_w t mod UART_TX_BUF_SIZE) := u8 c]> (tx_buf t)) t));;
    modify (set_uart (fun t => set_tx_w (u64 (tx_w t + 1)) t));;
    uartstart.

Definition wait_txff (_ : unit) : M kernel (unit + unit) :=
  fr ← rd (R UART_FR);
  mret (if ctrue (Z.land fr UART_FR_TXFF) then inl tt else inr tt).

Definition uartputc_sync (c : Z) : M kernel unit :=
  stop_if_panicked;;
  loop polls wait_txff tt;;
  wr (R UART_DR) (u32 c).

Definition uartgetc : M kernel Z :=
  fr ← rd (R UART_FR);
  if ctrue (Z.land fr UART_FR_RXFE) then mret (-1)
  else
    c ← rd (R UART_DR);
    mret (s32 c).

Fixpoint uartputs (s : list Z) : M kernel unit :=
  match s with
  | [] => mret tt
  | c :: s' => wr (R UART_DR) c;; uartputs s'
  end.

(** [intrset(id, h)] *)
Definition intrset (id : Z) (h : handler) : M kernel unit :=
  when (id <? 64) (
    if 0 <=? id then modify (fun s => set_k_intrs (<[Z.to_nat id := h]> (k_intrs s)) s)
    else undefined "intrs").

Definition uartsti : M kernel unit :=
  wr (R UART_IMSC) UART_RXI;;
  intrset (1 + 32) Uartintr.

(** * What has been sent *)

(** The characters written to the data register, oldest first. *)
Fixpoint sent (io : list ioevent) : list Z :=
  match io with
  | [] => []
  | Rd _ _ :: io' => sent io'
  | Wr a v :: io' => if a =? R UART_DR then sent io' ++ [v] else sent io'
  end.

(** The accesses [io] and then [k] reads of the flag register. *)
Fixpoint polled (k : nat) (io : list ioevent) : list ioevent :=
  match k with
  | O => io
  | S k' => polled k' (Rd (R UART_FR) (io_read io (R UART_FR)) :: io)
  end.

Definition tx_full (io : list ioevent) : bool :=
  ctrue (Z.land (io_read io (R UART_FR)) UART_FR_TXFF).

(** The transmitter drains: polled [polls] times, it is not full at least
    once. *)
Class UartReady : Prop :=
  uart_ready : forall io, exists k, (k < polls)%nat /\ tx_full (polled k io) = false.

(** The only register written after [io] is the data register. *)
Definition only_data (io io' : list ioevent) : Prop :=
  forall a v, Wr a v ∈ io' -> a = R UART_DR \/ Wr a v ∈ io.

(** [s'] is [s] after [l] has been sent, with no other effect. *)
Definition prints (s : kernel) (l : list Z) (s' : kernel) : Prop :=
  exists io, s' = set_k_io io s /\ sent io = sent (k_io s) ++ l /\ only_data (k_io s) io.

(** No other CPU has panicked. *)
Definition quiet (s : kernel) : Prop := k_panicked s < 0 \/ k_panicked s = cpuid.

Lemma prints_nil s : prints s [] s.
Proof. exists (k_io s). split_and!; [by destruct s|by rewrite app_nil_r|by right]. Qed.

Lemma prints_app s l1 s1 l2 s2 : prints s l1 s1 -> prints s1 l2 s2 -> prints s (l1 ++ l2) s2.
Proof.
  intros (io1 & -> & E1 & O1) (io2 & -> & E2 & O2). exists io2. split_and!; [done| |].
  - rewrite E2. simpl. by rewrite E1, app_assoc.
  - intros a v [?|H]%O2; [by left|by apply O1].
Qed.

Lemma prints_quiet s l s' : prints s l s' -> quiet s -> quiet s'.
Proof. by intros (io & -> & _). Qed.

Lemma sent_polled k io : sent (polled k io) = sent io.
Proof. revert io. induction k as [|k IH]; intros io; simpl; [done|]. by rewrite IH. Qed.

Lemma polled_writes k io a v : Wr a v ∈ polled k io -> Wr a v ∈ io.
Proof.
  revert io. induction k as [|k IH]; intros io; simpl; [done|]. intros H%IH. by apply elem_of_cons in H as [?|?].
Qed.

Lemma stop_if_panicked_ok s Q : quiet s -> Q tt s -> wp stop_if_panicked s Q.
Proof.
  intros Hq HQ. unfold stop_if_panicked, when. wp_steps.
  destruct (Z.leb_spec 0 (k_panicked s)), (Z.eqb_spec (k_panicked s) cpuid); simpl;
    try (by apply wp_ret). unfold quiet in Hq. lia.
Qed.

Lemma wait_txff_ok fuel s k Q :
  (k < fuel)%nat -> tx_full (polled k (k_io s)) = false ->
  (forall j, Q tt (set_k_io (polled j (k_io s)) s)) -> wp (loop fuel wait_txff tt) s Q.
Proof.
  revert s k. induction fuel as [|fuel IH]; intros s k Hk Hf HQ; [lia|].
  simpl. apply wp_bind. unfold wait_txff at 1. apply wp_bind, wp_rd, wp_ret.
  change (ctrue _) with (tx_full (k_io s)).
  destruct (tx_full (k_io s)) eqn:E.
  - destruct k as [|k]; [simpl in Hf; congruence|].
    apply (IH _ k); [lia|done|]. intros j. apply (HQ (S j)).
  - apply wp_ret, (HQ 1%nat).
Qed.

Lemma uartputc_sync_ok {UR : UartReady} c s :
  quiet s -> wp (uartputc_sync c) s (fun _ s' => prints s [u32 c] s').
Proof.
  intros Hq. unfold uartputc_sync. apply wp_bind, stop_if_panicked_ok; [done|].
  apply wp_bind. destruct (uart_ready (k_io s)) as (k & Hk & Hf).
  eapply (wait_txff_ok _ _ k); [done|done|]. intros j. apply wp_wr.
  exists (Wr (R UART_DR) (u32 c) :: polled j (k_io s)). split_and!; [done| |].
  - cbn [sent]. rewrite Z.eqb_refl. by rewrite sent_polled.
  - intros a v [E|H]%elem_of_cons; [left; by injection E|right; by eapply polled_writes].
Qed.

(** * The transmit ring *)

Definition uart_rep (t : uart_tx) (q : list Z) : Prop :=
  ring_rep UART_TX_BUF_SIZE (2 ^ 64) (tx_buf t) (tx_r t) (tx_w t) q.

Lemma uart_size : 0 < UART_TX_BUF_SIZE < 2 ^ 64 /\ (UART_TX_BUF_SIZE | 2 ^ 64).
Proof. split; [done|]. by exists (2 ^ 59). Qed.

(** The process table after the waiters for room in the ring have been
    woken. *)
Definition woken_all (ch : chan) (s : kernel) (p : nat) : proc :=
  if decide (p < NPROC)%nat then woken (k_cur s) ch p (k_procs s p) else k_procs s p.

(** [s'] is [s] after the characters [l] moved from the ring, which held [q],
    to the device: what was sent and what waits, in order, are the same, and
    if any moved, the waiters for room are runnable. *)
Record drained (s : kernel) (q l : list Z) (s' : kernel) (q' : list Z) : Prop := {
  dr_rep : uart_rep (k_uart s') q';
  dr_split : q = l ++ q';
  dr_sent : sent (k_io s') = sent (k_io s) ++ l;
  dr_rest : exists t io pr, s' = set_k_uart t (set_k_io io (set_k_procs pr s));
  dr_procs : forall p, k_procs s' p = if decide (l = []) then k_procs s p else woken_all ChanUartTxR s p;
}.

Lemma sent_cons_wr io v : sent (Wr (R UART_DR) v :: io) = sent io ++ [v].
Proof. cbn [sent]. by rewrite Z.eqb_refl. Qed.

Lemma woken_idem cur ch p q : woken cur ch p (woken cur ch p q) = woken cur ch p q.
Proof.
  unfold woken at 2 3. case_bool_decide; [|by apply woken_not].
  apply woken_not. simpl. by intros (_ & ? & _).
Qed.

Lemma drained_refl s q : uart_rep (k_uart s) q -> drained s q [] s q.
Proof.
  intros. split; [done|done|by rewrite app_nil_r| |done].
  exists (k_uart s), (k_io s), (k_procs s). by destruct s.
Qed.

Lemma drained_trans s q c s1 q1 l s2 q2 :
  drained s q [c] s1 q1 -> drained s1 q1 l s2 q2 -> drained s q (c :: l) s2 q2.
Proof.
  intros [_ -> S1 (t1 & io1 & pr1 & ->) P1] [R2 -> S2 (t2 & io2 & pr2 & ->) P2].
  split; [done|done| | |].
  - rewrite S2, S1. by rewrite <- app_assoc.
  - by exists t2, io2, pr2.
  - intros p. rewrite (decide_False (P := c :: l = [])), P2 by done. specialize (P1 p). rewrite decide_False in P1 by done.
    destruct (decide (l = [])); [done|]. unfold woken_all in *. rewrite P1. simpl.
    destruct (decide (p < NPROC)%nat); [apply woken_idem|done].
Qed.

Lemma uartstart_step s q c :
  uart_rep (k_uart s) (c :: q) -> tx_full (k_io s) = false ->
  wp (uartstart_body tt) s (fun r s' => r = inl tt /\ drained s (c :: q) [c] s' q).
Proof.
  intros HR Hf. unfold uartstart_body. wp_steps.
  assert (He : tx_r (k_uart s) = tx_w (k_uart s) <-> c :: q = [])
    by (eapply ring_empty; exact HR).
  destruct (ring_pop _ _ (proj1 uart_size) (proj2 uart_size) _ _ _ _ _ HR) as [Ec HR'].
  destruct (Z.eqb_spec (tx_w (k_uart s)) (tx_r (k_uart s))) as [E|E]; [by symmetry in E; apply He in E|].
  apply wp_bind, wp_rd. change (ctrue _) with (tx_full (k_io s)). rewrite Hf, Ec. wp_steps.
  eapply wp_mono; [apply wakeup_ok|]. intros [] s1 (pr & -> & Hpr). apply wp_bind, wp_wr, wp_ret.
  split; [done|]. split.
  - exact HR'.
  - done.
  - cbn [k_io set_k_io set_k_procs]. by rewrite sent_cons_wr.
  - eexists _, _, _. reflexivity.
  - intros p. simpl. rewrite Hpr. done.
Qed.

Lemma uartstart_loop fuel s q :
  uart_rep (k_uart s) q -> (length q < fuel)%nat ->
  wp (loop fuel uartstart_body tt) s (fun _ s' => exists l q', drained s q l s' q').
Proof.
  revert s q. induction fuel as [|fuel IH]; intros s q HR Hf; [lia|]. simpl. apply wp_bind.
  destruct q as [|c q].
  - assert (He : tx_r (k_uart s) = tx_w (k_uart s) <-> [] = @nil Z)
      by (eapply ring_empty; exact HR).
    unfold uartstart_body. wp_steps. rewrite (proj2 (Z.eqb_eq _ _)) by (symmetry; by apply He).
    wp_steps. exists [], []. by apply drained_refl.
  - destruct (tx_full (k_io s)) eqn:E.
    + unfold uartstart_body. apply wp_bind, wp_gets. destruct (_ =? _).
      { wp_steps. exists [], (c :: q). by apply drained_refl. }
      apply wp_bind, wp_rd. unfold tx_full in E. rewrite E. wp_steps.
      exists [], (c :: q). split; [done|done|by simpl; rewrite app_nil_r| |done].
      exists (k_uart s), (Rd (R UART_FR) (io_read (k_io s) (R UART_FR)) :: k_io s), (k_procs s).
      by destruct s.
    + eapply wp_mono; [by apply uartstart_step|]. intros r s1 [-> H1].
      eapply wp_mono; [apply (IH s1 q); [apply H1|simpl in Hf; lia]|].
      intros [] s2 (l & q' & H2). exists (c :: l), q'. by eapply drained_trans.
Qed.

Lemma uartstart_ok s q :
  uart_rep (k_uart s) q -> wp uartstart s (fun _ s' => exists l q', drained s q l s' q').
Proof.
  intros HR. apply uartstart_loop; [done|]. pose proof (rg_max _ _ _ _ _ _ HR).
  unfold UART_TX_BUF_SIZE in *. lia.
Qed.

#[local] Opaque uartstart.

(** [uartputc] puts its character behind the ones still waiting in the
    transmit ring and starts the device: the characters sent followed by the
    characters waiting are those from before followed by the new one, in
    order, none lost; with the ring full of [UART_TX_BUF_SIZE] characters the
    caller sleeps and the ring is unchanged. *)
Theorem uartputc_queues c s p q :
  k_cur s = Some p -> quiet s -> uart_rep (k_uart s) q ->
  wps (uartputc c) s
    (fun _ s' => exists q', uart_rep (k_uart s') q' /\
       sent (k_io s') ++ q' = sent (k_io s) ++ q ++ [u8 c])
    (fun ch s' => ch = ChanUartTxR /\ Z.of_nat (length q) = UART_TX_BUF_SIZE /\
       k_uart s' = k_uart s /\ k_io s' = k_io s /\ p_state (k_procs s' p) = SLEEPING).
Proof.
  intros Hcur Hq HR. unfold uartputc. apply wps_bind, wps_wp, stop_if_panicked_ok; [done|]. wps_steps.
  assert (Hf : tx_w (k_uart s) = u64 (tx_r (k_uart s) + UART_TX_BUF_SIZE) <->
               Z.of_nat (length q) = UART_TX_BUF_SIZE)
    by (eapply ring_full; [apply uart_size|exact HR]).
  destruct (Z.eqb_spec (tx_w (k_uart s)) (u64 (tx_r (k_uart s) + UART_TX_BUF_SIZE))) as [E|E].
  - unfold sleep. apply wps_bind. eapply wps_wp, wp_myproc; [done|]. wps_steps. apply wps_sleep.
    split_and!; [done|by apply Hf|done|done|]. simpl. unfold upd. by rewrite !decide_True.
  - wps_steps. apply wps_wp. eapply wp_mono; [apply (uartstart_ok _ (q ++ [u8 c]))|].
    + apply ring_push; [apply uart_size..|exact HR|]. pose proof (rg_max _ _ _ _ _ _ HR). lia.
    + intros [] s' (l & q' & H). exists q'. split; [apply H|].
      rewrite (dr_sent _ _ _ _ _ H), <- app_assoc, <- (dr_split _ _ _ _ _ H). done.
Qed.
End uart.

#[global] Opaque uartstart.
