(* ===== verification/KernelExample.v ===== *)
(** A small concrete kernel state, on which the theorems' hypotheses are shown
    to hold: one running process with one page of memory, nothing open, an
    empty console. *)

From stdpp Require Import gmap.
From S2P Require Import Prelude CString Layout Kalloc Vm VmTables VmOps VmExample VmCopy Sleeplock Bio Log LogSafe Kernel UserMem Sched Uart.

#[local] Existing Instance kernel_ex.

(** A serial port that is never full and has no input. *)
Definition platform_ex : Platform := {|
  bufaddr b := buf_ex + 1024 * (Z.of_nat b + 1);
  klocal := buf_ex;
  trapret := 0; forkret_addr := 0; eentry := 0; initcode_start := 0; initcode_size := 0;
  cpuid := 0;
  io_read _ a := if a =? R UART_FR then UART_FR_RXFE else 0;
  polls := 1;
|}.
#[local] Existing Instance platform_ex.

Definition proc_zero : proc :=
  Proc UNUSED None 0 0 0 None 0 0 0 0 (replicate 16 0) (replicate NOFILE None) None (replicate 16 0).
Definition proc_run : proc :=
  Proc RUNNING None 0 0 1 None 0 PG_SIZE root_ex 0 (replicate 16 0) (replicate NOFILE None) None
    (replicate 16 0).
Definition inode_zero : inode := Inode 0 0 0 initsleeplock 0 (Dinode 0 0 0 0 0 (replicate 13 0)).
Definition file_zero : file := File FD_NONE 0 0 0 0 None 0 0.
Definition pipe_zero : pipe := Pipe (replicate 512 0) 0 0 1 1.
Definition sb_zero : superblock := Superblock 0 0 0 0 0 0 0 0.

Definition kernel_of (ls : lstate) (sb : superblock) : kernel :=
  Kernel ls sb (fun _ => inode_zero) mapped_ex (fun p => if decide (p = 0%nat) then proc_run else proc_zero)
    (Some 0%nat) 2 (Some 0%nat) 0 (fun _ => file_zero) (fun _ => Devsw None None) (fun _ => pipe_zero)
    (Cons (replicate 128 0) 0 0 0) (UartTx (replicate 32 0) 0 0) [] (-1) 1 0 0 (replicate 64 Defintr).

Definition kernel0 : kernel := kernel_of (boot_state disk_ex 1 (log_ex 0 [])) sb_zero.

Lemma mapped_ex_rep : vm_rep mapped_ex root_ex (ubyte (km_mem mapped_ex) root_ex).
Proof.
  exists [], mapped_roles. split_and!; [apply mapped_ex_inv|apply mapped_root| |done].
  intros a n i [[-> Hn]|(b & Hb & H1 & H2)] Hi; unfold KLOCAL_SIZE, NBUF, BSIZE in *; simpl in *.
  - apply buf_ex_kernel. lia.
  - replace (a + i) with (buf_ex + (a - buf_ex + i)) by lia. apply buf_ex_kernel. lia.
Qed.

(** The process's page is mapped and holds zeros. *)
Lemma mapped_ex_byte va : 0 <= va < 4096 -> ubyte (km_mem mapped_ex) root_ex va = Some 0.
Proof.
  intros Hva. unfold ubyte. destruct (Z.ltb_spec va 0); [lia|].
  assert (E : uaddr (km_mem mapped_ex) root_ex va = Some (page_ex 12 + va)).
  { pose proof (uaddr_page mapped_ex [] mapped_roles root_ex 0 (page_ex 12) va mapped_ex_inv mapped_root) as H1.
    rewrite Z.add_0_r, Z.add_0_l in H1. apply H1; [by vm_compute|]. rewrite Zmod_0_l. unfold PG_SIZE. lia. }
  rewrite E. simpl. f_equal. unfold mapped_mem.
  rewrite !store64_out by (unfold page_ex, PG_SIZE; lia). done.
Qed.

Lemma uartputc_queues_witness :
  wps (uartputc 65) kernel0 (fun _ s' => exists q', uart_rep (k_uart s') q' /\
    sent (k_io s') ++ q' = [65]) (fun _ _ => False).
Proof.
  eapply wps_mono; [apply (uartputc_queues 65 kernel0 0 [])| |].
  - done.
  - by left.
  - by split.
  - by intros [] s' H.
  - by intros ch s' (_ & H & _).
Defined.
