(* ===== verification/Printf.v ===== *)
(** The kernel's formatted output, [kernel/printf.c].

    A format is the list of its characters.  The variable arguments are the
    words and strings the caller passed; fetching one that is not there or has
    the other type is undefined. *)

From S2P Require Import Prelude CString Layout Kalloc Vm Sleeplock Bio Log Kernel Sched Uart VmExample KernelExample.

Definition BACKSPACE : Z := 0x100.

Definition ch_0 : Z := 48.
Definition ch_a : Z := 97.
Definition ch_c : Z := 99.
Definition ch_d : Z := 100.
Definition ch_l : Z := 108.
Definition ch_p : Z := 112.
Definition ch_s : Z := 115.
Definition ch_u : Z := 117.
Definition ch_x : Z := 120.
Definition ch_minus : Z := 45.
Definition ch_percent : Z := 37.

(** The characters of a literal. *)
Fixpoint chars (s : string) : list Z :=
  match s with
  | EmptyString => []
  | String a s' => Z.of_nat (Ascii.nat_of_ascii a) :: chars s'
  end.

Definition nl : list Z := [10].

(** ["0123456789abcdef"[d]] *)
Definition digit (d : Z) : Z := if d <? 10 then ch_0 + d else ch_a + (d - 10).

(** The digits [printint] collects, lowest first. *)
Fixpoint digits (fuel : nat) (base t : Z) : list Z :=
  match fuel with
  | O => []
  | S fuel' =>
      digit (t mod base) :: (if t / base =? 0 then [] else digits fuel' base (t / base))
  end.

Inductive arg : Type :=
  | AWord (v : Z)
  | AStr (s : option (list Z)).

Section printf.
Context `{KE : KernelEnd, PL : Platform}.

(** [consputc] of [kernel/console.c]. *)
Definition consputc (c : Z) : M kernel unit :=
  if c =? BACKSPACE then
    uartputc_sync 8;; uartputc_sync 32;; uartputc_sync 8
  else uartputc_sync c.

Fixpoint consputs (l : list Z) : M kernel unit :=
  match l with
  | [] => mret tt
  | c :: l' => consputc c;; consputs l'
  end.

(** The array [buf] has 64 entries, enough for any 64-bit number. *)
Definition printint (x base : Z) (sign : bool) : M kernel unit :=
  let neg := sign && (x <? 0) in
  let x := if neg then s64 (- x) else x in
  when neg (consputc ch_minus);;
  consputs (rev (digits 64 base (u64 x))).

Definition va_word (ap : list arg) : M kernel (Z * list arg) :=
  match ap with
  | AWord v :: ap' => mret (v, ap')
  | _ => undefined "va_arg"
  end.

Definition va_str (ap : list arg) : M kernel (option (list Z) * list arg) :=
  match ap with
  | AStr s :: ap' => mret (s, ap')
  | _ => undefined "va_arg"
  end.

(** [va_arg(ap, int64)] with two [l]s, [va_arg(ap, int)] otherwise. *)
Definition va_int (l : nat) (v : Z) : Z := if decide (l = 2%nat) then s64 v else s32 v.

(** The [switch] on the conversion character. *)
Definition directive (c : Z) (l : nat) (ap : list arg) : M kernel (list arg) :=
  if c =? ch_u then '(v, ap) ← va_word ap; printint (va_int l v) 10 false;; mret ap
  else if c =? ch_d then '(v, ap) ← va_word ap; printint (va_int l v) 10 true;; mret ap
  else if c =? ch_x then '(v, ap) ← va_word ap; printint (va_int l v) 16 false;; mret ap
  else if c =? ch_p then
    consputc ch_0;; consputc ch_x;;
    '(v, ap) ← va_word ap; printint (s64 v) 16 false;; mret ap
  else if c =? ch_c then '(v, ap) ← va_word ap; consputc (u8 v);; mret ap
  else if c =? ch_s then
    '(s, ap) ← va_str ap;
    consputs (match s with None => chars "(null)" | Some s => s end);; mret ap
  else if c =? ch_percent then consputc ch_percent;; mret ap
  else consputc ch_percent;; consputc c;; mret ap.

(** The loop of [vprintf]; [pct] is [Some l] after a percent sign and [l]
    [l]s. *)
Fixpoint vprintf (fmt : list Z) (pct : option nat) (ap : list arg) : M kernel unit :=
  match fmt with
  | [] => mret tt
  | c :: fmt' =>
      match pct with
      | None =>
          if c =? ch_percent then vprintf fmt' (Some O) ap
          else consputc c;; vprintf fmt' None ap
      | Some l =>
          if c =? ch_l then vprintf fmt' (Some (S l)) ap
          else ap' ← directive c l ap; vprintf fmt' None ap'
      end
  end.

Definition printf (fmt : list Z) (ap : list arg) : M kernel unit := vprintf fmt None ap.

Definition check_panicked : M kernel unit :=
  modify (set_k_locking 0);;
  p ← gets k_panicked;
  if p <? 0 then modify (set_k_panicked cpuid) else nofuel.

Definition printfinit : M kernel unit := modify (set_k_locking 1).

(** [procdump] of [kernel/proc.c]. *)
Definition state_name (st : procstate) : string :=
  match st with
  | UNUSED => "unused"
  | USED => "used"
  | SLEEPING => "sleep "
  | RUNNABLE => "runble"
  | RUNNING => "run   "
  | ZOMBIE => "zombie"
  end.

(** The characters of an array up to the NUL. *)
Fixpoint c_string (l : list Z) : list Z :=
  match l with
  | [] => []
  | c :: l' => if c =? 0 then [] else c :: c_string l'
  end.

Definition procdump_body (p : nat) : M kernel unit :=
  q ← the_proc p;
  when (negb (bool_decide (p_state q = UNUSED))) (
    printf (chars "%d %s %s")
      [AWord (p_pid q); AStr (Some (chars (state_name (p_state q)))); AStr (Some (c_string (p_name q)))];;
    printf nl []).

Definition procdump : M kernel unit := for_procs procdump_body NPROC 0.

(** * Output *)

Section output.
Context {UR : UartReady}.

Lemma consputc_ok c s :
  c <> BACKSPACE -> quiet s -> wp (consputc c) s (fun _ s' => prints s [u32 c] s').
Proof.
  intros Hc Hq. unfold consputc. rewrite (proj2 (Z.eqb_neq _ _)) by done.
  by apply uartputc_sync_ok.
Qed.

Lemma consputc_backspace s :
  quiet s -> wp (consputc BACKSPACE) s (fun _ s' => prints s [8; 32; 8] s').
Proof.
  intros Hq. unfold consputc. rewrite Z.eqb_refl.
  apply wp_bind. eapply wp_mono; [by apply uartputc_sync_ok|]. intros [] s1 H1.
  apply wp_bind. eapply wp_mono; [apply uartputc_sync_ok; by eapply prints_quiet|]. intros [] s2 H2.
  eapply wp_mono; [apply uartputc_sync_ok; do 2 (eapply prints_quiet; [done|]); done|].
  intros [] s3 H3. exact (prints_app _ _ _ _ _ H1 (prints_app _ _ _ _ _ H2 H3)).
Qed.

(** Any output leaves everything but the device accesses alone. *)
Definition says (m : M kernel unit) : Prop :=
  forall s, quiet s -> wp m s (fun _ s' => exists l, prints s l s').

Lemma says_ret : says (mret tt).
Proof. intros s _. apply wp_ret. exists []. apply prints_nil. Qed.

Lemma says_bind (m k : M kernel unit) : says m -> says k -> says (m;; k).
Proof.
  intros Hm Hk s Hq. apply wp_bind. eapply wp_mono; [by apply Hm|]. intros [] s1 [l1 H1].
  eapply wp_mono; [apply Hk; by eapply prints_quiet|]. intros [] s2 [l2 H2].
  exists (l1 ++ l2). by eapply prints_app.
Qed.

Lemma consputc_says c : says (consputc c).
Proof.
  intros s Hq. destruct (decide (c = BACKSPACE)) as [->|Hc].
  - eapply wp_mono; [by apply consputc_backspace|]. intros [] s' H. eauto.
  - eapply wp_mono; [by apply consputc_ok|]. intros [] s' H. eauto.
Qed.

Lemma consputs_says l : says (consputs l).
Proof.
  induction l as [|c l IH]; simpl; [apply says_ret|]. apply says_bind; [apply consputc_says|done].
Qed.

Lemma printint_says x base sign : says (printint x base sign).
Proof.
  unfold printint, when. apply says_bind; [|apply consputs_says].
  destruct (sign && _); [apply consputc_says|apply says_ret].
Qed.

(** The arguments left after the conversion [c], if those it fetches are
    there. *)
Definition fetched (c : Z) (ap : list arg) : option (list arg) :=
  if (c =? ch_u) || (c =? ch_d) || (c =? ch_x) || (c =? ch_p) || (c =? ch_c) then
    match ap with AWord _ :: ap' => Some ap' | _ => None end
  else if c =? ch_s then
    match ap with AStr _ :: ap' => Some ap' | _ => None end
  else Some ap.

(** The arguments fit the format. *)
Fixpoint fits (fmt : list Z) (pct : option nat) (ap : list arg) : bool :=
  match fmt with
  | [] => true
  | c :: fmt' =>
      match pct with
      | None => if c =? ch_percent then fits fmt' (Some O) ap else fits fmt' None ap
      | Some l =>
          if c =? ch_l then fits fmt' (Some (S l)) ap
          else match fetched c ap with
               | Some ap' => fits fmt' None ap'
               | None => false
               end
      end
  end.

(** [m] says something and returns [a]. *)
Definition says_then {A} (m : M kernel A) (a : A) : Prop :=
  forall s, quiet s -> wp m s (fun r s' => r = a /\ exists l, prints s l s').

Lemma says_then_ret {A} (m : M kernel unit) (a : A) : says m -> says_then (m;; mret a) a.
Proof.
  intros Hm s Hq. apply wp_bind. eapply wp_mono; [by apply Hm|]. intros [] s' H. by wp_steps.
Qed.

Lemma directive_says c l ap ap' : fetched c ap = Some ap' -> says_then (directive c l ap) ap'.
Proof.
  unfold fetched, directive. intros H.
  destruct (c =? ch_u); [|destruct (c =? ch_d); [|destruct (c =? ch_x)]]; simpl in H.
  1-3: destruct ap as [|[v|v] ap]; simplify_eq; apply says_then_ret, printint_says.
  destruct (c =? ch_p); simpl in H.
  { destruct ap as [|[v|v] ap]; simplify_eq. intros s Hq.
    apply wp_bind. eapply wp_mono; [by apply consputc_says|]. intros [] s1 [l1 H1].
    apply wp_bind. eapply wp_mono; [apply consputc_says; by eapply prints_quiet|]. intros [] s2 [l2 H2].
    apply wp_bind, wp_ret.
    eapply wp_mono; [apply (says_then_ret _ ap' (printint_says (s64 v) 16 false)); by eauto using prints_quiet|].
    intros r s3 [-> [l3 H3]]. split; [done|]. eauto using prints_app. }
  destruct (c =? ch_c); simpl in H.
  { destruct ap as [|[v|v] ap]; simplify_eq. apply says_then_ret, consputc_says. }
  destruct (c =? ch_s).
  { destruct ap as [|[v|v] ap]; simplify_eq. apply says_then_ret, consputs_says. }
  simplify_eq. destruct (c =? ch_percent); [apply says_then_ret, consputc_says|].
  intros s Hq. apply wp_bind. eapply wp_mono; [by apply consputc_says|]. intros [] s1 [l1 H1].
  eapply wp_mono; [apply (says_then_ret _ ap' (consputc_says c)); by eauto using prints_quiet|].
  intros r s2 [-> [l2 H2]]. split; [done|]. eauto using prints_app.
Qed.

Lemma vprintf_says fmt pct ap : fits fmt pct ap = true -> says (vprintf fmt pct ap).
Proof.
  revert pct ap. induction fmt as [|c fmt IH]; intros pct ap; simpl; [intros _; apply says_ret|].
  destruct pct as [l|].
  - destruct (c =? ch_l); [apply IH|]. destruct (fetched c ap) as [ap'|] eqn:E; [|done].
    intros Hf s Hq. apply wp_bind. eapply wp_mono; [by apply (directive_says c l ap ap')|].
    intros r s1 [-> [l1 H1]]. eapply wp_mono; [apply (IH None ap' Hf); by eapply prints_quiet|].
    intros [] s2 [l2 H2]. eauto using prints_app.
  - destruct (c =? ch_percent); [apply IH|]. intros Hf. apply says_bind; [apply consputc_says|auto].
Qed.

Lemma procdump_says : says procdump.
Proof.
  intros s Hq. unfold procdump. generalize NPROC 0%nat. intros n. revert s Hq.
  induction n as [|n IH]; intros s Hq p; simpl; [by apply says_ret|].
  apply wp_bind. unfold procdump_body. apply wp_bind, wp_gets. unfold when.
  eapply wp_mono with (P := fun _ s' => exists l, prints s l s').
  - destruct (negb _); [|by apply says_ret].
    apply says_bind; [by apply vprintf_says|by apply vprintf_says|done].
  - intros [] s1 [l1 H1]. eapply wp_mono; [apply IH; by eapply prints_quiet|].
    intros [] s2 [l2 H2]. eauto using prints_app.
Qed.

Definition is_char (c : Z) : Prop := 0 <= c < 256.

Lemma consputs_ok l s :
  Forall is_char l -> quiet s -> wp (consputs l) s (fun _ s' => prints s l s').
Proof.
  revert s. induction l as [|c l IH]; intros s Hl Hq; simpl.
  - apply wp_ret, prints_nil.
  - apply Forall_cons in Hl as [Hc Hl]. unfold is_char in Hc. apply wp_bind.
    eapply wp_mono; [apply consputc_ok; [unfold BACKSPACE; lia|done]|]. intros [] s1 H1.
    eapply wp_mono; [apply IH; [done|by eapply prints_quiet]|]. intros [] s2 H2.
    rewrite u32_small in H1 by lia. exact (prints_app _ _ _ _ _ H1 H2).
Qed.
End output.

(** * Numbers *)

(** The value of a digit character, and of digits read left to right. *)
Definition dval (c : Z) : Z := if c <? ch_a then c - ch_0 else c - ch_a + 10.
Definition number (base : Z) (l : list Z) : Z := foldl (fun n c => n * base + dval c) 0 l.

Lemma dval_digit d : 0 <= d < 16 -> dval (digit d) = d.
Proof.
  intros. unfold dval, digit, ch_a, ch_0.
  destruct (Z.ltb_spec d 10); [destruct (Z.ltb_spec (48 + d) 97)|destruct (Z.ltb_spec (97 + (d - 10)) 97)]; lia.
Qed.

Lemma digit_char d : 0 <= d < 16 -> is_char (digit d) /\ digit d <> ch_minus.
Proof. intros. unfold is_char, digit, ch_a, ch_0, ch_minus. destruct (Z.ltb_spec d 10); lia. Qed.

Lemma number_digits fuel base t :
  2 <= base <= 16 -> 0 <= t < base ^ Z.of_nat fuel -> (0 < fuel)%nat ->
  number base (rev (digits fuel base t)) = t /\ Forall is_char (digits fuel base t) /\
  Forall (fun c => c <> ch_minus) (digits fuel base t) /\ digits fuel base t <> [].
Proof.
  intros Hb. revert t. induction fuel as [|fuel IH]; intros t Ht Hf; [lia|]. simpl.
  assert (Hd : 0 <= t mod base < 16) by (pose proof (Z.mod_pos_bound t base); lia).
  destruct (digit_char _ Hd) as [Hc Hm]. pose proof (Z.div_mod t base).
  destruct (Z.eqb_spec (t / base) 0) as [E|E].
  - split_and!; [|by apply Forall_singleton|by apply Forall_singleton|done].
    unfold number. simpl. rewrite dval_digit by done. lia.
  - assert (Ht' : 0 <= t / base < base ^ Z.of_nat fuel).
    { split; [apply Z.div_pos; lia|]. apply Z.div_lt_upper_bound; [lia|].
      rewrite Nat2Z.inj_succ, Z.pow_succ_r in Ht by lia. lia. }
    destruct fuel as [|fuel'].
    { change (base ^ Z.of_nat 0) with 1 in Ht'. lia. }
    destruct (IH (t / base) Ht') as (E1 & E2 & E3 & _); [lia|].
    split_and!; [|by constructor|by constructor|done].
    unfold number in *. rewrite foldl_app. cbn [foldl]. rewrite E1, dval_digit by done. lia.
Qed.

Lemma printint_ok {UR : UartReady} x base sign s :
  - 2 ^ 63 <= x < 2 ^ 63 -> 2 <= base <= 16 -> quiet s ->
  wp (printint x base sign) s (fun _ s' => exists l,
    prints s ((if sign && (x <? 0) then [ch_minus] else []) ++ l) s' /\ l <> [] /\
    Forall (fun c => c <> ch_minus) l /\
    number base l = if sign && (x <? 0) then - x else u64 x).
Proof.
  intros Hx Hb Hq. unfold printint.
  set (t := u64 (if sign && (x <? 0) then s64 (- x) else x)).
  assert (Et : t = if sign && (x <? 0) then - x else u64 x).
  { unfold t. destruct sign; simpl; [|done]. destruct (Z.ltb_spec x 0); [|done].
    unfold s64. destruct (Z.ltb_spec (- x mod 2 ^ 64) (2 ^ 63)); zlia. }
  assert (Ht : 0 <= t < base ^ Z.of_nat 64).
  { assert (2 ^ 64 <= base ^ Z.of_nat 64) by (apply Z.pow_le_mono_l; lia).
    pose proof (u64_range (if sign && (x <? 0) then s64 (- x) else x)). unfold t. lia. }
  destruct (number_digits 64 base t Hb Ht) as (E1 & E2 & E3 & E4); [lia|].
  apply wp_bind. eapply wp_mono with (P := fun _ s' =>
    prints s (if sign && (x <? 0) then [ch_minus] else []) s').
  - unfold when. destruct (sign && (x <? 0)); [|apply wp_ret, prints_nil].
    by apply consputc_ok.
  - intros [] s1 H1. eapply wp_mono; [apply consputs_ok; [|by eapply prints_quiet]|].
    + by apply Forall_rev.
    + intros [] s2 H2. exists (rev (digits 64 base t)). split_and!.
      * exact (prints_app _ _ _ _ _ H1 H2).
      * intros E. apply E4. by rewrite <- (rev_involutive (digits _ _ _)), E.
      * by apply Forall_rev.
      * by rewrite E1.
Qed.

(** [printint] sends the digits of the number, after a minus sign when it
    prints a negative number as signed: read back in the given base the digits
    are its absolute value, and for an unsigned number the number as a 64-bit
    word; any 64-bit number is printed, the most negative one included. *)
Theorem printint_reads_back {UR : UartReady} x base sign s :
  - 2 ^ 63 <= x < 2 ^ 63 -> 2 <= base <= 16 -> quiet s ->
  wp (printint x base sign) s (fun _ s' => exists l,
    prints s ((if sign && (x <? 0) then [ch_minus] else []) ++ l) s' /\ l <> [] /\
    number base l = if sign && (x <? 0) then - x else u64 x).
Proof.
  intros. eapply wp_mono; [by apply printint_ok|]. intros [] s' (l & Hp & Hl & _ & Hn). by exists l.
Qed.

#[local] Opaque printint.

(** The conversion [%u] of the kernel's [printf] fetches an [int]: an
    unsigned argument with its top bit set is printed as a 64-bit number,
    2{^64} - 2{^32} too large. *)
Theorem printf_u_sign_extends {UR : UartReady} v s :
  2 ^ 31 <= v < 2 ^ 32 -> quiet s ->
  wp (printf (chars "%u") [AWord v]) s (fun _ s' => exists l,
    prints s l s' /\ number 10 l = v + (2 ^ 64 - 2 ^ 32)).
Proof.
  intros Hv Hq. unfold printf. simpl. unfold directive. simpl. wp_steps.
  assert (E : va_int 0 v = v - 2 ^ 32).
  { unfold va_int. rewrite decide_False by lia. unfold s32.
    destruct (Z.ltb_spec (v mod 2 ^ 32) (2 ^ 31)); zlia. }
  rewrite E. eapply wp_mono; [apply printint_ok; [lia|lia|done]|].
  intros [] s' (l & H1 & _ & _ & H2). wp_steps. exists l. split; [done|]. rewrite H2. simpl. zlia.
Qed.
End printf.

#[local] Existing Instance kernel_ex.
#[local] Existing Instance platform_ex.

Lemma platform_ex_ready : UartReady.
Proof. intros io. exists 0%nat. split; [simpl; lia|]. by vm_compute. Qed.

Lemma printint_reads_back_witness :
  wp (printint (-42) 10 true) kernel0 (fun _ s' => exists l,
    prints kernel0 ([ch_minus] ++ l) s' /\ l <> [] /\ number 10 l = 42).
Proof.
  eapply wp_mono;
    [apply (printint_reads_back (UR := platform_ex_ready) (-42) 10 true kernel0); [lia|lia|by left]|].
  intros [] s' (l & Hp & Hl & Hn). exists l. exact (conj Hp (conj Hl Hn)).
Defined.

Lemma printf_u_sign_extends_witness :
  wp (printf (chars "%u") [AWord 4294967295]) kernel0 (fun _ s' => exists l,
    prints kernel0 l s' /\ number 10 l = 18446744073709551615).
Proof.
  eapply wp_mono;
    [apply (printf_u_sign_extends (UR := platform_ex_ready) 4294967295 kernel0); [lia|by left]|].
  intros [] s' (l & Hp & Hn). exists l. exact (conj Hp Hn).
Defined.
