(* ===== verification/Console.v ===== *)
(** The console, [kernel/console.c]: line-edited input from the serial port's
    interrupt handler, and the console's device functions; with [uartintr] of
    [kernel/uart.c], which feeds it. *)

From S2P Require Import Prelude Ring CString Layout Kalloc Vm Sleeplock Bio Log Kernel UserMem Sched Uart VmExample KernelExample Printf.

(** [C(x)]: the control character. *)
Definition C (x : Z) : Z := x - 64.
Definition CONSOLE : Z := 1.

Section console.
Context `{KE : KernelEnd, PL : Platform}.

Definition consoleinit : M kernel unit :=
  uartinit;;
  modify (fun s => set_k_devsw (fun m =>
    if m =? CONSOLE then Devsw (Some Consoleread) (Some Consolewrite) else k_devsw s m) s).

(** [cons.buf[i % INPUT_BUF_SIZE]] *)
Definition cons_at (c : cons) (i : Z) : Z :=
  default 0 (c_buf c !! Z.to_nat (i mod INPUT_BUF_SIZE)).

(** One pass of the outer loop of [consoleread]; the loop variables are [dst]
    and [n]. *)
Definition consoleread_body (user_dst : bool) (target : Z) (v : Z * Z) :
    M kernel (Z * Z + Z) :=
  let '(dst, n) := v in
  if 0 <? n then
    c ← gets k_cons;
    if c_r c =? c_w c then
      p ← myproc;
      k ← killed p;
      if ctrue k then mret (inr (-1)) else sleep ChanConsR
    else
      let ch := cons_at c (c_r c) in
      modify (set_cons (fun c => set_c_r (u32 (c_r c + 1)) c));;
      if ch =? C 68 then
        when (u32 n <? target) (modify (set_cons (fun c => set_c_r (u32 (c_r c - 1)) c)));;
        mret (inr (s32 (target - n)))
      else
        store_mem klocal [ch];;
        r ← either_copyout user_dst dst klocal 1;
        if r =? -1 then mret (inr (s32 (target - n)))
        else if ch =? 10 then mret (inr (s32 (target - (n - 1))))
        else mret (inl (u64 (dst + 1), n - 1))
  else mret (inr (s32 (target - n))).

Definition consoleread (user_dst : bool) (dst n : Z) : M kernel Z :=
  loop (Z.to_nat n + 1) (consoleread_body user_dst (u32 n)) (dst, n).

Definition consolewrite_body (user_src : bool) (src n : Z) (i : Z) : M kernel (Z + Z) :=
  if i <? n then
    r ← either_copyin klocal user_src (u64 (src + i)) 1;
    if r =? -1 then mret (inr i)
    else
      l ← load_mem klocal 1;
      uartputc (default 0 (head l));;
      mret (inl (i + 1))
  else mret (inr i).

Definition consolewrite (user_src : bool) (src n : Z) : M kernel Z :=
  loop (Z.to_nat n + 1) (consolewrite_body user_src src n) 0.

(** Kill line: one pass of the loop; at most the characters of the buffer are
    erased. *)
Definition kill_line_body (_ : unit) : M kernel (unit + unit) :=
  c ← gets k_cons;
  if negb (c_e c =? c_w c) && negb (cons_at c (u32 (c_e c - 1)) =? 10) then
    modify (set_cons (fun c => set_c_e (u32 (c_e c - 1)) c));;
    consputc BACKSPACE;;
    mret (inl tt)
  else mret (inr tt).

Definition consoleintr (c : Z) : M kernel unit :=
  if c =? C 80 then
    printf nl [];;
    procdump
  else if c =? C 85 then
    loop (Z.to_nat (INPUT_BUF_SIZE + 1)) kill_line_body tt
  else if (c =? C 72) || (c =? 127) then
    cn ← gets k_cons;
    when (negb (c_e cn =? c_w cn)) (
      modify (set_cons (fun c => set_c_e (u32 (c_e c - 1)) c));;
      consputc BACKSPACE)
  else
    cn ← gets k_cons;
    when (negb (c =? 0) && (u32 (c_e cn - c_r cn) <? INPUT_BUF_SIZE)) (
      let c := if c =? 13 then 10 else c in
      consputc c;;
      modify (set_cons (fun cn =>
        set_c_buf (<[Z.to_nat (c_e cn mod INPUT_BUF_SIZE) := u8 c]> (c_buf cn)) cn));;
      modify (set_cons (fun cn => set_c_e (u32 (c_e cn + 1)) cn));;
      cn ← gets k_cons;
      when ((c =? 10) || (c =? C 68) || (u32 (c_e cn - c_r cn) =? INPUT_BUF_SIZE)) (
        modify (set_cons (fun cn => set_c_w (c_e cn) cn));;
        wakeup ChanConsR)).

(** [uartintr]: the receive loop takes at most [polls] characters. *)
Definition uartintr_body (_ : unit) : M kernel (unit + unit) :=
  mis ← rd (R UART_MIS);
  if ctrue (Z.land mis UART_RXI) then
    c ← uartgetc;
    if c =? -1 then mret (inr tt)
    else consoleintr c;; mret (inl tt)
  else mret (inr tt).

Definition uartintr : M kernel unit :=
  loop polls uartintr_body tt;;
  uartstart;;
  wr (R UART_ICR) (Z.lor UART_RXI UART_TXI).

(** * The line discipline *)

(** The input buffer holds the committed characters [q], which readers may
    take, and the line [l] being edited. *)
Record cons_rep (c : cons) (q l : list Z) : Prop := {
  cr_ring : ring_rep INPUT_BUF_SIZE (2 ^ 32) (c_buf c) (c_r c) (c_e c) (q ++ l);
  cr_w : c_w c = u32 (c_r c + Z.of_nat (length q));
  cr_bytes : Forall (fun b => 0 <= b < 256) (q ++ l);
  cr_line : (10 ∉ l);
}.

(** What typing [c] does to them. *)
Definition type_char (c : Z) (v : list Z * list Z) : list Z * list Z :=
  let '(q, l) := v in
  if c =? C 80 then (q, l)
  else if c =? C 85 then (q, [])
  else if (c =? C 72) || (c =? 127) then (q, take (length l - 1) l)
  else if negb (c =? 0) && (Z.of_nat (length (q ++ l)) <? INPUT_BUF_SIZE) then
    let c := if c =? 13 then 10 else c in
    let l := l ++ [c] in
    if (c =? 10) || (c =? C 68) || (Z.of_nat (length (q ++ l)) =? INPUT_BUF_SIZE)
    then (q ++ l, []) else (q, l)
  else (q, l).

Lemma cons_size : 0 < INPUT_BUF_SIZE < 2 ^ 32 /\ (INPUT_BUF_SIZE | 2 ^ 32).
Proof. split; [done|]. by exists (2 ^ 25). Qed.

Lemma cons_edit_empty c q l : cons_rep c q l -> c_e c = c_w c <-> l = [].
Proof.
  intros H. rewrite (cr_w _ _ _ H).
  assert (E : u32 (c_r c + Z.of_nat (length q)) = c_e c <-> l = []).
  { eapply ring_empty, ring_drop; [apply cons_size..|apply H]. }
  rewrite <- E. by split.
Qed.

Lemma cons_read_empty c q l : cons_rep c q l -> c_r c = c_w c <-> q = [].
Proof.
  intros H. pose proof (cr_w _ _ _ H) as E. pose proof (rg_r _ _ _ _ _ _ (cr_ring _ _ _ H)).
  pose proof (rg_max _ _ _ _ _ _ (cr_ring _ _ _ H)) as Hm. rewrite length_app in Hm.
  rewrite <- length_zero_iff_nil. unfold INPUT_BUF_SIZE in *. split; intros; zlia.
Qed.

Lemma cons_length c q l : cons_rep c q l -> u32 (c_e c - c_r c) = Z.of_nat (length (q ++ l)).
Proof. intros H. symmetry. apply (rg_len _ _ _ _ _ _ (cr_ring _ _ _ H)). Qed.

(** The last character of the line, and the line without it. *)
Lemma cons_erase c q l ch :
  cons_rep c q (l ++ [ch]) ->
  cons_at c (u32 (c_e c - 1)) = ch /\ cons_rep (set_c_e (u32 (c_e c - 1)) c) q l.
Proof.
  intros [H1 H2 H3 H4]. rewrite app_assoc in H1, H3.
  destruct (ring_last _ _ (proj1 cons_size) (proj2 cons_size) _ _ _ _ _ H1) as [E H1'].
  split; [unfold cons_at, u32; by rewrite E|]. split; [done|done| |].
  - by apply Forall_app in H3 as [? _].
  - intros Hin. apply H4, elem_of_app. by left.
Qed.

Lemma cons_type c q l ch :
  cons_rep c q l -> Z.of_nat (length (q ++ l)) < INPUT_BUF_SIZE -> 0 <= ch < 256 ->
  ring_rep INPUT_BUF_SIZE (2 ^ 32) (<[Z.to_nat (c_e c mod INPUT_BUF_SIZE) := ch]> (c_buf c))
    (c_r c) (u32 (c_e c + 1)) (q ++ l ++ [ch]) /\ Forall (fun b => 0 <= b < 256) (q ++ l ++ [ch]).
Proof.
  intros [H1 H2 H3 H4] Hlt Hch. rewrite app_assoc. split.
  - by apply ring_push; [apply cons_size..|done|].
  - apply Forall_app_2; [done|]. by apply Forall_singleton.
Qed.

(** [s'] is [s] with another console and other device accesses and, if
    [wake], with the readers of the console woken. *)
Definition typed (s : kernel) (wake : bool) (s' : kernel) : Prop :=
  exists cn io pr, s' = set_k_cons cn (set_k_io io (set_k_procs pr s)) /\
    forall p, pr p = if wake then woken_all ChanConsR s p else k_procs s p.

Section typing.
Context {UR : UartReady}.

Lemma kill_line_ok fuel s q l :
  cons_rep (k_cons s) q l -> quiet s -> (length l < fuel)%nat ->
  wp (loop fuel kill_line_body tt) s (fun _ s' => cons_rep (k_cons s') q [] /\ typed s false s').
Proof.
  revert s l. induction fuel as [|fuel IH]; intros s l HR Hq Hf; [lia|]. simpl. apply wp_bind.
  unfold kill_line_body. apply wp_bind, wp_gets. pose proof (cons_edit_empty _ _ _ HR) as He.
  destruct (decide (l = [])) as [->|Hl].
  - rewrite (proj2 (Z.eqb_eq _ _)) by (by apply He). wp_steps. split; [done|].
    exists (k_cons s), (k_io s), (k_procs s). split; [by destruct s|done].
  - destruct (exists_last Hl) as (l' & ch & ->). destruct (cons_erase _ _ _ _ HR) as [Ec HR'].
    rewrite (proj2 (Z.eqb_neq _ _)) by (by rewrite He). rewrite Ec.
    rewrite (proj2 (Z.eqb_neq ch 10)).
    2:{ intros ->. apply (cr_line _ _ _ HR), elem_of_app. right. by left. }
    cbn [negb andb]. apply wp_bind, wp_modify, wp_bind.
    eapply wp_mono; [by apply consputc_says|]. intros [] s1 (o & io & -> & _). wp_steps.
    eapply wp_mono; [apply (IH _ l'); [exact HR'|done|rewrite length_app in Hf; simpl in Hf; lia]|].
    intros [] s2 [HR2 (cn & io2 & pr & -> & Hpr)]. split; [done|]. exists cn, io2, pr. split; done.
Qed.

Lemma consoleintr_ok c s q l :
  0 <= c < 256 -> quiet s -> cons_rep (k_cons s) q l ->
  wp (consoleintr c) s (fun _ s' => let '(q', l') := type_char c (q, l) in
    cons_rep (k_cons s') q' l' /\ typed s (negb (length q' =? length q)%nat) s').
Proof.
  intros Hc Hq HR. unfold consoleintr, type_char.
  assert (Hsame : forall cn io, typed s (negb (length q =? length q)%nat) (set_k_cons cn (set_k_io io s))).
  { intros cn io. rewrite Nat.eqb_refl. exists cn, io, (k_procs s). split; [by destruct s|done]. }
  assert (Hsame0 : typed s (negb (length q =? length q)%nat) s).
  { specialize (Hsame (k_cons s) (k_io s)). by destruct s. }
  destruct (c =? C 80).
  { apply wp_bind. eapply wp_mono; [by apply vprintf_says|]. intros [] s1 [l1 H1].
    eapply wp_mono; [apply procdump_says; by eapply prints_quiet|]. intros [] s2 [l2 H2].
    destruct (prints_app _ _ _ _ _ H1 H2) as (io & -> & _). split; [done|].
    specialize (Hsame (k_cons s) io). by destruct s. }
  destruct (c =? C 85).
  { eapply wp_mono; [apply (kill_line_ok _ _ q l); [done|done|]|].
    - pose proof (rg_max _ _ _ _ _ _ (cr_ring _ _ _ HR)) as Hm. rewrite length_app in Hm. lia.
    - intros [] s' [HR' H']. rewrite Nat.eqb_refl. done. }
  pose proof (cons_edit_empty _ _ _ HR) as He.
  destruct ((c =? C 72) || (c =? 127)).
  { apply wp_bind, wp_gets. destruct (decide (l = [])) as [->|Hl].
    - rewrite (proj2 (Z.eqb_eq _ _)) by (by apply He). by wp_steps.
    - destruct (exists_last Hl) as (l' & ch & ->). destruct (cons_erase _ _ _ _ HR) as [Ec HR'].
      rewrite (proj2 (Z.eqb_neq _ _)) by (by rewrite He). apply wp_bind, wp_modify.
      eapply wp_mono; [by apply consputc_says|]. intros [] s1 (o & io & -> & _).
      rewrite length_app, take_app_length' by (simpl; lia). split; [exact HR'|].
      eexists _, io, (k_procs s). rewrite Nat.eqb_refl. split; [by destruct s|done]. }
  apply wp_bind, wp_gets. rewrite (cons_length _ _ _ HR).
  destruct (negb (c =? 0) && _) eqn:E; [|by wp_steps].
  apply andb_true_iff in E as [_ Hlt%Z.ltb_lt].
  set (ch := if c =? 13 then 10 else c). assert (Hch : 0 <= ch < 256) by (unfold ch; destruct (c =? 13); lia).
  destruct (cons_type _ _ _ ch HR Hlt Hch) as [HG HB]. cbn [when].
  apply wp_bind. eapply wp_mono; [by apply consputc_says|]. intros [] s1 (o & io & -> & _).
  wp_steps. rewrite u8_small by (simpl; lia).
  assert (El : u32 (u32 (c_e (k_cons s) + 1) - c_r (k_cons s)) = Z.of_nat (length (q ++ l ++ [ch])))
    by (symmetry; apply (rg_len _ _ _ _ _ _ HG)).
  rewrite El. destruct ((ch =? 10) || (ch =? C 68) || _) eqn:E1; cbn [when].
  - apply wp_bind, wp_modify. eapply wp_mono; [apply wakeup_ok|]. intros [] s2 (pr & -> & Hpr). split.
    + split; simpl; [by rewrite app_nil_r| |by rewrite app_nil_r|by intros ?%elem_of_nil].
      exact (ring_w_mod _ _ _ _ _ _ HG).
    + rewrite !length_app. cbn [length]. rewrite (proj2 (Nat.eqb_neq _ _)) by lia.
      eexists _, io, pr. split; [reflexivity|]. intros p. rewrite Hpr. done.
  - apply orb_false_iff in E1 as [[E1 _]%orb_false_iff _]. apply wp_ret. split.
    + split; simpl; [done|apply HR|done|].
      intros [H|H%list_elem_of_singleton]%elem_of_app; [by apply (cr_line _ _ _ HR)|].
      apply Z.eqb_neq in E1. done.
    + rewrite Nat.eqb_refl. eexists _, io, (k_procs s). split; [by destruct s|done].
Qed.
End typing.

Fixpoint consoleintrs (cs : list Z) : M kernel unit :=
  match cs with
  | [] => mret tt
  | c :: cs' => consoleintr c;; consoleintrs cs'
  end.

(** C26: the console's interrupt handler implements the line discipline
    [type_char] on any sequence of typed characters: editing keys change only
    the line being edited, a newline, an end-of-file or a full buffer commits
    it, characters that do not fit are dropped, and committed input is never
    changed. *)
Theorem consoleintr_refines {UR : UartReady} cs s q l :
  Forall (fun c => 0 <= c < 256) cs -> quiet s -> cons_rep (k_cons s) q l ->
  wp (consoleintrs cs) s (fun _ s' =>
    let '(q', l') := foldl (fun v c => type_char c v) (q, l) cs in
    cons_rep (k_cons s') q' l' /\ q `prefix_of` q').
Proof.
  revert s q l. induction cs as [|c cs IH]; intros s q l Hcs Hq HR; cbn [consoleintrs foldl].
  { by apply wp_ret. }
  apply Forall_cons in Hcs as [Hc Hcs]. apply wp_bind.
  eapply wp_mono; [by apply consoleintr_ok|]. intros [] s1.
  assert (Hp : q `prefix_of` (type_char c (q, l)).1).
  { unfold type_char. repeat case_match; simplify_eq/=; try done; by apply prefix_app_r. }
  destruct (type_char c (q, l)) as [q1 l1] eqn:E. intros [HR1 Ht].
  eapply wp_mono; [apply (IH s1 q1 l1 Hcs); [|done]|].
  - destruct Ht as (cn & io & pr & -> & _). exact Hq.
  - intros [] s2. destruct (foldl _ (q1, l1) cs) as [q2 l2]. intros [H1 H2].
    split; [done|]. by etrans; [exact Hp|].
Qed.

(** * Reading a line *)

(** What a read of at most [n] characters takes from the committed input [q]:
    the characters, what is left, and whether it is complete; [some] tells
    whether characters have been taken already. *)
Fixpoint read_line (n : nat) (some : bool) (q : list Z) : list Z * list Z * bool :=
  match n with
  | O => ([], q, true)
  | S n' =>
      match q with
      | [] => ([], [], false)
      | c :: q' =>
          if c =? C 68 then ([], if some then q else q', true)
          else if c =? 10 then ([c], q', true)
          else let '(l, r, done) := read_line n' true q' in (c :: l, r, done)
      end
  end.

Lemma cons_take c ch q l :
  cons_rep c (ch :: q) l ->
  cons_at c (c_r c) = ch /\ cons_rep (set_c_r (u32 (c_r c + 1)) c) q l /\ 0 <= ch < 256 /\
  set_c_r (u32 (u32 (c_r c + 1) - 1)) (set_c_r (u32 (c_r c + 1)) c) = c.
Proof.
  intros [H1 H2 H3 H4]. pose proof (rg_r _ _ _ _ _ _ H1) as Hr.
  destruct (ring_pop _ _ (proj1 cons_size) (proj2 cons_size) _ _ _ _ _ H1) as [E H1'].
  apply Forall_cons in H3 as [Hch H3]. split_and!; [by unfold cons_at; rewrite E| |lia|lia|].
  - split; [done| |done|done]. simpl. rewrite H2. simpl length. zlia.
  - destruct c as [b r w e]. simpl in *. unfold set_c_r. simpl. f_equal. zlia.
Qed.

Context {UM : UserMem}.

(** One character to user memory. *)
Lemma either_copyout_char s p um dst ch Q :
  k_cur s = Some p -> um_rep (k_km s) (p_pagetable (k_procs s p)) um -> is_Some (um dst) ->
  0 <= ch < 256 ->
  (forall k, um_rep k (p_pagetable (k_procs s p)) (user_write um dst [ch]) -> Q 0 (set_k_km k s)) ->
  wp (store_mem klocal [ch];; either_copyout true dst klocal 1) s Q.
Proof.
  intros Hcur HU [b Hb] Hch HQ. destruct (um_byte _ _ _ _ _ HU Hb) as [Hd _]. unfold MAXVA in Hd.
  unfold store_mem. apply wp_bind, wp_vm, wp_modify. unfold either_copyout.
  apply wp_bind. eapply wp_myproc; [done|]. apply wp_bind, wp_gets, wp_vm.
  eapply wp_mono; [apply (um_copyout _ _ um klocal dst [ch]); [apply um_store; [done|by left]|lia|by left|by apply Forall_singleton|]|].
  { by apply load_store_bytes; [|apply Forall_singleton]. }
  intros r k [(-> & _ & H)|(-> & i & Hi & Hn & _)]; [by apply HQ|].
  simpl in Hi. assert (i = 0) as -> by lia. rewrite Z.add_0_r in Hn. congruence.
Qed.

Definition reading (s : kernel) (cn : cons) (k : kmem) : kernel := set_k_cons cn (set_k_km k s).

Lemma consoleread_loop s p line target :
  k_cur s = Some p -> p_killed (k_procs s p) = 0 ->
  forall n fuel q um dst cn k, (n < fuel)%nat -> Z.of_nat n <= target < 2 ^ 31 ->
  um_rep k (p_pagetable (k_procs s p)) um ->
  (forall i, 0 <= i < Z.of_nat n -> is_Some (um (dst + i))) -> cons_rep cn q line ->
  let '(l, rest, fin) := read_line n (Z.of_nat n <? target) q in
  wps (loop fuel (consoleread_body true target) (dst, Z.of_nat n)) (reading s cn k)
    (fun r s' => fin = true /\ r = target - Z.of_nat n + Z.of_nat (length l) /\
       exists cn' k', s' = reading s cn' k' /\ cons_rep cn' rest line /\
         um_rep k' (p_pagetable (k_procs s p)) (user_write um dst l))
    (fun ch s' => fin = false /\ ch = ChanConsR /\
       exists cn' k', s' = set_proc p (set_p_state SLEEPING) (set_proc p (set_p_chan (Some ch)) (reading s cn' k'))
         /\ cons_rep cn' rest line /\ um_rep k' (p_pagetable (k_procs s p)) (user_write um dst l)).
Proof.
  intros Hcur Hk n. induction n as [|n IH]; intros fuel q um dst cn k Hf Hn HU Hmap HR;
    (destruct fuel as [|fuel]; [lia|]); cbn [loop]; cbn [read_line].
  { apply wps_bind. unfold consoleread_body. wps_steps. split_and!; [done|rewrite s32_small; lia|].
    exists cn, k. split_and!; [done|done|by rewrite user_write_nil]. }
  pose proof (cons_read_empty _ _ _ HR) as He.
  assert (Ht : s32 (target - Z.of_nat (S n)) = target - Z.of_nat (S n)) by (apply s32_small; lia).
  destruct q as [|c q].
  { apply wps_bind. unfold consoleread_body. rewrite (proj2 (Z.ltb_lt _ _)) by lia. wps_steps.
    rewrite (proj2 (Z.eqb_eq _ _)) by (by apply He). apply wps_bind.
    eapply wps_wp, wp_myproc; [done|]. wps_steps. rewrite Hk. simpl.
    unfold sleep. apply wps_bind. eapply wps_wp, wp_myproc; [done|]. wps_steps. apply wps_sleep.
    split_and!; [done|done|]. exists cn, k. split_and!; [done|done|by rewrite user_write_nil]. }
  destruct (cons_take _ _ _ _ HR) as (Ec & HR' & Hc & Eback).
  destruct (Z.eqb_spec c (C 68)) as [->|HcD].
  { apply wps_bind. unfold consoleread_body. rewrite (proj2 (Z.ltb_lt 0 _)) by lia. wps_steps.
    rewrite (proj2 (Z.eqb_neq (c_r cn) _)) by (by rewrite He). rewrite Ec, Z.eqb_refl. wps_steps.
    rewrite (u32_small (Z.of_nat _)) by lia. unfold when.
    destruct (Z.of_nat (S n) <? target); wps_steps; (split_and!; [done|by rewrite Ht; lia|]).
    - exists cn, k. split_and!; [|done|by rewrite user_write_nil]. unfold set_cons. simpl.
      by rewrite Eback.
    - eexists _, k. split_and!; [reflexivity|exact HR'|by rewrite user_write_nil]. }
  assert (Hstep : forall Q W,
    (forall k', um_rep k' (p_pagetable (k_procs s p)) (user_write um dst [c]) ->
       wps (if c =? 10 then mret (inr (s32 (target - (Z.of_nat (S n) - 1))))
            else mret (inl (u64 (dst + 1), Z.of_nat (S n) - 1)))
         (reading s (set_c_r (u32 (c_r cn + 1)) cn) k') Q W) ->
    wps (consoleread_body true target (dst, Z.of_nat (S n))) (reading s cn k) Q W).
  { intros Q W HQ. unfold consoleread_body. rewrite (proj2 (Z.ltb_lt 0 _)) by lia. wps_steps.
    rewrite (proj2 (Z.eqb_neq (c_r cn) _)) by (by rewrite He). rewrite Ec.
    rewrite (proj2 (Z.eqb_neq c _)) by done. apply wps_bind, wps_wp, wp_modify.
    apply wps_assoc, wps_bind, wps_wp. apply (either_copyout_char _ p um); [done|exact HU| |done|].
    - rewrite <- (Z.add_0_r dst). apply Hmap. lia.
    - intros k' HU'. exact (HQ k' HU'). }
  destruct (Z.eqb_spec c 10) as [->|Hc10].
  { apply wps_bind, Hstep. intros k' HU'. wps_steps.
    split_and!; [done|rewrite s32_small; simpl; lia|]. eexists _, k'. by split_and!. }
  destruct (read_line n true q) as [[l rest] fin] eqn:El.
  apply wps_bind, Hstep. intros k' HU'. wps_steps.
  destruct (Hmap 0) as [b0 Hb0]; [lia|]. rewrite Z.add_0_r in Hb0.
  destruct (um_byte _ _ _ _ _ HU Hb0) as [Hd _]. unfold MAXVA in Hd.
  rewrite u64_small by lia. replace (Z.of_nat (S n) - 1) with (Z.of_nat n) by lia.
  assert (Happ : forall k'', um_rep k'' (p_pagetable (k_procs s p)) (user_write (user_write um dst [c]) (dst + 1) l) ->
    um_rep k'' (p_pagetable (k_procs s p)) (user_write um dst (c :: l))).
  { intros k'' H. by rewrite <- (user_write_app um dst [c] l). }
  specialize (IH fuel q (user_write um dst [c]) (dst + 1) (set_c_r (u32 (c_r cn + 1)) cn) k' ltac:(lia) ltac:(lia) HU').
  rewrite (proj2 (Z.ltb_lt (Z.of_nat n) _)), El in IH by lia.
  eapply wps_mono; [apply IH; [|exact HR']| |].
  - intros i Hi. destruct (Hmap (i + 1)) as [b Hb]; [lia|]. unfold user_write.
    replace (dst + 1 + i) with (dst + (i + 1)) by lia. by rewrite Hb.
  - intros r s' (-> & -> & cn' & k'' & -> & HR2 & HU2).
    split_and!; [done|simpl length; lia|]. exists cn', k''. split_and!; [done|done|by apply Happ].
  - intros ch s' (-> & -> & cn' & k'' & -> & HR2 & HU2).
    split_and!; [done|done|]. exists cn', k''. split_and!; [done|done|by apply Happ].
Qed.

(** C27: [consoleread] hands the user the committed input up to the end of the
    line, up to an end-of-file character, or the [n] characters asked for,
    whichever comes first, and takes exactly that from the buffer; an
    end-of-file character ends the read and is kept for the next read unless
    nothing was read.  With the input exhausted before that, the process
    sleeps, the characters so far delivered. *)
Theorem consoleread_line s p q line um dst n :
  k_cur s = Some p -> p_killed (k_procs s p) = 0 -> 0 <= n < 2 ^ 31 ->
  um_rep (k_km s) (p_pagetable (k_procs s p)) um ->
  (forall i, 0 <= i < n -> is_Some (um (dst + i))) -> cons_rep (k_cons s) q line ->
  let '(l, rest, fin) := read_line (Z.to_nat n) false q in
  wps (consoleread true dst n) s
    (fun r s' => fin = true /\ r = Z.of_nat (length l) /\ cons_rep (k_cons s') rest line /\
       um_rep (k_km s') (p_pagetable (k_procs s p)) (user_write um dst l))
    (fun ch s' => fin = false /\ ch = ChanConsR /\ cons_rep (k_cons s') rest line /\
       um_rep (k_km s') (p_pagetable (k_procs s p)) (user_write um dst l) /\
       p_state (k_procs s' p) = SLEEPING).
Proof.
  intros Hcur Hk Hn HU Hmap HR.
  pose proof (consoleread_loop s p line n Hcur Hk (Z.to_nat n) (Z.to_nat n + 1) q um dst (k_cons s) (k_km s)) as H.
  rewrite Z2Nat.id, Z.ltb_irrefl in H by lia.
  destruct (read_line (Z.to_nat n) false q) as [[l rest] fin].
  unfold consoleread. rewrite u32_small by lia. replace s with (reading s (k_cons s) (k_km s)) at 1 by (by destruct s).
  eapply wps_mono; [apply H; [lia|lia|done|done|done]| |].
  - intros r s' (-> & -> & cn' & k' & -> & HR' & HU'). by split_and!; [|lia|..].
  - intros ch s' (-> & -> & cn' & k' & -> & HR' & HU'). split_and!; [done|done|done|done|].
    simpl. unfold upd. by rewrite !decide_True.
Qed.
End console.

#[local] Existing Instance kernel_ex.
#[local] Existing Instance platform_ex.

Lemma cons0_rep : cons_rep (k_cons kernel0) [] [].
Proof. split; [by split|done|done|by intros ?%elem_of_nil]. Qed.

(** Typing [ab], erasing the [b], then [c] and return: the line [ac]. *)
Lemma consoleintr_refines_witness :
  wp (consoleintrs [97; 98; 127; 99; 13]) kernel0 (fun _ s' => cons_rep (k_cons s') [97; 99; 10] []).
Proof.
  eapply wp_mono;
    [apply (consoleintr_refines (UR := platform_ex_ready) [97; 98; 127; 99; 13] kernel0 [] [])|].
  - repeat (apply Forall_cons; split; [lia|]). apply Forall_nil. done.
  - by left.
  - apply cons0_rep.
  - intros [] s' H. vm_compute in H |- *. apply H.
Defined.

Lemma consoleread_line_witness :
  wps (consoleread true 100 5) (set_k_cons (Cons ([104; 105; 10; 120] ++ replicate 124 0) 0 4 4) kernel0)
    (fun r s' => r = 3 /\ cons_rep (k_cons s') [120] []) (fun _ _ => False).
Proof.
  eapply wps_mono; [apply (consoleread_line _ 0 [104; 105; 10; 120] [] (ubyte (km_mem mapped_ex) root_ex) 100 5)| |].
  - done.
  - done.
  - lia.
  - apply mapped_ex_rep.
  - intros i Hi. by rewrite mapped_ex_byte by lia.
  - split; [split; try done|done|by repeat constructor|by intros ?%elem_of_nil].
    intros i b Hb. by destruct i as [|[|[|[|]]]]; simplify_eq/=.
  - intros r s' (_ & -> & H & _). done.
  - by intros ch s' (H & _).
Defined.
