(* ===== verification/Fs.v ===== *)
(** The file system, [kernel/fs.c]: the free block bitmap, inodes and their
    in-memory table, inode contents, directories and path names, over the
    buffer cache and the log.

    A pointer to an in-memory inode is its index in [itable], [None] is NULL.
    Paths are the list of their characters before the NUL; a name is an array
    of [DIRSIZ] bytes.  A buffer's bytes are kept in its record; when they are
    the source or the target of a user copy, they are also placed at the
    address of the buffer in kernel memory.  [itable.lock] is elided: each
    section under it is one step. *)

From stdpp Require Import gmap.
From S2P Require Import Prelude CString Layout Kalloc Vm Sleeplock Bio Log Kernel Sched Uart Printf.

(** * Constants and on-disk structures *)

Definition ROOTINO : Z := 1.
Definition FSMAGIC : Z := 0x10203040.
Definition NDIRECT : Z := 12.
Definition NINDIRECT : Z := BSIZE / 4.
Definition MAXFILE : Z := NDIRECT + NINDIRECT.
Definition IPB : Z := BSIZE / 64.
Definition BPB : Z := BSIZE * 8.
Definition DIRSIZ : Z := 14.
Definition NINODE : nat := 50.
Definition T_DIR : Z := 1.
Definition T_FILE : Z := 2.
Definition T_DEVICE : Z := 3.

Definition IBLOCK (i : Z) (sb : superblock) : Z := u32 (i / IPB + sb_inodestart sb).
Definition BBLOCK (b : Z) (sb : superblock) : Z := u32 (b / BPB + sb_bmapstart sb).

Definition get16 (l : list Z) (off : nat) : Z := le_combine (take 2 (drop off l)).
Definition put16 (l : list Z) (off : nat) (v : Z) : list Z :=
  take off l ++ le_split 2 v ++ drop (off + 2) l.

Fixpoint get_words (l : list Z) (off : nat) (n : nat) : list Z :=
  match n with
  | O => []
  | S n' => get32 l off :: get_words l (off + 4) n'
  end.

Fixpoint put_words (l : list Z) (off : nat) (ws : list Z) : list Z :=
  match ws with
  | [] => l
  | w :: ws' => put_words (put32 l off w) (off + 4) ws'
  end.

(** The offset in its block of the disk inode [inum]. *)
Definition dip (inum : Z) : nat := Z.to_nat (inum mod IPB * 64).

Definition get_dinode (l : list Z) (o : nat) : dinode :=
  Dinode (s16 (get16 l o)) (s16 (get16 l (o + 2))) (s16 (get16 l (o + 4)))
    (s16 (get16 l (o + 6))) (get32 l (o + 8)) (get_words l (o + 12) 13).

Definition put_dinode (l : list Z) (o : nat) (d : dinode) : list Z :=
  put_words (put32 (put16 (put16 (put16 (put16 l o (d_type d)) (o + 2) (d_major d))
    (o + 4) (d_minor d)) (o + 6) (d_nlink d)) (o + 8) (d_size d)) (o + 12) (d_addrs d).

Definition zero_dinode : dinode := Dinode 0 0 0 0 0 (replicate 13 0).

(** An assignment to a field of the copied disk inode. *)
Definition set_d (f : dinode -> dinode) (i : inode) : inode := set_i_d (f (i_d i)) i.
Definition set_addr (k v : Z) (d : dinode) : dinode :=
  set_d_addrs (<[Z.to_nat k := v]> (d_addrs d)) d.
Definition get_addr (k : Z) (d : dinode) : Z := default 0 (d_addrs d !! Z.to_nat k).

Section fs_ops.
Context `{KE : KernelEnd, PL : Platform}.

Definition the_inode (i : nat) : M kernel inode := gets (fun s => k_itable s i).
Definition the_sb : M kernel superblock := gets k_sb.
Definition bdata (b : nat) : M kernel (list Z) := fl (buf_data b).
Definition bput (b : nat) (d : list Z) : M kernel unit := fb (put_data b d).

(** [brelse], whose [releasesleep] wakes the buffer's waiters. *)
Definition brelse_buf (b : nat) : M kernel unit :=
  fb (brelse b);;
  wakeup (ChanSleeplockBuf b).

(** * The super block *)

Definition readsb (dv : Z) : M kernel unit :=
  bp ← fb (bread dv 1);
  d ← bdata bp;
  modify (set_k_sb (Superblock (get32 d 0) (get32 d 4) (get32 d 8) (get32 d 12)
    (get32 d 16) (get32 d 20) (get32 d 24) (get32 d 28)));;
  brelse_buf bp.

Definition fsinit (dv : Z) : M kernel unit :=
  readsb dv;;
  sb ← the_sb;
  if negb (sb_magic sb =? FSMAGIC) then panic "invalid file system"
  else fl (initlog dv (sb_logstart sb) (sb_nlog sb)).

(** * Blocks *)

Definition bzero (dv bno : Z) : M kernel unit :=
  bp ← fb (bread dv (u32 bno));
  bput bp (replicate (Z.to_nat BSIZE) 0);;
  fl (log_write bp);;
  brelse_buf bp.

Definition byte_at (l : list Z) (i : Z) : Z := default 0 (l !! Z.to_nat i).

(** The inner loop of [balloc]: the first clear bit, if any, from [bi] on. *)
Fixpoint balloc_scan (n : nat) (d : list Z) (size b bi : Z) : option Z :=
  match n with
  | O => None
  | S n' =>
      if (bi <? BPB) && (b + bi <? size) then
        let m := Z.shiftl 1 (bi mod 8) in
        if Z.land (byte_at d (bi / 8)) m =? 0 then Some bi
        else balloc_scan n' d size b (bi + 1)
      else None
  end.

Definition balloc_body (dv : Z) (b : Z) : M kernel (Z + Z) :=
  sb ← the_sb;
  if b <? sb_size sb then
    bp ← fb (bread dv (BBLOCK b sb));
    d ← bdata bp;
    match balloc_scan (Z.to_nat BPB) d (sb_size sb) b 0 with
    | Some bi =>
        let m := Z.shiftl 1 (bi mod 8) in
        bput bp (<[Z.to_nat (bi / 8) := Z.lor (byte_at d (bi / 8)) m]> d);;
        fl (log_write bp);;
        brelse_buf bp;;
        bzero dv (b + bi);;
        mret (inr (b + bi))
    | None =>
        brelse_buf bp;;
        mret (inl (b + BPB))
    end
  else
    printf (chars "balloc: out of blocks" ++ nl) [];;
    mret (inr 0).

Definition balloc (dv : Z) : M kernel Z :=
  sb ← the_sb;
  loop (Z.to_nat (sb_size sb / BPB + 2)) (balloc_body dv) 0.

Definition bfree (dv b : Z) : M kernel unit :=
  sb ← the_sb;
  bp ← fb (bread dv (BBLOCK b sb));
  d ← bdata bp;
  let bi := b mod BPB in
  let m := Z.shiftl 1 (bi mod 8) in
  if Z.land (byte_at d (bi / 8)) m =? 0 then panic "freeing free block"
  else
    bput bp (<[Z.to_nat (bi / 8) := Z.land (byte_at d (bi / 8)) (Z.lnot m)]> d);;
    fl (log_write bp);;
    brelse_buf bp.

(** * Inodes *)

Fixpoint iinit_loop (n : nat) (i : nat) : M kernel unit :=
  match n with
  | O => mret tt
  | S n' => modify (set_inode i (set_i_lock initsleeplock));; iinit_loop n' (S i)
  end.

Definition iinit : M kernel unit := iinit_loop NINODE 0.

(** The scan of [iget]: a referenced entry for the inode, else the first
    empty slot. *)
Fixpoint iget_scan (n : nat) (tab : nat -> inode) (dv inum : Z) (i : nat) (empty : option nat) :
    option nat * option nat :=
  match n with
  | O => (None, empty)
  | S n' =>
      let ip := tab i in
      if (0 <? i_ref ip) && (i_dev ip =? dv) && (i_inum ip =? inum) then (Some i, empty)
      else
        let empty' := match empty with
                      | Some _ => empty
                      | None => if i_ref ip =? 0 then Some i else None
                      end in
        iget_scan n' tab dv inum (S i) empty'
  end.

Definition iget (dv inum : Z) : M kernel nat :=
  tab ← gets k_itable;
  match iget_scan NINODE tab dv inum 0 None with
  | (Some i, _) => modify (set_inode i (fun ip => set_i_ref (i_ref ip + 1) ip));; mret i
  | (None, None) => panic "iget: no inodes"
  | (None, Some i) =>
      modify (set_inode i (set_i_dev dv));;
      modify (set_inode i (set_i_inum inum));;
      modify (set_inode i (set_i_ref 1));;
      modify (set_inode i (set_i_valid 0));;
      mret i
  end.

Definition ialloc_body (dv type : Z) (inum : Z) : M kernel (Z + option nat) :=
  sb ← the_sb;
  if inum <? sb_ninodes sb then
    bp ← fb (bread dv (IBLOCK inum sb));
    d ← bdata bp;
    if d_type (get_dinode d (dip inum)) =? 0 then
      bput bp (put_dinode d (dip inum) (set_d_type type zero_dinode));;
      fl (log_write bp);;
      brelse_buf bp;;
      ip ← iget dv inum;
      mret (inr (Some ip))
    else
      brelse_buf bp;;
      mret (inl (inum + 1))
  else
    printf (chars "ialloc: no inodes" ++ nl) [];;
    mret (inr None).

Definition ialloc (dv type : Z) : M kernel (option nat) :=
  sb ← the_sb;
  loop (Z.to_nat (sb_ninodes sb + 1)) (ialloc_body dv type) 1.

Definition iupdate (ip : nat) : M kernel unit :=
  i ← the_inode ip;
  sb ← the_sb;
  bp ← fb (bread (i_dev i) (IBLOCK (i_inum i) sb));
  d ← bdata bp;
  bput bp (put_dinode d (dip (i_inum i)) (i_d i));;
  fl (log_write bp);;
  brelse_buf bp.

Definition idup (ip : nat) : M kernel nat :=
  modify (set_inode ip (fun i => set_i_ref (i_ref i + 1) i));;
  mret ip.

Definition acquiresleep_inode (ip : nat) : M kernel unit :=
  r ← gets (fun s => acquiresleep (curpid (ls_bio (k_ls s))) (i_lock (k_itable s ip)));
  match r with
  | None => sleep (ChanSleeplockInode ip)
  | Some lk => modify (set_inode ip (set_i_lock lk))
  end.

Definition releasesleep_inode (ip : nat) : M kernel unit :=
  modify (set_inode ip (fun i => set_i_lock (releasesleep (i_lock i)) i));;
  wakeup (ChanSleeplockInode ip).

Definition ilock (ip : option nat) : M kernel unit :=
  match ip with
  | None => panic "ilock"
  | Some ip =>
      i ← the_inode ip;
      if i_ref i <? 1 then panic "ilock"
      else
        acquiresleep_inode ip;;
        i ← the_inode ip;
        when (i_valid i =? 0) (
          sb ← the_sb;
          bp ← fb (bread (i_dev i) (IBLOCK (i_inum i) sb));
          d ← bdata bp;
          modify (set_inode ip (set_d (fun _ => get_dinode d (dip (i_inum i)))));;
          brelse_buf bp;;
          modify (set_inode ip (set_i_valid 1));;
          i ← the_inode ip;
          when (d_type (i_d i) =? 0) (panic "ilock: no type"))
  end.

Definition iunlock (ip : option nat) : M kernel unit :=
  match ip with
  | None => panic "iunlock"
  | Some ip =>
      h ← gets (fun s => holdingsleep (curpid (ls_bio (k_ls s))) (i_lock (k_itable s ip)));
      i ← the_inode ip;
      if negb h || (i_ref i <? 1) then panic "iunlock"
      else releasesleep_inode ip
  end.

(** * Inode content *)

Definition bmap (ip : nat) (bn : Z) : M kernel Z :=
  i ← the_inode ip;
  if bn <? NDIRECT then
    let addr := get_addr bn (i_d i) in
    if addr =? 0 then
      addr ← balloc (i_dev i);
      if addr =? 0 then mret 0
      else modify (set_inode ip (set_d (set_addr bn addr)));; mret addr
    else mret addr
  else
    let bn := bn - NDIRECT in
    if bn <? NINDIRECT then
      let addr := get_addr NDIRECT (i_d i) in
      r ← (if addr =? 0 then
             addr ← balloc (i_dev i);
             if addr =? 0 then mret None
             else modify (set_inode ip (set_d (set_addr NDIRECT addr)));; mret (Some addr)
           else mret (Some addr));
      match r with
      | None => mret 0
      | Some addr =>
          bp ← fb (bread (i_dev i) addr);
          a ← bdata bp;
          let addr := get32 a (Z.to_nat (4 * bn)) in
          addr ← (if addr =? 0 then
                    addr ← balloc (i_dev i);
                    when (ctrue addr) (
                      a ← bdata bp;
                      bput bp (put32 a (Z.to_nat (4 * bn)) addr);;
                      fl (log_write bp));;
                    mret addr
                  else mret addr);
          brelse_buf bp;;
          mret addr
      end
    else panic "bmap: out of range".

Fixpoint itrunc_direct (n : nat) (ip : nat) (k : Z) : M kernel unit :=
  match n with
  | O => mret tt
  | S n' =>
      i ← the_inode ip;
      when (ctrue (get_addr k (i_d i))) (
        bfree (i_dev i) (get_addr k (i_d i));;
        modify (set_inode ip (set_d (set_addr k 0))));;
      itrunc_direct n' ip (k + 1)
  end.

Fixpoint itrunc_indirect (n : nat) (dv : Z) (bp : nat) (j : Z) : M kernel unit :=
  match n with
  | O => mret tt
  | S n' =>
      a ← bdata bp;
      let w := get32 a (Z.to_nat (4 * j)) in
      when (ctrue w) (bfree dv w);;
      itrunc_indirect n' dv bp (j + 1)
  end.

Definition itrunc (ip : nat) : M kernel unit :=
  itrunc_direct (Z.to_nat NDIRECT) ip 0;;
  i ← the_inode ip;
  when (ctrue (get_addr NDIRECT (i_d i))) (
    bp ← fb (bread (i_dev i) (get_addr NDIRECT (i_d i)));
    itrunc_indirect (Z.to_nat NINDIRECT) (i_dev i) bp 0;;
    brelse_buf bp;;
    bfree (i_dev i) (get_addr NDIRECT (i_d i));;
    modify (set_inode ip (set_d (set_addr NDIRECT 0))));;
  modify (set_inode ip (set_d (set_d_size 0)));;
  iupdate ip.

Definition iput (ip : nat) : M kernel unit :=
  i ← the_inode ip;
  when ((i_ref i =? 1) && ctrue (i_valid i) && (d_nlink (i_d i) =? 0)) (
    acquiresleep_inode ip;;
    itrunc ip;;
    modify (set_inode ip (set_d (set_d_type 0)));;
    iupdate ip;;
    modify (set_inode ip (set_i_valid 0));;
    releasesleep_inode ip);;
  modify (set_inode ip (fun i => set_i_ref (i_ref i - 1) i)).

Definition iunlockput (ip : nat) : M kernel unit :=
  iunlock (Some ip);; iput ip.

Record stat : Type := Stat {
  st_dev : Z; st_ino : Z; st_type : Z; st_nlink : Z; st_size : Z;
}.

Definition stati (ip : nat) : M kernel stat :=
  i ← the_inode ip;
  mret (Stat (s32 (i_dev i)) (i_inum i) (d_type (i_d i)) (d_nlink (i_d i)) (d_size (i_d i))).

(** * Reading and writing *)

(** [either_copyout] from the data of a buffer, [either_copyin] into it: the
    data is at the buffer's address in kernel memory. *)
Definition copyout_buf (user_dst : bool) (dst : Z) (bp : nat) (off len : Z) : M kernel Z :=
  d ← bdata bp;
  store_mem (bufaddr bp) d;;
  either_copyout user_dst dst (bufaddr bp + off) len.

Definition copyin_buf (bp : nat) (off : Z) (user_src : bool) (src len : Z) : M kernel Z :=
  d ← bdata bp;
  store_mem (bufaddr bp) d;;
  r ← either_copyin (bufaddr bp + off) user_src src len;
  d' ← load_mem (bufaddr bp) (Z.to_nat BSIZE);
  bput bp d';;
  mret r.

(** One pass of the loop of [readi]; the loop variables are [tot], [off] and
    [dst]. *)
Definition readi_body (ip : nat) (user_dst : bool) (n : Z) (v : Z * Z * Z) :
    M kernel (Z * Z * Z + Z) :=
  let '(tot, off, dst) := v in
  if tot <? n then
    addr ← bmap ip (off / BSIZE);
    if addr =? 0 then mret (inr tot)
    else
      i ← the_inode ip;
      bp ← fb (bread (i_dev i) addr);
      let m := Z.min (n - tot) (BSIZE - off mod BSIZE) in
      r ← copyout_buf user_dst dst bp (off mod BSIZE) m;
      if r =? -1 then
        brelse_buf bp;;
        mret (inr (-1))
      else
        brelse_buf bp;;
        mret (inl (u32 (tot + m), u32 (off + m), u64 (dst + m)))
  else mret (inr tot).

Definition readi (ip : nat) (user_dst : bool) (dst off n : Z) : M kernel Z :=
  i ← the_inode ip;
  let size := d_size (i_d i) in
  if (size <? off) || (u32 (off + n) <? off) then mret 0
  else
    let n := if size <? u32 (off + n) then size - off else n in
    tot ← loop (Z.to_nat (n / BSIZE + 3)) (readi_body ip user_dst n) (0, off, dst);
    mret (s32 tot).

(** One pass of the loop of [writei]; it ends with [tot] and [off]. *)
Definition writei_body (ip : nat) (user_src : bool) (n : Z) (v : Z * Z * Z) :
    M kernel (Z * Z * Z + Z * Z) :=
  let '(tot, off, src) := v in
  if tot <? n then
    addr ← bmap ip (off / BSIZE);
    if addr =? 0 then mret (inr (tot, off))
    else
      i ← the_inode ip;
      bp ← fb (bread (i_dev i) addr);
      let m := Z.min (n - tot) (BSIZE - off mod BSIZE) in
      r ← copyin_buf bp (off mod BSIZE) user_src src m;
      if r =? -1 then
        brelse_buf bp;;
        mret (inr (tot, off))
      else
        fl (log_write bp);;
        brelse_buf bp;;
        mret (inl (u32 (tot + m), u32 (off + m), u64 (src + m)))
  else mret (inr (tot, off)).

Definition writei (ip : nat) (user_src : bool) (src off n : Z) : M kernel Z :=
  i ← the_inode ip;
  let size := d_size (i_d i) in
  if (size <? off) || (u32 (off + n) <? off) then mret (-1)
  else if MAXFILE * BSIZE <? u32 (off + n) then mret (-1)
  else
    '(tot, off) ← loop (Z.to_nat (n / BSIZE + 3)) (writei_body ip user_src n) (0, off, src);
    i ← the_inode ip;
    when (d_size (i_d i) <? off) (modify (set_inode ip (set_d (set_d_size off))));;
    iupdate ip;;
    mret (s32 tot).

(** * Directories *)

(** [struct dirent]: the inode number and the name, 16 bytes. *)
Definition DIRENT : Z := 16.
Definition de_inum (de : list Z) : Z := get16 de 0.
Definition de_name (de : list Z) : list Z := drop 2 de.

Definition namecmp (s t : list Z) : Z := strncmp (arr s) (arr t) DIRSIZ.

(** [strncpy(de.name, name, DIRSIZ)] *)
Definition strncpy_name (name : list Z) : list Z :=
  load_bytes (strncpy (fun _ => 0) 0 (arr name) DIRSIZ) 0 (Z.to_nat DIRSIZ).

(** Read the directory entry at [off] into the local [de]. *)
Definition read_dirent (dp : nat) (off : Z) (msg : string) : M kernel (list Z) :=
  r ← readi dp false klocal off DIRENT;
  if negb (r =? DIRENT) then panic msg
  else load_mem klocal (Z.to_nat DIRENT).

Definition dirlookup_body (dp : nat) (name : list Z) (off : Z) :
    M kernel (Z + option (nat * Z)) :=
  i ← the_inode dp;
  if off <? d_size (i_d i) then
    de ← read_dirent dp off "dirlookup read";
    if de_inum de =? 0 then mret (inl (u32 (off + DIRENT)))
    else if namecmp name (de_name de) =? 0 then
      ip ← iget (i_dev i) (de_inum de);
      mret (inr (Some (ip, off)))
    else mret (inl (u32 (off + DIRENT)))
  else mret (inr None).

(** The inode and the offset of the entry, the [poff] of the source. *)
Definition dirlookup (dp : nat) (name : list Z) : M kernel (option (nat * Z)) :=
  i ← the_inode dp;
  if negb (d_type (i_d i) =? T_DIR) then panic "dirlookup not DIR"
  else loop (Z.to_nat (d_size (i_d i) / DIRENT + 2)) (dirlookup_body dp name) 0.

(** The search of [dirlink] for an empty entry. *)
Definition dirlink_body (dp : nat) (off : Z) : M kernel (Z + Z) :=
  i ← the_inode dp;
  if off <? d_size (i_d i) then
    de ← read_dirent dp off "dirlink read";
    if de_inum de =? 0 then mret (inr off)
    else mret (inl (off + DIRENT))
  else mret (inr off).

Definition dirlink (dp : nat) (name : list Z) (inum : Z) : M kernel Z :=
  found ← dirlookup dp name;
  match found with
  | Some (ip, _) => iput ip;; mret (-1)
  | None =>
      i ← the_inode dp;
      off ← loop (Z.to_nat (d_size (i_d i) / DIRENT + 2)) (dirlink_body dp) 0;
      store_mem klocal (le_split 2 inum ++ strncpy_name name);;
      r ← writei dp false klocal (u32 off) DIRENT;
      if negb (r =? DIRENT) then mret (-1) else mret 0
  end.

(** * Paths *)

Definition ch_slash : Z := 47.

Fixpoint skip_slashes (path : list Z) : list Z :=
  match path with
  | c :: path' => if c =? ch_slash then skip_slashes path' else path
  | [] => []
  end.

(** The element at the front of [path] and what follows it. *)
Fixpoint take_elem (path : list Z) : list Z * list Z :=
  match path with
  | c :: path' =>
      if c =? ch_slash then ([], path)
      else let '(e, rest) := take_elem path' in (c :: e, rest)
  | [] => ([], [])
  end.

(** [memmove(name, s, DIRSIZ)], or the element and a NUL; the rest of the
    array keeps its old bytes. *)
Definition set_name (name elem : list Z) : list Z :=
  if DIRSIZ <=? Z.of_nat (length elem) then take (Z.to_nat DIRSIZ) elem
  else elem ++ 0 :: drop (length elem + 1) name.

Definition skipelem (path name : list Z) : option (list Z * list Z) :=
  match skip_slashes path with
  | [] => None
  | path =>
      let '(elem, rest) := take_elem path in
      Some (skip_slashes rest, set_name name elem)
  end.

(** One pass of the loop of [namex]; the loop variables are [ip], [path] and
    [name]. *)
Definition namex_body (parent : bool) (v : nat * list Z * list Z) :
    M kernel (nat * list Z * list Z + option nat * list Z) :=
  let '(ip, path, name) := v in
  match skipelem path name with
  | None =>
      if parent then iput ip;; mret (inr (None, name))
      else mret (inr (Some ip, name))
  | Some (path, name) =>
      ilock (Some ip);;
      i ← the_inode ip;
      if negb (d_type (i_d i) =? T_DIR) then
        iunlockput ip;;
        mret (inr (None, name))
      else if parent && bool_decide (path = []) then
        iunlock (Some ip);;
        mret (inr (Some ip, name))
      else
        next ← dirlookup ip name;
        match next with
        | None => iunlockput ip;; mret (inr (None, name))
        | Some (next, _) => iunlockput ip;; mret (inl (next, path, name))
        end
  end.

(** The inode, if any, and the name array. *)
Definition namex (path : list Z) (parent : bool) (name : list Z) :
    M kernel (option nat * list Z) :=
  ip ← (if bool_decide (head path = Some ch_slash) then iget ROOTDEV ROOTINO
        else
          p ← myproc;
          q ← the_proc p;
          match p_cwd q with
          | Some cwd => idup cwd
          | None => undefined "cwd"
          end);
  loop (length path + 1) (namex_body parent) (ip, path, name).

(** The array [name] is not initialised. *)
Definition namei (path : list Z) : M kernel (option nat) :=
  name ← load_mem klocal (Z.to_nat DIRSIZ);
  '(ip, _) ← namex path false name;
  mret ip.

Definition nameiparent (path name : list Z) : M kernel (option nat * list Z) :=
  namex path true name.
End fs_ops.
