(* ===== verification/FsPath.v ===== *)
(** Path names: [skipelem] of [kernel/fs.c] takes a path apart into its
    elements. *)

From S2P Require Import Prelude CString Layout Kalloc Vm Sleeplock Bio Log Kernel Sched Uart Printf Fs.

(** The non-empty pieces of a path between slashes; [cur] is the piece read
    so far. *)
Fixpoint elems_from (cur path : list Z) : list (list Z) :=
  match path with
  | [] => if decide (cur = []) then [] else [cur]
  | c :: path' =>
      if c =? ch_slash then
        if decide (cur = []) then elems_from [] path' else cur :: elems_from [] path'
      else elems_from (cur ++ [c]) path'
  end.

Definition elems (path : list Z) : list (list Z) := elems_from [] path.

Lemma elems_skip_slashes path : elems (skip_slashes path) = elems path.
Proof.
  induction path as [|c path IH]; [done|]. cbn [skip_slashes]. unfold elems in *.
  destruct (Z.eqb_spec c ch_slash) as [->|Hne]; [|done]. simpl. by rewrite IH.
Qed.

Lemma skip_slashes_head path : head (skip_slashes path) <> Some ch_slash.
Proof.
  induction path as [|c path IH]; [done|]. simpl. destruct (Z.eqb_spec c ch_slash); [done|].
  simpl. congruence.
Qed.

Lemma skip_slashes_suffix path x : x ∈ skip_slashes path -> x ∈ path.
Proof.
  induction path as [|c path IH]; [done|]. simpl.
  destruct (c =? ch_slash); [right; auto|done].
Qed.

Lemma take_elem_app path : (take_elem path).1 ++ (take_elem path).2 = path.
Proof.
  induction path as [|c path IH]; [done|]. simpl. destruct (c =? ch_slash); [done|].
  destruct (take_elem path) as [e r]. simpl in *. by rewrite IH.
Qed.

Lemma elems_take_elem cur path :
  cur ++ (take_elem path).1 <> [] ->
  elems_from cur path = (cur ++ (take_elem path).1) :: elems (take_elem path).2.
Proof.
  revert cur. induction path as [|c path IH]; intros cur; simpl.
  - rewrite app_nil_r. intros. by rewrite decide_False.
  - destruct (Z.eqb_spec c ch_slash) as [->|Hne].
    + simpl. rewrite app_nil_r. intros. rewrite decide_False by done.
      done.
    + specialize (IH (cur ++ [c])). destruct (take_elem path) as [e r]. simpl in *.
      intros _. rewrite IH by (by destruct cur). by rewrite <- app_assoc.
Qed.

(** The name in an array of [DIRSIZ] bytes. *)
Definition name_of (name : list Z) : list Z := c_string (take (Z.to_nat DIRSIZ) name).

Lemma c_string_no_nul l : (0 ∉ l) -> c_string l = l.
Proof.
  induction l as [|c l IH]; [done|]. intros [Hc Hl]%not_elem_of_cons. simpl.
  destruct (Z.eqb_spec c 0); [congruence|]. by rewrite IH.
Qed.

Lemma c_string_nul l l' : (0 ∉ l) -> c_string (l ++ 0 :: l') = l.
Proof.
  induction l as [|c l IH]; [done|]. intros [Hc Hl]%not_elem_of_cons. simpl.
  destruct (Z.eqb_spec c 0); [congruence|]. by rewrite IH.
Qed.

Lemma set_name_of name e :
  (0 ∉ e) -> length name = Z.to_nat DIRSIZ ->
  name_of (set_name name e) = take (Z.to_nat DIRSIZ) e /\
  length (set_name name e) = Z.to_nat DIRSIZ.
Proof.
  intros He Hn. unfold set_name, name_of. destruct (Z.leb_spec DIRSIZ (Z.of_nat (length e))).
  - rewrite take_take, Nat.min_id, length_take. split; [|lia].
    apply c_string_no_nul. intros Hin. apply He. by eapply subseteq_take.
  - split.
    + rewrite take_ge by (rewrite length_app; simpl; rewrite length_drop; lia).
      rewrite c_string_nul by done. by rewrite take_ge by lia.
    + rewrite length_app. simpl. rewrite length_drop. lia.
Qed.

(** [skipelem] takes off the first non-empty element of a path: it returns
    NULL exactly when the path has no element, and otherwise the rest, which
    holds the remaining elements and starts without a slash, with the
    element's first [DIRSIZ] characters in the name array. *)
Theorem skipelem_first_elem path name :
  (0 ∉ path) -> length name = Z.to_nat DIRSIZ ->
  match skipelem path name with
  | None => elems path = []
  | Some (rest, name') => exists e,
      elems path = e :: elems rest /\ e <> [] /\ head rest <> Some ch_slash /\
      name_of name' = take (Z.to_nat DIRSIZ) e /\ length name' = Z.to_nat DIRSIZ
  end.
Proof.
  intros H0 Hn. unfold skipelem. rewrite <- (elems_skip_slashes path).
  pose proof (skip_slashes_head path) as Hh.
  assert (Hs : (0 ∉ skip_slashes path)) by (intros H; by apply H0, skip_slashes_suffix).
  destruct (skip_slashes path) as [|c p]; [done|].
  assert (He : (take_elem (c :: p)).1 <> []).
  { simpl. destruct (Z.eqb_spec c ch_slash) as [->|]; [done|]. by destruct (take_elem p). }
  pose proof (elems_take_elem [] (c :: p) He) as E. pose proof (take_elem_app (c :: p)) as Ha.
  change (elems_from [] (c :: p)) with (elems (c :: p)) in E.
  destruct (take_elem (c :: p)) as [e r]. cbn [fst snd app] in E, Ha, He. rewrite E. exists e.
  destruct (set_name_of name e) as [E1 E2]; [|done|].
  { intros H. apply Hs. rewrite <- Ha. apply elem_of_app. by left. }
  split_and!; [|done|apply skip_slashes_head|done|done].
  by rewrite elems_skip_slashes.
Qed.

Lemma skipelem_first_elem_witness :
  exists e, elems (chars "//usr/bin") = e :: elems (chars "bin") /\ name_of (e ++ replicate 11 0) = e.
Proof.
  pose proof (skipelem_first_elem (chars "//usr/bin") (replicate 14 0)) as H.
  simpl in H. destruct H as (e & E & _ & _ & _); [|done|].
  - intros H. by repeat (apply elem_of_cons in H as [H|H]; [done|]); apply elem_of_nil in H.
  - exists e. split; [exact E|]. vm_compute in E. injection E as <-. by vm_compute.
Defined.
