(* ===== verification/FsTx.v ===== *)
(** A file system operation between [begin_op] and [end_op], as the code of
    [kernel/fs.c] sees it: every block has one current content, which [bread]
    shows and [log_write] records.

    [op s v h P U] is that view: [v] the contents, [h] the buffers held, [P]
    the blocks of the transaction, [U] the blocks changed but not yet logged.
    The rules below are all the file system's proofs use of the buffer cache
    and the log. *)

From stdpp Require Import gmap.
From S2P Require Import Prelude CString Layout Kalloc Vm Sleeplock Bio Log LogSafe Kernel Sched Uart Printf Fs.

(** * Blocks *)

Definition is_byte (b : Z) : Prop := 0 <= b < 256.

Definition block_ok (d : list Z) : Prop :=
  length d = Z.to_nat BSIZE /\ Forall is_byte d.

(** Blocks that have a home outside the log. *)
Definition home (sb : superblock) (n : Z) : Prop :=
  0 <= n < 2 ^ 31 /\ outside_log (sb_logstart sb) n.

(** * What an operation may change besides the blocks *)

Section tx.
Context `{KE : KernelEnd, PL : Platform}.

(** Other processes that slept may have been woken. *)
Definition roused (s : kernel) (pr : nat -> proc) : Prop :=
  forall p, pr p = k_procs s p \/
    (k_cur s <> Some p /\ p_state (k_procs s p) = SLEEPING /\
     pr p = set_p_state RUNNABLE (k_procs s p)).

(** Only the log and the cache, the inode table, the memory, the processes'
    states and the output differ. *)
Definition fs_frame (s s' : kernel) : Prop :=
  exists ls t k pr io, s' = set_k_io io (set_k_procs pr (set_k_km k (set_k_itable t (set_k_ls ls s)))) /\
    roused s pr.

(** The inode table and the memory are the same, too. *)
Definition keeps (s s' : kernel) : Prop :=
  fs_frame s s' /\ k_itable s' = k_itable s /\ k_km s' = k_km s.

#[export] Instance fs_frame_pre : PreOrder fs_frame.
Proof.
  split.
  - intros s. exists (k_ls s), (k_itable s), (k_km s), (k_procs s), (k_io s). split; [by destruct s|].
    intros p. by left.
  - intros s1 s2 s3 (l1 & t1 & k1 & p1 & i1 & -> & H1) (l2 & t2 & k2 & p2 & i2 & -> & H2).
    exists l2, t2, k2, p2, i2. split; [done|]. intros p. specialize (H1 p). specialize (H2 p). simpl in H2.
    destruct H1 as [E1|(Hc & Hs & E1)], H2 as [E2|(Hc2 & Hs2 & E2)]; rewrite E2.
    + by left.
    + right. by rewrite <- E1.
    + right. by rewrite <- E1.
    + rewrite E1 in Hs2. by destruct (k_procs s1 p).
Qed.

#[export] Instance keeps_pre : PreOrder keeps.
Proof.
  split.
  - intros s. split; [reflexivity|done].
  - intros s1 s2 s3 (H1 & E1 & F1) (H2 & E2 & F2). split; [by transitivity s2|].
    by rewrite E2, F2.
Qed.

Lemma keeps_frame s s' : keeps s s' -> fs_frame s s'.
Proof. by intros [H _]. Qed.

Lemma frame_sb s s' : fs_frame s s' -> k_sb s' = k_sb s.
Proof. by intros (ls & t & k & pr & io & -> & _). Qed.

Lemma frame_cur s s' : fs_frame s s' -> k_cur s' = k_cur s.
Proof. by intros (ls & t & k & pr & io & -> & _). Qed.

Lemma frame_quiet s s' : fs_frame s s' -> quiet s -> quiet s'.
Proof. by intros (ls & t & k & pr & io & -> & _). Qed.

(** The running process itself is left alone. *)
Lemma frame_proc s s' p : fs_frame s s' -> k_cur s = Some p -> k_procs s' p = k_procs s p.
Proof.
  intros (ls & t & k & pr & io & -> & H) Hp. simpl. destruct (H p) as [E|[Hne _]]; [done|congruence].
Qed.

Lemma keeps_ls s ls : keeps s (set_k_ls ls s).
Proof.
  split; [|done]. exists ls, (k_itable s), (k_km s), (k_procs s), (k_io s). split; [by destruct s|].
  intros p. by left.
Qed.

Lemma frame_inode s i f : fs_frame s (set_inode i f s).
Proof.
  exists (k_ls s), (upd (k_itable s) i f), (k_km s), (k_procs s), (k_io s). split; [by destruct s|].
  intros p. by left.
Qed.

Lemma frame_itable s t : fs_frame s (set_k_itable t s).
Proof.
  exists (k_ls s), t, (k_km s), (k_procs s), (k_io s). split; [by destruct s|].
  intros p. by left.
Qed.

Lemma frame_km s k : fs_frame s (set_k_km k s).
Proof.
  exists (k_ls s), (k_itable s), k, (k_procs s), (k_io s). split; [by destruct s|].
  intros p. by left.
Qed.

Lemma keeps_prints s l s' : prints s l s' -> keeps s s'.
Proof.
  intros (io & -> & _). split; [|done].
  exists (k_ls s), (k_itable s), (k_km s), (k_procs s), io. split; [by destruct s|]. intros p. by left.
Qed.

Lemma wakeup_keeps ch s :
  wp (wakeup ch) s (fun _ s' => keeps s s' /\ k_ls s' = k_ls s).
Proof.
  eapply wp_mono; [apply wakeup_ok|]. intros [] s' (pr & -> & Hpr). split; [|done]. split; [|done].
  exists (k_ls s), (k_itable s), (k_km s), pr, (k_io s). split; [by destruct s|].
  intros p. rewrite Hpr. case_decide; [|by left]. unfold woken. case_bool_decide as E; [|by left].
  right. destruct E as (? & ? & _). done.
Qed.

(** * The view *)

Record op (s : kernel) (v : Z -> list Z) (h : gmap nat Z) (P U : gset Z) : Prop := {
  op_sys : exists L W d bs, LR (k_ls s) L W (ABio v d h P) /\ log_ok L bs /\ NoDup bs /\
    P = list_to_set bs /\ 1 <= lg_outstanding L /\ lg_size L = LOGSIZE /\
    lg_start L = sb_logstart (k_sb s) /\ (forall n, n ∉ P -> n ∉ U -> v n = d n);
  op_blocks : forall n, block_ok (v n);
}.

Lemma op_same s s' v h P U :
  op s v h P U -> k_ls s' = k_ls s -> k_sb s' = k_sb s -> op s' v h P U.
Proof. intros [H1 H2] E1 E2. split; [by rewrite E1, E2|done]. Qed.

Lemma op_ext s v v' h P U : op s v h P U -> (forall n, v' n = v n) -> op s v' h P U.
Proof.
  intros [(L & W & d & bs & H1 & H2 & H3 & H4 & H5 & H6 & H7 & H8) H9] E. split.
  - exists L, W, d, bs. split_and!; try done; [by eapply LR_ext|]. intros n ??. rewrite E. auto.
  - intros n. by rewrite E.
Qed.

Lemma size_map_img (h : gmap nat Z) : (size (map_img h : gset Z) <= size h)%nat.
Proof.
  induction h as [|b n h Hb IH] using map_ind.
  - by rewrite map_img_empty_L, size_empty.
  - rewrite map_img_insert_notin_L, map_size_insert_None by done.
    assert (size ({[n]} ∪ map_img h : gset Z) <= size ({[n]} : gset Z) + size (map_img h : gset Z))%nat
      by (rewrite size_union_alt; set_unfold; apply Nat.add_le_mono_l, subseteq_size; set_solver).
    rewrite size_singleton in *. lia.
Qed.

Lemma size_busy (P : gset Z) (h : gmap nat Z) :
  (size (P ∪ map_img h : gset Z) <= size P + size h)%nat.
Proof.
  rewrite size_union_alt. pose proof (size_map_img h).
  assert (size (map_img h ∖ P : gset Z) <= size (map_img h : gset Z))%nat by (apply subseteq_size; set_solver).
  lia.
Qed.

Lemma op_bread s v h P U n Q :
  op s v h P U -> (forall b, h !! b <> Some n) -> (n ∈ P \/ size P + size h < NBUF)%nat ->
  (forall b s', h !! b = None -> op s' v (<[b := n]> h) P U -> keeps s s' -> Q b s') ->
  wp (fb (bread ROOTDEV n)) s Q.
Proof.
  intros [(L & W & d & bs & H1 & H2 & H3 & H4 & H5 & H6 & H7 & H8) H9] Hn Hroom HQ.
  apply wp_fl. eapply wp_mono; [eapply lb_bread; [exact H1|done|]|].
  { destruct Hroom; [by left|right]. pose proof (size_busy P h). lia. }
  intros b ls [Hb H1']. apply HQ; [done| |apply keeps_ls].
  split; [|done]. by exists L, W, d, bs.
Qed.

Lemma op_bdata s v h P U b n Q :
  op s v h P U -> h !! b = Some n -> Q (v n) s -> wp (bdata b) s Q.
Proof.
  intros [(L & W & d & bs & H1 & _) _] Hb HQ. apply wp_fl.
  eapply wp_mono; [by eapply lb_data|]. intros x ls [-> ->].
  by replace (set_k_ls (k_ls s) s) with s by (by destruct s).
Qed.

Lemma op_bput s v h P U b n x Q :
  op s v h P U -> h !! b = Some n -> block_ok x ->
  (forall s', op s' (fset v n x) h P ({[n]} ∪ U) -> keeps s s' -> Q tt s') ->
  wp (bput b x) s Q.
Proof.
  intros [(L & W & d & bs & H1 & H2 & H3 & H4 & H5 & H6 & H7 & H8) H9] Hb Hx HQ.
  apply wp_fl. eapply wp_mono; [by eapply lb_put|]. intros [] ls H1'. apply HQ; [|apply keeps_ls].
  split.
  - exists L, W, d, bs. split_and!; try done. intros k Hk [Hkn Hu]%not_elem_of_union.
    rewrite fset_ne by set_solver. auto.
  - intros k. unfold fset. by destruct (k =? n).
Qed.

Lemma op_log_write s v h P U b n Q :
  op s v h P U -> h !! b = Some n -> home (k_sb s) n -> (size P < 29)%nat ->
  (forall s', op s' v h ({[n]} ∪ P) (U ∖ {[n]}) -> keeps s s' -> Q tt s') ->
  wp (fl (log_write b)) s Q.
Proof.
  intros [(L & W & d & bs & H1 & H2 & H3 & H4 & H5 & H6 & H7 & H8) H9] Hb [Hn Hout] HP HQ.
  subst P. rewrite size_list_to_set in HP by done. apply wp_fl.
  eapply wp_mono; [eapply log_write_ok; try done|].
  { rewrite H6. unfold LOGSIZE, MAXOPBLOCKS. lia. }
  { by rewrite H7. }
  intros [] ls (L' & HL' & Hnd' & H1' & E1 & E2 & E3). apply HQ; [|apply keeps_ls].
  set (bs' := if decide (n ∈ bs) then bs else bs ++ [n]) in *.
  assert (Hbs : list_to_set bs' = ({[n]} ∪ list_to_set bs : gset Z)).
  { unfold bs'. case_decide; set_solver. }
  rewrite Hbs in H1'. split; [|done]. exists L', W, d, bs'. rewrite E1, E2, E3. split_and!; try done.
  intros k Hk HU. apply H8; set_solver.
Qed.

Lemma op_brelse s v h P U b n Q :
  op s v h P U -> h !! b = Some n -> n ∉ U ->
  (forall s', op s' v (delete b h) P U -> keeps s s' -> Q tt s') ->
  wp (brelse_buf b) s Q.
Proof.
  intros [(L & W & d & bs & H1 & H2 & H3 & H4 & H5 & H6 & H7 & H8) H9] Hb Hn HQ.
  unfold brelse_buf. apply wp_bind, wp_fl. eapply wp_mono; [eapply lb_brelse; [exact H1|done|]|].
  { destruct (decide (n ∈ P)); [by left|right; auto]. }
  intros [] ls H1'. eapply wp_mono; [apply wakeup_keeps|]. intros [] s' [Hk El].
  apply HQ; [|transitivity (set_k_ls ls s); [apply keeps_ls|done]].
  apply (op_same (set_k_ls ls s)); [|done|].
  - split; [|done]. by exists L, W, d, bs.
  - by rewrite (frame_sb _ _ (keeps_frame _ _ Hk)).
Qed.

Lemma wp_then3 {A B C D} (m1 : M kernel A) (m2 : M kernel B) (m3 : M kernel C) (K : C -> M kernel D) s Q :
  wp (m1;; m2;; m3) s (fun c s' => wp (K c) s' Q) -> wp (m1;; m2;; m3 ≫= K) s Q.
Proof.
  intros (c & s' & E & (r & s'' & E' & HQ)%wp_inv)%wp_inv. eapply wp_ok; [|exact HQ].
  revert E. unfold mbind, M_bind. destruct (m1 s) as [a1 s1| | | |]; try done.
  destruct (m2 s1) as [a2 s2| | | |]; try done. by intros ->.
Qed.

(** A block read, changed, logged and released. *)
Lemma op_store s v h P U b n x Q :
  op s v (<[b := n]> h) P U -> h !! b = None -> n ∉ U -> home (k_sb s) n -> (size P < 29)%nat ->
  block_ok x ->
  (forall s', op s' (fset v n x) h ({[n]} ∪ P) U -> keeps s s' -> Q tt s') ->
  wp (bput b x;; fl (log_write b);; brelse_buf b) s Q.
Proof.
  intros Ho Hb Hn Hh HP Hx HQ. apply wp_bind.
  eapply op_bput; [done|apply lookup_insert_eq|done|]. intros s1 H1 K1. apply wp_bind.
  eapply op_log_write; [exact H1|apply lookup_insert_eq| |done|].
  { by rewrite (frame_sb _ _ (keeps_frame _ _ K1)). }
  intros s2 H2 K2. replace (({[n]} ∪ U) ∖ {[n]}) with U in H2 by set_solver.
  eapply op_brelse; [exact H2|apply lookup_insert_eq|done|]. intros s3 H3 K3.
  rewrite delete_insert_id in H3 by done. apply HQ; [done|]. by rewrite K1, K2.
Qed.

Lemma op_store_then {A} s v h P U b n x (K : unit -> M kernel A) Q :
  op s v (<[b := n]> h) P U -> h !! b = None -> n ∉ U -> home (k_sb s) n -> (size P < 29)%nat ->
  block_ok x ->
  (forall s', op s' (fset v n x) h ({[n]} ∪ P) U -> keeps s s' -> wp (K tt) s' Q) ->
  wp (bput b x;; fl (log_write b);; brelse_buf b ≫= K) s Q.
Proof.
  intros Ho Hb Hn Hh HP Hx HQ.
  apply wp_then3. by eapply op_store.
Qed.
End tx.

#[global] Opaque brelse_buf bdata bput.
