(* ===== verification/FsAlloc.v ===== *)
(** The free block bitmap of [kernel/fs.c]: [balloc] and [bfree] as operations
    on the set of allocated blocks. *)

From stdpp Require Import gmap.
From S2P Require Import Prelude CString Layout Kalloc Vm Sleeplock Bio Log LogSafe Kernel Sched Uart Printf Fs FsTx.

(** * Bits *)

Lemma land_bit x k : 0 <= k -> (Z.land x (Z.shiftl 1 k) =? 0) = negb (Z.testbit x k).
Proof.
  intros Hk. rewrite Z.shiftl_1_l. destruct (Z.testbit x k) eqn:E; simpl.
  - apply Z.eqb_neq. intros H. apply (f_equal (fun z => Z.testbit z k)) in H.
    by rewrite Z.land_spec, E, Z.pow2_bits_true, Z.bits_0 in H by done.
  - apply Z.eqb_eq, Z.bits_inj. intros j. rewrite Z.land_spec, Z.bits_0.
    destruct (decide (j = k)) as [->|Hne]; [by rewrite E|].
    rewrite Z.pow2_bits_false by done. apply andb_false_r.
Qed.

Lemma bits_lt n x : 0 <= n -> 0 <= x -> (forall k, n <= k -> Z.testbit x k = false) -> x < 2 ^ n.
Proof.
  intros Hn Hx H. assert (E : x mod 2 ^ n = x).
  { apply Z.bits_inj. intros k. destruct (decide (k < 0)) as [|Hk0]; [by rewrite !Z.testbit_neg_r by lia|].
    destruct (decide (k < n)); [by rewrite Z.mod_pow2_bits_low|].
    rewrite Z.mod_pow2_bits_high by lia. symmetry. apply H. lia. }
  rewrite <- E. apply Z.mod_pos_bound. lia.
Qed.

Lemma byte_high x k : is_byte x -> 8 <= k -> Z.testbit x k = false.
Proof.
  intros [Hx Hx'] Hk. destruct (decide (x = 0)) as [->|]; [apply Z.bits_0|].
  apply Z.bits_above_log2; [done|]. apply Z.log2_lt_pow2; [lia|].
  apply (Z.lt_le_trans _ (2 ^ 8)); [done|]. apply Z.pow_le_mono_r; lia.
Qed.

Lemma pow2_byte k : 0 <= k < 8 -> is_byte (2 ^ k).
Proof.
  intros Hk. split; [apply Z.pow_nonneg; lia|]. change 256 with (2 ^ 8). apply Z.pow_lt_mono_r; lia.
Qed.

Lemma lor_byte x y : is_byte x -> is_byte y -> is_byte (Z.lor x y).
Proof.
  intros Hx Hy. split; [apply Z.lor_nonneg; split; [apply Hx|apply Hy]|].
  apply (bits_lt 8); [done|apply Z.lor_nonneg; split; [apply Hx|apply Hy]|].
  intros k Hk. by rewrite Z.lor_spec, !byte_high.
Qed.

Lemma land_byte x y : is_byte x -> is_byte (Z.land x y).
Proof.
  intros Hx. assert (0 <= Z.land x y) by (apply Z.land_nonneg; left; apply Hx). split; [done|].
  apply (bits_lt 8); [done|done|]. intros k Hk. by rewrite Z.land_spec, byte_high.
Qed.

(** * The bitmap *)

(** Bit [bi] of a bitmap block. *)
Definition bit (d : list Z) (bi : Z) : bool := Z.testbit (byte_at d (bi / 8)) (bi mod 8).

Definition set_bit (d : list Z) (bi : Z) : list Z :=
  <[Z.to_nat (bi / 8) := Z.lor (byte_at d (bi / 8)) (Z.shiftl 1 (bi mod 8))]> d.
Definition clear_bit (d : list Z) (bi : Z) : list Z :=
  <[Z.to_nat (bi / 8) := Z.land (byte_at d (bi / 8)) (Z.lnot (Z.shiftl 1 (bi mod 8)))]> d.

(** Block [b] is marked as in use. *)
Definition allocated (sb : superblock) (v : Z -> list Z) (b : Z) : bool :=
  bit (v (BBLOCK b sb)) (b mod BPB).

Lemma byte_at_ok d i : block_ok d -> is_byte (byte_at d i).
Proof.
  intros [_ H]. unfold byte_at. destruct (d !! Z.to_nat i) as [x|] eqn:E; simpl; [|done].
  rewrite Forall_lookup in H. by eapply H.
Qed.

Lemma byte_at_insert d i j x :
  block_ok d -> 0 <= i < BSIZE -> 0 <= j -> byte_at (<[Z.to_nat i := x]> d) j = if j =? i then x else byte_at d j.
Proof.
  intros [Hl _] Hi Hj. unfold byte_at. destruct (Z.eqb_spec j i) as [->|Hne].
  - rewrite list_lookup_insert_eq by lia. done.
  - by rewrite list_lookup_insert_ne by lia.
Qed.

Lemma bit_insert d bi x k :
  block_ok d -> 0 <= bi < BPB -> 0 <= k ->
  (forall j, 0 <= j < 8 -> j <> bi mod 8 -> Z.testbit x j = Z.testbit (byte_at d (bi / 8)) j) ->
  bit (<[Z.to_nat (bi / 8) := x]> d) k = if k =? bi then Z.testbit x (bi mod 8) else bit d k.
Proof.
  intros Hd Hbi Hk Hx. unfold bit, BPB, BSIZE in *.
  assert (0 <= bi / 8 < BSIZE) by (unfold BSIZE; Z.div_mod_to_equations; lia).
  assert (0 <= k / 8 /\ 0 <= k mod 8 < 8) as [? ?] by (Z.div_mod_to_equations; lia).
  rewrite byte_at_insert by done. destruct (Z.eqb_spec (k / 8) (bi / 8)) as [E|E].
  - destruct (Z.eqb_spec k bi) as [->|Hne]; [done|]. rewrite E. apply Hx; [done|].
    Z.div_mod_to_equations; lia.
  - by destruct (Z.eqb_spec k bi) as [->|Hne].
Qed.

Lemma bit_set d bi k :
  block_ok d -> 0 <= bi < BPB -> 0 <= k -> bit (set_bit d bi) k = (k =? bi) || bit d k.
Proof.
  intros Hd Hbi Hk. assert (0 <= bi mod 8 < 8) by (Z.div_mod_to_equations; lia).
  unfold set_bit. rewrite Z.shiftl_1_l, bit_insert by
    (done || intros j Hj Hne; rewrite Z.lor_spec, Z.pow2_bits_false by lia; apply orb_false_r).
  rewrite Z.lor_spec, Z.pow2_bits_true, orb_true_r by lia. by destruct (k =? bi).
Qed.

Lemma bit_clear d bi k :
  block_ok d -> 0 <= bi < BPB -> 0 <= k -> bit (clear_bit d bi) k = negb (k =? bi) && bit d k.
Proof.
  intros Hd Hbi Hk. assert (0 <= bi mod 8 < 8) by (Z.div_mod_to_equations; lia).
  unfold clear_bit. rewrite Z.shiftl_1_l, bit_insert by
    (done || intros j Hj Hne; rewrite Z.land_spec, Z.lnot_spec, Z.pow2_bits_false by lia; apply andb_true_r).
  rewrite Z.land_spec, Z.lnot_spec, Z.pow2_bits_true, andb_false_r by lia. by destruct (k =? bi).
Qed.

Lemma insert_block_ok d i x : block_ok d -> is_byte x -> block_ok (<[i := x]> d).
Proof. intros [Hl Hb] Hx. split; [by rewrite length_insert|by apply Forall_insert]. Qed.

Lemma set_bit_ok d bi : block_ok d -> block_ok (set_bit d bi).
Proof.
  intros Hd. apply insert_block_ok; [done|]. apply lor_byte; [by apply byte_at_ok|].
  rewrite Z.shiftl_1_l. apply pow2_byte. Z.div_mod_to_equations; lia.
Qed.

Lemma clear_bit_ok d bi : block_ok d -> block_ok (clear_bit d bi).
Proof. intros Hd. apply insert_block_ok; [done|]. by apply land_byte, byte_at_ok. Qed.

(** The inner loop of [balloc] finds the first clear bit. *)
Lemma balloc_scan_ok n d size b bi :
  0 <= bi -> BPB - bi <= Z.of_nat n ->
  match balloc_scan n d size b bi with
  | Some j => bi <= j < BPB /\ b + j < size /\ bit d j = false /\
      forall k, bi <= k < j -> bit d k = true
  | None => forall k, bi <= k < BPB -> b + k < size -> bit d k = true
  end.
Proof.
  revert bi. induction n as [|n IH]; intros bi Hbi Hn; cbn [balloc_scan]; [lia|].
  destruct (Z.ltb_spec bi BPB); simpl; [|lia]. destruct (Z.ltb_spec (b + bi) size); simpl; [|lia].
  rewrite land_bit by (Z.div_mod_to_equations; lia).
  change (Z.testbit (byte_at d (bi / 8)) (bi mod 8)) with (bit d bi).
  destruct (bit d bi) eqn:E; simpl.
  - specialize (IH (bi + 1) ltac:(lia) ltac:(lia)).
    assert (Hk : forall k, bi <= k -> k = bi \/ bi + 1 <= k) by lia.
    destruct (balloc_scan _ _ _ _ _) as [j|].
    + destruct IH as (? & ? & ? & H4). split_and!; try done; [lia|lia|].
      intros k Hkj. destruct (Hk k ltac:(lia)) as [->|]; [done|]. apply H4. lia.
    + intros k Hkj ?. destruct (Hk k ltac:(lia)) as [->|]; [done|]. apply IH; lia.
  - split_and!; try done; lia.
Qed.

(** * The layout of the disk *)

(** Blocks that never hold file data: the boot block, the log, the bitmap and
    the inodes. *)
Definition reserved (sb : superblock) (n : Z) : Prop :=
  n = 0 \/ ~ outside_log (sb_logstart sb) n \/
  (exists b, 0 <= b < sb_size sb /\ n = BBLOCK b sb) \/
  (exists i, 0 <= i < sb_ninodes sb /\ n = IBLOCK i sb).

Record sb_ok (sb : superblock) : Prop := {
  so_size : 0 < sb_size sb < 2 ^ 31 - BPB;
  so_bmap : 0 <= sb_bmapstart sb /\ sb_bmapstart sb + sb_size sb / BPB < 2 ^ 31;
  so_bmap_home : forall b, 0 <= b < sb_size sb -> outside_log (sb_logstart sb) (BBLOCK b sb);
  so_inodes : forall i, 0 <= i < sb_ninodes sb -> home sb (IBLOCK i sb);
  so_disjoint : forall i b, 0 <= i < sb_ninodes sb -> 0 <= b < sb_size sb -> IBLOCK i sb <> BBLOCK b sb;
}.

Lemma BBLOCK_eq sb b : sb_ok sb -> 0 <= b < sb_size sb -> BBLOCK b sb = b / BPB + sb_bmapstart sb.
Proof.
  intros [H1 H2 _ _ _] Hb. unfold BBLOCK. apply u32_small. unfold BPB, BSIZE in *. Z.div_mod_to_equations; lia.
Qed.

Lemma BBLOCK_home sb b : sb_ok sb -> 0 <= b < sb_size sb -> home sb (BBLOCK b sb).
Proof.
  intros H Hb. split; [|by apply H]. rewrite BBLOCK_eq by done. destruct H as [H1 H2 _ _ _].
  unfold BPB, BSIZE in *. Z.div_mod_to_equations; lia.
Qed.

(** Reserved blocks are marked as in use. *)
Definition bitmap_ok (sb : superblock) (v : Z -> list Z) : Prop :=
  forall n, 0 <= n < sb_size sb -> reserved sb n -> allocated sb v n = true.

Lemma free_home sb v r :
  sb_ok sb -> bitmap_ok sb v -> 0 <= r < sb_size sb -> allocated sb v r = false ->
  home sb r /\ r <> 0 /\ (forall b, 0 <= b < sb_size sb -> r <> BBLOCK b sb) /\ ~ reserved sb r.
Proof.
  intros Hsb Hbm Hr Hf.
  assert (Hno : ~ reserved sb r) by (intros H; rewrite (Hbm r Hr H) in Hf; done).
  split_and!.
  - split; [destruct (so_size _ Hsb); unfold BPB, BSIZE in *; lia|]. intros H. apply Hno. right. left. by intros H'.
  - intros ->. apply Hno. by left.
  - intros b Hb ->. apply Hno. right. right. left. eauto.
  - done.
Qed.

(** The blocks after [r] was allocated, and after it was freed. *)
Definition alloc_view (sb : superblock) (v : Z -> list Z) (r : Z) : Z -> list Z :=
  let B := BBLOCK r sb in
  fset (fset v B (set_bit (v B) (r mod BPB))) r (replicate (Z.to_nat BSIZE) 0).
Definition free_view (sb : superblock) (v : Z -> list Z) (r : Z) : Z -> list Z :=
  let B := BBLOCK r sb in fset v B (clear_bit (v B) (r mod BPB)).

Lemma allocated_fset sb v r d b :
  sb_ok sb -> 0 <= r < sb_size sb -> 0 <= b < sb_size sb -> 
  allocated sb (fset v (BBLOCK r sb) d) b =
  if (b / BPB =? r / BPB) then bit d (b mod BPB) else allocated sb v b.
Proof.
  intros Hsb Hr Hb. unfold allocated, fset. rewrite !BBLOCK_eq by done.
  destruct (Z.eqb_spec (b / BPB) (r / BPB)), (Z.eqb_spec (b / BPB + sb_bmapstart sb) (r / BPB + sb_bmapstart sb));
    done || lia.
Qed.

Lemma same_bit b r : 0 <= b -> 0 <= r -> b / BPB = r / BPB -> (b mod BPB =? r mod BPB) = (b =? r).
Proof.
  intros Hb Hr E. unfold BPB, BSIZE in *.
  destruct (Z.eqb_spec (b mod (1024 * 8)) (r mod (1024 * 8))), (Z.eqb_spec b r); try done;
    Z.div_mod_to_equations; lia.
Qed.

Lemma alloc_allocated sb v r b :
  sb_ok sb -> bitmap_ok sb v -> (forall n, block_ok (v n)) -> 0 <= r < sb_size sb ->
  allocated sb v r = false -> 0 <= b < sb_size sb ->
  allocated sb (alloc_view sb v r) b = (b =? r) || allocated sb v b.
Proof.
  intros Hsb Hbm Hv Hr Hf Hb. destruct (free_home sb v r Hsb Hbm Hr Hf) as (_ & _ & Hne & _).
  unfold alloc_view. unfold allocated at 1. rewrite (fset_ne _ r) by (by apply not_eq_sym, Hne).
  change (allocated sb (fset v (BBLOCK r sb) (set_bit (v (BBLOCK r sb)) (r mod BPB))) b = (b =? r) || allocated sb v b).
  rewrite allocated_fset by done.
  assert (0 <= r mod BPB < BPB /\ 0 <= b mod BPB) as [? ?] by (unfold BPB, BSIZE; Z.div_mod_to_equations; lia).
  destruct (Z.eqb_spec (b / BPB) (r / BPB)) as [E|E].
  - rewrite bit_set, same_bit by (done || lia). f_equal. unfold allocated. by rewrite !BBLOCK_eq, E by done.
  - by destruct (Z.eqb_spec b r) as [->|].
Qed.

Lemma free_allocated sb v r b :
  sb_ok sb -> (forall n, block_ok (v n)) -> 0 <= r < sb_size sb -> 0 <= b < sb_size sb ->
  allocated sb (free_view sb v r) b = negb (b =? r) && allocated sb v b.
Proof.
  intros Hsb Hv Hr Hb. unfold free_view. rewrite allocated_fset by done.
  assert (0 <= r mod BPB < BPB /\ 0 <= b mod BPB) as [? ?] by (unfold BPB, BSIZE; Z.div_mod_to_equations; lia).
  destruct (Z.eqb_spec (b / BPB) (r / BPB)) as [E|E].
  - rewrite bit_clear, same_bit by (done || lia). f_equal. unfold allocated. by rewrite !BBLOCK_eq, E by done.
  - by destruct (Z.eqb_spec b r) as [->|].
Qed.

Lemma size_insert_le (n : Z) (P : gset Z) : (size ({[n]} ∪ P : gset Z) <= S (size P))%nat.
Proof.
  destruct (decide (n ∈ P)) as [H|H].
  - replace ({[n]} ∪ P) with P by set_solver. lia.
  - rewrite size_union by set_solver. rewrite size_singleton. lia.
Qed.

(** Bit [j] of the bitmap block that starts at block [k * BPB]. *)
Lemma bit_block sb k j :
  sb_ok sb -> 0 <= k -> 0 <= j < BPB -> k * BPB + j < sb_size sb ->
  BBLOCK (k * BPB + j) sb = BBLOCK (k * BPB) sb /\ (k * BPB + j) mod BPB = j.
Proof.
  intros Hsb Hk Hj Hjs. rewrite !BBLOCK_eq by (done || unfold BPB, BSIZE in *; lia).
  unfold BPB, BSIZE in *. split; Z.div_mod_to_equations; lia.
Qed.

(** The blocks below [k * BPB + n] once the bitmap block's first [n] bits are
    set, too. *)
Lemma allocated_upto sb v k n :
  sb_ok sb -> 0 <= k -> n <= BPB ->
  (forall x, 0 <= x < k * BPB -> x < sb_size sb -> allocated sb v x = true) ->
  (forall j, 0 <= j < n -> k * BPB + j < sb_size sb -> bit (v (BBLOCK (k * BPB) sb)) j = true) ->
  forall x, 0 <= x < k * BPB + n -> x < sb_size sb -> allocated sb v x = true.
Proof.
  intros Hsb Hk Hn Hall Hbits x Hx Hxs. destruct (decide (x < k * BPB)); [apply Hall; lia|].
  destruct (bit_block sb k (x - k * BPB) Hsb Hk) as [EB Er]; [lia|lia|].
  replace (k * BPB + (x - k * BPB)) with x in EB, Er by lia.
  unfold allocated. rewrite EB, Er. apply Hbits; lia.
Qed.

(** * The operations *)

Section ops.
Context `{KE : KernelEnd, PL : Platform} {UR : UartReady}.

Lemma zeros_ok : block_ok (replicate (Z.to_nat BSIZE) 0).
Proof. split; [apply length_replicate|]. by apply Forall_replicate. Qed.

Lemma bzero_ok s v h P n Q :
  op s v h P ∅ -> home (k_sb s) n -> (forall b, h !! b <> Some n) ->
  (size P < 29)%nat -> (size P + size h < NBUF)%nat ->
  (forall s', op s' (fset v n (replicate (Z.to_nat BSIZE) 0)) h ({[n]} ∪ P) ∅ -> keeps s s' -> Q tt s') ->
  wp (bzero ROOTDEV n) s Q.
Proof.
  intros Ho Hh Hn HP Hroom HQ. unfold bzero. rewrite u32_small by (destruct Hh; lia).
  apply wp_bind. eapply op_bread; [done|done|by right|]. intros b s1 Hb H1 K1.
  eapply op_store; [exact H1|done|done| |done|apply zeros_ok|].
  { by rewrite (frame_sb _ _ (keeps_frame _ _ K1)). }
  intros s2 H2 K2. apply HQ; [done|]. by rewrite K1.
Qed.

(** What the caller of [balloc] holds. *)
Record can_balloc (s : kernel) (v : Z -> list Z) (h : gmap nat Z) (P : gset Z) : Prop := {
  cb_sb : sb_ok (k_sb s);
  cb_map : bitmap_ok (k_sb s) v;
  cb_quiet : quiet s;
  cb_held : forall b n, h !! b = Some n ->
    (forall x, 0 <= x < sb_size (k_sb s) -> n <> BBLOCK x (k_sb s)) /\
    (0 <= n < sb_size (k_sb s) -> allocated (k_sb s) v n = true);
  cb_log : (size P < 28)%nat;
  cb_room : (size P + size h + 1 < NBUF)%nat;
}.

(** [balloc] takes the clear bit it found. *)
Lemma balloc_take_ok s v h P bp B r bi (Q : Z + Z -> kernel -> Prop) :
  can_balloc s v h P -> 0 <= r < sb_size (k_sb s) -> allocated (k_sb s) v r = false ->
  BBLOCK r (k_sb s) = B -> r mod BPB = bi -> h !! bp = None ->
  op s v (<[bp := B]> h) P ∅ ->
  (forall s', op s' (alloc_view (k_sb s) v r) h ({[r]} ∪ ({[B]} ∪ P)) ∅ -> keeps s s' -> Q (inr r) s') ->
  wp (bput bp (set_bit (v B) bi);; fl (log_write bp);; brelse_buf bp;;
      bzero ROOTDEV r;; mret (inr r)) s Q.
Proof.
  intros [Hsb Hbm Hq Hh HP Hroom] Hr Hf EB Er Hbp Ho HQ.
  destruct (free_home _ v r Hsb Hbm Hr Hf) as (Hrh & _).
  assert (Hsz : (size ({[B]} ∪ P : gset Z) <= S (size P))%nat) by apply size_insert_le.
  eapply op_store_then; [exact Ho|done|done| |lia|apply set_bit_ok, Ho|].
  { rewrite <- EB. by apply BBLOCK_home. }
  intros s1 H1 K1. apply wp_bind.
  apply (bzero_ok _ _ _ _ _ _ H1); [by rewrite (frame_sb _ _ (keeps_frame _ _ K1))| |lia|lia|].
  { intros b Hb. destruct (Hh b r Hb) as [_ Ha]. rewrite Ha in Hf; done. }
  intros s2 H2 K2. apply wp_ret, HQ; [|by rewrite K1].
  unfold alloc_view. by rewrite EB, Er.
Qed.

Lemma keeps_balloc s s' v h P : can_balloc s v h P -> keeps s s' -> can_balloc s' v h P.
Proof.
  intros [H1 H2 H3 H4 H5 H6] K%keeps_frame.
  split; rewrite ?(frame_sb _ _ K); try done. by eapply frame_quiet.
Qed.

Lemma balloc_body_ok s v h P k (Q : Z + Z -> kernel -> Prop) :
  op s v h P ∅ -> can_balloc s v h P -> 0 <= k ->
  (forall x, 0 <= x < k * BPB -> x < sb_size (k_sb s) -> allocated (k_sb s) v x = true) ->
  (forall s', op s' v h P ∅ -> keeps s s' -> k * BPB < sb_size (k_sb s) ->
     (forall x, 0 <= x < (k + 1) * BPB -> x < sb_size (k_sb s) -> allocated (k_sb s) v x = true) ->
     Q (inl ((k + 1) * BPB)) s') ->
  (forall s', op s' v h P ∅ -> keeps s s' ->
     (forall b, 0 <= b < sb_size (k_sb s) -> allocated (k_sb s) v b = true) -> Q (inr 0) s') ->
  (forall s' r, 0 < r < sb_size (k_sb s) -> allocated (k_sb s) v r = false ->
     (forall b, 0 <= b < r -> allocated (k_sb s) v b = true) ->
     op s' (alloc_view (k_sb s) v r) h ({[r]} ∪ ({[BBLOCK r (k_sb s)]} ∪ P)) ∅ ->
     keeps s s' -> Q (inr r) s') ->
  wp (balloc_body ROOTDEV (k * BPB)) s Q.
Proof.
  intros Ho HC Hk Hall HQn HQ0 HQ1. set (sb := k_sb s) in *. destruct HC as [Hsb Hbm Hq Hh HP Hroom] eqn:EC.
  clear EC. unfold balloc_body, the_sb. apply wp_bind, wp_gets. fold sb.
  destruct (Z.ltb_spec (k * BPB) (sb_size sb)) as [Hlt|Hge].
  - apply wp_bind. eapply op_bread; [done| |right; lia|].
    { intros b Hb. destruct (Hh b _ Hb) as [Hno _]. apply (Hno (k * BPB)); unfold sb, BPB, BSIZE in *; lia || done. }
    intros bp s1 Hbp H1 K1. apply wp_bind. eapply op_bdata; [done|apply lookup_insert_eq|].
    set (B := BBLOCK (k * BPB) sb) in *.
    pose proof (balloc_scan_ok (Z.to_nat BPB) (v B) (sb_size sb) (k * BPB) 0 ltac:(done)
      ltac:(unfold BPB, BSIZE; lia)) as Hscan.
    destruct (balloc_scan _ _ _ _ _) as [j|].
    + destruct Hscan as (Hj & Hjs & Hbit & Hbits). destruct (bit_block sb k j Hsb Hk Hj Hjs) as [EB Er].
      set (r := k * BPB + j) in *. assert (Hr : 0 <= r < sb_size sb) by (unfold r, BPB, BSIZE in *; lia).
      assert (Hf : allocated sb v r = false) by (unfold allocated; by rewrite EB, Er).
      destruct (free_home sb v r Hsb Hbm Hr Hf) as (_ & Hr0 & _ & _).
      assert (Es : k_sb s1 = sb) by apply (frame_sb _ _ (keeps_frame _ _ K1)).
      apply (balloc_take_ok s1 v h P bp B r j); rewrite ?Es; try done.
      { by apply (keeps_balloc s). }
      intros s2 H2 K2. apply HQ1; [lia|done| |by rewrite EB|by rewrite K1].
      intros x Hx. apply (allocated_upto sb v k j); try done; [lia| |unfold r in *; lia].
      intros i Hi _. by apply Hbits.
    + apply wp_bind. eapply op_brelse; [exact H1|apply lookup_insert_eq|done|]. intros s2 H2 K2.
      rewrite delete_insert_id in H2 by done. apply wp_ret.
      replace (k * BPB + BPB) with ((k + 1) * BPB) by lia. apply HQn; [done|by rewrite K1|done|].
      intros x Hx. apply (allocated_upto sb v k BPB); try done. lia.
  - apply wp_bind. eapply wp_mono; [by apply (vprintf_says _ None [])|].
    intros [] s1 [l Hl]. apply wp_ret. apply HQ0; [|by eapply keeps_prints|].
    + eapply op_same; [exact Ho|..]; destruct Hl as (io & -> & _); done.
    + intros b Hb. apply Hall; lia.
Qed.

Lemma balloc_ok s v h P Q :
  op s v h P ∅ -> can_balloc s v h P ->
  (forall s', op s' v h P ∅ -> keeps s s' ->
     (forall b, 0 <= b < sb_size (k_sb s) -> allocated (k_sb s) v b = true) -> Q 0 s') ->
  (forall s' r, 0 < r < sb_size (k_sb s) -> allocated (k_sb s) v r = false ->
     (forall b, 0 <= b < r -> allocated (k_sb s) v b = true) ->
     op s' (alloc_view (k_sb s) v r) h ({[r]} ∪ ({[BBLOCK r (k_sb s)]} ∪ P)) ∅ ->
     keeps s s' -> Q r s') ->
  wp (balloc ROOTDEV) s Q.
Proof.
  intros Ho HC HQ0 HQ1. unfold balloc, the_sb. apply wp_bind, wp_gets.
  set (sb := k_sb s) in *. destruct (so_size _ (cb_sb _ _ _ _ HC)) as [Hs0 Hs1]. fold sb in Hs0, Hs1.
  apply (wp_loop (fun b s1 => op s1 v h P ∅ /\ keeps s s1 /\ exists k, 0 <= k /\ b = k * BPB /\
      (forall x, 0 <= x < b -> x < sb_size sb -> allocated sb v x = true))
    (fun b _ => Z.to_nat (sb_size sb / BPB + 1 - b / BPB))).
  - intros b s1 (H1 & K1 & k & Hk & -> & Hall).
    assert (Es : k_sb s1 = sb) by apply (frame_sb _ _ (keeps_frame _ _ K1)).
    apply (balloc_body_ok s1 v h P k); rewrite ?Es; try done.
    + by apply (keeps_balloc s).
    + intros s2 H2 K2 Hlt Hall'. split_and!; [done|by rewrite K1|exists (k + 1); split_and!; [lia|done|done]|].
      unfold BPB, BSIZE in *. Z.div_mod_to_equations; lia.
    + intros s2 H2 K2 Hall'. apply HQ0; [done|by rewrite K1|done].
    + intros s2 r Hr Hf Hlow H2 K2. apply HQ1; try done. by rewrite K1.
  - split_and!; [done|reflexivity|]. exists 0. split_and!; [lia|done|intros; lia].
  - rewrite Zdiv_0_l. assert (0 <= sb_size sb / BPB) by (unfold BPB, BSIZE; Z.div_mod_to_equations; lia). lia.
Qed.

Lemma bfree_ok s v h P b Q :
  op s v h P ∅ -> sb_ok (k_sb s) -> 0 <= b < sb_size (k_sb s) -> allocated (k_sb s) v b = true ->
  (forall i, h !! i <> Some (BBLOCK b (k_sb s))) -> (size P < 29)%nat -> (size P + size h < NBUF)%nat ->
  (forall s', op s' (free_view (k_sb s) v b) h ({[BBLOCK b (k_sb s)]} ∪ P) ∅ -> keeps s s' -> Q tt s') ->
  wp (bfree ROOTDEV b) s Q.
Proof.
  intros Ho Hsb Hb Ha Hh HP Hroom HQ. unfold bfree, the_sb. apply wp_bind, wp_gets.
  apply wp_bind. eapply op_bread; [done|done|by right|]. intros bp s1 Hbp H1 K1.
  apply wp_bind. eapply op_bdata; [done|apply lookup_insert_eq|].
  rewrite land_bit by (Z.div_mod_to_equations; lia).
  change (Z.testbit _ _) with (allocated (k_sb s) v b). rewrite Ha. cbn [negb].
  eapply op_store; [exact H1|done|done| |done|apply clear_bit_ok, Ho|].
  { rewrite (frame_sb _ _ (keeps_frame _ _ K1)). by apply BBLOCK_home. }
  intros s2 H2 K2. apply HQ; [done|by rewrite K1].
Qed.

(** Freeing a free block is found out. *)
Lemma bfree_free s v h P b :
  op s v h P ∅ -> allocated (k_sb s) v b = false ->
  (forall i, h !! i <> Some (BBLOCK b (k_sb s))) -> (size P + size h < NBUF)%nat ->
  exists s', bfree ROOTDEV b s = Panic "freeing free block" s'.
Proof.
  intros Ho Ha Hh Hroom.
  assert (Hr : wp (fb (bread ROOTDEV (BBLOCK b (k_sb s)))) s (fun bp s1 =>
    op s1 v (<[bp := BBLOCK b (k_sb s)]> h) P ∅)).
  { eapply op_bread; [done|done|by right|]. done. }
  apply wp_inv in Hr as (bp & s1 & E & H1).
  assert (Hd : wp (bdata bp) s1 (fun d s2 => d = v (BBLOCK b (k_sb s)) /\ s2 = s1)).
  { eapply op_bdata; [done|apply lookup_insert_eq|done]. }
  apply wp_inv in Hd as (d & s2 & Ed & -> & ->).
  exists s1. unfold bfree, the_sb. erewrite bind_ok by done. erewrite bind_ok by exact E.
  erewrite bind_ok by exact Ed. rewrite land_bit by (Z.div_mod_to_equations; lia).
  change (Z.testbit _ _) with (allocated (k_sb s) v b). by rewrite Ha.
Qed.

(** C23: [balloc] takes the lowest free block of the bitmap, marks it, and fills
    it with zeros; no other block changes and no other bit of the bitmap.  It
    returns 0, with nothing changed, exactly when no block is free. *)
Theorem balloc_allocates s v P :
  op s v ∅ P ∅ -> sb_ok (k_sb s) -> bitmap_ok (k_sb s) v -> quiet s -> (size P < 28)%nat ->
  wp (balloc ROOTDEV) s (fun r s' => keeps s s' /\
    ((r = 0 /\ op s' v ∅ P ∅ /\ forall b, 0 <= b < sb_size (k_sb s) -> allocated (k_sb s) v b = true) \/
     (0 < r < sb_size (k_sb s) /\ allocated (k_sb s) v r = false /\
      (forall b, 0 <= b < r -> allocated (k_sb s) v b = true) /\
      exists v' P', op s' v' ∅ P' ∅ /\ v' r = replicate (Z.to_nat BSIZE) 0 /\
        (forall b, 0 <= b < sb_size (k_sb s) -> allocated (k_sb s) v' b = (b =? r) || allocated (k_sb s) v b) /\
        (forall n, n <> r -> n <> BBLOCK r (k_sb s) -> v' n = v n)))).
Proof.
  intros Ho Hsb Hbm Hq HP.
  apply (balloc_ok s v ∅ P); [done|split; try done; rewrite map_size_empty; unfold NBUF; lia|..].
  - intros s' H' K' Hfull. split; [done|]. by left.
  - intros s' r Hr Hf Hlow H' K'. split; [done|]. right. split_and!; try done; try lia.
    eexists _, _. split_and!; [exact H'|apply fset_eq| |].
    + intros b Hb. apply alloc_allocated; try done; [apply Ho|lia].
    + intros n Hn1 Hn2. unfold alloc_view. by rewrite !fset_ne.
Qed.

(** [bfree] of the block [balloc] gave out makes the bitmap as it was. *)
Theorem balloc_bfree s v P r0 :
  op s v ∅ P ∅ -> sb_ok (k_sb s) -> bitmap_ok (k_sb s) v -> quiet s -> (size P < 26)%nat ->
  0 <= r0 < sb_size (k_sb s) -> allocated (k_sb s) v r0 = false ->
  wp (r ← balloc ROOTDEV; bfree ROOTDEV r;; mret r) s (fun r s' => keeps s s' /\
    exists v' P', op s' v' ∅ P' ∅ /\
      (forall b, 0 <= b < sb_size (k_sb s) -> allocated (k_sb s) v' b = allocated (k_sb s) v b) /\
      (forall n, n <> r -> n <> BBLOCK r (k_sb s) -> v' n = v n)).
Proof.
  intros Ho Hsb Hbm Hq HP Hr0 Hf0.
  apply wp_bind, (balloc_ok s v ∅ P); [done|split; try done; rewrite ?map_size_empty; unfold NBUF; lia|..].
  { intros s' _ _ Hfull. rewrite Hfull in Hf0; done. }
  intros s1 r Hr Hf _ H1 K1. assert (Es : k_sb s1 = k_sb s) by apply (frame_sb _ _ (keeps_frame _ _ K1)).
  assert (Ha : forall b, 0 <= b < sb_size (k_sb s) ->
    allocated (k_sb s) (alloc_view (k_sb s) v r) b = (b =? r) || allocated (k_sb s) v b).
  { intros b Hb. apply alloc_allocated; try done; [apply Ho|lia]. }
  pose proof (size_insert_le r ({[BBLOCK r (k_sb s)]} ∪ P)). pose proof (size_insert_le (BBLOCK r (k_sb s)) P).
  apply wp_bind. eapply bfree_ok; rewrite ?Es; [exact H1|done|lia| |done|lia|rewrite map_size_empty; unfold NBUF; lia|].
  { rewrite Ha by lia. by rewrite Z.eqb_refl. }
  intros s2 H2 K2. apply wp_ret. split; [by rewrite K1|]. eexists _, _. split_and!; [exact H2| |].
  - intros b Hb. rewrite free_allocated, Ha by (done || lia || apply H1).
    destruct (Z.eqb_spec b r) as [->|]; [by rewrite Hf|done].
  - intros n Hn1 Hn2. unfold free_view, alloc_view. by rewrite !fset_ne.
Qed.

(** Freeing a block that is already free is caught: [bfree] panics. *)
Theorem bfree_free_panics s v P b :
  op s v ∅ P ∅ -> allocated (k_sb s) v b = false -> (size P < NBUF)%nat ->
  exists s', bfree ROOTDEV b s = Panic "freeing free block" s'.
Proof. intros Ho Ha HP. apply (bfree_free s v ∅ P); try done. rewrite map_size_empty. lia. Qed.
End ops.
