(* ===== verification/FsIo.v ===== *)
(** Moving bytes between a disk buffer and its reader or writer, for [readi]
    and [writei] of [kernel/fs.c]: the other side is the process's memory or
    kernel memory, as [either_copyin] and [either_copyout] decide. *)

From stdpp Require Import gmap.
From S2P Require Import Prelude CString Layout Kalloc Vm Sleeplock Bio Log LogSafe Kernel UserMem Sched Uart Printf Fs FsTx.

Section io.
Context `{KE : KernelEnd, PL : Platform} {UM : UserMem}.

(** [n] bytes of kernel memory at [a] that are not in a disk buffer. *)
Definition off_buffers (a : Z) (n : nat) : Prop :=
  forall b, (b < NBUF)%nat -> a + Z.of_nat n <= bufaddr b \/ bufaddr b + BSIZE <= a.

(** The page table of the running process. *)
Definition cur_pt (s : kernel) (pt : Z) : Prop :=
  exists p, k_cur s = Some p /\ p_pagetable (k_procs s p) = pt.

(** The bytes [l] are what a writer finds at [src]; [um] is the process's
    memory. *)
Definition reads_from (s : kernel) (user : bool) (um : Z -> option Z) (src : Z) (l : list Z) : Prop :=
  0 <= src /\ src + Z.of_nat (length l) < 2 ^ 64 /\ Forall is_byte l /\ exists pt, cur_pt s pt /\
  if user then um_rep (k_km s) pt um /\ user_bytes um src l
  else bytes_ok (km_mem (k_km s)) /\ off_buffers src (length l) /\
    load_bytes (km_mem (k_km s)) src (length l) = l.

(** There is room for [n] bytes at [dst], and the bytes [l] have been
    delivered there; [um] is the process's memory before. *)
Definition room_at (user : bool) (um : Z -> option Z) (dst : Z) (n : nat) : Prop :=
  0 <= dst /\ dst + Z.of_nat n < 2 ^ 64 /\
  if user then forall i, 0 <= i < Z.of_nat n -> is_Some (um (dst + i)) else off_buffers dst n.
Definition delivered (s : kernel) (user : bool) (um : Z -> option Z) (dst : Z) (l : list Z) : Prop :=
  exists pt, cur_pt s pt /\
  if user then um_rep (k_km s) pt (user_write um dst l)
  else bytes_ok (km_mem (k_km s)) /\ load_bytes (km_mem (k_km s)) dst (length l) = l.

Lemma op_held_lt s v h P U b n : op s v h P U -> h !! b = Some n -> (b < NBUF)%nat.
Proof.
  intros [(L & W & d & bs & [_ _ [order H]] & _) _] Hb. by destruct (br_held _ _ _ H b n Hb).
Qed.

Lemma frame_pt s s' pt : fs_frame s s' -> cur_pt s pt -> cur_pt s' pt.
Proof.
  intros F (p & Hp & E). exists p. rewrite (frame_cur _ _ F), (frame_proc _ _ _ F Hp). done.
Qed.

Lemma frame_reads s s' user um src l :
  fs_frame s s' -> k_km s' = k_km s -> reads_from s user um src l -> reads_from s' user um src l.
Proof.
  intros F Ek (H1 & H2 & H3 & pt & Hp & H). split_and!; try done.
  exists pt. split; [by eapply frame_pt|]. by rewrite Ek.
Qed.

Lemma keeps_reads s s' user um src l :
  keeps s s' -> reads_from s user um src l -> reads_from s' user um src l.
Proof. intros (F & _ & Ek). by apply frame_reads. Qed.

Lemma keeps_delivered s s' user um dst l :
  keeps s s' -> delivered s user um dst l -> delivered s' user um dst l.
Proof.
  intros (F & _ & Ek) (pt & Hp & H). exists pt. split; [by eapply frame_pt|]. by rewrite Ek.
Qed.

(** Memory seen through a store to one disk buffer. *)
Lemma buffer_store_reads s user um src l b d :
  reads_from s user um src l -> (b < NBUF)%nat -> length d = Z.to_nat BSIZE ->
  reads_from (set_k_km (set_mem (fun m => store_bytes m (bufaddr b) d) (k_km s)) s) user um src l.
Proof.
  intros (H1 & H2 & H3 & pt & Hp & H) Hb Hd. split_and!; try done. exists pt. split; [done|].
  destruct user; simpl.
  - destruct H as (Hu & Hl). split; [|done]. apply um_store; [done|].
    right. exists b. split_and!; [done|lia|]. rewrite Hd. unfold BSIZE. lia.
  - destruct H as (Hk & Ho & Hl). split_and!; [by apply store_bytes_ok|done|].
    rewrite <- Hl at 2. apply load_bytes_ext. intros x Hx. apply store_bytes_out.
    rewrite Hd. specialize (Ho b Hb). unfold BSIZE in *. lia.
Qed.

Lemma buffer_store_delivered s user um dst l b d :
  delivered s user um dst l -> off_buffers dst (length l) \/ user = true -> (b < NBUF)%nat ->
  length d = Z.to_nat BSIZE ->
  delivered (set_k_km (set_mem (fun m => store_bytes m (bufaddr b) d) (k_km s)) s) user um dst l.
Proof.
  intros (pt & Hp & H) Ho Hb Hd. exists pt. split; [done|]. destruct user; simpl.
  - apply um_store; [done|]. right. exists b. split_and!; [done|lia|]. rewrite Hd. unfold BSIZE. lia.
  - destruct H as (Hk & Hl). split_and!; [by apply store_bytes_ok|].
    rewrite <- Hl at 2. apply load_bytes_ext. intros x Hx. apply store_bytes_out.
    rewrite Hd. destruct Ho as [Ho|]; [|done]. specialize (Ho b Hb). unfold BSIZE in *. lia.
Qed.

(** A block with [l] stored at [off], as memory holds it. *)
Lemma load_splice m m' a (d l : list Z) off :
  length d = Z.to_nat BSIZE -> (off + length l <= Z.to_nat BSIZE)%nat -> Forall is_byte d ->
  load_bytes m a (Z.to_nat BSIZE) = d ->
  load_bytes m' (a + Z.of_nat off) (length l) = l ->
  (forall x, ~ (a + Z.of_nat off <= x < a + Z.of_nat off + Z.of_nat (length l)) -> m' x = m x) ->
  load_bytes m' a (Z.to_nat BSIZE) = list_inserts off l d.
Proof.
  intros Hd Hl Hb Hm Hm' Hout. apply list_eq. intros i.
  destruct (decide (i < Z.to_nat BSIZE)%nat) as [Hi|Hi].
  - rewrite lookup_load_bytes by done. destruct (decide (off <= i < off + length l)%nat) as [Hin|Hnot].
    + rewrite list_lookup_inserts by lia. rewrite <- Hm', lookup_load_bytes by lia. do 2 f_equal. lia.
    + rewrite Hout by lia. destruct (decide (i < off)%nat).
      * rewrite list_lookup_inserts_lt by lia. rewrite <- Hm, lookup_load_bytes by done. done.
      * rewrite list_lookup_inserts_ge by lia. rewrite <- Hm, lookup_load_bytes by done. done.
  - rewrite !lookup_ge_None_2; [done| |]; rewrite ?length_inserts, ?length_load_bytes; lia.
Qed.

Lemma inserts_block_ok d off l : block_ok d -> Forall is_byte l -> block_ok (list_inserts off l d).
Proof.
  intros [Hd Hb] Hl. split; [by rewrite length_inserts|].
  apply Forall_lookup. intros i x Hx. rewrite Forall_lookup in Hb, Hl.
  destruct (decide (i < off)%nat); [rewrite list_lookup_inserts_lt in Hx by done; eauto|].
  destruct (decide (off + length l <= i)%nat); [rewrite list_lookup_inserts_ge in Hx by done; eauto|].
  destruct (decide (i < length d)%nat).
  - rewrite list_lookup_inserts in Hx by lia. eauto.
  - apply lookup_lt_Some in Hx. rewrite length_inserts in Hx. lia.
Qed.

Lemma user_bytes_load m um a va n l :
  user_bytes um va (load_bytes m a n) -> user_bytes um va l -> n = length l -> load_bytes m a n = l.
Proof.
  intros H1 H2 ->. apply list_eq. intros i. destruct (decide (i < length l)%nat) as [Hi|Hi].
  - destruct (lookup_lt_is_Some_2 l i Hi) as [b Hb]. rewrite Hb, lookup_load_bytes by done.
    specialize (H2 i b Hb). specialize (H1 i _ (lookup_load_bytes m a (length l) i Hi)). congruence.
  - rewrite !lookup_ge_None_2; [done|lia|]. rewrite length_load_bytes. lia.
Qed.

Lemma user_bytes_part um va L i n :
  user_bytes um va L -> user_bytes um (va + Z.of_nat i) (take n (drop i L)).
Proof.
  intros H j b Hb. apply lookup_take_Some in Hb as [Hb _]. rewrite lookup_drop in Hb.
  specialize (H _ _ Hb). rewrite <- H. f_equal. lia.
Qed.

Lemma load_part m a L i n :
  load_bytes m a (length L) = L -> (i + n <= length L)%nat ->
  load_bytes m (a + Z.of_nat i) n = take n (drop i L).
Proof.
  intros H Hn. apply list_eq. intros j. destruct (decide (j < n)%nat) as [Hj|Hj].
  - rewrite lookup_load_bytes, lookup_take_lt, lookup_drop by done.
    rewrite <- H, lookup_load_bytes by lia. do 2 f_equal. lia.
  - rewrite lookup_ge_None_2 by (rewrite length_load_bytes; lia).
    symmetry. apply lookup_ge_None_2. rewrite length_take. lia.
Qed.

(** [either_copyin] of a part of the source into a disk buffer. *)
Lemma either_copyin_ok s user um src L i n a Q :
  reads_from s user um src L -> (0 < n)%nat -> (i + n <= length L)%nat ->
  (exists b, (b < NBUF)%nat /\ bufaddr b <= a /\ a + Z.of_nat n <= bufaddr b + BSIZE) ->
  (forall k, load_bytes (km_mem k) a n = take n (drop i L) ->
     (forall x, ~ (a <= x < a + Z.of_nat n) -> km_mem k x = km_mem (k_km s) x) ->
     reads_from (set_k_km k s) user um src L -> Q 0 (set_k_km k s)) ->
  wp (either_copyin a user (src + Z.of_nat i) (Z.of_nat n)) s Q.
Proof.
  intros (H1 & H2 & H3 & pt & (p & Hp & <-) & H) Hn Hin Ha HQ.
  assert (Hlen : length (take n (drop i L)) = n) by (rewrite length_take, length_drop; lia).
  unfold either_copyin. apply wp_bind. eapply wp_myproc; [done|]. apply wp_bind, wp_gets.
  destruct user.
  - destruct H as (Hu & Hl). pose proof (user_bytes_part um src L i n Hl) as Hpart. apply wp_vm.
    eapply wp_mono; [apply (um_copyin _ _ um a _ n Hu); [lia|by right]|].
    intros r k (Hu' & Hout & [[-> Hl']|(-> & j & Hj & Hno)]).
    + apply HQ; [by eapply user_bytes_load|done|]. split_and!; try done.
      exists (p_pagetable (k_procs s p)). by split; [exists p|].
    + destruct (lookup_lt_is_Some_2 (take n (drop i L)) (Z.to_nat j)) as [b Hb]; [lia|].
      specialize (Hpart _ _ Hb). rewrite Z2Nat.id in Hpart by lia. congruence.
  - destruct H as (Hk & Ho & Hl). destruct Ha as (b & Hb & Ha1 & Ha2). pose proof (Ho b Hb) as Hob.
    assert (Hu : u32 (Z.of_nat n) = Z.of_nat n) by (apply u32_small; unfold BSIZE in *; lia).
    apply wp_bind, wp_vm, wp_modify, wp_ret. apply HQ; simpl.
    + rewrite <- (load_part (km_mem (k_km s)) src L i n Hl Hin).
      apply list_eq. intros j. destruct (decide (j < n)%nat) as [Hj|Hj].
      * rewrite !lookup_load_bytes, memmove_in by (done || rewrite ?Hu; lia). do 2 f_equal. lia.
      * rewrite !lookup_ge_None_2; [done| |]; rewrite length_load_bytes; lia.
    + intros x Hx. apply memmove_out; [done|]. rewrite Hu. lia.
    + split_and!; try done. exists (p_pagetable (k_procs s p)). split; [by exists p|].
      split_and!; [by apply memmove_ok|done|].
      rewrite <- Hl at 2. apply load_bytes_ext. simpl. intros x Hx. apply memmove_out; [done|]. rewrite Hu. lia.
Qed.

(** [copyin_buf] splices the bytes into the block. *)
Lemma copyin_buf_ok s v h P U bp bn user um src L i n off Q :
  op s v h P U -> h !! bp = Some bn -> reads_from s user um src L ->
  (0 < n)%nat -> (i + n <= length L)%nat -> 0 <= off -> off + Z.of_nat n <= BSIZE ->
  (forall s', op s' (fset v bn (list_inserts (Z.to_nat off) (take n (drop i L)) (v bn))) h P ({[bn]} ∪ U) ->
     fs_frame s s' -> k_itable s' = k_itable s -> reads_from s' user um src L -> Q 0 s') ->
  wp (copyin_buf bp off user (src + Z.of_nat i) (Z.of_nat n)) s Q.
Proof.
  intros Ho Hb HR Hn Hin Hoff Hend HQ. pose proof (op_held_lt _ _ _ _ _ _ _ Ho Hb) as Hbp.
  destruct (op_blocks _ _ _ _ _ Ho bn) as [Hd Hdb]. unfold copyin_buf.
  apply wp_bind. eapply op_bdata; [done|done|]. unfold store_mem. apply wp_bind, wp_vm, wp_modify.
  pose proof (buffer_store_reads s user um src L bp (v bn) HR Hbp Hd) as HR1.
  set (s1 := set_k_km _ s) in *. apply wp_bind.
  apply (either_copyin_ok s1 user um src L i n (bufaddr bp + off) _ HR1 Hn Hin).
  { exists bp. unfold BSIZE in *. split_and!; [done|lia|lia]. }
  intros k Hload Hout HR2. unfold load_mem. apply wp_bind, wp_gets. simpl.
  assert (Hlen : length (take n (drop i L)) = n) by (rewrite length_take, length_drop; lia).
  rewrite (load_splice (km_mem (k_km s1)) (km_mem k) (bufaddr bp) (v bn) (take n (drop i L)) (Z.to_nat off)).
  2,3: done || lia. 2: done.
  2:{ apply load_store_bytes; [by rewrite Hd|done]. }
  2:{ by rewrite Hlen, Z2Nat.id. }
  2:{ intros x Hx. apply Hout. rewrite Hlen, Z2Nat.id in Hx by done. done. }
  apply wp_bind. eapply op_bput; [apply (op_same s); [exact Ho|done|done]|done| |].
  { apply inserts_block_ok; [done|]. apply Forall_take, Forall_drop, HR. }
  intros s2 H2 K2. apply wp_ret. apply HQ; [done| | |].
  - transitivity s1; [apply frame_km|]. transitivity (set_k_km k s1); [apply frame_km|by apply keeps_frame].
  - destruct K2 as (_ & E & _). by rewrite E.
  - by eapply keeps_reads.
Qed.

(** [either_copyout] from a disk buffer, behind what was delivered before. *)
Lemma either_copyout_ok s user um dst l0 l a Q :
  delivered s user um dst l0 -> room_at user um dst (length l0 + length l) -> (0 < length l)%nat ->
  (exists b, (b < NBUF)%nat /\ bufaddr b <= a /\ a + Z.of_nat (length l) <= bufaddr b + BSIZE) ->
  Forall is_byte l -> load_bytes (km_mem (k_km s)) a (length l) = l ->
  (forall k, delivered (set_k_km k s) user um dst (l0 ++ l) -> Q 0 (set_k_km k s)) ->
  wp (either_copyout user (dst + Z.of_nat (length l0)) a (Z.of_nat (length l))) s Q.
Proof.
  intros (pt & (p & Hp & <-) & H) (Hr1 & Hr2 & Hr) Hn Ha Hb Hl HQ.
  unfold either_copyout. apply wp_bind. eapply wp_myproc; [done|]. apply wp_bind, wp_gets. destruct user.
  - apply wp_vm. eapply wp_mono; [apply (um_copyout _ _ _ a _ l H); [lia|by right|done|done]|].
    intros r k [(-> & _ & Hu)|(-> & i & Hi & Hno & _)].
    + apply HQ. exists (p_pagetable (k_procs s p)). split; [by exists p|]. by rewrite user_write_app in Hu.
    + destruct (Hr (Z.of_nat (length l0) + i)) as [b Hsome]; [lia|].
      unfold user_write in Hno. rewrite Z.add_assoc in Hsome. by rewrite Hsome in Hno.
  - destruct H as (Hk & Hl0). destruct Ha as (b & Hbn & Ha1 & Ha2). pose proof (Hr b Hbn) as Hrb.
    assert (Hu : u32 (Z.of_nat (length l)) = Z.of_nat (length l))
      by (apply u32_small; unfold BSIZE in *; lia).
    apply wp_bind, wp_vm, wp_modify, wp_ret. apply HQ.
    exists (p_pagetable (k_procs s p)). split; [by exists p|]. simpl. split; [by apply memmove_ok|].
    rewrite length_app. apply list_eq. intros i.
    destruct (decide (i < length l0 + length l)%nat) as [Hi|Hi].
    + rewrite lookup_load_bytes by done. destruct (decide (i < length l0)%nat).
      * rewrite lookup_app_l, memmove_out by (done || lia).
        rewrite <- Hl0, lookup_load_bytes by done. done.
      * rewrite lookup_app_r, memmove_in by (done || rewrite ?Hu; lia).
        rewrite <- Hl, lookup_load_bytes by lia. do 2 f_equal. lia.
    + rewrite !lookup_ge_None_2; [done| |]; rewrite ?length_load_bytes, ?length_app; lia.
Qed.

Lemma copyout_buf_ok s v h P U bp bn user um dst l0 off n Q :
  op s v h P U -> h !! bp = Some bn -> delivered s user um dst l0 ->
  room_at user um dst (length l0 + n) ->
  (0 < n)%nat -> 0 <= off -> off + Z.of_nat n <= BSIZE ->
  (forall s', op s' v h P U -> fs_frame s s' -> k_itable s' = k_itable s ->
     delivered s' user um dst (l0 ++ take n (drop (Z.to_nat off) (v bn))) -> Q 0 s') ->
  wp (copyout_buf user (dst + Z.of_nat (length l0)) bp off (Z.of_nat n)) s Q.
Proof.
  intros Ho Hb HD Hr Hn Hoff Hend HQ. pose proof (op_held_lt _ _ _ _ _ _ _ Ho Hb) as Hbp.
  destruct (op_blocks _ _ _ _ _ Ho bn) as [Hd Hdb]. unfold copyout_buf.
  apply wp_bind. eapply op_bdata; [done|done|]. unfold store_mem. apply wp_bind, wp_vm, wp_modify.
  assert (HD1 := buffer_store_delivered s user um dst l0 bp (v bn) HD).
  set (l := take n (drop (Z.to_nat off) (v bn))) in *.
  assert (Hlen : length l = n) by (unfold l; rewrite length_take, length_drop, Hd; unfold BSIZE in *; lia).
  set (s1 := set_k_km _ s) in *. rewrite <- Hlen.
  apply (either_copyout_ok s1 user um dst l0 l (bufaddr bp + off)); rewrite ?Hlen; try done.
  - apply HD1; try done. destruct user; [by right|left]. destruct Hr as (_ & _ & Hr).
    intros b Hb'. specialize (Hr b Hb'). lia.
  - exists bp. split_and!; [done|lia|lia].
  - by apply Forall_take, Forall_drop.
  - unfold l. rewrite <- (Z2Nat.id off) at 1 by done. apply load_part.
    + rewrite Hd. apply load_store_bytes; [by rewrite Hd|done].
    + rewrite Hd. unfold BSIZE in *. lia.
  - intros k HD2. apply HQ; [by apply (op_same s)| |done|done].
    transitivity s1; apply frame_km.
Qed.
End io.
