(* ===== verification/FsInode.v ===== *)
(** The contents of inodes, [kernel/fs.c]: [bmap], [readi], [writei] and
    [iupdate] on a file seen as a sequence of bytes. *)

From stdpp Require Import gmap.
From S2P Require Import Prelude CString Layout Kalloc Vm Sleeplock Bio Log LogSafe Kernel UserMem Sched Uart Printf Fs FsTx FsAlloc FsIo.

(** The sizes as numbers. *)
Ltac sizes := change MAXFILE with 268 in *; change NINDIRECT with 256 in *; unfold NDIRECT, BSIZE in *.

(** * Files *)

(** The disk block of block [k] of a file, 0 for none. *)
Definition baddr (v : Z -> list Z) (d : dinode) (k : Z) : Z :=
  if k <? NDIRECT then get_addr k d
  else if get_addr NDIRECT d =? 0 then 0
  else get32 (v (get_addr NDIRECT d)) (Z.to_nat (4 * (k - NDIRECT))).

(** Byte [i] of a file; a missing block reads as zeros. *)
Definition fbyte (v : Z -> list Z) (d : dinode) (i : Z) : Z :=
  let a := baddr v d (i / BSIZE) in
  if a =? 0 then 0 else byte_at (v a) (i mod BSIZE).

Definition fbytes (v : Z -> list Z) (d : dinode) (off : Z) (n : nat) : list Z :=
  fbyte v d <$> range off n.

(** A block that may belong to a file. *)
Definition datablk (sb : superblock) (v : Z -> list Z) (n : Z) : Prop :=
  0 < n < sb_size sb /\ allocated sb v n = true /\ ~ reserved sb n.

Record inode_ok (sb : superblock) (v : Z -> list Z) (d : dinode) : Prop := {
  io_len : length (d_addrs d) = 13%nat;
  io_size : 0 <= d_size d <= MAXFILE * BSIZE;
  io_data : forall k, 0 <= k < MAXFILE -> baddr v d k <> 0 -> datablk sb v (baddr v d k);
  io_ind : get_addr NDIRECT d <> 0 -> datablk sb v (get_addr NDIRECT d);
  io_inj : forall k k', 0 <= k < MAXFILE -> 0 <= k' < MAXFILE ->
    baddr v d k <> 0 -> baddr v d k = baddr v d k' -> k = k';
  io_ind_ne : forall k, 0 <= k < MAXFILE -> baddr v d k <> 0 -> baddr v d k <> get_addr NDIRECT d;
  io_full : forall k, 0 <= k -> k * BSIZE < d_size d -> baddr v d k <> 0;
}.

Lemma datablk_home sb v n : sb_ok sb -> datablk sb v n -> home sb n.
Proof.
  intros Hsb (Hn & _ & Hr). split; [destruct (so_size _ Hsb); unfold BPB, BSIZE in *; lia|].
  intros H. apply Hr. right. left. by intros H'.
Qed.

Lemma datablk_ext sb v v' n :
  datablk sb v n -> (allocated sb v n = true -> allocated sb v' n = true) -> datablk sb v' n.
Proof. intros (H1 & H2 & H3) H. split_and!; auto; lia. Qed.

(** [r] is no block of the file. *)
Definition foreign (v : Z -> list Z) (d : dinode) (r : Z) : Prop :=
  r <> 0 /\ r <> get_addr NDIRECT d /\ forall k, 0 <= k < MAXFILE -> baddr v d k <> r.

(** A file depends only on its own blocks. *)
Lemma baddr_ext v v' d k :
  (get_addr NDIRECT d <> 0 -> v' (get_addr NDIRECT d) = v (get_addr NDIRECT d)) ->
  baddr v' d k = baddr v d k.
Proof.
  intros H. unfold baddr. destruct (k <? NDIRECT); [done|].
  destruct (Z.eqb_spec (get_addr NDIRECT d) 0); [done|]. by rewrite H.
Qed.

Lemma fbyte_ext sb v v' d i :
  inode_ok sb v d -> (forall n, datablk sb v n -> v' n = v n) -> 0 <= i < MAXFILE * BSIZE ->
  fbyte v' d i = fbyte v d i.
Proof.
  intros H Hv Hi. unfold fbyte.
  rewrite (baddr_ext v v') by (intros; apply Hv; by apply H).
  destruct (Z.eqb_spec (baddr v d (i / BSIZE)) 0); [done|]. rewrite Hv; [done|].
  apply H; [|done]. sizes. Z.div_mod_to_equations; lia.
Qed.

Lemma inode_ok_ext sb v v' d :
  inode_ok sb v d -> (forall n, datablk sb v n -> v' n = v n) ->
  (forall n, datablk sb v n -> allocated sb v' n = true) -> inode_ok sb v' d.
Proof.
  intros H Hv Ha.
  assert (Hb : forall k, baddr v' d k = baddr v d k) by (intros k; apply baddr_ext; intros; apply Hv; by apply H).
  destruct H as [H1 H2 H3 H4 H5 H6 H7].
  split; try done.
  - intros k Hk. rewrite Hb. intros Hne. eapply datablk_ext; [by apply H3|]. intros _. by apply Ha, H3.
  - intros Hne. eapply datablk_ext; [by apply H4|]. intros _. by apply Ha, H4.
  - intros k k' ??. rewrite !Hb. by apply H5.
  - intros k ?. rewrite !Hb. by apply H6.
  - intros k ??. rewrite Hb. by apply H7.
Qed.

(** * Growing a file *)

(** The file after blocks were added to it; nothing it held is lost, and no
    other file's block is touched. *)
Record grown (sb : superblock) (v : Z -> list Z) (d : dinode) (v' : Z -> list Z) (d' : dinode) : Prop := {
  gr_ok : inode_ok sb v' d';
  gr_map : bitmap_ok sb v';
  gr_bytes : forall i, 0 <= i < MAXFILE * BSIZE -> fbyte v' d' i = fbyte v d i;
  gr_addr : forall k, 0 <= k < MAXFILE -> baddr v d k <> 0 -> baddr v' d' k = baddr v d k;
  gr_ind : get_addr NDIRECT d <> 0 -> get_addr NDIRECT d' = get_addr NDIRECT d;
  gr_meta : d' = set_d_addrs (d_addrs d') d;
  gr_alloc : forall b, 0 <= b < sb_size sb -> allocated sb v b = true -> allocated sb v' b = true;
  gr_inode : forall i, 0 <= i < sb_ninodes sb -> v' (IBLOCK i sb) = v (IBLOCK i sb);
  gr_other : forall n, datablk sb v n -> foreign v d n -> v' n = v n /\ foreign v' d' n;
}.

Lemma file_grown_refl sb v d : inode_ok sb v d -> bitmap_ok sb v -> grown sb v d v d.
Proof. intros H1 H2. split; try done. by destruct d. Qed.

Lemma file_grown_trans sb v d v1 d1 v2 d2 :
  grown sb v d v1 d1 -> grown sb v1 d1 v2 d2 -> grown sb v d v2 d2.
Proof.
  intros [A1 A2 A3 A4 A5 A6 A7 A8 A9] [B1 B2 B3 B4 B5 B6 B7 B8 B9]. split; auto.
  - intros i Hi. rewrite B3 by done. auto.
  - intros k Hk Hne. rewrite B4; [auto|done|]. by rewrite A4.
  - intros Hne. rewrite B5; [auto|]. by rewrite A5.
  - rewrite B6, A6. by destruct d.
  - intros i Hi. rewrite B8 by done. auto.
  - intros n Hd Hf. destruct (A9 n Hd Hf) as [E F].
    destruct (B9 n) as [E' F']; [|done|by rewrite E', E].
    eapply datablk_ext; [done|]. apply A7. destruct Hd as (? & _). lia.
Qed.

Section growing.
Context (sb : superblock) (Hsb : sb_ok sb).

(** A block taken from the free ones. *)
Lemma alloc_view_same v r n :
  bitmap_ok sb v -> 0 <= r < sb_size sb -> allocated sb v r = false ->
  datablk sb v n -> alloc_view sb v r n = v n.
Proof.
  intros Hbm Hr Hf (Hn & Ha & Hres). unfold alloc_view. rewrite !fset_ne; [done| |].
  - intros ->. apply Hres. right. right. left. by exists r.
  - intros ->. congruence.
Qed.

Lemma alloc_inode_block v r i :
  bitmap_ok sb v -> 0 <= r < sb_size sb -> allocated sb v r = false -> 0 <= i < sb_ninodes sb ->
  alloc_view sb v r (IBLOCK i sb) = v (IBLOCK i sb).
Proof.
  intros Hbm Hr Hf Hi. destruct (free_home sb v r Hsb Hbm Hr Hf) as (_ & _ & _ & Hres).
  unfold alloc_view. rewrite !fset_ne; [done|by apply so_disjoint|].
  intros <-. apply Hres. right. right. right. by exists i.
Qed.

Lemma alloc_fresh v d r :
  inode_ok sb v d -> bitmap_ok sb v -> 0 <= r < sb_size sb -> allocated sb v r = false -> foreign v d r.
Proof.
  intros H Hbm Hr Hf. destruct (free_home sb v r Hsb Hbm Hr Hf) as (_ & Hr0 & _). split_and!; [done| |].
  - intros ->. destruct (io_ind _ _ _ H Hr0) as (_ & ? & _). congruence.
  - intros k Hk <-. destruct (io_data _ _ _ H k Hk Hr0) as (_ & ? & _). congruence.
Qed.

Lemma alloc_grown v d r :
  inode_ok sb v d -> bitmap_ok sb v -> (forall n, block_ok (v n)) -> 0 <= r < sb_size sb ->
  allocated sb v r = false ->
  grown sb v d (alloc_view sb v r) d /\ datablk sb (alloc_view sb v r) r /\
  foreign (alloc_view sb v r) d r /\ alloc_view sb v r r = replicate (Z.to_nat BSIZE) 0.
Proof.
  intros H Hbm Hv Hr Hf. destruct (free_home sb v r Hsb Hbm Hr Hf) as (_ & Hr0 & _ & Hres).
  assert (Hall : forall b, 0 <= b < sb_size sb ->
    allocated sb (alloc_view sb v r) b = (b =? r) || allocated sb v b) by (intros; by apply alloc_allocated).
  assert (Hsame : forall n, datablk sb v n -> alloc_view sb v r n = v n) by (intros; by apply alloc_view_same).
  assert (Hba : forall k, baddr (alloc_view sb v r) d k = baddr v d k)
    by (intros k; apply baddr_ext; intros; by apply Hsame, H).
  split_and!.
  - split; try done.
    + apply (inode_ok_ext sb v); [done|done|]. intros n (Hn & Ha & _). rewrite Hall, Ha by lia. apply orb_true_r.
    + intros n Hn Hrn. rewrite Hall, Hbm by done. apply orb_true_r.
    + intros i Hi. by apply (fbyte_ext sb).
    + by destruct d.
    + intros b Hb Ha. rewrite Hall, Ha by done. apply orb_true_r.
    + intros i Hi. by apply alloc_inode_block.
    + intros n Hd (F1 & F2 & F3). split; [by apply Hsame|]. split_and!; try done. intros k Hk. rewrite Hba. auto.
  - split_and!; [lia|lia| |done]. rewrite Hall by done. by rewrite Z.eqb_refl.
  - destruct (alloc_fresh v d r H Hbm Hr Hf) as (F1 & F2 & F3). split_and!; try done.
    intros k Hk. rewrite Hba. auto.
  - unfold alloc_view. apply fset_eq.
Qed.

Lemma allocated_same v v' b :
  0 <= b < sb_size sb -> v' (BBLOCK b sb) = v (BBLOCK b sb) -> allocated sb v' b = allocated sb v b.
Proof. intros Hb E. unfold allocated. by rewrite E. Qed.

Lemma byte_at_zeros i : byte_at (replicate (Z.to_nat BSIZE) 0) i = 0.
Proof.
  unfold byte_at. destruct (replicate _ _ !! _) as [x|] eqn:E; [|done].
  by apply lookup_replicate in E as [-> _].
Qed.

(** The new block becomes block [k0] of the file. *)
Lemma link_data v d r k0 v2 d2 :
  inode_ok sb v d -> bitmap_ok sb v -> (forall n, block_ok (v n)) -> 0 <= r < sb_size sb ->
  allocated sb v r = false -> 0 <= k0 < MAXFILE -> baddr v d k0 = 0 ->
  length (d_addrs d2) = 13%nat -> d2 = set_d_addrs (d_addrs d2) d ->
  get_addr NDIRECT d2 = get_addr NDIRECT d ->
  (forall k, 0 <= k < MAXFILE -> baddr v2 d2 k = if k =? k0 then r else baddr (alloc_view sb v r) d k) ->
  (forall n, v2 n = alloc_view sb v r n \/ (n = get_addr NDIRECT d /\ n <> 0)) ->
  grown sb v d v2 d2.
Proof.
  intros H Hbm Hbl Hr Hf Hk0 Hz Hlen Hmeta Hind Hba Hv2.
  assert (Hsz : d_size d2 = d_size d) by (by rewrite Hmeta).
  destruct (alloc_grown v d r H Hbm Hbl Hr Hf) as ([A1 A2 A3 A4 A5 A6 A7 A8 A9] & Hdr & Hfr & Hzr).
  set (v1 := alloc_view sb v r) in *.
  assert (Hz1 : baddr v1 d k0 = 0).
  { rewrite <- Hz. apply baddr_ext. intros Hne. by apply alloc_view_same, H. }
  assert (Hsame : forall n, n <> get_addr NDIRECT d -> v2 n = v1 n) by (intros n Hn; destruct (Hv2 n); naive_solver).
  assert (Hres : forall n, reserved sb n -> v2 n = v1 n).
  { intros n Hn. destruct (Hv2 n) as [|[-> Hne]]; [done|]. by destruct (io_ind _ _ _ A1 Hne) as (_ & _ & []). }
  assert (Hall : forall b, 0 <= b < sb_size sb -> allocated sb v2 b = allocated sb v1 b).
  { intros b Hb. apply allocated_same; [done|]. apply Hres. right. right. left. by exists b. }
  assert (Hdb : forall n, datablk sb v1 n -> datablk sb v2 n).
  { intros n Hn. eapply datablk_ext; [done|]. destruct Hn as (Hn & _). by rewrite Hall by lia. }
  destruct Hfr as (Hr0 & Hrind & Hrk). split.
  - split; rewrite ?Hind.
    + done.
    + rewrite Hsz. apply A1.
    + intros k Hk. rewrite Hba by done. destruct (Z.eqb_spec k k0); [by intros; apply Hdb|].
      intros Hne. by apply Hdb, A1.
    + intros Hne. by apply Hdb, A1.
    + intros k k' Hk Hk'. rewrite !Hba by done.
      destruct (Z.eqb_spec k k0), (Z.eqb_spec k' k0); [congruence|..|by apply A1].
      * intros _ E. by destruct (Hrk k' Hk').
      * intros _ E. by destruct (Hrk k Hk).
    + intros k Hk. rewrite Hba by done. destruct (Z.eqb_spec k k0); [done|by apply A1].
    + rewrite Hsz. intros k Hk Hks.
      assert (k < MAXFILE) by (pose proof (io_size _ _ _ H); unfold BSIZE in *; lia).
      rewrite Hba by lia. destruct (Z.eqb_spec k k0); [done|by apply A1].
  - intros n Hn Hrn. rewrite Hall by done. by apply A2.
  - intros i Hi. rewrite <- A3 by done. unfold fbyte.
    assert (Hk : 0 <= i / BSIZE < MAXFILE) by (sizes; Z.div_mod_to_equations; lia).
    rewrite Hba by done. destruct (Z.eqb_spec (i / BSIZE) k0) as [E|E].
    + destruct (Z.eqb_spec r 0); [done|]. rewrite E, Hz1, Hsame, Hzr by done. apply byte_at_zeros.
    + destruct (Z.eqb_spec (baddr v1 d (i / BSIZE)) 0); [done|]. rewrite Hsame; [done|]. by apply A1.
  - intros k Hk Hne. rewrite Hba, A4 by done. destruct (Z.eqb_spec k k0); [congruence|done].
  - done.
  - done.
  - intros b Hb Ha. rewrite Hall by done. auto.
  - intros i Hi. rewrite Hres; [auto|]. right. right. right. by exists i.
  - intros n Hd Hfo. destruct (A9 n Hd Hfo) as [E (F1 & F2 & F3)]. destruct Hd as (_ & Ha & _).
    rewrite Hsame by done. split; [done|]. split_and!; [done|by rewrite Hind|].
    intros k Hk. rewrite Hba by done. destruct (Z.eqb_spec k k0); [congruence|auto].
Qed.

(** The new block becomes the indirect block. *)
Lemma link_ind v d r d2 :
  inode_ok sb v d -> bitmap_ok sb v -> (forall n, block_ok (v n)) -> 0 <= r < sb_size sb ->
  allocated sb v r = false -> get_addr NDIRECT d = 0 -> 
  length (d_addrs d2) = 13%nat -> d2 = set_d_addrs (d_addrs d2) d -> get_addr NDIRECT d2 = r ->
  (forall k, 0 <= k < MAXFILE -> baddr (alloc_view sb v r) d2 k = baddr (alloc_view sb v r) d k) ->
  grown sb v d (alloc_view sb v r) d2.
Proof.
  intros H Hbm Hbl Hr Hf Hz Hlen Hmeta Hind Hba.
  assert (Hsz : d_size d2 = d_size d) by (by rewrite Hmeta).
  destruct (alloc_grown v d r H Hbm Hbl Hr Hf) as ([A1 A2 A3 A4 A5 A6 A7 A8 A9] & Hdr & (Hr0 & Hrind & Hrk) & Hzr).
  set (v1 := alloc_view sb v r) in *. split; try done.
  - split; rewrite ?Hind; try done.
    + rewrite Hsz. apply A1.
    + intros k Hk. rewrite Hba by done. by apply A1.
    + intros k k' Hk Hk'. rewrite !Hba by done. by apply A1.
    + intros k Hk. rewrite Hba by done. intros _. by apply Hrk.
    + rewrite Hsz. intros k Hk Hks.
      assert (k < MAXFILE) by (pose proof (io_size _ _ _ H); unfold BSIZE in *; lia).
      rewrite Hba by lia. by apply A1.
  - intros i Hi. rewrite <- A3 by done. unfold fbyte. rewrite Hba; [done|].
    sizes; Z.div_mod_to_equations; lia.
  - intros k Hk. rewrite Hba by done. by apply A4.
  - intros n Hd Hfo. destruct (A9 n Hd Hfo) as [E (F1 & F2 & F3)]. split; [done|].
    destruct Hd as (_ & Ha & _). split_and!; [done|congruence|]. intros k Hk. rewrite Hba by done. auto.
Qed.

(** The updates [bmap] makes. *)
Lemma get_set_addr d k k' a :
  length (d_addrs d) = 13%nat -> 0 <= k <= NDIRECT -> 0 <= k' ->
  get_addr k' (set_addr k a d) = if k' =? k then a else get_addr k' d.
Proof.
  intros Hl Hk Hk'. unfold get_addr, set_addr, NDIRECT in *. simpl. destruct (Z.eqb_spec k' k) as [->|Hne].
  - rewrite list_lookup_insert_eq by lia. done.
  - by rewrite list_lookup_insert_ne by lia.
Qed.

Lemma set_addr_meta k a d : set_addr k a d = set_d_addrs (d_addrs (set_addr k a d)) d.
Proof. done. Qed.

Lemma length_set_addr k a d : length (d_addrs (set_addr k a d)) = length (d_addrs d).
Proof. apply length_insert. Qed.

Lemma bmap_direct_grown v d r k :
  inode_ok sb v d -> bitmap_ok sb v -> (forall n, block_ok (v n)) -> 0 <= r < sb_size sb ->
  allocated sb v r = false -> 0 <= k < NDIRECT -> get_addr k d = 0 ->
  grown sb v d (alloc_view sb v r) (set_addr k r d) /\ baddr (alloc_view sb v r) (set_addr k r d) k = r.
Proof.
  intros H Hbm Hbl Hr Hf Hk Hz. pose proof (io_len _ _ _ H) as Hlen.
  assert (Hba : forall k', 0 <= k' -> baddr (alloc_view sb v r) (set_addr k r d) k' =
    if k' =? k then r else baddr (alloc_view sb v r) d k').
  { intros k' Hk'. unfold baddr. rewrite !get_set_addr by (unfold NDIRECT in *; lia).
    destruct (Z.ltb_spec k' NDIRECT); [done|].
    unfold NDIRECT in *. destruct (Z.eqb_spec 12 k); [lia|]. by destruct (Z.eqb_spec k' k); [lia|]. }
  split; [|rewrite Hba by lia; by rewrite Z.eqb_refl].
  apply (link_data v d r k); try done.
  - sizes. lia.
  - unfold baddr. by destruct (Z.ltb_spec k NDIRECT); [|lia].
  - by rewrite length_set_addr.
  - rewrite get_set_addr by (unfold NDIRECT in *; lia). unfold NDIRECT in *. by destruct (Z.eqb_spec 12 k); [lia|].
  - intros k' Hk'. apply Hba. lia.
  - intros n. by left.
Qed.

Lemma le_combine_zeros l : Forall (eq 0) l -> le_combine l = 0.
Proof. induction 1 as [|x l <- H IH]; [done|]. simpl. rewrite IH. done. Qed.

Lemma get32_zeros off : get32 (replicate (Z.to_nat BSIZE) 0) off = 0.
Proof. apply le_combine_zeros, Forall_take, Forall_drop. by apply Forall_replicate. Qed.

Lemma bmap_ind_grown v d r :
  inode_ok sb v d -> bitmap_ok sb v -> (forall n, block_ok (v n)) -> 0 <= r < sb_size sb ->
  allocated sb v r = false -> get_addr NDIRECT d = 0 ->
  grown sb v d (alloc_view sb v r) (set_addr NDIRECT r d) /\
  forall k, NDIRECT <= k -> baddr (alloc_view sb v r) (set_addr NDIRECT r d) k = 0.
Proof.
  intros H Hbm Hbl Hr Hf Hz. pose proof (io_len _ _ _ H) as Hlen.
  destruct (alloc_grown v d r H Hbm Hbl Hr Hf) as (_ & _ & (Hr0 & _) & Hzr).
  assert (Hhi : forall k, NDIRECT <= k -> baddr (alloc_view sb v r) (set_addr NDIRECT r d) k = 0).
  { intros k Hk. unfold baddr. rewrite !get_set_addr by (unfold NDIRECT in *; lia).
    destruct (Z.ltb_spec k NDIRECT); [lia|]. rewrite Z.eqb_refl.
    destruct (Z.eqb_spec r 0); [done|]. rewrite Hzr. apply get32_zeros. }
  split; [|done]. apply link_ind; try done.
  - by rewrite length_set_addr.
  - rewrite get_set_addr by (unfold NDIRECT in *; lia). by rewrite Z.eqb_refl.
  - intros k Hk. destruct (decide (NDIRECT <= k)).
    + rewrite Hhi by done. unfold baddr. destruct (Z.ltb_spec k NDIRECT); [lia|]. by rewrite Hz.
    + unfold baddr. rewrite !get_set_addr by (unfold NDIRECT in *; lia).
      destruct (Z.ltb_spec k NDIRECT); [|lia]. by destruct (Z.eqb_spec k NDIRECT); [lia|].
Qed.

Lemma bmap_slot_grown v d r k :
  inode_ok sb v d -> bitmap_ok sb v -> (forall n, block_ok (v n)) -> 0 <= r < sb_size sb ->
  allocated sb v r = false -> NDIRECT <= k < MAXFILE -> get_addr NDIRECT d <> 0 -> baddr v d k = 0 ->
  let a := get_addr NDIRECT d in
  let v1 := alloc_view sb v r in
  let v2 := fset v1 a (put32 (v1 a) (Z.to_nat (4 * (k - NDIRECT))) r) in
  grown sb v d v2 d /\ baddr v2 d k = r.
Proof.
  intros H Hbm Hbl Hr Hf Hk Hne Hz a v1 v2. pose proof (io_len _ _ _ H) as Hlen.
  destruct (alloc_grown v d r H Hbm Hbl Hr Hf) as (_ & _ & (Hr0 & _) & Hzr).
  assert (Hla : length (v1 a) = Z.to_nat BSIZE).
  { unfold v1. rewrite alloc_view_same by (done || by apply H). apply Hbl. }
  assert (Hru : u32 r = r) by (apply u32_small; pose proof (so_size _ Hsb); unfold BPB, BSIZE in *; lia).
  assert (Hba : forall k', 0 <= k' < MAXFILE -> baddr v2 d k' = if k' =? k then r else baddr v1 d k').
  { intros k' Hk'. unfold baddr. fold a. destruct (Z.ltb_spec k' NDIRECT).
    { by destruct (Z.eqb_spec k' k); [lia|]. }
    destruct (Z.eqb_spec a 0); [done|]. unfold v2. rewrite fset_eq.
    sizes. destruct (Z.eqb_spec k' k) as [->|].
    - rewrite get32_put32_eq by lia. done.
    - rewrite get32_put32_ne by lia. done. }
  split; [|rewrite Hba by (unfold NDIRECT in *; lia); by rewrite Z.eqb_refl].
  apply (link_data v d r k); try done.
  - unfold NDIRECT in *. lia.
  - by destruct d.
  - intros n. unfold v2, fset. destruct (Z.eqb_spec n a) as [->|]; [by right|by left].
Qed.
End growing.

Lemma put32_bytes d off x : Forall is_byte d -> Forall is_byte (put32 d off x).
Proof.
  intros H. unfold put32. rewrite !Forall_app. split_and!; [by apply Forall_take| |by apply Forall_drop].
  apply le_split_bytes.
Qed.

(** * [bmap] *)

Section bmap.
Context `{KE : KernelEnd, PL : Platform} {UR : UartReady}.

(** The in-memory inode [ip] holds the disk inode [d]. *)
Definition inode_at (s : kernel) (ip : nat) (d : dinode) : Prop :=
  i_dev (k_itable s ip) = ROOTDEV /\ i_d (k_itable s ip) = d.

(** Only the disk inode held by [ip] has changed, to [d']. *)
Definition inode_changed (s s' : kernel) (ip : nat) (d' : dinode) : Prop :=
  forall j, k_itable s' j = if decide (j = ip) then set_d (fun _ => d') (k_itable s j) else k_itable s j.

(** What [fs.c] relies on in the middle of an operation. *)
Record fs_ok (s : kernel) (v : Z -> list Z) : Prop := {
  fo_sb : sb_ok (k_sb s);
  fo_map : bitmap_ok (k_sb s) v;
  fo_quiet : quiet s;
}.

Lemma inode_changed_same s s' ip d :
  k_itable s' = k_itable s -> i_d (k_itable s ip) = d -> inode_changed s s' ip d.
Proof.
  intros E <- j. rewrite E. case_decide; [subst|done]. by destruct (k_itable s ip).
Qed.

Lemma inode_changed_set s s1 ip f :
  k_itable s1 = k_itable s -> inode_changed s (set_inode ip (set_d f) s1) ip (f (i_d (k_itable s ip))).
Proof. intros E j. simpl. unfold upd. rewrite E. case_decide; [by subst|done]. Qed.

Lemma inode_changed_trans s s1 s2 ip d1 d2 :
  inode_changed s s1 ip d1 -> inode_changed s1 s2 ip d2 -> inode_changed s s2 ip d2.
Proof.
  intros H1 H2 j. rewrite H2, H1. case_decide; [|done]. by destruct (k_itable s j).
Qed.

Lemma inode_changed_at s s' ip d d' :
  inode_at s ip d -> inode_changed s s' ip d' -> inode_at s' ip d'.
Proof. intros [H1 _] H. unfold inode_at. rewrite H, decide_True by done. done. Qed.

Lemma frame_fs_ok s s' v v' :
  fs_ok s v -> fs_frame s s' -> bitmap_ok (k_sb s) v' -> fs_ok s' v'.
Proof.
  intros [H1 _ H3] F Hbm. split; rewrite ?(frame_sb _ _ F); try done. by eapply frame_quiet.
Qed.

Lemma size_two (a b : Z) (P : gset Z) : (size ({[a]} ∪ ({[b]} ∪ P) : gset Z) <= size P + 2)%nat.
Proof. pose proof (size_insert_le a ({[b]} ∪ P)). pose proof (size_insert_le b P). lia. Qed.

(** How [bmap] ends. *)
Definition bmap_post (s : kernel) (v : Z -> list Z) (P : gset Z) (ip : nat) (d : dinode) (bn : Z)
    (r : Z) (s' : kernel) : Prop :=
  exists v' P' d', op s' v' ∅ P' ∅ /\ grown (k_sb s) v d v' d' /\ (size P' <= size P + 5)%nat /\
    fs_frame s s' /\ k_km s' = k_km s /\ inode_changed s s' ip d' /\ r = baddr v' d' bn /\
    (r = 0 -> forall b, 0 <= b < sb_size (k_sb s) -> allocated (k_sb s) v' b = true).

Lemma can_balloc_nil s v P : fs_ok s v -> (size P < 28)%nat -> can_balloc s v ∅ P.
Proof.
  intros [H1 H2 H3] HP. split; try done. rewrite map_size_empty. unfold NBUF. lia.
Qed.

Lemma bmap_direct_ok s v P ip d bn :
  op s v ∅ P ∅ -> fs_ok s v -> inode_at s ip d -> inode_ok (k_sb s) v d -> 0 <= bn < NDIRECT ->
  (size P + 5 < 28)%nat -> wp (bmap ip bn) s (bmap_post s v P ip d bn).
Proof.
  intros Ho HF [Hdev Hd] HI Hbn HP. unfold bmap, the_inode. apply wp_bind, wp_gets.
  destruct (Z.ltb_spec bn NDIRECT); [|lia]. rewrite Hd, Hdev.
  assert (Hba : forall v, baddr v d bn = get_addr bn d).
  { intros w. unfold baddr. by destruct (Z.ltb_spec bn NDIRECT); [|lia]. }
  destruct (Z.eqb_spec (get_addr bn d) 0) as [Hz|Hnz].
  - apply wp_bind, (balloc_ok s v ∅ P); [done|apply can_balloc_nil; [done|lia]|..].
    + intros s1 H1 K1 Hfull. apply wp_ret. exists v, P, d. destruct K1 as (F & Ei & Ek).
      split_and!; try done; [apply file_grown_refl; [done|apply HF]|lia|by apply inode_changed_same|].
      by rewrite Hba.
    + intros s1 r Hr Hf _ H1 K1. destruct (Z.eqb_spec r 0); [lia|]. wp_steps.
      destruct (bmap_direct_grown (k_sb s) (fo_sb _ _ HF) v d r bn) as [Hg Hb];
        try done; [apply HF|apply Ho|lia|].
      exists (alloc_view (k_sb s) v r), ({[r]} ∪ ({[BBLOCK r (k_sb s)]} ∪ P)), (set_addr bn r d).
      destruct K1 as (F & Ei & Ek). split_and!; try done.
      * by apply (op_same s1).
      * pose proof (size_two r (BBLOCK r (k_sb s)) P). lia.
      * etransitivity; [exact F|apply frame_inode].
      * rewrite <- Hd. by apply (inode_changed_set s s1 ip (set_addr bn r)).
  - apply wp_ret. exists v, P, d.
    split_and!; [done|apply file_grown_refl; [done|apply HF]|lia|reflexivity|done|
      by apply inode_changed_same|by rewrite Hba|done].
Qed.

(** The indirect block is there: look the address up, adding a block when there
    is none. *)
Lemma bmap_slot_ok s v P ip d bn :
  op s v ∅ P ∅ -> fs_ok s v -> inode_at s ip d -> inode_ok (k_sb s) v d -> NDIRECT <= bn < MAXFILE ->
  get_addr NDIRECT d <> 0 -> (size P + 3 < 28)%nat ->
  wp (bp ← fb (bread ROOTDEV (get_addr NDIRECT d));
      a ← bdata bp;
      let addr := get32 a (Z.to_nat (4 * (bn - NDIRECT))) in
      addr ← (if addr =? 0 then
                addr ← balloc ROOTDEV;
                when (ctrue addr) (
                  a ← bdata bp;
                  bput bp (put32 a (Z.to_nat (4 * (bn - NDIRECT))) addr);;
                  fl (log_write bp));;
                mret addr
              else mret addr);
      brelse_buf bp;;
      mret addr) s (fun r s' => exists v' P', op s' v' ∅ P' ∅ /\ grown (k_sb s) v d v' d /\
        (size P' <= size P + 3)%nat /\ keeps s s' /\ r = baddr v' d bn /\
        (r = 0 -> forall b, 0 <= b < sb_size (k_sb s) -> allocated (k_sb s) v' b = true)).
Proof.
  intros Ho HF Hat HI Hbn Hne HP. set (a := get_addr NDIRECT d) in *.
  pose proof (io_ind _ _ _ HI Hne) as Hda. fold a in Hda.
  assert (Hba : baddr v d bn = get32 (v a) (Z.to_nat (4 * (bn - NDIRECT)))).
  { unfold baddr. fold a. destruct (Z.ltb_spec bn NDIRECT); [lia|]. by destruct (Z.eqb_spec a 0). }
  apply wp_bind. eapply op_bread; [done|done|right; rewrite map_size_empty; unfold NBUF; lia|].
  intros bp s1 _ H1 K1. apply wp_bind. eapply op_bdata; [done|apply lookup_insert_eq|]. cbv zeta.
  rewrite <- Hba. assert (Es : k_sb s1 = k_sb s) by apply (frame_sb _ _ (keeps_frame _ _ K1)).
  apply wp_bind. destruct (Z.eqb_spec (baddr v d bn) 0) as [Hz|Hnz].
  - assert (HC : can_balloc s1 v {[bp := a]} P).
    { split; rewrite ?Es; try apply HF; [by eapply frame_quiet, HF; apply keeps_frame| |lia|].
      - intros b n [<- <-]%lookup_singleton_Some. destruct Hda as (Hn & Ha & Hr). split; [|done].
        intros x Hx ->. apply Hr. right. right. left. by exists x.
      - rewrite map_size_singleton. unfold NBUF. lia. }
    rewrite insert_empty in H1.
    apply wp_bind, (balloc_ok s1 v {[bp := a]} P); [done|done|..]; rewrite ?Es.
    + intros s2 H2 K2 Hfull. wp_steps. eapply op_brelse; [exact H2|apply lookup_singleton_eq|done|].
      intros s3 H3 K3. rewrite delete_singleton_eq in H3. apply wp_ret. exists v, P.
      split_and!; try done; [apply file_grown_refl; [done|apply HF]|lia|by rewrite K1, K2].
    + intros s2 r Hr Hf _ H2 K2. unfold ctrue. destruct (Z.eqb_spec r 0); [lia|]. cbn [negb when].
      apply wp_bind, wp_bind. eapply op_bdata; [exact H2|apply lookup_singleton_eq|].
      set (v1 := alloc_view (k_sb s) v r) in *.
      destruct (bmap_slot_grown (k_sb s) (fo_sb _ _ HF) v d r bn) as [Hg Hb];
        try done; [apply HF|apply Ho|lia|]. fold a v1 in Hg, Hb.
      set (P1 := {[r]} ∪ ({[BBLOCK r (k_sb s)]} ∪ P)) in *. pose proof (size_two r (BBLOCK r (k_sb s)) P) as HP1.
      fold P1 in HP1. pose proof (size_insert_le a P1).
      assert (K12 : keeps s s2) by (by rewrite K1).
      apply wp_bind. eapply op_bput; [exact H2|apply lookup_singleton_eq| |].
      { split; [|apply put32_bytes; apply H2]. rewrite length_put32; [apply H2|].
        destruct (op_blocks _ _ _ _ _ H2 a) as [-> _]. sizes. lia. }
      intros s3 H3 K3. eapply op_log_write; [exact H3|apply lookup_singleton_eq| |lia|].
      { rewrite (frame_sb _ _ (keeps_frame _ _ K3)), (frame_sb _ _ (keeps_frame _ _ K12)).
        by apply (datablk_home _ v); [apply HF|]. }
      intros s4 H4 K4. replace (({[a]} ∪ ∅) ∖ {[a]}) with (∅ : gset Z) in H4 by set_solver.
      wp_steps. eapply op_brelse; [exact H4|apply lookup_singleton_eq|done|].
      intros s5 H5 K5. rewrite delete_singleton_eq in H5. apply wp_ret.
      eexists _, _. split_and!; [exact H5|exact Hg|lia|by rewrite K12, K3, K4|done|lia].
  - wp_steps. eapply op_brelse; [exact H1|apply lookup_insert_eq|done|].
    intros s2 H2 K2. rewrite delete_insert_id in H2 by done. apply wp_ret. exists v, P.
    split_and!; try done; [apply file_grown_refl; [done|apply HF]|lia|by rewrite K1].
Qed.

Lemma bmap_ok s v P ip d bn :
  op s v ∅ P ∅ -> fs_ok s v -> inode_at s ip d -> inode_ok (k_sb s) v d -> 0 <= bn < MAXFILE ->
  (size P + 5 < 28)%nat -> wp (bmap ip bn) s (bmap_post s v P ip d bn).
Proof.
  intros Ho HF Hat HI Hbn HP. destruct (decide (bn < NDIRECT)) as [Hlt|Hge].
  { apply bmap_direct_ok; try done. lia. }
  destruct Hat as [Hdev Hd]. unfold bmap, the_inode. apply wp_bind, wp_gets.
  destruct (Z.ltb_spec bn NDIRECT); [lia|]. rewrite Hd, Hdev. cbv zeta.
  destruct (Z.ltb_spec (bn - NDIRECT) NINDIRECT); [|unfold MAXFILE in *; lia].
  apply wp_bind. destruct (Z.eqb_spec (get_addr NDIRECT d) 0) as [Hz|Hnz].
  - apply wp_bind, (balloc_ok s v ∅ P); [done|apply can_balloc_nil; [done|lia]|..].
    + intros s1 H1 (F & Ei & Ek) Hfull. wp_steps. exists v, P, d.
      split_and!; [done|apply file_grown_refl; [done|apply HF]|lia|done|done|by apply inode_changed_same| |done].
      unfold baddr. destruct (Z.ltb_spec bn NDIRECT); [lia|]. by rewrite Hz.
    + intros s1 r Hr Hf _ H1 (F & Ei & Ek). destruct (Z.eqb_spec r 0); [lia|].
      apply wp_bind, wp_modify, wp_ret. cbv beta iota.
      destruct (bmap_ind_grown (k_sb s) (fo_sb _ _ HF) v d r) as [Hg _]; try done; [apply HF|apply Ho|lia|].
      set (s2 := set_inode ip _ s1). set (d1 := set_addr NDIRECT r d) in *.
      set (P1 := {[r]} ∪ ({[BBLOCK r (k_sb s)]} ∪ P)) in *. pose proof (size_two r (BBLOCK r (k_sb s)) P) as HP1.
      fold P1 in HP1. set (v1 := alloc_view (k_sb s) v r) in *.
      assert (F2 : fs_frame s s2) by (etransitivity; [exact F|apply frame_inode]).
      assert (Hc : inode_changed s s2 ip d1).
      { unfold d1. rewrite <- Hd. by apply (inode_changed_set s s1 ip). }
      assert (Es : k_sb s2 = k_sb s) by (by apply frame_sb).
      assert (Hr1 : get_addr NDIRECT d1 = r).
      { unfold d1. rewrite get_set_addr by (done || apply HI || lia). by rewrite Z.eqb_refl. }
      pose proof (bmap_slot_ok s2 v1 P1 ip d1 bn) as Hslot. rewrite Es, Hr1 in Hslot.
      eapply wp_mono; [apply Hslot|].
      * by apply (op_same s1).
      * apply (frame_fs_ok s s2 v v1 HF F2). apply Hg.
      * by eapply inode_changed_at.
      * apply Hg.
      * lia.
      * done.
      * lia.
      * intros r' s3 (v' & P' & H3 & Hg' & HP' & (F3 & Ei3 & Ek3) & Hr' & Hfull).
        exists v', P', d1. split_and!; try done.
        -- by eapply file_grown_trans.
        -- lia.
        -- by transitivity s2.
        -- rewrite Ek3. exact Ek.
        -- eapply inode_changed_trans; [exact Hc|]. apply inode_changed_same; [done|].
           by destruct (inode_changed_at s s2 ip d d1 (conj Hdev Hd) Hc).
  - apply wp_ret. eapply wp_mono; [apply (bmap_slot_ok s v P ip d bn); try done; lia|].
    intros r s1 (v' & P' & H1 & Hg & HP1 & (F & Ei & Ek) & Hr & Hfull).
    exists v', P', d. split_and!; try done; [lia|by apply inode_changed_same].
Qed.
End bmap.
