(* ===== verification/FsDisk.v ===== *)
(** Disk inodes, [struct dinode] of [kernel/fs.h]: how they are laid out in
    their blocks, and [iupdate] and [ilock], which write and read them. *)

From stdpp Require Import gmap.
From S2P Require Import Prelude CString Layout Kalloc Vm Sleeplock Bio Log LogSafe Kernel UserMem Sched Uart Printf Fs FsTx FsAlloc FsInode.

(** * Fields of a block *)

Definition put (l : list Z) (off : nat) (bs : list Z) : list Z :=
  take off l ++ bs ++ drop (off + length bs) l.

Lemma length_put l off bs : (off + length bs <= length l)%nat -> length (put l off bs) = length l.
Proof. intros. unfold put. rewrite !length_app, length_take, length_drop. lia. Qed.

Lemma put_app l off a b :
  (off + length a + length b <= length l)%nat -> put (put l off a) (off + length a) b = put l off (a ++ b).
Proof.
  intros H. unfold put. rewrite <- !app_assoc. rewrite length_app.
  rewrite take_app, take_ge by (rewrite length_take; lia). rewrite length_take, Nat.min_l by lia.
  replace (off + length a - off)%nat with (length a) by lia. rewrite take_app_length. rewrite <- !app_assoc. do 2 f_equal.
  f_equal. rewrite drop_app, length_take, Nat.min_l by lia. rewrite drop_ge by (rewrite length_take; lia).
  rewrite drop_app, drop_ge, drop_drop by lia. simpl. f_equal. lia.
Qed.

Lemma put_app' l off a b n :
  n = (off + length a)%nat -> (n + length b <= length l)%nat -> put (put l off a) n b = put l off (a ++ b).
Proof. intros ->. apply put_app. Qed.

Lemma lookup_put l off bs i :
  (off + length bs <= length l)%nat -> (i < off \/ off + length bs <= i)%nat -> put l off bs !! i = l !! i.
Proof.
  intros Hl Hi. unfold put. destruct (decide (i < off)%nat).
  - rewrite lookup_app_l by (rewrite length_take; lia). by rewrite lookup_take_lt.
  - rewrite lookup_app_r by (rewrite length_take; lia). rewrite length_take.
    rewrite lookup_app_r by lia. rewrite lookup_drop. f_equal. lia.
Qed.

Lemma put_bytes l off bs : Forall is_byte l -> Forall is_byte bs -> Forall is_byte (put l off bs).
Proof.
  intros Hl Hb. unfold put. rewrite !Forall_app. split_and!; [by apply Forall_take|done|by apply Forall_drop].
Qed.

Lemma get_put l off a b c :
  (off + length (a ++ b ++ c) <= length l)%nat ->
  take (length b) (drop (off + length a) (put l off (a ++ b ++ c))) = b.
Proof.
  intros H. unfold put. rewrite <- drop_drop, drop_app_length' by (rewrite length_take; lia).
  rewrite <- !app_assoc, drop_app_length. apply take_app_length.
Qed.

(** * Disk inodes *)

Definition enc16 (x : Z) : list Z := le_split 2 x.
Definition enc32 (x : Z) : list Z := le_split 4 x.
Definition enc_words (ws : list Z) : list Z := concat (enc32 <$> ws).

(** The 64 bytes of a disk inode. *)
Definition enc_dinode (d : dinode) : list Z :=
  enc16 (d_type d) ++ enc16 (d_major d) ++ enc16 (d_minor d) ++ enc16 (d_nlink d) ++
  enc32 (d_size d) ++ enc_words (d_addrs d).

(** The values the fields of a disk inode can hold. *)
Record dinode_ok (d : dinode) : Prop := {
  do_type : - 2 ^ 15 <= d_type d < 2 ^ 15;
  do_major : - 2 ^ 15 <= d_major d < 2 ^ 15;
  do_minor : - 2 ^ 15 <= d_minor d < 2 ^ 15;
  do_nlink : - 2 ^ 15 <= d_nlink d < 2 ^ 15;
  do_size : 0 <= d_size d < 2 ^ 32;
  do_len : length (d_addrs d) = 13%nat;
  do_addrs : Forall (fun a => 0 <= a < 2 ^ 32) (d_addrs d);
}.

Lemma enc_words_cons w ws : enc_words (w :: ws) = enc32 w ++ enc_words ws.
Proof. done. Qed.

Lemma length_enc_words ws : length (enc_words ws) = (4 * length ws)%nat.
Proof.
  induction ws as [|w ws IH]; [done|]. rewrite enc_words_cons, length_app, IH. unfold enc32. rewrite length_le_split. simpl. lia.
Qed.

Lemma length_enc d : length (d_addrs d) = 13%nat -> length (enc_dinode d) = 64%nat.
Proof.
  intros H. unfold enc_dinode, enc16, enc32. rewrite !length_app, !length_le_split, length_enc_words, H. done.
Qed.

Lemma put_words_enc l off ws :
  (off + 4 * length ws <= length l)%nat -> put_words l off ws = put l off (enc_words ws).
Proof.
  revert l off. induction ws as [|w ws IH]; intros l off H.
  - unfold put, enc_words. simpl. by rewrite Nat.add_0_r, take_drop.
  - cbn [put_words length] in *. change (put32 l off w) with (put l off (enc32 w)).
    rewrite IH by (rewrite length_put; unfold enc32; rewrite ?length_le_split; lia).
    replace (off + 4)%nat with (off + length (enc32 w))%nat by done.
    rewrite put_app; [done|]. rewrite length_enc_words. unfold enc32. rewrite length_le_split. lia.
Qed.

Lemma put_dinode_enc l o d :
  length (d_addrs d) = 13%nat -> (o + 64 <= length l)%nat -> put_dinode l o d = put l o (enc_dinode d).
Proof.
  intros Hd Hl. unfold put_dinode.
  assert (E16 : forall x, length (enc16 x) = 2%nat) by (intros; apply length_le_split).
  assert (E32 : forall x, length (enc32 x) = 4%nat) by (intros; apply length_le_split).
  set (hd := enc16 (d_type d) ++ enc16 (d_major d) ++ enc16 (d_minor d) ++ enc16 (d_nlink d) ++ enc32 (d_size d)).
  assert (Eh : length hd = 12%nat) by (unfold hd; by rewrite !length_app, !E16, E32).
  match goal with |- put_words ?x _ _ = _ => assert (Ex : x = put l o hd) end.
  { change (put (put (put (put (put l o (enc16 (d_type d))) (o + 2) (enc16 (d_major d))) (o + 4)
      (enc16 (d_minor d))) (o + 6) (enc16 (d_nlink d))) (o + 8) (enc32 (d_size d)) = put l o hd).
    rewrite (put_app' l o) by (rewrite ?length_app, ?E16, ?E32; lia).
    do 3 (rewrite (put_app' l o) by (rewrite ?length_app, ?E16, ?E32; lia)).
    unfold hd. by rewrite <- !app_assoc. }
  rewrite Ex, put_words_enc by (rewrite length_put; lia). rewrite put_app' by (rewrite ?length_enc_words; lia).
  unfold hd, enc_dinode. by rewrite <- !app_assoc.
Qed.

Lemma s16_u16 x : - 2 ^ 15 <= x < 2 ^ 15 -> s16 (x mod 256 ^ Z.of_nat 2) = x.
Proof.
  intros H. unfold s16. change (256 ^ Z.of_nat 2) with (2 ^ 16). rewrite Z.mod_mod by done.
  destruct (Z.ltb_spec (x mod 2 ^ 16) (2 ^ 15)); Z.div_mod_to_equations; lia.
Qed.

(** A field of the encoding. *)
Lemma field16 l o d a c x n :
  (o + length (enc_dinode d) <= length l)%nat -> enc_dinode d = a ++ enc16 x ++ c -> n = length a ->
  - 2 ^ 15 <= x < 2 ^ 15 -> s16 (get16 (put l o (enc_dinode d)) (o + n)) = x.
Proof.
  intros Hl E -> Hx. rewrite E in *. unfold get16.
  change 2%nat with (length (enc16 x)). rewrite get_put by done.
  unfold enc16. rewrite le_combine_split. by apply s16_u16.
Qed.

Lemma field32 l o d a c x n :
  (o + length (enc_dinode d) <= length l)%nat -> enc_dinode d = a ++ enc32 x ++ c -> n = length a ->
  0 <= x < 2 ^ 32 -> get32 (put l o (enc_dinode d)) (o + n) = x.
Proof.
  intros Hl E -> Hx. rewrite E in *. unfold get32.
  change 4%nat with (length (enc32 x)). rewrite get_put by done.
  unfold enc32. rewrite le_combine_split. by apply Z.mod_small.
Qed.

Lemma get_words_enc l o d a ws c n :
  (o + length (enc_dinode d) <= length l)%nat -> enc_dinode d = a ++ enc_words ws ++ c -> n = length a ->
  Forall (fun x => 0 <= x < 2 ^ 32) ws -> get_words (put l o (enc_dinode d)) (o + n) (length ws) = ws.
Proof.
  intros Hl E -> Hw. revert a E. induction Hw as [|w ws Hw Hws IH]; intros a E; [done|].
  cbn [length get_words]. f_equal.
  - eapply field32; [done| |done|done]. rewrite E. by rewrite enc_words_cons, <- app_assoc.
  - specialize (IH (a ++ enc32 w)). rewrite length_app in IH. rewrite <- Nat.add_assoc.
    apply IH. rewrite E. by rewrite enc_words_cons, <- !app_assoc.
Qed.

(** What [iupdate] stores, [ilock] reads back. *)
Lemma get_put_dinode l o d :
  dinode_ok d -> (o + 64 <= length l)%nat -> get_dinode (put_dinode l o d) o = d.
Proof.
  intros H Hl. destruct H as [H1 H2 H3 H4 H5 H6 H7].
  rewrite put_dinode_enc by done. pose proof (length_enc d H6) as Hlen. unfold get_dinode.
  assert (E16 : forall x, length (enc16 x) = 2%nat) by (intros; apply length_le_split).
  assert (E32 : forall x, length (enc32 x) = 4%nat) by (intros; apply length_le_split).
  pose proof (field16 l o d [] (enc16 (d_major d) ++ enc16 (d_minor d) ++ enc16 (d_nlink d) ++ enc32 (d_size d) ++
    enc_words (d_addrs d)) (d_type d) 0%nat ltac:(lia) eq_refl eq_refl H1) as F1. rewrite Nat.add_0_r in F1. rewrite F1.
  rewrite (field16 l o d (enc16 (d_type d)) (enc16 (d_minor d) ++ enc16 (d_nlink d) ++ enc32 (d_size d) ++
    enc_words (d_addrs d)) (d_major d) 2%nat ltac:(lia) eq_refl eq_refl H2).
  rewrite (field16 l o d (enc16 (d_type d) ++ enc16 (d_major d)) (enc16 (d_nlink d) ++ enc32 (d_size d) ++
    enc_words (d_addrs d)) (d_minor d) 4%nat ltac:(lia) eq_refl eq_refl H3).
  rewrite (field16 l o d (enc16 (d_type d) ++ enc16 (d_major d) ++ enc16 (d_minor d)) (enc32 (d_size d) ++
    enc_words (d_addrs d)) (d_nlink d) 6%nat ltac:(lia) eq_refl eq_refl H4).
  rewrite (field32 l o d (enc16 (d_type d) ++ enc16 (d_major d) ++ enc16 (d_minor d) ++ enc16 (d_nlink d))
    (enc_words (d_addrs d)) (d_size d) 8%nat ltac:(lia) eq_refl eq_refl H5).
  rewrite <- H6.
  rewrite (get_words_enc l o d (enc16 (d_type d) ++ enc16 (d_major d) ++ enc16 (d_minor d) ++ enc16 (d_nlink d) ++
    enc32 (d_size d)) (d_addrs d) [] 12%nat ltac:(lia)); [by destruct d| |done|done].
  by rewrite app_nil_r.
Qed.

(** A disk inode is the 64 bytes at its place. *)
Lemma get16_lookup l l' off :
  (forall i, (off <= i < off + 2)%nat -> l' !! i = l !! i) -> get16 l' off = get16 l off.
Proof.
  intros H. unfold get16. f_equal. apply list_eq. intros i.
  destruct (decide (i < 2)%nat); [|by rewrite !lookup_take_ge by lia].
  rewrite !lookup_take_lt, !lookup_drop by done. apply H. lia.
Qed.

Lemma get_words_lookup l l' off n :
  (forall i, (off <= i < off + 4 * n)%nat -> l' !! i = l !! i) -> get_words l' off n = get_words l off n.
Proof.
  revert off. induction n as [|n IH]; intros off H; [done|]. simpl. f_equal.
  - apply get32_lookup. intros i Hi. apply H. lia.
  - apply IH. intros i Hi. apply H. lia.
Qed.

Lemma get_dinode_lookup l l' o :
  (forall i, (o <= i < o + 64)%nat -> l' !! i = l !! i) -> get_dinode l' o = get_dinode l o.
Proof.
  intros H. unfold get_dinode.
  rewrite !(get16_lookup l l'), (get32_lookup l l'), (get_words_lookup l l'); [done|..]; intros i Hi; apply H; lia.
Qed.

Lemma dip_bound inum : (dip inum + 64 <= Z.to_nat BSIZE)%nat.
Proof. unfold dip. change IPB with 16. unfold BSIZE. Z.div_mod_to_equations; lia. Qed.

Lemma put_dinode_ok l inum d :
  block_ok l -> length (d_addrs d) = 13%nat -> block_ok (put_dinode l (dip inum) d).
Proof.
  intros [Hl Hb] Hd. pose proof (dip_bound inum). rewrite put_dinode_enc by lia.
  pose proof (length_enc d Hd). split; [rewrite length_put; lia|]. apply put_bytes; [done|].
  unfold enc_dinode, enc16, enc32, enc_words. rewrite !Forall_app. split_and!; try apply le_split_bytes.
  apply Forall_concat, Forall_fmap, Forall_true. intros x. apply le_split_bytes.
Qed.

(** The inodes of one block do not overlap. *)
Lemma get_put_dinode_ne l i j d :
  block_ok l -> length (d_addrs d) = 13%nat -> dip i <> dip j ->
  get_dinode (put_dinode l (dip i) d) (dip j) = get_dinode l (dip j).
Proof.
  intros [Hl _] Hd Hne. pose proof (dip_bound i). pose proof (length_enc d Hd) as Hlen.
  rewrite put_dinode_enc by lia. apply get_dinode_lookup. intros k Hk. apply lookup_put; [lia|].
  unfold dip in *. change IPB with 16 in *. Z.div_mod_to_equations; lia.
Qed.

(** * [iupdate] and [ilock] *)

(** The disk inode number [i]. *)
Definition disk_inode (sb : superblock) (v : Z -> list Z) (i : Z) : dinode :=
  get_dinode (v (IBLOCK i sb)) (dip i).

(** The blocks after disk inode [i] was stored. *)
Definition inode_view (sb : superblock) (v : Z -> list Z) (i : Z) (d : dinode) : Z -> list Z :=
  let B := IBLOCK i sb in fset v B (put_dinode (v B) (dip i) d).

Lemma IBLOCK_dip sb i j :
  sb_ok sb -> 0 <= i < 2 ^ 32 -> 0 <= j < 2 ^ 32 -> IBLOCK i sb = IBLOCK j sb -> dip i = dip j -> i = j.
Proof.
  intros Hsb Hi Hj. unfold IBLOCK, dip, u32. change IPB with 16. intros E1 E2.
  assert (i mod 16 = j mod 16) by (Z.div_mod_to_equations; lia).
  assert ((i / 16) mod 2 ^ 32 = (j / 16) mod 2 ^ 32).
  { set (x := sb_inodestart sb) in *. clearbody x.
    replace (i / 16) with ((i / 16 + x) - x) by lia. replace (j / 16) with ((j / 16 + x) - x) by lia.
    by rewrite Zminus_mod, E1, <- Zminus_mod. }
  rewrite !(Z.mod_small (_ / 16)) in * by (Z.div_mod_to_equations; lia).
  Z.div_mod_to_equations; lia.
Qed.

Lemma disk_inode_view sb v i j d :
  sb_ok sb -> (forall n, block_ok (v n)) -> dinode_ok d -> 0 <= i < 2 ^ 32 -> 0 <= j < 2 ^ 32 ->
  disk_inode sb (inode_view sb v i d) j = if decide (j = i) then d else disk_inode sb v j.
Proof.
  intros Hsb Hv Hd Hi Hj. unfold disk_inode, inode_view, fset. destruct (Hv (IBLOCK i sb)) as [Hl _].
  case_decide as E.
  - subst j. rewrite Z.eqb_refl. apply get_put_dinode; [done|]. rewrite Hl. apply dip_bound.
  - destruct (Z.eqb_spec (IBLOCK j sb) (IBLOCK i sb)) as [E'|]; [|done]. rewrite <- E'.
    apply get_put_dinode_ne; [done|apply Hd|]. intros Ed. apply E. by apply (IBLOCK_dip sb).
Qed.

Section ops.
Context `{KE : KernelEnd, PL : Platform}.

Lemma iupdate_ok s v P ip d i Q :
  op s v ∅ P ∅ -> sb_ok (k_sb s) -> inode_at s ip d -> i_inum (k_itable s ip) = i ->
  0 <= i < sb_ninodes (k_sb s) -> length (d_addrs d) = 13%nat -> (size P < 29)%nat ->
  (forall s', op s' (inode_view (k_sb s) v i d) ∅ ({[IBLOCK i (k_sb s)]} ∪ P) ∅ -> keeps s s' -> Q tt s') ->
  wp (iupdate ip) s Q.
Proof.
  intros Ho Hsb [Hdev Hd] Hnum Hi Hlen HP HQ. unfold iupdate, the_inode, the_sb.
  apply wp_bind, wp_gets, wp_bind, wp_gets. rewrite Hdev, Hd, Hnum. apply wp_bind.
  eapply op_bread; [done|done|right; rewrite map_size_empty; unfold NBUF; lia|]. intros bp s1 Hb H1 K1.
  apply wp_bind. eapply op_bdata; [done|apply lookup_insert_eq|].
  eapply op_store; [exact H1|done|done| |done|by apply put_dinode_ok; [apply Ho|]|].
  { rewrite (frame_sb _ _ (keeps_frame _ _ K1)). by apply (so_inodes _ Hsb). }
  intros s2 H2 K2. apply HQ; [done|by rewrite K1].
Qed.

(** The running process. *)
Definition cur_pid (s : kernel) : Z := curpid (ls_bio (k_ls s)).

Lemma ilock_ok s v P ip i Q :
  op s v ∅ P ∅ -> i_dev (k_itable s ip) = ROOTDEV -> i_inum (k_itable s ip) = i ->
  1 <= i_ref (k_itable s ip) -> i_lock (k_itable s ip) = initsleeplock -> i_valid (k_itable s ip) = 0 ->
  d_type (disk_inode (k_sb s) v i) <> 0 -> (size P < NBUF)%nat ->
  (forall s', op s' v ∅ P ∅ -> fs_frame s s' -> k_km s' = k_km s ->
     (forall j, j <> ip -> k_itable s' j = k_itable s j) ->
     k_itable s' ip = set_i_valid 1 (set_d (fun _ => disk_inode (k_sb s) v i)
       (set_i_lock (Sleeplock 1 (cur_pid s)) (k_itable s ip))) -> Q tt s') ->
  wp (ilock (Some ip)) s Q.
Proof.
  intros Ho Hdev Hnum Href Hlock Hval Hty HP HQ. unfold ilock, the_inode.
  apply wp_bind, wp_gets. destruct (Z.ltb_spec (i_ref (k_itable s ip)) 1); [lia|].
  unfold acquiresleep_inode. apply wp_bind, wp_bind, wp_gets. rewrite Hlock. cbn [acquiresleep initsleeplock].
  apply wp_modify, wp_bind, wp_gets. fold (cur_pid s). set (lk := Sleeplock 1 (cur_pid s)).
  set (s1 := set_inode ip (set_i_lock lk) s).
  assert (E1 : k_itable s1 ip = set_i_lock lk (k_itable s ip)) by apply upd_eq.
  rewrite E1. simpl. rewrite Hval, Hdev, Hnum. cbn [when Z.eqb]. unfold the_sb. apply wp_bind, wp_gets.
  assert (H1 : op s1 v ∅ P ∅) by (by apply (op_same s)).
  apply wp_bind. eapply op_bread; [exact H1|done|right; rewrite map_size_empty; lia|]. intros bp s2 Hb H2 K2.
  apply wp_bind. eapply op_bdata; [done|apply lookup_insert_eq|]. apply wp_bind, wp_modify.
  change (k_sb s1) with (k_sb s) in *. fold (disk_inode (k_sb s) v i). set (d := disk_inode (k_sb s) v i).
  set (s3 := set_inode ip _ s2). apply wp_bind.
  assert (E2 : k_itable s2 = k_itable s1) by apply K2.
  eapply op_brelse; [apply (op_same s2); [exact H2|done|done]|apply lookup_insert_eq|done|]. intros s4 H4 K4.
  rewrite delete_insert_id in H4 by done. apply wp_bind, wp_modify, wp_bind, wp_gets.
  assert (E4 : k_itable s4 ip = set_d (fun _ => d) (set_i_lock lk (k_itable s ip))).
  { destruct K4 as (_ & -> & _). unfold s3. simpl. rewrite upd_eq, E2, E1. done. }
  set (s5 := set_inode ip (set_i_valid 1) s4).
  assert (E5 : k_itable s5 ip = set_i_valid 1 (set_d (fun _ => d) (set_i_lock lk (k_itable s ip)))).
  { unfold s5. simpl. by rewrite upd_eq, E4. }
  assert (Et : d_type (i_d (k_itable s5 ip)) = d_type d) by (by rewrite E5). rewrite Et.
  destruct (Z.eqb_spec (d_type d) 0); [done|]. cbn [when]. apply wp_ret. apply HQ.
  - by apply (op_same s4).
  - transitivity s1; [apply frame_inode|]. transitivity s2; [by apply keeps_frame|].
    transitivity s3; [apply frame_inode|]. transitivity s4; [by apply keeps_frame|apply frame_inode].
  - change (k_km s4 = k_km s). destruct K4 as (_ & _ & ->). change (k_km s2 = k_km s).
    by destruct K2 as (_ & _ & ->).
  - intros j Hj. unfold s5. simpl. rewrite upd_ne by done. destruct K4 as (_ & -> & _).
    unfold s3. simpl. rewrite upd_ne, E2 by done. unfold s1. simpl. by rewrite upd_ne.
  - done.
Qed.

(** What [iupdate] stores is what [ilock] loads: after [iupdate] of an
    in-memory inode, [ilock] of an entry for the same inode that has not been
    read yet finds the same disk inode, and every other disk inode is
    unchanged. *)
Theorem iupdate_ilock s v P ip jp d i :
  op s v ∅ P ∅ -> sb_ok (k_sb s) -> inode_at s ip d -> i_inum (k_itable s ip) = i ->
  0 <= i < sb_ninodes (k_sb s) -> sb_ninodes (k_sb s) <= 2 ^ 32 -> dinode_ok d -> d_type d <> 0 -> (size P < 28)%nat ->
  i_dev (k_itable s jp) = ROOTDEV -> i_inum (k_itable s jp) = i -> 1 <= i_ref (k_itable s jp) ->
  i_lock (k_itable s jp) = initsleeplock -> i_valid (k_itable s jp) = 0 ->
  wp (iupdate ip;; ilock (Some jp)) s (fun _ s' => i_d (k_itable s' jp) = d /\
    locked (i_lock (k_itable s' jp)) = 1 /\ i_valid (k_itable s' jp) = 1 /\
    exists v' P', op s' v' ∅ P' ∅ /\ forall j, 0 <= j < sb_ninodes (k_sb s) -> j <> i ->
      disk_inode (k_sb s) v' j = disk_inode (k_sb s) v j).
Proof.
  intros Ho Hsb Hat Hnum Hi Hni Hd Hty HP Hdev Hjn Href Hlock Hval. apply wp_bind.
  eapply (iupdate_ok s v P ip d i); try done; [apply Hd|lia|]. intros s1 H1 K1.
  assert (Es : k_sb s1 = k_sb s) by apply (frame_sb _ _ (keeps_frame _ _ K1)).
  assert (Ei : k_itable s1 = k_itable s) by apply K1.
  assert (Hdi : disk_inode (k_sb s) (inode_view (k_sb s) v i d) i = d).
  { rewrite disk_inode_view by (done || apply Ho || lia). by rewrite decide_True. }
  pose proof (size_insert_le (IBLOCK i (k_sb s)) P).
  eapply (ilock_ok s1 _ _ jp i); [exact H1|by rewrite Ei..| |unfold NBUF; lia|]; rewrite Es, ?Hdi; [done|].
  intros s2 H2 F2 _ _ E2. rewrite E2. split_and!; [done|done|done|].
  eexists _, _. split; [exact H2|]. intros j Hj Hne.
  rewrite disk_inode_view by (done || apply Ho || lia). by rewrite decide_False.
Qed.
End ops.
