(* ===== verification/FsFile.v ===== *)
(** Reading and writing files, [readi] and [writei] of [kernel/fs.c]. *)

From stdpp Require Import gmap.
From S2P Require Import Prelude CString Layout Kalloc Vm Sleeplock Bio Log LogSafe Kernel UserMem Sched Uart Printf Fs FsTx FsAlloc FsIo FsInode FsDisk.

(** * Chunks *)

(** The bytes moved by one pass of a loop that is at [off] with [left] bytes to
    go. *)
Definition chunk (off left : Z) : Z := Z.min left (BSIZE - off mod BSIZE).

Lemma chunk_bounds off left : 0 <= off -> 0 < left ->
  0 < chunk off left <= left /\ 0 <= off mod BSIZE /\ off mod BSIZE + chunk off left <= BSIZE.
Proof. unfold chunk, BSIZE. intros. Z.div_mod_to_equations; lia. Qed.

(** The passes still to make before [off] reaches [e]. *)
Definition passes (off e : Z) : nat :=
  if off <? e then Z.to_nat ((e + BSIZE - 1) / BSIZE - off / BSIZE) else O.

Lemma passes_chunk off e : 0 <= off < e -> (passes (off + chunk off (e - off)) e < passes off e)%nat.
Proof.
  intros H. unfold passes, chunk, BSIZE. destruct (Z.ltb_spec off e); [|lia].
  destruct (Z.ltb_spec (off + Z.min (e - off) (1024 - off mod 1024)) e).
  - Z.div_mod_to_equations; lia.
  - Z.div_mod_to_equations; lia.
Qed.

Lemma passes_fuel off n : 0 <= off -> 0 <= n -> (passes off (off + n) < Z.to_nat (n / BSIZE + 3))%nat.
Proof.
  intros. unfold passes, BSIZE. destruct (Z.ltb_spec off (off + n)); Z.div_mod_to_equations; lia.
Qed.

Lemma length_fbytes v d off n : length (fbytes v d off n) = n.
Proof. unfold fbytes. by rewrite length_fmap, length_range. Qed.

Lemma lookup_fbytes v d off n i :
  (i < n)%nat -> fbytes v d off n !! i = Some (fbyte v d (off + Z.of_nat i)).
Proof. intros. unfold fbytes. by rewrite list_lookup_fmap, lookup_range. Qed.

Lemma fbytes_app v d off n m :
  fbytes v d off (n + m) = fbytes v d off n ++ fbytes v d (off + Z.of_nat n) m.
Proof.
  apply list_eq. intros i. destruct (decide (i < n)%nat).
  - rewrite lookup_app_l by (by rewrite length_fbytes). by rewrite !lookup_fbytes by lia.
  - rewrite lookup_app_r, length_fbytes by (rewrite length_fbytes; lia).
    destruct (decide (i < n + m)%nat).
    + rewrite !lookup_fbytes by lia. do 2 f_equal. lia.
    + rewrite !lookup_ge_None_2 by (rewrite length_fbytes; lia). done.
Qed.

(** A chunk lies in one block. *)
Lemma chunk_block off m i :
  0 <= off -> 0 <= i < m -> off mod BSIZE + m <= BSIZE ->
  (off + i) / BSIZE = off / BSIZE /\ (off + i) mod BSIZE = off mod BSIZE + i.
Proof. unfold BSIZE. intros. split; Z.div_mod_to_equations; lia. Qed.

Lemma fbytes_chunk v d off m :
  0 <= off -> off mod BSIZE + Z.of_nat m <= BSIZE -> (forall n, block_ok (v n)) ->
  baddr v d (off / BSIZE) <> 0 ->
  take m (drop (Z.to_nat (off mod BSIZE)) (v (baddr v d (off / BSIZE)))) = fbytes v d off m.
Proof.
  intros Ho Hm Hv Hne. destruct (Hv (baddr v d (off / BSIZE))) as [Hl _].
  assert (0 <= off mod BSIZE) by (unfold BSIZE; Z.div_mod_to_equations; lia).
  apply list_eq. intros i. destruct (decide (i < m)%nat) as [Hi|Hi].
  - rewrite lookup_take_lt, lookup_drop, lookup_fbytes by done. unfold fbyte.
    destruct (chunk_block off (Z.of_nat m) (Z.of_nat i)) as [-> ->]; [done|lia|done|].
    destruct (Z.eqb_spec (baddr v d (off / BSIZE)) 0); [done|]. unfold byte_at.
    replace (Z.to_nat (off mod BSIZE + Z.of_nat i)) with (Z.to_nat (off mod BSIZE) + i)%nat by lia.
    destruct (v _ !! _) eqn:E; [done|]. apply lookup_ge_None in E. rewrite Hl in E. lia.
  - rewrite !lookup_ge_None_2; [done| |]; rewrite ?length_fbytes, ?length_take; lia.
Qed.

Lemma block_in_file off : 0 <= off < MAXFILE * BSIZE -> 0 <= off / BSIZE < MAXFILE.
Proof. intros. sizes. Z.div_mod_to_equations; lia. Qed.

(** * Bytes stored in a block of a file *)

Lemma byte_at_inserts d o l j :
  block_ok d -> (o + length l <= Z.to_nat BSIZE)%nat -> 0 <= j ->
  byte_at (list_inserts o l d) j =
  if decide (Z.of_nat o <= j < Z.of_nat o + Z.of_nat (length l)) then byte_at l (j - Z.of_nat o) else byte_at d j.
Proof.
  intros [Hd _] Ho Hj. unfold byte_at. case_decide.
  - rewrite list_lookup_inserts by lia. do 2 f_equal. lia.
  - destruct (decide (Z.to_nat j < o)%nat).
    + by rewrite list_lookup_inserts_lt by lia.
    + by rewrite list_lookup_inserts_ge by lia.
Qed.

Lemma fbyte_block v d i :
  fbyte v d i = if baddr v d (i / BSIZE) =? 0 then 0 else byte_at (v (baddr v d (i / BSIZE))) (i mod BSIZE).
Proof. done. Qed.

(** Storing a block of a file changes that block's bytes and nothing else. *)
Lemma store_block_file sb v d k x :
  inode_ok sb v d -> bitmap_ok sb v -> 0 <= k < MAXFILE -> baddr v d k <> 0 ->
  let v' := fset v (baddr v d k) x in
  inode_ok sb v' d /\ bitmap_ok sb v' /\
  (forall k', baddr v' d k' = baddr v d k') /\
  (forall b, 0 <= b < sb_size sb -> allocated sb v' b = allocated sb v b) /\
  (forall i, 0 <= i < sb_ninodes sb -> v' (IBLOCK i sb) = v (IBLOCK i sb)) /\
  (forall i, 0 <= i < MAXFILE * BSIZE ->
     fbyte v' d i = if i / BSIZE =? k then byte_at x (i mod BSIZE) else fbyte v d i).
Proof.
  intros H Hbm Hk Hne v'. set (r := baddr v d k) in *.
  destruct (io_data _ _ _ H k Hk Hne) as (_ & _ & Hres). fold r in Hres.
  assert (Hba : forall k', baddr v' d k' = baddr v d k').
  { intros k'. apply baddr_ext. intros Hi. unfold v'. rewrite fset_ne; [done|].
    apply not_eq_sym. by apply (io_ind_ne _ _ _ H). }
  assert (Hall : forall b, 0 <= b < sb_size sb -> allocated sb v' b = allocated sb v b).
  { intros b Hb. apply allocated_same; [done|]. unfold v'. rewrite fset_ne; [done|].
    intros E. apply Hres. rewrite <- E. right. right. left. by exists b. }
  split_and!; try done.
  - destruct H as [H1 H2 H3 H4 H5 H6 H7]. split; try done.
    + intros k'. rewrite Hba. intros. eapply datablk_ext; [by apply H3|]. rewrite Hall; [done|].
      destruct (H3 k') as (? & _); [done|done|lia].
    + intros Hi. eapply datablk_ext; [by apply H4|]. rewrite Hall; [done|]. destruct (H4 Hi) as (? & _). lia.
    + intros k1 k2. rewrite !Hba. apply H5.
    + intros k1. rewrite Hba. apply H6.
    + intros k1. rewrite Hba. apply H7.
  - intros n Hn Hr. rewrite Hall by done. by apply Hbm.
  - intros i Hi. unfold v'. rewrite fset_ne; [done|]. intros E. apply Hres. rewrite <- E.
    right. right. right. by exists i.
  - intros i Hi. rewrite !fbyte_block, !Hba. pose proof (block_in_file i Hi) as Hki.
    destruct (Z.eqb_spec (i / BSIZE) k) as [->|Hne'].
    + fold r. destruct (Z.eqb_spec r 0); [done|]. unfold v'. by rewrite fset_eq.
    + destruct (Z.eqb_spec (baddr v d (i / BSIZE)) 0); [done|]. unfold v'. rewrite fset_ne; [done|].
      intros E. apply Hne'. by apply (io_inj _ _ _ H).
Qed.

(** The file after [l] has been written at [off]. *)
Record written (sb : superblock) (v : Z -> list Z) (d : dinode) (off : Z) (l : list Z)
    (v' : Z -> list Z) (d' : dinode) : Prop := {
  wr_ok : inode_ok sb v' d';
  wr_map : bitmap_ok sb v';
  wr_bytes : forall i, 0 <= i < MAXFILE * BSIZE -> fbyte v' d' i =
    if decide (off <= i < off + Z.of_nat (length l)) then byte_at l (i - off) else fbyte v d i;
  wr_full : forall k, 0 <= k -> k * BSIZE < off + Z.of_nat (length l) -> baddr v' d' k <> 0;
  wr_meta : d' = set_d_addrs (d_addrs d') d;
  wr_alloc : forall b, 0 <= b < sb_size sb -> allocated sb v b = true -> allocated sb v' b = true;
  wr_inode : forall i, 0 <= i < sb_ninodes sb -> v' (IBLOCK i sb) = v (IBLOCK i sb);
  wr_other : forall n, datablk sb v n -> foreign v d n -> v' n = v n /\ foreign v' d' n;
}.

Lemma written_nil sb v d off :
  inode_ok sb v d -> bitmap_ok sb v -> off <= d_size d -> written sb v d off [] v d.
Proof.
  intros H Hbm Hoff. split; try done.
  - intros i Hi. simpl. by rewrite decide_False by lia.
  - intros k Hk Hlt. apply H; [done|]. simpl in Hlt. lia.
  - by destruct d.
Qed.

(** Growing, as [bmap] does, keeps what was written. *)
Lemma written_grown sb v d off l v1 d1 v2 d2 :
  0 <= off -> off + Z.of_nat (length l) <= MAXFILE * BSIZE ->
  written sb v d off l v1 d1 -> grown sb v1 d1 v2 d2 -> written sb v d off l v2 d2.
Proof.
  intros Hoff Hmax [A1 A2 A3 A4 A5 A6 A7 A8] [B1 B2 B3 B4 B5 B6 B7 B8 B9]. split; auto.
  - intros i Hi. rewrite B3 by done. auto.
  - intros k Hk Hlt. rewrite B4; [auto| |auto]. sizes. lia.
  - rewrite B6, A5. by destruct d.
  - intros i Hi. rewrite B8 by done. auto.
  - intros n Hd Hf. destruct (A8 n Hd Hf) as [E F].
    destruct (B9 n) as [E' F']; [|done|by rewrite E', E].
    eapply datablk_ext; [done|]. apply A6. destruct Hd as (? & _). lia.
Qed.

(** The next chunk goes into one block. *)
Lemma written_chunk sb v d off L tot m v1 d1 :
  let cur := off + Z.of_nat tot in
  let r := baddr v1 d1 (cur / BSIZE) in
  let x := list_inserts (Z.to_nat (cur mod BSIZE)) (take m (drop tot L)) (v1 r) in
  0 <= off -> off + Z.of_nat (length L) <= MAXFILE * BSIZE -> (tot + m <= length L)%nat -> (0 < m)%nat ->
  cur mod BSIZE + Z.of_nat m <= BSIZE -> (forall n, block_ok (v1 n)) ->
  written sb v d off (take tot L) v1 d1 -> r <> 0 ->
  written sb v d off (take (tot + m) L) (fset v1 r x) d1.
Proof.
  intros cur r x Hoff Hmax Htm Hm Hc Hbl HW Hr.
  assert (Hcur : 0 <= cur < MAXFILE * BSIZE) by (unfold cur; lia).
  pose proof (block_in_file cur Hcur) as Hk. assert (0 <= cur mod BSIZE) by (unfold BSIZE; Z.div_mod_to_equations; lia).
  destruct HW as [A1 A2 A3 A4 A5 A6 A7 A8].
  destruct (store_block_file sb v1 d1 (cur / BSIZE) x A1 A2 Hk Hr) as (B1 & B2 & B3 & B4 & B5 & B6).
  fold r in B1, B2, B3, B4, B5, B6. rewrite length_take in A3, A4.
  assert (Hl1 : length (take m (drop tot L)) = m) by (rewrite length_take, length_drop; lia).
  split; auto.
  - intros i Hi. rewrite B6, length_take, A3 by done. rewrite !Nat.min_l in * by lia.
    assert (Hby : forall j n, 0 <= j < Z.of_nat n -> byte_at (take n L) j = byte_at L j).
    { intros j n Hj. unfold byte_at. by rewrite lookup_take_lt by lia. }
    destruct (Z.eqb_spec (i / BSIZE) (cur / BSIZE)) as [E|E].
    + unfold x. rewrite byte_at_inserts by (done || unfold BSIZE in *; Z.div_mod_to_equations; lia).
      rewrite Hl1, Z2Nat.id by done.
      assert (Hmod : i mod BSIZE = cur mod BSIZE + (i - cur)) by (unfold BSIZE in *; Z.div_mod_to_equations; lia).
      rewrite Hmod. destruct (decide (cur <= i < cur + Z.of_nat m)) as [Hin|Hout].
      * rewrite (decide_True (P := _ <= _ < _)) by lia.
        rewrite (decide_True (P := off <= i < off + Z.of_nat (tot + m))) by (unfold cur in *; lia).
        rewrite Hby by (unfold cur in *; lia). unfold byte_at. rewrite lookup_take_lt, lookup_drop by lia.
        do 2 f_equal. unfold cur in *. lia.
      * rewrite (decide_False (P := _ <= _ < _)) by lia.
        specialize (A3 i Hi). rewrite fbyte_block, E in A3. fold r in A3.
        destruct (Z.eqb_spec r 0); [done|]. rewrite <- Hmod, A3.
        unfold cur in *. case_decide.
        -- rewrite decide_True by lia. rewrite !Hby by lia. done.
        -- by rewrite decide_False by lia.
    + assert (~ (cur <= i < cur + Z.of_nat m)).
      { intros Hin. apply E. destruct (chunk_block cur (Z.of_nat m) (i - cur)) as [E' _]; [lia|lia|done|].
        by replace (cur + (i - cur)) with i in E' by lia. }
      unfold cur in *. case_decide.
      * rewrite decide_True by lia. rewrite !Hby by lia. done.
      * by rewrite decide_False by lia.
  - intros k Hk0 Hlt. rewrite B3. rewrite length_take, Nat.min_l in * by lia.
    destruct (decide (k * BSIZE < off + Z.of_nat tot)); [apply A4; lia|].
    assert (k = cur / BSIZE) as ->; [|done].
    unfold cur, BSIZE in *. Z.div_mod_to_equations; lia.
  - intros b Hb Ha. rewrite B4 by done. auto.
  - intros i Hi. rewrite B5 by done. auto.
  - intros n Hd Hf. destruct (A8 n Hd Hf) as [E (F1 & F2 & F3)].
    rewrite fset_ne by (apply not_eq_sym, F3; done). split; [done|]. split_and!; try done.
    intros k' Hk'. rewrite B3. auto.
Qed.

Section files.
Context `{KE : KernelEnd, PL : Platform} {UR : UartReady} {UM : UserMem}.

(** * [readi] *)

(** [bmap] of a block the file has. *)
Lemma bmap_found s v P ip d bn Q :
  op s v ∅ P ∅ -> inode_at s ip d -> inode_ok (k_sb s) v d -> 0 <= bn < MAXFILE ->
  (size P < NBUF)%nat -> baddr v d bn <> 0 ->
  (forall s', op s' v ∅ P ∅ -> keeps s s' -> Q (baddr v d bn) s') -> wp (bmap ip bn) s Q.
Proof.
  intros Ho [Hdev Hd] HI Hbn HP Hne HQ. unfold bmap, the_inode. apply wp_bind, wp_gets. rewrite Hd, Hdev.
  unfold baddr in Hne, HQ. destruct (Z.ltb_spec bn NDIRECT).
  { destruct (Z.eqb_spec (get_addr bn d) 0); [done|]. apply wp_ret, HQ; [done|reflexivity]. }
  cbv zeta. destruct (Z.eqb_spec (get_addr NDIRECT d) 0); [done|].
  destruct (Z.ltb_spec (bn - NDIRECT) NINDIRECT); [|unfold MAXFILE in *; lia].
  apply wp_bind, wp_ret. apply wp_bind. eapply op_bread; [done|done|right; rewrite map_size_empty; lia|].
  intros bp s1 _ H1 K1. apply wp_bind. eapply op_bdata; [done|apply lookup_insert_eq|].
  destruct (Z.eqb_spec (get32 (v (get_addr NDIRECT d)) (Z.to_nat (4 * (bn - NDIRECT)))) 0); [done|].
  apply wp_bind, wp_ret, wp_bind. eapply op_brelse; [exact H1|apply lookup_insert_eq|done|].
  intros s2 H2 K2. rewrite delete_insert_id in H2 by done. apply wp_ret, HQ; [done|by rewrite K1].
Qed.

Lemma keeps_inode_at s s' ip d : k_itable s' = k_itable s -> inode_at s ip d -> inode_at s' ip d.
Proof. unfold inode_at. by intros ->. Qed.

(** One pass of the loop of [readi]. *)
Lemma readi_body_ok s v P ip d user um dst off n tot Q :
  op s v ∅ P ∅ -> inode_at s ip d -> inode_ok (k_sb s) v d -> (size P < NBUF)%nat ->
  0 <= off -> off + Z.of_nat n <= d_size d -> room_at user um dst n -> (tot < n)%nat ->
  delivered s user um dst (fbytes v d off tot) ->
  (forall s' m, m = Z.to_nat (chunk (off + Z.of_nat tot) (Z.of_nat (n - tot))) -> (0 < m)%nat -> (tot + m <= n)%nat ->
     op s' v ∅ P ∅ -> fs_frame s s' -> k_itable s' = k_itable s ->
     delivered s' user um dst (fbytes v d off (tot + m)) ->
     Q (inl (Z.of_nat (tot + m), off + Z.of_nat (tot + m), dst + Z.of_nat (tot + m))) s') ->
  wp (readi_body ip user (Z.of_nat n)
        (Z.of_nat tot, off + Z.of_nat tot, dst + Z.of_nat tot)) s Q.
Proof.
  intros Ho Hat HI HP Hoff Hend Hroom Htot HD HQ. destruct Hroom as (Hd0 & Hd1 & Hroom).
  unfold readi_body. destruct (Z.ltb_spec (Z.of_nat tot) (Z.of_nat n)); [|lia].
  set (cur := off + Z.of_nat tot) in *. pose proof (io_size _ _ _ HI) as Hsz.
  destruct (chunk_bounds cur (Z.of_nat (n - tot))) as (Hc1 & Hc2 & Hc3); [lia|lia|].
  assert (Hcur : 0 <= cur < MAXFILE * BSIZE) by (unfold cur; lia).
  pose proof (block_in_file cur Hcur) as Hk.
  assert (Hne : baddr v d (cur / BSIZE) <> 0).
  { apply HI; [lia|]. unfold cur, BSIZE in *. Z.div_mod_to_equations; lia. }
  apply wp_bind. apply (bmap_found s v P ip d); try done. intros s1 H1 K1.
  destruct (Z.eqb_spec (baddr v d (cur / BSIZE)) 0); [done|].
  assert (Hat1 : inode_at s1 ip d) by (eapply keeps_inode_at; [apply K1|done]).
  unfold the_inode. apply wp_bind, wp_gets. destruct Hat1 as [-> _].
  apply wp_bind. eapply op_bread; [done|done|right; rewrite map_size_empty; lia|]. intros bp s2 _ H2 K2.
  assert (HD2 : delivered s2 user um dst (fbytes v d off tot)).
  { eapply keeps_delivered; [|exact HD]. by rewrite K1. }
  replace (Z.of_nat n - Z.of_nat tot) with (Z.of_nat (n - tot)) by lia.
  fold (chunk cur (Z.of_nat (n - tot))). set (m := Z.to_nat (chunk cur (Z.of_nat (n - tot)))).
  replace (chunk cur (Z.of_nat (n - tot))) with (Z.of_nat m) in * by lia.
  apply wp_bind. rewrite <- (length_fbytes v d off tot) at 1.
  eapply copyout_buf_ok; [exact H2|apply lookup_insert_eq|exact HD2| |lia|lia|lia|].
  { rewrite length_fbytes. split_and!; [lia|lia|]. destruct user.
    - intros i Hi. apply Hroom. lia.
    - intros b Hb. specialize (Hroom b Hb). lia. }
  intros s3 H3 F3 Ei3. rewrite fbytes_chunk by (done || apply Ho || lia).
  rewrite <- fbytes_app. intros HD3. cbn [Z.eqb]. apply wp_bind.
  eapply op_brelse; [exact H3|apply lookup_insert_eq|done|]. intros s4 H4 K4.
  rewrite delete_insert_id in H4 by done. apply wp_ret.
  rewrite !u32_small, u64_small by (unfold cur; sizes; lia).
  replace (Z.of_nat tot + Z.of_nat m) with (Z.of_nat (tot + m)) by lia.
  replace (cur + Z.of_nat m) with (off + Z.of_nat (tot + m)) by (unfold cur; lia).
  replace (dst + Z.of_nat tot + Z.of_nat m) with (dst + Z.of_nat (tot + m)) by lia.
  apply (HQ s4 m); try done; try lia.
  - etransitivity; [apply keeps_frame; etransitivity; [exact K1|exact K2]|].
    etransitivity; [exact F3|by apply keeps_frame].
  - destruct K4 as (_ & -> & _). rewrite Ei3. destruct K2 as (_ & -> & _). apply K1.
  - by eapply keeps_delivered.
Qed.

(** The bytes [readi] delivers. *)
Definition readable (d : dinode) (off n : Z) : Z :=
  if d_size d <? off then 0 else Z.min n (d_size d - off).

Lemma readi_ok s v P ip d user um dst off n Q :
  op s v ∅ P ∅ -> inode_at s ip d -> inode_ok (k_sb s) v d -> (size P < NBUF)%nat ->
  0 <= off < 2 ^ 32 -> 0 <= n < 2 ^ 32 -> off + n < 2 ^ 32 ->
  let m := readable d off n in
  room_at user um dst (Z.to_nat m) -> delivered s user um dst [] ->
  (forall s', op s' v ∅ P ∅ -> fs_frame s s' -> k_itable s' = k_itable s ->
     delivered s' user um dst (fbytes v d off (Z.to_nat m)) -> Q m s') ->
  wp (readi ip user dst off n) s Q.
Proof.
  intros Ho Hat HI HP Hoff Hn Hon m Hroom HD HQ. pose proof (io_size _ _ _ HI) as Hsz.
  unfold readi, the_inode. apply wp_bind, wp_gets. destruct Hat as [Hdev Hd]. rewrite Hd.
  rewrite (u32_small (off + n)) by lia. unfold readable in m. destruct (Z.ltb_spec (d_size d) off).
  { simpl. apply wp_ret, HQ; [done|reflexivity|done|exact HD]. }
  destruct (Z.ltb_spec (off + n) off); [lia|]. cbn [orb]. cbv zeta.
  replace (if d_size d <? off + n then d_size d - off else n) with m
    by (unfold m; destruct (Z.ltb_spec (d_size d) (off + n)); lia).
  assert (Hm : 0 <= m /\ off + m <= d_size d) by (unfold m; lia). destruct Hm as [Hm Hmd].
  rewrite <- (Z2Nat.id m) at 2 by done. set (mn := Z.to_nat m) in *.
  apply wp_bind. apply (wp_loop (fun '(t, o, x) s' => exists tot, t = Z.of_nat tot /\ (tot <= mn)%nat /\
      o = off + Z.of_nat tot /\ x = dst + Z.of_nat tot /\ op s' v ∅ P ∅ /\ fs_frame s s' /\
      k_itable s' = k_itable s /\ delivered s' user um dst (fbytes v d off tot))
    (fun '(t, o, x) _ => passes o (off + m))).
  - intros [[t o] x] s1 (tot & -> & Htot & -> & -> & H1 & F1 & Ei & HD1).
    destruct (decide (tot = mn)) as [->|Hne].
    + unfold readi_body. destruct (Z.ltb_spec (Z.of_nat mn) (Z.of_nat mn)); [lia|]. apply wp_ret.
      apply wp_ret. replace (Z.of_nat mn) with m by lia. rewrite s32_small by (sizes; lia). by apply HQ.
    + apply (readi_body_ok s1 v P ip d user um dst off mn tot); try done.
      * eapply keeps_inode_at; [exact Ei|done].
      * by rewrite (frame_sb _ _ F1).
      * lia.
      * lia.
      * lia.
      * intros s2 k Hk Hk0 Hkn H2 F2 Ei2 HD2. split.
        -- exists (tot + k)%nat. split_and!; try done; [by transitivity s1|by rewrite Ei2].
        -- assert (E : off + Z.of_nat (tot + k) =
             (off + Z.of_nat tot) + chunk (off + Z.of_nat tot) (off + m - (off + Z.of_nat tot))).
           { replace (off + m - (off + Z.of_nat tot)) with (Z.of_nat (mn - tot)) by lia. lia. }
           rewrite E. apply passes_chunk. lia.
  - exists O. simpl. split_and!; try done; try lia; reflexivity.
  - apply passes_fuel; lia.
Qed.

(** * [writei] *)

(** No block is free. *)
Definition disk_full (sb : superblock) (v : Z -> list Z) : Prop :=
  forall b, 0 <= b < sb_size sb -> allocated sb v b = true.

(** The loop of [writei] after [tot] bytes, [full] when it ran out of blocks. *)
Definition writing (s : kernel) (v : Z -> list Z) (ip : nat) (d : dinode) (user : bool)
    (um : Z -> option Z) (src off : Z) (L : list Z) (full : bool) (tot : nat) (budget : nat) (s' : kernel) : Prop :=
  exists v' P' d', op s' v' ∅ P' ∅ /\ written (k_sb s) v d off (take tot L) v' d' /\
    (size P' + budget < 28)%nat /\ fs_frame s s' /\ inode_changed s s' ip d' /\
    reads_from s' user um src L /\ (full = true -> disk_full (k_sb s) v').

Lemma writei_body_ok s v ip d user um src off L tot budget s1 Q :
  fs_ok s v -> inode_at s ip d -> 0 <= off -> off + Z.of_nat (length L) <= MAXFILE * BSIZE ->
  src + Z.of_nat (length L) < 2 ^ 64 -> 0 <= src -> (tot < length L)%nat ->
  writing s v ip d user um src off L false tot (6 + budget) s1 ->
  (forall s', writing s v ip d user um src off L true tot budget s' ->
     Q (inr (Z.of_nat tot, off + Z.of_nat tot)) s') ->
  (forall s' m, m = Z.to_nat (chunk (off + Z.of_nat tot) (Z.of_nat (length L - tot))) -> (0 < m)%nat ->
     (tot + m <= length L)%nat -> writing s v ip d user um src off L false (tot + m) budget s' ->
     Q (inl (Z.of_nat (tot + m), off + Z.of_nat (tot + m), src + Z.of_nat (tot + m))) s') ->
  wp (writei_body ip user (Z.of_nat (length L))
        (Z.of_nat tot, off + Z.of_nat tot, src + Z.of_nat tot)) s1 Q.
Proof.
  intros HF Hat Hoff Hmax Hsrc Hsrc0 Htot (v1 & P1 & d1 & H1 & HW & HP & F1 & Hc & HR & _) HQf HQn.
  unfold writei_body. destruct (Z.ltb_spec (Z.of_nat tot) (Z.of_nat (length L))); [|lia].
  set (cur := off + Z.of_nat tot) in *.
  destruct (chunk_bounds cur (Z.of_nat (length L - tot))) as (Hc1 & Hc2 & Hc3); [lia|lia|].
  assert (Hk : 0 <= cur / BSIZE < MAXFILE) by (apply block_in_file; unfold cur; lia).
  assert (Es : k_sb s1 = k_sb s) by (by apply frame_sb).
  pose proof (inode_changed_at s s1 ip d d1 Hat Hc) as Hat1.
  apply wp_bind. eapply wp_mono; [apply (bmap_ok s1 v1 P1 ip d1)|]; try done.
  { apply (frame_fs_ok s s1 v v1 HF F1). apply HW. } { rewrite Es. apply HW. } { lia. }
  intros r s2 (v2 & P2 & d2 & H2 & Hg & HP2 & F2 & Ek2 & Hc2' & -> & Hfull). rewrite Es in Hg, Hfull.
  assert (HW2 : written (k_sb s) v d off (take tot L) v2 d2).
  { eapply written_grown; [done| |exact HW|exact Hg]. rewrite length_take. lia. }
  assert (F12 : fs_frame s s2) by (by transitivity s1).
  assert (Hc12 : inode_changed s s2 ip d2) by (by eapply inode_changed_trans).
  assert (HR2 : reads_from s2 user um src L) by (by apply (frame_reads s1)).
  set (r := baddr v2 d2 (cur / BSIZE)) in *. destruct (Z.eqb_spec r 0) as [Hz|Hnz].
  { apply wp_ret. apply HQf. exists v2, P2, d2. split_and!; try done; [lia|]. intros _. exact (Hfull Hz). }
  destruct (inode_changed_at s s2 ip d d2 Hat Hc12) as [Hdev2 _].
  unfold the_inode. apply wp_bind, wp_gets. rewrite Hdev2.
  apply wp_bind. eapply op_bread; [exact H2|done|right; rewrite map_size_empty; unfold NBUF; lia|].
  intros bp s3 _ H3 K3.
  replace (Z.of_nat (length L) - Z.of_nat tot) with (Z.of_nat (length L - tot)) by lia.
  fold (chunk cur (Z.of_nat (length L - tot))). set (m := Z.to_nat (chunk cur (Z.of_nat (length L - tot)))).
  replace (chunk cur (Z.of_nat (length L - tot))) with (Z.of_nat m) in * by lia.
  apply wp_bind. eapply (copyin_buf_ok s3 v2 _ P2 ∅ bp r user um src L tot m);
    [exact H3|apply lookup_insert_eq|by eapply keeps_reads|lia|lia|lia|lia|].
  intros s4 H4 F4 Ei4 HR4. cbn [Z.eqb].
  assert (F14 : fs_frame s s4) by (transitivity s2; [done|transitivity s3; [by apply keeps_frame|done]]).
  pose proof (written_chunk (k_sb s) v d off L tot m v2 d2 Hoff Hmax ltac:(lia) ltac:(lia) Hc3
    (op_blocks _ _ _ _ _ H2) HW2 Hnz) as HW4. cbv zeta in HW4. fold cur r in HW4.
  apply wp_bind. eapply op_log_write; [exact H4|apply lookup_insert_eq| |lia|].
  { rewrite (frame_sb _ _ F14). apply (datablk_home _ v2); [apply HF|]. by apply HW2. }
  intros s5 H5 K5. replace (({[r]} ∪ ∅) ∖ {[r]}) with (∅ : gset Z) in H5 by set_solver.
  apply wp_bind. eapply op_brelse; [exact H5|apply lookup_insert_eq|done|]. intros s6 H6 K6.
  rewrite delete_insert_id in H6 by done. apply wp_ret.
  rewrite !u32_small, u64_small by (unfold cur; sizes; lia).
  replace (Z.of_nat tot + Z.of_nat m) with (Z.of_nat (tot + m)) by lia.
  replace (cur + Z.of_nat m) with (off + Z.of_nat (tot + m)) by (unfold cur; lia).
  replace (src + Z.of_nat tot + Z.of_nat m) with (src + Z.of_nat (tot + m)) by lia.
  pose proof (size_insert_le r P2). assert (K46 : keeps s4 s6) by (by rewrite K5).
  apply (HQn s6 m); [lia|lia|lia|]. eexists _, _, d2.
  split_and!; [exact H6|exact HW4|lia|transitivity s4; [done|by apply keeps_frame]| |by eapply keeps_reads|done].
  intros j. destruct K46 as (_ & -> & _). rewrite Ei4. destruct K3 as (_ & -> & _). apply Hc12.
Qed.

Lemma writei_loop_ok s v P ip d user um src off L Q :
  op s v ∅ P ∅ -> fs_ok s v -> inode_at s ip d -> inode_ok (k_sb s) v d -> reads_from s user um src L ->
  0 <= off <= d_size d -> off + Z.of_nat (length L) <= MAXFILE * BSIZE ->
  (size P + 6 * passes off (off + Z.of_nat (length L)) + 1 < 28)%nat ->
  (forall s' tot full, (tot <= length L)%nat -> (tot < length L -> full = true)%nat ->
     writing s v ip d user um src off L full tot 1 s' -> Q (Z.of_nat tot, off + Z.of_nat tot) s') ->
  wp (loop (Z.to_nat (Z.of_nat (length L) / BSIZE + 3)) (writei_body ip user (Z.of_nat (length L))) (0, off, src)) s Q.
Proof.
  intros Ho HF Hat HI HR Hoff Hmax HP HQ. set (e := off + Z.of_nat (length L)) in *.
  assert (HR' := HR). destruct HR' as (Hs0 & Hs1 & _).
  apply (wp_loop (fun '(t, o, x) s' => exists tot, t = Z.of_nat tot /\ (tot <= length L)%nat /\
      o = off + Z.of_nat tot /\ x = src + Z.of_nat tot /\
      writing s v ip d user um src off L false tot (6 * passes o e + 1) s')
    (fun '(t, o, x) _ => passes o e)).
  - intros [[t o] x] s1 (tot & -> & Htot & -> & -> & HW).
    destruct (decide (tot = length L)) as [->|Hne].
    + unfold writei_body. destruct (Z.ltb_spec (Z.of_nat (length L)) (Z.of_nat (length L))); [lia|].
      apply wp_ret. apply (HQ s1 (length L) false); [done|lia|].
      destruct HW as (v1 & P1 & d1 & ? & ? & ? & ?). exists v1, P1, d1. split_and!; try done; [lia|tauto..].
    + pose proof (passes_chunk (off + Z.of_nat tot) e ltac:(unfold e; lia)) as Hpc.
      set (b := (6 * (passes (off + Z.of_nat tot) e - 1) + 1)%nat).
      apply (writei_body_ok s v ip d user um src off L tot b); try done; try lia.
      * destruct HW as (v1 & P1 & d1 & ? & ? & ? & ?). exists v1, P1, d1. split_and!; try done; [lia|tauto..].
      * intros s2 HW2. apply (HQ s2 tot true); [done|done|].
        destruct HW2 as (v1 & P1 & d1 & ? & ? & ? & ?). exists v1, P1, d1. split_and!; try done; [lia|tauto..].
      * intros s2 k Hk Hk0 Hkn HW2.
        assert (E : off + Z.of_nat (tot + k) = (off + Z.of_nat tot) + chunk (off + Z.of_nat tot) (e - (off + Z.of_nat tot))).
        { replace (e - (off + Z.of_nat tot)) with (Z.of_nat (length L - tot)) by (unfold e; lia).
          pose proof (chunk_bounds (off + Z.of_nat tot) (Z.of_nat (length L - tot)) ltac:(lia) ltac:(lia)). lia. }
        rewrite <- E in Hpc. split; [|done]. exists (tot + k)%nat. split_and!; try done.
        destruct HW2 as (v1 & P1 & d1 & ? & ? & ? & ?). exists v1, P1, d1. split_and!; try done; [lia|tauto..].
  - exists O. simpl. split_and!; try done; try lia. exists v, P, d.
    split_and!; try done; [apply written_nil; try done; [apply HF|lia]|lia|].
    apply inode_changed_same; [done|apply Hat].
  - apply passes_fuel; lia.
Qed.

(** The size of the file and its disk inode after the bytes are in place. *)
Lemma written_resized sb v d off l v' d' :
  written sb v d off l v' d' -> 0 <= off <= d_size d -> off + Z.of_nat (length l) <= MAXFILE * BSIZE ->
  inode_ok sb v' (set_d_size (Z.max (d_size d) (off + Z.of_nat (length l))) d').
Proof.
  intros HW Hoff Hmax. assert (Hsz : d_size d' = d_size d) by (by rewrite (wr_meta _ _ _ _ _ _ _ HW)).
  destruct HW as [[A1 A2 A3 A4 A5 A6 A7] _ _ HF _ _ _ _]. split; try done; simpl.
  - lia.
  - intros k Hk Hlt. destruct (decide (k * BSIZE < d_size d)).
    + apply (A7 k Hk). by rewrite Hsz.
    + apply (HF k Hk). lia.
Qed.

Lemma inode_view_ok sb v i d d' :
  sb_ok sb -> 0 <= i < sb_ninodes sb -> inode_ok sb v d -> bitmap_ok sb v ->
  inode_ok sb (inode_view sb v i d') d /\ bitmap_ok sb (inode_view sb v i d') /\
  (forall k, 0 <= k < MAXFILE * BSIZE -> fbyte (inode_view sb v i d') d k = fbyte v d k) /\
  (forall b, 0 <= b < sb_size sb -> allocated sb (inode_view sb v i d') b = allocated sb v b) /\
  (forall n, ~ reserved sb n -> inode_view sb v i d' n = v n).
Proof.
  intros Hsb Hi HI Hbm.
  assert (Hsame : forall n, ~ reserved sb n -> inode_view sb v i d' n = v n).
  { intros n Hn. apply fset_ne. intros ->. apply Hn. right. right. right. by exists i. }
  assert (Hall : forall b, 0 <= b < sb_size sb -> allocated sb (inode_view sb v i d') b = allocated sb v b).
  { intros b Hb. apply allocated_same; [done|]. apply fset_ne. apply not_eq_sym. by apply so_disjoint. }
  assert (Hdat : forall n, datablk sb v n -> inode_view sb v i d' n = v n) by (intros n (_ & _ & ?); auto).
  split_and!; try done.
  - apply (inode_ok_ext sb v); try done. intros n (? & ? & _). rewrite Hall; [done|lia].
  - intros n Hn Hr. rewrite Hall by done. by apply Hbm.
  - intros k Hk. by apply (fbyte_ext sb).
Qed.

(** What [writei] has done when it returns [r]. *)
Record wrote (s : kernel) (v : Z -> list Z) (ip : nat) (d : dinode) (i : Z) (user : bool)
    (um : Z -> option Z) (src off : Z) (L : list Z) (r : Z) (s' : kernel) (v' : Z -> list Z) (d' : dinode) : Prop := {
  wt_ret : 0 <= r <= Z.of_nat (length L);
  wt_full : r < Z.of_nat (length L) -> disk_full (k_sb s) v';
  wt_ok : inode_ok (k_sb s) v' d';
  wt_map : bitmap_ok (k_sb s) v';
  wt_frame : fs_frame s s';
  wt_reads : reads_from s' user um src L;
  wt_itable : inode_changed s s' ip d';
  wt_size : d_size d' = Z.max (d_size d) (off + r);
  wt_meta : d' = set_d_addrs (d_addrs d') (set_d_size (d_size d') d);
  wt_bytes : forall k, 0 <= k < MAXFILE * BSIZE -> fbyte v' d' k =
    if decide (off <= k < off + r) then byte_at L (k - off) else fbyte v d k;
  wt_disk : forall j, 0 <= j < sb_ninodes (k_sb s) -> v' (IBLOCK j (k_sb s)) =
    inode_view (k_sb s) v i d' (IBLOCK j (k_sb s));
  wt_other : forall n, datablk (k_sb s) v n -> foreign v d n -> v' n = v n;
}.

(** The end of [writei]: the size grows and the inode is stored. *)
Lemma writei_end_ok s v ip d i user um src off L full tot s1 Q :
  fs_ok s v -> inode_at s ip d -> i_inum (k_itable s ip) = i -> 0 <= i < sb_ninodes (k_sb s) ->
  inode_ok (k_sb s) v d -> 0 <= off <= d_size d ->
  off + Z.of_nat (length L) <= MAXFILE * BSIZE -> (tot <= length L)%nat ->
  (tot < length L -> full = true)%nat -> writing s v ip d user um src off L full tot 1 s1 ->
  (forall s' v' P' d', op s' v' ∅ P' ∅ -> (size P' < 28)%nat ->
     wrote s v ip d i user um src off L (Z.of_nat tot) s' v' d' -> Q (Z.of_nat tot) s') ->
  wp (i ← the_inode ip;
      when (d_size (i_d i) <? off + Z.of_nat tot) (modify (set_inode ip (set_d (set_d_size (off + Z.of_nat tot)))));;
      iupdate ip;;
      mret (s32 (Z.of_nat tot))) s1 Q.
Proof.
  intros HF Hat Hnum Hi HI Hoff Hmax Htot Hfu (v1 & P1 & d1 & H1 & HW & HP1 & F1 & Hc1 & HR1 & Hfull) HQ.
  destruct (inode_changed_at s s1 ip d d1 Hat Hc1) as [Hdev1 Hd1].
  assert (Hsz : d_size d1 = d_size d) by (by rewrite (wr_meta _ _ _ _ _ _ _ HW)).
  assert (Hlt : length (take tot L) = tot) by (rewrite length_take; lia).
  set (d2 := set_d_size (Z.max (d_size d) (off + Z.of_nat tot)) d1).
  assert (HI2 : inode_ok (k_sb s) v1 d2).
  { unfold d2. rewrite <- Hlt. apply (written_resized (k_sb s) v); try done. rewrite Hlt. lia. }
  unfold the_inode. apply wp_bind, wp_gets. rewrite Hd1, Hsz. apply wp_bind.
  match goal with |- wp ?m s1 _ => assert (Hw : wp m s1 (fun _ s2 => op s2 v1 ∅ P1 ∅ /\ fs_frame s1 s2 /\
    inode_changed s1 s2 ip d2 /\ k_km s2 = k_km s1)) end.
  { destruct (Z.ltb_spec (d_size d) (off + Z.of_nat tot)); simpl.
    - apply wp_modify. split_and!; [by apply (op_same s1)|apply frame_inode| |done].
      unfold d2. rewrite Z.max_r by lia. rewrite <- Hd1.
      by apply (inode_changed_set s1 s1 ip).
    - apply wp_ret. split_and!; [done|reflexivity| |done]. apply inode_changed_same; [done|].
      unfold d2. rewrite Z.max_l by lia. rewrite Hd1, <- Hsz. by destruct d1. }
  eapply wp_mono; [exact Hw|]. intros [] s2 (H2 & F2 & Hc2 & Ek2). clear Hw.
  assert (F12 : fs_frame s s2) by (by transitivity s1).
  assert (Hc : inode_changed s s2 ip d2) by (by eapply inode_changed_trans).
  assert (Es : k_sb s2 = k_sb s) by (by apply frame_sb).
  assert (Hnum2 : i_inum (k_itable s2 ip) = i) by (rewrite Hc, decide_True by done; exact Hnum).
  apply wp_bind. eapply (iupdate_ok s2 v1 P1 ip d2 i);
    [done|rewrite Es; apply HF|by eapply inode_changed_at|done|by rewrite Es|apply HI2|lia|].
  rewrite Es. intros s3 H3 K3. apply wp_ret. rewrite s32_small by (sizes; lia).
  destruct (inode_view_ok (k_sb s) v1 i d2 d2 (fo_sb _ _ HF) Hi HI2 (wr_map _ _ _ _ _ _ _ HW)) as (V1 & V2 & V3 & V4 & V5).
  destruct HW as [A1 A2 A3 A4 A5 A6 A7 A8]. rewrite Hlt in A3.
  pose proof (size_insert_le (IBLOCK i (k_sb s)) P1).
  eapply (HQ s3 _ _ d2); [exact H3|lia|]. split.
  - lia.
  - intros Hlt'. intros b Hb. rewrite V4 by done. apply Hfull; [apply Hfu; lia|done].
  - exact V1.
  - exact V2.
  - transitivity s2; [done|by apply keeps_frame].
  - apply (keeps_reads s2 s3); [done|]. by apply (frame_reads s1).
  - intros j. destruct K3 as (_ & -> & _). apply Hc.
  - done.
  - unfold d2. simpl. rewrite A5. by destruct d.
  - intros k Hk. rewrite V3 by done. change (fbyte v1 d2 k) with (fbyte v1 d1 k). rewrite A3 by done.
    case_decide; [|done]. unfold byte_at. by rewrite lookup_take_lt by lia.
  - intros j Hj. unfold inode_view, fset. by rewrite !A7 by done.
  - intros n Hd Hf. rewrite V5 by apply Hd. by apply A8.
Qed.

Lemma writei_ok s v P ip d i user um src off L Q :
  op s v ∅ P ∅ -> fs_ok s v -> inode_at s ip d -> i_inum (k_itable s ip) = i -> 0 <= i < sb_ninodes (k_sb s) ->
  inode_ok (k_sb s) v d -> reads_from s user um src L ->
  0 <= off <= d_size d -> off + Z.of_nat (length L) <= MAXFILE * BSIZE ->
  (size P + 6 * passes off (off + Z.of_nat (length L)) + 1 < 28)%nat ->
  (forall s' v' P' d' r, op s' v' ∅ P' ∅ -> (size P' < 28)%nat ->
     wrote s v ip d i user um src off L r s' v' d' -> Q r s') ->
  wp (writei ip user src off (Z.of_nat (length L))) s Q.
Proof.
  intros Ho HF Hat Hnum Hi HI HR Hoff Hmax HP HQ. assert (Hat' := Hat). destruct Hat' as [_ Hd].
  unfold writei, the_inode. apply wp_bind, wp_gets. rewrite Hd.
  rewrite u32_small by (sizes; lia).
  destruct (Z.ltb_spec (d_size d) off); [lia|]. destruct (Z.ltb_spec (off + Z.of_nat (length L)) off); [lia|].
  cbn [orb]. destruct (Z.ltb_spec (MAXFILE * BSIZE) (off + Z.of_nat (length L))); [lia|].
  apply wp_bind. eapply (writei_loop_ok s v P ip d); try done.
  intros s1 tot full Htot Hfu HW. cbv beta iota.
  apply (writei_end_ok s v ip d i user um src off L full tot s1); try done.
  intros s2 v' P' d'. apply HQ.
Qed.

(** [readi] delivers the file's bytes: as many as were asked for, up to the
    end of the file, in order, to user or kernel memory; past the end it
    returns 0.  No block, no inode and nothing else of the kernel changes. *)
Theorem readi_reads s v P ip d user um dst off n :
  op s v ∅ P ∅ -> inode_at s ip d -> inode_ok (k_sb s) v d -> (size P < NBUF)%nat ->
  0 <= off < 2 ^ 32 -> 0 <= n < 2 ^ 32 -> off + n < 2 ^ 32 ->
  room_at user um dst (Z.to_nat (readable d off n)) -> delivered s user um dst [] ->
  wp (readi ip user dst off n) s (fun r s' => r = readable d off n /\ op s' v ∅ P ∅ /\
    fs_frame s s' /\ k_itable s' = k_itable s /\
    delivered s' user um dst (fbytes v d off (Z.to_nat r))).
Proof.
  intros Ho Hat HI HP Hoff Hn Hon Hroom HD.
  apply (readi_ok s v P ip d user um dst off n); done.
Qed.

(** C19: [writei] stores the writer's bytes in the file: it returns how many, all
    of them unless no free block is left; the file holds them at [off], its
    other bytes are unchanged, its size is the larger of the old one and the
    end of the write, the disk inode is up to date, and no block of another
    file changes. *)
Theorem writei_writes s v P ip d i user um src off L :
  op s v ∅ P ∅ -> fs_ok s v -> inode_at s ip d -> i_inum (k_itable s ip) = i -> 0 <= i < sb_ninodes (k_sb s) ->
  inode_ok (k_sb s) v d -> reads_from s user um src L ->
  0 <= off <= d_size d -> off + Z.of_nat (length L) <= MAXFILE * BSIZE ->
  (size P + 6 * passes off (off + Z.of_nat (length L)) + 1 < 28)%nat ->
  wp (writei ip user src off (Z.of_nat (length L))) s (fun r s' =>
    exists v' P' d', op s' v' ∅ P' ∅ /\ wrote s v ip d i user um src off L r s' v' d').
Proof.
  intros. eapply writei_ok; try done. intros s' v' P' d' r H' _ HW. by exists v', P', d'.
Qed.

(** What was written is what the file holds there. *)
Lemma wrote_fbytes s v ip d i user um src off L r s' v' d' :
  wrote s v ip d i user um src off L r s' v' d' -> 0 <= off -> off + Z.of_nat (length L) <= MAXFILE * BSIZE ->
  fbytes v' d' off (Z.to_nat r) = take (Z.to_nat r) L.
Proof.
  intros HW Hoff Hmax. destruct (wt_ret _ _ _ _ _ _ _ _ _ _ _ _ _ _ HW) as [Hr0 Hr].
  apply list_eq. intros k. destruct (decide (k < Z.to_nat r)%nat) as [Hk|Hk].
  - rewrite lookup_fbytes, lookup_take_lt by done. rewrite (wt_bytes _ _ _ _ _ _ _ _ _ _ _ _ _ _ HW) by lia.
    rewrite decide_True by lia. unfold byte_at. replace (Z.to_nat (off + Z.of_nat k - off)) with k by lia.
    destruct (L !! k) eqn:E; [done|]. apply lookup_ge_None in E. lia.
  - rewrite !lookup_ge_None_2; [done| |]; rewrite ?length_fbytes, ?length_take; lia.
Qed.

(** C20: reading back what was written: [writei] of user bytes followed by
    [readi] of the range it wrote delivers those bytes to the reader. *)
Theorem writei_readi s v P ip d i um src dst off L :
  op s v ∅ P ∅ -> fs_ok s v -> inode_at s ip d -> i_inum (k_itable s ip) = i -> 0 <= i < sb_ninodes (k_sb s) ->
  inode_ok (k_sb s) v d -> reads_from s true um src L ->
  0 <= off <= d_size d -> off + Z.of_nat (length L) <= MAXFILE * BSIZE ->
  (size P + 6 * passes off (off + Z.of_nat (length L)) + 1 < 28)%nat ->
  room_at true um dst (length L) ->
  wp (r ← writei ip true src off (Z.of_nat (length L)); r' ← readi ip true dst off r; mret (r, r')) s
    (fun '(r, r') s' => r' = r /\ 0 <= r <= Z.of_nat (length L) /\
      delivered s' true um dst (take (Z.to_nat r) L)).
Proof.
  intros Ho HF Hat Hnum Hi HI HR Hoff Hmax HP Hroom. apply wp_bind.
  eapply (writei_ok s v P ip d i true um src off L); try done. intros s1 v1 P1 d1 r H1 HP1 HW.
  pose proof (wrote_fbytes _ _ _ _ _ _ _ _ _ _ _ _ _ _ HW ltac:(lia) Hmax) as Hfb.
  destruct HW as [W1 W2 W3 W4 W5 W6 W7 W8 W9 W10 W11 W12]. apply wp_bind.
  assert (Hm : readable d1 off r = r).
  { unfold readable. rewrite W8. destruct (Z.ltb_spec (d_size d `max` (off + r)) off); lia. }
  eapply (readi_ok s1 v1 P1 ip d1 true um dst off r);
    [done|by eapply inode_changed_at|by rewrite (frame_sb _ _ W5)|unfold NBUF; lia|sizes; lia|sizes; lia|sizes; lia|..];
    rewrite ?Hm.
  - destruct Hroom as (R1 & R2 & R3). split_and!; [done|lia|]. intros k Hk. apply R3. lia.
  - destruct W6 as (_ & _ & _ & pt & Hpt & Hu & _). exists pt. split; [done|]. by rewrite user_write_nil.
  - intros s2 H2 F2 E2 HD. apply wp_ret. rewrite Hfb in HD. split_and!; done || lia.
Qed.
End files.
