(* ===== verification/FsDir.v ===== *)
(** The inode table and directories, [kernel/fs.c]: [iget], [dirlookup] and
    [dirlink] on a directory seen as a list of entries. *)

From stdpp Require Import gmap.
From S2P Require Import Prelude CString Layout Kalloc Vm Sleeplock Bio Log LogSafe Kernel UserMem Sched Uart Printf Fs FsTx FsAlloc FsIo FsInode FsDisk FsFile.

(** * The inode table *)

(** Entry [i] is in use for inode [inum] of device [dv]. *)
Definition entry_for (tab : nat -> inode) (dv inum : Z) (i : nat) : Prop :=
  0 < i_ref (tab i) /\ i_dev (tab i) = dv /\ i_inum (tab i) = inum.

(** Every inode in use has one entry. *)
Definition itable_ok (tab : nat -> inode) : Prop :=
  (forall i, 0 <= i_ref (tab i)) /\
  forall i j dv inum, (i < NINODE)%nat -> (j < NINODE)%nat ->
    entry_for tab dv inum i -> entry_for tab dv inum j -> i = j.

Lemma entry_test tab dv inum i :
  (0 <? i_ref (tab i)) && (i_dev (tab i) =? dv) && (i_inum (tab i) =? inum) = true <-> entry_for tab dv inum i.
Proof. unfold entry_for. rewrite !andb_true_iff, Z.ltb_lt, !Z.eqb_eq. tauto. Qed.

Lemma iget_scan_ok n tab dv inum i0 e0 :
  match iget_scan n tab dv inum i0 e0 with
  | (Some i, _) => (i0 <= i < i0 + n)%nat /\ entry_for tab dv inum i
  | (None, e) => (forall i, (i0 <= i < i0 + n)%nat -> ~ entry_for tab dv inum i) /\
      match e with
      | Some i => e0 = Some i \/ ((i0 <= i < i0 + n)%nat /\ i_ref (tab i) = 0)
      | None => e0 = None /\ forall i, (i0 <= i < i0 + n)%nat -> i_ref (tab i) <> 0
      end
  end.
Proof.
  revert i0 e0. induction n as [|n IH]; intros i0 e0; cbn [iget_scan].
  { split; [lia|]. destruct e0; [by left|]. split; [done|lia]. }
  destruct (_ && _) eqn:Et; [apply entry_test in Et; split; [lia|done]|].
  assert (Hno : ~ entry_for tab dv inum i0) by (intros H; apply entry_test in H; congruence).
  set (e1 := match e0 with Some _ => e0 | None => if i_ref (tab i0) =? 0 then Some i0 else None end).
  specialize (IH (S i0) e1). destruct (iget_scan _ _ _ _ _ _) as [[i|] e].
  { destruct IH as [Hi He]. split; [lia|done]. }
  destruct IH as [H1 H2]. split.
  { intros i Hi. destruct (decide (i = i0)) as [->|]; [done|apply H1; lia]. }
  unfold e1 in H2. destruct e as [i|].
  - destruct H2 as [H2|[H2 H3]]; [|right; split; [lia|done]]. destruct e0; [by left|].
    destruct (Z.eqb_spec (i_ref (tab i0)) 0); simplify_eq. right. split; [lia|done].
  - destruct e0; [by destruct H2|]. destruct (Z.eqb_spec (i_ref (tab i0)) 0); [by destruct H2|].
    destruct H2 as [_ H2]. split; [done|]. intros i Hi. destruct (decide (i = i0)) as [->|]; [done|apply H2; lia].
Qed.

Section table.
Context `{KE : KernelEnd, PL : Platform}.

(** [iget] took a reference on entry [i]. *)
Record got (s : kernel) (dv inum : Z) (i : nat) (s' : kernel) : Prop := {
  gt_index : (i < NINODE)%nat;
  gt_state : exists t, s' = set_k_itable t s;
  gt_others : forall j, j <> i -> k_itable s' j = k_itable s j;
  gt_entry : (entry_for (k_itable s) dv inum i /\
      k_itable s' i = set_i_ref (i_ref (k_itable s i) + 1) (k_itable s i)) \/
    (i_ref (k_itable s i) = 0 /\ (forall j, (j < NINODE)%nat -> ~ entry_for (k_itable s) dv inum j) /\
      k_itable s' i = set_i_valid 0 (set_i_ref 1 (set_i_inum inum (set_i_dev dv (k_itable s i)))));
}.

Lemma iget_ok s dv inum Q :
  (exists i, (i < NINODE)%nat /\ (i_ref (k_itable s i) = 0 \/ entry_for (k_itable s) dv inum i)) ->
  (forall i s', got s dv inum i s' -> Q i s') -> wp (iget dv inum) s Q.
Proof.
  intros (i0 & Hi0 & Hfree) HQ. unfold iget. apply wp_bind, wp_gets.
  pose proof (iget_scan_ok NINODE (k_itable s) dv inum 0 None) as H.
  destruct (iget_scan _ _ _ _ _ _) as [[i|] e].
  - destruct H as [Hi He]. apply wp_bind, wp_modify, wp_ret, HQ. split; [lia|by eexists| |].
    + intros j Hj. simpl. by apply upd_ne.
    + left. split; [done|]. simpl. by rewrite upd_eq.
  - destruct H as [Hno He]. destruct e as [i|].
    + destruct He as [?|[Hi Hr]]; [done|]. do 4 (apply wp_bind, wp_modify). apply wp_ret, HQ.
      split; [lia|by eexists| |].
      * intros j Hj. simpl. by rewrite !upd_ne.
      * right. split_and!; [done|intros; apply Hno; lia|]. simpl. by rewrite !upd_eq.
    + destruct He as [_ He]. destruct Hfree as [Hf|Hf]; [by destruct (He i0); [lia|]|].
      by destruct (Hno i0); [lia|].
Qed.

Lemma got_frame s dv inum i s' : got s dv inum i s' -> fs_frame s s'.
Proof. intros [_ [t ->] _ _]. apply frame_itable. Qed.

Lemma got_entry s dv inum i s' :
  got s dv inum i s' -> (i < NINODE)%nat /\ entry_for (k_itable s') dv inum i.
Proof.
  intros [Hi _ _ Hent]. split; [done|].
  unfold entry_for. destruct Hent as [[(? & ? & ?) ->]|(_ & _ & ->)]; simpl; split_and!; done || lia.
Qed.

(** [iget] keeps the inode table consistent: every inode in use has exactly
    one entry.  It returns the entry of the inode asked for, with one more
    reference, and changes no other entry; it needs only that the inode has an
    entry or that one is free. *)
Theorem iget_unique s dv inum :
  itable_ok (k_itable s) ->
  (exists i, (i < NINODE)%nat /\ (i_ref (k_itable s i) = 0 \/ entry_for (k_itable s) dv inum i)) ->
  wp (iget dv inum) s (fun i s' => itable_ok (k_itable s') /\ entry_for (k_itable s') dv inum i /\
    i_ref (k_itable s' i) = i_ref (k_itable s i) + 1 /\
    forall j, j <> i -> k_itable s' j = k_itable s j).
Proof.
  intros [Hpos Huniq] Hfree. apply iget_ok; [done|]. intros i s' [Hi _ Hoth Hent].
  assert (Hr : entry_for (k_itable s') dv inum i /\ i_ref (k_itable s' i) = i_ref (k_itable s i) + 1).
  { pose proof (Hpos i). unfold entry_for. destruct Hent as [[(? & ? & ?) ->]|(Hr & _ & ->)]; simpl; lia || (split_and!; done || lia). }
  destruct Hr as [He Hr]. split_and!; [|done|done|done]. split.
  - intros j. destruct (decide (j = i)) as [->|]; [|by rewrite Hoth]. pose proof (Hpos i). lia.
  - assert (Hback : forall j dv' inum', (j < NINODE)%nat -> j <> i -> entry_for (k_itable s') dv' inum' j ->
      ~ entry_for (k_itable s') dv' inum' i).
    { intros j dv' inum' Hj Hne Hej Hei. unfold entry_for in Hej. rewrite Hoth in Hej by done.
      destruct He as (_ & E1 & E2), Hei as (_ & E3 & E4). subst.
      destruct Hent as [[Hent _]|(_ & Hno & _)]; [|by apply (Hno j Hj)].
      apply Hne. apply (Huniq j i _ _ Hj Hi Hej). done. }
    intros j k dv' inum' Hj Hk Hej Hek. destruct (decide (j = i)) as [->|Hji], (decide (k = i)) as [->|Hki]; try done.
    + by destruct (Hback k dv' inum' Hk Hki Hek).
    + by destruct (Hback j dv' inum' Hj Hji Hej).
    + unfold entry_for in Hej, Hek. rewrite !Hoth in Hej, Hek by done. by apply (Huniq j k dv' inum').
Qed.
End table.

(** * Directories as lists of entries *)

(** The entries, 16 bytes each: the inode number and the name. *)
Definition dirents (v : Z -> list Z) (d : dinode) : list (list Z) :=
  (fun k => fbytes v d (DIRENT * Z.of_nat k) (Z.to_nat DIRENT)) <$> seq 0 (Z.to_nat (d_size d / DIRENT)).

(** An entry in use with that name. *)
Definition dmatch (name de : list Z) : bool :=
  negb (de_inum de =? 0) && (namecmp name (de_name de) =? 0).

(** The first entry with that name. *)
Definition dir_find (v : Z -> list Z) (d : dinode) (name : list Z) : option (nat * list Z) :=
  list_find (fun de => dmatch name de = true) (dirents v d).

Record dir_ok (sb : superblock) (v : Z -> list Z) (d : dinode) : Prop := {
  dk_inode : inode_ok sb v d;
  dk_type : d_type d = T_DIR;
  dk_size : d_size d mod DIRENT = 0;
}.

Lemma length_dirents v d : length (dirents v d) = Z.to_nat (d_size d / DIRENT).
Proof. unfold dirents. by rewrite length_fmap, length_seq. Qed.

Lemma lookup_dirents v d k :
  (k < Z.to_nat (d_size d / DIRENT))%nat ->
  dirents v d !! k = Some (fbytes v d (DIRENT * Z.of_nat k) (Z.to_nat DIRENT)).
Proof.
  intros Hk. unfold dirents. by rewrite list_lookup_fmap, lookup_seq_lt.
Qed.

(** The first entry not in use, or the end. *)
Definition dir_free (v : Z -> list Z) (d : dinode) : nat :=
  match list_find (fun de => de_inum de = 0) (dirents v d) with
  | Some (k, _) => k
  | None => length (dirents v d)
  end.

Lemma dir_free_le v d : (dir_free v d <= Z.to_nat (d_size d / DIRENT))%nat.
Proof.
  rewrite <- (length_dirents v). unfold dir_free. destruct (list_find _ _) as [[k x]|] eqn:E; [|done].
  apply list_find_Some in E as (E%lookup_lt_Some & _). lia.
Qed.

Lemma dir_free_unused v d y : dirents v d !! dir_free v d = Some y -> de_inum y = 0.
Proof.
  unfold dir_free. destruct (list_find _ _) as [[k x]|] eqn:E; intros Hy.
  - apply list_find_Some in E as (E & Hx & _). by simplify_eq.
  - apply lookup_lt_Some in Hy. lia.
Qed.

(** An entry lies in one block. *)
Lemma passes_dirent k : passes (DIRENT * Z.of_nat k) (DIRENT * Z.of_nat k + 16) = 1%nat.
Proof.
  unfold passes, DIRENT, BSIZE. destruct (Z.ltb_spec (16 * Z.of_nat k) (16 * Z.of_nat k + 16)); [|lia].
  Z.div_mod_to_equations; lia.
Qed.

(** Scanning a list from the front. *)
Lemma list_find_at {A} (P : A -> Prop) `{forall x, Decision (P x)} (l : list A) k x :
  l !! k = Some x -> P x -> (forall j y, l !! j = Some y -> (j < k)%nat -> ~ P y) ->
  list_find P l = Some (k, x).
Proof. intros. by apply list_find_Some. Qed.

Lemma list_find_end {A} (P : A -> Prop) `{forall x, Decision (P x)} (l : list A) :
  (forall j y, l !! j = Some y -> ~ P y) -> list_find P l = None.
Proof.
  intros Hno. apply list_find_None, Forall_lookup. intros j y Hy. by apply (Hno j y).
Qed.

(** Putting an entry in place of an unused one, or behind the last. *)
Definition put_at {A} (k : nat) (x : A) (l : list A) : list A := take k l ++ x :: drop (S k) l.

Lemma find_put {A} (P : A -> Prop) `{forall x, Decision (P x)} (l : list A) k x :
  list_find P l = None -> P x -> (k <= length l)%nat -> list_find P (put_at k x l) = Some (k, x).
Proof.
  intros Hno%list_find_None Hx Hk. apply list_find_at; [|done|].
  - unfold put_at. by rewrite lookup_app_r, length_take, Nat.min_l, Nat.sub_diag by (rewrite ?length_take; lia).
  - intros j y Hy Hj. unfold put_at in Hy. rewrite lookup_app_l, lookup_take_lt in Hy by (rewrite ?length_take; lia).
    by apply (Forall_lookup_1 _ _ _ _ Hno Hy).
Qed.

Lemma find_put_other {A} (P : A -> Prop) `{forall x, Decision (P x)} (l : list A) k x :
  ~ P x -> (forall y, l !! k = Some y -> ~ P y) -> list_find P (put_at k x l) = list_find P l.
Proof.
  intros Hx. revert k. unfold put_at. induction l as [|y l IH]; intros [|k] Hy; simpl; rewrite ?decide_False by auto.
  - done.
  - done.
  - by rewrite drop_0.
  - rewrite IH by (intros z; apply Hy). done.
Qed.

Section dirs.
Context `{KE : KernelEnd, PL : Platform} {UR : UartReady} {UM : UserMem}.

(** The local variable the directory code reads entries into. *)
Definition local_ok : Prop :=
  0 <= klocal /\ klocal + DIRENT < 2 ^ 64 /\ off_buffers klocal (Z.to_nat DIRENT).

(** A process runs, and the kernel's memory is bytes. *)
Definition kernel_ready (s : kernel) : Prop :=
  exists pt, cur_pt s pt /\ bytes_ok (km_mem (k_km s)).

(** The file system in the middle of reading directory [dp]. *)
Record in_dir (s0 s : kernel) (v : Z -> list Z) (P : gset Z) (dp : nat) (d : dinode) : Prop := {
  id_op : op s v ∅ P ∅;
  id_at : inode_at s dp d;
  id_frame : fs_frame s0 s;
  id_itable : k_itable s = k_itable s0;
  id_ready : kernel_ready s;
}.

Lemma read_dirent_ok s0 s v P dp d k msg Q :
  local_ok -> in_dir s0 s v P dp d -> dir_ok (k_sb s0) v d -> (size P < NBUF)%nat ->
  (k < Z.to_nat (d_size d / DIRENT))%nat ->
  (forall s', in_dir s0 s' v P dp d -> Q (fbytes v d (DIRENT * Z.of_nat k) (Z.to_nat DIRENT)) s') ->
  wp (read_dirent dp (DIRENT * Z.of_nat k) msg) s Q.
Proof.
  intros (L1 & L2 & L3) [Ho Hat F Ei (pt & Hpt & Hb)] [HI Hty Hsz] HP Hk HQ.
  pose proof (io_size _ _ _ HI) as Hs.
  assert (Hend : DIRENT * Z.of_nat k + DIRENT <= d_size d) by (unfold DIRENT in *; Z.div_mod_to_equations; lia).
  assert (Hm : readable d (DIRENT * Z.of_nat k) DIRENT = DIRENT).
  { unfold readable, DIRENT in *. destruct (Z.ltb_spec (d_size d) (16 * Z.of_nat k)); lia. }
  unfold read_dirent. apply wp_bind.
  eapply (readi_ok s v P dp d false (fun _ => None) klocal (DIRENT * Z.of_nat k) DIRENT); try done;
    rewrite ?Hm, ?(frame_sb _ _ F); try done; try (unfold DIRENT in *; sizes; lia).
  - by exists pt.
  - intros s' H' F' E' (pt' & Hpt' & Hb' & Hl'). rewrite Z.eqb_refl. cbn [negb].
    unfold load_mem. apply wp_gets. rewrite length_fbytes in Hl'. rewrite Hl'. apply HQ.
    split; [done|by eapply keeps_inode_at|by transitivity s|by rewrite E'|by exists pt'].
Qed.

(** [dirlookup] stops at the first entry of that name. *)
Lemma dirlookup_ok s v P dp d name Q :
  local_ok -> in_dir s s v P dp d -> dir_ok (k_sb s) v d -> (size P < NBUF)%nat ->
  (exists i, (i < NINODE)%nat /\ i_ref (k_itable s i) = 0) ->
  (forall s', in_dir s s' v P dp d -> dir_find v d name = None -> Q None s') ->
  (forall s1 s' k de ip, in_dir s s1 v P dp d -> dir_find v d name = Some (k, de) ->
     got s1 ROOTDEV (de_inum de) ip s' -> Q (Some (ip, DIRENT * Z.of_nat k)) s') ->
  wp (dirlookup dp name) s Q.
Proof.
  intros HL Hs HD HP Hfree HQn HQs. unfold dirlookup, the_inode. apply wp_bind, wp_gets.
  destruct (id_at _ _ _ _ _ _ Hs) as [Hdev Hd]. rewrite Hd, (dk_type _ _ _ HD). cbn [negb Z.eqb T_DIR Pos.eqb].
  pose proof (io_size _ _ _ (dk_inode _ _ _ HD)) as Hsz.
  set (n := Z.to_nat (d_size d / DIRENT)).
  assert (Hn : d_size d = DIRENT * Z.of_nat n).
  { pose proof (dk_size _ _ _ HD). unfold n, DIRENT in *. Z.div_mod_to_equations; lia. }
  apply (wp_loop (fun off s' => exists k, off = DIRENT * Z.of_nat k /\ (k <= n)%nat /\ in_dir s s' v P dp d /\
      (forall j y, dirents v d !! j = Some y -> (j < k)%nat -> dmatch name y <> true))
    (fun off _ => (n - Z.to_nat (off / DIRENT))%nat)).
  - intros off s1 (k & -> & Hk & H1 & Hno). unfold dirlookup_body, the_inode. apply wp_bind, wp_gets.
    destruct (id_at _ _ _ _ _ _ H1) as [Hdev1 Hd1]. rewrite Hd1, Hn.
    destruct (Z.ltb_spec (DIRENT * Z.of_nat k) (DIRENT * Z.of_nat n)) as [Hlt|Hge].
    + apply wp_bind. eapply (read_dirent_ok s s1 v P dp d k); try done; [unfold DIRENT in *; lia|].
      intros s2 H2. set (de := fbytes v d (DIRENT * Z.of_nat k) (Z.to_nat DIRENT)).
      assert (Hde : dirents v d !! k = Some de) by (apply lookup_dirents; unfold n, DIRENT in *; lia).
      assert (Hnext : dmatch name de <> true -> wp (mret (inl (u32 (DIRENT * Z.of_nat k + DIRENT)))) s2
        (fun (r : Z + option (nat * Z)) s' => match r with
          | inl l' => (exists k, l' = DIRENT * Z.of_nat k /\ (k <= n)%nat /\ in_dir s s' v P dp d /\
              (forall j y, dirents v d !! j = Some y -> (j < k)%nat -> dmatch name y <> true)) /\
              (n - Z.to_nat (l' / DIRENT) < n - Z.to_nat (DIRENT * Z.of_nat k / DIRENT))%nat
          | inr a => Q a s' end)).
      { intros Hm. apply wp_ret. rewrite u32_small by (unfold DIRENT in *; sizes; lia).
        unfold DIRENT in *. split; [|Z.div_mod_to_equations; lia]. exists (S k). split_and!; [lia|lia|done|].
        intros j y Hy Hj. destruct (decide (j = k)) as [->|]; [by simplify_eq|apply (Hno j y Hy); lia]. }
      unfold dmatch in Hnext. destruct (Z.eqb_spec (de_inum de) 0) as [Hz|Hz]; [by apply Hnext|].
      destruct (Z.eqb_spec (namecmp name (de_name de)) 0) as [Hc|Hc]; [|by apply Hnext].
      destruct (id_at _ _ _ _ _ _ H1) as [-> _]. apply wp_bind, iget_ok.
      { destruct Hfree as (i & Hi & Hr). exists i. split; [done|left]. by rewrite (id_itable _ _ _ _ _ _ H2). }
      intros ip s3 Hgot. apply wp_ret. apply (HQs s2 s3 k de ip); [done| |done].
      apply list_find_at; [done| |exact Hno]. unfold dmatch.
      destruct (Z.eqb_spec (de_inum de) 0); [done|]. by rewrite Hc.
    + apply wp_ret, HQn; [done|]. apply list_find_end. intros j y Hy. apply (Hno j y Hy).
      apply lookup_lt_Some in Hy. rewrite length_dirents in Hy. unfold n, DIRENT in *. lia.
  - exists O. split_and!; [done|lia|done|intros; lia].
  - simpl. unfold n, DIRENT. Z.div_mod_to_equations; lia.
Qed.

(** The search of [dirlink] for an entry not in use. *)
Lemma dirlink_search_ok s0 s v P dp d Q :
  local_ok -> in_dir s0 s v P dp d -> dir_ok (k_sb s0) v d -> (size P < NBUF)%nat ->
  (forall s', in_dir s0 s' v P dp d -> Q (DIRENT * Z.of_nat (dir_free v d)) s') ->
  wp (loop (Z.to_nat (d_size d / DIRENT + 2)) (dirlink_body dp) 0) s Q.
Proof.
  intros HL Hs HD HP HQ. pose proof (io_size _ _ _ (dk_inode _ _ _ HD)) as Hsz.
  set (n := Z.to_nat (d_size d / DIRENT)).
  assert (Hn : d_size d = DIRENT * Z.of_nat n).
  { pose proof (dk_size _ _ _ HD). unfold n, DIRENT in *. Z.div_mod_to_equations; lia. }
  apply (wp_loop (fun off s' => exists k, off = DIRENT * Z.of_nat k /\ (k <= n)%nat /\ in_dir s0 s' v P dp d /\
      (forall j y, dirents v d !! j = Some y -> (j < k)%nat -> de_inum y <> 0))
    (fun off _ => (n - Z.to_nat (off / DIRENT))%nat)).
  - intros off s1 (k & -> & Hk & H1 & Hno). unfold dirlink_body, the_inode. apply wp_bind, wp_gets.
    destruct (id_at _ _ _ _ _ _ H1) as [_ Hd1]. rewrite Hd1, Hn.
    destruct (Z.ltb_spec (DIRENT * Z.of_nat k) (DIRENT * Z.of_nat n)) as [Hlt|Hge].
    + apply wp_bind. eapply (read_dirent_ok s0 s1 v P dp d k); try done; [unfold DIRENT in *; lia|].
      intros s2 H2. set (de := fbytes v d (DIRENT * Z.of_nat k) (Z.to_nat DIRENT)).
      assert (Hde : dirents v d !! k = Some de) by (apply lookup_dirents; unfold n, DIRENT in *; lia).
      destruct (Z.eqb_spec (de_inum de) 0) as [Hz|Hz]; apply wp_ret.
      * assert (E : dir_free v d = k); [|rewrite <- E; by apply HQ].
        unfold dir_free. by rewrite (list_find_at _ _ k de).
      * unfold DIRENT in *. split; [|Z.div_mod_to_equations; lia]. exists (S k). split_and!; [lia|lia|done|].
        intros j y Hy Hj. destruct (decide (j = k)) as [->|]; [by simplify_eq|apply (Hno j y Hy); lia].
    + assert (k = n) as -> by (unfold DIRENT in *; lia). apply wp_ret.
      assert (E : dir_free v d = n); [|rewrite <- E; by apply HQ].
      unfold dir_free. rewrite list_find_end, length_dirents; [done|].
      intros j y Hy. apply (Hno j y Hy). apply lookup_lt_Some in Hy. by rewrite length_dirents in Hy.
  - exists O. split_and!; [done|lia|done|intros; lia].
  - simpl. unfold n, DIRENT. Z.div_mod_to_equations; lia.
Qed.

(** The bytes of a new entry. *)
Definition new_dirent (name : list Z) (inum : Z) : list Z := le_split 2 inum ++ strncpy_name name.

Lemma length_new_dirent name inum : length (new_dirent name inum) = 16%nat.
Proof. unfold new_dirent, strncpy_name. by rewrite length_app, length_le_split, length_load_bytes. Qed.

Lemma arr_bytes l j : Forall is_byte l -> 0 <= arr l j < 256.
Proof.
  intros Hl. unfold arr. destruct (j <? 0); [lia|]. rewrite (nth_lookup l (Z.to_nat j) 0).
  destruct (l !! Z.to_nat j) eqn:E; simpl; [|lia]. by apply (Forall_lookup_1 _ _ _ _ Hl E).
Qed.

Lemma strncpy_name_byte name i :
  Forall is_byte name -> (i < 14)%nat -> strncpy_name name !! i = Some (cut (arr name) i).
Proof.
  intros Hn Hi. unfold strncpy_name. rewrite lookup_load_bytes by (unfold DIRSIZ; lia).
  rewrite strncpy_in; [done|unfold DIRSIZ; lia|]. intros j. by apply arr_bytes.
Qed.

Lemma new_dirent_bytes name inum : Forall is_byte name -> Forall is_byte (new_dirent name inum).
Proof.
  intros Hn. unfold new_dirent. apply Forall_app. split; [apply le_split_bytes|].
  apply Forall_lookup. intros i x Hx.
  assert (Hi : (i < 14)%nat).
  { apply lookup_lt_Some in Hx. unfold strncpy_name in Hx. by rewrite length_load_bytes in Hx. }
  rewrite strncpy_name_byte in Hx by done. simplify_eq.
  assert (H : forall i t, (forall j, 0 <= t j < 256) -> is_byte (cut t i)).
  { clear. induction i as [|i IH]; intros t Ht; simpl; [apply Ht|]. destruct (t 0 =? 0); [done|].
    apply IH. intros j. apply Ht. }
  apply H. intros j. by apply arr_bytes.
Qed.

(** The new entry is found under its name. *)
Lemma new_dirent_match name inum :
  Forall is_byte name -> 0 < inum < 2 ^ 16 ->
  de_inum (new_dirent name inum) = inum /\ dmatch name (new_dirent name inum) = true.
Proof.
  intros Hn Hi. assert (E : de_inum (new_dirent name inum) = inum).
  { unfold de_inum, get16, new_dirent. rewrite drop_0, take_app_length' by (by rewrite length_le_split).
    rewrite le_combine_split. apply Z.mod_small. lia. }
  split; [done|]. unfold dmatch. rewrite E. destruct (Z.eqb_spec inum 0); [lia|]. simpl. apply Z.eqb_eq.
  unfold namecmp. apply strncmp_agree; [unfold DIRSIZ; lia|]. intros i Hi' Hnz.
  unfold de_name, new_dirent. rewrite drop_app_length' by (by rewrite length_le_split).
  unfold arr at 2. destruct (Z.ltb_spec i 0); [lia|]. rewrite nth_lookup.
  rewrite strncpy_name_byte by (done || unfold DIRSIZ in *; lia). simpl.
  rewrite cut_no_nul; rewrite Z2Nat.id by lia; done.
Qed.

Lemma new_dirent_other name name' inum :
  Forall is_byte name -> namecmp name' name <> 0 -> dmatch name' (new_dirent name inum) = false.
Proof.
  intros Hn Hc. unfold dmatch. apply andb_false_intro2, Z.eqb_neq. contradict Hc.
  unfold namecmp in *. rewrite strncmp_agree in * by (unfold DIRSIZ; lia).
  unfold de_name, new_dirent in Hc. rewrite drop_app_length' in Hc by (by rewrite length_le_split).
  assert (E : forall i, 0 <= i < DIRSIZ -> arr (strncpy_name name) i = cut (arr name) (Z.to_nat i)).
  { intros i Hi. unfold arr at 1. destruct (Z.ltb_spec i 0); [lia|]. rewrite nth_lookup.
    by rewrite strncpy_name_byte by (done || unfold DIRSIZ in *; lia). }
  intros i Hi Hnz. rewrite (Hc i Hi Hnz), E by done.
  assert (Ht : no_nul (arr name) i); [|rewrite cut_no_nul; rewrite Z2Nat.id by lia; done].
  intros j Hj. rewrite <- (Z2Nat.id j) by lia. apply cut_nonzero.
  rewrite <- E by lia. rewrite <- (Hc j) by (lia || (intros k ?; apply Hnz; lia)). apply Hnz. lia.
Qed.

(** The entries after a new one was written. *)
Lemma wrote_dirents s v ip d i user um src k L s' v' d' :
  wrote s v ip d i user um src (DIRENT * Z.of_nat k) L DIRENT s' v' d' -> length L = 16%nat ->
  (k <= length (dirents v d))%nat -> d_size d mod DIRENT = 0 -> 0 <= d_size d ->
  DIRENT * Z.of_nat k + DIRENT <= MAXFILE * BSIZE -> d_size d <= MAXFILE * BSIZE ->
  dirents v' d' = put_at k L (dirents v d) /\ d_size d' mod DIRENT = 0.
Proof.
  intros HW HL Hk Hsz H0 Hmax Hmd. pose proof (wt_size _ _ _ _ _ _ _ _ _ _ _ _ _ _ HW) as Es.
  rewrite length_dirents in Hk.
  split; [|unfold DIRENT in *; Z.div_mod_to_equations; lia].
  assert (Hn : Z.to_nat (d_size d' / DIRENT) = Nat.max (S k) (Z.to_nat (d_size d / DIRENT))).
  { unfold DIRENT in *. Z.div_mod_to_equations; lia. }
  apply list_eq. intros j. destruct (decide (j < Z.to_nat (d_size d' / DIRENT))%nat) as [Hj|Hj].
  2: { rewrite !lookup_ge_None_2; [done| |].
       - unfold put_at. rewrite length_app, length_take. cbn [length]. rewrite length_drop, length_dirents. lia.
       - rewrite length_dirents. lia. }
  rewrite lookup_dirents by done. unfold put_at. destruct (decide (j = k)) as [->|Hne].
  - rewrite lookup_app_r; rewrite length_take, length_dirents, Nat.min_l by done; [|done].
    rewrite Nat.sub_diag. simpl. f_equal.
    rewrite (wrote_fbytes _ _ _ _ _ _ _ _ _ _ _ _ _ _ HW) by (rewrite ?HL; unfold DIRENT in *; lia).
    apply take_ge. rewrite HL. done.
  - assert (Hj' : (j < Z.to_nat (d_size d / DIRENT))%nat) by lia.
    transitivity (dirents v d !! j).
    + rewrite lookup_dirents by done. f_equal. apply list_eq. intros x.
      destruct (decide (x < Z.to_nat DIRENT)%nat) as [Hx|Hx];
        [|rewrite !lookup_ge_None_2; [done| |]; rewrite length_fbytes; lia].
      rewrite !lookup_fbytes by done. f_equal.
      rewrite (wt_bytes _ _ _ _ _ _ _ _ _ _ _ _ _ _ HW), decide_False; [done| |];
        unfold DIRENT in *; Z.div_mod_to_equations; lia.
    + destruct (decide (j < k)%nat).
      * by rewrite lookup_app_l, lookup_take_lt by (rewrite ?length_take, ?length_dirents; lia).
      * rewrite lookup_app_r; rewrite length_take, length_dirents, Nat.min_l by lia; [|lia].
        destruct (j - k)%nat as [|m] eqn:Em; [lia|]. simpl. rewrite lookup_drop. f_equal. lia.
Qed.

(** [writei] refuses to write past the largest size of a file. *)
Lemma writei_too_big s ip d user src off n Q :
  inode_at s ip d -> 0 <= off <= d_size d -> 0 <= n -> MAXFILE * BSIZE < off + n < 2 ^ 32 ->
  Q (-1) s -> wp (writei ip user src off n) s Q.
Proof.
  intros [_ Hd] Hoff Hn Hmax HQ. unfold writei, the_inode. apply wp_bind, wp_gets. rewrite Hd, u32_small by (sizes; lia).
  destruct (Z.ltb_spec (d_size d) off); [lia|]. destruct (Z.ltb_spec (off + n) off); [lia|]. cbn [orb].
  destruct (Z.ltb_spec (MAXFILE * BSIZE) (off + n)); [by apply wp_ret|lia].
Qed.

(** What [dirlink] does to the inode table when the name exists: entries in use
    are as they were, and no entry came into use. *)
Definition in_use_kept (s s' : kernel) : Prop :=
  (forall j, 0 < i_ref (k_itable s j) -> k_itable s' j = k_itable s j) /\
  (forall j, i_ref (k_itable s' j) = i_ref (k_itable s j)).

(** A directory that cannot take another entry. *)
Definition dir_full (v : Z -> list Z) (d : dinode) : Prop :=
  dir_free v d = length (dirents v d) /\ d_size d = MAXFILE * BSIZE.

(** [iput] of a reference [iget] has just given only takes it back: the inode
    was in use before, or its entry is not valid yet. *)
Lemma iput_got s dv inum ip s1 Q :
  got s dv inum ip s1 -> (forall s', (exists t, s' = set_k_itable t s) -> in_use_kept s s' -> Q tt s') -> wp (iput ip) s1 Q.
Proof.
  intros [Hi [t ->] Hoth Hent] HQ. unfold iput, the_inode. apply wp_bind, wp_gets.
  assert (E : (i_ref (k_itable (set_k_itable t s) ip) =? 1) && ctrue (i_valid (k_itable (set_k_itable t s) ip)) = false).
  { destruct Hent as [[(Hr & _) ->]|(_ & _ & ->)]; [|apply andb_false_r].
    simpl. by rewrite (proj2 (Z.eqb_neq _ 1)) by lia. }
  rewrite E. cbn [andb when]. apply wp_bind, wp_ret, wp_modify, HQ; [by eexists|]. simpl in *.
  split; intros j; destruct (decide (j = ip)) as [->|Hne]; simpl; rewrite ?upd_eq, ?upd_ne, ?Hoth by done; try done.
  - intros Hr. destruct Hent as [[_ ->]|(Hz & _)]; [|lia]. simpl. rewrite Z.add_simpl_r. by destruct (k_itable s ip).
  - destruct Hent as [[_ ->]|(Hz & _ & ->)]; simpl; lia.
Qed.

(** The outcomes of [dirlink]. *)
Lemma dirlink_ok s v P dp d i name inum Q :
  local_ok -> in_dir s s v P dp d -> dir_ok (k_sb s) v d -> fs_ok s v ->
  i_inum (k_itable s dp) = i -> 0 <= i < sb_ninodes (k_sb s) ->
  (size P + 7 < 28)%nat -> (exists j, (j < NINODE)%nat /\ i_ref (k_itable s j) = 0) ->
  Forall is_byte name ->
  (forall k de s', dir_find v d name = Some (k, de) -> op s' v ∅ P ∅ -> fs_frame s s' -> in_use_kept s s' -> Q (-1) s') ->
  (forall s', dir_find v d name = None -> dir_full v d -> op s' v ∅ P ∅ -> fs_frame s s' -> k_itable s' = k_itable s -> Q (-1) s') ->
  (forall s1 s' v' P' d' r, dir_find v d name = None -> DIRENT * Z.of_nat (dir_free v d) + DIRENT <= MAXFILE * BSIZE -> fs_frame s s1 -> k_itable s1 = k_itable s -> op s' v' ∅ P' ∅ -> (size P' < 28)%nat ->
     wrote s1 v dp d i false (fun _ => None) klocal (DIRENT * Z.of_nat (dir_free v d)) (new_dirent name inum) r s' v' d' ->
     Q (if r =? DIRENT then 0 else -1) s') ->
  wp (dirlink dp name inum) s Q.
Proof.
  intros HL Hs HD HF Hi1 Hi HP Hfree Hname HQe HQf HQ. pose proof (io_size _ _ _ (dk_inode _ _ _ HD)) as Hsz.
  assert (Hk : (dir_free v d <= Z.to_nat (d_size d / DIRENT))%nat) by apply dir_free_le.
  pose proof (dk_size _ _ _ HD) as Hmod.
  unfold dirlink. apply wp_bind.
  apply (dirlookup_ok s v P dp d name); try done; [unfold NBUF; lia| |].
  2: { intros s1 s2 k de ip [Ho1 _ F1 E1 _] Hfind Hg. apply wp_bind. eapply iput_got; [exact Hg|].
       intros s3 (t & ->) HU. apply wp_ret. apply (HQe k de); [done|by apply (op_same s1)|transitivity s1; [done|apply frame_itable]|].
       unfold in_use_kept in *. by rewrite E1 in HU. }
  intros s1 H1 Hno. unfold the_inode. apply wp_bind, wp_gets.
  destruct (id_at _ _ _ _ _ _ H1) as [_ ->]. apply wp_bind.
  apply (dirlink_search_ok s s1 v P dp d); try done; [unfold NBUF; lia|]. intros s2 [Ho2 Hat2 F2 E2 (pt & Hpt & Hb)].
  unfold store_mem. apply wp_bind, wp_vm, wp_modify. set (s3 := set_k_km _ s2).
  assert (F3 : fs_frame s s3) by (transitivity s2; [done|apply frame_km]).
  rewrite u32_small by (unfold DIRENT in *; sizes; Z.div_mod_to_equations; lia). apply wp_bind.
  destruct (decide (DIRENT * Z.of_nat (dir_free v d) + DIRENT <= MAXFILE * BSIZE)) as [Hmax|Hmax].
  2: { apply (writei_too_big s3 dp d); [done|unfold DIRENT in *; sizes; Z.div_mod_to_equations; lia..|].
       apply wp_ret, HQf; [done| |by apply (op_same s2)|done|done].
       unfold dir_full. rewrite length_dirents. unfold DIRENT in *. sizes. Z.div_mod_to_equations; lia. }
  change DIRENT with (Z.of_nat (length (new_dirent name inum))) at 2.
  destruct HL as (L1 & L2 & L3).
  apply (writei_ok s3 v P dp d i false (fun _ => None) klocal); try done;
    rewrite ?(frame_sb _ _ F3), ?length_new_dirent.
  - by apply (op_same s2).
  - eapply (frame_fs_ok s s3 v); [done|done|apply HF].
  - cbn [k_itable set_k_km s3]. by rewrite E2.
  - exact Hi.
  - apply HD.
  - split_and!; [done|rewrite length_new_dirent; unfold DIRENT in *; lia|by apply new_dirent_bytes|].
    exists pt. split; [done|]. cbn [k_km set_k_km s3]. split_and!; [by apply store_bytes_ok|done|].
    apply load_store_bytes; [by rewrite length_new_dirent|by apply new_dirent_bytes].
  - unfold DIRENT in *. Z.div_mod_to_equations; lia.
  - rewrite passes_dirent. lia.
  - intros s' v' P' d' r Ho' HP' HW. specialize (HQ s3 s' v' P' d' r Hno Hmax F3 E2 Ho' HP' HW).
    destruct (r =? DIRENT); by apply wp_ret.
Qed.

(** The directory with the new entry written. *)
Lemma linked_entries s v dp d i name inum s' v' d' :
  wrote s v dp d i false (fun _ => None) klocal (DIRENT * Z.of_nat (dir_free v d)) (new_dirent name inum) DIRENT s' v' d' ->
  dir_ok (k_sb s) v d -> dir_find v d name = None -> Forall is_byte name -> 0 < inum < 2 ^ 16 ->
  DIRENT * Z.of_nat (dir_free v d) + DIRENT <= MAXFILE * BSIZE ->
  dir_ok (k_sb s) v' d' /\
  (exists de, dir_find v' d' name = Some (dir_free v d, de) /\ de_inum de = inum) /\
  forall name', namecmp name' name <> 0 -> dir_find v' d' name' = dir_find v d name'.
Proof.
  intros HW HD Hno Hname Hin Hmax. pose proof (io_size _ _ _ (dk_inode _ _ _ HD)) as Hsz.
  pose proof (wt_ok _ _ _ _ _ _ _ _ _ _ _ _ _ _ HW) as Hok. pose proof (wt_meta _ _ _ _ _ _ _ _ _ _ _ _ _ _ HW) as Hd2.
  pose proof (dir_free_le v d) as Hk. pose proof (dk_size _ _ _ HD) as Hmod.
  destruct (wrote_dirents _ _ _ _ _ _ _ _ _ _ _ _ _ HW) as [Hde Hsz'];
    [apply length_new_dirent|by rewrite length_dirents|done|lia|done|lia|].
  destruct (new_dirent_match name inum Hname Hin) as [Hinum Hmatch]. split_and!.
  - split; [done| |done]. rewrite Hd2. exact (dk_type _ _ _ HD).
  - exists (new_dirent name inum). split; [|done]. unfold dir_find. rewrite Hde.
    apply find_put; [exact Hno|done|by rewrite length_dirents].
  - intros name' Hn'. unfold dir_find. rewrite Hde. apply find_put_other.
    + by rewrite new_dirent_other.
    + intros y Hy%dir_free_unused. unfold dmatch. by rewrite Hy.
Qed.

(** [dirlookup] implements the search of a directory seen as a list of
    entries: it returns the inode number and byte offset of the first entry
    in use under that name, with a reference in the inode table, and 0 (and
    nothing changed but buffers) when there is none. *)
Theorem dirlookup_finds s v P dp d name :
  local_ok -> in_dir s s v P dp d -> dir_ok (k_sb s) v d -> (size P < NBUF)%nat ->
  (exists i, (i < NINODE)%nat /\ i_ref (k_itable s i) = 0) ->
  wp (dirlookup dp name) s (fun r s' => fs_frame s s' /\
    match dir_find v d name, r with
    | Some (k, de), Some (ip, off) => off = DIRENT * Z.of_nat k /\ (ip < NINODE)%nat /\
        entry_for (k_itable s') ROOTDEV (de_inum de) ip
    | None, None => k_itable s' = k_itable s
    | _, _ => False
    end).
Proof.
  intros HL Hs HD HP Hfree. apply (dirlookup_ok s v P dp d name); try done.
  - intros s' Hs' ->. split; apply Hs'.
  - intros s1 s' k de ip H1 -> Hg. split; [transitivity s1; [apply H1|by eapply got_frame]|].
    split; [done|]. by eapply got_entry.
Qed.

End dirs.
