(* ===== verification/FsExample.v ===== *)
(** A small file system on the layout [mkfs] makes, in the middle of an
    operation: the root
    directory and one file of 100 bytes.  The theorems on the file system are
    applied to it. *)

From stdpp Require Import gmap.
From S2P Require Import Prelude CString Layout Kalloc Vm VmTables VmOps VmExample VmCopy Sleeplock Bio Log LogSafe Kernel UserMem Sched Uart KernelExample Printf Fs FsTx FsAlloc FsIo FsInode FsDisk FsFile FsDir.

#[local] Existing Instance kernel_ex.
#[local] Existing Instance platform_ex.
#[local] Existing Instance platform_ex_ready.
#[local] Existing Instance vm_user_mem.

(** * The disk *)

(** 2000 blocks: the log from 2, inodes from 32, the bitmap in 45; the first 56
    blocks are in use. *)
Definition sb_ex : superblock := Superblock FSMAGIC 2000 1954 200 30 2 32 45.
Definition one_block (ty size b : Z) : dinode := Dinode ty 0 0 1 size (b :: replicate 12 0).
Definition file_ex : dinode := one_block T_FILE 100 50.
Definition root_dir : dinode := one_block T_DIR 32 51.
Definition zeros : list Z := replicate (Z.to_nat BSIZE) 0.

(** The entries of the root directory: itself, twice. *)
Definition dot : list Z := [46].
Definition dotdot : list Z := [46; 46].
Definition root_block : list Z := new_dirent dot 1 ++ new_dirent dotdot 1 ++ replicate 992 0.

Definition img_ex (n : Z) : list Z :=
  if n =? 45 then replicate 7 255 ++ replicate 1017 0
  else if n =? 32 then put_dinode zeros (dip 2) file_ex
  else if n =? 50 then replicate (Z.to_nat BSIZE) 7
  else if n =? 51 then root_block
  else zeros.

Lemma file_ex_ok : dinode_ok file_ex.
Proof. split; simpl; try lia; [done|]. repeat constructor; lia. Qed.

Lemma img_ex_ok n : block_ok (img_ex n).
Proof.
  unfold img_ex. destruct (n =? 45).
  { split; [done|]. apply Forall_app. split; by apply Forall_replicate. }
  destruct (n =? 32); [by apply put_dinode_ok; [apply zeros_ok|]|].
  destruct (n =? 50); [split; [apply length_replicate|by apply Forall_replicate]|].
  destruct (n =? 51); [|apply zeros_ok]. split; [done|]. unfold root_block.
  rewrite !Forall_app. split_and!; [| |by apply Forall_replicate]; apply new_dirent_bytes; repeat constructor; done.
Qed.

Lemma BBLOCK_ex b : 0 <= b < 2000 -> BBLOCK b sb_ex = 45.
Proof.
  intros Hb. unfold BBLOCK. replace (b / BPB) with 0; [done|]. unfold BPB, BSIZE. Z.div_mod_to_equations; lia.
Qed.

Lemma IBLOCK_ex i : 0 <= i < 200 -> 32 <= IBLOCK i sb_ex < 45.
Proof.
  intros Hi. unfold IBLOCK. change IPB with 16. cbn [sb_inodestart sb_ex].
  rewrite u32_small; Z.div_mod_to_equations; lia.
Qed.

Lemma sb_ex_ok : sb_ok sb_ex.
Proof.
  split; simpl.
  - unfold BPB, BSIZE. lia.
  - unfold BPB, BSIZE. split; [lia|]. Z.div_mod_to_equations; lia.
  - intros b Hb. rewrite BBLOCK_ex by done. unfold outside_log, LOGSIZE, MAXOPBLOCKS. simpl. lia.
  - intros i Hi. pose proof (IBLOCK_ex i Hi). split; [lia|]. unfold outside_log, LOGSIZE, MAXOPBLOCKS. simpl. lia.
  - intros i b Hi Hb. rewrite BBLOCK_ex by done. pose proof (IBLOCK_ex i Hi). lia.
Qed.

Lemma img_ex_used n : 0 <= n < 56 -> allocated sb_ex img_ex n = true.
Proof.
  intros Hn. assert (H : forallb (allocated sb_ex img_ex) (range 0 56) = true) by (by vm_compute).
  rewrite forallb_forall in H. apply H. apply list_elem_of_In, elem_of_range. lia.
Qed.

Lemma reserved_ex n : reserved sb_ex n -> 0 <= n < 2000 -> 0 <= n < 46.
Proof.
  intros [->|[Hl|[(b & Hb & ->)|(i & Hi & ->)]]] Hn; [lia| | |].
  - unfold outside_log, LOGSIZE, MAXOPBLOCKS in Hl. simpl in Hl. lia.
  - simpl in Hb. rewrite BBLOCK_ex; lia.
  - simpl in Hi. pose proof (IBLOCK_ex i Hi). lia.
Qed.

Lemma bitmap_ex_ok : bitmap_ok sb_ex img_ex.
Proof. intros n Hn Hr. apply img_ex_used. pose proof (reserved_ex n Hr Hn). lia. Qed.

Lemma baddr_one v ty size b k : 0 <= k -> baddr v (one_block ty size b) k = if k =? 0 then b else 0.
Proof.
  intros Hk. unfold baddr. destruct (Z.ltb_spec k NDIRECT).
  - destruct (Z.eqb_spec k 0) as [->|]; [done|]. unfold get_addr. cbn [d_addrs one_block].
    destruct (Z.to_nat k) as [|m] eqn:Em; [lia|].
    change ((b :: replicate 12 0) !! S m) with (replicate 12 0 !! m).
    destruct (replicate 12 0 !! m) as [x|] eqn:E; [|done]. by apply lookup_replicate in E as [-> _].
  - change (get_addr NDIRECT (one_block ty size b)) with 0. simpl. destruct (Z.eqb_spec k 0); [unfold NDIRECT in *; lia|done].
Qed.

Lemma datablk_ex b : 46 <= b < 56 -> datablk sb_ex img_ex b.
Proof.
  intros Hb. split_and!; simpl; try lia; [apply img_ex_used; lia|].
  intros H%reserved_ex; lia.
Qed.

Lemma inode_one_ok ty size b : 0 <= size <= BSIZE -> 46 <= b < 56 -> inode_ok sb_ex img_ex (one_block ty size b).
Proof.
  intros Hs Hb. split; simpl; try done.
  - sizes. lia.
  - intros k Hk. rewrite baddr_one by lia. destruct (k =? 0); [intros _; by apply datablk_ex|done].
  - intros k k' Hk Hk'. rewrite !baddr_one by lia. destruct (Z.eqb_spec k 0), (Z.eqb_spec k' 0); subst; done.
  - intros k Hk Hlt. rewrite baddr_one by done. destruct (Z.eqb_spec k 0); [lia|]. unfold BSIZE in *. lia.
Qed.

Lemma inode_ex_ok : inode_ok sb_ex img_ex file_ex.
Proof. apply inode_one_ok; unfold BSIZE; lia. Qed.

Lemma root_dir_ok : dir_ok sb_ex img_ex root_dir.
Proof. split; [apply inode_one_ok; unfold BSIZE; lia|done|done]. Qed.

(** * The kernel *)

Lemma log_empty_ok : log_ok (log_ex 0 []) [].
Proof. split; try done. by intros x ?%elem_of_nil. Qed.

Lemma boot_op D :
  (forall n, block_ok (D n)) ->
  exists ls, forall s, k_ls s = ls -> sb_logstart (k_sb s) = 2 -> op s D ∅ ∅ ∅.
Proof.
  intros HD.
  assert (W0 : wp binit (bio_zero D 1) (fun _ s => exists order, writes s = [] /\ bio_rep s (ABio D D ∅ ∅) order)).
  { eapply wp_mono; [by apply (binit_ok (bio_zero D 1))|]. intros [] s (order & H & Hw & _). by exists order. }
  destruct (wp_inv _ _ _ W0) as ([] & b & _ & order & Hw & H).
  exists (LState b (log_ex 0 [])). intros s El Es. split; [|done].
  exists (log_ex 0 []), [], D, []. split_and!.
  - rewrite El. split; [done|done|]. by exists order.
  - apply log_empty_ok.
  - constructor.
  - done.
  - done.
  - done.
  - by rewrite Es.
  - done.
Qed.

(** The file is inode 2, open as entry 0; entry 1 is for the same inode, not
    yet read; the root directory is entry 2. *)
Definition fs_state (ls : lstate) : kernel :=
  set_inode 2 (fun _ => Inode ROOTDEV 1 1 (Sleeplock 1 1) 1 root_dir) $
  set_inode 1 (fun _ => Inode ROOTDEV 2 1 initsleeplock 0 zero_dinode)
    (set_inode 0 (fun _ => Inode ROOTDEV 2 1 (Sleeplock 1 1) 1 file_ex) (kernel_of ls sb_ex)).

Definition um_ex : Z -> option Z := ubyte (km_mem mapped_ex) root_ex.

Lemma fs_state_op : exists ls, op (fs_state ls) img_ex ∅ ∅ ∅.
Proof. destruct (boot_op img_ex img_ex_ok) as [ls H]. exists ls. by apply H. Qed.

Lemma fs_state_ok ls : fs_ok (fs_state ls) img_ex.
Proof. split; [apply sb_ex_ok|apply bitmap_ex_ok|by left]. Qed.

Lemma fs_state_at ls : inode_at (fs_state ls) 0 file_ex.
Proof. done. Qed.

Lemma fs_state_mem ls : delivered (fs_state ls) true um_ex 512 [].
Proof.
  exists root_ex. split; [by exists 0%nat|]. rewrite user_write_nil. apply mapped_ex_rep.
Qed.

Lemma room_ex n : (n <= 512)%nat -> room_at true um_ex 512 n.
Proof.
  intros Hn. split_and!; [lia|lia|]. intros i Hi. unfold um_ex. rewrite mapped_ex_byte by lia. done.
Qed.

Lemma reads_ex ls : reads_from (fs_state ls) true um_ex 16 (replicate 200 0).
Proof.
  split_and!; [lia|simpl; lia|by apply Forall_replicate|]. exists root_ex. split; [by exists 0%nat|].
  split; [apply mapped_ex_rep|]. intros i b [-> Hi]%lookup_replicate. apply mapped_ex_byte. lia.
Qed.

(** * The theorems at work *)

Lemma balloc_allocates_witness :
  exists s, wp (balloc ROOTDEV) s (fun r s' => keeps s s' /\
    (r = 0 \/ allocated sb_ex img_ex r = false)).
Proof.
  destruct fs_state_op as [ls H]. exists (fs_state ls).
  eapply wp_mono; [apply (balloc_allocates (fs_state ls) img_ex ∅ H); [apply sb_ex_ok|apply bitmap_ex_ok|by left|rewrite size_empty; lia]|].
  intros r s' [K [[-> _]|(_ & Hf & _)]]; [by split; [|left]|by split; [|right]].
Defined.

Lemma balloc_bfree_witness :
  exists s, wp (r ← balloc ROOTDEV; bfree ROOTDEV r;; mret r) s (fun r s' => keeps s s').
Proof.
  destruct fs_state_op as [ls H]. exists (fs_state ls).
  eapply wp_mono; [apply (balloc_bfree (fs_state ls) img_ex ∅ 60 H);
    [apply sb_ex_ok|apply bitmap_ex_ok|by left|rewrite size_empty; lia|simpl; lia|by vm_compute]|].
  by intros r s' [K _].
Defined.

Lemma bfree_free_panics_witness :
  exists s s', bfree ROOTDEV 60 s = Panic "freeing free block" s'.
Proof.
  destruct fs_state_op as [ls H]. exists (fs_state ls).
  apply (bfree_free_panics (fs_state ls) img_ex ∅ 60 H); [by vm_compute|rewrite size_empty; unfold NBUF; lia].
Defined.

Lemma iupdate_ilock_witness :
  exists s, wp (iupdate 0;; ilock (Some 1%nat)) s (fun _ s' => i_d (k_itable s' 1%nat) = file_ex).
Proof.
  destruct fs_state_op as [ls H]. exists (fs_state ls).
  eapply wp_mono; [apply (iupdate_ilock (fs_state ls) img_ex ∅ 0 1 file_ex 2 H); try done;
    [apply sb_ex_ok|apply file_ex_ok|rewrite size_empty; lia]|].
  by intros [] s' [E _].
Defined.

Lemma readi_reads_witness :
  exists s, wp (readi 0 true 512 90 50) s (fun r s' => r = 10 /\ delivered s' true um_ex 512 (replicate 10 7)).
Proof.
  destruct fs_state_op as [ls H]. exists (fs_state ls).
  eapply wp_mono; [apply (readi_reads (fs_state ls) img_ex ∅ 0 file_ex true um_ex 512 90 50 H); try lia|].
  - done.
  - apply inode_ex_ok.
  - rewrite size_empty. unfold NBUF. lia.
  - apply room_ex. change (readable file_ex 90 50) with 10. lia.
  - apply fs_state_mem.
  - intros r s' (-> & _ & _ & _ & HD). split; [done|exact HD].
Defined.

Lemma writei_writes_witness :
  exists s, wp (writei 0 true 16 50 200) s (fun r s' => exists v' P' d', op s' v' ∅ P' ∅ /\
    wrote s img_ex 0 file_ex 2 true um_ex 16 50 (replicate 200 0) r s' v' d').
Proof.
  destruct fs_state_op as [ls H]. exists (fs_state ls).
  apply (writei_writes (fs_state ls) img_ex ∅ 0 file_ex 2 true um_ex 16 50 (replicate 200 0) H); try done.
  - apply fs_state_ok.
  - apply inode_ex_ok.
  - apply reads_ex.
  - rewrite size_empty. vm_compute. lia.
Defined.

Lemma writei_readi_witness :
  exists s, wp (r ← writei 0 true 16 50 200; r' ← readi 0 true 512 50 r; mret (r, r')) s
    (fun '(r, r') s' => r' = r /\ delivered s' true um_ex 512 (take (Z.to_nat r) (replicate 200 0))).
Proof.
  destruct fs_state_op as [ls H]. exists (fs_state ls).
  eapply wp_mono; [apply (writei_readi (fs_state ls) img_ex ∅ 0 file_ex 2 um_ex 16 512 50 (replicate 200 0) H); try done|].
  - apply fs_state_ok.
  - apply inode_ex_ok.
  - apply reads_ex.
  - rewrite size_empty. vm_compute. lia.
  - apply room_ex. simpl. lia.
  - intros [r r'] s' (-> & _ & HD). by split.
Defined.

Lemma local_ex : local_ok.
Proof.
  unfold local_ok, DIRENT. cbn [klocal platform_ex]. split_and!; [done|done|].
  intros b Hb. left. cbn [bufaddr platform_ex]. lia.
Qed.

Lemma fs_state_dir ls : op (fs_state ls) img_ex ∅ ∅ ∅ -> in_dir (fs_state ls) (fs_state ls) img_ex ∅ 2 root_dir.
Proof.
  intros H. split; [done|done|done|done|]. exists root_ex. split; [by exists 0%nat|].
  destruct mapped_ex_rep as (l & O & HI & _). exact (vi_bytes _ _ _ HI).
Qed.

Lemma fs_state_room ls : exists i, (i < NINODE)%nat /\ i_ref (k_itable (fs_state ls) i) = 0.
Proof. exists 3%nat. split; [unfold NINODE; lia|done]. Qed.

Lemma iget_unique_witness :
  exists s, wp (iget ROOTDEV 2) s (fun i s' => itable_ok (k_itable s')).
Proof.
  exists (kernel_of (LState (bio_zero img_ex 1) (log_ex 0 [])) sb_ex).
  eapply wp_mono; [apply (iget_unique _ ROOTDEV 2)|by intros i s' [H _]].
  - split; [done|]. intros i j dv inum _ _ [H _]. by simpl in H.
  - exists 0%nat. split; [unfold NINODE; lia|by left].
Defined.

(** ".." is the second entry. *)
Lemma dirlookup_finds_witness :
  exists s, wp (dirlookup 2 dotdot) s (fun r s' => exists ip, r = Some (ip, 16) /\ entry_for (k_itable s') ROOTDEV 1 ip).
Proof.
  destruct fs_state_op as [ls H]. exists (fs_state ls).
  eapply wp_mono; [apply (dirlookup_finds (fs_state ls) img_ex ∅ 2 root_dir dotdot local_ex (fs_state_dir ls H)
    root_dir_ok); [rewrite size_empty; unfold NBUF; lia|apply fs_state_room]|].
  intros r s' [_ HR]. change (dir_find img_ex root_dir dotdot) with (Some (1%nat, new_dirent dotdot 1)) in HR.
  destruct r as [[ip off]|]; [|done]. destruct HR as (-> & _ & He). exists ip. split; [done|exact He].
Defined.

