(* ===== verification/Mkfs.v ===== *)
(** Making a file system image, [mkfs/mkfs.c].

    The image is a host file, seen as its sectors: [m_len] of them have been
    written, and a sector that was skipped reads as zeros.  Reading behind the
    end is the failed [read] that makes the program [die]; a failed assertion
    and [die] end the run.  The host is little-endian; writes to the image
    succeed, and what [printf] prints is left out.  The files put into the
    image are given by [Host]: whether [open] works, and the bytes successive
    calls of [read] return until the end of the file. *)

From S2P Require Import Prelude CString Layout Kalloc Vm Sleeplock Bio Log Kernel Fs.

Definition NINODES : Z := 200.
Definition nbitmap : Z := FSSIZE / (BSIZE * 8) + 1.
Definition ninodeblocks : Z := NINODES / IPB + 1.
Definition nlog : Z := LOGSIZE.
Definition nmeta : Z := 2 + nlog + ninodeblocks + nbitmap.
Definition nblocks : Z := FSSIZE - nmeta.

(** The variables of the program. *)
Record mkfs : Type := mk_mkfs {
  m_img : Z -> list Z;
  m_len : Z;
  m_sb : superblock;
  m_freeinode : Z;
  m_freeblock : Z;
}.

Definition set_m_img (f : Z -> list Z) (s : mkfs) : mkfs := mk_mkfs f (m_len s) (m_sb s) (m_freeinode s) (m_freeblock s).
Definition set_m_len (n : Z) (s : mkfs) : mkfs := mk_mkfs (m_img s) n (m_sb s) (m_freeinode s) (m_freeblock s).
Definition set_m_sb (b : superblock) (s : mkfs) : mkfs := mk_mkfs (m_img s) (m_len s) b (m_freeinode s) (m_freeblock s).
Definition set_m_freeinode (n : Z) (s : mkfs) : mkfs := mk_mkfs (m_img s) (m_len s) (m_sb s) n (m_freeblock s).
Definition set_m_freeblock (n : Z) (s : mkfs) : mkfs := mk_mkfs (m_img s) (m_len s) (m_sb s) (m_freeinode s) n.

Class Host : Type := {
  create_image : list Z -> bool;
  file_reads : list Z -> option (list (list Z));
}.

(** The bytes are stored from the lowest, and read back as the host does. *)
Definition xshort (x : Z) : Z := le_combine [u8 x; u8 (Z.shiftr x 8)].
Definition xint (x : Z) : Z := le_combine [u8 x; u8 (Z.shiftr x 8); u8 (Z.shiftr x 16); u8 (Z.shiftr x 24)].

Definition die {A} (s : string) : M mkfs A := panic s.
Definition assert (b : bool) : M mkfs unit := if b then mret tt else die "assert".

(** The sector a [lseek] to [sec * BSIZE] comes to. *)
Definition sector (sec : Z) : Z := u32 (sec * BSIZE) / BSIZE.

Definition wsect (sec : Z) (buf : list Z) : M mkfs unit :=
  modify (fun s => set_m_img (fun n => if n =? sector sec then buf else m_img s n)
    (set_m_len (Z.max (m_len s) (sector sec + 1)) s)).

Definition rsect (sec : Z) : M mkfs (list Z) :=
  len ← gets m_len;
  if sector sec <? len then gets (fun s => m_img s (sector sec)) else die "read".

Definition winode (inum : Z) (ip : dinode) : M mkfs unit :=
  sb ← gets m_sb;
  let bn := IBLOCK inum sb in
  buf ← rsect bn;
  wsect bn (put_dinode buf (dip inum) ip).

Definition rinode (inum : Z) : M mkfs dinode :=
  sb ← gets m_sb;
  let bn := IBLOCK inum sb in
  buf ← rsect bn;
  mret (get_dinode buf (dip inum)).

Definition ialloc (type : Z) : M mkfs Z :=
  inum ← gets m_freeinode;
  modify (set_m_freeinode (u32 (inum + 1)));;
  winode inum (Dinode (s16 (xshort type)) 0 0 (s16 (xshort 1)) (xint 0) (replicate 13 0));;
  mret inum.

(** The loop of [balloc]. *)
Fixpoint mark (n : nat) (i : Z) (buf : list Z) : list Z :=
  match n with
  | O => buf
  | S n' => mark n' (i + 1) (<[Z.to_nat (i / 8) := u8 (Z.lor (byte_at buf (i / 8)) (Z.shiftl 1 (i mod 8)))]> buf)
  end.

Definition balloc (used : Z) : M mkfs unit :=
  assert (used <? BSIZE * 8);;
  sb ← gets m_sb;
  wsect (sb_bmapstart sb) (mark (Z.to_nat used) 0 (replicate (Z.to_nat BSIZE) 0)).

(** [freeblock++] *)
Definition next_block : M mkfs Z :=
  b ← gets m_freeblock;
  modify (set_m_freeblock (u32 (b + 1)));;
  mret b.

(** The block behind block [fbn] of the file, new if there is none. *)
Definition file_block (din : dinode) (fbn : Z) : M mkfs (dinode * Z) :=
  if fbn <? NDIRECT then
    din ← (if xint (get_addr fbn din) =? 0 then
             b ← next_block;
             mret (set_addr fbn (xint b) din)
           else mret din);
    mret (din, xint (get_addr fbn din))
  else
    din ← (if xint (get_addr NDIRECT din) =? 0 then
             b ← next_block;
             mret (set_addr NDIRECT (xint b) din)
           else mret din);
    indirect ← rsect (xint (get_addr NDIRECT din));
    let o := Z.to_nat (4 * (fbn - NDIRECT)) in
    indirect ← (if get32 indirect o =? 0 then
                  b ← next_block;
                  let indirect := put32 indirect o (xint b) in
                  wsect (xint (get_addr NDIRECT din)) indirect;;
                  mret indirect
                else mret indirect);
    mret (din, xint (get32 indirect o)).

(** One pass of the loop of [iappend]: the inode, [off], [n] and how far [p]
    is behind [xp]. *)
Definition iappend_body (xp : list Z) (v : dinode * Z * Z * nat) : M mkfs (dinode * Z * Z * nat + dinode * Z) :=
  let '(din, off, n, p) := v in
  if 0 <? n then
    let fbn := off / BSIZE in
    assert (fbn <? MAXFILE);;
    '(din, x) ← file_block din fbn;
    let n1 := Z.min (u32 n) (u32 ((fbn + 1) * BSIZE - off)) in
    buf ← rsect x;
    wsect x (list_inserts (Z.to_nat (off - fbn * BSIZE)) (take (Z.to_nat n1) (drop p xp)) buf);;
    mret (inl (din, u32 (off + n1), s32 (n - n1), (p + Z.to_nat n1)%nat))
  else mret (inr (din, off)).

Definition iappend (inum : Z) (xp : list Z) (n : Z) : M mkfs unit :=
  din ← rinode inum;
  let off := xint (d_size din) in
  '(din, off) ← loop (Z.to_nat n + 1) (iappend_body xp) (din, off, n, O);
  winode inum (set_d_size (xint off) din).

(** A [struct dirent] that was cleared and got this number and name. *)
Definition dirent (inum : Z) (name : list Z) : list Z := le_split 2 (xshort inum) ++ strncpy_name name.

Section main.
Context `{HO : Host}.

Definition user_slash : list Z := [117; 115; 101; 114; 47].

(** The name of the file without [user/]. *)
Definition shortname (arg : list Z) : list Z :=
  if decide (take 5 arg = user_slash) then drop 5 arg else arg.

(** And without the underscore. *)
Definition skip_underscore (name : list Z) : list Z :=
  match name with c :: l => if c =? 95 then l else name | [] => [] end.

Fixpoint append_all (inum : Z) (reads : list (list Z)) : M mkfs unit :=
  match reads with
  | [] => mret tt
  | buf :: reads' => iappend inum buf (Z.of_nat (length buf));; append_all inum reads'
  end.

(** The body of the loop over the arguments. *)
Definition add_file (rootino : Z) (arg : list Z) : M mkfs unit :=
  assert (negb (bool_decide (ch_slash ∈ shortname arg)));;
  match file_reads arg with
  | None => die "open"
  | Some reads =>
      inum ← ialloc T_FILE;
      iappend rootino (dirent inum (skip_underscore (shortname arg))) DIRENT;;
      append_all inum reads
  end.

Fixpoint add_files (rootino : Z) (args : list (list Z)) : M mkfs unit :=
  match args with
  | [] => mret tt
  | arg :: args' => add_file rootino arg;; add_files rootino args'
  end.

Fixpoint zero_image (n : nat) (i : Z) : M mkfs unit :=
  match n with
  | O => mret tt
  | S n' => wsect i (replicate (Z.to_nat BSIZE) 0);; zero_image n' (i + 1)
  end.

Definition new_sb : superblock :=
  Superblock FSMAGIC (xint FSSIZE) (xint nblocks) (xint NINODES) (xint nlog) (xint 2) (xint (2 + nlog))
    (xint (2 + nlog + ninodeblocks)).

(** The bytes of a [struct superblock]. *)
Definition put_sb (buf : list Z) (sb : superblock) : list Z :=
  put_words buf 0 [sb_magic sb; sb_size sb; sb_nblocks sb; sb_ninodes sb; sb_nlog sb; sb_logstart sb;
    sb_inodestart sb; sb_bmapstart sb].

(** The last steps on the root directory: its size is made a number of whole
    blocks. *)
Definition round_root (rootino : Z) : M mkfs unit :=
  din ← rinode rootino;
  let off := xint (d_size din) in
  let off := u32 ((off / BSIZE + 1) * BSIZE) in
  winode rootino (set_d_size (xint off) din).

(** [main] with the arguments behind the program's name. *)
Definition main (argv : list (list Z)) : M mkfs unit :=
  match argv with
  | [] => die "Usage: mkfs fs.img files..."
  | img :: files =>
      assert (BSIZE mod 64 =? 0);;
      assert (BSIZE mod DIRENT =? 0);;
      (if create_image img then mret tt else die "open");;
      modify (set_m_sb new_sb);;
      modify (set_m_freeblock nmeta);;
      zero_image (Z.to_nat FSSIZE) 0;;
      sb ← gets m_sb;
      wsect 1 (put_sb (replicate (Z.to_nat BSIZE) 0) sb);;
      rootino ← ialloc T_DIR;
      assert (rootino =? ROOTINO);;
      iappend rootino (dirent rootino [46]) DIRENT;;
      iappend rootino (dirent rootino [46; 46]) DIRENT;;
      add_files rootino files;;
      round_root rootino;;
      b ← gets m_freeblock;
      balloc b
  end.
End main.

(** The program starts with its initialised variables; the image is empty. *)
Definition mkfs_start : mkfs :=
  mk_mkfs (fun _ => replicate (Z.to_nat BSIZE) 0) 0 (Superblock 0 0 0 0 0 0 0 0) 1 0.
