(* ===== verification/MkfsSafe.v ===== *)
(** The image [mkfs/mkfs.c] makes is a file system in the sense of the kernel:
    what [FsAlloc], [FsInode] and [FsDir] ask of the superblock, the bitmap,
    the inodes and the root directory holds of it, and every file has its
    bytes and its entry.

    [mkfs] hands out blocks in order and writes the bitmap at the end.  The
    invariant is stated for the blocks as they would be with the bitmap
    already right ([view]), so that adding a block to a file is the step of
    the kernel's [bmap], and the lemmas on it ([grown], [written]) apply. *)

From stdpp Require Import gmap.
From S2P Require Import Prelude CString Layout Kalloc Vm Sleeplock Bio Log LogSafe Kernel UserMem Sched Uart Printf Fs FsTx FsAlloc FsIo FsInode FsDisk FsFile FsDir FsExample Mkfs.

#[local] Abbreviation sb := sb_ex.

Lemma new_sb_eq : new_sb = sb.
Proof. by vm_compute. Qed.

(** * Bytes *)

Lemma xint_small x : 0 <= x < 2 ^ 32 -> xint x = x.
Proof.
  intros Hx. transitivity (le_combine (le_split 4 x)).
  - unfold xint, u8. rewrite !Z.shiftr_div_pow2 by lia. cbn [le_split]. rewrite !Z.div_div by lia. done.
  - rewrite le_combine_split. apply Z.mod_small. lia.
Qed.

Lemma xshort_small x : 0 <= x < 2 ^ 16 -> xshort x = x.
Proof.
  intros Hx. transitivity (le_combine (le_split 2 x)).
  - unfold xshort, u8. rewrite !Z.shiftr_div_pow2 by lia. done.
  - rewrite le_combine_split. apply Z.mod_small. lia.
Qed.

Lemma sector_small n : 0 <= n < 2 ^ 22 -> sector n = n.
Proof.
  intros Hn. unfold sector. rewrite u32_small by (unfold BSIZE; lia). apply Z.div_mul. done.
Qed.

Lemma dirent_eq inum name : 0 <= inum < 2 ^ 16 -> dirent inum name = new_dirent name inum.
Proof. intros. unfold dirent. by rewrite xshort_small. Qed.

(** * The blocks in the making *)

Record view (s : mkfs) (w : Z -> list Z) : Prop := {
  vw_len : m_len s = FSSIZE;
  vw_sb : m_sb s = sb;
  vw_free : nmeta <= m_freeblock s <= FSSIZE;
  vw_same : forall n, n <> sb_bmapstart sb -> w n = m_img s n;
  vw_block : forall n, block_ok (w n);
  vw_map : forall b, 0 <= b < FSSIZE -> allocated sb w b = (b <? m_freeblock s);
  vw_zero : forall n, m_freeblock s <= n -> w n = zeros;
  vw_super : w 1 = put_sb zeros sb;
  vw_log : forall n, 2 <= n < 32 -> w n = zeros;
}.

Lemma nmeta_eq : nmeta = 46.
Proof. by vm_compute. Qed.

Lemma view_bitmap s w : view s w -> bitmap_ok sb w.
Proof.
  intros H n Hn Hr. rewrite (vw_map _ _ H) by done. apply Z.ltb_lt.
  pose proof (reserved_ex n Hr Hn). pose proof (vw_free _ _ H). rewrite nmeta_eq in *. lia.
Qed.

Lemma rsect_ok s w n Q :
  view s w -> 0 <= n < FSSIZE -> n <> sb_bmapstart sb -> Q (w n) s -> wp (rsect n) s Q.
Proof.
  intros H Hn Hne HQ. unfold rsect. apply wp_bind, wp_gets. unfold FSSIZE in *. rewrite sector_small by lia.
  rewrite (vw_len _ _ H). destruct (Z.ltb_spec n FSSIZE); [|unfold FSSIZE in *; lia].
  apply wp_gets. by rewrite <- (vw_same _ _ H).
Qed.

Lemma wsect_ok s w n x Q :
  view s w -> 0 <= n < m_freeblock s -> n <> sb_bmapstart sb -> block_ok x ->
  (forall s', view s' (fset w n x) -> m_freeblock s' = m_freeblock s -> m_freeinode s' = m_freeinode s -> Q tt s') ->
  (32 <= n < sb_bmapstart sb \/ nmeta <= n) -> wp (wsect n x) s Q.
Proof.
  intros [H1 H2 H3 H4 H5 H6 H7 H8 H9] Hn Hne Hx HQ Hr. unfold wsect. apply wp_modify. unfold FSSIZE in *.
  rewrite nmeta_eq in Hr.
  rewrite sector_small by lia.
  apply HQ; [|done|done]. split; cbn [m_len m_sb m_freeblock m_img set_m_img set_m_len]; try done.
  - unfold FSSIZE. lia.
  - intros b Hb. unfold fset. destruct (b =? n); [done|]. by apply H4.
  - intros b. unfold fset. by destruct (b =? n).
  - intros b Hb. rewrite <- H6 by done. apply allocated_same; [done|]. rewrite fset_ne; [done|].
    unfold FSSIZE in Hb. rewrite BBLOCK_ex by lia. simpl in Hne. lia.
  - intros b Hb. rewrite fset_ne by lia. auto.
  - by rewrite fset_ne by lia.
  - intros b Hb. rewrite fset_ne by lia. auto.
Qed.

(** A block is taken. *)
Lemma next_block_ok s w Q :
  view s w -> m_freeblock s < FSSIZE ->
  (forall s', view s' (alloc_view sb w (m_freeblock s)) -> m_freeblock s' = m_freeblock s + 1 ->
     m_freeinode s' = m_freeinode s -> Q (m_freeblock s) s') ->
  wp next_block s Q.
Proof.
  intros H Hlt HQ. pose proof (vw_free _ _ H) as Hf. pose proof (view_bitmap _ _ H) as Hbm.
  rewrite nmeta_eq in Hf. unfold next_block. apply wp_bind, wp_gets, wp_bind, wp_modify, wp_ret.
  unfold FSSIZE in *. rewrite u32_small by lia.
  assert (Hun : allocated sb w (m_freeblock s) = false).
  { rewrite (vw_map _ _ H) by (unfold FSSIZE; lia). apply Z.ltb_irrefl. }
  destruct H as [H1 H2 H3 H4 H5 H6 H7 H8 H9].
  assert (EB : BBLOCK (m_freeblock s) sb = 45) by (apply BBLOCK_ex; lia).
  apply HQ; [|done|done]. split; cbn [m_len m_sb m_freeblock m_img set_m_freeblock]; try done.
  - rewrite nmeta_eq. unfold FSSIZE. lia.
  - intros n Hn. unfold alloc_view. rewrite EB. unfold fset. destruct (Z.eqb_spec n (m_freeblock s)) as [->|].
    + rewrite <- H4 by done. by rewrite H7.
    + destruct (Z.eqb_spec n 45); [done|]. by apply H4.
  - intros n. unfold alloc_view. rewrite EB. unfold fset. destruct (n =? m_freeblock s); [apply zeros_ok|].
    destruct (n =? 45); [by apply set_bit_ok|done].
  - intros b Hb. rewrite alloc_allocated by (done || simpl; unfold FSSIZE in *; lia || apply sb_ex_ok). rewrite H6 by done.
    destruct (Z.eqb_spec b (m_freeblock s)), (Z.ltb_spec b (m_freeblock s)), (Z.ltb_spec b (m_freeblock s + 1)); done || lia.
  - intros n Hn. unfold alloc_view. rewrite EB. rewrite !fset_ne by lia. apply H7. lia.
  - unfold alloc_view. rewrite EB. by rewrite !fset_ne by lia.
  - intros n Hn. unfold alloc_view. rewrite EB. rewrite !fset_ne by lia. by apply H9.
Qed.

(** * Blocks of a file *)

(** The file has its first [n] blocks, and the indirect block if they need
    it. *)
Definition holds (w : Z -> list Z) (d : dinode) (n : Z) : Prop :=
  (forall k, 0 <= k < MAXFILE -> baddr w d k <> 0 <-> k < n) /\ (get_addr NDIRECT d <> 0 <-> NDIRECT < n) /\
  foreign w d 1.

(** The superblock is the only block below [nmeta] that a file could have. *)
Lemma reserved_low n : 0 <= n < nmeta -> n <> 1 -> reserved sb n.
Proof.
  rewrite nmeta_eq. intros Hn Hne. destruct (decide (n = 0)) as [->|]; [by left|]. right.
  destruct (decide (n < 32)); [left|right].
  { unfold outside_log, LOGSIZE, MAXOPBLOCKS. simpl. lia. }
  destruct (decide (n = 45)) as [->|]; [left; exists 0; split; [done|by vm_compute]|right].
  exists ((n - 32) * 16). split; [simpl; lia|]. unfold IBLOCK. change IPB with 16. rewrite Z.div_mul by done.
  rewrite u32_small; simpl; lia.
Qed.

Lemma data_low w n : datablk sb w n -> n <> 1 -> nmeta <= n.
Proof. intros (H1 & _ & H3) Hne. apply Z.nlt_ge. intros Hlt. apply H3, reserved_low; lia. Qed.

Lemma sb_block s w : view s w -> datablk sb w 1.
Proof.
  intros H. pose proof (vw_free _ _ H) as Hf. rewrite nmeta_eq in Hf. split_and!; [done|done| |].
  - rewrite (vw_map _ _ H) by (unfold FSSIZE; lia). apply Z.ltb_lt. lia.
  - intros Hr. destruct Hr as [|[Hl|[(b & Hb & E)|(i & Hi & E)]]]; [lia| | |].
    + unfold outside_log in Hl. simpl in Hl. lia.
    + rewrite BBLOCK_ex in E by done. lia.
    + pose proof (IBLOCK_ex i Hi). lia.
Qed.

(** The blocks it takes on the disk. *)
Definition cost (n : Z) : Z := if NDIRECT <? n then n + 1 else n.

(** What adding block [n] to a file leaves. *)
Record added (s : mkfs) (w : Z -> list Z) (d : dinode) (n : Z) (s' : mkfs) (w' : Z -> list Z) (d' : dinode) : Prop := {
  ad_view : view s' w';
  ad_grown : grown sb w d w' d';
  ad_dok : dinode_ok d';
  ad_holds : holds w' d' n;
  ad_free : m_freeinode s' = m_freeinode s;
}.

Lemma get_addr_range d k : dinode_ok d -> 0 <= get_addr k d < 2 ^ 32.
Proof.
  intros H. unfold get_addr. destruct (d_addrs d !! Z.to_nat k) eqn:E; simpl; [|lia].
  by apply (Forall_lookup_1 _ _ _ _ (do_addrs _ H) E).
Qed.

Lemma set_addr_ok d k a : dinode_ok d -> 0 <= a < 2 ^ 32 -> dinode_ok (set_addr k a d).
Proof.
  intros [H1 H2 H3 H4 H5 H6 H7] Ha. split; cbn [set_addr d_type d_major d_minor d_nlink d_size]; try done.
  - by rewrite length_set_addr.
  - apply Forall_insert; done.
Qed.

Lemma get32_range l off : Forall is_byte l -> 0 <= get32 l off < 2 ^ 32.
Proof.
  intros H. unfold get32. pose proof (le_combine_bound (take 4 (drop off l))) as [H1 H2];
    [by apply Forall_take, Forall_drop|].
  split; [done|]. eapply Z.lt_le_trans; [exact H2|]. change (2 ^ 32) with (256 ^ 4).
  apply Z.pow_le_mono_r; [done|]. rewrite length_take. lia.
Qed.

Lemma grown_sb s w d w' d' : view s w -> grown sb w d w' d' -> foreign w d 1 -> foreign w' d' 1.
Proof. intros H Hg Hf. apply (gr_other _ _ _ _ _ Hg); [by eapply sb_block|done]. Qed.

(** A direct block. *)
Lemma add_direct s w d k Q :
  view s w -> inode_ok sb w d -> dinode_ok d -> 0 <= k < NDIRECT -> holds w d k -> m_freeblock s < FSSIZE ->
  (forall s' w' d', added s w d (k + 1) s' w' d' -> m_freeblock s' = m_freeblock s + 1 ->
     get_addr k d' = baddr w' d' k -> Q d' s') ->
  wp (b ← next_block; mret (set_addr k (xint b) d)) s Q.
Proof.
  intros H HI Hd Hk (Hh & Hi & H1) Hlt HQ. pose proof (view_bitmap _ _ H) as Hbm.
  pose proof (vw_free _ _ H) as Hf. rewrite nmeta_eq in Hf. unfold FSSIZE in *.
  apply wp_bind. eapply next_block_ok; [done|done|]. intros s' Hv Hfb Hfi. apply wp_ret.
  rewrite xint_small by lia. set (r := m_freeblock s) in *.
  assert (Hz : get_addr k d = 0).
  { destruct (Z.eq_dec (get_addr k d) 0) as [|Hne]; [done|]. destruct (Hh k) as [H2 _]; [sizes; lia|].
    exfalso. assert (k < k); [|lia]. apply H2. unfold baddr. by destruct (Z.ltb_spec k NDIRECT); [|lia]. }
  assert (Hun : allocated sb w r = false).
  { rewrite (vw_map _ _ H) by (unfold FSSIZE; lia). apply Z.ltb_irrefl. }
  destruct (bmap_direct_grown sb sb_ex_ok w d r k HI Hbm (vw_block _ _ H) ltac:(simpl; lia) Hun Hk Hz) as [Hg Hb].
  pose proof (io_len _ _ _ HI) as Hlen.
  assert (Hi0 : get_addr NDIRECT d = 0) by (destruct (Z.eq_dec (get_addr NDIRECT d) 0); [done|unfold NDIRECT in *; lia]).
  assert (Hi0' : get_addr NDIRECT (set_addr k r d) = 0).
  { rewrite get_set_addr by (unfold NDIRECT in *; lia). destruct (Z.eqb_spec NDIRECT k); [lia|done]. }
  apply (HQ s' (alloc_view sb w r)); [|done|].
  - split; [done|done|apply set_addr_ok; [done|lia]| |done]. split_and!; [|rewrite Hi0'; unfold NDIRECT in *; lia|by apply (grown_sb s w d)].
    intros k' Hk'. destruct (decide (k' = k)) as [->|Hne]; [rewrite Hb; lia|].
    assert (E : baddr (alloc_view sb w r) (set_addr k r d) k' = baddr w d k').
    { unfold baddr. rewrite Hi0, Hi0', get_set_addr by (unfold NDIRECT in *; lia).
      by destruct (Z.eqb_spec k' k). }
    rewrite E, Hh by done. lia.
  - unfold baddr. by destruct (Z.ltb_spec k NDIRECT); [|lia].
Qed.

(** The indirect block. *)
Lemma add_indirect s w d Q :
  view s w -> inode_ok sb w d -> dinode_ok d -> holds w d NDIRECT -> m_freeblock s < FSSIZE ->
  (forall s' w' d', view s' w' -> grown sb w d w' d' -> dinode_ok d' -> get_addr NDIRECT d' <> 0 ->
     (forall k, 0 <= k < MAXFILE -> baddr w' d' k <> 0 <-> k < NDIRECT) -> foreign w' d' 1 ->
     m_freeblock s' = m_freeblock s + 1 -> m_freeinode s' = m_freeinode s -> Q d' s') ->
  wp (b ← next_block; mret (set_addr NDIRECT (xint b) d)) s Q.
Proof.
  intros H HI Hd (Hh & Hi & H1) Hlt HQ. pose proof (view_bitmap _ _ H) as Hbm.
  pose proof (vw_free _ _ H) as Hf. rewrite nmeta_eq in Hf. unfold FSSIZE in *.
  apply wp_bind. eapply next_block_ok; [done|done|]. intros s' Hv Hfb Hfi. apply wp_ret.
  rewrite xint_small by lia. set (r := m_freeblock s) in *.
  assert (Hi0 : get_addr NDIRECT d = 0) by (destruct (Z.eq_dec (get_addr NDIRECT d) 0); [done|unfold NDIRECT in *; lia]).
  assert (Hun : allocated sb w r = false).
  { rewrite (vw_map _ _ H) by (unfold FSSIZE; lia). apply Z.ltb_irrefl. }
  destruct (bmap_ind_grown sb sb_ex_ok w d r HI Hbm (vw_block _ _ H) ltac:(simpl; lia) Hun Hi0) as [Hg Hb].
  pose proof (io_len _ _ _ HI) as Hlen.
  apply (HQ s' (alloc_view sb w r)); [done|done|apply set_addr_ok; [done|lia]| | |by apply (grown_sb s w d)|done|done].
  - rewrite get_set_addr by (unfold NDIRECT in *; lia). rewrite Z.eqb_refl. lia.
  - intros k Hk. destruct (decide (NDIRECT <= k)); [rewrite Hb by done; lia|].
    rewrite <- Hh by done. unfold baddr. destruct (Z.ltb_spec k NDIRECT); [|lia].
    rewrite get_set_addr by (unfold NDIRECT in *; lia). by destruct (Z.eqb_spec k NDIRECT); [lia|].
Qed.

(** A block behind it. *)
Lemma add_slot s w d n Q :
  let a := get_addr NDIRECT d in
  let o := Z.to_nat (4 * (n - NDIRECT)) in
  view s w -> inode_ok sb w d -> dinode_ok d -> NDIRECT <= n < MAXFILE -> a <> 0 ->
  (forall k, 0 <= k < MAXFILE -> baddr w d k <> 0 <-> k < n) -> foreign w d 1 -> m_freeblock s < FSSIZE ->
  (forall s' w' x, added s w d (n + 1) s' w' d -> m_freeblock s' = m_freeblock s + 1 ->
     get32 x o = baddr w' d n -> Q x s') ->
  wp (b ← next_block; let x := put32 (w a) o (xint b) in wsect (xint a) x;; mret x) s Q.
Proof.
  intros a o H HI Hd Hn Ha Hh H1 Hlt HQ. pose proof (view_bitmap _ _ H) as Hbm.
  pose proof (vw_free _ _ H) as Hf. rewrite nmeta_eq in Hf. unfold FSSIZE in *.
  pose proof (io_ind _ _ _ HI Ha) as Hda. fold a in Hda.
  assert (Hra : nmeta <= a < m_freeblock s).
  { split; [apply (data_low w); [done|]; by apply not_eq_sym, H1|].
    destruct Hda as (Ha1 & Ha2 & _). simpl in Ha1. rewrite (vw_map _ _ H) in Ha2 by (unfold FSSIZE; lia).
    by apply Z.ltb_lt in Ha2. }
  apply wp_bind. eapply next_block_ok; [done|done|]. intros s' Hv Hfb Hfi. cbv zeta.
  rewrite !xint_small by (rewrite nmeta_eq in *; lia). set (r := m_freeblock s) in *.
  assert (Hun : allocated sb w r = false).
  { rewrite (vw_map _ _ H) by (unfold FSSIZE; lia). apply Z.ltb_irrefl. }
  assert (Hz : baddr w d n = 0).
  { destruct (Z.eq_dec (baddr w d n) 0) as [|Hne]; [done|]. apply Hh in Hne; unfold NDIRECT in *; lia. }
  destruct (bmap_slot_grown sb sb_ex_ok w d r n HI Hbm (vw_block _ _ H) ltac:(simpl; lia) Hun Hn Ha Hz) as [Hg Hb].
  fold a o in Hg, Hb. rewrite alloc_view_same in Hg, Hb by (done || simpl; lia).
  pose proof (vw_block _ _ H a) as [Hbl Hbb].
  pose proof nmeta_eq. apply wp_bind. eapply (wsect_ok s' _ a); [done|lia|simpl; lia| | |right; lia].
  { split; [|by apply put32_bytes]. rewrite length_put32; [done|]. unfold o. rewrite Hbl. sizes. lia. }
  intros s2 Hv2 Hfb2 Hfi2. apply wp_ret.
  assert (Hb' : forall k, 0 <= k < MAXFILE -> k <> n ->
    baddr (fset (alloc_view sb w r) a (put32 (w a) o r)) d k = baddr w d k).
  { intros k Hk Hne. unfold baddr. fold a. destruct (Z.ltb_spec k NDIRECT); [done|].
    destruct (Z.eqb_spec a 0); [done|]. rewrite fset_eq. unfold o. sizes. rewrite get32_put32_ne by lia. done. }
  eapply HQ; [|lia|].
  - split; [done|exact Hg|done| |lia]. split_and!; [|split; [unfold NDIRECT in *; lia|done]|by apply (grown_sb s w d)].
    intros k Hk. destruct (decide (k = n)) as [->|Hne]; [rewrite Hb; lia|]. rewrite Hb', Hh by done. lia.
  - rewrite Hb. unfold o. sizes. rewrite get32_put32_eq by lia. apply u32_small. lia.
Qed.

Lemma added_none s w d n : view s w -> inode_ok sb w d -> dinode_ok d -> holds w d n -> added s w d n s w d.
Proof. intros H HI Hd Hh. split; try done. apply file_grown_refl; [done|by eapply view_bitmap]. Qed.

Lemma added_trans s w d m s1 w1 d1 n s2 w2 d2 :
  added s w d m s1 w1 d1 -> added s1 w1 d1 n s2 w2 d2 -> added s w d n s2 w2 d2.
Proof.
  intros [A1 A2 A3 A4 A5] [B1 B2 B3 B4 B5]. split; [done|by eapply file_grown_trans|done|done|congruence].
Qed.

Lemma baddr_small w d k :
  inode_ok sb w d -> 0 <= k < MAXFILE -> 0 <= baddr w d k < FSSIZE.
Proof.
  intros H Hk. unfold FSSIZE. destruct (Z.eq_dec (baddr w d k) 0) as [->|Hne]; [done|].
  destruct (io_data _ _ _ H k Hk Hne) as (? & _). simpl in *. lia.
Qed.

Lemma ind_small w d : inode_ok sb w d -> 0 <= get_addr NDIRECT d < FSSIZE.
Proof.
  intros H. unfold FSSIZE. destruct (Z.eq_dec (get_addr NDIRECT d) 0) as [->|Hne]; [done|].
  destruct (io_ind _ _ _ H Hne) as (? & _). simpl in *. lia.
Qed.

(** The blocks of files are not the bitmap. *)
Lemma data_not_map w n : datablk sb w n -> n <> sb_bmapstart sb.
Proof. intros (_ & _ & H) ->. apply H. apply reserved_low; [by rewrite nmeta_eq|done]. Qed.

(** The second half of the branch for blocks behind the indirect one. *)
Lemma slot_ok s w d n k Q :
  let a := get_addr NDIRECT d in
  let o := Z.to_nat (4 * (k - NDIRECT)) in
  view s w -> inode_ok sb w d -> dinode_ok d -> NDIRECT <= k < MAXFILE -> k = n \/ k + 1 = n -> a <> 0 ->
  (forall j, 0 <= j < MAXFILE -> baddr w d j <> 0 <-> j < n) -> foreign w d 1 -> m_freeblock s + (k + 1 - n) <= FSSIZE ->
  (forall s' w', added s w d (k + 1) s' w' d -> m_freeblock s' = m_freeblock s + (k + 1 - n) -> Q (d, baddr w' d k) s') ->
  wp (indirect ← rsect (xint a);
      indirect ← (if get32 indirect o =? 0 then
                    b ← next_block;
                    let indirect := put32 indirect o (xint b) in
                    wsect (xint a) indirect;;
                    mret indirect
                  else mret indirect);
      mret (d, xint (get32 indirect o))) s Q.
Proof.
  intros a o H HI Hd Hk Hn Ha Hh H1 Hroom HQ. pose proof (ind_small _ _ HI) as Hra. fold a in Hra.
  assert (Hxa : xint a = a) by (apply xint_small; unfold FSSIZE in *; lia). rewrite Hxa at 1.
  apply wp_bind. apply (rsect_ok s w); [done|done|by eapply data_not_map, HI|].
  assert (Hb : get32 (w a) o = baddr w d k).
  { unfold baddr. fold a. destruct (Z.ltb_spec k NDIRECT); [lia|]. by destruct (Z.eqb_spec a 0). }
  rewrite Hb. apply wp_bind. destruct (Z.eqb_spec (baddr w d k) 0) as [Hz|Hnz].
  - assert (k = n) as <-. { destruct Hn; [done|]. exfalso. apply (Hh k); unfold NDIRECT in *; lia. }
    apply (add_slot s w d k); try done; [unfold FSSIZE in *; lia|].
    intros s' w' x Had Hf Hx. apply wp_ret. fold o in Hx. rewrite Hx.
    destruct Had as [A1 A2 A3 A4 A5]. pose proof (baddr_small w' d k (gr_ok _ _ _ _ _ A2) ltac:(unfold NDIRECT in *; lia)) as Hr.
    rewrite xint_small by (unfold FSSIZE in *; lia). apply HQ; [done|lia].
  - assert (k + 1 = n) as <-. { destruct Hn as [->|]; [|done]. apply Hh in Hnz; unfold NDIRECT in *; lia. }
    apply wp_ret, wp_ret. rewrite Hb. pose proof (baddr_small w d k HI ltac:(unfold NDIRECT in *; lia)) as Hr.
    rewrite xint_small by (unfold FSSIZE in *; lia). apply HQ; [|lia]. apply added_none; try done.
    split_and!; [done|split; [unfold NDIRECT in *; lia|done]|done].
Qed.

Lemma file_block_ok s w d n k Q :
  view s w -> inode_ok sb w d -> dinode_ok d -> holds w d n -> 0 <= k < MAXFILE -> k = n \/ k + 1 = n ->
  m_freeblock s + cost (k + 1) - cost n <= FSSIZE ->
  (forall s' w' d', added s w d (k + 1) s' w' d' -> m_freeblock s' = m_freeblock s + cost (k + 1) - cost n ->
     Q (d', baddr w' d' k) s') ->
  wp (file_block d k) s Q.
Proof.
  intros H HI Hd Hh Hk Hn Hroom HQ. unfold file_block. destruct (Z.ltb_spec k NDIRECT) as [Hlo|Hhi].
  - assert (Hb : get_addr k d = baddr w d k) by (unfold baddr; by destruct (Z.ltb_spec k NDIRECT); [|lia]).
    pose proof (baddr_small w d k HI Hk) as Hr. rewrite xint_small by (unfold FSSIZE in *; lia). rewrite Hb.
    assert (Ec : cost (k + 1) - cost n = k + 1 - n).
    { unfold cost, NDIRECT in *. destruct (Z.ltb_spec 12 (k + 1)), (Z.ltb_spec 12 n); lia. }
    apply wp_bind. destruct (Z.eqb_spec (baddr w d k) 0) as [Hz|Hnz].
    + assert (k = n) as <-. { destruct Hn; [done|]. exfalso. apply (proj1 Hh k); lia. }
      apply (add_direct s w d k); try done; [lia|unfold FSSIZE in *; lia|]. intros s' w' d' Had Hf Hx. apply wp_ret.
      pose proof (baddr_small w' d' k (gr_ok _ _ _ _ _ (ad_grown _ _ _ _ _ _ _ Had)) Hk) as Hr'.
      rewrite Hx, xint_small by (unfold FSSIZE in *; lia). apply HQ; [done|lia].
    + assert (k + 1 = n) as <-. { destruct Hn as [->|]; [|done]. apply (proj1 Hh) in Hnz; lia. }
      apply wp_ret, wp_ret. rewrite Hb, xint_small by (unfold FSSIZE in *; lia). apply HQ; [by apply added_none|lia].
  - pose proof (ind_small _ _ HI) as Hra. rewrite xint_small by (unfold FSSIZE in *; lia).
    apply wp_bind. destruct (Z.eqb_spec (get_addr NDIRECT d) 0) as [Hz|Hnz].
    + assert (n = NDIRECT /\ k = NDIRECT) as [-> ->].
      { destruct Hh as (_ & Hi & _). destruct (decide (NDIRECT < n)) as [Hlt|]; [|unfold NDIRECT in *; lia].
        by apply Hi in Hlt. }
      change (cost (NDIRECT + 1) - cost NDIRECT) with 2 in *. change (cost (NDIRECT + 1)) with 14 in *. change (cost NDIRECT) with 12 in *.
      apply (add_indirect s w d); try done; [lia|]. intros s1 w1 d1 V1 G1 D1 N1 B1 F1 E1 I1.
      apply (slot_ok s1 w1 d1 NDIRECT NDIRECT); try done; [by apply G1|lia|].
      intros s' w' [A1 A2 A3 A4 A5] Hf. apply HQ; [|lia].
      split; [done|by eapply file_grown_trans|done|done|congruence].
    + apply wp_ret. destruct Hh as (Hh & Hi & H1).
      assert (NDIRECT < n) by (by apply Hi).
      assert (Ec : cost (k + 1) - cost n = k + 1 - n).
      { unfold cost, NDIRECT in *. destruct (Z.ltb_spec 12 (k + 1)), (Z.ltb_spec 12 n); lia. }
      apply (slot_ok s w d n k); try done; [lia|lia|]. intros s' w' Had Hf. apply HQ; [done|lia].
Qed.

(** * Appending *)

(** The blocks of [n] bytes. *)
Definition blocks_for (n : Z) : Z := (n + BSIZE - 1) / BSIZE.

Lemma data_range s w d k :
  view s w -> inode_ok sb w d -> foreign w d 1 -> 0 <= k < MAXFILE -> baddr w d k <> 0 ->
  nmeta <= baddr w d k < m_freeblock s /\ baddr w d k <> sb_bmapstart sb.
Proof.
  intros H HI Hf Hk Hne. pose proof (io_data _ _ _ HI k Hk Hne) as Hd. split_and!.
  - apply (data_low w); [done|]. by apply Hf.
  - destruct Hd as (H1 & H2 & _). simpl in H1. rewrite (vw_map _ _ H) in H2 by (unfold FSSIZE; lia). by apply Z.ltb_lt.
  - by eapply data_not_map.
Qed.

(** Storing into a block of the file keeps its blocks. *)
Lemma holds_store w d n k x :
  inode_ok sb w d -> bitmap_ok sb w -> 0 <= k < MAXFILE -> baddr w d k <> 0 -> holds w d n ->
  holds (fset w (baddr w d k) x) d n.
Proof.
  intros HI Hbm Hk Hne (H1 & H2 & H3 & H4 & H5).
  destruct (store_block_file sb w d k x HI Hbm Hk Hne) as (_ & _ & B & _).
  split; [|split; [done|split; [done|split; [done|]]]].
  - intros j Hj. by rewrite B, H1.
  - intros j Hj. rewrite B. auto.
Qed.

Record appended (s : mkfs) (w : Z -> list Z) (d : dinode) (l : list Z) (tot : nat) (s' : mkfs) (w' : Z -> list Z)
    (d' : dinode) : Prop := {
  ap_view : view s' w';
  ap_written : written sb w d (d_size d) (take tot l) w' d';
  ap_dok : dinode_ok d';
  ap_holds : holds w' d' (blocks_for (d_size d + Z.of_nat tot));
  ap_free : m_freeinode s' = m_freeinode s;
  ap_blocks : m_freeblock s' = m_freeblock s + cost (blocks_for (d_size d + Z.of_nat tot)) - cost (blocks_for (d_size d));
}.

Lemma cost_mono m n : m <= n -> cost m <= cost n.
Proof. unfold cost, NDIRECT. intros. destruct (Z.ltb_spec 12 m), (Z.ltb_spec 12 n); lia. Qed.

Lemma iappend_body_ok s w d l tot s1 w1 d1 Q :
  let off := d_size d in
  let len := Z.of_nat (length l) in
  Forall is_byte l -> 0 <= off -> off + len <= MAXFILE * BSIZE -> (tot < length l)%nat ->
  m_freeblock s + cost (blocks_for (off + len)) - cost (blocks_for off) <= FSSIZE ->
  appended s w d l tot s1 w1 d1 ->
  (forall s2 w2 d2 m, (0 < m)%nat -> (tot + m <= length l)%nat -> appended s w d l (tot + m) s2 w2 d2 ->
     Q (inl (d2, off + Z.of_nat (tot + m), len - Z.of_nat (tot + m), (tot + m)%nat)) s2) ->
  wp (iappend_body l (d1, off + Z.of_nat tot, len - Z.of_nat tot, tot)) s1 Q.
Proof.
  intros off len Hl Hoff Hmax Htot Hroom [V1 W1 D1 H1 I1 F1] HQ. fold off in W1, H1, F1.
  set (cur := off + Z.of_nat tot) in *. unfold iappend_body.
  destruct (Z.ltb_spec 0 (len - Z.of_nat tot)); [|lia].
  set (k := cur / BSIZE). assert (Hk : 0 <= k < MAXFILE) by (unfold k, cur; sizes; Z.div_mod_to_equations; lia).
  unfold assert. destruct (Z.ltb_spec k MAXFILE); [|lia]. apply wp_bind, wp_ret.
  destruct (chunk_bounds cur (len - Z.of_nat tot)) as (C1 & C2 & C3); [lia|lia|].
  set (c := chunk cur (len - Z.of_nat tot)) in *. set (m := Z.to_nat c).
  assert (Eb : blocks_for (cur + c) = k + 1).
  { unfold blocks_for, k, BSIZE in *. clearbody cur c. Z.div_mod_to_equations; lia. }
  assert (Hn : k = blocks_for cur \/ k + 1 = blocks_for cur).
  { unfold blocks_for, k, BSIZE in *. clearbody cur c. Z.div_mod_to_equations; lia. }
  assert (Hc : cost (k + 1) <= cost (blocks_for (off + len))).
  { rewrite <- Eb. apply cost_mono. unfold blocks_for. apply Z.div_le_mono; [done|]. unfold cur. lia. }
  apply wp_bind. apply (file_block_ok s1 w1 d1 (blocks_for cur) k); [done|apply W1|done|done|done|done|lia|].
  intros s2 w2 d2 [A1 A2 A3 A4 A5] F2. pose proof (view_bitmap _ _ A1) as Hbm.
  assert (Hne : baddr w2 d2 k <> 0) by (apply A4; [done|lia]).
  pose proof (gr_ok _ _ _ _ _ A2) as HI2.
  destruct (data_range s2 w2 d2 k A1 HI2) as [R1 R2]; [apply A4|done|done|].
  assert (En : Z.min (u32 (len - Z.of_nat tot)) (u32 ((k + 1) * BSIZE - cur)) = c).
  { unfold c, chunk. assert (cur = k * BSIZE + cur mod BSIZE) by (unfold k, BSIZE; Z.div_mod_to_equations; lia).
    rewrite !u32_small by (sizes; lia). sizes. lia. }
  rewrite En. pose proof nmeta_eq. pose proof (vw_free _ _ A1).
  apply wp_bind. apply (rsect_ok s2 w2); [done|lia|done|].
  apply wp_bind. apply (wsect_ok s2 w2); [done|lia|done| | |right; lia].
  { apply inserts_block_ok; [apply A1|]. by apply Forall_take, Forall_drop. }
  intros s3 V3 F3 I3. apply wp_ret.
  assert (Eo : cur - k * BSIZE = cur mod BSIZE) by (unfold k, BSIZE; Z.div_mod_to_equations; lia). rewrite Eo in *.
  rewrite u32_small, s32_small by (sizes; lia). fold m.
  replace (cur + c) with (off + Z.of_nat (tot + m)) by lia.
  replace (len - Z.of_nat tot - c) with (len - Z.of_nat (tot + m)) by lia.
  eapply HQ; [lia|lia|]. split.
  - exact V3.
  - apply written_chunk; try (done || lia); [fold off cur; lia|apply A1|].
    eapply written_grown; [done| |exact W1|exact A2]. rewrite length_take. lia.
  - done.
  - apply holds_store; try done. fold off. replace (off + Z.of_nat (tot + m)) with (cur + c) by lia. by rewrite Eb.
  - congruence.
  - fold off. replace (off + Z.of_nat (tot + m)) with (cur + c) by lia. rewrite Eb. lia.
Qed.

(** * The files *)

(** Block [b] belongs to the file. *)
Definition uses (w : Z -> list Z) (d : dinode) (b : Z) : Prop :=
  b <> 0 /\ (b = get_addr NDIRECT d \/ exists k, 0 <= k < MAXFILE /\ baddr w d k = b).

Definition apart (w : Z -> list Z) (d d' : dinode) : Prop := forall b, uses w d b -> ~ uses w d' b.

Lemma foreign_uses w d b : b <> 0 -> foreign w d b <-> ~ uses w d b.
Proof.
  intros Hb. unfold foreign, uses. split.
  - intros (_ & H1 & H2) [_ [->|(k & Hk & <-)]]; [done|by apply (H2 k)].
  - intros H. split_and!; [done| |].
    + intros ->. apply H. split; [done|by left].
    + intros k Hk <-. apply H. split; [done|right; eauto].
Qed.

(** A disk inode [d] with the contents [c]. *)
Record file_ok (w : Z -> list Z) (d : dinode) (c : list Z) : Prop := {
  fk_dok : dinode_ok d;
  fk_inode : inode_ok sb w d;
  fk_holds : holds w d (blocks_for (d_size d));
  fk_size : d_size d = Z.of_nat (length c);
  fk_bytes : forall i, 0 <= i < MAXFILE * BSIZE -> fbyte w d i = byte_at c i;
}.

Lemma uses_data w d c b : file_ok w d c -> uses w d b -> datablk sb w b.
Proof.
  intros H [Hb [->|(k & Hk & <-)]].
  - by apply (io_ind _ _ _ (fk_inode _ _ _ H)).
  - by apply (io_data _ _ _ (fk_inode _ _ _ H)).
Qed.

(** A file depends on its own blocks only. *)
Lemma file_ext w w' d c :
  file_ok w d c -> (forall b, uses w d b -> w' b = w b) ->
  (forall b, 0 <= b < FSSIZE -> allocated sb w b = true -> allocated sb w' b = true) ->
  file_ok w' d c /\ forall b, uses w' d b <-> uses w d b.
Proof.
  intros H Hw Ha.
  assert (Hb : forall k, baddr w' d k = baddr w d k).
  { intros k. apply baddr_ext. intros Hne. apply Hw. split; [done|by left]. }
  assert (Hu : forall b, uses w' d b <-> uses w d b) by (intros b; unfold uses; by setoid_rewrite Hb).
  split; [|done].
  assert (Hd : forall b, uses w d b -> datablk sb w' b).
  { intros b Hub. eapply datablk_ext; [by eapply uses_data|]. intros Hab. apply Ha; [|done].
    destruct (uses_data _ _ _ _ H Hub) as (? & _). simpl in *. unfold FSSIZE. lia. }
  destruct H as [H1 [A1 A2 A3 A4 A5 A6 A7] (B1 & B2 & B3) H4 H5]. split; try done.
  - split; try done.
    + intros k Hk. rewrite Hb. intros Hne. apply Hd. split; [done|right; eauto].
    + intros Hne. apply Hd. split; [done|by left].
    + intros k k' ??. rewrite !Hb. by apply A5.
    + intros k ?. rewrite Hb. by apply A6.
    + intros k ??. rewrite Hb. by apply A7.
  - split; [|split; [done|]]; [intros k Hk; by rewrite Hb, B1|].
    apply foreign_uses; [done|]. rewrite Hu. by apply foreign_uses.
  - intros i Hi. rewrite <- H5, !fbyte_block, Hb by done.
    destruct (Z.eqb_spec (baddr w d (i / BSIZE)) 0) as [|Hne]; [done|]. rewrite Hw; [done|].
    split; [done|right]. exists (i / BSIZE). split; [by apply block_in_file|done].
Qed.

(** The file that was appended to. *)
Lemma file_append w d c l w' d' :
  file_ok w d c -> written sb w d (d_size d) l w' d' -> dinode_ok d' ->
  d_size d + Z.of_nat (length l) <= MAXFILE * BSIZE ->
  holds w' d' (blocks_for (d_size d + Z.of_nat (length l))) ->
  file_ok w' (set_d_size (d_size d + Z.of_nat (length l)) d') (c ++ l).
Proof.
  intros [H1 H2 H3 H4 H5] W [D1 D2 D3 D4 D5 D6 D7] Hmax Hh. pose proof W as [W1 W2 W3 W4 _ _ _ _].
  destruct W1 as [A1 A2 A3 A4 A5 A6 A7].
  split; cbn [d_size set_d_size].
  - split; cbn [d_type d_major d_minor d_nlink d_size d_addrs set_d_size]; try done. sizes. lia.
  - split; cbn [d_size d_addrs set_d_size]; try done. lia.
  - done.
  - rewrite length_app. lia.
  - intros i Hi. change (fbyte w' (set_d_size _ d') i) with (fbyte w' d' i). rewrite W3, H5 by done.
    unfold byte_at. case_decide as Hd.
    + rewrite lookup_app_r by lia. do 2 f_equal. lia.
    + destruct (decide (i < d_size d)).
      * by rewrite lookup_app_l by lia.
      * rewrite !lookup_ge_None_2; [done| |]; rewrite ?length_app; lia.
Qed.

(** The inodes written so far, from number 1 on, with their contents. *)
Fixpoint usage (E : list (dinode * list Z)) : Z :=
  match E with
  | [] => 0
  | (_, c) :: E' => cost (blocks_for (Z.of_nat (length c))) + usage E'
  end.

Record files (s : mkfs) (w : Z -> list Z) (E : list (dinode * list Z)) : Prop := {
  fl_view : view s w;
  fl_free : m_freeinode s = 1 + Z.of_nat (length E) /\ 1 + Z.of_nat (length E) <= NINODES;
  fl_inode : forall k d c, E !! k = Some (d, c) -> disk_inode sb w (1 + Z.of_nat k) = d /\ file_ok w d c;
  fl_unused : forall i, m_freeinode s <= i < NINODES -> disk_inode sb w i = zero_dinode;
  fl_apart : forall j k d d' c c', E !! j = Some (d, c) -> E !! k = Some (d', c') -> j <> k -> apart w d d';
  fl_usage : m_freeblock s = nmeta + usage E;
}.

Lemma usage_app E E' : usage (E ++ E') = usage E + usage E'.
Proof. induction E as [|[d c] E IH]; simpl; lia. Qed.

Lemma usage_insert E k d c d' c' :
  E !! k = Some (d, c) ->
  usage (<[k := (d', c')]> E) =
  usage E + cost (blocks_for (Z.of_nat (length c'))) - cost (blocks_for (Z.of_nat (length c))).
Proof.
  revert k. induction E as [|[d0 c0] E IH]; intros [|k] Hk; simplify_eq/=; [lia|]. rewrite (IH k) by done. lia.
Qed.

Lemma inode_block_range i : 0 <= i < NINODES -> 32 <= IBLOCK i sb < 45.
Proof. apply IBLOCK_ex. Qed.

Lemma rinode_ok s w i Q : view s w -> 0 <= i < NINODES -> Q (disk_inode sb w i) s -> wp (rinode i) s Q.
Proof.
  intros H Hi HQ. unfold rinode. apply wp_bind, wp_gets. rewrite (vw_sb _ _ H). pose proof (inode_block_range i Hi).
  apply wp_bind, (rsect_ok s w); [done|unfold FSSIZE; lia|simpl; lia|]. by apply wp_ret.
Qed.

Lemma winode_ok s w i d Q :
  view s w -> 0 <= i < NINODES -> length (d_addrs d) = 13%nat ->
  (forall s', view s' (inode_view sb w i d) -> m_freeblock s' = m_freeblock s -> m_freeinode s' = m_freeinode s -> Q tt s') ->
  wp (winode i d) s Q.
Proof.
  intros H Hi Hd HQ. unfold winode. apply wp_bind, wp_gets. rewrite (vw_sb _ _ H). pose proof (inode_block_range i Hi).
  pose proof (vw_free _ _ H) as Hf. rewrite nmeta_eq in Hf.
  apply wp_bind, (rsect_ok s w); [done|unfold FSSIZE; lia|simpl; lia|].
  apply (wsect_ok s w); [done|lia|simpl; lia| |done|simpl; lia].
  apply put_dinode_ok; [apply H|done].
Qed.

(** Storing a disk inode touches no file. *)
Lemma inode_view_data w i d b : 0 <= i < NINODES -> datablk sb w b -> inode_view sb w i d b = w b.
Proof.
  intros Hi (_ & _ & Hr). unfold inode_view. rewrite fset_ne; [done|]. intros ->. apply Hr.
  right. right. right. exists i. done.
Qed.

Lemma inode_view_allocated w i d b : 0 <= i < NINODES -> 0 <= b < FSSIZE ->
  allocated sb (inode_view sb w i d) b = allocated sb w b.
Proof.
  intros Hi Hb. apply allocated_same; [done|]. unfold inode_view. rewrite fset_ne; [done|].
  apply not_eq_sym. by apply (so_disjoint _ sb_ex_ok).
Qed.

Lemma inode_view_file w i x d c :
  0 <= i < NINODES -> file_ok w d c ->
  file_ok (inode_view sb w i x) d c /\ forall b, uses (inode_view sb w i x) d b <-> uses w d b.
Proof.
  intros Hi H. apply file_ext; [done| |].
  - intros b Hb. apply inode_view_data; [done|by eapply uses_data].
  - intros b Hb Ha. by rewrite inode_view_allocated.
Qed.

Lemma iappend_loop_ok s w d l Q :
  let off := d_size d in
  let len := Z.of_nat (length l) in
  view s w -> inode_ok sb w d -> dinode_ok d -> holds w d (blocks_for off) -> Forall is_byte l ->
  off + len <= MAXFILE * BSIZE -> m_freeblock s + cost (blocks_for (off + len)) - cost (blocks_for off) <= FSSIZE ->
  (forall s' w' d', appended s w d l (length l) s' w' d' -> Q (d', off + len) s') ->
  wp (loop (Z.to_nat len + 1) (iappend_body l) (d, off, len, O)) s Q.
Proof.
  intros off len H HI Hd Hh Hl Hmax Hroom HQ. pose proof (io_size _ _ _ HI) as Hsz. fold off in Hsz.
  apply (wp_loop (fun '(d1, o, n, p) s1 => (p <= length l)%nat /\ o = off + Z.of_nat p /\ n = len - Z.of_nat p /\
      exists w1, appended s w d l p s1 w1 d1) (fun '(_, _, n, _) _ => Z.to_nat n)).
  - intros [[[d1 o] n] p] s1 (Hp & -> & -> & w1 & Ha). destruct (decide (p = length l)) as [->|Hne].
    + unfold iappend_body. fold len. destruct (Z.ltb_spec 0 (len - len)); [lia|]. apply wp_ret. by eapply HQ.
    + apply (iappend_body_ok s w d l p s1 w1 d1); try (done || lia).
      intros s2 w2 d2 m Hm Hpm Ha2. split; [|lia]. split_and!; [lia|done|done|]. by exists w2.
  - split_and!; [lia|lia|lia|]. exists w. split; try done.
    + apply written_nil; [done|by eapply view_bitmap|lia].
    + fold off. by rewrite Z.add_0_r.
    + fold off. rewrite Z.add_0_r. lia.
  - lia.
Qed.

(** The contents grow, and the other files stay. *)
Lemma files_append s w E k d c l s1 w1 d1 s2 :
  let d2 := set_d_size (d_size d + Z.of_nat (length l)) d1 in
  files s w E -> E !! k = Some (d, c) -> d_size d + Z.of_nat (length l) <= MAXFILE * BSIZE ->
  appended s w d l (length l) s1 w1 d1 -> view s2 (inode_view sb w1 (1 + Z.of_nat k) d2) ->
  m_freeblock s2 = m_freeblock s1 -> m_freeinode s2 = m_freeinode s1 ->
  files s2 (inode_view sb w1 (1 + Z.of_nat k) d2) (<[k := (d2, c ++ l)]> E).
Proof.
  intros d2 [F1 [F2 F2'] F3 F4 F5 F6] Ek Hmax [A1 A2 A3 A4 A5 A6] V2 B2 I2. rewrite take_ge in A2 by done.
  destruct (F3 k d c Ek) as [Hdk Hfk]. pose proof (fk_size _ _ _ Hfk) as Hsz.
  assert (Hk : 0 <= 1 + Z.of_nat k < NINODES) by (apply lookup_lt_Some in Ek; lia).
  assert (Hf2 : file_ok w1 d2 (c ++ l)) by (by apply (file_append w d c l w1 d1)).
  assert (Hoth : forall j d' c', E !! j = Some (d', c') -> j <> k ->
    file_ok w1 d' c' /\ forall b, uses w1 d' b <-> uses w d' b).
  { intros j d' c' Ej Hne. destruct (F3 j d' c' Ej) as [_ Hfj]. apply file_ext; [done| |apply A2].
    intros b Hb. apply (wr_other _ _ _ _ _ _ _ A2); [by eapply uses_data|].
    apply foreign_uses; [apply Hb|]. by eapply F5. }
  assert (Hap : forall j d' c', E !! j = Some (d', c') -> j <> k -> apart w1 d' d2).
  { intros j d' c' Ej Hne b Hb Hb2. apply (proj2 (Hoth j d' c' Ej Hne)) in Hb.
    destruct (F3 j d' c' Ej) as [_ Hfj].
    assert (Hf : foreign w1 d1 b).
    { apply (wr_other _ _ _ _ _ _ _ A2); [by eapply uses_data|]. apply foreign_uses; [apply Hb|]. by eapply F5. }
    apply foreign_uses in Hf; [|apply Hb]. by apply Hf. }
  assert (Hlt : (k < length E)%nat) by (by eapply lookup_lt_Some).
  assert (Hin : forall j d' c', <[k := (d2, c ++ l)]> E !! j = Some (d', c') ->
    (j = k /\ d' = d2 /\ c' = c ++ l) \/ (j <> k /\ E !! j = Some (d', c'))).
  { intros j d' c' Hj. apply list_lookup_insert_Some in Hj as [(-> & ? & _)|[? ?]]; [left; by simplify_eq|by right]. }
  assert (Hw1 : forall i, 0 <= i < NINODES -> disk_inode sb w1 i = disk_inode sb w i).
  { intros i Hi. unfold disk_inode. by rewrite (wr_inode _ _ _ _ _ _ _ A2). }
  assert (Hdv : forall i, 0 <= i < NINODES -> disk_inode sb (inode_view sb w1 (1 + Z.of_nat k) d2) i =
    if decide (i = 1 + Z.of_nat k) then d2 else disk_inode sb w i).
  { intros i Hi. rewrite disk_inode_view, Hw1 by (apply sb_ex_ok || apply A1 || apply Hf2 || unfold NINODES in *; lia). done. }
  set (w2 := inode_view sb w1 (1 + Z.of_nat k) d2) in *.
  assert (Hu : forall d' c', file_ok w1 d' c' -> file_ok w2 d' c' /\ forall b, uses w2 d' b <-> uses w1 d' b)
    by (intros; by apply inode_view_file).
  split; rewrite ?length_insert; try done.
  - lia.
  - intros j d' c' Hj. rewrite Hdv by (apply lookup_lt_Some in Hj; rewrite length_insert in Hj; lia).
    destruct (Hin j d' c' Hj) as [(-> & -> & ->)|[Hne Ej]].
    + rewrite decide_True by done. split; [done|]. by apply Hu.
    + rewrite decide_False by lia. split; [by eapply F3|]. apply Hu. by eapply Hoth.
  - intros i Hi. rewrite Hdv, decide_False by lia. apply F4. lia.
  - intros i j di dj ci cj Hi Hj Hne b Hb1 Hb2.
    destruct (Hin i di ci Hi) as [(-> & -> & ->)|[Hik Ei]], (Hin j dj cj Hj) as [(-> & -> & ->)|[Hjk Ej]]; [done|..].
    + apply (Hu _ _ Hf2) in Hb1. apply (Hu _ _ (proj1 (Hoth j dj cj Ej Hjk))) in Hb2. by eapply Hap.
    + apply (Hu _ _ Hf2) in Hb2. apply (Hu _ _ (proj1 (Hoth i di ci Ei Hik))) in Hb1. by eapply Hap.
    + apply (Hu _ _ (proj1 (Hoth i di ci Ei Hik))), (Hoth i di ci Ei Hik) in Hb1.
      apply (Hu _ _ (proj1 (Hoth j dj cj Ej Hjk))), (Hoth j dj cj Ej Hjk) in Hb2. by eapply (F5 i j).
  - rewrite (usage_insert E k d c) by done. rewrite B2, A6, F6, Hsz, length_app, Nat2Z.inj_add. lia.
Qed.

Lemma iappend_ok s w E k d c l Q :
  files s w E -> E !! k = Some (d, c) -> Forall is_byte l ->
  Z.of_nat (length (c ++ l)) <= MAXFILE * BSIZE ->
  nmeta + usage E + cost (blocks_for (Z.of_nat (length (c ++ l)))) - cost (blocks_for (Z.of_nat (length c))) <= FSSIZE ->
  (forall s' w' d', files s' w' (<[k := (d', c ++ l)]> E) -> d_type d' = d_type d -> d_nlink d' = d_nlink d -> Q tt s') ->
  wp (iappend (1 + Z.of_nat k) l (Z.of_nat (length l))) s Q.
Proof.
  intros HF Ek Hl Hmax Hroom HQ. destruct (fl_inode _ _ _ HF k d c Ek) as [Hdk Hfk].
  destruct (fl_free _ _ _ HF) as [Hfi Hni]. pose proof (lookup_lt_Some _ _ _ Ek) as Hlt.
  pose proof (fk_size _ _ _ Hfk) as Hsz. pose proof (io_size _ _ _ (fk_inode _ _ _ Hfk)) as Hs0.
  rewrite length_app, Nat2Z.inj_add, <- Hsz in *. rewrite <- (fl_usage _ _ _ HF) in Hroom.
  unfold iappend. apply wp_bind. apply (rinode_ok s w); [apply HF|lia|]. rewrite Hdk.
  rewrite xint_small by (sizes; lia). apply wp_bind.
  apply (iappend_loop_ok s w d l); [apply HF|apply Hfk|apply Hfk|apply Hfk|done|done|lia|].
  intros s1 w1 d1 Ha. rewrite xint_small by (sizes; lia).
  apply (winode_ok s1 w1); [apply Ha|lia|apply (ap_dok _ _ _ _ _ _ _ _ Ha)|].
  intros s2 V2 B2 I2. eapply (HQ s2); [by apply (files_append s w E k d c l s1 w1 d1)| |];
    cbn [d_type d_nlink set_d_size]; rewrite (wr_meta _ _ _ _ _ _ _ (ap_written _ _ _ _ _ _ _ _ Ha)); done.
Qed.

(** A new inode. *)
Definition fresh_dinode (type : Z) : dinode := Dinode type 0 0 1 0 (replicate 13 0).

Lemma get_addr_zero type k : get_addr k (fresh_dinode type) = 0.
Proof.
  unfold get_addr. destruct (d_addrs (fresh_dinode type) !! Z.to_nat k) as [x|] eqn:E; [|done].
  by apply lookup_replicate in E as [-> _].
Qed.

Lemma baddr_zero w type k : baddr w (fresh_dinode type) k = 0.
Proof. unfold baddr. rewrite !get_addr_zero. by destruct (k <? NDIRECT). Qed.

Lemma fresh_ok w type : 0 <= type < 2 ^ 15 -> file_ok w (fresh_dinode type) [].
Proof.
  intros Ht. split.
  - split; try (simpl; lia). by apply Forall_replicate.
  - split; cbn [d_size fresh_dinode]; try done; intros; rewrite ?baddr_zero in *; done || unfold BSIZE in *; lia.
  - change (blocks_for (d_size (fresh_dinode type))) with 0. split; [|split; [done|split_and!; try done]].
    + intros k Hk. rewrite baddr_zero. lia.
    + intros k Hk. by rewrite baddr_zero.
  - done.
  - intros i Hi. rewrite fbyte_block, baddr_zero. unfold byte_at. by rewrite lookup_nil.
Qed.

Lemma ialloc_files_ok s w E type Q :
  files s w E -> 2 + Z.of_nat (length E) <= NINODES -> 0 <= type < 2 ^ 15 ->
  (forall s' w', files s' w' (E ++ [(fresh_dinode type, [])]) -> Q (1 + Z.of_nat (length E)) s') ->
  wp (ialloc type) s Q.
Proof.
  intros [F1 [F2 F2'] F3 F4 F5 F6] Hn Ht HQ. unfold ialloc. apply wp_bind, wp_gets, wp_bind, wp_modify. rewrite F2.
  set (i := 1 + Z.of_nat (length E)) in *. unfold NINODES in *. rewrite u32_small by lia.
  rewrite !xshort_small, xint_small by lia. unfold s16. rewrite !Z.mod_small by lia.
  destruct (Z.ltb_spec type (2 ^ 15)); [|lia]. change (1 <? 2 ^ 15) with true. cbv iota.
  fold (fresh_dinode type). set (s0 := set_m_freeinode (i + 1) s).
  assert (V0 : view s0 w) by (destruct F1; by split).
  apply wp_bind. apply (winode_ok s0 w); [done|unfold NINODES; lia|done|]. intros s' V B I. apply wp_ret.
  pose proof (fresh_ok w type Ht) as Hfr.
  assert (Hv : forall d c, file_ok w d c -> file_ok (inode_view sb w i (fresh_dinode type)) d c /\
    forall b, uses (inode_view sb w i (fresh_dinode type)) d b <-> uses w d b)
    by (intros; apply inode_view_file; [unfold NINODES; lia|done]).
  assert (Hdv : forall j, 0 <= j < NINODES -> disk_inode sb (inode_view sb w i (fresh_dinode type)) j =
    if decide (j = i) then fresh_dinode type else disk_inode sb w j).
  { intros j Hj. unfold NINODES in *. apply disk_inode_view; [apply sb_ex_ok|apply F1|apply Hfr|lia|lia]. }
  assert (Hno : forall v b, ~ uses v (fresh_dinode type) b).
  { intros v b [Hb [->|(k & _ & <-)]]; [by apply Hb, get_addr_zero|by apply Hb, baddr_zero]. }
  apply (HQ s' (inode_view sb w i (fresh_dinode type))).
  assert (Hin : forall j d c, (E ++ [(fresh_dinode type, [])]) !! j = Some (d, c) ->
    (j < length E)%nat /\ E !! j = Some (d, c) \/ j = length E /\ d = fresh_dinode type /\ c = []).
  { intros j d c Hj. apply lookup_app_Some in Hj as [Hj|[Hj1 Hj2]]; [left; split; [by eapply lookup_lt_Some|done]|].
    apply list_lookup_singleton_Some in Hj2 as [? ?]. simplify_eq. right. split_and!; [lia|done|done]. }
  split; try done.
  - rewrite length_app, I. unfold NINODES, s0. simpl. lia.
  - intros j d c Hj. destruct (Hin j d c Hj) as [[Hlt Ej]|(-> & -> & ->)].
    + rewrite Hdv, decide_False by (unfold NINODES; lia). split; [by eapply F3|]. apply Hv. by eapply F3.
    + rewrite Hdv, decide_True by (done || unfold NINODES; lia). split; [done|by apply Hv].
  - intros j Hj. rewrite I in Hj. simpl in Hj. rewrite Hdv, decide_False by lia. apply F4. unfold NINODES in *. lia.
  - intros j k dj dk cj ck Hj Hk Hne b Hb1 Hb2.
    destruct (Hin j dj cj Hj) as [[Hlt Ej]|(-> & -> & ->)]; [|by apply Hno in Hb1].
    destruct (Hin k dk ck Hk) as [[Hlt' Ek]|(-> & -> & ->)]; [|by apply Hno in Hb2].
    apply (Hv _ _ (proj2 (F3 j dj cj Ej))) in Hb1. apply (Hv _ _ (proj2 (F3 k dk ck Ek))) in Hb2.
    by apply (F5 j k dj dk cj ck Ej Ek Hne b).
  - rewrite usage_app, B. cbn [usage length]. change (cost (blocks_for (Z.of_nat 0))) with 0. change (m_freeblock s0) with (m_freeblock s). lia.
Qed.

(** Cutting a file's last block full: nothing moves. *)
Lemma appended_zeros s w d c p :
  view s w -> file_ok w d c -> d_size d + Z.of_nat p <= MAXFILE * BSIZE ->
  blocks_for (d_size d + Z.of_nat p) = blocks_for (d_size d) ->
  appended s w d (replicate p 0) (length (replicate p 0)) s w d.
Proof.
  intros H Hf Hmax Hb. pose proof (fk_size _ _ _ Hf) as Hs. rewrite length_replicate. split; try done.
  - rewrite take_ge by (by rewrite length_replicate). split; rewrite ?length_replicate; try done.
    + apply Hf.
    + by eapply view_bitmap.
    + intros i Hi. case_decide; [|done]. rewrite (fk_bytes _ _ _ Hf) by done. unfold byte_at.
      rewrite lookup_ge_None_2 by lia. by rewrite lookup_replicate_2 by lia.
    + intros k Hk Hlt. apply (fk_holds _ _ _ Hf); [sizes; lia|]. rewrite <- Hb.
      unfold blocks_for, BSIZE in *. Z.div_mod_to_equations; lia.
    + by destruct d.
  - apply Hf.
  - rewrite Hb. apply Hf.
  - rewrite Hb. lia.
Qed.

Lemma round_root_ok s w E d c Q :
  files s w E -> E !! 0%nat = Some (d, c) -> d_size d mod BSIZE <> 0 -> d_size d <= MAXFILE * BSIZE ->
  (forall s' w' d' p, files s' w' (<[0%nat := (d', c ++ replicate p 0)]> E) -> d_type d' = d_type d ->
     d_nlink d' = d_nlink d -> d_size d' = (d_size d / BSIZE + 1) * BSIZE -> Q tt s') ->
  wp (round_root 1) s Q.
Proof.
  intros HF E0 Hmod Hmax HQ. destruct (fl_inode _ _ _ HF 0%nat d c E0) as [Hd Hf].
  change (1 + Z.of_nat 0) with 1 in Hd. pose proof (io_size _ _ _ (fk_inode _ _ _ Hf)) as Hs.
  assert (Hr : d_size d < (d_size d / BSIZE + 1) * BSIZE <= MAXFILE * BSIZE).
  { sizes. Z.div_mod_to_equations; lia. }
  set (p := Z.to_nat ((d_size d / BSIZE + 1) * BSIZE - d_size d)).
  assert (Ep : (d_size d / BSIZE + 1) * BSIZE = d_size d + Z.of_nat p) by lia.
  unfold round_root. apply wp_bind. apply (rinode_ok s w); [apply HF|done|]. rewrite Hd.
  rewrite (xint_small (d_size d)) by (sizes; lia). rewrite u32_small, xint_small, Ep by (sizes; lia).
  apply (winode_ok s w); [apply HF|done|apply (fk_dok _ _ _ Hf)|]. intros s' V B I.
  assert (Ha : appended s w d (replicate p 0) (length (replicate p 0)) s w d).
  { apply (appended_zeros s w d c); [apply HF|done|lia|]. rewrite <- Ep.
    unfold blocks_for, BSIZE in *. Z.div_mod_to_equations; lia. }
  rewrite <- (length_replicate p 0) in V, Ep.
  set (d2 := set_d_size (d_size d + Z.of_nat (length (replicate p 0))) d) in *.
  apply (HQ s' (inode_view sb w 1 d2) d2 p); [|done|done|by rewrite Ep].
  apply (files_append s w E 0 d c (replicate p 0) s w d s'); try done. rewrite <- Ep. lia.
Qed.
