(* ===== verification/MkfsImage.v ===== *)
(** The finished image of [mkfs/mkfs.c], and the run of [main] that makes
    it. *)

From stdpp Require Import gmap.
From S2P Require Import Prelude CString Layout Kalloc Vm Sleeplock Bio Log LogSafe Kernel UserMem Sched Uart Printf Fs FsTx FsAlloc FsIo FsInode FsDisk FsFile FsDir FsExample Mkfs MkfsSafe.

#[local] Abbreviation sb := sb_ex.

(** * The bitmap *)

Lemma mark_step buf i :
  block_ok buf -> 0 <= i ->
  <[Z.to_nat (i / 8) := u8 (Z.lor (byte_at buf (i / 8)) (Z.shiftl 1 (i mod 8)))]> buf = set_bit buf i.
Proof.
  intros Hb Hi. unfold set_bit. f_equal. apply Z.mod_small. apply lor_byte; [by apply byte_at_ok|].
  rewrite Z.shiftl_1_l. apply pow2_byte. by apply Z.mod_pos_bound.
Qed.

Lemma mark_ok n i buf b :
  block_ok buf -> 0 <= i -> i + Z.of_nat n <= BPB -> 0 <= b ->
  block_ok (mark n i buf) /\ bit (mark n i buf) b = ((i <=? b) && (b <? i + Z.of_nat n)) || bit buf b.
Proof.
  revert i buf. induction n as [|n IH]; intros i buf Hb Hi Hn Hb0.
  - split; [done|]. cbn [mark]. change (Z.of_nat 0) with 0. rewrite Z.add_0_r.
    destruct (Z.leb_spec i b), (Z.ltb_spec b i); done || lia.
  - cbn [mark]. rewrite mark_step by done. destruct (IH (i + 1) (set_bit buf i)) as [H1 H2]; [by apply set_bit_ok|lia|lia|done|].
    split; [done|]. rewrite H2, bit_set by (done || lia). rewrite orb_assoc. f_equal.
    destruct (Z.leb_spec i b), (Z.leb_spec (i + 1) b), (Z.eqb_spec b i), (Z.ltb_spec b (i + 1 + Z.of_nat n)),
      (Z.ltb_spec b (i + Z.of_nat (S n))); done || lia.
Qed.

Lemma bit_zeros b : bit zeros b = false.
Proof. unfold bit. unfold zeros. rewrite byte_at_zeros. apply Z.testbit_0_l. Qed.

(** The bitmap of the first [n] blocks. *)
Lemma bitmap_marked n b :
  0 <= n <= BPB -> 0 <= b -> bit (mark (Z.to_nat n) 0 zeros) b = (b <? n).
Proof.
  intros Hn Hb. destruct (mark_ok (Z.to_nat n) 0 zeros b) as [_ ->]; [apply zeros_ok|lia|lia|lia|].
  rewrite bit_zeros. destruct (Z.leb_spec 0 b), (Z.ltb_spec b (0 + Z.of_nat (Z.to_nat n))), (Z.ltb_spec b n); done || lia.
Qed.

Lemma bitmap_block n : 0 <= n <= BPB -> block_ok (mark (Z.to_nat n) 0 zeros).
Proof. intros Hn. apply (mark_ok (Z.to_nat n) 0 zeros 0); [apply zeros_ok|lia|lia|lia]. Qed.

Lemma allocated_marked w n b :
  0 <= n <= BPB -> 0 <= b < FSSIZE -> w (sb_bmapstart sb) = mark (Z.to_nat n) 0 zeros -> allocated sb w b = (b <? n).
Proof.
  intros Hn Hb Hw. unfold allocated. unfold FSSIZE in *. rewrite BBLOCK_ex by lia. simpl in Hw. rewrite Hw.
  rewrite Z.mod_small by (unfold BPB, BSIZE; lia). apply bitmap_marked; [done|lia].
Qed.

(** * The finished image *)

(** The superblock as [readsb] of the kernel takes it from its block. *)
Definition sb_at (d : list Z) : superblock :=
  Superblock (get32 d 0) (get32 d 4) (get32 d 8) (get32 d 12) (get32 d 16) (get32 d 20) (get32 d 24) (get32 d 28).

(** A disk image in the sense of the kernel, with the blocks below [fb] in
    use and the inodes [E] from number 1 on. *)
Record image (v : Z -> list Z) (fb : Z) (E : list (dinode * list Z)) : Prop := {
  im_block : forall n, block_ok (v n);
  im_super : sb_at (v 1) = sb;
  im_log : forall n, 2 <= n < 32 -> v n = zeros;
  im_bitmap : bitmap_ok sb v;
  im_used : forall b, 0 <= b < FSSIZE -> allocated sb v b = (b <? fb);
  im_inode : forall k d c, E !! k = Some (d, c) ->
    disk_inode sb v (1 + Z.of_nat k) = d /\ dinode_ok d /\ inode_ok sb v d /\
    d_size d = Z.of_nat (length c) /\ fbytes v d 0 (length c) = c;
  im_unused : forall i, 1 + Z.of_nat (length E) <= i < NINODES -> d_type (disk_inode sb v i) = 0;
  im_apart : forall j k d d' c c', E !! j = Some (d, c) -> E !! k = Some (d', c') -> j <> k -> apart v d d';
}.

Lemma file_bytes w d c : file_ok w d c -> fbytes w d 0 (length c) = c.
Proof.
  intros H. apply list_eq. intros i. destruct (decide (i < length c)%nat) as [Hi|Hi].
  - rewrite lookup_fbytes by done. rewrite (fk_bytes _ _ _ H).
    + rewrite Z.add_0_l. unfold byte_at. rewrite Nat2Z.id. destruct (c !! i) eqn:Ei; [done|].
      apply lookup_ge_None in Ei. lia.
    + pose proof (fk_size _ _ _ H). pose proof (io_size _ _ _ (fk_inode _ _ _ H)). lia.
  - rewrite !lookup_ge_None_2; [done| |]; rewrite ?length_fbytes; lia.
Qed.

Lemma balloc_finish s w E Q :
  files s w E ->
  (forall s', image (m_img s') (m_freeblock s) E -> (forall k d c, E !! k = Some (d, c) -> file_ok (m_img s') d c) ->
     m_freeblock s' = m_freeblock s -> Q tt s') ->
  wp (balloc (m_freeblock s)) s Q.
Proof.
  intros [F1 [F2 F2'] F3 F4 F5 F6] HQ. unfold balloc, assert. pose proof (vw_free _ _ F1) as Hfb. rewrite nmeta_eq in Hfb.
  unfold FSSIZE in *. destruct (Z.ltb_spec (m_freeblock s) (BSIZE * 8)); [|unfold BSIZE in *; lia].
  apply wp_bind, wp_ret, wp_bind, wp_gets. rewrite (vw_sb _ _ F1). apply wp_modify. fold zeros.
  change (sector (sb_bmapstart sb)) with 45. set (bm := mark (Z.to_nat (m_freeblock s)) 0 zeros).
  set (v := fun n => if n =? 45 then bm else m_img s n).
  assert (Hv : forall n, n <> 45 -> v n = w n).
  { intros n Hn. unfold v. destruct (Z.eqb_spec n 45); [done|]. by rewrite (vw_same _ _ F1). }
  assert (Hbp : 0 <= m_freeblock s <= BPB) by (unfold BPB, BSIZE; lia).
  assert (Hal : forall b, 0 <= b < FSSIZE -> allocated sb v b = (b <? m_freeblock s)).
  { intros b Hb. by apply allocated_marked. }
  assert (Hf : forall d c, file_ok w d c -> file_ok v d c /\ forall b, uses v d b <-> uses w d b).
  { intros d c H1. apply file_ext; [done| |].
    - intros b Hb. apply Hv. by eapply data_not_map, uses_data.
    - intros b Hb. by rewrite (vw_map _ _ F1), Hal. }
  assert (Hdi : forall i, 0 <= i < NINODES -> disk_inode sb v i = disk_inode sb w i).
  { intros i Hi. unfold disk_inode. rewrite Hv; [done|]. pose proof (inode_block_range i Hi). lia. }
  apply HQ; cbn [m_img m_freeblock set_m_img set_m_len]; [|by intros k d c Hk; eapply Hf, F3|done].
  fold v. split.
  - intros n. destruct (Z.eq_dec n 45) as [->|]; [by apply bitmap_block|]. rewrite Hv by done. apply F1.
  - rewrite Hv, (vw_super _ _ F1) by done. by vm_compute.
  - intros n Hn. rewrite Hv by lia. by apply (vw_log _ _ F1).
  - intros n Hn Hr. rewrite Hal by done. apply Z.ltb_lt. pose proof (reserved_ex n Hr Hn). lia.
  - done.
  - intros k d c Hk. destruct (F3 k d c Hk) as [H1 H2]. apply Hf in H2 as [H2 _].
    split_and!; [|apply H2|apply H2|apply (fk_size _ _ _ H2)|by apply file_bytes].
    rewrite Hdi; [done|]. apply lookup_lt_Some in Hk. lia.
  - intros i Hi. rewrite Hdi, F4 by lia. done.
  - intros j k d d' c c' Hj Hk Hne b Hb1 Hb2. destruct (F3 j d c Hj) as [_ Hfj], (F3 k d' c' Hk) as [_ Hfk].
    apply (Hf _ _ Hfj) in Hb1. apply (Hf _ _ Hfk) in Hb2. by apply (F5 j k d d' c c' Hj Hk Hne b).
Qed.

(** * Adding the files *)

Section adding.
Context `{HO : Host}.

(** The bytes of a file of the host, as [read] gives them to [mkfs]. *)
Definition host_file (arg c : list Z) : Prop :=
  exists reads, file_reads arg = Some reads /\ c = concat reads /\
    Forall (fun r => 0 < Z.of_nat (length r) <= BSIZE /\ Forall is_byte r) reads.

Lemma append_all_ok reads s w E k d c Q :
  let c' := c ++ concat reads in
  files s w E -> E !! k = Some (d, c) -> Forall (Forall is_byte) reads ->
  Z.of_nat (length c') <= MAXFILE * BSIZE ->
  nmeta + usage E + cost (blocks_for (Z.of_nat (length c'))) - cost (blocks_for (Z.of_nat (length c))) <= FSSIZE ->
  (forall s' w' d', files s' w' (<[k := (d', c')]> E) -> d_type d' = d_type d -> d_nlink d' = d_nlink d -> Q tt s') ->
  wp (append_all (1 + Z.of_nat k) reads) s Q.
Proof.
  revert s w E d c. induction reads as [|r reads IH]; intros s w E d c c' HF Ek Hb Hmax Hroom HQ.
  - apply wp_ret. apply (HQ s w d); [|done|done]. unfold c'. simpl. rewrite app_nil_r, list_insert_id; done.
  - inversion_clear Hb as [|? ? Hr Hrs]. cbn [append_all]. unfold c' in *. cbn [concat] in *.
    rewrite !(assoc_L (++)) in *.
    assert (Hm : cost (blocks_for (Z.of_nat (length (c ++ r)))) <= cost (blocks_for (Z.of_nat (length ((c ++ r) ++ concat reads))))).
    { apply cost_mono. unfold blocks_for. apply Z.div_le_mono; [done|]. rewrite !length_app. lia. }
    apply wp_bind. apply (iappend_ok s w E k d c r); [done|done|done| |lia|].
    { rewrite !length_app in *. lia. }
    intros s1 w1 d1 F1 T1 N1. apply (IH s1 w1 (<[k := (d1, c ++ r)]> E) d1 (c ++ r)); try done.
    + apply list_lookup_insert_eq. by eapply lookup_lt_Some.
    + rewrite (usage_insert E k d c) by done. lia.
    + intros s' w' d' F' T' N'. rewrite list_insert_insert_eq in F'. apply (HQ s' w' d'); [done|congruence|congruence].
Qed.

Definition file_name (arg : list Z) : list Z := skip_underscore (shortname arg).

Lemma file_name_bytes arg : Forall is_byte arg -> Forall is_byte (file_name arg).
Proof.
  intros H. assert (Hs : Forall is_byte (shortname arg)) by (unfold shortname; case_decide; [by apply Forall_drop|done]).
  unfold file_name, skip_underscore. destruct (shortname arg) as [|c l]; [done|].
  destruct (c =? 95); [by inversion Hs|done].
Qed.

(** One file: a new inode, an entry in the root directory, the contents. *)
Lemma add_file_ok s w dr rc Fs arg c Q :
  let inum := 2 + Z.of_nat (length Fs) in
  let rc' := rc ++ new_dirent (file_name arg) inum in
  files s w ((dr, rc) :: Fs) -> host_file arg c -> ~ ch_slash ∈ shortname arg -> Forall is_byte arg ->
  inum + 1 <= NINODES -> Z.of_nat (length rc') <= MAXFILE * BSIZE -> Z.of_nat (length c) <= MAXFILE * BSIZE ->
  nmeta + cost (blocks_for (Z.of_nat (length rc'))) + usage Fs + cost (blocks_for (Z.of_nat (length c))) <= FSSIZE ->
  (forall s' w' dr' d, files s' w' ((dr', rc') :: Fs ++ [(d, c)]) -> d_type dr' = d_type dr -> d_nlink dr' = d_nlink dr ->
     d_type d = T_FILE -> d_nlink d = 1 -> Q tt s') ->
  wp (add_file 1 arg) s Q.
Proof.
  intros inum rc' HF (reads & Er & -> & Hrd) Hsl Hby Hin Hmr Hmc Hroom HQ. unfold add_file, assert, NINODES in *.
  rewrite bool_decide_false by done. apply wp_bind, wp_ret. rewrite Er. apply wp_bind.
  assert (Hc0 : 0 <= cost (blocks_for (Z.of_nat (length (concat reads))))).
  { change 0 with (cost (blocks_for 0)). apply cost_mono. unfold blocks_for. apply Z.div_le_mono; [done|lia]. }
  apply (ialloc_files_ok s w ((dr, rc) :: Fs)); [done|unfold NINODES; simpl; lia|done|].
  intros s1 w1 F1. replace (1 + Z.of_nat (length ((dr, rc) :: Fs))) with inum by (simpl; lia).
  rewrite dirent_eq by lia. fold (file_name arg). apply wp_bind.
  change 1 with (1 + Z.of_nat 0). replace DIRENT with (Z.of_nat (length (new_dirent (file_name arg) inum))) by (by rewrite length_new_dirent).
  eapply (iappend_ok s1 w1 _ 0 dr rc); [exact F1|done|by apply new_dirent_bytes, file_name_bytes|done| |].
  { cbn [app usage]. rewrite usage_app. cbn [usage]. change (cost (blocks_for (Z.of_nat (length [])))) with 0. fold rc'. lia. }
  intros s2 w2 dr' F2 T2 N2. cbn [app] in F2. change (<[0%nat := (dr', rc ++ new_dirent (file_name arg) inum)]> ((dr, rc) :: Fs ++ [(fresh_dinode T_FILE, [])]))
    with ((dr', rc') :: Fs ++ [(fresh_dinode T_FILE, [])]) in F2.
  replace inum with (1 + Z.of_nat (S (length Fs))) by lia.
  eapply (append_all_ok reads s2 w2 _ (S (length Fs)) (fresh_dinode T_FILE) []); [exact F2| | |done| |].
  - change ((Fs ++ [(fresh_dinode T_FILE, [])]) !! length Fs = Some (fresh_dinode T_FILE, [])).
    by rewrite lookup_app_r, Nat.sub_diag by done.
  - eapply Forall_impl; [exact Hrd|]. by intros r [_ ?].
  - cbn [usage app]. rewrite usage_app. cbn [usage]. change (cost (blocks_for (Z.of_nat (length [])))) with 0. lia.
  - intros s3 w3 d3 F3 T3 N3. cbn [app] in F3.
    change (<[S (length Fs) := (d3, concat reads)]> ((dr', rc') :: Fs ++ [(fresh_dinode T_FILE, [])]))
      with ((dr', rc') :: <[length Fs := (d3, concat reads)]> (Fs ++ [(fresh_dinode T_FILE, [])])) in F3.
    rewrite insert_app_r_alt, Nat.sub_diag in F3 by done. by apply (HQ s3 w3 dr' d3).
Qed.

(** The entries of the arguments, from inode [n] on. *)
Fixpoint entries (n : Z) (args : list (list Z)) : list (list Z) :=
  match args with
  | [] => []
  | a :: args' => new_dirent (file_name a) n :: entries (n + 1) args'
  end.

Fixpoint data_blocks (data : list (list Z)) : Z :=
  match data with
  | [] => 0
  | c :: data' => cost (blocks_for (Z.of_nat (length c))) + data_blocks data'
  end.

Lemma length_entries n args : Z.of_nat (length (concat (entries n args))) = DIRENT * Z.of_nat (length args).
Proof.
  revert n. induction args as [|a args IH]; intros n; [done|]. cbn [entries concat length].
  rewrite length_app, length_new_dirent, Nat2Z.inj_add, IH. unfold DIRENT. lia.
Qed.

Lemma data_blocks_nonneg data : 0 <= data_blocks data.
Proof.
  induction data as [|c data IH]; simpl; [lia|]. assert (0 <= cost (blocks_for (Z.of_nat (length c)))); [|lia].
  change 0 with (cost (blocks_for 0)) at 1. apply cost_mono. unfold blocks_for. apply Z.div_le_mono; [done|lia].
Qed.

Definition plain (f : dinode * list Z) (c : list Z) : Prop :=
  f.2 = c /\ d_type f.1 = T_FILE /\ d_nlink f.1 = 1.

Lemma add_files_ok args data s w dr rc Fs Q :
  let rc' := rc ++ concat (entries (2 + Z.of_nat (length Fs)) args) in
  files s w ((dr, rc) :: Fs) -> Forall2 host_file args data ->
  Forall (fun a => Forall is_byte a /\ ~ ch_slash ∈ shortname a) args ->
  2 + Z.of_nat (length Fs) + Z.of_nat (length args) <= NINODES ->
  Z.of_nat (length rc') <= MAXFILE * BSIZE -> Forall (fun c => Z.of_nat (length c) <= MAXFILE * BSIZE) data ->
  nmeta + cost (blocks_for (Z.of_nat (length rc'))) + usage Fs + data_blocks data <= FSSIZE ->
  (forall s' w' dr' Gs, files s' w' ((dr', rc') :: Fs ++ Gs) -> d_type dr' = d_type dr -> d_nlink dr' = d_nlink dr ->
     Forall2 plain Gs data -> Q tt s') ->
  wp (add_files 1 args) s Q.
Proof.
  intros rc' HF HH. revert s w dr rc Fs rc' HF.
  induction HH as [|a c args data Ha HH IH]; intros s w dr rc Fs rc' HF Hargs Hn Hmr Hmd Hroom HQ.
  - apply wp_ret. apply (HQ s w dr []); [|done|done|constructor]. unfold rc'. simpl. by rewrite !app_nil_r.
  - inversion_clear Hargs as [|? ? [Hby Hsl] Hargs']. inversion_clear Hmd as [|? ? Hc Hmd'].
    unfold rc' in *. cbn [entries concat data_blocks length] in *. rewrite (assoc_L (++)) in *.
    set (e := new_dirent (file_name a) (2 + Z.of_nat (length Fs))) in *.
    pose proof (data_blocks_nonneg data) as Hd0.
    assert (Hle : Z.of_nat (length (rc ++ e)) <= Z.of_nat (length ((rc ++ e) ++ concat (entries (2 + Z.of_nat (length Fs) + 1) args)))).
    { rewrite !length_app. lia. }
    assert (Hm : cost (blocks_for (Z.of_nat (length (rc ++ e)))) <=
      cost (blocks_for (Z.of_nat (length ((rc ++ e) ++ concat (entries (2 + Z.of_nat (length Fs) + 1) args)))))).
    { apply cost_mono. unfold blocks_for. apply Z.div_le_mono; [done|lia]. }
    cbn [add_files]. apply wp_bind. apply (add_file_ok s w dr rc Fs a c); try done; [lia|fold e; lia|fold e; lia|].
    intros s1 w1 dr1 d1 F1 T1 N1 T2 N2. fold e in F1.
    assert (El : 2 + Z.of_nat (length (Fs ++ [(d1, c)])) = 2 + Z.of_nat (length Fs) + 1) by (rewrite length_app; simpl; lia).
    assert (Eu : usage (Fs ++ [(d1, c)]) = usage Fs + cost (blocks_for (Z.of_nat (length c)))) by (rewrite usage_app; simpl; lia).
    apply (IH s1 w1 dr1 (rc ++ e) (Fs ++ [(d1, c)])); rewrite ?El; try done; [lia|lia|].
    intros s' w' dr' Gs F' T' N' HG. rewrite <- (assoc_L (++) Fs [(d1, c)] Gs) in F'.
    apply (HQ s' w' dr' ((d1, c) :: Gs)); [done|congruence|congruence|]. by constructor.
Qed.

(** * The beginning of the image *)

Lemma zero_image_ok n i s Q :
  (forall k, m_img s k = zeros) -> m_len s = i -> 0 <= i -> i + Z.of_nat n < 2 ^ 22 ->
  (forall s', (forall k, m_img s' k = zeros) -> m_len s' = i + Z.of_nat n -> m_sb s' = m_sb s ->
     m_freeinode s' = m_freeinode s -> m_freeblock s' = m_freeblock s -> Q tt s') ->
  wp (zero_image n i) s Q.
Proof.
  revert i s. induction n as [|n IH]; intros i s Hz Hl Hi Hn HQ.
  - apply wp_ret, HQ; [done|lia|done..].
  - cbn [zero_image]. apply wp_bind, wp_modify. rewrite sector_small by lia. apply IH; cbn [m_img m_len set_m_img set_m_len].
    + intros k. by destruct (k =? i).
    + lia.
    + lia.
    + lia.
    + intros s' H1 H2 H3 H4 H5. apply HQ; [done|lia|done..].
Qed.

Lemma zero_dinode_at o : get_dinode zeros o = zero_dinode.
Proof.
  assert (H16 : forall p, get16 zeros p = 0) by (intros; apply le_combine_zeros, Forall_take, Forall_drop; by apply Forall_replicate).
  unfold get_dinode. rewrite !H16. unfold zeros. cbn [get_words]. by rewrite !get32_zeros.
Qed.

(** The superblock is written: no inode yet. *)
Lemma first_files s :
  (forall k, m_img s k = zeros) -> m_len s = FSSIZE -> m_sb s = sb -> m_freeinode s = 1 -> m_freeblock s = nmeta ->
  let s1 := set_m_img (fun n => if n =? 1 then put_sb zeros sb else m_img s n) s in
  exists w, files s1 w [].
Proof.
  intros Hz Hl Hs Hi Hb s1. set (w := fset (m_img s1) 45 (mark (Z.to_nat nmeta) 0 zeros)). exists w.
  assert (Hw : forall n, n <> 1 -> n <> 45 -> w n = zeros).
  { intros n H1 H45. unfold w. rewrite fset_ne by done. simpl. destruct (Z.eqb_spec n 1); [done|apply Hz]. }
  assert (Hsb : block_ok (put_sb zeros sb)).
  { unfold put_sb. split; [by vm_compute|]. cbn [put_words]. do 8 apply put32_bytes. apply zeros_ok. }
  assert (Hd : forall i, 0 <= i < NINODES -> disk_inode sb w i = zero_dinode).
  { intros i Hi'. unfold disk_inode. pose proof (inode_block_range i Hi'). rewrite Hw by lia. apply zero_dinode_at. }
  pose proof nmeta_eq as En. split; try done.
  - split; cbn [m_len m_sb m_freeblock m_img set_m_img s1]; try done.
    + rewrite Hb, En. unfold FSSIZE. lia.
    + intros n Hn. unfold w. by rewrite fset_ne.
    + intros n. unfold w, fset. destruct (n =? 45); [apply bitmap_block; rewrite En; unfold BPB, BSIZE; lia|].
      simpl. destruct (n =? 1); [done|]. rewrite Hz. apply zeros_ok.
    + intros b Hb'. rewrite Hb. apply allocated_marked; [rewrite En; unfold BPB, BSIZE; lia|done|]. unfold w. apply fset_eq.
    + intros n Hn. rewrite Hb, En in Hn. apply Hw; lia.
    + intros n Hn. apply Hw; lia.
  - intros i. cbn [m_freeinode set_m_img s1]. rewrite Hi. intros. apply Hd. lia.
Qed.

(** * The root directory *)

Lemma concat_entry (L : list (list Z)) c j e i :
  Forall (fun x => length x = 16%nat) L -> L !! j = Some e -> (i < 16)%nat -> (concat L ++ c) !! (16 * j + i)%nat = e !! i.
Proof.
  intros HL. revert j. induction HL as [|x L Hx HL IH]; intros [|j] Hj Hi; simplify_eq/=.
  - rewrite <- (assoc_L (++)), lookup_app_l by lia. done.
  - rewrite <- (assoc_L (++)), lookup_app_r by lia. rewrite <- (IH j) by done. f_equal. lia.
Qed.

Lemma dirents_entry v d (L : list (list Z)) c j e :
  file_ok v d (concat L ++ c) -> Forall (fun x => length x = 16%nat) L -> L !! j = Some e -> dirents v d !! j = Some e.
Proof.
  intros Hf HL Hj.
  assert (Hlen : length (concat L) = (16 * length L)%nat).
  { clear -HL. induction HL as [|x L Hx HL IH]; simpl; [done|]. rewrite length_app. lia. }
  pose proof (fk_size _ _ _ Hf) as Hs. rewrite length_app, Hlen in Hs. pose proof (lookup_lt_Some _ _ _ Hj) as Hlt.
  pose proof (io_size _ _ _ (fk_inode _ _ _ Hf)) as Hsz.
  assert (He : length e = 16%nat) by (by apply (Forall_lookup_1 _ _ _ _ HL Hj)).
  rewrite lookup_dirents by (unfold DIRENT; Z.div_mod_to_equations; lia). f_equal.
  apply list_eq. intros i. change (Z.to_nat DIRENT) with 16%nat. destruct (decide (i < 16)%nat) as [Hi|Hi].
  - rewrite lookup_fbytes, (fk_bytes _ _ _ Hf) by (done || unfold DIRENT; lia). unfold byte_at.
    replace (Z.to_nat (DIRENT * Z.of_nat j + Z.of_nat i)) with (16 * j + i)%nat by (unfold DIRENT; lia).
    rewrite (concat_entry L c j e i) by done. destruct (e !! i) eqn:Ei; [done|]. apply lookup_ge_None in Ei. lia.
  - rewrite !lookup_ge_None_2; [done| |]; rewrite ?length_fbytes; lia.
Qed.

(** The names of the root directory. *)
Definition names (args : list (list Z)) : list (list Z) := [46] :: [46; 46] :: (file_name <$> args).

Definition root_entries (args : list (list Z)) : list (list Z) :=
  new_dirent [46] 1 :: new_dirent [46; 46] 1 :: entries 2 args.

Lemma lookup_entries n args k a :
  args !! k = Some a -> entries n args !! k = Some (new_dirent (file_name a) (n + Z.of_nat k)).
Proof.
  revert n k. induction args as [|b args IH]; intros n [|k] Hk; simplify_eq/=; [by rewrite Z.add_0_r|].
  rewrite (IH (n + 1) k) by done. do 2 f_equal. lia.
Qed.

Lemma lookup_root_entries args j x :
  names args !! j = Some x -> root_entries args !! j = Some (new_dirent x (Z.max 1 (Z.of_nat j))).
Proof.
  intros Hj. destruct j as [|[|j]]; simplify_eq/=; [done|done|].
  apply list_lookup_fmap_Some in Hj as (a & -> & Ha). rewrite (lookup_entries _ _ _ a) by done.
  do 2 f_equal. lia.
Qed.

Lemma root_entries_length args : Forall (fun x => length x = 16%nat) (root_entries args).
Proof.
  repeat constructor; try apply length_new_dirent. generalize 2.
  induction args as [|a args IH]; intros n; constructor; [apply length_new_dirent|apply IH].
Qed.

Lemma root_find v d args c j x :
  file_ok v d (concat (root_entries args) ++ c) -> Forall (Forall is_byte) (names args) ->
  (forall i k y z, names args !! i = Some y -> names args !! k = Some z -> i <> k -> namecmp y z <> 0) ->
  names args !! j = Some x -> Z.of_nat (length args) + 2 <= NINODES ->
  exists de, dir_find v d x = Some (j, de) /\ de_inum de = Z.max 1 (Z.of_nat j).
Proof.
  intros Hf Hb Hne Hj Hn. exists (new_dirent x (Z.max 1 (Z.of_nat j))). pose proof (Forall_lookup_1 _ _ _ _ Hb Hj) as Hx.
  pose proof (lookup_lt_Some _ _ _ Hj) as Hlt. unfold names in Hlt. cbn [length] in Hlt. rewrite length_fmap in Hlt.
  destruct (new_dirent_match x (Z.max 1 (Z.of_nat j))) as [E1 E2]; [done|unfold NINODES in *; lia|].
  pose proof (root_entries_length args) as HL.
  split; [|done]. unfold dir_find. apply list_find_at; [|done|].
  - apply (dirents_entry v d (root_entries args) c); [done|done|]. by apply lookup_root_entries.
  - intros i y Hi Hij Hm. destruct (lookup_lt_is_Some_2 (names args) i) as [z Hz].
    { unfold names. cbn [length]. rewrite length_fmap. lia. }
    rewrite (dirents_entry v d (root_entries args) c i (new_dirent z (Z.max 1 (Z.of_nat i)))) in Hi
      by (done || by apply lookup_root_entries). simplify_eq.
    rewrite new_dirent_other in Hm; [done|by apply (Forall_lookup_1 _ _ _ _ Hb Hz)|]. apply (Hne j i); [done|done|lia].
Qed.

(** * The run *)

(** Arguments the image has room for, with names that differ in their first
    [DIRSIZ] characters.  The last block of the root directory is not full:
    see [round_root]. *)
Record mkfs_input (args data : list (list Z)) : Prop := {
  mi_files : Forall2 host_file args data;
  mi_args : Forall (fun a => Forall is_byte a /\ ~ ch_slash ∈ shortname a) args;
  mi_names : forall i j x y, names args !! i = Some x -> names args !! j = Some y -> i <> j -> namecmp x y <> 0;
  mi_count : Z.of_nat (length args) + 2 <= NINODES;
  mi_sizes : Forall (fun c => Z.of_nat (length c) <= MAXFILE * BSIZE) data;
  mi_room : cost (blocks_for (DIRENT * (Z.of_nat (length args) + 2))) + data_blocks data <= nblocks;
  mi_root : (DIRENT * (Z.of_nat (length args) + 2)) mod BSIZE <> 0;
}.

(** The image holds these files: each has its inode with its bytes, and the
    root directory leads to it. *)
Definition holds_files (v : Z -> list Z) (fb : Z) (args data : list (list Z)) : Prop :=
  exists root rc Gs, image v fb ((root, rc) :: Gs) /\ Forall2 plain Gs data /\ dir_ok sb v root /\ d_nlink root = 1 /\
    forall j x, names args !! j = Some x ->
      exists de, dir_find v root x = Some (j, de) /\ de_inum de = Z.max 1 (Z.of_nat j).

Lemma names_bytes args :
  Forall (fun a => Forall is_byte a /\ ~ ch_slash ∈ shortname a) args -> Forall (Forall is_byte) (names args).
Proof.
  intros H. unfold names. constructor; [by repeat constructor|]. constructor; [by repeat constructor|].
  apply Forall_fmap. eapply Forall_impl; [exact H|]. intros a [Ha _]. by apply file_name_bytes.
Qed.

Lemma add_dots s w d Q :
  files s w [(d, [])] -> d_type d = T_DIR -> d_nlink d = 1 ->
  (forall s' w' d', files s' w' [(d', concat [new_dirent [46] 1; new_dirent [46; 46] 1])] -> d_type d' = T_DIR ->
     d_nlink d' = 1 -> Q tt s') ->
  wp (iappend 1 (dirent 1 [46]) DIRENT;; iappend 1 (dirent 1 [46; 46]) DIRENT) s Q.
Proof.
  intros HF HT HN HQ. rewrite !dirent_eq by done.
  assert (Hb : forall n, Forall is_byte n -> Forall is_byte (new_dirent n 1)) by (intros; by apply new_dirent_bytes).
  pose proof nmeta_eq as En.
  assert (El : forall n, length (new_dirent n 1) = 16%nat) by (intros; apply length_new_dirent).
  change DIRENT with (Z.of_nat 16). apply wp_bind. rewrite <- (El [46]) at 1.
  apply (iappend_ok s w [(d, [])] 0 d []); [done|done|apply Hb; by repeat constructor| | |].
  { cbn [app]. rewrite El. sizes. lia. }
  { cbn [app usage length]. rewrite El, En. by vm_compute. }
  intros s1 w1 d1 F1 T1 N1. cbn [app] in F1.
  change (<[0%nat := (d1, new_dirent [46] 1)]> [(d, [] : list Z)]) with [(d1, new_dirent [46] 1)] in F1.
  rewrite <- (El [46; 46]) at 1.
  apply (iappend_ok s1 w1 [(d1, new_dirent [46] 1)] 0 d1 (new_dirent [46] 1)); [done|done|apply Hb; by repeat constructor| | |].
  { rewrite length_app, !El. sizes. lia. }
  { cbn [usage]. rewrite length_app, !El, En. by vm_compute. }
  intros s2 w2 d2 F2 T2 N2. apply (HQ s2 w2 d2); [|congruence|congruence].
  change (<[0%nat := (d2, new_dirent [46] 1 ++ new_dirent [46; 46] 1)]> [(d1, new_dirent [46] 1)])
    with [(d2, new_dirent [46] 1 ++ new_dirent [46; 46] 1)] in F2. cbn [concat]. by rewrite app_nil_r.
Qed.

(** The rest of [main], from the root directory with its two entries. *)
Lemma finish_ok s w d args data Q :
  files s w [(d, concat [new_dirent [46] 1; new_dirent [46; 46] 1])] -> d_type d = T_DIR -> d_nlink d = 1 ->
  mkfs_input args data ->
  (forall s', holds_files (m_img s') (m_freeblock s') args data -> m_freeblock s' <= FSSIZE -> Q tt s') ->
  wp (add_files 1 args;; round_root 1;; b ← gets m_freeblock; balloc b) s Q.
Proof.
  intros HF HT HN [I1 I2 I3 I4 I5 I6 I7] HQ. set (dots := [new_dirent [46] 1; new_dirent [46; 46] 1]) in *.
  assert (Erc : concat dots ++ concat (entries 2 args) = concat (root_entries args)).
  { unfold dots, root_entries. cbn [concat]. by rewrite app_nil_r, <- (assoc_L (++)). }
  assert (Hlen : Z.of_nat (length (concat (root_entries args))) = DIRENT * (Z.of_nat (length args) + 2)).
  { rewrite <- Erc, length_app, Nat2Z.inj_add, length_entries. unfold dots. cbn [concat].
    rewrite app_nil_r, length_app, !length_new_dirent. unfold DIRENT. lia. }
  unfold nblocks in I6. unfold NINODES in I4.
  apply wp_bind. apply (add_files_ok args data s w d (concat dots) []); change (2 + Z.of_nat (length [])) with 2;
    rewrite ?Erc, ?Hlen; try done; [unfold NINODES; lia|unfold DIRENT; sizes; lia|simpl; lia|].
  cbn [app]. intros s1 w1 d1 Gs F1 T1 N1 HG. apply wp_bind.
  destruct (fl_inode _ _ _ F1 0%nat d1 _ eq_refl) as [_ Hf1]. pose proof (fk_size _ _ _ Hf1) as Hs1. rewrite Hlen in Hs1.
  eapply (round_root_ok s1 w1 _ d1); [exact F1|done|by rewrite Hs1|rewrite Hs1; unfold DIRENT; sizes; lia|].
  intros s2 w2 d2 p F2 T2 N2 Hs2.
  change (<[0%nat := (d2, concat (root_entries args) ++ replicate p 0)]> ((d1, concat (root_entries args)) :: Gs))
    with ((d2, concat (root_entries args) ++ replicate p 0) :: Gs) in F2.
  apply wp_bind, wp_gets. apply (balloc_finish s2 w2 _ _ F2). intros s' Him Hfo Hfb.
  pose proof (vw_free _ _ (fl_view _ _ _ F2)) as Hfr. rewrite <- Hfb in Him, Hfr. apply HQ; [|lia].
  pose proof (Hfo 0%nat d2 _ eq_refl) as Hf2.
  exists d2, (concat (root_entries args) ++ replicate p 0), Gs. split_and!; [done|done| |congruence|].
  - split; [apply Hf2|congruence|]. rewrite Hs2. unfold DIRENT, BSIZE. Z.div_mod_to_equations; lia.
  - intros j x Hj. eapply root_find; [exact Hf2|by apply names_bytes|done|done|unfold NINODES; lia].
Qed.

(** C22: [mkfs] makes a file system the kernel accepts: given files that fit,
    it ends, and on the image it leaves the kernel reads the superblock of
    the layout [fs.c] relies on, an empty log and a bitmap that marks exactly
    the blocks handed out; every file has an inode of its own with its bytes
    and no block in common with another, every other inode is free, and the
    root directory is well formed and leads from each name to its inode. *)
Theorem mkfs_makes_fs img args data :
  create_image img = true -> mkfs_input args data ->
  wp (main (img :: args)) mkfs_start (fun _ s => sb_ok sb_ex /\ m_freeblock s <= FSSIZE /\
    holds_files (m_img s) (m_freeblock s) args data).
Proof.
  intros Hc Hin. unfold main. rewrite Hc. do 3 (apply wp_bind, wp_ret). apply wp_bind, wp_modify, wp_bind, wp_modify.
  apply wp_bind. apply zero_image_ok; [done|done|done|done|]. intros s0 Z1 Z2 Z3 Z4 Z5.
  cbn [m_sb m_freeinode m_freeblock set_m_freeblock set_m_sb mkfs_start] in Z3, Z4, Z5. rewrite new_sb_eq in Z3.
  apply wp_bind, wp_gets. rewrite Z3. apply wp_bind, wp_modify. change (sector 1) with 1.
  replace (Z.max (m_len s0) (1 + 1)) with (m_len s0) by (rewrite Z2; by vm_compute).
  destruct (first_files s0 Z1 Z2 Z3 Z4 Z5) as [w F0].
  apply wp_bind. eapply (ialloc_files_ok _ w []); [|done|done|]; [destruct s0; exact F0|].
  intros s1 w1 F1. cbn [app] in F1. change (1 + Z.of_nat (length [])) with 1. apply wp_bind, wp_ret.
  apply wp_assoc, wp_bind. apply (add_dots s1 w1 (fresh_dinode T_DIR)); [done|done|done|].
  intros s2 w2 d2 F2 T2 N2. eapply finish_ok; [exact F2|done|done|done|].
  intros s' Hh Hf. split_and!; [apply sb_ex_ok|done|done].
Qed.
End adding.

(** Two files, [user/_sh] of 2500 bytes in three reads and [README] of five
    bytes. *)
Definition arg_sh : list Z := user_slash ++ [95; 115; 104].
Definition arg_readme : list Z := [82; 69; 65; 68; 77; 69].

Definition reads_sh : list (list Z) := [replicate 1024 7; replicate 1024 8; replicate 452 9].

#[export] Instance host_ex : Host := {|
  create_image := fun _ => true;
  file_reads := fun a => if decide (a = arg_sh) then Some reads_sh
    else if decide (a = arg_readme) then Some [[1; 2; 3; 4; 5]] else None;
|}.

Lemma bytes_decide l : forallb (fun x => (0 <=? x) && (x <? 256)) l = true -> Forall is_byte l.
Proof. intros H. rewrite forallb_forall in H. apply Forall_forall. intros x Hx%list_elem_of_In. apply H in Hx. unfold is_byte. lia. Qed.

Lemma input_ex : mkfs_input [arg_sh; arg_readme] [concat reads_sh; [1; 2; 3; 4; 5]].
Proof.
  split; try done.
  - constructor; [exists reads_sh|constructor; [exists [[1; 2; 3; 4; 5]]|done]].
    + split_and!; [done|done|]. unfold reads_sh. repeat constructor; simpl; try (unfold BSIZE; lia); by apply Forall_replicate.
    + split_and!; [done|done|]. repeat constructor; simpl; unfold BSIZE; lia.
  - constructor; [|constructor; [|done]]; (split; [apply bytes_decide; by vm_compute|]); by apply (bool_decide_unpack _); vm_compute.
  - assert (H : forall i j, (i < 4)%nat -> (j < 4)%nat -> i <> j -> forall x y, names [arg_sh; arg_readme] !! i = Some x ->
      names [arg_sh; arg_readme] !! j = Some y -> namecmp x y <> 0).
    { intros [|[|[|[|i]]]] [|[|[|[|j]]]] Hi Hj Hne x y Hx Hy; try lia; simplify_eq/=; by vm_compute. }
    intros i j x y Hi Hj Hne. apply (H i j); try done; [apply lookup_lt_Some in Hi|apply lookup_lt_Some in Hj]; done.
  - repeat constructor; vm_compute; done.
Qed.

Lemma mkfs_makes_fs_witness :
  wp (main [[105; 109; 103]; arg_sh; arg_readme]) mkfs_start (fun _ s => sb_ok sb_ex /\ m_freeblock s <= FSSIZE /\
    holds_files (m_img s) (m_freeblock s) [arg_sh; arg_readme] [concat reads_sh; [1; 2; 3; 4; 5]]).
Proof. apply (mkfs_makes_fs [105; 109; 103]); [done|apply input_ex]. Defined.
