(* ===== verification/Pipe.v ===== *)
(** Pipes, [kernel/pipe.c].  [pipealloc] is in [File], with the file table it
    uses. *)

From S2P Require Import Prelude Ring CString Layout Kalloc Vm VmExample Sleeplock Bio Log Kernel UserMem Sched KernelExample.

Section pipe.
Context `{KE : KernelEnd, PL : Platform}.

Definition the_pipe (a : Z) : M kernel pipe := gets (fun s => k_pipes s a).

(** [pi->data[i % PIPESIZE]] *)
Definition pipe_at (pi : pipe) (i : Z) : Z := default 0 (pi_data pi !! Z.to_nat (i mod PIPESIZE)).

Definition pipeclose (pi : Z) (writable : bool) : M kernel unit :=
  (if writable then
     modify (set_pipe pi (set_pi_writeopen 0));;
     wakeup (ChanPipeRead pi)
   else
     modify (set_pipe pi (set_pi_readopen 0));;
     wakeup (ChanPipeWrite pi));;
  p ← the_pipe pi;
  when ((pi_readopen p =? 0) && (pi_writeopen p =? 0)) (vm (kfree kend pi)).

(** One pass of the loop of [pipewrite]: [inr None] is the error return. *)
Definition pipewrite_body (pi addr n : Z) (i : Z) : M kernel (Z + option Z) :=
  if i <? n then
    pr ← myproc;
    q ← the_proc pr;
    p ← the_pipe pi;
    k ← killed pr;
    if (pi_readopen p =? 0) || ctrue k then mret (inr None)
    else if pi_nwrite p =? u32 (pi_nread p + PIPESIZE) then
      wakeup (ChanPipeRead pi);;
      sleep (ChanPipeWrite pi)
    else
      '(r, l) ← copyin_local (p_pagetable q) (u64 (addr + i)) 1;
      if r =? -1 then mret (inr (Some i))
      else
        let ch := default 0 (head l) in
        modify (set_pipe pi (fun p =>
          set_pi_data (<[Z.to_nat (pi_nwrite p mod PIPESIZE) := ch]> (pi_data p)) p));;
        modify (set_pipe pi (fun p => set_pi_nwrite (u32 (pi_nwrite p + 1)) p));;
        mret (inl (i + 1))
  else mret (inr (Some i)).

Definition pipewrite (pi addr n : Z) : M kernel Z :=
  r ← loop (Z.to_nat n + 1) (pipewrite_body pi addr n) 0;
  match r with
  | None => mret (-1)
  | Some i => wakeup (ChanPipeRead pi);; mret i
  end.

(** One pass of the copying loop of [piperead]. *)
Definition piperead_body (pi addr n : Z) (i : Z) : M kernel (Z + Z) :=
  if i <? n then
    pr ← myproc;
    q ← the_proc pr;
    p ← the_pipe pi;
    if pi_nread p =? pi_nwrite p then mret (inr i)
    else
      let ch := pipe_at p (pi_nread p) in
      modify (set_pipe pi (fun p => set_pi_nread (u32 (pi_nread p + 1)) p));;
      r ← copyout_local (p_pagetable q) (u64 (addr + i)) [ch];
      if r =? -1 then mret (inr i) else mret (inl (i + 1))
  else mret (inr i).

Definition piperead (pi addr n : Z) : M kernel Z :=
  pr ← myproc;
  p ← the_pipe pi;
  k ← killed pr;
  if (pi_nread p =? pi_nwrite p) && ctrue (pi_writeopen p) then
    if ctrue k then mret (-1) else sleep (ChanPipeRead pi)
  else
    i ← loop (Z.to_nat n + 1) (piperead_body pi addr n) 0;
    wakeup (ChanPipeWrite pi);;
    mret i.

(** * A pipe as a queue of bytes *)

Record pipe_rep (p : pipe) (q : list Z) : Prop := {
  pr_ring : ring_rep PIPESIZE (2 ^ 32) (pi_data p) (pi_nread p) (pi_nwrite p) q;
  pr_bytes : Forall (fun b => 0 <= b < 256) q;
}.

Lemma pipe_size : 0 < PIPESIZE < 2 ^ 32 /\ (PIPESIZE | 2 ^ 32).
Proof. split; [done|]. by exists (2 ^ 23). Qed.

Lemma pipe_max p q : pipe_rep p q -> Z.of_nat (length q) <= PIPESIZE.
Proof. intros [H _]. by eapply rg_max. Qed.

Lemma pipe_empty p q : pipe_rep p q -> pi_nread p = pi_nwrite p <-> q = [].
Proof. intros [H _]. by eapply ring_empty. Qed.

Lemma pipe_full p q :
  pipe_rep p q -> pi_nwrite p = u32 (pi_nread p + PIPESIZE) <-> Z.of_nat (length q) = PIPESIZE.
Proof. intros [H _]. by eapply ring_full; [apply pipe_size..|]. Qed.

Lemma pipe_push p q ch :
  pipe_rep p q -> Z.of_nat (length q) < PIPESIZE -> 0 <= ch < 256 ->
  pipe_rep (set_pi_nwrite (u32 (pi_nwrite p + 1))
    (set_pi_data (<[Z.to_nat (pi_nwrite p mod PIPESIZE) := ch]> (pi_data p)) p)) (q ++ [ch]).
Proof.
  intros [H Hb] Hlt Hch. split.
  - by apply ring_push; [apply pipe_size..|done|].
  - apply Forall_app_2; [done|]. by apply Forall_singleton.
Qed.

Lemma pipe_pop p ch q :
  pipe_rep p (ch :: q) ->
  pipe_at p (pi_nread p) = ch /\ pipe_rep (set_pi_nread (u32 (pi_nread p + 1)) p) q.
Proof.
  intros [H Hb]. destruct (ring_pop _ _ (proj1 pipe_size) (proj2 pipe_size) _ _ _ _ _ H) as [E H'].
  split; [unfold pipe_at; by rewrite E|]. split; [done|]. by apply Forall_cons in Hb as [_ ?].
Qed.

(** * Writing *)

Context {UM : UserMem}.

(** [s'] is [s] with another memory and other pipes. *)
Definition piped (s : kernel) (km : kmem) (pp : Z -> pipe) : kernel :=
  set_k_pipes pp (set_k_km km s).

Section io.
Variables (s : kernel) (p : nat) (pi addr : Z) (um : Z -> option Z).
Hypothesis Hcur : k_cur s = Some p.
Abbreviation pt := (p_pagetable (k_procs s p)).

Definition write_inv (q bs : list Z) (i : Z) (s1 : kernel) : Prop :=
  exists km pp, s1 = piped s km pp /\ um_rep km pt um /\
    pi_readopen (pp pi) = pi_readopen (k_pipes s pi) /\
    0 <= i <= Z.of_nat (length bs) /\ pipe_rep (pp pi) (q ++ take (Z.to_nat i) bs).

Lemma user_byte_range q a : um_rep q pt um -> is_Some (um a) -> 0 <= a < 2 ^ 48 /\ u64 a = a.
Proof.
  intros HU [b Hb]. destruct (um_byte _ _ _ _ _ HU Hb) as [H _]. unfold MAXVA in H.
  split; [lia|]. apply u64_small. lia.
Qed.

Lemma pipewrite_step q bs i s1 :
  p_killed (k_procs s p) = 0 -> pi_readopen (k_pipes s pi) <> 0 -> user_bytes um addr bs ->
  write_inv q bs i s1 ->
  wps (pipewrite_body pi addr (Z.of_nat (length bs)) i) s1
    (fun r s2 => match r with
       | inl i' => i' = i + 1 /\ i < Z.of_nat (length bs) /\ write_inv q bs i' s2
       | inr r => r = Some (Z.of_nat (length bs)) /\ write_inv q bs (Z.of_nat (length bs)) s2
       end)
    (fun ch s2 => ch = ChanPipeWrite pi /\ i < Z.of_nat (length bs) /\
       Z.of_nat (length q) + i = PIPESIZE /\
       exists s1', write_inv q bs i s1' /\ exists s1'', with_procs s1' (fun p' =>
         if decide (p' < NPROC)%nat then woken (Some p) (ChanPipeRead pi) p' (k_procs s1' p')
         else k_procs s1' p') s1'' /\
       s2 = set_proc p (set_p_state SLEEPING) (set_proc p (set_p_chan (Some ch)) s1'')).
Proof.
  intros Hk Hro Hbs HI. pose proof HI as (km & pp & E1 & HU & Er & Hi & HP). unfold pipewrite_body.
  destruct (Z.ltb_spec i (Z.of_nat (length bs))) as [Hlt|Hge]; cycle 1.
  { wps_steps. assert (i = Z.of_nat (length bs)) as -> by lia. done. }
  assert (Ecur : k_cur s1 = Some p) by (by subst).
  apply wps_bind. eapply wps_wp, wp_myproc; [done|]. wps_steps. subst s1. simpl in *.
  rewrite Er. destruct (Z.eqb_spec (pi_readopen (k_pipes s pi)) 0) as [|_]; [done|].
  rewrite Hk. simpl.
  pose proof (pipe_full _ _ HP) as Hfull. rewrite length_app, length_take in Hfull.
  destruct (Z.eqb_spec (pi_nwrite (pp pi)) (u32 (pi_nread (pp pi) + PIPESIZE))) as [E|E].
  - apply wps_bind, wps_wp. eapply wp_mono; [apply wakeup_ok|]. intros [] s2 Hw.
    unfold sleep. apply wps_bind. eapply wps_wp, wp_myproc.
    { destruct Hw as (pr & -> & _). exact Hcur. }
    wps_steps. apply wps_sleep. split_and!; [done|done|lia|].
    exists (piped s km pp). split; [done|]. exists s2. split; [|done].
    eapply with_procs_ext; [exact Hw|]. intros p'. simpl. by rewrite Hcur.
  - assert (Hb : is_Some (bs !! Z.to_nat i)) by (apply lookup_lt_is_Some; lia).
    destruct Hb as [b Hb].
    assert (Hum : um (addr + i) = Some b).
    { replace i with (Z.of_nat (Z.to_nat i)) by lia. by apply Hbs. }
    destruct (user_byte_range km (addr + i)) as [Hr ->]; [done|by rewrite Hum|].
    apply wps_bind, wps_wp, (copyin_local_ok _ _ um); [done|lia|done|..].
    + intros k l HU' Hl Hul. destruct l as [|b' [|]]; [done| |done]. simpl.
      assert (b' = b) as ->.
      { specialize (Hul 0%nat b' eq_refl). rewrite Z.add_0_r in Hul. congruence. }
      wps_steps. split_and!; [done|done|].
      exists k, (k_pipes (set_pipe pi (fun p => set_pi_nwrite (u32 (pi_nwrite p + 1)) p)
        (set_pipe pi (fun p => set_pi_data (<[Z.to_nat (pi_nwrite p mod PIPESIZE) := b]> (pi_data p)) p)
           (piped s km pp)))).
      split_and!; [done|done|by simpl; rewrite !Z.eqb_refl|lia|lia|]. simpl. rewrite !Z.eqb_refl.
      replace (Z.to_nat (i + 1)) with (S (Z.to_nat i)) by lia.
      rewrite (take_S_r _ _ _ Hb), app_assoc. apply (pipe_push (pp pi)); [done| |by apply (um_byte _ _ _ _ _ HU Hum)].
      rewrite length_app, length_take. pose proof (pipe_max _ _ HP) as Hm.
      rewrite length_app, length_take in Hm. lia.
    + intros k l j _ Hj Hn. assert (j = 0) as -> by lia. rewrite Z.add_0_r in Hn. congruence.
Qed.

(** * Reading *)

Definition read_inv (q : list Z) (i : Z) (s1 : kernel) : Prop :=
  exists km pp, s1 = piped s km pp /\ um_rep km pt (user_write um addr (take (Z.to_nat i) q)) /\
    0 <= i <= Z.of_nat (length q) /\ pipe_rep (pp pi) (drop (Z.to_nat i) q).

Lemma piperead_step q n i s1 :
  (forall j, 0 <= j < Z.min n (Z.of_nat (length q)) -> is_Some (um (addr + j))) ->
  i <= n -> read_inv q i s1 ->
  wp (piperead_body pi addr n i) s1 (fun r s2 => match r with
       | inl i' => i' = i + 1 /\ i < n /\ read_inv q i' s2
       | inr r => r = Z.min n (Z.of_nat (length q)) /\ read_inv q r s2
       end).
Proof.
  intros Hmap Hin HI. pose proof HI as (km & pp & E1 & HU & Hi & HP). unfold piperead_body.
  destruct (Z.ltb_spec i n) as [Hlt|Hge]; cycle 1.
  { wp_steps. by rewrite Z.min_l, (Z.le_antisymm n i) by lia. }
  assert (Ecur : k_cur s1 = Some p) by (by subst).
  apply wp_bind. eapply wp_myproc; [done|]. wp_steps. subst s1. simpl in *.
  pose proof (pipe_empty _ _ HP) as He.
  destruct (drop (Z.to_nat i) q) as [|ch q'] eqn:Ed.
  { rewrite (proj2 (Z.eqb_eq _ _)) by (by apply He). wp_steps.
    assert (Z.of_nat (length q) = i) by (apply (f_equal length) in Ed; rewrite length_drop in Ed; simpl in Ed; lia).
    by rewrite Z.min_r, H by lia. }
  rewrite (proj2 (Z.eqb_neq _ _)) by (by rewrite He).
  destruct (pipe_pop _ _ _ HP) as [Ech HP']. rewrite Ech. wp_steps.
  assert (Hl : i < Z.of_nat (length q)).
  { apply (f_equal length) in Ed. rewrite length_drop in Ed. simpl in Ed. lia. }
  assert (Hch : q !! Z.to_nat i = Some ch).
  { rewrite <- (Nat.add_0_r (Z.to_nat i)), <- lookup_drop, Ed. done. }
  destruct (Hmap i) as [b Hb]; [lia|].
  assert (Hb' : is_Some (user_write um addr (take (Z.to_nat i) q) (addr + i))).
  { unfold user_write. by rewrite Hb. }
  assert (Hr : 0 <= addr + i < 2 ^ 48 /\ u64 (addr + i) = addr + i).
  { destruct Hb' as [b' Hb']. destruct (um_byte _ _ _ _ _ HU Hb') as [H _]. unfold MAXVA in H.
    split; [lia|]. apply u64_small. lia. }
  destruct Hr as [Hr ->].
  assert (Hcb : 0 <= ch < 256) by (by destruct (Forall_cons_1 _ _ _ (pr_bytes _ _ HP))).
  eapply (copyout_local_ok _ _ (user_write um addr (take (Z.to_nat i) q)));
    [done|lia|done|by apply Forall_singleton|..].
  - intros k HU' _. wp_steps. split_and!; [done|done|].
    exists k, (k_pipes (set_pipe pi (fun p => set_pi_nread (u32 (pi_nread p + 1)) p) (piped s km pp))).
    split_and!; [done| |lia|lia|].
    + replace (Z.to_nat (i + 1)) with (S (Z.to_nat i)) by lia.
      rewrite (take_S_r _ _ _ Hch), <- user_write_app, length_take.
      by replace (addr + Z.of_nat (Z.to_nat i `min` length q)) with (addr + i) by lia.
    + simpl. rewrite Z.eqb_refl. replace (Z.to_nat (i + 1)) with (S (Z.to_nat i)) by lia.
      rewrite (drop_S _ _ _ Hch) in Ed. injection Ed as ->. done.
  - intros k j Hj Hn _. assert (j = 0) as -> by (simpl in Hj; lia).
    rewrite Z.add_0_r in Hn. rewrite Hn in Hb'. by destruct Hb'.
Qed.

(** The loops. *)
Lemma pipewrite_loop q bs :
  p_killed (k_procs s p) = 0 -> pi_readopen (k_pipes s pi) <> 0 -> user_bytes um addr bs ->
  um_rep (k_km s) pt um -> pipe_rep (k_pipes s pi) q ->
  wps (loop (length bs + 1) (pipewrite_body pi addr (Z.of_nat (length bs))) 0) s
    (fun r s2 => r = Some (Z.of_nat (length bs)) /\ write_inv q bs (Z.of_nat (length bs)) s2)
    (fun ch s2 => ch = ChanPipeWrite pi /\ PIPESIZE < Z.of_nat (length q + length bs) /\
       exists s1', write_inv q bs (PIPESIZE - Z.of_nat (length q)) s1' /\ exists s1'',
         with_procs s1' (fun p' =>
           if decide (p' < NPROC)%nat then woken (Some p) (ChanPipeRead pi) p' (k_procs s1' p')
           else k_procs s1' p') s1'' /\
       s2 = set_proc p (set_p_state SLEEPING) (set_proc p (set_p_chan (Some ch)) s1'')).
Proof.
  intros Hk Hro Hbs HU HP.
  apply (wps_loop (write_inv q bs) (fun i _ => Z.to_nat (Z.of_nat (length bs) - i))).
  - intros i s1 HI. eapply wps_mono; [by apply pipewrite_step| |].
    + intros [i'|r] s2; [|done]. intros (-> & Hlt & HI'). split; [done|].
      destruct HI as (? & ? & _ & _ & _ & ? & _). lia.
    + intros ch s2 (-> & Hlt & E & H). split_and!; [done|lia|].
      by replace (PIPESIZE - Z.of_nat (length q)) with i by lia.
  - exists (k_km s), (k_pipes s). split_and!; [by destruct s|done|done|lia|lia|].
    by rewrite app_nil_r.
  - lia.
Qed.

Lemma piperead_loop q n :
  0 <= n -> um_rep (k_km s) pt um -> pipe_rep (k_pipes s pi) q ->
  (forall j, 0 <= j < Z.min n (Z.of_nat (length q)) -> is_Some (um (addr + j))) ->
  wp (loop (Z.to_nat n + 1) (piperead_body pi addr n) 0) s (fun r s2 =>
    r = Z.min n (Z.of_nat (length q)) /\ read_inv q r s2).
Proof.
  intros Hn HU HP Hmap.
  apply (wp_loop (fun i s1 => i <= n /\ read_inv q i s1) (fun i _ => Z.to_nat (n - i))).
  - intros i s1 [Hin HI]. eapply wp_mono; [by apply (piperead_step q n i s1)|].
    intros [i'|r] s2; [|done]. intros (-> & Hlt & HI'). split_and!; [lia|done|].
    destruct HI as (? & ? & _ & _ & ? & _). lia.
  - split; [done|]. exists (k_km s), (k_pipes s). split_and!; [by destruct s| |lia|lia|done].
    by rewrite user_write_nil.
  - lia.
Qed.
End io.

(** C24: [pipewrite] by a process that is not killed, to a pipe whose read end
    is open, appends the user's bytes in order to the pipe's queue and makes
    the waiting readers runnable; if the bytes do not all fit, the queue is
    filled to its [PIPESIZE] bytes, the readers are made runnable, and the
    writer sleeps on the pipe. *)
Theorem pipewrite_queues s p pi addr um q bs :
  k_cur s = Some p -> p_killed (k_procs s p) = 0 -> pi_readopen (k_pipes s pi) <> 0 ->
  um_rep (k_km s) (p_pagetable (k_procs s p)) um -> user_bytes um addr bs ->
  pipe_rep (k_pipes s pi) q ->
  wps (pipewrite pi addr (Z.of_nat (length bs))) s
    (fun r s' => r = Z.of_nat (length bs) /\ Z.of_nat (length q + length bs) <= PIPESIZE /\
       pipe_rep (k_pipes s' pi) (q ++ bs) /\ um_rep (k_km s') (p_pagetable (k_procs s p)) um /\
       forall p', (p' < NPROC)%nat ->
         k_procs s' p' = woken (Some p) (ChanPipeRead pi) p' (k_procs s p'))
    (fun ch s' => ch = ChanPipeWrite pi /\ PIPESIZE < Z.of_nat (length q + length bs) /\
       pipe_rep (k_pipes s' pi) (q ++ take (Z.to_nat PIPESIZE - length q) bs) /\
       p_state (k_procs s' p) = SLEEPING /\ p_chan (k_procs s' p) = Some ch /\
       forall p', (p' < NPROC)%nat -> p' <> p ->
         k_procs s' p' = woken (Some p) (ChanPipeRead pi) p' (k_procs s p')).
Proof.
  intros Hcur Hk Hro HU Hbs HP. unfold pipewrite. rewrite Nat2Z.id. apply wps_bind.
  eapply wps_mono; [by apply (pipewrite_loop s p pi addr um Hcur q bs)| |].
  - intros r s1 [-> (km & pp & -> & HU1 & _ & _ & HP1)]. wps_steps. apply wps_wp.
    eapply wp_mono; [apply wakeup_ok|]. intros [] s2 (pr & -> & Hpr). wps_steps.
    rewrite Nat2Z.id, firstn_all in HP1. split_and!; try done.
    + pose proof (pipe_max _ _ HP1) as H. by rewrite length_app in H.
    + intros p' Hp'. rewrite Hpr. simpl. rewrite decide_True by done. by rewrite Hcur.
  - intros ch s1 (-> & Hlt & s2 & (km & pp & -> & HU1 & _ & Hi & HP1) & s3 & (pr & -> & Hpr) & ->).
    simpl. split_and!; [done|done| | | |].
    + by replace (Z.to_nat PIPESIZE - length q)%nat with (Z.to_nat (PIPESIZE - Z.of_nat (length q))) by lia.
    + unfold upd. by rewrite !decide_True.
    + unfold upd. by rewrite !decide_True.
    + intros p' Hp' Hne. unfold upd. rewrite !decide_False by done. rewrite Hpr. simpl.
      by rewrite decide_True.
Qed.

(** C25: [piperead] from a pipe that has bytes, or whose write end is closed,
    takes the oldest bytes of the queue, as many as asked for or are there,
    puts them in order into the user's memory, leaves the rest queued and makes
    the waiting writers runnable. *)
Theorem piperead_dequeues s p pi addr um q n :
  k_cur s = Some p -> 0 <= n ->
  um_rep (k_km s) (p_pagetable (k_procs s p)) um -> pipe_rep (k_pipes s pi) q ->
  (q <> [] \/ pi_writeopen (k_pipes s pi) = 0) ->
  (forall j, 0 <= j < Z.min n (Z.of_nat (length q)) -> is_Some (um (addr + j))) ->
  wp (piperead pi addr n) s (fun r s' => r = Z.min n (Z.of_nat (length q)) /\
    um_rep (k_km s') (p_pagetable (k_procs s p)) (user_write um addr (take (Z.to_nat n) q)) /\
    pipe_rep (k_pipes s' pi) (drop (Z.to_nat n) q) /\
    forall p', (p' < NPROC)%nat ->
      k_procs s' p' = woken (Some p) (ChanPipeWrite pi) p' (k_procs s p')).
Proof.
  intros Hcur Hn HU HP Hne Hmap. unfold piperead. apply wp_bind. eapply wp_myproc; [done|].
  wp_steps. replace (_ && _) with false; cycle 1.
  { symmetry. apply andb_false_iff. destruct Hne as [Hne|Hne]; [left|right; by rewrite Hne].
    apply Z.eqb_neq. by rewrite (pipe_empty _ _ HP). }
  apply wp_bind. eapply wp_mono; [by apply (piperead_loop s p pi addr um Hcur q n)|].
  intros r s1 (-> & km & pp & -> & HU1 & Hi & HP1). wp_steps.
  eapply wp_mono; [apply wakeup_ok|]. intros [] s2 (pr & -> & Hpr). wp_steps.
  assert (Ht : take (Z.to_nat (Z.min n (Z.of_nat (length q)))) q = take (Z.to_nat n) q /\
               drop (Z.to_nat (Z.min n (Z.of_nat (length q)))) q = drop (Z.to_nat n) q).
  { destruct (Z.min_spec n (Z.of_nat (length q))) as [[? ->]|[? ->]]; [done|].
    by rewrite Nat2Z.id, firstn_all, take_ge, drop_all, drop_ge by lia. }
  destruct Ht as [Ht Hd]. rewrite Ht in HU1. rewrite Hd in HP1.
  split_and!; try done. intros p' Hp'. rewrite Hpr. simpl. rewrite decide_True by done. by rewrite Hcur.
Qed.
End pipe.

#[local] Existing Instance kernel_ex.
#[local] Existing Instance platform_ex.

Lemma pipe_zero_rep : pipe_rep pipe_zero [].
Proof. split; [by split|done]. Qed.

Lemma pipewrite_queues_witness :
  wps (pipewrite 0 100 3) kernel0
    (fun r s' => r = 3 /\ pipe_rep (k_pipes s' 0) [0; 0; 0]) (fun _ _ => False).
Proof.
  eapply wps_mono; [apply (pipewrite_queues kernel0 0 0 100 (ubyte (km_mem mapped_ex) root_ex) [] [0; 0; 0])| |].
  - done.
  - done.
  - done.
  - apply mapped_ex_rep.
  - intros i b Hb. pose proof (lookup_lt_Some _ _ _ Hb) as Hi. simpl in Hi.
    rewrite mapped_ex_byte by lia. by destruct i as [|[|[|]]]; simplify_eq/=.
  - apply pipe_zero_rep.
  - intros r s' (-> & _ & H & _). done.
  - intros ch s' (_ & H & _). by vm_compute in H.
Defined.

Lemma piperead_dequeues_witness :
  wp (piperead 0 100 2) (set_k_pipes (fun _ => Pipe ([7; 8; 9] ++ replicate 509 0) 0 3 1 1) kernel0)
    (fun r s' => r = 2 /\ pipe_rep (k_pipes s' 0) [9]).
Proof.
  eapply wp_mono; [apply (piperead_dequeues _ 0 0 100 (ubyte (km_mem mapped_ex) root_ex) [7; 8; 9])|].
  - done.
  - done.
  - apply mapped_ex_rep.
  - split; [split; try done|by repeat constructor].
    intros i b Hb. by destruct i as [|[|[|]]]; simplify_eq/=.
  - by left.
  - intros j Hj. simpl in Hj. rewrite mapped_ex_byte by lia. done.
  - intros r s' (-> & _ & H & _). done.
Defined.
