(* ===== verification/File.v ===== *)
(** Open files, [kernel/file.c], with [pipealloc] of [kernel/pipe.c].  A
    pointer to an open file is its index in [ftable]. *)

From S2P Require Import Prelude CString Layout Kalloc Vm Sleeplock Bio Log Kernel Sched Uart Printf Console Fs Pipe.

Section file.
Context `{KE : KernelEnd, PL : Platform}.

Definition the_file (f : nat) : M kernel file := gets (fun s => k_ftable s f).

(** [begin_op] and [end_op] for the running process; [end_op] wakes the
    processes that wait for the log. *)
Definition begin_op_k : M kernel unit := fl begin_op.
Definition end_op_k : M kernel unit := fl end_op;; wakeup ChanLog.

Fixpoint filealloc_loop (n : nat) (f : nat) : M kernel (option nat) :=
  match n with
  | O => mret None
  | S n' =>
      ff ← the_file f;
      if f_ref ff =? 0 then
        modify (set_file f (set_f_ref 1));;
        mret (Some f)
      else filealloc_loop n' (S f)
  end.

Definition filealloc : M kernel (option nat) := filealloc_loop NFILE 0.

Definition filedup (f : nat) : M kernel nat :=
  ff ← the_file f;
  if f_ref ff <? 1 then panic "filedup"
  else
    modify (set_file f (fun ff => set_f_ref (f_ref ff + 1) ff));;
    mret f.

Definition fileclose (f : nat) : M kernel unit :=
  ff ← the_file f;
  if f_ref ff <? 1 then panic "fileclose"
  else
    modify (set_file f (fun ff => set_f_ref (f_ref ff - 1) ff));;
    ff ← the_file f;
    if 0 <? f_ref ff then mret tt
    else
      modify (set_file f (set_f_ref 0));;
      modify (set_file f (set_f_type FD_NONE));;
      match f_type ff with
      | FD_PIPE => pipeclose (f_pipe ff) (ctrue (f_writable ff))
      | FD_INODE | FD_DEVICE =>
          begin_op_k;;
          match f_ip ff with
          | Some ip => iput ip
          | None => undefined "ip"
          end;;
          end_op_k
      | FD_NONE => mret tt
      end.

(** [struct stat] in memory: 24 bytes, with padding after [nlink] that keeps
    what was on the stack. *)
Definition stat_bytes (pad : list Z) (st : stat) : list Z :=
  le_split 4 (st_dev st) ++ le_split 4 (st_ino st) ++ le_split 2 (st_type st)
  ++ le_split 2 (st_nlink st) ++ pad ++ le_split 8 (st_size st).

Definition f_inode (ff : file) : M kernel nat :=
  match f_ip ff with
  | Some ip => mret ip
  | None => undefined "ip"
  end.

Definition filestat (f : nat) (addr : Z) : M kernel Z :=
  p ← myproc;
  q ← the_proc p;
  ff ← the_file f;
  match f_type ff with
  | FD_INODE | FD_DEVICE =>
      ip ← f_inode ff;
      ilock (Some ip);;
      st ← stati ip;
      iunlock (Some ip);;
      pad ← load_mem (klocal + 12) 4;
      r ← copyout_local (p_pagetable q) addr (stat_bytes pad st);
      if r <? 0 then mret (-1) else mret 0
  | _ => mret (-1)
  end.

(** A call through the device switch. *)
Definition devread (major addr n : Z) : M kernel Z :=
  d ← gets k_devsw;
  if (major <? 0) || (NDEV <=? major) then mret (-1)
  else match dv_read (d major) with
       | None => mret (-1)
       | Some Consoleread => consoleread true addr n
       | Some Consolewrite => consolewrite true addr n
       end.

Definition devwrite (major addr n : Z) : M kernel Z :=
  d ← gets k_devsw;
  if (major <? 0) || (NDEV <=? major) then mret (-1)
  else match dv_write (d major) with
       | None => mret (-1)
       | Some Consoleread => consoleread true addr n
       | Some Consolewrite => consolewrite true addr n
       end.

Definition fileread (f : nat) (addr n : Z) : M kernel Z :=
  ff ← the_file f;
  if f_readable ff =? 0 then mret (-1)
  else match f_type ff with
  | FD_PIPE => piperead (f_pipe ff) addr n
  | FD_DEVICE => devread (f_major ff) addr n
  | FD_INODE =>
      ip ← f_inode ff;
      ilock (Some ip);;
      r ← readi ip true addr (f_off ff) (u32 n);
      when (0 <? r) (modify (set_file f (fun ff => set_f_off (u32 (f_off ff + r)) ff)));;
      iunlock (Some ip);;
      mret r
  | FD_NONE => panic "fileread"
  end.

Definition filewrite_max : Z := (MAXOPBLOCKS - 1 - 1 - 2) / 2 * BSIZE.

(** One pass of the loop of [filewrite]: a transaction of at most
    [filewrite_max] bytes. *)
Definition filewrite_body (f : nat) (addr n : Z) (i : Z) : M kernel (Z + Z) :=
  if i <? n then
    let n1 := Z.min (n - i) filewrite_max in
    begin_op_k;;
    ff ← the_file f;
    ip ← f_inode ff;
    ilock (Some ip);;
    r ← writei ip true (u64 (addr + i)) (f_off ff) n1;
    when (0 <? r) (modify (set_file f (fun ff => set_f_off (u32 (f_off ff + r)) ff)));;
    iunlock (Some ip);;
    end_op_k;;
    if negb (r =? n1) then mret (inr i) else mret (inl (i + r))
  else mret (inr i).

Definition filewrite (f : nat) (addr n : Z) : M kernel Z :=
  ff ← the_file f;
  if f_writable ff =? 0 then mret (-1)
  else match f_type ff with
  | FD_PIPE => pipewrite (f_pipe ff) addr n
  | FD_DEVICE => devwrite (f_major ff) addr n
  | FD_INODE =>
      i ← loop (Z.to_nat (n / filewrite_max + 2)) (filewrite_body f addr n) 0;
      mret (if i =? n then n else -1)
  | FD_NONE => panic "filewrite"
  end.

(** The error exit of [pipealloc]; [pi] is NULL there. *)
Definition pipealloc_bad (f0 f1 : option nat) : M kernel (option (nat * nat)) :=
  match f0 with Some f => fileclose f | None => mret tt end;;
  match f1 with Some f => fileclose f | None => mret tt end;;
  mret None.

Definition pipealloc : M kernel (option (nat * nat)) :=
  f0 ← filealloc;
  match f0 with
  | None => pipealloc_bad None None
  | Some r =>
      f1 ← filealloc;
      match f1 with
      | None => pipealloc_bad (Some r) None
      | Some w =>
          pi ← vm kalloc;
          if pi =? 0 then pipealloc_bad (Some r) (Some w)
          else
            modify (set_pipe pi (set_pi_readopen 1));;
            modify (set_pipe pi (set_pi_writeopen 1));;
            modify (set_pipe pi (set_pi_nwrite 0));;
            modify (set_pipe pi (set_pi_nread 0));;
            modify (set_file r (set_f_type FD_PIPE));;
            modify (set_file r (set_f_readable 1));;
            modify (set_file r (set_f_writable 0));;
            modify (set_file r (set_f_pipe pi));;
            modify (set_file w (set_f_type FD_PIPE));;
            modify (set_file w (set_f_readable 0));;
            modify (set_file w (set_f_writable 1));;
            modify (set_file w (set_f_pipe pi));;
            mret (Some (r, w))
      end
  end.
End file.
