(* ===== verification/Args.v ===== *)
(** System call arguments, [kernel/syscall.c]: the words in the trap frame and
    what they point to in user memory.  [Syscall] holds the dispatch. *)

From S2P Require Import Prelude CString Layout Kalloc Vm Sleeplock Bio Log Kernel Sched Printf.

Section args.
Context `{KE : KernelEnd, PL : Platform}.

(** The word of the running process's trap frame at offset [off]. *)
Definition tf_get (p : nat) (off : Z) : M kernel Z :=
  q ← the_proc p;
  gets (fun s => load64 (km_mem (k_km s)) (p_trapframe q + off)).

Definition tf_set (p : nat) (off v : Z) : M kernel unit :=
  q ← the_proc p;
  vm (modify (set_mem (fun m => store64 m (p_trapframe q + off) v))).

(** The offsets of [struct trapframe]. *)
Definition TF_X (n : Z) : Z := 8 * n.
Definition TF_SP : Z := 248.
Definition TF_PC : Z := 256.
Definition TF_SPSR : Z := 264.
Definition TF_SIZE : Z := 272.

Definition argraw (n : Z) : M kernel Z :=
  p ← myproc;
  if (0 <=? n) && (n <=? 5) then tf_get p (TF_X n)
  else panic "argraw".

Definition argint (n : Z) : M kernel Z := v ← argraw n; mret (s32 v).

Definition argaddr (n : Z) : M kernel Z := argraw n.

(** The result and, when it is 0, the word. *)
Definition fetchaddr (addr : Z) : M kernel (Z * Z) :=
  p ← myproc;
  q ← the_proc p;
  if (p_size q <=? addr) || (p_size q <? u64 (addr + 8)) then mret (-1, 0)
  else
    '(r, l) ← copyin_local (p_pagetable q) addr 8;
    if negb (r =? 0) then mret (-1, 0) else mret (0, le_combine l).

(** [fetchstr] into the buffer at [buf]. *)
Definition fetchstr (addr buf max : Z) : M kernel Z :=
  p ← myproc;
  q ← the_proc p;
  r ← vm (copyinstr (p_pagetable q) buf addr (u64 max));
  if r <? 0 then mret (-1)
  else
    n ← gets (fun s => strlen (Z.to_nat max) (ptr (km_mem (k_km s)) buf));
    match n with
    | Some n => mret n
    | None => undefined "strlen"
    end.

(** [argstr] into a local array: the result, and the string. *)
Definition argstr (n : Z) (max : Z) : M kernel (Z * list Z) :=
  addr ← argaddr n;
  r ← fetchstr addr klocal max;
  l ← load_mem klocal (Z.to_nat max);
  mret (r, c_string l).
End args.
