(* ===== verification/Sysfile.v ===== *)
(** The file system calls, [kernel/sysfile.c]. *)

From S2P Require Import Prelude CString Layout Kalloc Vm Sleeplock Bio Log Kernel Sched Uart Printf Console Fs Pipe File Args.

Definition O_RDONLY : Z := 0x000.
Definition O_WRONLY : Z := 0x001.
Definition O_RDWR : Z := 0x002.
Definition O_CREATE : Z := 0x200.
Definition O_TRUNC : Z := 0x400.

Section sysfile.
Context `{KE : KernelEnd, PL : Platform}.

(** [p->ofile[fd]] *)
Definition get_ofile (p : nat) (fd : Z) : M kernel (option nat) :=
  q ← the_proc p;
  mret (mjoin (p_ofile q !! Z.to_nat fd)).

Definition set_ofile (p : nat) (fd : Z) (f : option nat) : M kernel unit :=
  modify (set_proc p (fun q => set_p_ofile (<[Z.to_nat fd := f]> (p_ofile q)) q)).

Definition argfd (n : Z) : M kernel (option (Z * nat)) :=
  fd ← argint n;
  if (fd <? 0) || (Z.of_nat NOFILE <=? fd) then mret None
  else
    p ← myproc;
    f ← get_ofile p fd;
    mret (match f with Some f => Some (fd, f) | None => None end).

Definition sys_write : M kernel Z :=
  p ← argaddr 2;
  n ← argint 3;
  f ← argfd 1;
  match f with
  | None => mret (-1)
  | Some (_, f) => filewrite f p n
  end.

Definition sys_read : M kernel Z :=
  p ← argaddr 2;
  n ← argint 3;
  f ← argfd 1;
  match f with
  | None => mret (-1)
  | Some (_, f) => fileread f p n
  end.

Fixpoint fdalloc_loop (n : nat) (p : nat) (f : nat) (fd : Z) : M kernel Z :=
  match n with
  | O => mret (-1)
  | S n' =>
      o ← get_ofile p fd;
      match o with
      | None => set_ofile p fd (Some f);; mret fd
      | Some _ => fdalloc_loop n' p f (fd + 1)
      end
  end.

Definition fdalloc (f : nat) : M kernel Z :=
  p ← myproc;
  fdalloc_loop NOFILE p f 0.

(** The label [fail] of [create]. *)
Definition create_fail (ip dp : nat) : M kernel (option nat) :=
  modify (set_inode ip (set_d (set_d_nlink 0)));;
  iupdate ip;;
  iunlockput ip;;
  iunlockput dp;;
  mret None.

Definition create (path : list Z) (type major minor : Z) : M kernel (option nat) :=
  name ← load_mem klocal (Z.to_nat DIRSIZ);
  '(dp, name) ← nameiparent path name;
  match dp with
  | None => mret None
  | Some dp =>
      ilock (Some dp);;
      found ← dirlookup dp name;
      match found with
      | Some (ip, _) =>
          iunlockput dp;;
          ilock (Some ip);;
          i ← the_inode ip;
          if (type =? T_FILE) && ((d_type (i_d i) =? T_FILE) || (d_type (i_d i) =? T_DEVICE))
          then mret (Some ip)
          else iunlockput ip;; mret None
      | None =>
          d ← the_inode dp;
          new ← ialloc (i_dev d) type;
          match new with
          | None => iunlockput dp;; mret None
          | Some ip =>
              ilock (Some ip);;
              modify (set_inode ip (set_d (set_d_major major)));;
              modify (set_inode ip (set_d (set_d_minor minor)));;
              modify (set_inode ip (set_d (set_d_nlink 1)));;
              iupdate ip;;
              i ← the_inode ip;
              ok ← (if type =? T_DIR then
                      r ← dirlink ip (chars ".") (i_inum i);
                      if r <? 0 then mret false
                      else
                        r ← dirlink ip (chars "..") (i_inum d);
                        mret (negb (r <? 0))
                    else mret true);
              if negb ok then create_fail ip dp
              else
                r ← dirlink dp name (i_inum i);
                if r <? 0 then create_fail ip dp
                else
                  when (type =? T_DIR) (
                    modify (set_inode dp (set_d (fun d => set_d_nlink (s16 (d_nlink d + 1)) d)));;
                    iupdate dp);;
                  iunlockput dp;;
                  mret (Some ip)
          end
      end
  end.

(** The inode [sys_open] opens, locked; [None] after the error exits, which
    end the transaction. *)
Definition open_inode (path : list Z) (omode : Z) : M kernel (option nat) :=
  if ctrue (Z.land omode O_CREATE) then
    ip ← create path T_FILE 0 0;
    match ip with
    | None => end_op_k;; mret None
    | Some ip => mret (Some ip)
    end
  else
    ip ← namei path;
    match ip with
    | None => end_op_k;; mret None
    | Some ip =>
        ilock (Some ip);;
        i ← the_inode ip;
        if (d_type (i_d i) =? T_DIR) && negb (omode =? O_RDONLY) then
          iunlockput ip;;
          end_op_k;;
          mret None
        else mret (Some ip)
    end.

(** [(f = filealloc()) == NULL || (fd = fdalloc(f)) < 0], with the error exit's
    [fileclose]. *)
Definition open_fd : M kernel (option (nat * Z)) :=
  f ← filealloc;
  match f with
  | None => mret None
  | Some f =>
      fd ← fdalloc f;
      if fd <? 0 then fileclose f;; mret None
      else mret (Some (f, fd))
  end.

Definition sys_open : M kernel Z :=
  omode ← argint 2;
  '(n, path) ← argstr 1 MAXPATH;
  if n <? 0 then mret (-1)
  else
    begin_op_k;;
    ip ← open_inode path omode;
    match ip with
    | None => mret (-1)
    | Some ip =>
        i ← the_inode ip;
        if (d_type (i_d i) =? T_DEVICE) && ((d_major (i_d i) <? 0) || (NDEV <=? d_major (i_d i)))
        then iunlockput ip;; end_op_k;; mret (-1)
        else
          r ← open_fd;
          match r with
          | None => iunlockput ip;; end_op_k;; mret (-1)
          | Some (f, fd) =>
              (if d_type (i_d i) =? T_DEVICE then
                 modify (set_file f (set_f_type FD_DEVICE));;
                 modify (set_file f (set_f_major (d_major (i_d i))))
               else
                 modify (set_file f (set_f_type FD_INODE));;
                 modify (set_file f (set_f_off 0)));;
              modify (set_file f (set_f_ip (Some ip)));;
              modify (set_file f (set_f_readable (b2z (Z.land omode O_WRONLY =? 0))));;
              modify (set_file f (set_f_writable
                (b2z (ctrue (Z.land omode O_WRONLY) || ctrue (Z.land omode O_RDWR)))));;
              when (ctrue (Z.land omode O_TRUNC) && (d_type (i_d i) =? T_FILE)) (itrunc ip);;
              iunlock (Some ip);;
              end_op_k;;
              mret fd
          end
    end.

Definition sys_mknod : M kernel Z :=
  begin_op_k;;
  major ← argint 2;
  minor ← argint 3;
  '(n, path) ← argstr 1 MAXPATH;
  ip ← (if n <? 0 then mret None else create path T_DEVICE (s16 major) (s16 minor));
  match ip with
  | None => end_op_k;; mret (-1)
  | Some ip => iunlockput ip;; end_op_k;; mret 0
  end.

Definition sys_dup : M kernel Z :=
  f ← argfd 1;
  match f with
  | None => mret (-1)
  | Some (_, f) =>
      fd ← fdalloc f;
      if fd <? 0 then mret (-1)
      else filedup f;; mret fd
  end.

Definition sys_chdir : M kernel Z :=
  p ← myproc;
  begin_op_k;;
  '(n, path) ← argstr 1 MAXPATH;
  ip ← (if n <? 0 then mret None else namei path);
  match ip with
  | None => end_op_k;; mret (-1)
  | Some ip =>
      ilock (Some ip);;
      i ← the_inode ip;
      if negb (d_type (i_d i) =? T_DIR) then
        iunlockput ip;;
        end_op_k;;
        mret (-1)
      else
        iunlock (Some ip);;
        q ← the_proc p;
        match p_cwd q with
        | Some cwd => iput cwd
        | None => undefined "cwd"
        end;;
        end_op_k;;
        modify (set_proc p (set_p_cwd (Some ip)));;
        mret 0
  end.

Definition sys_close : M kernel Z :=
  f ← argfd 1;
  match f with
  | None => mret (-1)
  | Some (fd, f) =>
      p ← myproc;
      set_ofile p fd None;;
      fileclose f;;
      mret 0
  end.

Definition sys_fstat : M kernel Z :=
  st ← argaddr 2;
  f ← argfd 1;
  match f with
  | None => mret (-1)
  | Some (_, f) => filestat f st
  end.

Definition sys_mkdir : M kernel Z :=
  begin_op_k;;
  '(n, path) ← argstr 1 MAXPATH;
  ip ← (if n <? 0 then mret None else create path T_DIR 0 0);
  match ip with
  | None => end_op_k;; mret (-1)
  | Some ip => iunlockput ip;; end_op_k;; mret 0
  end.

Definition isdirempty_body (dp : nat) (off : Z) : M kernel (Z + bool) :=
  i ← the_inode dp;
  if off <? d_size (i_d i) then
    de ← read_dirent dp off "isdirempty: readi";
    if negb (de_inum de =? 0) then mret (inr false)
    else mret (inl (off + DIRENT))
  else mret (inr true).

Definition isdirempty (dp : nat) : M kernel bool :=
  i ← the_inode dp;
  loop (Z.to_nat (d_size (i_d i) / DIRENT + 2)) (isdirempty_body dp) (2 * DIRENT).

(** The label [bad] of [sys_unlink]. *)
Definition unlink_bad (dp : nat) : M kernel Z :=
  iunlockput dp;;
  end_op_k;;
  mret (-1).

Definition sys_unlink : M kernel Z :=
  '(n, path) ← argstr 1 MAXPATH;
  if n <? 0 then mret (-1)
  else
    begin_op_k;;
    name ← load_mem klocal (Z.to_nat DIRSIZ);
    '(dp, name) ← nameiparent path name;
    match dp with
    | None => end_op_k;; mret (-1)
    | Some dp =>
        ilock (Some dp);;
        if (namecmp name (chars ".") =? 0) || (namecmp name (chars "..") =? 0) then unlink_bad dp
        else
          found ← dirlookup dp name;
          match found with
          | None => unlink_bad dp
          | Some (ip, off) =>
              ilock (Some ip);;
              i ← the_inode ip;
              if d_nlink (i_d i) <? 1 then panic "unlink: nlink < 1"
              else
                empty ← (if d_type (i_d i) =? T_DIR then isdirempty ip else mret true);
                if negb empty then
                  iunlockput ip;;
                  unlink_bad dp
                else
                  store_mem klocal (replicate (Z.to_nat DIRENT) 0);;
                  r ← writei dp false klocal off DIRENT;
                  if negb (r =? DIRENT) then panic "unlink: writei"
                  else
                    when (d_type (i_d i) =? T_DIR) (
                      modify (set_inode dp (set_d (fun d => set_d_nlink (s16 (d_nlink d - 1)) d)));;
                      iupdate dp);;
                    iunlockput dp;;
                    modify (set_inode ip (set_d (fun d => set_d_nlink (s16 (d_nlink d - 1)) d)));;
                    iupdate ip;;
                    iunlockput ip;;
                    end_op_k;;
                    mret 0
          end
    end.

Definition sys_pipe : M kernel Z :=
  p ← myproc;
  fdarray ← argaddr 1;
  r ← pipealloc;
  match r with
  | None => mret (-1)
  | Some (rf, wf) =>
      fd0 ← fdalloc rf;
      fd1 ← (if fd0 <? 0 then mret (-1) else fdalloc wf);
      if (fd0 <? 0) || (fd1 <? 0) then
        when (0 <=? fd0) (set_ofile p fd0 None);;
        fileclose rf;;
        fileclose wf;;
        mret (-1)
      else
        q ← the_proc p;
        r ← copyout_local (p_pagetable q) fdarray (le_split 4 fd0);
        r ← (if r <? 0 then mret r
             else copyout_local (p_pagetable q) (u64 (fdarray + 4)) (le_split 4 fd1));
        if r <? 0 then
          set_ofile p fd0 None;;
          set_ofile p fd1 None;;
          fileclose rf;;
          fileclose wf;;
          mret (-1)
        else mret 0
  end.

(** The label [bad] of [sys_link]. *)
Definition link_bad (ip : nat) : M kernel Z :=
  ilock (Some ip);;
  modify (set_inode ip (set_d (fun d => set_d_nlink (s16 (d_nlink d - 1)) d)));;
  iupdate ip;;
  iunlockput ip;;
  end_op_k;;
  mret (-1).

Definition sys_link : M kernel Z :=
  '(n, old) ← argstr 1 MAXPATH;
  if n <? 0 then mret (-1)
  else
    '(n, new) ← argstr 2 MAXPATH;
    if n <? 0 then mret (-1)
    else
      begin_op_k;;
      ip ← namei old;
      match ip with
      | None => end_op_k;; mret (-1)
      | Some ip =>
          ilock (Some ip);;
          i ← the_inode ip;
          if d_type (i_d i) =? T_DIR then
            iunlockput ip;;
            end_op_k;;
            mret (-1)
          else
            modify (set_inode ip (set_d (fun d => set_d_nlink (s16 (d_nlink d + 1)) d)));;
            iupdate ip;;
            iunlock (Some ip);;
            name ← load_mem klocal (Z.to_nat DIRSIZ);
            '(dp, name) ← nameiparent new name;
            match dp with
            | None => link_bad ip
            | Some dp =>
                ilock (Some dp);;
                d ← the_inode dp;
                i ← the_inode ip;
                r ← (if negb (i_dev d =? i_dev i) then mret (-1) else dirlink dp name (i_inum i));
                if r <? 0 then
                  iunlockput dp;;
                  link_bad ip
                else
                  iunlockput dp;;
                  iput ip;;
                  end_op_k;;
                  mret 0
            end
      end.
End sysfile.
