(* ===== verification/Process.v ===== *)
(** Processes, [kernel/proc.c]: allocation, the first process, fork, exit and
    wait. *)

From S2P Require Import Prelude CString Layout Kalloc Vm Sleeplock Bio Log Kernel Sched Uart Printf Console Fs Pipe File Args.

Definition PROC_KSTACK_SIZE : Z := PG_SIZE.
Definition SPSR_USER : Z := 0.

Section process.
Context `{KE : KernelEnd, PL : Platform}.

(** The user page tables have four levels. *)
Definition PT_LEVELS : nat := 4.

Definition freeproc (p : nat) : M kernel unit :=
  q ← the_proc p;
  when (ctrue (p_kstack q)) (vm (kfree kend (p_kstack q)));;
  modify (set_proc p (set_p_kstack 0));;
  when (ctrue (p_pagetable q)) (vm (uvmfree kend PT_LEVELS (p_pagetable q) (p_size q)));;
  modify (set_proc p (set_p_pagetable 0));;
  modify (set_proc p (set_p_size 0));;
  modify (set_proc p (set_p_pid 0));;
  modify (set_proc p (set_p_parent None));;
  modify (set_proc p (fun q => set_p_name (<[0%nat := 0]> (p_name q)) q));;
  modify (set_proc p (set_p_chan None));;
  modify (set_proc p (set_p_killed 0));;
  modify (set_proc p (set_p_xstate 0));;
  modify (set_proc p (set_p_state UNUSED));;
  modify (set_proc p (set_p_trapframe 0)).

(** The search of [allocproc]. *)
Fixpoint find_unused (n : nat) (p : nat) : M kernel (option nat) :=
  match n with
  | O => mret None
  | S n' =>
      q ← the_proc p;
      if bool_decide (p_state q = UNUSED) then mret (Some p) else find_unused n' (S p)
  end.

(** [allocproc] from the allocation of the page table on; [sp] is the end of
    the kernel stack. *)
Definition allocproc_space (p : nat) (sp : Z) : M kernel (option nat) :=
  q ← the_proc p;
  pagetable ← vm kalloc;
  modify (set_proc p (set_p_pagetable pagetable));;
  if pagetable =? 0 then freeproc p;; mret None
  else
    vm (modify (set_mem (fun m => memset m pagetable 0 PG_SIZE)));;
    let sp := sp - TF_SIZE in
    modify (set_proc p (set_p_trapframe sp));;
    let sp := sp - 8 in
    vm (modify (set_mem (fun m => store64 m sp trapret)));;
    let sp := sp - 8 in
    vm (modify (set_mem (fun m => store64 m sp (u64 (p_kstack q + PROC_KSTACK_SIZE)))));;
    modify (set_proc p (set_p_context (replicate 14 0 ++ [u64 (forkret_addr + 8); sp])));;
    mret (Some p).

(** The label [found] of [allocproc]. *)
Definition allocproc_found (p : nat) : M kernel (option nat) :=
  pid ← allocpid;
  modify (set_proc p (set_p_pid pid));;
  modify (set_proc p (set_p_state USED));;
  kstack ← vm kalloc;
  modify (set_proc p (set_p_kstack kstack));;
  if kstack =? 0 then freeproc p;; mret None
  else
    vm (modify (set_mem (fun m => memset m kstack 0 PG_SIZE)));;
    allocproc_space p (u64 (kstack + PROC_KSTACK_SIZE)).

Definition allocproc : M kernel (option nat) :=
  p ← find_unused NPROC 0;
  match p with
  | None => mret None
  | Some p => allocproc_found p
  end.

(** [safestrcpy(dst, src, 16)] on the name array. *)
Definition copy_name (dst src : list Z) : list Z :=
  load_bytes (safestrcpy (store_bytes (fun _ => 0) 0 dst) 0 (arr src) 16) 0 16.

Definition userinit : M kernel unit :=
  r ← allocproc;
  modify (set_k_initproc r);;
  match r with
  | None => undefined "userinit"
  | Some p =>
      q ← the_proc p;
      vm (uvmfirst (p_pagetable q) (u64 (eentry + initcode_start + KERN_BASE)) initcode_size);;
      modify (set_proc p (set_p_size PROC_KSTACK_SIZE));;
      vm (modify (set_mem (fun m => memset m (p_trapframe q) 0 TF_SIZE)));;
      tf_set p TF_SPSR 0;;
      tf_set p TF_SP PROC_KSTACK_SIZE;;
      tf_set p (TF_X 30) 0;;
      tf_set p TF_PC 0;;
      modify (set_proc p (fun q => set_p_name (copy_name (p_name q) (chars "initcode")) q));;
      cwd ← namei [ch_slash];
      modify (set_proc p (set_p_cwd cwd));;
      modify (set_proc p (set_p_state RUNNABLE))
  end.

Definition forkret : M kernel unit :=
  first ← gets k_first;
  when (ctrue first) (
    modify (set_k_first 0);;
    fsinit ROOTDEV).

Fixpoint close_all (n : nat) (p : nat) (fd : nat) : M kernel unit :=
  match n with
  | O => mret tt
  | S n' =>
      q ← the_proc p;
      match mjoin (p_ofile q !! fd) with
      | Some f =>
          fileclose f;;
          modify (set_proc p (fun q => set_p_ofile (<[fd := None]> (p_ofile q)) q))
      | None => mret tt
      end;;
      close_all n' p (S fd)
  end.

Definition exit {A} (status : Z) : M kernel A :=
  p ← myproc;
  init ← gets k_initproc;
  if bool_decide (init = Some p) then panic "init exiting"
  else
    close_all NOFILE p 0;;
    begin_op_k;;
    q ← the_proc p;
    match p_cwd q with
    | Some cwd => iput cwd
    | None => undefined "cwd"
    end;;
    end_op_k;;
    modify (set_proc p (set_p_cwd None));;
    reparent p;;
    q ← the_proc p;
    match p_parent q with
    | Some pp => wakeup (ChanProc pp)
    | None => mret tt
    end;;
    modify (set_proc p (set_p_xstate status));;
    modify (set_proc p (set_p_state ZOMBIE));;
    gone.

(** The loop of [fork] over the open files. *)
Fixpoint dup_files (n : nat) (p np : nat) (i : nat) : M kernel unit :=
  match n with
  | O => mret tt
  | S n' =>
      q ← the_proc p;
      match mjoin (p_ofile q !! i) with
      | Some f =>
          f ← filedup f;
          modify (set_proc np (fun q => set_p_ofile (<[i := Some f]> (p_ofile q)) q))
      | None => mret tt
      end;;
      dup_files n' p np (S i)
  end.

(** [fork] once the child has its copy of the memory. *)
Definition fork_child (p np : nat) : M kernel Z :=
  q ← the_proc p;
  nq ← the_proc np;
  modify (set_proc np (set_p_size (p_size q)));;
  tf ← load_mem (p_trapframe q) (Z.to_nat TF_SIZE);
  store_mem (p_trapframe nq) tf;;
  tf_set np (TF_X 0) 0;;
  dup_files NOFILE p np 0;;
  cwd ← (match p_cwd q with
         | Some cwd => idup cwd
         | None => undefined "cwd"
         end);
  modify (set_proc np (set_p_cwd (Some cwd)));;
  modify (set_proc np (fun nq => set_p_name (copy_name (p_name nq) (p_name q)) nq));;
  nq ← the_proc np;
  let pid := p_pid nq in
  modify (set_proc np (set_p_parent (Some p)));;
  modify (set_proc np (set_p_state RUNNABLE));;
  mret pid.

Definition fork : M kernel Z :=
  p ← myproc;
  r ← allocproc;
  match r with
  | None => mret (-1)
  | Some np =>
      q ← the_proc p;
      nq ← the_proc np;
      r ← vm (uvmcopy kend (p_pagetable q) (p_pagetable nq) (p_size q));
      if r <? 0 then freeproc np;; mret (-1)
      else fork_child p np
  end.

(** The scan of [wait]: the value to return, or whether there are children. *)
Fixpoint wait_scan (n : nat) (p : nat) (addr : Z) (pp : nat) (havekids : bool) :
    M kernel (Z + bool) :=
  match n with
  | O => mret (inr havekids)
  | S n' =>
      q ← the_proc pp;
      if bool_decide (p_parent q = Some p) then
        if bool_decide (p_state q = ZOMBIE) then
          let pid := p_pid q in
          me ← the_proc p;
          r ← (if addr =? 0 then mret 0
               else copyout_local (p_pagetable me) addr (le_split 4 (p_xstate q)));
          if r <? 0 then mret (inl (-1))
          else freeproc pp;; mret (inl pid)
        else wait_scan n' p addr (S pp) true
      else wait_scan n' p addr (S pp) havekids
  end.

(** [wait], up to its [sleep]. *)
Definition wait (addr : Z) : M kernel Z :=
  p ← myproc;
  r ← wait_scan NPROC p addr 0 false;
  match r with
  | inl v => mret v
  | inr havekids =>
      k ← killed p;
      if negb havekids || ctrue k then mret (-1)
      else sleep (ChanProc p)
  end.
End process.
