(* ===== verification/ProcMem.v ===== *)
(** The memory of the processes of [kernel/proc.c]: which pages belong to
    which process, and that allocating and freeing a process keeps the account
    exact. *)

From stdpp Require Import gmap.
From S2P Require Import Prelude CString Layout Kalloc Vm VmTables VmOps VmExample VmCopy VmFork VmFree Sleeplock Bio Log Kernel UserMem Sched Uart Printf Console Fs Pipe File Args Process.

Section relations.
Context `{KE : KernelEnd}.

(** Pages were taken from the pool; what was in use is as before. *)
Record extended (s : kmem) (l : list Z) (O : gmap Z role) (s' : kmem) (l' : list Z) (O' : gmap Z role) : Prop := {
  ex_inv : vm_inv s' l' O';
  ex_sub : forall p ρ, O !! p = Some ρ -> O' !! p = Some ρ;
  ex_new : forall p ρ, O' !! p = Some ρ -> O !! p = Some ρ \/ p ∈ l;
  ex_pool : (forall p, p ∈ l' -> p ∈ l) /\ (forall p, p ∈ l -> p ∈ l' \/ is_Some (O' !! p));
  ex_leaf : forall r va, O !! r = Some (Tab r 0 0) -> leaf (km_mem s') r va = leaf (km_mem s) r va;
  ex_mem : forall p ρ x, O !! p = Some ρ -> (forall r k b, ρ <> Tab r k b) -> in_page p x -> km_mem s' x = km_mem s x;
}.

(** Pages were given back; what is still in use is as before. *)
Record shrunk (s : kmem) (l : list Z) (O : gmap Z role) (s' : kmem) (l' : list Z) (O' : gmap Z role) : Prop := {
  sh_inv : vm_inv s' l' O';
  sh_sub : forall p ρ, O' !! p = Some ρ -> O !! p = Some ρ;
  sh_pool : forall p, p ∈ l' <-> p ∈ l \/ (is_Some (O !! p) /\ O' !! p = None);
  sh_leaf : forall r va, O' !! r = Some (Tab r 0 0) -> leaf (km_mem s') r va = leaf (km_mem s) r va;
  sh_mem : forall p ρ x, O' !! p = Some ρ -> (forall r k b, ρ <> Tab r k b) -> in_page p x -> km_mem s' x = km_mem s x;
}.

Lemma shrunk_refl s l O : vm_inv s l O -> shrunk s l O s l O.
Proof.
  intros HI. split; try done. intros p. split; [by left|]. intros [?|[[? E] E']]; [done|by rewrite E in E'].
Qed.

Lemma shrunk_trans s l O s1 l1 O1 s2 l2 O2 :
  shrunk s l O s1 l1 O1 -> shrunk s1 l1 O1 s2 l2 O2 -> shrunk s l O s2 l2 O2.
Proof.
  intros [A1 A2 A3 A4 A5] [B1 B2 B3 B4 B5]. split.
  - done.
  - auto.
  - intros p. rewrite B3, A3. split.
    + intros [[?|[? HN]]|[[ρ Hρ] HN]]; [by left| |].
      * right. split; [done|]. destruct (O2 !! p) as [ρ|] eqn:E; [|done]. apply B2 in E. congruence.
      * right. split; [|done]. apply A2 in Hρ. eauto.
    + intros [?|[Hs HN]]; [auto|]. destruct (O1 !! p) as [ρ|] eqn:E; [right|left; right]; eauto.
  - intros r va Hr. rewrite B4 by done. auto.
  - intros p ρ x Hp Hn Hx. rewrite (B5 p ρ) by done. eapply A5; eauto.
Qed.

Lemma off_tables s l O p ρ x :
  vm_inv s l O -> O !! p = Some ρ -> (forall r k b, ρ <> Tab r k b) -> in_page p x ->
  (forall q r k b, O !! q = Some (Tab r k b) -> ~ in_page q x) /\ (forall q, q ∈ l -> ~ in_page q x).
Proof.
  intros HI Hp Hn Hx. split.
  - intros q r k b Hq. by eapply (page_not_other _ _ _ p ρ q _ x HI).
  - intros q Hq. by eapply (page_not_pool _ _ _ p ρ q x HI).
Qed.

Lemma settled_extended s l O s' l' O' : vm_inv s l O -> settled s l O s' l' O' -> extended s l O s' l' O'.
Proof.
  intros HI [A1 A2 A3 [A4 A4'] A5 A6]. split; try done.
  - intros p ρ Hp. destruct (A3 p ρ Hp) as [?|[? _]]; auto.
  - split; [done|]. intros p Hp. destruct (A4' p Hp) as [?|(? & ? & ? & ?)]; eauto.
  - intros p ρ x Hp Hn Hx. destruct (off_tables s l O p ρ x HI Hp Hn Hx). auto.
Qed.

Lemma extended_refl s l O : vm_inv s l O -> extended s l O s l O.
Proof. intros HI. split; try done; [by left|]. split; [done|by left]. Qed.

Lemma extended_trans s l O s1 l1 O1 s2 l2 O2 :
  extended s l O s1 l1 O1 -> extended s1 l1 O1 s2 l2 O2 -> extended s l O s2 l2 O2.
Proof.
  intros [A1 A2 A3 [A4 A4'] A5 A6] [B1 B2 B3 [B4 B4'] B5 B6]. split.
  - done.
  - auto.
  - intros p ρ Hp. destruct (B3 p ρ Hp) as [?|?]; [auto|]. right. auto.
  - split; [auto|]. intros p Hp. destruct (A4' p Hp) as [Hp1|[ρ Hρ]]; [auto|right]. eauto.
  - intros r va Hr. rewrite B5 by auto. auto.
  - intros p ρ x Hp Hn Hx. rewrite (B6 p ρ) by auto. eauto.
Qed.

(** A page off the free list, cleared. *)
Lemma extended_take s l c O s' :
  vm_inv s (c :: l) O -> vm_inv s' l (<[c := Other]> O) -> (forall x, ~ in_page c x -> km_mem s' x = km_mem s x) ->
  extended s (c :: l) O s' l (<[c := Other]> O).
Proof.
  intros HI HI' Hm. assert (HcO : O !! c = None) by (eapply vi_free; [exact HI|left]). split.
  - done.
  - intros p ρ Hp. rewrite lookup_insert_ne; [done|congruence].
  - intros p ρ [[<- _]|[_ ?]]%lookup_insert_Some; [right; left|by left].
  - split; [by right|]. intros p [->|?]%elem_of_cons; [right; rewrite lookup_insert_eq; eauto|by left].
  - intros r va Hr. by eapply take_leaf.
  - intros p ρ x Hp _ Hx. apply Hm. eapply page_not_pool; [exact HI|done..|left].
Qed.

(** Writing to a page that was just taken. *)
Lemma extended_write s l O s' l' O' c f :
  extended s l O s' l' O' -> O !! c = None -> O' !! c = Some Other ->
  bytes_ok (f (km_mem s')) -> (forall x, ~ in_page c x -> f (km_mem s') x = km_mem s' x) ->
  extended s l O (set_mem f s') l' O'.
Proof.
  intros [A1 A2 A3 A4 A5 A6] HO Hc Hb Hout. pose proof (vi_page _ _ _ A1 _ _ Hc) as Hck.
  assert (Hoff : forall p ρ x, O' !! p = Some ρ -> p <> c -> in_page p x -> f (km_mem s') x = km_mem s' x).
  { intros p ρ x Hp Hne Hx. apply Hout. intros Hcx. apply Hne.
    eapply in_page_disjoint; [by apply (vi_page _ _ _ A1 _ _ Hp)|apply Hck|done|done]. }
  assert (HI : vm_inv (set_mem f s') l' O').
  { eapply vm_inv_write; [done|done|done| |].
    - intros p r k b x Hp Hx. apply (Hoff p _ x Hp); [congruence|done].
    - intros p x Hp Hx. apply Hout. intros Hcx. by eapply (page_not_pool _ _ _ c _ p x A1). }
  split; try done.
  - intros r va Hr. rewrite <- A5 by done. apply (leaf_frame s' l' O' (set_mem f s') l' O'); try done; [by apply A2|].
    intros p r' k b x Hp Hx. apply (Hoff p _ x Hp); [congruence|done].
  - intros p ρ x Hp Hn Hx. rewrite <- (A6 p ρ x Hp Hn Hx). apply (Hoff p ρ x); [by apply A2|congruence|done].
Qed.

(** Freeing a page that is not part of an address space. *)
Lemma kfree_shrunk s l O d :
  vm_inv s l O -> O !! d = Some Other ->
  wp (kfree kend d) s (fun _ s' => shrunk s l O s' (d :: l) (delete d O)).
Proof.
  intros HI Hd. destruct (kfree_other s l O d HI Hd) as (s' & E & Hk & Hm). eapply wp_ok; [exact E|].
  assert (HI' : vm_inv s' (d :: l) (delete d O)) by (by eapply vm_give). split.
  - done.
  - intros p ρ [_ ?]%lookup_delete_Some. done.
  - intros p. rewrite elem_of_cons, lookup_delete_None. split.
    + intros [->|?]; [right; eauto|by left].
    + intros [?|[[ρ Hp] [->|Hn]]]; [by right|by left|congruence].
  - intros r va [Hne Hr]%lookup_delete_Some. apply (leaf_frame s l O s' (d :: l) (delete d O)); try done.
    + intros p r' k b. rewrite lookup_delete_Some. naive_solver.
    + intros p r' k b x Hp Hx. apply Hm. by eapply (page_not_other _ _ _ p _ d _ x HI).
  - intros p ρ x [Hne Hp]%lookup_delete_Some Hn Hx. apply Hm. intros Hdx. apply Hne.
    eapply in_page_disjoint; [by apply (vi_page _ _ _ HI _ _ Hd)|by apply (vi_page _ _ _ HI _ _ Hp)|done|done].
Qed.

Lemma vacated_shrunk s l O r s' l' : vm_inv s l O -> vacated s l O r s' l' -> shrunk s l O s' l' (released r O).
Proof.
  intros HI [A1 A2 A3 A4]. split.
  - done.
  - by intros p ρ [? _]%released_Some.
  - intros p. rewrite A2. split; (intros [?|H]; [by left|right]).
    + destruct H as (ρ & Hp & Ho). split; [eauto|]. destruct (released r O !! p) as [ρ'|] eqn:E; [|done].
      apply released_Some in E as [E ?]. congruence.
    + destruct H as [[ρ Hp] HN]. exists ρ. split; [done|]. destruct (decide (owned r ρ)) as [|Hn]; [done|].
      by rewrite (proj2 (released_Some r O p ρ)) in HN.
  - intros r' va [Hr Hn]%released_Some. apply A3; [done|]. intros ->. by apply Hn.
  - intros p ρ x [Hp Ho]%released_Some Hn Hx. destruct (off_tables s l O p ρ x HI Hp Hn Hx) as [H1 _].
    apply A4; [done|]. intros d v Hd. eapply (page_not_other _ _ _ p ρ d _ x HI); [done|done| |done]. intros ->. congruence.
Qed.
End relations.

Section roots.
Context `{KE : KernelEnd}.

Lemma tab_root s l O p r k b : vm_inv s l O -> O !! p = Some (Tab r k b) -> O !! r = Some (Tab r 0 0).
Proof.
  intros HI. revert p b. induction k as [|k IH]; intros p b Hp.
  - destruct (vi_root _ _ _ HI _ _ _ Hp) as [-> ->]. done.
  - destruct (vi_up _ _ _ HI _ _ _ _ Hp) as (_ & q & Hq & _). by eapply IH.
Qed.

Lemma dat_root s l O p r v : vm_inv s l O -> O !! p = Some (Dat r v) -> O !! r = Some (Tab r 0 0).
Proof. intros HI Hp. destruct (vi_dat _ _ _ HI _ _ _ Hp) as (q & Hq & _). by eapply tab_root. Qed.

Lemma role_0 s l O : vm_inv s l O -> O !! 0 = None.
Proof. intros HI. destruct (O !! 0) as [ρ|] eqn:E; [|done]. by destruct (kpage_ne_0 0 (vi_page _ _ _ HI _ _ E)). Qed.

Lemma released_0 s l O : vm_inv s l O -> released 0 O = O.
Proof.
  intros HI. apply map_eq. intros p. apply option_eq. intros ρ. rewrite released_Some. split; [by intros [? _]|].
  intros Hp. split; [done|]. intros Ho. pose proof (role_0 _ _ _ HI) as H0.
  destruct ρ as [r k b|r v|]; simpl in Ho; [subst r|subst r|done].
  - by rewrite (tab_root _ _ _ _ _ _ _ HI Hp) in H0.
  - by rewrite (dat_root _ _ _ _ _ _ HI Hp) in H0.
Qed.

Lemma space_leaf m m' r size : (forall va, leaf m' r va = leaf m r va) -> space m r size -> space m' r size.
Proof. intros H [H1 H2 H3]. split; [done|intros a; rewrite H; apply H2|intros a; rewrite H; apply H3]. Qed.

(** What a process sees only depends on its translation and its data pages. *)
Lemma user_same s l O m' r :
  vm_inv s l O -> O !! r = Some (Tab r 0 0) -> (forall va, leaf m' r va = leaf (km_mem s) r va) ->
  (forall d v x, O !! d = Some (Dat r v) -> in_page d x -> m' x = km_mem s x) ->
  forall va, ubyte m' r va = ubyte (km_mem s) r va.
Proof.
  intros HI Hr Hl Hd va. apply (ubyte_ext s l O (Kmem m' 0) r HI Hr); simpl.
  - intros va'. unfold uaddr, upage. by rewrite Hl.
  - intros va' a H0 Ha. destruct (uaddr_dat s l O r va' a HI Hr H0 Ha) as (_ & d & Hdv & _ & _ & Hin). by eapply Hd.
Qed.
End roots.

(** * The account of the pages *)

Section account.
Context `{KE : KernelEnd, PL : Platform}.

Definition live (s : kernel) (p : nat) : Prop := (p < NPROC)%nat /\ p_state (k_procs s p) <> UNUSED.

(** The memory of a process: a kernel stack with the trap frame at its end,
    and an address space of [p_size] bytes.  An unused slot has none. *)
Record proc_live (O : gmap Z role) (m : mem) (q : proc) : Prop := {
  pl_kstack : O !! p_kstack q = Some Other;
  pl_pagetable : O !! p_pagetable q = Some (Tab (p_pagetable q) 0 0);
  pl_space : space m (p_pagetable q) (p_size q);
  pl_trapframe : p_trapframe q = p_kstack q + PG_SIZE - TF_SIZE;
}.

Definition proc_ok (O : gmap Z role) (m : mem) (q : proc) : Prop :=
  if bool_decide (p_state q = UNUSED) then p_kstack q = 0 /\ p_pagetable q = 0 /\ p_size q = 0
  else proc_live O m q.

(** [procs_ok F s l O]: the pages [O] in use are the pages [F] (the disk's
    rings, the pipes) and the memory of the processes, each page once; the
    others, [l], are free. *)
Record procs_ok (F : gset Z) (s : kernel) (l : list Z) (O : gmap Z role) : Prop := {
  pk_vm : vm_inv (k_km s) l O;
  pk_proc : forall p, (p < NPROC)%nat -> proc_ok O (km_mem (k_km s)) (k_procs s p);
  pk_apart : forall p p', live s p -> live s p' -> p <> p' ->
    p_kstack (k_procs s p) <> p_kstack (k_procs s p') /\ p_pagetable (k_procs s p) <> p_pagetable (k_procs s p');
  pk_fixed : forall c, c ∈ F -> O !! c = Some Other /\ forall p, live s p -> p_kstack (k_procs s p) <> c;
  pk_owner : forall c ρ, O !! c = Some ρ ->
    match ρ with
    | Other => c ∈ F \/ exists p, live s p /\ p_kstack (k_procs s p) = c
    | Tab r _ _ | Dat r _ => exists p, live s p /\ p_pagetable (k_procs s p) = r
    end;
}.

Lemma procs_live F s l O p : procs_ok F s l O -> live s p -> proc_live O (km_mem (k_km s)) (k_procs s p).
Proof.
  intros H [Hp Hs]. pose proof (pk_proc _ _ _ _ H p Hp) as Hok. unfold proc_ok in Hok.
  by rewrite bool_decide_false in Hok.
Qed.

Lemma procs_unused F s l O p : procs_ok F s l O -> (p < NPROC)%nat -> p_state (k_procs s p) = UNUSED ->
  p_kstack (k_procs s p) = 0 /\ p_pagetable (k_procs s p) = 0 /\ p_size (k_procs s p) = 0.
Proof.
  intros H Hp Hs. pose proof (pk_proc _ _ _ _ H p Hp) as Hok. unfold proc_ok in Hok.
  by rewrite bool_decide_true in Hok.
Qed.

(** The part of a process the account depends on, the size apart. *)
Definition footprint (q : proc) : bool * Z * Z * Z :=
  let unused := bool_decide (p_state q = UNUSED) in
  (unused, p_kstack q, p_pagetable q, if unused then 0 else p_trapframe q).

Lemma footprint_unused q q' : footprint q' = footprint q -> p_state q' = UNUSED <-> p_state q = UNUSED.
Proof.
  unfold footprint. intros [= H _ _ _]. by rewrite <- (bool_decide_eq_true (p_state q' = UNUSED)), H, bool_decide_eq_true.
Qed.

(** The account stands when the kernel's pages and the roots are the same and
    the spaces have their sizes. *)
Lemma procs_ok_change F s l O s' l' O' :
  procs_ok F s l O -> vm_inv (k_km s') l' O' ->
  (forall c, O' !! c = Some Other <-> O !! c = Some Other) ->
  (forall r, O' !! r = Some (Tab r 0 0) <-> O !! r = Some (Tab r 0 0)) ->
  (forall p, footprint (k_procs s' p) = footprint (k_procs s p)) ->
  (forall p, p_state (k_procs s p) = UNUSED -> p_size (k_procs s' p) = p_size (k_procs s p)) ->
  (forall p, live s p -> space (km_mem (k_km s')) (p_pagetable (k_procs s p)) (p_size (k_procs s' p))) ->
  procs_ok F s' l' O'.
Proof.
  intros [H1 H2 H3 H4 H5] HI HO HR Ef Hun Hsp.
  assert (Hl : forall p, live s' p <-> live s p).
  { intros p. unfold live. pose proof (footprint_unused _ _ (Ef p)). tauto. }
  assert (Hf : forall p, p_kstack (k_procs s' p) = p_kstack (k_procs s p) /\
    p_pagetable (k_procs s' p) = p_pagetable (k_procs s p)) by (intros p; by injection (Ef p)).
  assert (Hroot : forall r, O' !! r = Some (Tab r 0 0) -> exists p, live s' p /\ p_pagetable (k_procs s' p) = r).
  { intros r Hr%HR. destruct (H5 r _ Hr) as (p & Hp & E). exists p. split; [by apply Hl|]. by destruct (Hf p) as [_ ->]. }
  split.
  - done.
  - intros p Hp. pose proof (H2 p Hp) as Hok. pose proof (Ef p) as E. unfold footprint in E. injection E as E1 E2 E3 E4.
    unfold proc_ok in *. rewrite E1 in *. case_bool_decide as Hs.
    + rewrite E2, E3, Hun by done. done.
    + destruct Hok as [A1 A2 A3 A4]. split; rewrite ?E2, ?E3, ?E4; [by apply HO|by apply HR|by apply Hsp|done].
  - intros p p' Hp%Hl Hp'%Hl Hne. destruct (Hf p) as [-> ->], (Hf p') as [-> ->]. by apply H3.
  - intros c Hc. destruct (H4 c Hc) as [Hc' Hk]. split; [by apply HO|]. intros p Hp%Hl. destruct (Hf p) as [-> _]. by apply Hk.
  - intros c [r k b|r v|] Hc.
    + by apply Hroot, (tab_root _ _ _ _ _ _ _ HI Hc).
    + by apply Hroot, (dat_root _ _ _ _ _ _ HI Hc).
    + apply HO, H5 in Hc as [?|(p & Hp & <-)]; [by left|right]. exists p. split; [by apply Hl|]. by destruct (Hf p).
Qed.

(** The same memory: only other fields of the processes changed. *)
Lemma procs_ok_ext F s s' l O :
  procs_ok F s l O -> k_km s' = k_km s ->
  (forall p, footprint (k_procs s' p) = footprint (k_procs s p) /\ p_size (k_procs s' p) = p_size (k_procs s p)) ->
  procs_ok F s' l O.
Proof.
  intros H Ek Hp. eapply procs_ok_change; [exact H|rewrite Ek; apply H|done|done|apply Hp|intros; apply Hp|].
  intros p Hl. rewrite Ek, (proj2 (Hp p)). by apply (procs_live _ _ _ _ _ H).
Qed.
End account.

(** * [freeproc] *)

Section freeproc.
Context `{KE : KernelEnd, PL : Platform}.

Lemma with_procs_set s f s1 p g : with_procs s f s1 -> with_procs s (upd f p g) (set_proc p g s1).
Proof.
  intros (pr & -> & H). exists (upd pr p g). split; [done|]. intros q. unfold upd. case_decide; by rewrite H.
Qed.

Definition freed_proc (q : proc) : proc :=
  Proc UNUSED None 0 0 0 None 0 0 0 0 (p_context q) (p_ofile q) (p_cwd q) (<[0%nat := 0]> (p_name q)).

Lemma freeproc_ok s l O p q :
  k_procs s p = q -> vm_inv (k_km s) l O ->
  (p_kstack q = 0 \/ O !! p_kstack q = Some Other) ->
  (p_pagetable q = 0 \/
   (O !! p_pagetable q = Some (Tab (p_pagetable q) 0 0) /\ space (km_mem (k_km s)) (p_pagetable q) (p_size q))) ->
  wp (freeproc p) s (fun _ s' => exists k' l',
    shrunk (k_km s) l O k' l' (released (p_pagetable q) (delete (p_kstack q) O)) /\
    with_procs (set_k_km k' s) (upd (k_procs s) p (fun _ => freed_proc q)) s').
Proof.
  intros Hq HI Hks Hpt. unfold freeproc, the_proc. apply wp_bind, wp_gets. rewrite Hq. apply wp_bind.
  eapply wp_mono with (P := fun _ s1 => exists k1 l1, s1 = set_k_km k1 s /\ shrunk (k_km s) l O k1 l1 (delete (p_kstack q) O)).
  { destruct Hks as [E|Hks].
    - rewrite E. cbn [when ctrue Z.eqb negb]. apply wp_ret. exists (k_km s), l. split; [by destruct s|].
      rewrite delete_id by (by eapply role_0). by apply shrunk_refl.
    - pose proof (kpage_ne_0 _ (vi_page _ _ _ HI _ _ Hks)) as Hne. unfold ctrue. rewrite (proj2 (Z.eqb_neq _ _) Hne). cbn [negb when].
      apply wp_vm. eapply wp_mono; [by apply kfree_shrunk|]. intros [] k1 Hk. by exists k1, (p_kstack q :: l). }
  intros [] s1 (k1 & l1 & -> & S1). apply wp_bind, wp_modify, wp_bind.
  set (s2 := set_proc p (set_p_kstack 0) (set_k_km k1 s)).
  eapply wp_mono with (P := fun _ s3 => exists k3 l3, s3 = set_k_km k3 s2 /\
    shrunk (k_km s) l O k3 l3 (released (p_pagetable q) (delete (p_kstack q) O))).
  { destruct Hpt as [E|[Hpt Hsp]].
    - rewrite E. cbn [when ctrue Z.eqb negb]. apply wp_ret. exists k1, l1. split; [done|].
      by rewrite (released_0 k1 l1) by apply S1.
    - pose proof (kpage_ne_0 _ (vi_page _ _ _ HI _ _ Hpt)) as Hne. unfold ctrue. rewrite (proj2 (Z.eqb_neq _ _) Hne). cbn [negb when].
      assert (Hpt1 : delete (p_kstack q) O !! p_pagetable q = Some (Tab (p_pagetable q) 0 0)).
      { rewrite lookup_delete_ne; [done|]. intros E. rewrite E in Hks. destruct Hks as [?|Hks]; [done|congruence]. }
      apply wp_vm. eapply wp_mono; [apply (uvmfree_ok k1 l1 _ (p_pagetable q) (p_size q) (sh_inv _ _ _ _ _ _ S1) Hpt1)|].
      { eapply space_leaf; [|exact Hsp]. intros va. by apply (sh_leaf _ _ _ _ _ _ S1). }
      intros [] k3 (l3 & V). exists k3, l3. split; [done|]. eapply shrunk_trans; [exact S1|].
      apply vacated_shrunk; [apply S1|done]. }
  intros [] s3 (k3 & l3 & -> & S3). do 9 (apply wp_bind, wp_modify). apply wp_modify. exists k3, l3. split; [done|].
  eapply with_procs_ext.
  - do 10 apply with_procs_set. unfold s2. exists (upd (k_procs s) p (set_p_kstack 0)). split; [done|]. intros p'. reflexivity.
  - intros p'. destruct (decide (p' = p)) as [->|Hne]; [|by rewrite !upd_ne by done].
    rewrite !upd_eq, Hq. by destruct q.
Qed.
End freeproc.

(** * Freeing and allocating a process *)

Section alloc.
Context `{KE : KernelEnd, PL : Platform}.

Lemma procs_ok_free F s l O p s' l' :
  procs_ok F s l O -> live s p ->
  let q := k_procs s p in let O' := released (p_pagetable q) (delete (p_kstack q) O) in
  shrunk (k_km s) l O (k_km s') l' O' ->
  (forall p', k_procs s' p' = if decide (p' = p) then freed_proc q else k_procs s p') ->
  procs_ok F s' l' O'.
Proof.
  intros H Hp q O' [S1 S2 S3 S4 S5] Hpr. pose proof (procs_live _ _ _ _ _ H Hp) as [L1 L2 L3 L4]. fold q in L1, L2.
  assert (Hl : forall p', live s' p' <-> live s p' /\ p' <> p).
  { intros p'. unfold live. rewrite Hpr. destruct (decide (p' = p)) as [->|]; [|tauto]. simpl. tauto. }
  assert (Hne : forall p', live s' p' -> k_procs s' p' = k_procs s p' /\ p_kstack (k_procs s p') <> p_kstack q /\
      p_pagetable (k_procs s p') <> p_pagetable q).
  { intros p' [Hl' Hne]%Hl. rewrite Hpr, decide_False by done. split; [done|]. by apply (pk_apart _ _ _ _ H). }
  assert (HO : forall c ρ, O' !! c = Some ρ <-> O !! c = Some ρ /\ c <> p_kstack q /\ ~ owned (p_pagetable q) ρ).
  { intros c ρ. unfold O'. rewrite released_Some, lookup_delete_Some. naive_solver. }
  split.
  - done.
  - intros p' Hp'. unfold proc_ok. case_bool_decide as Hs.
    + rewrite Hpr in *. destruct (decide (p' = p)); [done|]. by apply (procs_unused F s l O).
    + assert (live s' p') as Hlive by done. destruct (Hne p' Hlive) as (E & N1 & N2). rewrite E in *.
      apply Hl in Hlive as [Hlive _]. pose proof (procs_live _ _ _ _ _ H Hlive) as [A1 A2 A3 A4].
      assert (A2' : O' !! p_pagetable (k_procs s p') = Some (Tab (p_pagetable (k_procs s p')) 0 0)).
      { apply HO. split_and!; [done| |done]. intros E2. rewrite E2, L1 in A2. done. }
      split; [apply HO; split_and!; [done|done|by intros []]|done| |done]. eapply space_leaf; [|exact A3]. intros va. by apply S4.
  - intros p1 p2 H1 H2 Hn. destruct (Hne p1 H1) as (-> & _), (Hne p2 H2) as (-> & _).
    apply (pk_apart _ _ _ _ H); [by apply Hl in H1 as []|by apply Hl in H2 as []|done].
  - intros c Hc. destruct (pk_fixed _ _ _ _ H c Hc) as [Hc1 Hc2]. split.
    + apply HO. split_and!; [done| |by intros []]. intros ->. by apply (Hc2 p).
    + intros p' Hp'. destruct (Hne p' Hp') as (-> & _). apply Hc2. by apply Hl in Hp' as [].
  - intros c ρ (Hc & Hk & Hn)%HO. pose proof (pk_owner _ _ _ _ H c ρ Hc) as Hown.
    assert (Hst : forall p', live s p' -> p_kstack (k_procs s p') <> p_kstack q \/ p_pagetable (k_procs s p') <> p_pagetable q ->
      live s' p' /\ k_procs s' p' = k_procs s p').
    { intros p' Hp' Hd. assert (p' <> p) by (intros ->; unfold q in Hd; naive_solver).
      split; [by apply Hl|]. by rewrite Hpr, decide_False. }
    destruct ρ as [r k b|r v|]; simpl in Hn.
    + destruct Hown as (p' & Hp' & E). exists p'. destruct (Hst p' Hp') as [? ->]; [right; congruence|done].
    + destruct Hown as (p' & Hp' & E). exists p'. destruct (Hst p' Hp') as [? ->]; [right; congruence|done].
    + destruct Hown as [?|(p' & Hp' & E)]; [by left|right]. exists p'. destruct (Hst p' Hp') as [? ->]; [left; congruence|done].
Qed.

(** A fresh process in an unused slot. *)
Lemma procs_ok_alloc F s l O p s' l' ks pt :
  procs_ok F s l O -> (p < NPROC)%nat -> p_state (k_procs s p) = UNUSED ->
  O !! ks = None -> O !! pt = None -> ks <> pt ->
  let O' := <[pt := Tab pt 0 0]> (<[ks := Other]> O) in
  vm_inv (k_km s') l' O' ->
  (forall r va, O !! r = Some (Tab r 0 0) -> leaf (km_mem (k_km s')) r va = leaf (km_mem (k_km s)) r va) ->
  (forall va, leaf (km_mem (k_km s')) pt va = 0) ->
  (forall p', p' <> p -> k_procs s' p' = k_procs s p') ->
  footprint (k_procs s' p) = (false, ks, pt, ks + PG_SIZE - TF_SIZE) -> p_size (k_procs s' p) = 0 ->
  procs_ok F s' l' O'.
Proof.
  intros H Hp Hun Nk Np Nkp O' HI Hleaf Hz Hpr Hf Hsz. pose proof Hf as [= F1 F2 F3 F4].
  assert (Hst : p_state (k_procs s' p) <> UNUSED) by (intros E; by rewrite bool_decide_true in F1).
  rewrite F1 in F4.
  assert (Hl : forall p', live s' p' <-> live s p' \/ p' = p).
  { intros p'. unfold live. destruct (decide (p' = p)) as [->|]; [|rewrite Hpr by done; tauto]. tauto. }
  assert (Hold : forall p', live s p' -> p' <> p /\ k_procs s' p' = k_procs s p' /\
      p_kstack (k_procs s p') <> ks /\ p_kstack (k_procs s p') <> pt /\ p_pagetable (k_procs s p') <> pt /\ p_pagetable (k_procs s p') <> ks).
  { intros p' Hp'. pose proof (procs_live _ _ _ _ _ H Hp') as [A1 A2 _ _].
    assert (p' <> p) by (intros ->; by destruct Hp'). split_and!; [done|by apply Hpr|congruence..]. }
  assert (HO : forall c ρ, O !! c = Some ρ -> O' !! c = Some ρ).
  { intros c ρ Hc. unfold O'. rewrite !lookup_insert_ne; [done|congruence|congruence]. }
  split.
  - done.
  - intros p' Hp'. destruct (decide (p' = p)) as [->|Hne].
    + unfold proc_ok. rewrite bool_decide_false by done. split; rewrite ?F2, ?F3, ?F4, ?Hsz.
      * unfold O'. rewrite lookup_insert_ne by done. apply lookup_insert_eq.
      * apply lookup_insert_eq.
      * split; [by vm_compute|lia|]. intros a _. apply Hz.
      * done.
    + rewrite Hpr by done. pose proof (pk_proc _ _ _ _ H p' Hp') as Hok. unfold proc_ok in *. case_bool_decide; [done|].
      destruct Hok as [A1 A2 A3 A4]. split; [by apply HO|by apply HO| |done]. eapply space_leaf; [|exact A3]. intros va. by apply Hleaf.
  - intros p1 p2 [H1| ->]%Hl [H2| ->]%Hl Hn; [|..|done].
    + destruct (Hold p1 H1) as (_ & -> & _), (Hold p2 H2) as (_ & -> & _). by apply (pk_apart _ _ _ _ H).
    + destruct (Hold p1 H1) as (_ & -> & ? & ? & ? & ?). by rewrite F2, F3.
    + destruct (Hold p2 H2) as (_ & -> & ? & ? & ? & ?). rewrite F2, F3. naive_solver.
  - intros c Hc. destruct (pk_fixed _ _ _ _ H c Hc) as [Hc1 Hc2]. split; [by apply HO|].
    intros p' [Hp'| ->]%Hl; [destruct (Hold p' Hp') as (_ & -> & _); by apply Hc2|]. rewrite F2. congruence.
  - intros c ρ Hc. apply lookup_insert_Some in Hc as [[<- <-]|[_ Hc]].
    { exists p. split; [apply Hl; by right|done]. }
    apply lookup_insert_Some in Hc as [[<- <-]|[_ Hc]].
    { right. exists p. split; [apply Hl; by right|done]. }
    pose proof (pk_owner _ _ _ _ H c ρ Hc) as Hown. destruct ρ as [r k b|r v|].
    + destruct Hown as (p' & Hp' & E). exists p'. split; [apply Hl; by left|]. by destruct (Hold p' Hp') as (_ & -> & _).
    + destruct Hown as (p' & Hp' & E). exists p'. split; [apply Hl; by left|]. by destruct (Hold p' Hp') as (_ & -> & _).
    + destruct Hown as [?|(p' & Hp' & E)]; [by left|right]. exists p'. split; [apply Hl; by left|]. by destruct (Hold p' Hp') as (_ & -> & _).
Qed.
End alloc.

(** * [allocproc] *)

Section allocproc.
Context `{KE : KernelEnd, PL : Platform}.

(** The rest of the kernel is untouched. *)
Definition procs_only (s s' : kernel) : Prop :=
  exists k pr n, s' = set_k_nextpid n (set_k_procs pr (set_k_km k s)).

Lemma procs_only_refl s : procs_only s s.
Proof. exists (k_km s), (k_procs s), (k_nextpid s). by destruct s. Qed.
Lemma procs_only_km s s' k : procs_only s s' -> procs_only s (set_k_km k s').
Proof. intros (k0 & pr & n & ->). by exists k, pr, n. Qed.
Lemma procs_only_procs s s' pr : procs_only s s' -> procs_only s (set_k_procs pr s').
Proof. intros (k0 & pr0 & n & ->). by exists k0, pr, n. Qed.
Lemma procs_only_proc s s' p f : procs_only s s' -> procs_only s (set_proc p f s').
Proof. apply procs_only_procs. Qed.
Lemma procs_only_nextpid s s' n : procs_only s s' -> procs_only s (set_k_nextpid n s').
Proof. intros (k0 & pr & n0 & ->). by exists k0, pr, n. Qed.

Ltac procs_frame :=
  repeat lazymatch goal with
  | |- procs_only _ (set_proc _ _ _) => apply procs_only_proc
  | |- procs_only _ (set_k_procs _ _) => apply procs_only_procs
  | |- procs_only _ (set_k_km _ _) => apply procs_only_km
  | |- procs_only _ (set_k_nextpid _ _) => apply procs_only_nextpid
  end.

Record new_proc (F : gset Z) (s : kernel) (l : list Z) (O : gmap Z role) (np : nat)
    (s' : kernel) (l' : list Z) (O' : gmap Z role) : Prop := {
  np_ok : procs_ok F s' l' O';
  np_ext : extended (k_km s) l O (k_km s') l' O';
  np_slot : (np < NPROC)%nat /\ p_state (k_procs s np) = UNUSED;
  np_others : forall p, p <> np -> k_procs s' p = k_procs s p;
  np_state : p_state (k_procs s' np) = USED;
  np_pid : p_pid (k_procs s' np) = k_nextpid s;
  np_size : p_size (k_procs s' np) = 0;
  np_ofile : p_ofile (k_procs s' np) = p_ofile (k_procs s np);
  np_leaf : forall va, leaf (km_mem (k_km s')) (p_pagetable (k_procs s' np)) va = 0;
  np_fresh : O !! p_pagetable (k_procs s' np) = None /\ O !! p_kstack (k_procs s' np) = None;
  np_frame : procs_only s s' /\ k_nextpid s' = s32 (k_nextpid s + 1);
}.

(** No process: everything that was in use is as before. *)
Record no_proc (F : gset Z) (s : kernel) (l : list Z) (O : gmap Z role) (s' : kernel) (l' : list Z) : Prop := {
  no_ok : procs_ok F s' l' O;
  no_ext : extended (k_km s) l O (k_km s') l' O;
  no_pool : forall c, c ∈ l' <-> c ∈ l;
  no_live : forall p, live s' p <-> live s p;
  no_procs : forall p, live s p -> k_procs s' p = k_procs s p;
  no_ofile : forall p, p_ofile (k_procs s' p) = p_ofile (k_procs s p);
  no_frame : procs_only s s';
}.

Lemma find_unused_ok n p s :
  wp (find_unused n p) s (fun r s' => s' = s /\
    match r with
    | Some q => (p <= q < p + n)%nat /\ p_state (k_procs s q) = UNUSED
    | None => True
    end).
Proof.
  revert p. induction n as [|n IH]; intros p; cbn [find_unused]; [by apply wp_ret|].
  apply wp_bind, wp_gets. case_bool_decide as E; [apply wp_ret; split_and!; [done|lia|lia|done]|].
  eapply wp_mono; [apply IH|]. intros [q|] s' [-> H]; [|done]. split; [done|]. destruct H. split; [lia|done].
Qed.

(** [freeproc] of a slot that is not in the account. *)
Lemma no_proc_freed F s l O p s1 l1 O1 :
  procs_ok F s l O -> (p < NPROC)%nat -> p_state (k_procs s p) = UNUSED ->
  extended (k_km s) l O (k_km s1) l1 O1 -> procs_only s s1 ->
  (forall p', p' <> p -> k_procs s1 p' = k_procs s p') ->
  p_pagetable (k_procs s1 p) = 0 -> p_ofile (k_procs s1 p) = p_ofile (k_procs s p) ->
  (p_kstack (k_procs s1 p) = 0 /\ O1 = O \/
   O !! p_kstack (k_procs s1 p) = None /\ O1 = <[p_kstack (k_procs s1 p) := Other]> O) ->
  wp (freeproc p) s1 (fun _ s' => exists l', no_proc F s l O s' l').
Proof.
  intros H Hp Hun Hex Hfr Hoth Hpt Hof Hks. set (q := k_procs s1 p) in *.
  assert (EO : released (p_pagetable q) (delete (p_kstack q) O1) = O).
  { rewrite Hpt. destruct Hks as [[E1 ->]|[E1 ->]].
    - rewrite E1, delete_id by (eapply role_0, H). eapply released_0, H.
    - rewrite delete_insert_id by done. eapply released_0, H. }
  eapply wp_mono; [apply (freeproc_ok s1 l1 O1 p q eq_refl); [apply Hex| |by left]|].
  { destruct Hks as [[E1 _]|[E1 ->]]; [by left|right; apply lookup_insert_eq]. }
  rewrite EO. intros [] s' (k' & l' & [S1 S2 S3 S4 S5] & pr & -> & Hpr). exists l'. destruct Hex as [A1 A2 A3 [A4 A4'] A5 A6].
  assert (Hleaf : forall r va, O !! r = Some (Tab r 0 0) -> leaf (km_mem k') r va = leaf (km_mem (k_km s)) r va).
  { intros r va Hr. rewrite S4 by done. by apply A5. }
  assert (Hpool : forall c, c ∈ l' <-> c ∈ l).
  { intros c. rewrite S3. split.
    - intros [?|[[ρ Hc] HN]]; [auto|]. destruct (A3 c ρ Hc); [congruence|done].
    - intros Hc. destruct (A4' c Hc) as [?|?]; [by left|right]. split; [done|]. eapply vi_free; [apply H|done]. }
  assert (Hprs : forall p', live s p' -> pr p' = k_procs s p').
  { intros p' [_ Hl]. assert (p' <> p) by congruence. rewrite Hpr, upd_ne by done. by apply Hoth. }
  assert (Hfoot : forall p', footprint (pr p') = footprint (k_procs s p') /\ p_size (pr p') = p_size (k_procs s p')).
  { intros p'. rewrite Hpr. destruct (decide (p' = p)) as [->|Hne]; [|by rewrite upd_ne, Hoth by done].
    rewrite upd_eq. unfold footprint. destruct (procs_unused F s l O p H Hp Hun) as (-> & -> & ->).
    rewrite !bool_decide_true by done. done. }
  split.
  - eapply procs_ok_change; [exact H|done|done|done|apply Hfoot|intros; apply Hfoot|].
    intros p' Hl. cbn [k_km k_procs set_k_procs set_k_km]. rewrite (proj2 (Hfoot p')).
    eapply space_leaf; [|by apply (procs_live _ _ _ _ _ H Hl)]. intros va. by apply Hleaf, (procs_live _ _ _ _ _ H Hl).
  - split; try done; [by left| |].
    + split; [by apply Hpool|]. intros c Hc. left. by apply Hpool.
    + intros c ρ x Hc Hn Hx. cbn. rewrite (S5 c ρ) by done. by eapply A6.
  - done.
  - intros p'. unfold live. pose proof (footprint_unused _ _ (proj1 (Hfoot p'))). cbn. tauto.
  - done.
  - intros p'. cbn [k_procs set_k_procs]. rewrite Hpr. destruct (decide (p' = p)) as [->|Hne]; [by rewrite upd_eq|by rewrite upd_ne, Hoth].
  - by apply procs_only_procs, procs_only_km.
Qed.

Lemma fresh_table m r va : kpage r -> (forall x, in_page r x -> m x = 0) -> leaf m r va = 0.
Proof.
  intros Hr Hz. pose proof (PX_range 0 va ltac:(lia)) as HP. assert (E : tab_path m r va 1 = None).
  { simpl. unfold tab_next. change (Z.of_nat 0) with 0. rewrite kpage_slot by done.
    rewrite load64_zero; [done|]. intros x Hx. apply Hz. by eapply ent_in_page. }
  unfold leaf. change (tab_path m r va 3) with
    (p ← (q ← tab_path m r va 1; tab_next m q (PX 1 va)); tab_next m p (PX 2 va)). by rewrite E.
Qed.

Lemma kpage_stack ks : kpage ks -> u64 (ks + PROC_KSTACK_SIZE) = ks + PG_SIZE.
Proof.
  intros (_ & H1 & H2). pose proof kend_ok. apply u64_small. unfold PROC_KSTACK_SIZE, KERN_BASE, PHY_STOP, PHY_BASE, PG_SIZE in *. lia.
Qed.

(** The page table of the new process, and the start of its kernel stack. *)
Definition stack_stores (ks : Z) (m : mem) : mem :=
  store64 (store64 m (ks + PG_SIZE - TF_SIZE - 8) trapret) (ks + PG_SIZE - TF_SIZE - 8 - 8) (u64 (ks + PROC_KSTACK_SIZE)).

Lemma stack_stores_out ks m x : ~ in_page ks x -> stack_stores ks m x = m x.
Proof. intros Hx. unfold stack_stores, in_page, TF_SIZE, PG_SIZE in *. rewrite !store64_out by lia. done. Qed.

Lemma extended_stack s l O s2 l2 ks pt :
  vm_inv s (ks :: pt :: l) O ->
  extended s (ks :: pt :: l) O s2 l2 (<[pt := Other]> (<[ks := Other]> O)) -> (forall x, in_page pt x -> km_mem s2 x = 0) ->
  let s3 := set_mem (stack_stores ks) s2 in let O' := <[pt := Tab pt 0 0]> (<[ks := Other]> O) in
  extended s (ks :: pt :: l) O s3 l2 O' /\ forall va, leaf (km_mem s3) pt va = 0.
Proof.
  intros HI Hex Hz s3 O'. pose proof (vi_pool _ _ _ HI) as [Hks [Hpt _]%Forall_cons]%Forall_cons.
  pose proof (ki_nodup _ _ _ (vi_kmem _ _ _ HI)) as [Hne _]%NoDup_cons.
  assert (Nkp : ks <> pt) by set_solver.
  assert (Ok : O !! ks = None) by (eapply vi_free; [exact HI|left]).
  assert (Op : O !! pt = None) by (eapply vi_free; [exact HI|right; left]).
  assert (Hex3 : extended s (ks :: pt :: l) O s3 l2 (<[pt := Other]> (<[ks := Other]> O))).
  { apply (extended_write _ _ _ _ _ _ ks); [done|done| | |].
    - rewrite lookup_insert_ne by done. apply lookup_insert_eq.
    - unfold stack_stores. do 2 apply store64_ok. apply (vi_bytes _ _ _ (ex_inv _ _ _ _ _ _ Hex)).
    - intros x. apply stack_stores_out. }
  assert (Hz3 : forall x, in_page pt x -> km_mem s3 x = 0).
  { intros x Hx. unfold s3. simpl. rewrite stack_stores_out; [by apply Hz|]. intros Hx'. apply Nkp.
    eapply in_page_disjoint; [apply Hks|apply Hpt|done|done]. }
  split; [|intros va; by apply fresh_table].
  assert (EO : O' = <[pt := Tab pt 0 0]> (<[pt := Other]> (<[ks := Other]> O))) by (by rewrite insert_insert_eq).
  destruct Hex3 as [A1 A2 A3 [A4 A4'] A5 A6]. split; try done.
  - rewrite EO. apply vm_root; [done|apply lookup_insert_eq|]. intros i Hi. apply load64_zero. intros x Hx. apply Hz3. by eapply ent_in_page.
  - intros p ρ Hp. unfold O'. rewrite !lookup_insert_ne; [done|congruence|congruence].
  - intros p ρ [[<- _]|[_ [[<- _]|[_ ?]]%lookup_insert_Some]]%lookup_insert_Some; [right; right; left|right; left|by left].
  - split; [done|]. intros p Hp. destruct (A4' p Hp) as [?|Hs]; [by left|right]. rewrite EO, lookup_insert. case_decide; eauto.
Qed.

Lemma set_mem_twice f g k : set_mem f (set_mem g k) = set_mem (fun m => f (g m)) k.
Proof. done. Qed.

(** The second half of [allocproc], with the kernel stack in hand. *)
Lemma allocproc_space_ok F s ks l O p s1 k1 :
  procs_ok F s (ks :: l) O -> (p < NPROC)%nat -> p_state (k_procs s p) = UNUSED ->
  k_km s1 = k1 -> vm_inv k1 l (<[ks := Other]> O) -> (forall x, ~ in_page ks x -> km_mem k1 x = km_mem (k_km s) x) ->
  procs_only s s1 -> k_nextpid s1 = s32 (k_nextpid s + 1) -> (forall p', p' <> p -> k_procs s1 p' = k_procs s p') ->
  k_procs s1 p = set_p_kstack ks (set_p_state USED (set_p_pid (k_nextpid s) (k_procs s p))) ->
  wp (allocproc_space p (ks + PG_SIZE)) s1 (fun r s' => exists l' O',
    (r = None /\ no_proc F s (ks :: l) O s' l') \/ (r = Some p /\ new_proc F s (ks :: l) O p s' l' O')).
Proof.
  intros H Hp Hun Ek I1 M1 Hfr Hpid Hoth Hq. pose proof (pk_vm _ _ _ _ H) as HI.
  destruct (procs_unused F s _ O p H Hp Hun) as (U1 & U2 & U3). pose proof (extended_take _ _ _ _ _ HI I1 M1) as X1.
  pose proof (vi_pool _ _ _ HI) as [Hks Hpl]%Forall_cons. assert (Ok : O !! ks = None) by (eapply vi_free; [exact HI|left]).
  unfold allocproc_space, the_proc. apply wp_bind, wp_gets. rewrite Hq. cbn [p_kstack set_p_kstack]. apply wp_bind, wp_vm. rewrite Ek.
  destruct l as [|pt l].
  { eapply wp_ok; [apply (kalloc_empty kend), I1|]. apply wp_bind, wp_modify. rewrite Z.eqb_refl. apply wp_bind.
    eapply wp_mono; [apply (no_proc_freed F s [ks] O p _ [] (<[ks := Other]> O)); try done|].
    - by apply procs_only_proc, procs_only_km.
    - intros p' Hne. unfold set_proc. cbn [k_procs set_k_procs set_k_km]. rewrite upd_ne by done. by apply Hoth.
    - unfold set_proc. cbn [k_procs set_k_procs set_k_km]. by rewrite upd_eq.
    - unfold set_proc. cbn [k_procs set_k_procs set_k_km]. by rewrite upd_eq, Hq.
    - right. unfold set_proc. cbn [k_procs set_k_procs set_k_km]. rewrite upd_eq, Hq. done.
    - intros [] s' (l' & Hno). apply wp_ret. exists l', O. by left. }
  destruct (kalloc_zeroed k1 pt l (<[ks := Other]> O) I1) as (k2 & Hk2 & I2 & M2 & Z2). eapply wp_ok; [exact Hk2|].
  apply Forall_cons in Hpl as [Hpt _]. apply wp_bind, wp_modify. rewrite (proj2 (Z.eqb_neq pt 0) (kpage_ne_0 pt Hpt)).
  apply wp_bind, wp_vm, wp_modify. cbv zeta. apply wp_bind, wp_modify. do 2 (apply wp_bind, wp_vm, wp_modify). apply wp_bind, wp_modify, wp_ret.
  set (k3 := set_mem (fun m => memset m pt 0 PG_SIZE) k2) in *.
  assert (X2 : extended (k_km s) (ks :: pt :: l) O k3 l (<[pt := Other]> (<[ks := Other]> O))).
  { eapply extended_trans; [exact X1|]. by apply extended_take. }
  destruct (extended_stack (k_km s) l O k3 l ks pt HI X2 Z2) as [X3 L3].
  exists l, (<[pt := Tab pt 0 0]> (<[ks := Other]> O)). right. split; [done|].
  match goal with |- new_proc _ _ _ _ _ ?s' _ _ => set (s4 := s') end.
  assert (Ekm : k_km s4 = set_mem (stack_stores ks) k3).
  { unfold s4, set_proc, stack_stores. cbn [k_km set_k_km set_k_procs]. by rewrite set_mem_twice. }
  clearbody k3.
  assert (Hoth4 : forall p', p' <> p -> k_procs s4 p' = k_procs s p').
  { intros p' Hne. rewrite <- Hoth by done. unfold s4, set_proc. cbn [k_procs set_k_procs set_k_km]. by rewrite !upd_ne. }
  assert (Hq4 : exists ctx, k_procs s4 p = set_p_context ctx (set_p_trapframe (ks + PG_SIZE - TF_SIZE)
    (set_p_pagetable pt (k_procs s1 p)))).
  { eexists. unfold s4, set_proc. cbn [k_procs set_k_procs set_k_km]. by rewrite !upd_eq. }
  destruct Hq4 as [ctx Hq4]. rewrite Hq in Hq4. assert (Op : O !! pt = None) by (eapply vi_free; [exact HI|right; left]).
  assert (Nkp : ks <> pt).
  { pose proof (ki_nodup _ _ _ (vi_kmem _ _ _ HI)) as [Hne _]%NoDup_cons. by apply not_elem_of_cons in Hne as [? _]. }
  assert (Hfr4 : procs_only s s4 /\ k_nextpid s4 = s32 (k_nextpid s + 1)).
  { split; [|exact Hpid]. unfold s4. procs_frame. exact Hfr. }
  clearbody s4. split; rewrite ?Hq4, ?Ekm; cbn; [|exact X3|done|exact Hoth4|done|done|exact U3|done|exact L3|done|done].
  apply (procs_ok_alloc F s (ks :: pt :: l) O p s4 l ks pt); rewrite ?Ekm; [done|done|done|done|done|done|apply X3|apply X3|done|done| |].
  - by rewrite Hq4.
  - by rewrite Hq4.
Qed.

Lemma allocproc_found_ok F s l O p :
  procs_ok F s l O -> (p < NPROC)%nat -> p_state (k_procs s p) = UNUSED ->
  wp (allocproc_found p) s (fun r s' => exists l' O',
    (r = None /\ no_proc F s l O s' l') \/ (r = Some p /\ new_proc F s l O p s' l' O')).
Proof.
  intros H Hp Hun. pose proof (pk_vm _ _ _ _ H) as HI. destruct (procs_unused F s l O p H Hp Hun) as (U1 & U2 & U3).
  unfold allocproc_found, allocpid. apply wp_bind, wp_bind, wp_gets, wp_bind, wp_modify, wp_ret.
  do 2 (apply wp_bind, wp_modify). set (s1 := set_proc p (set_p_state USED) _). apply wp_bind, wp_vm.
  assert (Hq1 : k_procs s1 p = set_p_state USED (set_p_pid (k_nextpid s) (k_procs s p))).
  { unfold s1, set_proc. cbn [k_procs set_k_procs]. by rewrite !upd_eq. }
  assert (Ho1 : forall p', p' <> p -> k_procs s1 p' = k_procs s p').
  { intros p' Hne. unfold s1, set_proc. cbn [k_procs set_k_procs set_k_nextpid]. by rewrite !upd_ne. }
  assert (Hfr1 : procs_only s s1) by (do 2 apply procs_only_proc; apply procs_only_nextpid, procs_only_refl).
  assert (Hpid1 : k_nextpid s1 = s32 (k_nextpid s + 1)) by done. assert (Ekm : k_km s1 = k_km s) by done. rewrite Ekm. clearbody s1.
  destruct l as [|ks l].
  { eapply wp_ok; [apply (kalloc_empty kend), HI|]. apply wp_bind, wp_modify. rewrite Z.eqb_refl. apply wp_bind.
    eapply wp_mono; [apply (no_proc_freed F s [] O p _ [] O); [done|done|done| | | | | |]|].
    - by apply extended_refl.
    - by apply procs_only_proc, procs_only_km.
    - intros p' Hne. unfold set_proc. cbn [k_procs set_k_procs set_k_km]. rewrite upd_ne by done. by apply Ho1.
    - unfold set_proc. cbn [k_procs set_k_procs set_k_km]. rewrite upd_eq, Hq1. exact U2.
    - unfold set_proc. cbn [k_procs set_k_procs set_k_km]. by rewrite upd_eq, Hq1.
    - left. split; [|done]. unfold set_proc. cbn [k_procs set_k_procs set_k_km]. by rewrite upd_eq.
    - intros [] s' (l' & Hno). apply wp_ret. exists l', O. by left. }
  destruct (kalloc_zeroed (k_km s) ks l O HI) as (k1 & Hk1 & I1 & M1 & Z1). eapply wp_ok; [exact Hk1|].
  pose proof (vi_pool _ _ _ HI) as [Hks _]%Forall_cons.
  apply wp_bind, wp_modify. rewrite (proj2 (Z.eqb_neq ks 0) (kpage_ne_0 ks Hks)). apply wp_bind, wp_vm, wp_modify.
  rewrite kpage_stack by done.
  eapply (allocproc_space_ok F s ks l O p); [done|done|done|reflexivity|exact I1|exact M1| |exact Hpid1| |].
  - by apply procs_only_km, procs_only_proc, procs_only_km.
  - intros p' Hne. rewrite <- Ho1 by done. unfold set_proc. cbn [k_procs set_k_procs set_k_km]. by rewrite upd_ne.
  - unfold set_proc. cbn [k_procs set_k_procs set_k_km]. by rewrite upd_eq, Hq1.
Qed.

(** [allocproc] takes an unused slot and gives it a kernel stack and an empty
    address space, or leaves everything in use as it was. *)
Lemma allocproc_accounts F s l O :
  procs_ok F s l O ->
  wp allocproc s (fun r s' => exists l' O',
    (r = None /\ no_proc F s l O s' l') \/ exists np, r = Some np /\ new_proc F s l O np s' l' O').
Proof.
  intros H. unfold allocproc. apply wp_bind. eapply wp_mono; [apply find_unused_ok|]. intros [p|] s1 [-> Hp].
  - destruct Hp as [Hp Hun]. eapply wp_mono; [apply (allocproc_found_ok F s l O p); [done|lia|done]|].
    intros r s' (l' & O' & [Hr|Hr]); exists l', O'; [by left|right; by exists p].
  - apply wp_ret. exists l, O. left. split; [done|]. split; try done; [by apply extended_refl, H|apply procs_only_refl].
Qed.
End allocproc.
