(* ===== verification/ProcLife.v ===== *)
(** The life of a process, [kernel/proc.c]: [fork] and [wait]. *)

From stdpp Require Import gmap.
From S2P Require Import Prelude CString Layout Kalloc Vm VmTables VmOps VmExample VmCopy VmFork VmFree Sleeplock Bio Log Kernel UserMem Sched Uart Printf Console Fs Pipe File Args Process ProcMem.

Section copy.
Context `{KE : KernelEnd}.

(** Pages for an address space that is itself new. *)
Lemma extended_allocated s0 l0 O0 s l O r va n f c s' l' O' :
  extended s0 l0 O0 s l O -> O0 !! r = None -> allocated s l O r va n f c s' l' O' -> extended s0 l0 O0 s' l' O'.
Proof.
  intros [B1 B2 B3 [B4 B4'] B5 B6] Hr [A1 A2 A3 [A4 A4'] A5 A6 A7]. split.
  - done.
  - auto.
  - intros p ρ Hp. destruct (A3 p ρ Hp) as [?|[? _]]; auto.
  - split; [auto|]. intros p Hp. destruct (B4' p Hp) as [?|[ρ ?]]; [auto|right; eauto].
  - intros r' va' Hr'. rewrite A5; [by apply B5|by apply B2|]. intros [-> _]. congruence.
  - intros p ρ x Hp Hn Hx. rewrite <- (B6 p ρ x Hp Hn Hx).
    destruct (off_tables s l O p ρ x B1 (B2 _ _ Hp) Hn Hx). auto.
Qed.

(** The entry [uvmcopy] makes for a copied page. *)
Lemma copy_entry d e : kpage d -> Z.land e MM_TYPE_MASK = MM_TYPE_PAGE ->
  let e' := Z.lor (Z.land d PG_ADDR_MASK) (Z.land e MASK_4K_PAGE) in
  Z.land e' MM_TYPE_MASK = MM_TYPE_PAGE /\ Z.land e' AP_USER = Z.land e AP_USER /\ P2V (Z.land e' PG_ADDR_MASK) = d.
Proof.
  intros Hd He e'. pose proof (pte_leaf_make d (Z.land e MASK_4K_PAGE) Hd (mask_flags e He)) as HL.
  split_and!; [apply HL| |by apply (pte_leaf_addr e' d)].
  unfold e'. rewrite Z.land_lor_distr_l, <- !Z.land_assoc.
  change (Z.land PG_ADDR_MASK AP_USER) with 0. change (Z.land MASK_4K_PAGE AP_USER) with AP_USER. by rewrite Z.land_0_r.
Qed.

(** After [uvmcopy] the child sees what the parent saw. *)
Lemma clone_user s l O old new size s' l' O' :
  vm_inv s l O -> O !! old = Some (Tab old 0 0) -> O !! new = Some (Tab new 0 0) ->
  space (km_mem s) old size -> (forall va, leaf (km_mem s) new va = 0) ->
  allocated s l O new 0 ((size + PG_SIZE - 1) / PG_SIZE) (copy_flags s old) (copy_bytes s old) s' l' O' ->
  space (km_mem s') new size /\ forall va, 0 <= va -> ubyte (km_mem s') new va = ubyte (km_mem s) old va.
Proof.
  intros HI Hold Hnew Hsp Hz [A1 A2 A3 A4 A5 A6 A7]. pose proof Hsp as [Hs Hmap Hend].
  destruct (round_up_pages size Hs) as (E & H0 & Hmax). set (n := (size + PG_SIZE - 1) / PG_SIZE) in *.
  change (0 / PG_SIZE) with 0 in *. rewrite Z.add_0_l in *.
  assert (Hin : forall va, 0 <= va < MAXVA -> va < n * PG_SIZE -> exists d e,
     leaf (km_mem s) old va = e /\ Z.land e MM_TYPE_MASK = MM_TYPE_PAGE /\ kpage d /\
     leaf (km_mem s') new va = Z.lor (Z.land d PG_ADDR_MASK) (Z.land e MASK_4K_PAGE) /\
     forall x, in_page d x -> km_mem s' x = km_mem s (P2V (Z.land e PG_ADDR_MASK) + (x - d))).
  { intros va Hva Hlt. pose proof (vpn_user va Hva) as Ev. destruct (A6 va) as (d & Hd & _ & Hl & Hb).
    { rewrite Ev. unfold PG_SIZE in *. zlia. }
    assert (El : leaf (km_mem s) old (vpn va * PG_SIZE) = leaf (km_mem s) old va).
    { apply (leaf_vpn s l O); [done|done|]. rewrite Ev, vpn_user by (unfold PG_SIZE, MAXVA in *; zlia). by rewrite Z.div_mul. }
    exists d, (leaf (km_mem s) old va). split_and!; [done| |by eapply (vi_page _ _ _ A1)|rewrite Hl; unfold copy_flags; by rewrite El|].
    - eapply (leaf_valid s l O); [done..|]. rewrite <- El. apply Hmap. rewrite Ev. unfold n, PG_SIZE in *. zlia.
    - intros x Hx. rewrite (Hb x Hx). unfold copy_bytes. by rewrite El. }
  assert (Hout : forall va, n * PG_SIZE <= va < MAXVA -> leaf (km_mem s') new va = 0 /\ leaf (km_mem s) old va = 0).
  { intros va Hva. split; [|apply Hend; lia]. rewrite A5; [apply Hz|done|]. rewrite vpn_user by (unfold PG_SIZE in *; lia).
    intros [_ ?]. unfold PG_SIZE in *. zlia. }
  split.
  - split; [done| |intros a Ha; apply Hout; lia]. intros a Ha.
    destruct (Hin a) as (d & e & _ & He & Hd & -> & _); [lia|unfold n, PG_SIZE in *; zlia|].
    destruct (copy_entry d e Hd He) as (Ht & _). intros E0. rewrite E0 in Ht. done.
  - intros va Hva. unfold ubyte, uaddr, upage. destruct (Z.ltb_spec va 0); [lia|]. destruct (Z.leb_spec MAXVA va); [done|].
    destruct (decide (va < n * PG_SIZE)) as [Hlt|Hge].
    + destruct (Hin va) as (d & e & -> & He & Hd & -> & Hb); [lia|done|].
      destruct (copy_entry d e Hd He) as (-> & -> & ->). rewrite He, Z.eqb_refl. cbn [negb].
      destruct (Z.land e AP_USER =? 0); [done|]. simpl. f_equal. rewrite Hb; [f_equal; lia|].
      unfold in_page. pose proof (Z.mod_pos_bound va PG_SIZE). unfold PG_SIZE in *. lia.
    + destruct (Hout va) as [-> ->]; [lia|done].
Qed.
End copy.

(** * Open files *)

Section files.
Context `{KE : KernelEnd, PL : Platform}.

(** How often a file is open in a table, and in all processes. *)
Definition occ (f : nat) (l : list (option nat)) : nat := length (filter (fun o => o = Some f) l).
Definition refs (s : kernel) (f : nat) : nat :=
  sum_list_with (fun p => occ f (p_ofile (k_procs s p))) (seq 0 NPROC).

(** Every descriptor holds a reference; an unused slot and a process that has
    exited have none open. *)
Record files_ok (s : kernel) : Prop := {
  fo_length : forall p, (p < NPROC)%nat -> length (p_ofile (k_procs s p)) = NOFILE;
  fo_closed : forall p, (p < NPROC)%nat -> p_state (k_procs s p) = UNUSED \/ p_state (k_procs s p) = ZOMBIE ->
    p_ofile (k_procs s p) = replicate NOFILE None;
  fo_refs : forall f, Z.of_nat (refs s f) <= f_ref (k_ftable s f);
}.

Lemma sum_list_with_pt {A} (g g' : A -> nat) (l : list A) (a : A) :
  NoDup l -> a ∈ l -> (forall b, b <> a -> g' b = g b) -> (sum_list_with g' l + g a = sum_list_with g l + g' a)%nat.
Proof.
  intros Hnd Ha Hg. induction Hnd as [|b l Hb Hnd IH]; [by apply elem_of_nil in Ha|]. cbn [sum_list_with].
  apply elem_of_cons in Ha as [<-|Ha].
  - assert (sum_list_with g' l = sum_list_with g l) as ->; [|lia]. clear IH. induction l as [|c l IH]; [done|]. cbn [sum_list_with].
    apply not_elem_of_cons in Hb as [Hne Hb]. apply NoDup_cons in Hnd as [_ Hnd]. rewrite IH, Hg by done. done.
  - rewrite Hg by (intros ->; done). specialize (IH Ha). lia.
Qed.

Lemma refs_one s s' p f :
  (p < NPROC)%nat -> (forall p', p' <> p -> p_ofile (k_procs s' p') = p_ofile (k_procs s p')) ->
  (refs s' f + occ f (p_ofile (k_procs s p)) = refs s f + occ f (p_ofile (k_procs s' p)))%nat.
Proof.
  intros Hp Ho. apply (sum_list_with_pt (fun p => occ f (p_ofile (k_procs s p)))).
  - apply NoDup_seq.
  - apply elem_of_seq. lia.
  - intros p' Hne. by rewrite Ho.
Qed.

Lemma refs_same s s' f : (forall p, p_ofile (k_procs s' p) = p_ofile (k_procs s p)) -> refs s' f = refs s f.
Proof. intros H. pose proof (refs_one s s' 0 f ltac:(unfold NPROC; lia) ltac:(intros; apply H)). rewrite H in *. lia. Qed.

Lemma occ_open f l fd : l !! fd = Some (Some f) -> (1 <= occ f l)%nat.
Proof.
  intros H. unfold occ. apply list_elem_of_lookup_2 in H. assert (Some f ∈ filter (fun o => o = Some f) l) as Hin by (by apply list_elem_of_filter).
  destruct (filter _ l); [by apply elem_of_nil in Hin|simpl; lia].
Qed.

Lemma refs_open s p f fd : (p < NPROC)%nat -> p_ofile (k_procs s p) !! fd = Some (Some f) -> (1 <= refs s f)%nat.
Proof.
  intros Hp H. apply occ_open in H. etrans; [exact H|]. unfold refs. assert (p ∈ seq 0 NPROC) as Hin by (apply elem_of_seq; lia).
  induction (seq 0 NPROC) as [|a l IH]; [by apply elem_of_nil in Hin|]. cbn [sum_list_with].
  apply elem_of_cons in Hin as [<-|Hin]; [lia|]. specialize (IH Hin). lia.
Qed.

(** The table of the child after descriptors [i .. i + n). *)
Definition dup_at (ofs o : list (option nat)) (i n fd : nat) : option (option nat) :=
  if decide (i <= fd < i + n)%nat then match ofs !! fd with Some (Some f) => Some (Some f) | _ => o !! fd end else o !! fd.

Record dupped (s : kernel) (np : nat) (ofs : list (option nat)) (i n : nat) (s' : kernel) : Prop := {
  du_frame : exists ft pr, s' = set_k_ftable ft (set_k_procs pr s);
  du_others : forall p, p <> np -> k_procs s' p = k_procs s p;
  du_child : exists o, k_procs s' np = set_p_ofile o (k_procs s np) /\ length o = length (p_ofile (k_procs s np)) /\
    forall fd, o !! fd = dup_at ofs (p_ofile (k_procs s np)) i n fd;
  du_files : forall f, k_ftable s' f = set_f_ref (f_ref (k_ftable s f) + Z.of_nat (occ f (take n (drop i ofs)))) (k_ftable s f);
}.

Lemma dup_files_ok n p np i s :
  p <> np -> let ofs := p_ofile (k_procs s p) in (i + n <= length ofs)%nat -> length (p_ofile (k_procs s np)) = length ofs ->
  (forall fd f, (i <= fd)%nat -> ofs !! fd = Some (Some f) -> 1 <= f_ref (k_ftable s f)) ->
  wp (dup_files n p np i) s (fun _ s' => dupped s np ofs i n s').
Proof.
  intros Hne. revert i s. induction n as [|n IH]; intros i s ofs Hlen Hl Href; cbn [dup_files].
  { apply wp_ret. split.
    - exists (k_ftable s), (k_procs s). by destruct s.
    - done.
    - exists (p_ofile (k_procs s np)). split_and!; [by destruct (k_procs s np)|done|].
      intros fd. unfold dup_at. rewrite decide_False by lia. done.
    - intros f. cbn. rewrite Z.add_0_r. by destruct (k_ftable s f). }
  destruct (lookup_lt_is_Some_2 ofs i ltac:(lia)) as [o Ho]. apply wp_bind, wp_gets. fold ofs. rewrite Ho.
  assert (Hdrop : forall f, occ f (take (S n) (drop i ofs)) = (occ f [o] + occ f (take n (drop (S i) ofs)))%nat).
  { intros f. rewrite (drop_S _ _ _ Ho). cbn [take]. change (o :: ?x) with ([o] ++ x). unfold occ. by rewrite filter_app, length_app. }
  destruct o as [f|]; cbn [mjoin option_join].
  - unfold filedup, the_file. apply wp_bind, wp_bind, wp_bind, wp_gets.
    rewrite (proj2 (Z.ltb_ge _ _)) by (by apply (Href i)). apply wp_bind, wp_modify, wp_ret, wp_modify.
    set (s1 := set_proc np _ _). assert (Hofs1 : p_ofile (k_procs s1 p) = ofs).
    { unfold s1, set_proc. cbn [k_procs set_k_procs set_file]. by rewrite upd_ne. }
    assert (Hnp1 : k_procs s1 np = set_p_ofile (<[i := Some f]> (p_ofile (k_procs s np))) (k_procs s np)).
    { unfold s1, set_proc. cbn [k_procs set_k_procs set_file]. by rewrite upd_eq. }
    assert (Hft1 : forall g, k_ftable s1 g = set_f_ref (f_ref (k_ftable s g) + Z.of_nat (occ g [Some f])) (k_ftable s g)).
    { intros g. unfold s1, set_file. cbn [k_ftable set_proc set_k_procs set_k_ftable]. unfold occ.
      destruct (decide (g = f)) as [->|Hg].
      - rewrite upd_eq, filter_cons_True by done. done.
      - rewrite upd_ne, filter_cons_False by congruence. cbn. rewrite Z.add_0_r. by destruct (k_ftable s g). }
    assert (Hfr1 : exists ft pr, s1 = set_k_ftable ft (set_k_procs pr s)) by (by eexists _, _).
    assert (Hoth1 : forall p', p' <> np -> k_procs s1 p' = k_procs s p').
    { intros p' Hp'. unfold s1, set_proc. cbn [k_procs set_k_procs set_file]. by rewrite upd_ne. }
    clearbody s1. eapply wp_mono; [apply (IH (S i) s1)|].
    + rewrite Hofs1. lia.
    + rewrite Hofs1, Hnp1. cbn. by rewrite length_insert.
    + intros fd g Hfd Hg. rewrite Hofs1 in Hg. rewrite Hft1. cbn. pose proof (Href fd g ltac:(lia) Hg). lia.
    + rewrite Hofs1. intros [] s2 [(ft & pr & ->) D2 (o & D3 & D4 & D5) D6]. rewrite Hnp1 in D3, D4, D5. cbn [p_ofile set_p_ofile] in D4, D5.
      split.
      * destruct Hfr1 as (ft1 & pr1 & ->). by eexists _, _.
      * intros p' Hp'. rewrite D2 by done. by apply Hoth1.
      * exists o. split_and!; [by rewrite D3|by rewrite D4, length_insert|]. intros fd. rewrite D5. unfold dup_at.
        destruct (decide (fd = i)) as [->|Hfd].
        { rewrite decide_False, (decide_True (P := (i <= i < i + S n)%nat)), Ho by lia. apply list_lookup_insert_eq. lia. }
        rewrite list_lookup_insert_ne by done. repeat case_decide; try done; lia.
      * intros g. rewrite D6, Hft1, Hdrop, Nat2Z.inj_add, Z.add_assoc. done.
  - apply wp_bind, wp_ret. eapply wp_mono; [apply (IH (S i) s)|]; [fold ofs; lia|done| |].
    { intros fd g Hfd. apply Href. lia. }
    fold ofs. intros [] s2 [D1 D2 (o & D3 & D4 & D5) D6]. split; [done|done| |].
    + exists o. split_and!; [done|done|]. intros fd. rewrite D5. unfold dup_at.
      destruct (decide (fd = i)) as [->|Hfd]; [rewrite decide_False, decide_True, Ho by lia; done|]. repeat case_decide; try done; lia.
    + intros g. rewrite D6, Hdrop. done.
Qed.
End files.

(** * The memory of the processes that are not concerned *)

Section untouched.
Context `{KE : KernelEnd, PL : Platform}.

(** The process sees the same memory and its kernel stack is the same. *)
Record untouched (k : kmem) (q : proc) (k' : kmem) : Prop := {
  ut_user : forall va, ubyte (km_mem k') (p_pagetable q) va = ubyte (km_mem k) (p_pagetable q) va;
  ut_stack : forall x, in_page (p_kstack q) x -> km_mem k' x = km_mem k x;
}.

Lemma untouched_refl k q : untouched k q k.
Proof. done. Qed.
Lemma untouched_trans k q k1 k2 : untouched k q k1 -> untouched k1 q k2 -> untouched k q k2.
Proof. intros [A1 A2] [B1 B2]. split; [intros va; by rewrite B1|intros x Hx; rewrite B2; auto]. Qed.

Lemma extended_untouched k l O q k' l' O' :
  vm_inv k l O -> O !! p_kstack q = Some Other -> O !! p_pagetable q = Some (Tab (p_pagetable q) 0 0) ->
  extended k l O k' l' O' -> untouched k q k'.
Proof.
  intros HI Hk Hp [A1 A2 A3 A4 A5 A6]. split.
  - apply (user_same k l O); [done|done|intros va; by apply A5|]. intros d v x Hd Hx. by apply (A6 d (Dat (p_pagetable q) v)).
  - intros x Hx. by apply (A6 _ _ x Hk).
Qed.

Lemma shrunk_untouched k l O q k' l' O' :
  O' !! p_kstack q = Some Other -> O' !! p_pagetable q = Some (Tab (p_pagetable q) 0 0) ->
  shrunk k l O k' l' O' -> untouched k q k'.
Proof.
  intros Hk Hp [A1 A2 A3 A4 A5]. split.
  - intros va. symmetry. apply (user_same k' l' O'); [done|done|intros va'; symmetry; by apply A4|].
    intros d v x Hd Hx. symmetry. by apply (A5 d (Dat (p_pagetable q) v)).
  - intros x Hx. by apply (A5 _ _ x Hk).
Qed.

(** A write to a kernel page. *)
Lemma write_untouched F s l O c f k' :
  procs_ok F s l O -> O !! c = Some Other -> k' = set_mem f (k_km s) ->
  bytes_ok (f (km_mem (k_km s))) -> (forall x, ~ in_page c x -> f (km_mem (k_km s)) x = km_mem (k_km s) x) ->
  procs_ok F (set_k_km k' s) l O /\ forall p, live s p ->
    (forall va, ubyte (km_mem k') (p_pagetable (k_procs s p)) va = ubyte (km_mem (k_km s)) (p_pagetable (k_procs s p)) va) /\
    (p_kstack (k_procs s p) <> c -> untouched (k_km s) (k_procs s p) k').
Proof.
  intros H Hc -> Hb Hout. pose proof (pk_vm _ _ _ _ H) as HI. pose proof (vi_page _ _ _ HI _ _ Hc) as Hck.
  assert (Hoff : forall p ρ x, O !! p = Some ρ -> p <> c -> in_page p x -> f (km_mem (k_km s)) x = km_mem (k_km s) x).
  { intros p ρ x Hp Hne Hx. apply Hout. intros Hcx. apply Hne.
    eapply in_page_disjoint; [by apply (vi_page _ _ _ HI _ _ Hp)|apply Hck|done|done]. }
  assert (HI' : vm_inv (set_mem f (k_km s)) l O).
  { eapply vm_inv_write; [done|done|done| |].
    - intros p r k b x Hp Hx. apply (Hoff p _ x Hp); [congruence|done].
    - intros p x Hp Hx. apply Hout. intros Hcx. by eapply (page_not_pool _ _ _ c _ p x HI). }
  assert (Hleaf : forall r va, O !! r = Some (Tab r 0 0) -> leaf (f (km_mem (k_km s))) r va = leaf (km_mem (k_km s)) r va).
  { intros r va Hr. apply (leaf_frame (k_km s) l O (set_mem f (k_km s)) l O); try done.
    intros p r' k b x Hp Hx. apply (Hoff p _ x Hp); [congruence|done]. }
  split.
  - eapply procs_ok_change; [exact H|exact HI'|done|done|done|done|]. intros p Hp. cbn.
    pose proof (procs_live _ _ _ _ _ H Hp) as [L1 L2 L3 L4]. eapply space_leaf; [|exact L3]. intros va. by apply Hleaf.
  - intros p Hp. pose proof (procs_live _ _ _ _ _ H Hp) as [L1 L2 L3 L4].
    assert (Hu : forall va, ubyte (f (km_mem (k_km s))) (p_pagetable (k_procs s p)) va = ubyte (km_mem (k_km s)) (p_pagetable (k_procs s p)) va).
    { apply (user_same (k_km s) l O); [done|done|intros va; by apply Hleaf|]. intros d v x Hd Hx. apply (Hoff d _ x Hd); [congruence|done]. }
    split; [done|]. intros Hne. split; [done|]. intros x Hx. by apply (Hoff _ _ x L1).
Qed.
End untouched.

(** * [fork] *)

Section fork.
Context `{KE : KernelEnd, PL : Platform}.

(** The copy of the memory, with the account kept. *)
Lemma fork_copies F s l O p np s1 l1 O1 :
  procs_ok F s l O -> live s p -> new_proc F s l O np s1 l1 O1 ->
  let q := k_procs s p in let new := p_pagetable (k_procs s1 np) in
  wp (uvmcopy kend (p_pagetable q) new (p_size q)) (k_km s1) (fun r k2 => exists l2 O2,
    extended (k_km s) l O k2 l2 O2 /\
    ((r = 0 /\ procs_ok F (set_proc np (set_p_size (p_size q)) (set_k_km k2 s1)) l2 O2 /\
      forall va, 0 <= va -> ubyte (km_mem k2) new va = ubyte (km_mem (k_km s)) (p_pagetable q) va) \/
     (r = -1 /\ procs_ok F (set_k_km k2 s1) l2 O2))).
Proof.
  intros H Hp [N1 N2 [N3 N3'] N4 N5 N6 N7 N8 N9 [N10 N10'] _] q new.
  assert (Hne : p <> np) by (intros ->; by destruct Hp).
  assert (Hnp : live s1 np) by (unfold live; by rewrite N5). pose proof (procs_live _ _ _ _ _ N1 Hnp) as [C1 C2 C3 C4]. fold new in C2.
  pose proof (procs_live _ _ _ _ _ H Hp) as [L1 L2 L3 L4]. fold q in L1, L2, L3.
  assert (Hold : O1 !! p_pagetable q = Some (Tab (p_pagetable q) 0 0)) by (by apply (ex_sub _ _ _ _ _ _ N2)).
  assert (Hsp1 : space (km_mem (k_km s1)) (p_pagetable q) (p_size q)).
  { eapply space_leaf; [|exact L3]. intros va. by apply (ex_leaf _ _ _ _ _ _ N2). }
  pose proof (pk_vm _ _ _ _ N1) as HI1. pose proof (extended_untouched _ _ _ q _ _ _ (pk_vm _ _ _ _ H) L1 L2 N2) as [U1 _].
  assert (Hdiff : p_pagetable q <> new) by (unfold new; congruence).
  eapply wp_mono; [apply (uvmcopy_ok (k_km s1) l1 O1 (p_pagetable q) new (p_size q)); [done|done|done|done|apply Hsp1|apply Hsp1|done]|].
  intros r k2 (l2 & O2 & [[-> HA]|(-> & _ & HS)]); exists l2, O2.
  - assert (Hex : extended (k_km s) l O k2 l2 O2) by exact (extended_allocated _ _ _ _ _ _ _ _ _ _ _ _ _ _ N2 N10 HA).
    destruct (clone_user (k_km s1) l1 O1 _ new (p_size q) k2 l2 O2 HI1 Hold C2 Hsp1 N9 HA) as [Hspc Hcl].
    split; [done|]. left. split_and!; [done| |intros va Hva; by rewrite Hcl, U1]. destruct HA as [A1 A2 A3 A4 A5 A6 A7].
    eapply procs_ok_change; [exact N1|exact A1| | | | |].
    + intros c. split; [|apply A2]. intros Hc. by destruct (A3 c _ Hc) as [?|[_ [(? & ? & ? & ?)|(? & _ & ?)]]].
    + intros r. split; [|apply A2]. intros Hc. by destruct (A3 r _ Hc) as [?|[_ [(? & ? & ? & ?)|(? & _ & ?)]]].
    + intros p'. cbn [k_procs set_proc set_k_procs set_k_km]. unfold upd. by case_decide as E; [subst|].
    + intros p' Hun. cbn [k_procs set_proc set_k_procs set_k_km]. rewrite upd_ne; [done|]. intros ->. by rewrite N5 in Hun.
    + intros p' Hp'. cbn [k_procs set_proc set_k_procs set_k_km k_km]. unfold upd. case_decide as E; [subst p'; done|].
      pose proof (procs_live _ _ _ _ _ N1 Hp') as [P1 P2 P3 P4]. eapply space_leaf; [|exact P3]. intros va. apply A5; [done|].
      intros [E2 _]. by apply (pk_apart _ _ _ _ N1 p' np Hp' Hnp).
  - pose proof (settled_extended _ _ _ _ _ _ HI1 HS) as X. split; [by eapply extended_trans|]. right. split; [done|].
    destruct HS as [A1 A2 A3 A4 A5 A6]. eapply procs_ok_change; [exact N1|exact A1| | |done|done|].
    + intros c. split; [|apply A2]. intros Hc. by destruct (A3 c _ Hc) as [?|[_ (? & ? & ? & ?)]].
    + intros r. split; [|apply A2]. intros Hc. by destruct (A3 r _ Hc) as [?|[_ (? & ? & ? & ?)]].
    + intros p' Hp'. pose proof (procs_live _ _ _ _ _ N1 Hp') as [P1 P2 P3 P4]. cbn. eapply space_leaf; [|exact P3]. intros va. by apply A5.
Qed.

(** The trap frame of the child: the parent's, with 0 for the result. *)
Definition child_frame (tf ctf : Z) (m : mem) : mem :=
  store64 (store_bytes m ctf (load_bytes m tf (Z.to_nat TF_SIZE))) (ctf + TF_X 0) 0.

Lemma child_frame_out tf ctf m x : x < ctf \/ ctf + TF_SIZE <= x -> child_frame tf ctf m x = m x.
Proof.
  intros Hx. unfold child_frame, TF_X, TF_SIZE in *. rewrite store64_out by lia. apply store_bytes_out. rewrite length_load_bytes. lia.
Qed.

Lemma child_frame_ok tf ctf m : bytes_ok m -> bytes_ok (child_frame tf ctf m).
Proof. intros H. apply store64_ok. by apply store_bytes_ok. Qed.

Lemma child_frame_word tf ctf m off :
  bytes_ok m -> 0 <= off -> off + 8 <= TF_SIZE ->
  off = 0 \/ 8 <= off -> load64 (child_frame tf ctf m) (ctf + off) = if off =? 0 then 0 else load64 m (tf + off).
Proof.
  intros Hb H0 H1 H2. unfold child_frame, TF_X, TF_SIZE in *. destruct (Z.eqb_spec off 0) as [->|Hne].
  - change (8 * 0) with 0. by rewrite load64_store64_eq.
  - rewrite load64_store64_ne by lia. apply load64_shift. intros i Hi.
    replace (ctf + off + i) with (ctf + Z.of_nat (Z.to_nat (off + i))) by lia.
    rewrite (store_bytes_in _ _ _ _ (m (tf + off + i))); [apply u8_small, Hb|].
    rewrite lookup_load_bytes by lia. do 2 f_equal. lia.
Qed.

(** What [fork] makes of process [np], from a state [s] where it has its copy
    of the memory of [p]. *)
Record child_of (s : kernel) (p np : nat) (s' : kernel) : Prop := {
  ch_others : forall p', p' <> np -> k_procs s' p' = k_procs s p';
  ch_state : p_state (k_procs s' np) = RUNNABLE;
  ch_parent : p_parent (k_procs s' np) = Some p;
  ch_pid : p_pid (k_procs s' np) = p_pid (k_procs s np);
  ch_size : p_size (k_procs s' np) = p_size (k_procs s p);
  ch_memory : p_kstack (k_procs s' np) = p_kstack (k_procs s np) /\
    p_pagetable (k_procs s' np) = p_pagetable (k_procs s np) /\ p_trapframe (k_procs s' np) = p_trapframe (k_procs s np);
  ch_ofile : p_ofile (k_procs s' np) = p_ofile (k_procs s p);
  ch_cwd : p_cwd (k_procs s' np) = p_cwd (k_procs s p);
  ch_name : p_name (k_procs s' np) = copy_name (p_name (k_procs s np)) (p_name (k_procs s p));
  ch_km : k_km s' = set_mem (child_frame (p_trapframe (k_procs s p)) (p_trapframe (k_procs s np))) (k_km s);
  ch_files : forall f, f_ref (k_ftable s' f) = f_ref (k_ftable s f) + Z.of_nat (occ f (p_ofile (k_procs s p)));
  ch_inode : forall c, i_ref (k_itable s' c) =
    i_ref (k_itable s c) + if decide (p_cwd (k_procs s p) = Some c) then 1 else 0;
}.

Lemma dup_all ofs o : length o = length ofs -> (forall fd, o !! fd = dup_at ofs (replicate (length ofs) None) 0 (length ofs) fd) -> o = ofs.
Proof.
  intros Hl H. apply list_eq. intros fd. rewrite H. unfold dup_at. destruct (decide (0 <= fd < 0 + length ofs)%nat) as [Hfd|Hfd].
  - destruct (lookup_lt_is_Some_2 ofs fd ltac:(lia)) as [[f|] Ef]; rewrite Ef; [done|]. apply lookup_replicate_2. lia.
  - rewrite !lookup_ge_None_2; [done|lia|rewrite length_replicate; lia].
Qed.

(** The end of [fork_child]: the directory, the name, the parent, the state. *)
Lemma fork_tail p np c name s Q :
  let nq := k_procs s np in
  (forall s', k_procs s' np = set_p_state RUNNABLE (set_p_parent (Some p) (set_p_name (copy_name (p_name nq) name) (set_p_cwd (Some c) nq))) ->
    (forall p', p' <> np -> k_procs s' p' = k_procs s p') -> k_km s' = k_km s -> k_ftable s' = k_ftable s ->
    k_itable s' = upd (k_itable s) c (fun i => set_i_ref (i_ref i + 1) i) -> Q (p_pid nq) s') ->
  wp (cwd ← idup c;
      modify (set_proc np (set_p_cwd (Some cwd)));;
      modify (set_proc np (fun nq => set_p_name (copy_name (p_name nq) name) nq));;
      nq ← the_proc np;
      let pid := p_pid nq in
      modify (set_proc np (set_p_parent (Some p)));;
      modify (set_proc np (set_p_state RUNNABLE));;
      mret pid) s Q.
Proof.
  intros nq HQ. unfold idup, the_proc. apply wp_bind, wp_bind, wp_modify, wp_ret. apply wp_bind, wp_modify. apply wp_bind, wp_modify.
  apply wp_bind, wp_gets. cbv zeta. do 2 (apply wp_bind, wp_modify). apply wp_ret.
  match goal with |- Q ?r ?s' => assert (E : r = p_pid nq) end.
  { unfold set_proc, set_inode. cbn [k_procs set_k_procs set_k_itable]. by rewrite !upd_eq. }
  rewrite E. apply HQ; unfold set_proc, set_inode; cbn [k_procs set_k_procs set_k_itable k_km k_ftable k_itable].
  - by rewrite !upd_eq.
  - intros p' Hp'. by rewrite !upd_ne by done.
  - done.
  - done.
  - done.
Qed.

Lemma fork_child_ok p np s c :
  p <> np -> p_cwd (k_procs s p) = Some c -> length (p_ofile (k_procs s p)) = NOFILE ->
  p_ofile (k_procs s np) = replicate NOFILE None ->
  (forall fd f, p_ofile (k_procs s p) !! fd = Some (Some f) -> 1 <= f_ref (k_ftable s f)) ->
  wp (fork_child p np) s (fun r s' => r = p_pid (k_procs s np) /\ child_of s p np s').
Proof.
  intros Hne Hcwd Hlen Hun Href. unfold fork_child, the_proc. do 2 (apply wp_bind, wp_gets). apply wp_bind, wp_modify.
  set (q := k_procs s p) in *. set (nq := k_procs s np) in *. set (s1 := set_proc np _ s).
  assert (Q1 : k_procs s1 p = q) by (unfold s1, set_proc; cbn [k_procs set_k_procs]; by rewrite upd_ne).
  assert (N1 : k_procs s1 np = set_p_size (p_size q) nq) by (unfold s1, set_proc; cbn [k_procs set_k_procs]; by rewrite upd_eq).
  assert (O1 : forall p', p' <> np -> k_procs s1 p' = k_procs s p') by (intros p' Hp'; unfold s1, set_proc; cbn [k_procs set_k_procs]; by rewrite upd_ne).
  assert (E1 : k_km s1 = k_km s) by reflexivity.
  unfold load_mem, store_mem. apply wp_bind, wp_gets, wp_bind, wp_vm, wp_modify. apply wp_bind.
  unfold tf_set, the_proc. apply wp_bind, wp_gets, wp_vm, wp_modify. set (s2 := set_k_km _ (set_k_km _ s1)).
  assert (K2 : k_km s2 = set_mem (child_frame (p_trapframe q) (p_trapframe nq)) (k_km s)).
  { unfold s2. cbn [k_km set_k_km k_procs]. rewrite N1, set_mem_twice, E1. unfold child_frame. cbn [p_trapframe set_p_size]. unfold set_mem. reflexivity. }
  assert (P2 : k_procs s2 = k_procs s1) by done. assert (F2 : k_ftable s2 = k_ftable s) by done.
  assert (T2 : k_itable s2 = k_itable s) by done. clearbody s2 s1.
  apply wp_bind. eapply wp_mono; [apply (dup_files_ok NOFILE p np 0 s2 Hne); rewrite P2, ?Q1, ?N1|].
  - lia.
  - cbn. fold q. by rewrite Hun, length_replicate.
  - intros fd f _ Hf. rewrite F2. by apply (Href fd).
  - rewrite P2, Q1. intros [] s3 [(ft & pr & ->) D2 (o & D3 & D4 & D5) D6]. fold q in D5, D6. rewrite Hcwd.
    rewrite P2, N1 in D3, D4, D5. cbn [p_ofile set_p_size] in D4, D5. rewrite Hun in D4, D5. rewrite <- Hlen in D5, D4. rewrite length_replicate in D4.
    apply dup_all in D5; [|done]. subst o.
    assert (Htake : take NOFILE (drop 0 (p_ofile q)) = p_ofile q) by (rewrite drop_0; apply take_ge; lia).
    set (s4 := set_k_ftable ft (set_k_procs pr s2)) in *. assert (K4 : k_km s4 = k_km s2) by done. assert (T4 : k_itable s4 = k_itable s2) by done.
    clearbody s4. apply fork_tail. intros s5 P5 O5 K5 F5 T5. rewrite D3 in P5. rewrite D3. split; [done|].
    split; rewrite ?P5; try done.
    + intros p' Hp'. rewrite O5, D2, P2 by done. by apply O1.
    + by rewrite K5, K4, K2.
    + intros f. rewrite F5, D6, F2, Htake. done.
    + intros c'. rewrite T5, T4, T2. fold q. rewrite Hcwd. destruct (decide (Some c = Some c')) as [[= <-]|Hc].
      * by rewrite upd_eq.
      * rewrite upd_ne by congruence. lia.
Qed.

(** Every process that was there is as it was. *)
Definition keeps (s s' : kernel) : Prop := forall p, live s p ->
  k_procs s' p = k_procs s p /\ untouched (k_km s) (k_procs s p) (k_km s').

Lemma files_ok_same s s' :
  files_ok s -> k_ftable s' = k_ftable s -> (forall p, p_ofile (k_procs s' p) = p_ofile (k_procs s p)) ->
  (forall p, live s p -> p_state (k_procs s' p) = p_state (k_procs s p)) -> files_ok s'.
Proof.
  intros [H1 H2 H3] Ef Eo Hs. split.
  - intros p Hp. rewrite Eo. by apply H1.
  - intros p Hp Hun. rewrite Eo. apply H2; [done|]. destruct (decide (p_state (k_procs s p) = UNUSED)) as [|Hn]; [by left|].
    by rewrite (Hs p (conj Hp Hn)) in Hun.
  - intros f. rewrite Ef, (refs_same s s' f Eo). apply H3.
Qed.

(** The error exit of [fork]. *)
Lemma fork_undone F s l O np s1 l1 O1 k2 l2 O2 :
  procs_ok F s l O -> files_ok s -> new_proc F s l O np s1 l1 O1 ->
  extended (k_km s) l O k2 l2 O2 -> procs_ok F (set_k_km k2 s1) l2 O2 ->
  wp (freeproc np) (set_k_km k2 s1) (fun _ s' => exists l' O', procs_ok F s' l' O' /\ files_ok s' /\ keeps s s' /\
    forall p, live s' p <-> live s p).
Proof.
  intros H Hf [N1 N2 [N3 N3'] N4 N5 N6 N7 N8 N9 N10 [N11 N12]] Hex H2. set (s2 := set_k_km k2 s1) in *.
  assert (P2 : k_procs s2 = k_procs s1) by done. assert (Hnp : live s2 np) by (unfold live; by rewrite P2, N5).
  pose proof (procs_live _ _ _ _ _ H2 Hnp) as [C1 C2 C3 C4].
  eapply wp_mono; [apply (freeproc_ok s2 l2 O2 np _ eq_refl); [apply H2|by right|by right]|].
  intros [] s' (k' & l' & S & pr & -> & Hpr). set (O' := released _ _) in *. exists l', O'.
  assert (Hpr' : forall p, pr p = if decide (p = np) then freed_proc (k_procs s2 np) else k_procs s p).
  { intros p. rewrite Hpr. destruct (decide (p = np)) as [->|Hne]; [by rewrite upd_eq|]. rewrite upd_ne, P2 by done. by apply N4. }
  assert (Hliv : forall p, live (set_k_procs pr (set_k_km k' s2)) p <-> live s p).
  { intros p. unfold live. cbn [k_procs set_k_procs]. rewrite Hpr'. case_decide as E; [|done]. subst p. cbn. rewrite N3'. tauto. }
  split_and!.
  - eapply (procs_ok_free F s2 l2 O2 np); [done|done|exact S|]. intros p. cbn [k_procs set_k_procs]. rewrite Hpr'.
    case_decide; [done|]. rewrite P2. symmetry. by apply N4.
  - apply (files_ok_same s); [done| | |].
    + destruct N11 as (k0 & pr0 & n0 & E). unfold s2. cbn. by rewrite E.
    + intros p. cbn [k_procs set_k_procs]. rewrite Hpr'. case_decide as E; [|done]. subst p. exact N8.
    + intros p Hp. cbn [k_procs set_k_procs]. rewrite Hpr'. case_decide as E; [|done]. subst p. by destruct Hp.
  - intros p Hp. assert (Hne : p <> np) by (intros ->; by destruct Hp). cbn [k_procs set_k_procs k_km set_k_km]. rewrite Hpr', decide_False by done.
    split; [done|]. pose proof (procs_live _ _ _ _ _ H Hp) as [L1 L2 _ _].
    eapply untouched_trans; [by apply (extended_untouched _ l O _ k2 l2 O2); [apply H|..]|].
    assert (Hlive2 : live s2 p) by (unfold live; rewrite P2, N4 by done; exact Hp).
    pose proof (pk_apart _ _ _ _ H2 p np Hlive2 Hnp Hne) as [A1 A2]. rewrite P2, N4 in A1, A2 by done.
    apply (shrunk_untouched _ l2 O2 _ k' l' O'); [..|exact S]; apply released_Some; rewrite lookup_delete_Some, P2; split_and!.
    + done.
    + by apply (ex_sub _ _ _ _ _ _ Hex).
    + by intros [].
    + intros E. rewrite P2 in C1. pose proof (ex_sub _ _ _ _ _ _ Hex _ _ L2) as HO. rewrite <- E, C1 in HO. done.
    + by apply (ex_sub _ _ _ _ _ _ Hex).
    + cbn. by intros E.
  - done.
Qed.

(** The child [np] of [p]. *)
Record cloned (s : kernel) (p np : nat) (s' : kernel) : Prop := {
  cl_state : p_state (k_procs s' np) = RUNNABLE;
  cl_parent : p_parent (k_procs s' np) = Some p;
  cl_pid : p_pid (k_procs s' np) = k_nextpid s;
  cl_size : p_size (k_procs s' np) = p_size (k_procs s p);
  cl_user : forall va, 0 <= va ->
    ubyte (km_mem (k_km s')) (p_pagetable (k_procs s' np)) va = ubyte (km_mem (k_km s)) (p_pagetable (k_procs s p)) va;
  cl_frame : forall off, 0 <= off -> off + 8 <= TF_SIZE -> off = 0 \/ 8 <= off ->
    load64 (km_mem (k_km s')) (p_trapframe (k_procs s' np) + off) =
      if off =? 0 then 0 else load64 (km_mem (k_km s)) (p_trapframe (k_procs s p) + off);
  cl_ofile : p_ofile (k_procs s' np) = p_ofile (k_procs s p);
  cl_cwd : p_cwd (k_procs s' np) = p_cwd (k_procs s p);
}.

(** The success exit of [fork]. *)
Lemma fork_done F s l O p np c s1 l1 O1 k2 l2 O2 :
  procs_ok F s l O -> files_ok s -> live s p -> p_cwd (k_procs s p) = Some c -> new_proc F s l O np s1 l1 O1 ->
  extended (k_km s) l O k2 l2 O2 ->
  procs_ok F (set_proc np (set_p_size (p_size (k_procs s p))) (set_k_km k2 s1)) l2 O2 ->
  (forall va, 0 <= va -> ubyte (km_mem k2) (p_pagetable (k_procs s1 np)) va = ubyte (km_mem (k_km s)) (p_pagetable (k_procs s p)) va) ->
  wp (fork_child p np) (set_k_km k2 s1) (fun r s' => r = k_nextpid s /\ exists l' O',
    procs_ok F s' l' O' /\ files_ok s' /\ keeps s s' /\ cloned s p np s').
Proof.
  intros H Hf Hp Hcwd [N1 N2 [N3 N3'] N4 N5 N6 N7 N8 N9 [N10 N10'] [N11 N12]] Hex H2 Hu.
  assert (Hne : p <> np) by (intros ->; by destruct Hp).
  assert (Eft : k_ftable s1 = k_ftable s) by (destruct N11 as (? & ? & ? & ->); done).
  set (s2 := set_k_km k2 s1) in *. assert (P2 : k_procs s2 = k_procs s1) by done. assert (K2 : k_km s2 = k2) by done.
  assert (F2 : k_ftable s2 = k_ftable s) by (by rewrite <- Eft). clearbody s2.
  assert (Hun : p_ofile (k_procs s np) = replicate NOFILE None) by (apply (fo_closed _ Hf); auto).
  eapply wp_mono; [apply (fork_child_ok p np s2 c Hne); rewrite P2, ?N4 by done|].
  - done.
  - apply (fo_length _ Hf), Hp.
  - by rewrite N8.
  - intros fd f Hfd. rewrite F2. pose proof (fo_refs _ Hf f). pose proof (refs_open s p f fd (proj1 Hp) Hfd). lia.
  - rewrite P2. intros r s' [-> [C1 C2 C3 C4 C5 (C6 & C6' & C6'') C7 C8 _ C10 C11 _]]. rewrite P2 in *. rewrite N4 in * by done.
    split; [done|].
    pose proof (procs_live _ _ _ _ _ H Hp) as [L1 L2 L3 L4].
    set (s3 := set_proc np (set_p_size (p_size (k_procs s p))) s2) in *.
    assert (Hnp3 : k_procs s3 np = set_p_size (p_size (k_procs s p)) (k_procs s1 np)).
    { unfold s3, set_proc. cbn [k_procs set_k_procs]. by rewrite upd_eq, P2. }
    assert (Hoth3 : forall p', p' <> np -> k_procs s3 p' = k_procs s p').
    { intros p' Hp'. unfold s3, set_proc. cbn [k_procs set_k_procs]. rewrite upd_ne, P2 by done. by apply N4. }
    assert (K3 : k_km s3 = k2) by (by rewrite <- K2). clearbody s3.
    assert (Hl3 : live s3 np) by (unfold live; rewrite Hnp3; cbn; by rewrite N5).
    pose proof (procs_live _ _ _ _ _ H2 Hl3) as [D1 D2 D3 D4]. rewrite Hnp3 in D1, D2, D3, D4. cbn in D1, D2, D3, D4.
    set (g := child_frame (p_trapframe (k_procs s p)) (p_trapframe (k_procs s1 np))) in *.
    destruct (write_untouched F s3 l2 O2 (p_kstack (k_procs s1 np)) g (k_km s') H2 D1) as [H3 U3].
    { by rewrite C10, K2, K3. }
    { apply child_frame_ok, (vi_bytes _ _ _ (pk_vm _ _ _ _ H2)). }
    { intros x Hx. apply child_frame_out. rewrite D4. unfold in_page, TF_SIZE, PG_SIZE in *. lia. }
    assert (Hoth : forall p', p' <> np -> k_procs s' p' = k_procs s p').
    { intros p' Hp'. rewrite C1 by done. by apply N4. }
    assert (Hl : forall p', live s p' -> p' <> np /\ live s3 p').
    { intros p' Hp'. assert (p' <> np) by (intros ->; by destruct Hp'). split; [done|]. unfold live. by rewrite Hoth3. }
    exists l2, O2. split_and!.
    + eapply procs_ok_ext; [exact H3|done|]. intros p'. cbn [k_procs set_k_km].
      destruct (decide (p' = np)) as [->|Hn]; [|by rewrite Hoth, Hoth3 by done].
      rewrite Hnp3. unfold footprint. cbn. rewrite C2, C6, C6', C6'', C5, N5. done.
    + split.
      * intros p' Hp'. destruct (decide (p' = np)) as [->|Hn]; [rewrite C7|rewrite Hoth by done]; apply (fo_length _ Hf); [apply Hp|done].
      * intros p' Hp' Hs. destruct (decide (p' = np)) as [->|Hn]; [by rewrite C2 in Hs; destruct Hs|]. rewrite Hoth in * by done. by apply (fo_closed _ Hf).
      * intros f. rewrite C11, F2. pose proof (refs_one s s' np f N3 ltac:(intros p' Hn; by rewrite Hoth)) as E.
        rewrite Hun, C7 in E. assert (occ f (replicate NOFILE None) = 0%nat) by done. pose proof (fo_refs _ Hf f). lia.
    + intros p' Hp'. destruct (Hl p' Hp') as [Hn Hp3]. rewrite Hoth by done. split; [done|].
      pose proof (procs_live _ _ _ _ _ H Hp') as [M1 M2 _ _].
      eapply untouched_trans; [by apply (extended_untouched _ l O _ k2 l2 O2); [apply H|..]|].
      destruct (U3 p' Hp3) as [_ U]. rewrite Hoth3, K3 in U by done. apply U.
      pose proof (pk_apart _ _ _ _ H2 p' np Hp3 Hl3 Hn) as [A1 _]. by rewrite Hoth3, Hnp3 in A1.
    + split; try done; [by rewrite C4| |].
      * intros va Hva. rewrite C6', <- Hu by done. destruct (U3 np Hl3) as [U _]. rewrite Hnp3, K3 in U. apply U.
      * intros off O0 O8 Oo. rewrite C6'', C10, K2. cbn [km_mem set_mem]. unfold g. rewrite child_frame_word; [|apply (vi_bytes _ _ _ (ex_inv _ _ _ _ _ _ Hex))|done|done|done].
        destruct (off =? 0); [done|]. apply load64_ext. intros x Hx. rewrite L4 in Hx.
        apply (ex_mem _ _ _ _ _ _ Hex _ _ x L1); [done|]. unfold in_page, TF_SIZE, PG_SIZE in *. lia.
Qed.

(** C10: [fork] clones the caller.  From an account of all pages in use, it
    either returns -1 and every process is as it was, with the account exact
    again; or it returns the pid of a new process, RUNNABLE and a child of the
    caller, that sees in its own memory what the caller sees in its, has the
    caller's trap frame with 0 as the result, its open files, each with one
    more reference, and its working directory.  All other processes, the
    caller included, keep their fields, their memory and their kernel
    stacks. *)
Theorem fork_clones F s l O p c :
  procs_ok F s l O -> files_ok s -> k_cur s = Some p -> live s p -> p_cwd (k_procs s p) = Some c ->
  wp fork s (fun r s' => exists l' O', procs_ok F s' l' O' /\ files_ok s' /\ keeps s s' /\
    ((r = -1 /\ forall p', live s' p' <-> live s p') \/
     exists np, ~ live s np /\ r = k_nextpid s /\ cloned s p np s')).
Proof.
  intros H Hf Hcur Hp Hcwd. unfold fork, myproc. apply wp_bind, wp_bind, wp_gets. rewrite Hcur. apply wp_ret, wp_bind.
  eapply wp_mono; [by apply (allocproc_accounts F s l O)|]. intros r s1 (l1 & O1 & [[-> HN]|(np & -> & HN)]).
  - apply wp_ret. destruct HN as [A1 A2 A3 A4 A5 A6 A7]. exists l1, O. split_and!; [done| | |by left].
    + apply (files_ok_same s); [done| |done|].
      * destruct A7 as (? & ? & ? & ->). done.
      * intros p' Hp'. by rewrite A5.
    + intros p' Hp'. split; [by apply A5|]. pose proof (procs_live _ _ _ _ _ H Hp') as [L1 L2 _ _].
      by apply (extended_untouched _ l O _ _ l1 O); [apply H|..].
  - pose proof HN as [N1 N2 [N3 N3'] N4 _ _ _ _ _ _ _]. assert (Hne : p <> np) by (intros ->; by destruct Hp).
    unfold the_proc. do 2 (apply wp_bind, wp_gets). rewrite N4 by done. apply wp_bind, wp_vm.
    eapply wp_mono; [apply (fork_copies F s l O p np s1 l1 O1 H Hp HN)|].
    intros r k2 (l2 & O2 & Hex & [(-> & H2 & Hu)|(-> & H2)]).
    + change (0 <? 0) with false. cbn match. eapply wp_mono; [by eapply (fork_done F s l O p np c s1 l1 O1 k2 l2 O2)|].
      intros r s' (-> & l' & O' & R1 & R2 & R3 & R4). exists l', O'. split_and!; [done|done|done|]. right. exists np. split_and!; [|done|done].
      intros [_ Hn]. done.
    + change (-1 <? 0) with true. cbn match. apply wp_bind.
      eapply wp_mono; [by eapply (fork_undone F s l O np s1 l1 O1 k2 l2 O2)|]. intros [] s' (l' & O' & R1 & R2 & R3 & R4).
      apply wp_ret. exists l', O'. split_and!; [done|done|done|by left].
Qed.
End fork.
