(* ===== verification/ProcWait.v ===== *)
(** [wait] of [kernel/proc.c]: a parent takes the exit status of a child and
    the child's memory goes back to the allocator. *)

From stdpp Require Import gmap.
From S2P Require Import Prelude CString Layout Kalloc Vm VmTables VmOps VmExample VmCopy VmFork VmFree Sleeplock Bio Log Kernel UserMem Sched Uart Printf Console Fs Pipe File Args Process ProcMem ProcLife.

#[local] Transparent copyout_local.

Section copy.
Context `{KE : KernelEnd, PL : Platform}.

(** The running process's local variables are on its kernel stack. *)
Definition local_ok (q : proc) : Prop :=
  forall i, 0 <= i < KLOCAL_SIZE -> in_page (p_kstack q) (klocal + i).

(** [copyout] of a local to the running process, with the account kept: the
    other processes do not notice. *)
Lemma copyout_accounts F s l O p va bs :
  procs_ok F s l O -> live s p -> local_ok (k_procs s p) -> 0 <= va < 2 ^ 64 ->
  Z.of_nat (length bs) <= KLOCAL_SIZE -> Forall (fun b => 0 <= b < 256) bs ->
  let pt := p_pagetable (k_procs s p) in
  wp (copyout_local pt va bs) s (fun r s' => exists k', s' = set_k_km k' s /\ procs_ok F s' l O /\
    (forall p', live s p' -> p' <> p -> untouched (k_km s) (k_procs s p') k') /\
    exists k, 0 <= k <= Z.of_nat (length bs) /\
      (forall x, ubyte (km_mem k') pt x = user_write (ubyte (km_mem (k_km s)) pt) va (take (Z.to_nat k) bs) x) /\
      ((r = 0 /\ k = Z.of_nat (length bs)) \/ (r = -1 /\ k < Z.of_nat (length bs) /\ ubyte (km_mem (k_km s)) pt (va + k) = None))).
Proof.
  intros H Hp Hloc Hva Hn Hb pt. pose proof (procs_live _ _ _ _ _ H Hp) as [L1 L2 L3 L4]. fold pt in L2.
  unfold copyout_local, store_mem. apply wp_bind, wp_vm, wp_modify, wp_vm.
  set (k1 := set_mem (fun m => store_bytes m klocal bs) (k_km s)).
  destruct (write_untouched F s l O (p_kstack (k_procs s p)) (fun m => store_bytes m klocal bs) k1 H L1 eq_refl) as [H1 U1].
  { apply store_bytes_ok, (vi_bytes _ _ _ (pk_vm _ _ _ _ H)). }
  { intros x Hx. apply store_bytes_out. destruct (decide (klocal <= x < klocal + Z.of_nat (length bs))); [|lia].
    exfalso. apply Hx. replace x with (klocal + (x - klocal)) by lia. apply Hloc. lia. }
  pose proof (pk_vm _ _ _ _ H1) as HI1. cbn [k_km set_k_km] in HI1. change (k_km (set_k_km k1 s)) with k1.
  eapply wp_mono; [apply (copyout_ok k1 l O pt va klocal (Z.of_nat (length bs))); [done|done|done|unfold KLOCAL_SIZE in *; lia|]|].
  { intros i Hi d v Hd Hx. eapply (page_not_other _ _ _ (p_kstack (k_procs s p)) _ d _ (klocal + i) HI1 L1 Hd); [done| |exact Hx]. apply Hloc. lia. }
  intros r k' (HI' & Hu & k & HC & Hres). exists k'. split; [done|].
  assert (Hk : 0 <= k <= Z.of_nat (length bs)) by (destruct Hres as [[_ ->]|(_ & ? & _)]; lia).
  assert (Hmem : forall c ρ x, O !! c = Some ρ -> (forall v, ρ <> Dat pt v) -> in_page c x -> km_mem k' x = km_mem k1 x).
  { intros c ρ x Hc Hρ Hx. apply (co_out _ _ _ _ _ _ HC). intros i Hi Ha.
    destruct (uaddr_dat k1 l O pt (va + i) x HI1 L2 ltac:(lia) Ha) as (_ & d & Hd & _ & _ & Hin).
    eapply (page_not_other _ _ _ c _ d _ x HI1 Hc Hd); [apply Hρ|done|done]. }
  assert (Hleaf : forall r' a, O !! r' = Some (Tab r' 0 0) -> leaf (km_mem k') r' a = leaf (km_mem k1) r' a).
  { intros r' a Hr'. apply (leaf_frame k1 l O k' l O); try done. intros c r0 n b x Hc Hx. by apply (Hmem c _ x Hc). }
  split_and!.
  - apply (procs_ok_change F (set_k_km k1 s) l O); try done. intros p' Hp'. cbn [k_km k_procs set_k_km].
    pose proof (procs_live _ _ _ _ _ H1 Hp') as [M1 M2 M3 M4]. cbn [k_km k_procs set_k_km] in *. eapply space_leaf; [|exact M3].
    intros a. by apply Hleaf.
  - intros p' Hp' Hne. destruct (U1 p' Hp') as [_ U]. pose proof (pk_apart _ _ _ _ H p' p Hp' Hp Hne) as [A1 A2].
    pose proof (procs_live _ _ _ _ _ H Hp') as [M1 M2 _ _]. eapply untouched_trans; [by apply U|]. split.
    + apply (user_same k1 l O); [done|done|intros a; by apply Hleaf|]. intros d v x Hd Hx. apply (Hmem d _ x Hd); [|done].
      intros w [= E _]. by apply A2.
    + intros x Hx. by apply (Hmem _ _ x M1).
  - exists k. split; [done|]. destruct (U1 p Hp) as [Ub _]. fold pt in Ub. split.
    + intros x. rewrite (copied_out_write k1 l O pt klocal va bs k k' x HI1 L2 ltac:(lia)); try done.
      * unfold user_write. by rewrite Ub.
      * unfold k1. cbn. by apply load_store_bytes.
    + destruct Hres as [[-> ->]|(-> & Hi & E)]; [by left|right]. split_and!; [done|lia|].
      rewrite <- Ub. apply ubyte_None; [lia|done].
Qed.
End copy.

Section wait.
Context `{KE : KernelEnd, PL : Platform}.

Definition child (s : kernel) (p z : nat) : Prop := (z < NPROC)%nat /\ p_parent (k_procs s z) = Some p.
Definition zombie (s : kernel) (p z : nat) : Prop := child s p z /\ p_state (k_procs s z) = ZOMBIE.

(** [p] took the status of [z] to [addr], and [z] is gone. *)
Record reaped (F : gset Z) (s : kernel) (l : list Z) (O : gmap Z role) (p z : nat) (addr : Z)
    (s' : kernel) (l' : list Z) : Prop := {
  rp_ok : exists O', procs_ok F s' l' O';
  rp_files : files_ok s';
  rp_slot : p_state (k_procs s' z) = UNUSED;
  rp_others : forall p', p' <> z -> k_procs s' p' = k_procs s p';
  rp_memory : forall p', live s p' -> p' <> z -> p' <> p -> untouched (k_km s) (k_procs s p') (k_km s');
  rp_user : forall x, ubyte (km_mem (k_km s')) (p_pagetable (k_procs s p)) x =
    let um := ubyte (km_mem (k_km s)) (p_pagetable (k_procs s p)) in
    if addr =? 0 then um x else user_write um addr (le_split 4 (p_xstate (k_procs s z))) x;
  rp_pool : forall c, c ∈ l' <-> c ∈ l \/ c = p_kstack (k_procs s z) \/
    exists ρ, O !! c = Some ρ /\ owned (p_pagetable (k_procs s z)) ρ;
}.

Section scan.
Context (F : gset Z) (s : kernel) (l : list Z) (O : gmap Z role) (p : nat) (addr : Z).
Context (H : procs_ok F s l O) (Hf : files_ok s) (Hp : live s p) (Hrun : p_state (k_procs s p) <> ZOMBIE).
Context (Hloc : local_ok (k_procs s p)) (Haddr : 0 <= addr < 2 ^ 64).

(** [freeproc] of the child, after the status has been copied. *)
Lemma reap_free z s1 :
  zombie s p z -> procs_ok F s1 l O -> k_procs s1 = k_procs s -> k_ftable s1 = k_ftable s ->
  (forall p', live s p' -> p' <> p -> untouched (k_km s) (k_procs s p') (k_km s1)) ->
  (forall x, ubyte (km_mem (k_km s1)) (p_pagetable (k_procs s p)) x =
    let um := ubyte (km_mem (k_km s)) (p_pagetable (k_procs s p)) in
    if addr =? 0 then um x else user_write um addr (le_split 4 (p_xstate (k_procs s z))) x) ->
  wp (freeproc z) s1 (fun _ s' => exists l', reaped F s l O p z addr s' l').
Proof using All.
  intros [[Hz Hpar] Hst] H1 P1 F1 U1 Hu. assert (Hne : p <> z) by (intros ->; done).
  assert (Hlz : live s z) by (split; [done|congruence]).
  assert (Hlz1 : live s1 z) by (unfold live; by rewrite P1). assert (Hlp1 : live s1 p) by (unfold live; by rewrite P1).
  pose proof (procs_live _ _ _ _ _ H1 Hlz1) as [C1 C2 C3 C4].
  eapply wp_mono; [apply (freeproc_ok s1 l O z _ eq_refl); [apply H1|by right|by right]|].
  intros [] s' (k' & l' & S & pr & -> & Hpr). rewrite P1 in *. set (O' := released _ _) in *. exists l'.
  assert (Hpr' : forall p', pr p' = if decide (p' = z) then freed_proc (k_procs s z) else k_procs s p').
  { intros p'. rewrite Hpr. destruct (decide (p' = z)) as [->|Hn]; [by rewrite upd_eq|by rewrite upd_ne]. }
  assert (Hkeep : forall p', live s p' -> p' <> z -> untouched (k_km s1) (k_procs s p') k').
  { intros p' Hp' Hn. pose proof (procs_live _ _ _ _ _ H Hp') as [L1 L2 _ _].
    pose proof (pk_apart _ _ _ _ H p' z Hp' Hlz Hn) as [A1 A2].
    apply (shrunk_untouched _ l O _ k' l' O'); [..|exact S]; apply released_Some; rewrite lookup_delete_Some; split_and!; try done.
    - by intros [].
    - intros E. rewrite <- E, C1 in L2. done. }
  split; cbn [k_procs k_km set_k_procs set_k_km].
  - exists O'. pose proof (procs_ok_free F s1 l O z (set_k_procs pr (set_k_km k' s1)) l' H1 Hlz1) as Hfree.
    cbv zeta in Hfree. rewrite P1 in Hfree. apply Hfree; [exact S|exact Hpr'].
  - split.
    + intros p' Hp'. cbn [k_procs set_k_procs]. rewrite Hpr'. case_decide; [subst p'|]; by apply (fo_length _ Hf).
    + intros p' Hp'. cbn [k_procs set_k_procs]. rewrite Hpr'. case_decide; [intros _; subst p'; apply (fo_closed _ Hf); auto|by apply (fo_closed _ Hf)].
    + intros f. cbn [k_ftable set_k_procs set_k_km]. rewrite F1, (refs_same s); [apply (fo_refs _ Hf)|].
      intros p'. cbn [k_procs set_k_procs]. rewrite Hpr'. case_decide; by subst.
  - by rewrite Hpr', decide_True.
  - intros p' Hn. by rewrite Hpr', decide_False.
  - intros p' Hp' Hn Hn'. eapply untouched_trans; [by apply U1|by apply Hkeep].
  - intros x. rewrite (ut_user _ _ _ (Hkeep p Hp Hne)). apply Hu.
  - intros c. rewrite (sh_pool _ _ _ _ _ _ S). apply or_iff_compat_l. split.
    + intros [[ρ Hc] HN]. destruct (decide (c = p_kstack (k_procs s z))) as [|Hn]; [by left|right]. exists ρ. split; [done|].
      destruct (decide (owned (p_pagetable (k_procs s z)) ρ)) as [|Ho]; [done|]. exfalso.
      assert (O' !! c = Some ρ) as E; [|by rewrite E in HN]. apply released_Some. by rewrite lookup_delete_Some.
    + intros [->|(ρ & Hc & Ho)].
      * split; [eauto|]. destruct (O' !! _) as [ρ|] eqn:E; [|done]. apply released_Some in E as [E _].
        by apply lookup_delete_Some in E as [? _].
      * split; [eauto|]. destruct (O' !! c) as [ρ'|] eqn:E; [|done]. apply released_Some in E as [[_ E]%lookup_delete_Some Hn]. congruence.
Qed.

Definition not_yet (pp z : nat) : Prop := forall y, (pp <= y < z)%nat -> ~ zombie s p y.

Definition scan_result (pp : nat) (hk : bool) (r : Z + bool) (s' : kernel) : Prop :=
  (exists z, (pp <= z)%nat /\ zombie s p z /\ not_yet pp z /\
    ((r = inl (p_pid (k_procs s z)) /\ exists l', reaped F s l O p z addr s' l') \/
     (r = inl (-1) /\ addr <> 0 /\ (exists i, 0 <= i < 4 /\ ubyte (km_mem (k_km s)) (p_pagetable (k_procs s p)) (addr + i) = None) /\
      procs_ok F s' l O /\ k_procs s' = k_procs s))) \/
  (s' = s /\ not_yet pp NPROC /\ exists b : bool, r = inr b /\ (b = true <-> hk = true \/ exists y, (pp <= y)%nat /\ child s p y)).

(** The scan stops at the first child that has exited. *)
Lemma wait_scan_ok n pp hk :
  (pp + n = NPROC)%nat ->
  wp (wait_scan n p addr pp hk) s (scan_result pp hk).
Proof using All.
  revert pp hk. induction n as [|n IH]; intros pp hk Hn; cbn [wait_scan].
  { apply wp_ret. right. split_and!; [done|intros y Hy; lia|]. exists hk. split; [done|]. split; [by left|].
    intros [?|(y & Hy & Hc & _)]; [done|lia]. }
  assert (Hskip : forall hk', ~ zombie s p pp -> (hk' = true <-> hk = true \/ child s p pp) ->
    wp (wait_scan n p addr (S pp) hk') s (scan_result pp hk)).
  { intros hk' Hz Hhk. assert (Hext : forall z, not_yet (S pp) z -> not_yet pp z).
    { intros z Hy y Hyz. destruct (decide (y = pp)) as [->|]; [done|]. apply Hy. lia. }
    eapply wp_mono; [apply (IH (S pp) hk'); lia|]. intros r s' [(z & Hz1 & Hz2 & Hz3 & Hz4)|(-> & Hy & b & -> & Hb)]; [left|right].
    - exists z. split_and!; [lia|done|auto|done].
    - split_and!; [done|auto|]. exists b. split; [done|]. rewrite Hb, Hhk. split.
      + intros [[?|?]|(y & Hy' & Hc)]; [by left|right; by exists pp|right; exists y; split; [lia|done]].
      + intros [?|(y & Hy' & Hc)]; [by left; left|]. destruct (decide (y = pp)) as [->|]; [by left; right|right; exists y; split; [lia|done]]. }
  apply wp_bind, wp_gets. case_bool_decide as Hpar.
  - case_bool_decide as Hst.
    + assert (Hz : zombie s p pp) by (split; [split; [lia|done]|done]).
      apply wp_bind, wp_gets, wp_bind. destruct (Z.eqb_spec addr 0) as [Ea|Ea].
      * apply wp_ret. cbn [Z.ltb]. change (0 <? 0) with false. cbn match. apply wp_bind.
        eapply wp_mono; [apply (reap_free pp s Hz); try done; by rewrite (proj2 (Z.eqb_eq addr 0))|].
        intros [] s' Hr. apply wp_ret. left. exists pp. split_and!; [lia|done|intros y; lia|]. left. done.
      * eapply wp_mono; [apply (copyout_accounts F s l O p addr (le_split 4 (p_xstate (k_procs s pp))) H Hp Hloc Haddr)|].
        { rewrite length_le_split. unfold KLOCAL_SIZE. lia. }
        { apply le_split_bytes. }
        intros r s1 (k' & -> & H1 & U1 & k & Hk & Hu & Hres). rewrite length_le_split in Hk, Hres.
        destruct Hres as [[-> ->]|(-> & Hk' & HN)].
        -- change (0 <? 0) with false. cbn match. apply wp_bind.
           eapply wp_mono; [apply (reap_free pp (set_k_km k' s) Hz); try done|].
           { intros x. cbn [k_km set_k_km]. rewrite Hu, (proj2 (Z.eqb_neq addr 0)) by done. by rewrite take_ge by (rewrite length_le_split; lia). }
           intros [] s' Hr. apply wp_ret. left. exists pp. split_and!; [lia|done|intros y; lia|]. by left.
        -- change (-1 <? 0) with true. cbn match. apply wp_ret. left. exists pp. split_and!; [lia|done|intros y; lia|].
           right. split_and!; [done|done| |done|done]. exists k. split; [lia|done].
    + apply Hskip; [intros [_ ?]; done|]. split; [intros _; right; split; [lia|done]|done].
  - apply Hskip; [intros [[_ ?] _]; done|]. split; [by left|]. intros [?|[_ ?]]; done.
Qed.
End scan.

(** C11: [wait].  When a child of the caller has exited, [wait] takes the first
    one in the table: it returns its pid, the four bytes of its exit status
    are at the user's address (unless that is 0), its slot is unused, exactly
    its pages are added to the free ones, and no other process is touched; if
    the user's address is not mapped it returns -1 and the child stays.  With
    no such child it returns -1 when the caller has no children or was killed,
    and otherwise sleeps on the caller's own address, which [exit] of a child
    wakes. *)
Theorem wait_reaps F s l O p addr :
  procs_ok F s l O -> files_ok s -> k_cur s = Some p -> live s p -> p_state (k_procs s p) <> ZOMBIE ->
  local_ok (k_procs s p) -> 0 <= addr < 2 ^ 64 ->
  wps (wait addr) s
    (fun r s' =>
      (exists z, zombie s p z /\ not_yet s p 0 z /\
        ((r = p_pid (k_procs s z) /\ exists l', reaped F s l O p z addr s' l') \/
         (r = -1 /\ addr <> 0 /\
          (exists i, 0 <= i < 4 /\ ubyte (km_mem (k_km s)) (p_pagetable (k_procs s p)) (addr + i) = None) /\
          procs_ok F s' l O /\ k_procs s' = k_procs s))) \/
      (r = -1 /\ s' = s /\ not_yet s p 0 NPROC /\ ((forall y, ~ child s p y) \/ p_killed (k_procs s p) <> 0)))
    (fun ch s' => ch = ChanProc p /\ not_yet s p 0 NPROC /\ (exists y, child s p y) /\ p_killed (k_procs s p) = 0 /\
      s' = set_proc p (set_p_state SLEEPING) (set_proc p (set_p_chan (Some (ChanProc p))) s)).
Proof.
  intros H Hf Hcur Hp Hrun Hloc Haddr. unfold wait, myproc. apply wps_bind, wps_wp, wp_bind, wp_gets. rewrite Hcur. apply wp_ret.
  apply wps_bind, wps_wp. eapply wp_mono; [by apply (wait_scan_ok F s l O p addr H Hf Hp Hrun Hloc Haddr NPROC 0 false)|].
  intros r s' [(z & _ & Hz1 & Hz2 & Hz3)|(-> & Hy & b & -> & Hb)].
  - destruct Hz3 as [(-> & Hr)|(-> & Hr)]; apply wps_wp, wp_ret; left; exists z; split_and!; [done|done|by left|done|done|by right].
  - unfold killed. apply wps_bind, wps_wp, wp_gets. unfold ctrue.
    destruct b; cbn [negb orb].
    + destruct (proj1 Hb eq_refl) as [?|(y & _ & Hc)]; [done|]. destruct (Z.eqb_spec (p_killed (k_procs s p)) 0) as [E|E]; cbn [negb].
      * unfold sleep, myproc. apply wps_bind, wps_bind, wps_wp, wp_gets. rewrite Hcur. apply wps_wp, wp_ret.
        do 2 (apply wps_bind, wps_wp, wp_modify). apply wps_sleep. split_and!; [done|done|by exists y|done|done].
      * apply wps_wp, wp_ret. right. split_and!; [done|done|done|by right].
    + apply wps_wp, wp_ret. right. split_and!; [done|done|done|]. left. intros y Hc.
      assert (false = true); [|done]. apply Hb. right. exists y. split; [lia|done].
Qed.
End wait.
