(* ===== verification/ProcExample.v ===== *)
(** A concrete process table on which the hypotheses of the theorems on
    [fork] and [wait] are shown to hold: a running process with a page of
    memory, and a child that has exited with status 7. *)

From stdpp Require Import gmap.
From S2P Require Import Prelude CString Layout Kalloc Vm VmTables VmOps VmExample VmCopy VmFork VmFree Sleeplock Bio Log LogSafe Kernel UserMem Sched Uart KernelExample Printf Console Fs Pipe File Args Process ProcMem ProcLife ProcWait.

#[local] Existing Instance kernel_ex.

(** A page the kernel keeps for itself. *)
Lemma vm_other s l O c :
  vm_inv s l O -> kpage c -> O !! c = None -> c ∉ l -> vm_inv s l (<[c := Other]> O).
Proof.
  intros [Hk H1 H2 H3 H4 H5 H6 H7 H8] Hc HO Hl.
  assert (Hup : forall p ρ, O !! p = Some ρ -> <[c := Other]> O !! p = Some ρ).
  { intros p ρ Hp. rewrite lookup_insert_ne; [done|congruence]. }
  assert (Hdn : forall p ρ, ρ <> Other -> <[c := Other]> O !! p = Some ρ -> O !! p = Some ρ).
  { intros p ρ Hρ [[_ ?]|[_ ?]]%lookup_insert_Some; done. }
  split; [done|done|..].
  - intros p Hp. rewrite lookup_insert_ne; [by apply H2|]. by intros ->.
  - intros p ρ [[<- _]|[_ ?]]%lookup_insert_Some; [done|by eapply H3].
  - intros p r b Hp%Hdn; [|done]. by eapply H4.
  - intros p r k b i Hp%Hdn Hk3 Hi; [|done]. destruct (H5 _ _ _ _ _ Hp Hk3 Hi) as [?|(d & ? & ?)]; eauto.
  - intros p r b i Hp%Hdn Hi; [|done]. destruct (H6 _ _ _ _ Hp Hi) as [?|(d & ? & ?)]; eauto.
  - intros d r k b Hd%Hdn; [|done]. destruct (H7 _ _ _ _ Hd) as (? & p & Hp & ?). split; [done|]. exists p. eauto.
  - intros d r v Hd%Hdn; [|done]. destruct (H8 _ _ _ Hd) as (p & Hp & ?). exists p. eauto.
Qed.

Definition proc_platform : Platform := {|
  bufaddr b := buf_ex + 1024 * (Z.of_nat b + 1);
  klocal := page_ex 14;
  trapret := 0; forkret_addr := 0; eentry := 0; initcode_start := 0; initcode_size := 0;
  cpuid := 0;
  io_read _ a := if a =? R UART_FR then UART_FR_RXFE else 0;
  polls := 1;
|}.
#[local] Existing Instance proc_platform.

Definition parent_ex : proc :=
  Proc RUNNING None 0 0 1 None (page_ex 14) PG_SIZE root_ex (page_ex 14 + PG_SIZE - TF_SIZE) (replicate 16 0)
    (replicate NOFILE None) (Some 0%nat) (replicate 16 0).
Definition zombie_ex : proc :=
  Proc ZOMBIE None 0 7 2 (Some 0%nat) (page_ex 15) 0 child_ex (page_ex 15 + PG_SIZE - TF_SIZE) (replicate 16 0)
    (replicate NOFILE None) (Some 0%nat) (replicate 16 0).

Definition procs_ex : kernel :=
  set_k_nextpid 3 (set_k_procs (fun p => match p with O => parent_ex | 1%nat => zombie_ex | _ => proc_zero end) kernel0).

Definition procs_roles : gmap Z role := <[page_ex 15 := Other]> (<[page_ex 14 := Other]> fork_roles).

Lemma fork_roles_cases c ρ : fork_roles !! c = Some ρ ->
  c <= page_ex 13 /\ (ρ = Tab child_ex 0 0 \/ ρ = Dat root_ex 0 \/ exists k, ρ = Tab root_ex k 0).
Proof.
  unfold fork_roles, mapped_roles, roles_base. intros H.
  apply lookup_insert_Some in H as [[<- <-]|[N1 H]]; [split; [done|by left]|].
  repeat (apply lookup_insert_Some in H as [[<- <-]|[?N H]];
    [split; [unfold page_ex, PG_SIZE; lia|first [by right; left | by right; right; eexists | done]]|]).
  apply roles_ex_Some in H as [-> ->]. split; [unfold root_ex, page_ex, PG_SIZE; lia|]. right. right. by exists 0%nat.
Qed.

Lemma procs_vm : vm_inv mapped_ex [] procs_roles.
Proof.
  assert (H : forall c, page_ex 13 < c -> fork_roles !! c = None).
  { intros c Hc. destruct (fork_roles !! c) as [ρ|] eqn:E; [|done]. apply fork_roles_cases in E as [? _]. lia. }
  apply vm_other; [apply vm_other; [apply fork_inv|by apply page_ex_kpage|by apply H|apply not_elem_of_nil]|by apply page_ex_kpage| |apply not_elem_of_nil].
  rewrite lookup_insert_ne by done. by apply H.
Qed.

Lemma child_space : space (km_mem mapped_ex) child_ex 0.
Proof.
  split; [by vm_compute|lia|]. intros a _. apply fresh_table; [by apply page_ex_kpage|].
  intros x Hx. apply mapped_ex_zero. unfold in_page, child_ex, page_ex, PG_SIZE in *. lia.
Qed.

Lemma live_ex p : live procs_ex p <-> p = 0%nat \/ p = 1%nat.
Proof.
  unfold live. destruct p as [|[|p]]; cbn; [split; [by left|split; [unfold NPROC; lia|done]]|split; [by right|split; [unfold NPROC; lia|done]]|].
  split; [by intros [_ ?]|]. by intros [?|?].
Qed.

Lemma procs_ex_ok : procs_ok ∅ procs_ex [] procs_roles.
Proof.
  split.
  - apply procs_vm.
  - intros [|[|p]] Hp; unfold proc_ok; cbn.
    + split; [by vm_compute|by vm_compute|apply mapped_space|done].
    + split; [by vm_compute|by vm_compute|apply child_space|done].
    + done.
  - intros p p' [-> | ->]%live_ex [-> | ->]%live_ex Hne; cbn; done.
  - intros c ?%elem_of_empty. done.
  - intros c ρ Hc. unfold procs_roles in Hc.
    apply lookup_insert_Some in Hc as [[<- <-]|[_ Hc]]; [right; exists 1%nat; split; [apply live_ex; auto|done]|].
    apply lookup_insert_Some in Hc as [[<- <-]|[_ Hc]]; [right; exists 0%nat; split; [apply live_ex; auto|done]|].
    destruct (fork_roles_cases c ρ Hc) as [_ [->|[->|[k ->]]]].
    + exists 1%nat. split; [apply live_ex; auto|done].
    + exists 0%nat. split; [apply live_ex; auto|done].
    + exists 0%nat. split; [apply live_ex; auto|done].
Qed.

Lemma files_ex_ok : files_ok procs_ex.
Proof.
  assert (E : forall p, p_ofile (k_procs procs_ex p) = replicate NOFILE None) by (by intros [|[|p]]).
  split; [intros p _; by rewrite E|intros p _ _; apply E|]. intros f.
  assert (refs procs_ex f = 0%nat) as ->; [|done]. unfold refs. generalize (seq 0 NPROC). intros l. induction l as [|p l IH]; [done|].
  cbn [sum_list_with]. by rewrite E, IH.
Qed.

Lemma fork_clones_witness :
  wp fork procs_ex (fun r s' => exists l' O', procs_ok ∅ s' l' O' /\ files_ok s' /\ keeps procs_ex s' /\
    ((r = -1 /\ forall p', live s' p' <-> live procs_ex p') \/
     exists np, ~ live procs_ex np /\ r = 3 /\ cloned procs_ex 0 np s')).
Proof.
  apply (fork_clones ∅ procs_ex [] procs_roles 0 0); [apply procs_ex_ok|apply files_ex_ok|done|apply live_ex; auto|done].
Defined.

(** The second process is the one [wait] takes. *)
Lemma wait_reaps_witness :
  wps (wait 100) procs_ex (fun r s' => r = 2 /\ exists l', reaped ∅ procs_ex [] procs_roles 0 1 100 s' l') (fun _ _ => False).
Proof.
  assert (Hz : forall z, zombie procs_ex 0 z -> z = 1%nat) by (by intros [|[|z]] [[_ ?] ?]).
  assert (H1 : zombie procs_ex 0 1) by (split; [split; [unfold NPROC; lia|done]|done]).
  eapply wps_mono; [apply (wait_reaps ∅ procs_ex [] procs_roles 0 100); [apply procs_ex_ok|apply files_ex_ok|done|apply live_ex; auto|done| |lia]|..].
  - intros i Hi. unfold in_page, KLOCAL_SIZE, PG_SIZE in *. cbn. lia.
  - intros r s' [(z & Hzz & _ & Hr)|(_ & _ & Hno & _)].
    + apply Hz in Hzz as ->. destruct Hr as [Hr|(_ & _ & (i & Hi & HN) & _)]; [exact Hr|].
      cbn in HN. rewrite mapped_ex_byte in HN by lia. done.
    + destruct (Hno 1%nat); [unfold NPROC; lia|done].
  - intros ch s' (_ & Hno & _). destruct (Hno 1%nat); [unfold NPROC; lia|done].
Defined.
