(* ===== verification/ProcGrow.v ===== *)
(** [growproc] of [kernel/proc.c], the [sbrk] of a process. *)

From stdpp Require Import gmap.
From S2P Require Import Prelude CString Layout Kalloc Vm VmTables VmOps VmExample VmCopy VmFork VmFree Sleeplock Bio Log Kernel UserMem Sched Uart Printf Console Fs Pipe File Args Process ProcMem ProcLife ProcWait ProcExample.

Section bounds.
Context `{KE : KernelEnd}.

(** An address space is no larger than the memory. *)
Lemma space_bounded s l O r size :
  vm_inv s l O -> O !! r = Some (Tab r 0 0) -> space (km_mem s) r size -> size <= PHY_STOP.
Proof.
  intros HI Hr [Hs Hmap _]. destruct (round_up_pages size Hs) as (E & H0 & _). set (n := (size + PG_SIZE - 1) / PG_SIZE) in *.
  pose proof (dat_count s l O r 0 (Z.to_nat n) HI) as Hc. rewrite Z2Nat.id in Hc by lia.
  assert (n <= PHY_STOP / PG_SIZE).
  { apply Hc. intros v Hv. destruct (leaf_page s l O r (v * PG_SIZE) HI Hr) as (p & d & _ & Hd & _).
    - apply Hmap. unfold n, PG_SIZE in *. zlia.
    - exists d. rewrite Hd, vpn_user; [by rewrite Z.div_mul|]. unfold n, PG_SIZE, MAXVA in *. zlia. }
  unfold n, PHY_STOP, PHY_BASE, PG_SIZE in *. zlia.
Qed.

Lemma round_up_range size : 0 <= size <= MAXVA -> size <= PG_ROUND_UP size < size + PG_SIZE /\ page_aligned (PG_ROUND_UP size).
Proof.
  intros Hx. rewrite PG_ROUND_UP_div by (unfold PG_SIZE, MAXVA in *; lia). unfold page_aligned, PG_SIZE. zlia.
Qed.

Lemma round_up_mono a b : 0 <= a <= b -> b <= MAXVA -> PG_ROUND_UP a <= PG_ROUND_UP b.
Proof. intros. rewrite !PG_ROUND_UP_div by (unfold PG_SIZE, MAXVA in *; lia). unfold PG_SIZE. zlia. Qed.

(** Nothing is mapped beyond the end of a space. *)
Lemma ubyte_beyond m r size va : space m r size -> PG_ROUND_UP size <= va -> ubyte m r va = None.
Proof.
  intros [Hs _ Hend] Hva. pose proof (round_up_range size Hs). unfold ubyte, uaddr, upage.
  destruct (Z.ltb_spec va 0); [done|]. destruct (Z.leb_spec MAXVA va); [done|]. rewrite Hend by lia. done.
Qed.

(** Translation and contents of one byte. *)
Lemma ubyte_leaf m m' r va e d :
  0 <= va < MAXVA -> leaf m r va = e -> leaf m' r va = e ->
  (Z.land e MM_TYPE_MASK = MM_TYPE_PAGE -> P2V (Z.land e PG_ADDR_MASK) = d) ->
  (Z.land e MM_TYPE_MASK = MM_TYPE_PAGE -> m' (d + va mod PG_SIZE) = m (d + va mod PG_SIZE)) -> ubyte m' r va = ubyte m r va.
Proof.
  intros Hva He He' Hd Hm. unfold ubyte, uaddr, upage. destruct (Z.ltb_spec va 0); [done|]. destruct (Z.leb_spec MAXVA va); [done|].
  rewrite He, He'. destruct (Z.eqb_spec (Z.land e MM_TYPE_MASK) MM_TYPE_PAGE) as [E|E]; [|done]. cbn [negb].
  destruct (Z.land e AP_USER =? 0); [done|]. simpl. rewrite Hd, Hm by done. done.
Qed.

(** The bytes of a page that is neither mapped anew nor unmapped. *)
Lemma ubyte_kept s l O r va m' :
  vm_inv s l O -> O !! r = Some (Tab r 0 0) -> 0 <= va < MAXVA -> leaf m' r va = leaf (km_mem s) r va ->
  (forall d x, O !! d = Some (Dat r (vpn va)) -> in_page d x -> m' x = km_mem s x) ->
  ubyte m' r va = ubyte (km_mem s) r va.
Proof.
  intros HI Hr Hva Hl Hm. destruct (decide (leaf (km_mem s) r va = 0)) as [E|E].
  - apply (ubyte_leaf _ _ _ _ 0 0); [done|done|by rewrite Hl|done|done].
  - destruct (leaf_page s l O r va HI Hr E) as (p & d & _ & Hd & _ & HL & _).
    apply (ubyte_leaf _ _ _ _ (leaf (km_mem s) r va) d); [done|done|done| |].
    + intros _. apply pte_leaf_addr; [|done]. by eapply (vi_page _ _ _ HI).
    + intros _. apply (Hm d); [done|]. pose proof (Z.mod_pos_bound va PG_SIZE). unfold in_page, PG_SIZE in *. lia.
Qed.
End bounds.

Section resize.
Context `{KE : KernelEnd}.
Context (s : kmem) (l : list Z) (O : gmap Z role) (r sz nsz : Z).
Context (HI : vm_inv s l O) (Hr : O !! r = Some (Tab r 0 0)) (Hsp : space (km_mem s) r sz) (Hmax : 0 <= nsz <= MAXVA).

(** The bytes after the change of size. *)
Definition resized (m m' : mem) : Prop := forall va, 0 <= va ->
  ubyte m' r va = if va <? PG_ROUND_UP nsz then (if va <? PG_ROUND_UP sz then ubyte m r va else Some 0) else None.

Lemma pages_between a b va : 0 <= a <= b -> b <= MAXVA -> 0 <= va < MAXVA ->
  PG_ROUND_UP a / PG_SIZE <= vpn va < PG_ROUND_UP a / PG_SIZE + (PG_ROUND_UP b - PG_ROUND_UP a) / PG_SIZE <->
  PG_ROUND_UP a <= va < PG_ROUND_UP b.
Proof.
  intros H1 H2 H3. rewrite vpn_user by done. rewrite !PG_ROUND_UP_div by (unfold PG_SIZE, MAXVA in *; lia). unfold PG_SIZE in *. zlia.
Qed.

Lemma grow_user s' l' O' :
  sz <= nsz ->
  allocated s l O r (PG_ROUND_UP sz) ((PG_ROUND_UP nsz - PG_ROUND_UP sz) / PG_SIZE) (fun _ => USER_4K_PAGE_RW_XN) (fun _ _ => 0) s' l' O' ->
  space (km_mem s') r nsz /\ resized (km_mem s) (km_mem s').
Proof using HI Hr Hsp Hmax.
  intros Hle [A1 A2 A3 A4 A5 A6 A7]. pose proof Hsp as [Hs Hmap Hend]. pose proof (round_up_range sz Hs). pose proof (round_up_range nsz Hmax).
  assert (Hout : forall va, 0 <= va < MAXVA -> ~ PG_ROUND_UP sz <= va < PG_ROUND_UP nsz -> leaf (km_mem s') r va = leaf (km_mem s) r va).
  { intros va Hva Hn. apply A5; [done|]. intros [_ Hv]. apply Hn. apply (pages_between sz nsz va) in Hv; lia. }
  assert (Hin : forall va, PG_ROUND_UP sz <= va < PG_ROUND_UP nsz -> va < MAXVA -> leaf (km_mem s') r va <> 0 /\ ubyte (km_mem s') r va = Some 0).
  { intros va Hva Hva'. destruct (A6 va) as (d & Hd & _ & El & Hb); [apply pages_between; lia|].
    assert (HL : pte_leaf (leaf (km_mem s') r va) d).
    { rewrite El. apply pte_leaf_make; [by eapply (vi_page _ _ _ A1)|done]. }
    split; [by eapply pte_leaf_nonzero|]. assert (kpage d) as Hdk by (by eapply (vi_page _ _ _ A1)).
    unfold ubyte, uaddr, upage. destruct (Z.ltb_spec va 0); [lia|]. destruct (Z.leb_spec MAXVA va); [lia|].
    rewrite (proj1 (proj2 HL)), Z.eqb_refl. cbn [negb]. rewrite (pte_leaf_addr _ d Hdk HL).
    replace (Z.land (leaf (km_mem s') r va) AP_USER =? 0) with false.
    - simpl. f_equal. apply Hb. pose proof (Z.mod_pos_bound va PG_SIZE). unfold in_page, PG_SIZE in *. lia.
    - symmetry. apply Z.eqb_neq. rewrite El, Z.land_lor_distr_l. intros [_ E]%Z.lor_eq_0_iff. done. }
  split.
  - split; [done| |].
    + intros a Ha. destruct (decide (a < PG_ROUND_UP sz)) as [Hlt|Hge]; [|apply Hin; lia]. rewrite Hout by lia.
      rewrite (leaf_vpn s l O r a (a / PG_SIZE * PG_SIZE) HI Hr).
      * apply Hmap. rewrite PG_ROUND_UP_div in Hlt by (unfold PG_SIZE, MAXVA in *; lia). unfold PG_SIZE in *. zlia.
      * rewrite !vpn_user by (unfold PG_SIZE in *; zlia). by rewrite Z.div_mul.
    + intros a Ha. rewrite Hout by lia. apply Hend. pose proof (round_up_mono sz nsz). lia.
  - intros va Hva. pose proof (round_up_mono sz nsz ltac:(lia) ltac:(lia)) as Hmono.
    destruct (Z.ltb_spec va (PG_ROUND_UP nsz)) as [H1|H1].
    + assert (PG_ROUND_UP nsz <= MAXVA) by (apply (round_up_pages nsz Hmax)).
      destruct (Z.ltb_spec va (PG_ROUND_UP sz)); [|apply Hin; lia].
      apply (ubyte_kept s l O); [done|done|lia|apply Hout; lia|]. intros d x Hd Hx.
      destruct (off_tables s l O d _ x HI Hd ltac:(done) Hx) as [T1 T2]. by apply A7.
    + destruct (decide (va < MAXVA)) as [Hlt|Hge].
      * unfold ubyte, uaddr, upage. destruct (Z.ltb_spec va 0); [done|]. destruct (Z.leb_spec MAXVA va); [done|].
        rewrite Hout, Hend by lia. done.
      * unfold ubyte, uaddr, upage. destruct (Z.ltb_spec va 0); [done|]. destruct (Z.leb_spec MAXVA va); [done|lia].
Qed.

Lemma shrink_user s' l' O' :
  nsz <= sz -> unmapped s l O r (PG_ROUND_UP nsz) ((PG_ROUND_UP sz - PG_ROUND_UP nsz) / PG_SIZE) s' l' O' ->
  space (km_mem s') r nsz /\ resized (km_mem s) (km_mem s').
Proof using HI Hr Hsp Hmax.
  intros Hle [A1 A2 A3 A4 A5 A6 A7]. pose proof Hsp as [Hs Hmap Hend]. pose proof (round_up_range sz Hs). pose proof (round_up_range nsz Hmax).
  pose proof (round_up_mono nsz sz ltac:(lia) ltac:(lia)) as Hmono. assert (Hsm : PG_ROUND_UP sz <= MAXVA) by (apply (round_up_pages sz Hs)).
  assert (Hlf : forall va, 0 <= va < MAXVA -> leaf (km_mem s') r va = if decide (va < PG_ROUND_UP nsz) then leaf (km_mem s) r va else 0).
  { intros va Hva. rewrite A6 by done. pose proof (pages_between nsz sz va ltac:(lia) ltac:(lia) Hva) as Hb.
    destruct (decide (va < PG_ROUND_UP nsz)) as [Hlt|Hge].
    - rewrite decide_False; [done|]. intros [_ ?%Hb]. lia.
    - destruct (decide (va < PG_ROUND_UP sz)); [rewrite decide_True; [done|split; [done|apply Hb; lia]]|].
      rewrite Hend by lia. by destruct (decide _). }
  split.
  - split; [done| |].
    + intros a Ha. rewrite Hlf, decide_True by lia. apply Hmap. lia.
    + intros a Ha. rewrite Hlf, decide_False by lia. done.
  - intros va Hva. destruct (Z.ltb_spec va (PG_ROUND_UP nsz)) as [H1|H1].
    + rewrite (proj2 (Z.ltb_lt _ _)) by lia. apply (ubyte_kept s l O); [done|done|lia|rewrite Hlf, decide_True by lia; done|].
      intros d x Hd Hx. destruct (off_tables s l O d _ x HI Hd ltac:(done) Hx) as [T1 T2]. apply A7; [done|].
      intros d' v Hd' Hv Hx'. assert (d = d') as <- by (eapply in_page_disjoint; [by apply (vi_page _ _ _ HI _ _ Hd)|by apply (vi_page _ _ _ HI _ _ Hd')|done|done]).
      rewrite Hd in Hd'. injection Hd' as <-. apply (pages_between nsz sz va) in Hv; lia.
    + unfold ubyte, uaddr, upage. destruct (Z.ltb_spec va 0); [done|]. destruct (Z.leb_spec MAXVA va); [done|].
      rewrite Hlf, decide_False by lia. done.
Qed.
End resize.

Section growproc.
Context `{KE : KernelEnd, PL : Platform}.

(** The account after the space of [p] changed its size. *)
Lemma procs_ok_resize F s l O p sz k' l' O' :
  procs_ok F s l O -> live s p -> vm_inv k' l' O' ->
  (forall c, O' !! c = Some Other <-> O !! c = Some Other) ->
  (forall r, O' !! r = Some (Tab r 0 0) <-> O !! r = Some (Tab r 0 0)) ->
  space (km_mem k') (p_pagetable (k_procs s p)) sz ->
  (forall r va, O !! r = Some (Tab r 0 0) -> r <> p_pagetable (k_procs s p) -> leaf (km_mem k') r va = leaf (km_mem (k_km s)) r va) ->
  procs_ok F (set_proc p (set_p_size sz) (set_k_km k' s)) l' O'.
Proof.
  intros H Hp HI HO HR Hsp Hl. eapply procs_ok_change; [exact H|exact HI|exact HO|exact HR| | |].
  - intros p'. unfold set_proc. cbn [k_procs set_k_procs set_k_km]. unfold upd. by case_decide; subst.
  - intros p' Hun. unfold set_proc. cbn [k_procs set_k_procs set_k_km]. rewrite upd_ne; [done|]. intros ->. by destruct Hp.
  - intros p' Hp'. unfold set_proc. cbn [k_procs set_k_procs set_k_km k_km]. unfold upd. case_decide as E; [by subst|].
    pose proof (procs_live _ _ _ _ _ H Hp') as [L1 L2 L3 L4]. eapply space_leaf; [|exact L3]. intros va. apply Hl; [done|].
    by apply (pk_apart _ _ _ _ H).
Qed.

Lemma rest_untouched F s l O p k' :
  procs_ok F s l O -> live s p ->
  (forall r va, O !! r = Some (Tab r 0 0) -> r <> p_pagetable (k_procs s p) -> leaf (km_mem k') r va = leaf (km_mem (k_km s)) r va) ->
  (forall c ρ x, O !! c = Some ρ -> (forall r k b, ρ <> Tab r k b) -> (forall v, ρ <> Dat (p_pagetable (k_procs s p)) v) ->
    in_page c x -> km_mem k' x = km_mem (k_km s) x) ->
  (forall p', live s p' -> p' <> p -> untouched (k_km s) (k_procs s p') k') /\
  (forall x, in_page (p_kstack (k_procs s p)) x -> km_mem k' x = km_mem (k_km s) x).
Proof.
  intros H Hp Hl Hm. split; [|intros x Hx; by apply (Hm _ _ x (pl_kstack _ _ _ (procs_live _ _ _ _ _ H Hp)))].
  intros p' Hp' Hne. pose proof (procs_live _ _ _ _ _ H Hp') as [L1 L2 L3 L4].
  pose proof (pk_apart _ _ _ _ H p' p Hp' Hp Hne) as [A1 A2]. split.
  - apply (user_same (k_km s) l O); [apply H|done|intros va; by apply Hl|]. intros d v x Hd Hx. apply (Hm d _ x Hd); [done| |done].
    intros w [= E _]. done.
  - intros x Hx. by apply (Hm _ _ x L1).
Qed.

(** What [growproc] promises for process [p] and a change of [n], with the
    pages [l] free: growth fails only when they may be too few for the new pages
    and their tables; and a shrink by more than there is, whose new size wraps
    around to a huge one, does nothing and yet returns 0. *)
Definition grow_result (F : gset Z) (s : kernel) (l : list Z) (p : nat) (n : Z) (r : Z) (s' : kernel) : Prop :=
  let q := k_procs s p in
  (exists l' O', procs_ok F s' l' O') /\
  (forall p', live s p' -> p' <> p -> k_procs s' p' = k_procs s p' /\ untouched (k_km s) (k_procs s p') (k_km s')) /\
  ((r = 0 /\ 0 <= p_size q + n /\ k_procs s' p = set_p_size (p_size q + n) q /\
    resized (p_pagetable q) (p_size q) (p_size q + n) (km_mem (k_km s)) (km_mem (k_km s'))) \/
   (r = 0 /\ p_size q + n < 0 /\ k_procs s' p = q /\ k_km s' = k_km s) \/
   (r = -1 /\ 0 < n /\ Z.of_nat (length l) < 4 * ((PG_ROUND_UP (p_size q + n) - PG_ROUND_UP (p_size q)) / PG_SIZE) /\
    k_procs s' p = q /\ untouched (k_km s) q (k_km s'))).

Lemma grow_result_size F s l O p n k' l' O' :
  procs_ok F s l O -> live s p -> 0 <= p_size (k_procs s p) + n ->
  vm_inv k' l' O' ->
  (forall c, O' !! c = Some Other <-> O !! c = Some Other) ->
  (forall r, O' !! r = Some (Tab r 0 0) <-> O !! r = Some (Tab r 0 0)) ->
  space (km_mem k') (p_pagetable (k_procs s p)) (p_size (k_procs s p) + n) /\
    resized (p_pagetable (k_procs s p)) (p_size (k_procs s p)) (p_size (k_procs s p) + n) (km_mem (k_km s)) (km_mem k') ->
  (forall r va, O !! r = Some (Tab r 0 0) -> r <> p_pagetable (k_procs s p) -> leaf (km_mem k') r va = leaf (km_mem (k_km s)) r va) ->
  (forall c ρ x, O !! c = Some ρ -> (forall r k b, ρ <> Tab r k b) -> (forall v, ρ <> Dat (p_pagetable (k_procs s p)) v) ->
    in_page c x -> km_mem k' x = km_mem (k_km s) x) ->
  grow_result F s l p n 0 (set_proc p (set_p_size (p_size (k_procs s p) + n)) (set_k_km k' s)).
Proof.
  intros H Hp H0 HI HO HR [Hsp Hre] Hl Hm. destruct (rest_untouched F s l O p k' H Hp Hl Hm) as [U _]. split_and!.
  - exists l', O'. by apply (procs_ok_resize F s l O).
  - intros p' Hp' Hne. unfold set_proc. cbn [k_procs set_k_procs k_km set_k_km]. rewrite upd_ne by done. split; [done|by apply U].
  - left. unfold set_proc. cbn [k_procs set_k_procs k_km set_k_km]. by rewrite upd_eq.
Qed.

(** A shrink below 0. *)
Lemma grow_result_wrap F s l O p n :
  procs_ok F s l O -> live s p -> p_size (k_procs s p) + n < 0 ->
  grow_result F s l p n 0 (set_proc p (set_p_size (p_size (k_procs s p))) s).
Proof.
  intros H Hp Hn. pose proof (procs_live _ _ _ _ _ H Hp) as [_ _ L3 _].
  destruct (rest_untouched F s l O p (k_km s) H Hp) as [U _]; [done|done|].
  assert (Es : s = set_k_km (k_km s) s) by (by destruct s). split_and!.
  - exists l, O. rewrite Es at 2. by apply (procs_ok_resize F s l O); try done; apply H.
  - intros p' Hp' Hne. unfold set_proc. cbn [k_procs set_k_procs k_km]. rewrite upd_ne by done. split; [done|by apply U].
  - right; left. unfold set_proc. cbn [k_procs set_k_procs k_km]. rewrite upd_eq. split_and!; [done|done|by destruct (k_procs s p)|done].
Qed.

Lemma growproc_grow F s l O p n :
  procs_ok F s l O -> live s p -> 0 < n < 2 ^ 31 -> let q := k_procs s p in
  wp (sz ← vm (uvmalloc kend (p_pagetable q) (p_size q) (u64 (p_size q + n)) USER_4K_PAGE_RW_XN);
      if sz =? 0 then mret (-1) else modify (set_proc p (set_p_size sz));; mret 0) s (grow_result F s l p n).
Proof.
  intros H Hp Hn q. pose proof (procs_live _ _ _ _ _ H Hp) as [L1 L2 L3 L4]. fold q in L1, L2, L3, L4.
  pose proof (pk_vm _ _ _ _ H) as HI. pose proof (space_bounded _ _ _ _ _ HI L2 L3) as Hb. pose proof (sp_size _ _ _ L3) as Hs.
  assert (Hmax : 0 <= p_size q + n <= MAXVA) by (unfold PHY_STOP, PHY_BASE, MAXVA in *; lia).
  rewrite u64_small by (unfold MAXVA in *; lia). apply wp_bind, wp_vm.
  eapply wp_mono; [apply (uvmalloc_ok (k_km s) l O (p_pagetable q) (p_size q) (p_size q + n)); try done; [lia|lia|]|].
  { intros a Ha. apply (sp_end _ _ _ L3). lia. }
  intros r k' (l' & O' & [[-> HA]|(-> & Hfew & HS)]).
  - rewrite (proj2 (Z.eqb_neq _ 0)) by lia. apply wp_bind, wp_modify, wp_ret.
    pose proof (grow_user _ _ _ _ _ _ HI L2 L3 Hmax k' l' O' ltac:(lia) HA) as Hg. destruct HA as [A1 A2 A3 A4 A5 A6 A7].
    apply (grow_result_size F s l O p n k' l' O'); try done.
    + fold q. lia.
    + intros c. split; [|apply A2]. intros Hc. by destruct (A3 c _ Hc) as [?|[_ [(? & ? & ? & ?)|(? & _ & ?)]]].
    + intros c. split; [|apply A2]. intros Hc. by destruct (A3 c _ Hc) as [?|[_ [(? & ? & ? & ?)|(? & _ & ?)]]].
    + intros r va Hr Hne. apply A5; [done|]. intros [? _]. done.
    + intros c ρ x Hc Ht _ Hx. destruct (off_tables _ _ _ c ρ x HI Hc Ht Hx). by apply A7.
  - rewrite Z.eqb_refl. apply wp_ret. pose proof (settled_extended _ _ _ _ _ _ HI HS) as X. destruct HS as [A1 A2 A3 A4 A5 A6].
    assert (U : forall p', live s p' -> untouched (k_km s) (k_procs s p') k').
    { intros p' Hp'. pose proof (procs_live _ _ _ _ _ H Hp') as [M1 M2 _ _]. by apply (extended_untouched _ l O _ _ l' O'). }
    split_and!; [|intros p' Hp' _; split; [done|by apply U]|right; right; split_and!; [done|lia|done|done|by apply U]].
    exists l', O'. eapply procs_ok_change; [exact H|exact A1| | |done|done|].
    + intros c. split; [|apply A2]. intros Hc. by destruct (A3 c _ Hc) as [?|[_ (? & ? & ? & ?)]].
    + intros c. split; [|apply A2]. intros Hc. by destruct (A3 c _ Hc) as [?|[_ (? & ? & ? & ?)]].
    + intros p' Hp'. pose proof (procs_live _ _ _ _ _ H Hp') as [M1 M2 M3 M4]. cbn. eapply space_leaf; [|exact M3]. intros va. by apply A5.
Qed.

Lemma resized_refl s l O r sz : vm_inv s l O -> space (km_mem s) r sz -> resized r sz sz (km_mem s) (km_mem s).
Proof.
  intros HI Hsp va Hva. destruct (Z.ltb_spec va (PG_ROUND_UP sz)) as [|Hge]; [done|]. by apply (ubyte_beyond _ _ sz).
Qed.

Lemma growproc_shrink F s l O p n :
  procs_ok F s l O -> live s p -> - 2 ^ 31 <= n < 0 -> let q := k_procs s p in
  wp (sz ← vm (uvmdealloc kend (p_pagetable q) (p_size q) (u64 (p_size q + n)));
      modify (set_proc p (set_p_size sz));; mret 0) s (grow_result F s l p n).
Proof.
  intros H Hp Hn q. pose proof (procs_live _ _ _ _ _ H Hp) as [L1 L2 L3 L4]. fold q in L1, L2, L3, L4.
  pose proof (pk_vm _ _ _ _ H) as HI. pose proof (space_bounded _ _ _ _ _ HI L2 L3) as Hb. pose proof (sp_size _ _ _ L3) as Hs.
  destruct (decide (p_size q + n < 0)) as [Hu|Hu].
  - apply wp_bind, wp_vm. unfold uvmdealloc. rewrite (proj2 (Z.leb_le _ _)).
    2:{ unfold u64. replace (p_size q + n) with (2 ^ 64 + (p_size q + n) - 2 ^ 64) by lia. rewrite <- Zminus_mod_idemp_r, Z_mod_same_full, Z.sub_0_r.
        rewrite Z.mod_small; unfold MAXVA in *; lia. }
    apply wp_ret, wp_bind, wp_modify, wp_ret. by apply (grow_result_wrap F s l O).
  - rewrite u64_small by (unfold MAXVA in *; lia). apply wp_bind, wp_vm.
    eapply wp_mono; [apply (uvmdealloc_ok (k_km s) l O (p_pagetable q) (p_size q) (p_size q + n)); try done; [lia|lia|]|].
    { intros a Ha. pose proof (round_up_range _ Hs). pose proof (round_up_range (p_size q + n) ltac:(lia)).
      rewrite (leaf_vpn _ l O _ a (a / PG_SIZE * PG_SIZE) HI L2).
      - apply (sp_mapped _ _ _ L3). destruct Ha as [Ha0 Ha]. rewrite PG_ROUND_UP_div in Ha by (unfold PG_SIZE, MAXVA in *; lia). unfold PG_SIZE in *. zlia.
      - pose proof (proj2 (proj2 (round_up_pages _ Hs))). rewrite !vpn_user by (unfold PG_SIZE in *; zlia). by rewrite Z.div_mul. }
    intros r k' (-> & l' & O' & U). apply wp_bind, wp_modify, wp_ret.
    assert (Hmax : 0 <= p_size q + n <= MAXVA) by lia.
    pose proof (shrink_user _ _ _ _ _ _ HI L2 L3 Hmax k' l' O' ltac:(lia) U) as Hg. destruct U as [A1 A2 A3 A4 A5 A6 A7].
    apply (grow_result_size F s l O p n k' l' O'); try done.
    + fold q. lia.
    + intros c. split; [apply A2|]. intros Hc. by apply A3.
    + intros c. split; [apply A2|]. intros Hc. by apply A3.
    + intros r va Hr Hne. rewrite A6 by done. rewrite decide_False; [done|]. by intros [? _].
    + intros c ρ x Hc Ht Hd Hx. destruct (off_tables _ _ _ c ρ x HI Hc Ht Hx) as [T1 _]. apply A7; [done|].
      intros d v Hdv _. eapply (page_not_other _ _ _ c ρ d _ x HI Hc Hdv); [apply Hd|done].
Qed.

(** C14: [growproc] on every outcome.  When the new size [p_size + n] is not
    negative, 0 is returned for success, with the size changed by [n]: the
    pages the process keeps, the rest of its last page included, have their
    contents, pages that are new hold zeros, and nothing is mapped beyond the
    new end.  -1 is returned only for growth, when fewer pages are free than
    four for each new page, and then the caller sees what it saw.  A shrink by
    more than the size is not refused: 0 is returned and nothing is changed,
    the size included.  In all cases the account of the pages stays exact and
    no other process is touched. *)
Theorem growproc_resizes F s l O p n :
  procs_ok F s l O -> k_cur s = Some p -> live s p -> - 2 ^ 31 <= n < 2 ^ 31 ->
  wp (growproc n) s (grow_result F s l p n).
Proof.
  intros H Hcur Hp Hn. unfold growproc, myproc. apply wp_bind, wp_bind, wp_gets. rewrite Hcur. apply wp_ret.
  unfold the_proc. apply wp_bind, wp_gets. cbv zeta. destruct (Z.ltb_spec 0 n) as [Hpos|Hneg]; [apply (growproc_grow F s l O); [done|done|lia]|].
  destruct (Z.ltb_spec n 0) as [Hlt|Hge]; [apply (growproc_shrink F s l O); [done|done|lia]|].
  assert (n = 0) as -> by lia. apply wp_bind, wp_modify, wp_ret. pose proof (procs_live _ _ _ _ _ H Hp) as [L1 L2 L3 L4].
  pose proof (sp_size _ _ _ L3). assert (Es : s = set_k_km (k_km s) s) by (by destruct s).
  replace (set_proc p _ s) with (set_proc p (set_p_size (p_size (k_procs s p) + 0)) (set_k_km (k_km s) s)) by (by rewrite Z.add_0_r, <- Es).
  apply (grow_result_size F s l O p 0 (k_km s) l O); try done; rewrite ?Z.add_0_r; [lia|apply H|].
  split; [done|]. eapply resized_refl; [apply H|done].
Qed.
End growproc.

#[local] Existing Instance kernel_ex.
#[local] Existing Instance proc_platform.

Lemma growproc_resizes_witness : wp (growproc (-4096)) procs_ex (grow_result ∅ procs_ex [] 0 (-4096)).
Proof.
  apply (growproc_resizes ∅ procs_ex [] procs_roles 0); [apply procs_ex_ok|done|apply live_ex; auto|lia].
Defined.
