(* ===== verification/Exec.v ===== *)
(** Loading a program, [kernel/exec.c], with [sys_exec] of
    [kernel/sysfile.c]. *)

From S2P Require Import Prelude CString Layout Kalloc Vm Sleeplock Bio Log Kernel Sched Uart Printf Console Fs Pipe File Args Sysfile Process.

Definition ELF_MAGIC : Z := 0x464C457F.
Definition ELF_PROG_LOAD : Z := 1.

Definition get64 (l : list Z) (off : nat) : Z := le_combine (take 8 (drop off l)).

(** The fields the loader uses. *)
Record elfhdr : Type := Elfhdr {
  e_magic : Z; e_entry : Z; e_phoff : Z; e_phnum : Z;
}.

Definition ELFHDR_SIZE : Z := 64.

Definition get_elfhdr (l : list Z) : elfhdr :=
  Elfhdr (get32 l 0) (get64 l 24) (get64 l 32) (get16 l 56).

Record proghdr : Type := Proghdr {
  ph_type : Z; ph_flags : Z; ph_off : Z; ph_vaddr : Z; ph_filesz : Z; ph_memsz : Z;
}.

Definition PROGHDR_SIZE : Z := 56.

Definition get_proghdr (l : list Z) : proghdr :=
  Proghdr (get32 l 0) (get32 l 4) (get64 l 8) (get64 l 16) (get64 l 32) (get64 l 40).

Definition getflags (flags : Z) : Z :=
  if ctrue (Z.land flags 1) && ctrue (Z.land flags 2) then USER_4K_PAGE_RW
  else if ctrue (Z.land flags 1) then USER_4K_PAGE_RO
  else if ctrue (Z.land flags 2) then USER_4K_PAGE_RW_XN
  else USER_4K_PAGE_RO_XN.

(** The part of [path] after its last slash. *)
Fixpoint last_elem (path last : list Z) : list Z :=
  match path with
  | [] => last
  | c :: path' => last_elem path' (if c =? ch_slash then path' else last)
  end.

Section exec.
Context `{KE : KernelEnd, PL : Platform}.

Definition loadseg_body (pde vaddr : Z) (ip : nat) (offset size : Z) (i : Z) : M kernel (Z + Z) :=
  if i <? size then
    paddr ← vm (walkaddr pde (u64 (vaddr + i)));
    if paddr =? 0 then panic "loadseg: address should exist"
    else
      let n := if size - i <? PG_SIZE then size - i else PG_SIZE in
      r ← readi ip false paddr (u32 (offset + i)) n;
      if negb (u32 r =? n) then mret (inr (-1))
      else mret (inl (u32 (i + PG_SIZE)))
  else mret (inr 0).

(** [offset] and [size] are [uint]s. *)
Definition loadseg (pde vaddr : Z) (ip : nat) (offset size : Z) : M kernel Z :=
  loop (Z.to_nat (size / PG_SIZE + 2)) (loadseg_body pde vaddr ip offset size) 0.

(** The label [bad] of [exec]. *)
Definition exec_bad (pde sz : Z) (ip : option nat) : M kernel Z :=
  when (ctrue pde) (vm (uvmfree kend PT_LEVELS pde sz));;
  match ip with
  | Some ip => iunlockput ip;; end_op_k
  | None => mret tt
  end;;
  mret (-1).

(** One pass of the loop over the program headers, with [i], [off] and [sz];
    it ends with whether to go on, and [sz]. *)
Definition exec_load_body (pde : Z) (ip : nat) (phnum : Z) (v : Z * Z * Z) :
    M kernel (Z * Z * Z + bool * Z) :=
  let '(i, off, sz) := v in
  if i <? phnum then
    r ← readi ip false klocal (u32 off) PROGHDR_SIZE;
    if negb (r =? PROGHDR_SIZE) then mret (inr (false, sz))
    else
      l ← load_mem klocal (Z.to_nat PROGHDR_SIZE);
      let ph := get_proghdr l in
      let next sz := mret (inl (i + 1, s32 (off + PROGHDR_SIZE), sz)) in
      if negb (ph_type ph =? ELF_PROG_LOAD) then next sz
      else if ph_memsz ph <? ph_filesz ph then mret (inr (false, sz))
      else if negb (ph_vaddr ph mod PG_SIZE =? 0) then mret (inr (false, sz))
      else
        sz1 ← vm (uvmalloc kend pde sz (u64 (ph_vaddr ph + ph_memsz ph)) (getflags (s32 (ph_flags ph))));
        if sz1 =? 0 then mret (inr (false, sz))
        else
          r ← loadseg pde (ph_vaddr ph) ip (u32 (ph_off ph)) (u32 (ph_filesz ph));
          if r <? 0 then mret (inr (false, sz1)) else next sz1
  else mret (inr (true, sz)).

Definition exec_load (pde : Z) (ip : nat) (elf : elfhdr) : M kernel (bool * Z) :=
  loop (Z.to_nat (e_phnum elf + 1)) (exec_load_body pde ip (e_phnum elf)) (0, s32 (e_phoff elf), 0).

(** One pass of the loop that pushes the argument strings, with [argc], [sp]
    and [ustack]; [None] for the jump to [bad]. *)
Definition push_args_body (pde stackbase : Z) (argv : list Z) (v : nat * Z * list Z) :
    M kernel (nat * Z * list Z + option (nat * Z * list Z)) :=
  let '(argc, sp, ustack) := v in
  let a := default 0 (argv !! argc) in
  if a =? 0 then mret (inr (Some v))
  else if decide (MAXARG <= argc)%nat then mret (inr None)
  else
    n ← gets (fun s => strlen (Z.to_nat PG_SIZE) (ptr (km_mem (k_km s)) a));
    match n with
    | None => undefined "strlen"
    | Some n =>
        let sp := u64 (sp - (n + 1)) in
        let sp := u64 (sp - sp mod 16) in
        if sp <? stackbase then mret (inr None)
        else
          r ← vm (copyout pde sp a (n + 1));
          if r <? 0 then mret (inr None)
          else mret (inl (S argc, sp, ustack ++ [sp]))
    end.

(** Once the program is loaded and its inode released: the stack, the
    arguments, and the switch to the new image. *)
Definition exec_commit (pde sz entry : Z) (path argv : list Z) : M kernel Z :=
  p ← myproc;
  q ← the_proc p;
  let oldsz := p_size q in
  let sz := PG_ROUND_UP sz in
  sz1 ← vm (uvmalloc kend pde sz (u64 (sz + 2 * PG_SIZE)) USER_4K_PAGE_RW_XN);
  if sz1 =? 0 then exec_bad pde sz None
  else
    let sz := sz1 in
    vm (uvmclear pde (u64 (sz - 2 * PG_SIZE)));;
    let sp := sz in
    let stackbase := u64 (sp - PG_SIZE) in
    r ← loop (MAXARG + 2) (push_args_body pde stackbase argv) (0%nat, sp, []);
    match r with
    | None => exec_bad pde sz None
    | Some (argc, sp, ustack) =>
        if decide (MAXARG <= argc)%nat then undefined "ustack" else
        let argc := Z.of_nat argc in
        let sp := u64 (sp - (argc + 1) * 8) in
        let sp := u64 (sp - sp mod 16) in
        if sp <? stackbase then exec_bad pde sz None
        else
          r ← copyout_local pde sp (concat (le_split 8 <$> ustack ++ [0]));
          if r <? 0 then exec_bad pde sz None
          else
            tf_set p (TF_X 1) sp;;
            modify (set_proc p (fun q => set_p_name (copy_name (p_name q) (last_elem path path)) q));;
            let oldpde := p_pagetable q in
            modify (set_proc p (set_p_pagetable pde));;
            modify (set_proc p (set_p_size sz));;
            tf_set p TF_PC entry;;
            tf_set p TF_SP sp;;
            uvmswitch p;;
            vm (uvmfree kend PT_LEVELS oldpde oldsz);;
            mret argc
    end.

(** [argv] lists the addresses of the argument strings, ended by 0. *)
Definition exec (path argv : list Z) : M kernel Z :=
  begin_op_k;;
  ip ← namei path;
  match ip with
  | None => end_op_k;; mret (-1)
  | Some ip =>
      ilock (Some ip);;
      r ← readi ip false klocal 0 ELFHDR_SIZE;
      if negb (r =? ELFHDR_SIZE) then exec_bad 0 0 (Some ip)
      else
        l ← load_mem klocal (Z.to_nat ELFHDR_SIZE);
        let elf := get_elfhdr l in
        if negb (e_magic elf =? ELF_MAGIC) then exec_bad 0 0 (Some ip)
        else
          pde ← vm uvmcreate;
          if pde =? 0 then exec_bad 0 0 (Some ip)
          else
            '(ok, sz) ← exec_load pde ip elf;
            if negb ok then exec_bad pde sz (Some ip)
            else
              iunlockput ip;;
              end_op_k;;
              exec_commit pde sz (e_entry elf) path argv
  end.

(** One pass of the loop of [sys_exec] over the user's [argv]: it ends with
    the pages, and whether to go on. *)
Definition sys_exec_body (uargv : Z) (v : Z * list Z) : M kernel (Z * list Z + bool * list Z) :=
  let '(i, argv) := v in
  if Z.of_nat MAXARG <=? i then mret (inr (false, argv))
  else
    '(r, uarg) ← fetchaddr (u64 (uargv + 8 * i));
    if r <? 0 then mret (inr (false, argv))
    else if uarg =? 0 then mret (inr (true, argv))
    else
      page ← vm kalloc;
      if page =? 0 then mret (inr (false, argv))
      else
        r ← fetchstr uarg page PG_SIZE;
        if r <? 0 then mret (inr (false, argv ++ [page]))
        else mret (inl (i + 1, argv ++ [page])).

Fixpoint free_args (argv : list Z) : M kernel unit :=
  match argv with
  | [] => mret tt
  | a :: argv' => vm (kfree kend a);; free_args argv'
  end.

Definition sys_exec : M kernel Z :=
  uargv ← argaddr 2;
  '(n, path) ← argstr 1 MAXPATH;
  if n <? 0 then mret (-1)
  else
    '(ok, argv) ← loop (MAXARG + 2) (sys_exec_body uargv) (0, []);
    if negb ok then free_args argv;; mret (-1)
    else
      ret ← exec path (argv ++ [0]);
      free_args argv;;
      mret ret.
End exec.
