(* ===== verification/ExecSafe.v ===== *)
(** [exec] of [kernel/exec.c] from the point where the program is loaded: the
    stack with the arguments, and the switch to the new address space.

    While [exec] works there is one address space that no process has yet
    ([loaded]); the switch exchanges it with the old one, and freeing what is
    then the odd one gives the account of [ProcMem] back. *)

From stdpp Require Import gmap.
From S2P Require Import Prelude CString Layout Kalloc Vm VmTables VmOps VmExample VmCopy VmFork VmFree Sleeplock Bio Log LogSafe Kernel UserMem Sched Uart KernelExample Printf Console Fs Pipe File Args Sysfile Process ProcMem ProcLife ProcWait ProcExample ProcGrow Exec.

(** * Steps on one address space *)

Section advance.
Context `{KE : KernelEnd}.

(** A step that works on the address space [r] and on the kernel's bytes
    [W]. *)
Record advanced (r : Z) (W : Z -> Prop) (s : kmem) (l : list Z) (O : gmap Z role) (s' : kmem) (l' : list Z) (O' : gmap Z role) : Prop := {
  av_inv : vm_inv s' l' O';
  av_sub : forall p ρ, O !! p = Some ρ -> O' !! p = Some ρ;
  av_new : forall p ρ, O' !! p = Some ρ -> O !! p = Some ρ \/ (exists r' k b, ρ = Tab r' (S k) b) \/ exists v, ρ = Dat r v;
  av_pages : forall p, p ∈ l -> p ∈ l' \/ is_Some (O' !! p);
  av_leaf : forall r' va, O !! r' = Some (Tab r' 0 0) -> r' <> r -> leaf (km_mem s') r' va = leaf (km_mem s) r' va;
  av_mem : forall p ρ x, O !! p = Some ρ -> (forall r' k b, ρ <> Tab r' k b) -> (forall v, ρ <> Dat r v) ->
    in_page p x -> ~ W x -> km_mem s' x = km_mem s x;
}.

Lemma advanced_refl r W s l O : vm_inv s l O -> advanced r W s l O s l O.
Proof. intros HI. split; try done; by left. Qed.

Lemma advanced_trans r W s l O s1 l1 O1 s2 l2 O2 :
  advanced r W s l O s1 l1 O1 -> advanced r W s1 l1 O1 s2 l2 O2 -> advanced r W s l O s2 l2 O2.
Proof.
  intros [A1 A2 A3 A4 A5 A6] [B1 B2 B3 B4 B5 B6]. split; [done|auto| | | |].
  - intros p ρ Hp. destruct (B3 p ρ Hp) as [H|H]; [auto|by right].
  - intros p Hp. destruct (A4 p Hp) as [?|[ρ ?]]; [auto|right; eauto].
  - intros r' va Hr Hne. rewrite B5 by auto. auto.
  - intros p ρ x Hp Ht Hd Hx HW. rewrite (B6 p ρ) by auto. by apply (A6 p ρ).
Qed.

Lemma allocated_advanced r W s l O va n f cc s' l' O' :
  vm_inv s l O -> allocated s l O r va n f cc s' l' O' -> advanced r W s l O s' l' O'.
Proof.
  intros HI [A1 A2 A3 A4 A5 A6 A7]. split; [done|done| |apply A4| |].
  - intros p ρ Hp. destruct (A3 p ρ Hp) as [?|[_ [?|(v & _ & ->)]]]; [by left|right; by left|right; right; eauto].
  - intros r' va' Hr Hne. apply A5; [done|]. by intros [? _].
  - intros p ρ x Hp Ht _ Hx _. destruct (off_tables _ _ _ p ρ x HI Hp Ht Hx). by apply A7.
Qed.

Lemma settled_advanced r W s l O s' l' O' : vm_inv s l O -> settled s l O s' l' O' -> advanced r W s l O s' l' O'.
Proof.
  intros HI [A1 A2 A3 [_ A4] A5 A6]. split; [done|done| | | |].
  - intros p ρ Hp. destruct (A3 p ρ Hp) as [?|[_ ?]]; [by left|right; by left].
  - intros p Hp. destruct (A4 p Hp) as [?|(? & ? & ? & ?)]; [by left|right; eauto].
  - intros r' va' Hr _. by apply A5.
  - intros p ρ x Hp Ht _ Hx _. destruct (off_tables _ _ _ p ρ x HI Hp Ht Hx). by apply A6.
Qed.

(** A write into data pages of [r], or to the bytes [W] of the kernel page
    [c]. *)
Lemma write_advanced r c (W : Z -> Prop) s l O s' :
  vm_inv s l O -> O !! c = Some Other -> bytes_ok (km_mem s') -> km_freelist s' = km_freelist s ->
  (forall x, W x -> in_page c x) -> (forall x, outside O r x -> ~ W x -> km_mem s' x = km_mem s x) ->
  advanced r W s l O s' l O /\ forall r' va, O !! r' = Some (Tab r' 0 0) -> leaf (km_mem s') r' va = leaf (km_mem s) r' va.
Proof.
  intros HI Hc Hb Hf HW Hm.
  assert (Ht : forall p r' k b x, O !! p = Some (Tab r' k b) -> in_page p x -> km_mem s' x = km_mem s x).
  { intros p r' k b x Hp Hx. apply Hm; [by eapply outside_table|]. intros Hwx%HW. by eapply (page_not_other _ _ _ p _ c _ x HI). }
  assert (HI' : vm_inv s' l O).
  { apply (vm_inv_write s); [done|done|done|done|]. intros p x Hp Hx. apply Hm; [by eapply outside_pool|].
    intros Hcx%HW. by eapply (page_not_pool _ _ _ c _ p x HI). }
  assert (Hl : forall r' va, O !! r' = Some (Tab r' 0 0) -> leaf (km_mem s') r' va = leaf (km_mem s) r' va).
  { intros r' va Hr'. by apply (leaf_frame s l O s' l O). }
  split; [|done]. split; [done|done|by left|by left|intros; by apply Hl|].
  intros p ρ x Hp _ Hd Hx Hn. apply Hm; [|done]. intros d v Hdv. eapply (page_not_other _ _ _ p ρ d _ x HI); [done|done| |done].
  intros ->. by apply (Hd v).
Qed.

(** The other address spaces do not notice. *)
Lemma advanced_user r W s l O s' l' O' r' va :
  vm_inv s l O -> advanced r W s l O s' l' O' -> O !! r' = Some (Tab r' 0 0) -> r' <> r ->
  (forall d v x, O !! d = Some (Dat r' v) -> in_page d x -> ~ W x) ->
  ubyte (km_mem s') r' va = ubyte (km_mem s) r' va.
Proof.
  intros HI [A1 A2 A3 A4 A5 A6] Hr Hne HW. apply (user_same s l O); [done|done|intros; by apply A5|].
  intros d v x Hd Hx. apply (A6 d _ x Hd); [done|congruence|done|by eapply HW].
Qed.

(** * The guard page *)

Definition guard_pte (e : Z) : Z := Z.lor (Z.land e (Z.lnot MASK_4K_PAGE)) KERNEL_4K_PAGE.

Lemma guard_pte_leaf e d : pte_leaf e d -> pte_leaf (guard_pte e) d /\ Z.land (guard_pte e) AP_USER = 0.
Proof.
  intros (Hr & _ & Ha). unfold guard_pte. split; [split; [|split]|].
  - apply lor_range; [lia| |vm_compute; done]. split; [apply Z.land_nonneg; left; lia|].
    rewrite <- (Z.mod_small e (2 ^ 64)) by done. rewrite <- Z.land_ones, <- Z.land_assoc, (Z.land_comm (Z.ones 64)), Z.land_assoc, Z.land_ones by done.
    by apply Z.mod_pos_bound.
  - rewrite Z.land_lor_distr_l, <- Z.land_assoc. change (Z.land (Z.lnot MASK_4K_PAGE) MM_TYPE_MASK) with 0. by rewrite Z.land_0_r.
  - rewrite Z.land_lor_distr_l, <- Z.land_assoc. change (Z.land (Z.lnot MASK_4K_PAGE) PG_ADDR_MASK) with PG_ADDR_MASK.
    by rewrite Ha, Z.lor_0_r.
  - rewrite Z.land_lor_distr_l, <- Z.land_assoc. change (Z.land (Z.lnot MASK_4K_PAGE) AP_USER) with 0. by rewrite Z.land_0_r.
Qed.

(** [uvmclear] takes the page away from the user and nothing else. *)
Lemma uvmclear_ok W s l O r va :
  vm_inv s l O -> O !! r = Some (Tab r 0 0) -> leaf (km_mem s) r va <> 0 ->
  wp (uvmclear r va) s (fun _ s' => advanced r W s l O s' l O /\
    (forall a, leaf (km_mem s') r a = if decide (vpn a = vpn va) then guard_pte (leaf (km_mem s) r va) else leaf (km_mem s) r a) /\
    forall d ρ x, O !! d = Some ρ -> (forall r k b, ρ <> Tab r k b) -> in_page d x -> km_mem s' x = km_mem s x).
Proof.
  intros HI Hr Hne. destruct (leaf_page s l O r va HI Hr Hne) as (p & d & Hp & Hd & El & HL & Es).
  pose proof (leaf_valid s l O r va HI Hr Hne) as Hv. unfold uvmclear. apply wp_bind. eapply wp_ok; [apply walk_ro|].
  destruct Hv as (Hs0 & _). rewrite (proj2 (Z.eqb_neq _ 0) Hs0). apply wp_bind, wp_gets, wp_modify.
  rewrite (leaf_slot s l O r va HI Hr Hs0), Es. fold (guard_pte (leaf (km_mem s) r va)).
  destruct (guard_pte_leaf _ _ HL) as [HG _]. set (e := guard_pte _) in *. destruct (pre3_vpn va) as [E3 EX].
  pose proof (PX_range 3 va ltac:(lia)) as HPX.
  assert (Ev : pre 3 va * 512 + PX 3 va = vpn va) by (rewrite E3, EX; zlia).
  assert (HI' : vm_inv (set_mem (fun m => store64 m (p + 8 * PX 3 va) e) s) l O).
  { rewrite <- (insert_id O d (Dat r (vpn va))) by done. eapply vm_set_leaf; [done|exact Hp|done|exact Hd|]. right. right. by rewrite Ev. }
  set (s' := set_mem _ s) in *.
  assert (Hleaf : forall r' a, O !! r' = Some (Tab r' 0 0) ->
    leaf (km_mem s') r' a = if decide (r' = r /\ vpn a = vpn va) then e else leaf (km_mem s) r' a).
  { intros r' a Hr'. rewrite <- Ev. apply (leaf_set s l O s' l O p); try done. by apply u64_small, HG. }
  assert (Hmem : forall d ρ x, O !! d = Some ρ -> (forall r k b, ρ <> Tab r k b) -> in_page d x -> km_mem s' x = km_mem s x).
  { intros d' ρ x Hd' Ht Hx. apply store64_out. destruct (decide (p + 8 * PX 3 va <= x < p + 8 * PX 3 va + 8)) as [Hin|]; [|lia].
    exfalso. destruct (off_tables s l O d' ρ x HI Hd' Ht Hx) as [Ho _]. by eapply (Ho p), ent_in_page. }
  split_and!; [|intros a; rewrite Hleaf by done; do 2 case_decide; naive_solver|done].
  split; [done|done|by left|by left| |].
  - intros r' a Hr' Hn. rewrite Hleaf by done. case_decide; naive_solver.
  - intros q ρ x Hq Ht _ Hx _. by eapply Hmem.
Qed.
End advance.

(** * One address space more than processes *)

Section loaded.
Context `{KE : KernelEnd, PL : Platform}.

(** The roles of the other spaces are an invariant by themselves. *)
Lemma vm_inv_released s l O r : vm_inv s l O -> vm_inv s l (released r O).
Proof.
  intros [Hk H1 H2 H3 H4 H5 H6 H7 H8]. split; [done|done|..].
  - intros p Hp. destruct (released r O !! p) as [ρ|] eqn:E; [|done]. apply released_Some in E as [E _]. by rewrite H2 in E.
  - intros p ρ [Hp _]%released_Some. by eapply H3.
  - intros p r' b [Hp _]%released_Some. by eapply H4.
  - intros p r' k b i [Hp Hn]%released_Some Hk3 Hi. destruct (H5 _ _ _ _ _ Hp Hk3 Hi) as [?|(c & Hc & HO)]; [by left|right].
    exists c. split; [done|]. by apply released_Some.
  - intros p r' b i [Hp Hn]%released_Some Hi. destruct (H6 _ _ _ _ Hp Hi) as [?|(c & Hc & HO)]; [by left|right].
    exists c. split; [done|]. by apply released_Some.
  - intros p r' k b [Hp Hn]%released_Some. destruct (H7 _ _ _ _ Hp) as (? & c & Hc & ?). split; [done|]. exists c. split; [|done]. by apply released_Some.
  - intros p r' v [Hp Hn]%released_Some. destruct (H8 _ _ _ Hp) as (c & Hc & ?). exists c. split; [|done]. by apply released_Some.
Qed.

Record loaded (F : gset Z) (s : kernel) (l : list Z) (O : gmap Z role) (r sz : Z) : Prop := {
  ld_vm : vm_inv (k_km s) l O;
  ld_root : O !! r = Some (Tab r 0 0);
  ld_space : space (km_mem (k_km s)) r sz;
  ld_procs : procs_ok F s l (released r O);
}.

Lemma loaded_live F s l O r sz p :
  loaded F s l O r sz -> live s p -> let q := k_procs s p in
  O !! p_kstack q = Some Other /\ O !! p_pagetable q = Some (Tab (p_pagetable q) 0 0) /\ p_pagetable q <> r /\
  space (km_mem (k_km s)) (p_pagetable q) (p_size q) /\ p_trapframe q = p_kstack q + PG_SIZE - TF_SIZE.
Proof.
  intros H Hp q. pose proof (procs_live _ _ _ _ _ (ld_procs _ _ _ _ _ _ H) Hp) as [L1 L2 L3 L4]. fold q in L1, L2, L3, L4.
  apply released_Some in L1 as [L1 _], L2 as [L2 L2']. done.
Qed.

Lemma loaded_advance F s l O r sz W k' l' O' sz' :
  loaded F s l O r sz -> advanced r W (k_km s) l O k' l' O' -> space (km_mem k') r sz' ->
  loaded F (set_k_km k' s) l' O' r sz'.
Proof.
  intros [H1 H2 H3 H4] [A1 A2 A3 A4 A5 A6] Hsp. split; [done|by apply A2|done|].
  apply (procs_ok_change F s l (released r O)); [done|by apply vm_inv_released| | |done|done|].
  - intros c. rewrite !released_Some. split; intros [Hc Hn]; (split; [|done]); [|by apply A2].
    by destruct (A3 c _ Hc) as [?|[(? & ? & ? & ?)|(? & ?)]].
  - intros c. rewrite !released_Some. split; intros [Hc Hn]; (split; [|done]); [|by apply A2].
    by destruct (A3 c _ Hc) as [?|[(? & ? & ? & ?)|(? & ?)]].
  - intros p Hp. pose proof (procs_live _ _ _ _ _ H4 Hp) as [_ L2 L3 _]. cbn. eapply space_leaf; [|exact L3]. intros va.
    apply released_Some in L2 as [L2 Hn]. apply A5; [done|]. intros E. by apply Hn.
Qed.

(** Freeing the odd space: every page that was in use is in use or free. *)
Lemma loaded_free F s l O r sz :
  loaded F s l O r sz ->
  wp (vm (uvmfree kend PT_LEVELS r sz)) s (fun _ s' => exists k' l', s' = set_k_km k' s /\
    procs_ok F s' l' (released r O) /\ shrunk (k_km s) l O k' l' (released r O)).
Proof.
  intros [H1 H2 H3 H4]. apply wp_vm. eapply wp_mono; [by apply (uvmfree_ok (k_km s) l O r sz)|].
  intros [] k' (l' & V). exists k', l'. pose proof (vacated_shrunk _ _ _ _ _ _ H1 V) as S. split_and!; [done| |done].
  apply (procs_ok_change F s l (released r O)); [done|apply S|done|done|done|done|].
  intros p Hp. pose proof (procs_live _ _ _ _ _ H4 Hp) as [_ L2 L3 _]. cbn. eapply space_leaf; [|exact L3]. intros va.
  by apply (sh_leaf _ _ _ _ _ _ S).
Qed.

(** A process takes the odd space; its old one is the odd one now. *)
Lemma loaded_switch F s l O r sz p s' :
  loaded F s l O r sz -> live s p -> let q := k_procs s p in
  k_km s' = k_km s ->
  (forall p', p' <> p -> k_procs s' p' = k_procs s p') ->
  footprint (k_procs s' p) = (false, p_kstack q, r, p_trapframe q) -> p_size (k_procs s' p) = sz ->
  loaded F s' l O (p_pagetable q) (p_size q).
Proof.
  intros H Hp q Ek Hoth Ef Es. pose proof (loaded_live _ _ _ _ _ _ p H Hp) as (L1 & L2 & L3 & L4 & L5). fold q in L1, L2, L3, L4, L5.
  destruct H as [H1 H2 H3 H4]. split; [by rewrite Ek|done|by rewrite Ek|]. pose proof Ef as [= F1 F2 F3 F4]. rewrite F1 in F4.
  assert (Hst : p_state (k_procs s' p) <> UNUSED) by (intros E; by rewrite bool_decide_true in F1). clear Ef F1.
  assert (Hl : forall p', live s' p' <-> live s p').
  { intros p'. unfold live. destruct (decide (p' = p)) as [->|]; [|by rewrite Hoth]. destruct Hp. tauto. }
  assert (Hlv : forall p', live s p' -> p' <> p -> proc_live (released (p_pagetable q) O) (km_mem (k_km s)) (k_procs s p') /\
      p_kstack (k_procs s p') <> p_kstack q /\ p_pagetable (k_procs s p') <> r).
  { intros p' Hp' Hne. pose proof (procs_live _ _ _ _ _ H4 Hp') as [M1 M2 M3 M4].
    pose proof (pk_apart _ _ _ _ H4 p' p Hp' Hp Hne) as [A1 A2]. apply released_Some in M1 as [M1 _], M2 as [M2 M2'].
    split; [|split; [done|naive_solver]]. split; [apply released_Some; split; [done|by intros []]|by apply released_Some|done|done]. }
  split.
  - rewrite Ek. by apply vm_inv_released.
  - intros p' Hp'. rewrite Ek. destruct (decide (p' = p)) as [->|Hne].
    + unfold proc_ok. rewrite bool_decide_false by done. split; rewrite ?F2, ?F3, ?F4, ?Es;
        [apply released_Some; split; [done|by intros []]|apply released_Some; split; [done|naive_solver]|done|done].
    + rewrite Hoth by done. unfold proc_ok. case_bool_decide; [by apply (procs_unused F s l (released r O))|by apply Hlv].
  - intros p1 p2 Hp1%Hl Hp2%Hl Hne. destruct (decide (p1 = p)) as [->|N1], (decide (p2 = p)) as [->|N2]; [done|..].
    + rewrite (Hoth p2), F2, F3 by done. destruct (Hlv p2 Hp2 N2) as (_ & ? & ?). done.
    + rewrite (Hoth p1), F2, F3 by done. destruct (Hlv p1 Hp1 N1) as (_ & ? & ?). done.
    + rewrite !Hoth by done. by apply (pk_apart _ _ _ _ H4).
  - intros c Hc. destruct (pk_fixed _ _ _ _ H4 c Hc) as [Hc1 Hc2]. apply released_Some in Hc1 as [Hc1 _].
    split; [apply released_Some; split; [done|by intros []]|]. intros p' Hp'%Hl. destruct (decide (p' = p)) as [->|Hne]; [rewrite F2; by apply Hc2|].
    rewrite Hoth by done. by apply Hc2.
  - intros c ρ [Hc Hn]%released_Some. destruct (decide (owned r ρ)) as [Ho|Ho].
    { destruct ρ as [r' k b|r' v|]; simpl in Ho; [subst r'|subst r'|done]; exists p; split; by try apply Hl. }
    pose proof (pk_owner _ _ _ _ H4 c ρ (proj2 (released_Some _ _ _ _) (conj Hc Ho))) as Hown.
    destruct ρ as [r' k b|r' v|]; simpl in Hn.
    + destruct Hown as (p' & Hp' & E). exists p'. split; [by apply Hl|]. rewrite Hoth; [done|]. intros ->. by apply Hn.
    + destruct Hown as (p' & Hp' & E). exists p'. split; [by apply Hl|]. rewrite Hoth; [done|]. intros ->. by apply Hn.
    + destruct Hown as [?|(p' & Hp' & E)]; [by left|right]. exists p'. split; [by apply Hl|].
      destruct (decide (p' = p)) as [->|Hne]; [by rewrite F2|by rewrite Hoth].
Qed.
End loaded.

(** * The user stack *)

Section stack.
Context `{KE : KernelEnd, PL : Platform}.

Lemma user_write_out um va l x : x < va \/ va + Z.of_nat (length l) <= x -> user_write um va l x = um x.
Proof.
  intros Hx. unfold user_write. destruct (um x) as [b|]; [|done]. destruct (Z.ltb_spec x va); [done|].
  rewrite lookup_ge_None_2 by lia. done.
Qed.

Lemma user_write_in um va l : (forall i, 0 <= i < Z.of_nat (length l) -> is_Some (um (va + i))) -> user_bytes (user_write um va l) va l.
Proof.
  intros Hm i b Hb. pose proof (lookup_lt_Some _ _ _ Hb). unfold user_write. destruct (Hm (Z.of_nat i) ltac:(lia)) as [c ->].
  destruct (Z.ltb_spec (va + Z.of_nat i) va); [lia|]. replace (Z.to_nat (va + Z.of_nat i - va)) with i by lia. by rewrite Hb.
Qed.

Lemma user_bytes_out um va l va' l' :
  user_bytes um va l -> va' + Z.of_nat (length l') <= va -> user_bytes (user_write um va' l') va l.
Proof. intros H Hle i b Hb. rewrite user_write_out by lia. by apply H. Qed.

Lemma ubyte_mapped m m' r va : (forall a, leaf m' r a = leaf m r a) -> is_Some (ubyte m r va) -> is_Some (ubyte m' r va).
Proof.
  intros Hl. unfold ubyte, uaddr, upage. destruct (va <? 0); [done|]. rewrite Hl. destruct (MAXVA <=? va); [done|].
  destruct (negb _); [done|]. destruct (_ =? 0); [done|]. eauto.
Qed.

(** [copyout] to mapped user memory. *)
Lemma copyout_mapped W s l O r c va a0 bs :
  vm_inv s l O -> O !! r = Some (Tab r 0 0) -> O !! c = Some Other -> (forall x, W x -> in_page c x) ->
  0 <= va < 2 ^ 64 -> Z.of_nat (length bs) < 2 ^ 64 -> load_bytes (km_mem s) a0 (length bs) = bs ->
  (forall i, 0 <= i < Z.of_nat (length bs) -> outside O r (a0 + i)) ->
  (forall i, 0 <= i < Z.of_nat (length bs) -> is_Some (ubyte (km_mem s) r (va + i))) ->
  wp (copyout r va a0 (Z.of_nat (length bs))) s (fun ret s' => ret = 0 /\ advanced r W s l O s' l O /\
    (forall a, leaf (km_mem s') r a = leaf (km_mem s) r a) /\
    forall x, ubyte (km_mem s') r x = user_write (ubyte (km_mem s) r) va bs x).
Proof.
  intros HI Hr Hc HW Hva Hn Hbs Hout Hm. eapply wp_mono; [apply (copyout_ok s l O r va a0); [done|done|done|lia|done]|].
  intros ret s' (HI' & Hu & k & HC & [[-> ->]|(-> & Hk & E)]).
  2:{ exfalso. destruct (Hm k Hk) as [b Hb]. rewrite (proj2 (ubyte_None _ _ (va + k) ltac:(lia)) E) in Hb. done. }
  destruct (write_advanced r c W s l O s' HI Hc (vi_bytes _ _ _ HI') (co_list _ _ _ _ _ _ HC) HW) as [HA HL].
  { intros x Hx _. apply (co_out _ _ _ _ _ _ HC). intros i Hi. eapply outside_uaddr; [done|done|lia|done]. }
  split_and!; [done|done|intros a; by apply HL|]. intros x.
  rewrite (copied_out_write s l O r a0 va bs (Z.of_nat (length bs)) s' x) by (done || lia).
  by rewrite Nat2Z.id, firstn_all.
Qed.

(** Where [exec] puts the arguments below [top]. *)
Definition align16 (x : Z) : Z := x - x mod 16.
Definition push_string (sp : Z) (a : list Z) : Z := align16 (sp - (Z.of_nat (length a) + 1)).
Definition stack_top (top : Z) (args : list (list Z)) : Z := foldl push_string top args.
Definition arg_ptr (top : Z) (args : list (list Z)) (j : nat) : Z := stack_top top (take (S j) args).
Definition arg_ptrs (top : Z) (args : list (list Z)) (n : nat) : list Z := arg_ptr top args <$> seq 0 n.
Definition argv_at (top : Z) (args : list (list Z)) : Z :=
  align16 (stack_top top args - 8 * (Z.of_nat (length args) + 1)).

Lemma align16_range x : x - 16 < align16 x <= x.
Proof. unfold align16. zlia. Qed.

Lemma push_string_le sp a : push_string sp a + Z.of_nat (length a) + 1 <= sp.
Proof. unfold push_string. pose proof (align16_range (sp - (Z.of_nat (length a) + 1))). lia. Qed.

Lemma stack_top_le top args : stack_top top args <= top.
Proof.
  revert top. induction args as [|a args IH]; intros top; cbn [stack_top foldl]; [lia|].
  pose proof (IH (push_string top a)). pose proof (push_string_le top a). unfold stack_top in *. lia.
Qed.

Lemma stack_top_take top args i j : (i <= j)%nat -> stack_top top (take j args) <= stack_top top (take i args).
Proof.
  intros Hij. replace (take j args) with (take i args ++ take (j - i) (drop i args)).
  - unfold stack_top. rewrite foldl_app. apply stack_top_le.
  - rewrite take_drop_commute. replace (i + (j - i))%nat with j by lia.
    transitivity (take i (take j args) ++ drop i (take j args)); [by rewrite take_take, Nat.min_l|apply take_drop].
Qed.

Lemma stack_top_S top args i a : args !! i = Some a -> stack_top top (take (S i) args) = push_string (stack_top top (take i args)) a.
Proof. intros Ha. rewrite (take_S_r _ _ _ Ha). unfold stack_top. by rewrite foldl_app. Qed.

Lemma arg_ptrs_S top args i : arg_ptrs top args (S i) = arg_ptrs top args i ++ [arg_ptr top args i].
Proof. unfold arg_ptrs. by rewrite seq_S, fmap_app. Qed.

Lemma argv_at_le top args i : argv_at top args <= stack_top top (take i args).
Proof.
  unfold argv_at. pose proof (align16_range (stack_top top args - 8 * (Z.of_nat (length args) + 1))).
  pose proof (stack_top_take top args i (Nat.max i (length args)) ltac:(lia)) as Ht. rewrite (take_ge _ (Nat.max _ _)) in Ht by lia. lia.
Qed.
End stack.

(** The argument string [str] at [a], in a page of [P]. *)
Definition arg_ok (P : Z -> Prop) (m : mem) (a : Z) (str : list Z) : Prop :=
  cstr (ptr m a) str /\ exists d, P d /\ forall i, 0 <= i <= Z.of_nat (length str) -> in_page d (a + i).

Section push.
Context `{KE : KernelEnd, PL : Platform}.
Context (k1 : kmem) (l : list Z) (O : gmap Z role) (r top c : Z) (W : Z -> Prop) (addrs : list Z) (args : list (list Z)).
Context (HI : vm_inv k1 l O) (Hr : O !! r = Some (Tab r 0 0)) (Hc : O !! c = Some Other) (HW : forall x, W x -> in_page c x).
Context (Htop : 2 * PG_SIZE <= top <= MAXVA).
Context (Hmap : forall va, top - PG_SIZE <= va < top -> is_Some (ubyte (km_mem k1) r va)).
Context (Hargs : Forall2 (arg_ok (fun d => O !! d = Some Other /\ d <> c) (km_mem k1)) addrs args).
Context (Hlen : (length args < MAXARG)%nat).

(** The first [i] strings are on the stack. *)
Record stacked (i : nat) (k : kmem) : Prop := {
  sk_adv : advanced r W k1 l O k l O;
  sk_leaf : forall a, leaf (km_mem k) r a = leaf (km_mem k1) r a;
  sk_low : top - PG_SIZE <= stack_top top (take i args);
  sk_out : forall va, ~ (stack_top top (take i args) <= va < top) -> ubyte (km_mem k) r va = ubyte (km_mem k1) r va;
  sk_args : forall j a, (j < i)%nat -> args !! j = Some a -> user_bytes (ubyte (km_mem k) r) (arg_ptr top args j) (a ++ [0]);
}.

Lemma cstr_load m a str : cstr (ptr m a) str -> load_bytes m a (length (str ++ [0])) = str ++ [0].
Proof.
  intros [Hs H0]. rewrite length_app. apply list_eq. intros i. destruct (decide (i < length str + 1)%nat) as [Hi|Hi].
  - rewrite lookup_load_bytes by done. destruct (decide (i < length str)%nat) as [Hlt|Hge].
    + rewrite lookup_app_l by done. destruct (lookup_lt_is_Some_2 str i Hlt) as [b Hb]. rewrite Hb. destruct (Hs i b Hb) as [E _]. unfold ptr in E. by rewrite E.
    + assert (i = length str) as -> by lia. rewrite list_lookup_middle by done. unfold ptr in H0. by rewrite H0.
  - rewrite !lookup_ge_None_2; [done| |by rewrite length_load_bytes; cbn; lia]. rewrite length_app. cbn. lia.
Qed.

(** The strings are not touched while the stack is filled. *)
Lemma arg_kept k a str :
  advanced r W k1 l O k l O -> arg_ok (fun d => O !! d = Some Other /\ d <> c) (km_mem k1) a str ->
  cstr (ptr (km_mem k) a) str /\ 0 < a /\ Z.of_nat (length str) < PG_SIZE /\
  forall i, 0 <= i <= Z.of_nat (length str) -> outside O r (a + i).
Proof using All.
  intros HA [[Hs H0] (d & [Hd Hdc] & Hin)]. pose proof (vi_page _ _ _ HI _ _ Hd) as Hdk.
  assert (Hsame : forall i, 0 <= i <= Z.of_nat (length str) -> km_mem k (a + i) = km_mem k1 (a + i)).
  { intros i Hi. apply (av_mem _ _ _ _ _ _ _ _ HA d Other); [done|done|done|by apply Hin|]. intros Hw%HW. apply Hdc.
    eapply in_page_disjoint; [apply Hdk|by apply (vi_page _ _ _ HI _ _ Hc)|by apply Hin|done]. }
  pose proof (Hin 0 ltac:(lia)) as P0. pose proof (Hin _ (conj (Nat2Z.is_nonneg _) (Z.le_refl _))) as P1.
  split_and!.
  - split; [|unfold ptr in *; rewrite Hsame by lia; done]. intros i b Hb. pose proof (lookup_lt_Some _ _ _ Hb).
    unfold ptr in *. rewrite Hsame by lia. by apply Hs.
  - destruct Hdk as (_ & Hk & _). pose proof kend_ok. unfold in_page, KERN_BASE, PHY_BASE in *. lia.
  - unfold in_page in *. lia.
  - intros i Hi q v Hq. eapply (page_not_other _ _ _ d _ q _ (a + i) HI Hd Hq); [done|by apply Hin].
Qed.

(** One string more. *)
Lemma stacked_push i k str k' :
  stacked i k -> args !! i = Some str -> top - PG_SIZE <= push_string (stack_top top (take i args)) str ->
  advanced r W k l O k' l O -> (forall a, leaf (km_mem k') r a = leaf (km_mem k) r a) ->
  (forall x, ubyte (km_mem k') r x = user_write (ubyte (km_mem k) r) (push_string (stack_top top (take i args)) str) (str ++ [0]) x) ->
  stacked (S i) k'.
Proof using All.
  intros [A1 A2 A3 A4 A5] Hi Hlow HA HL Hu. set (sp := stack_top top (take i args)) in *.
  pose proof (push_string_le sp str) as Hp. pose proof (stack_top_le top (take i args)) as Ht. fold sp in Ht.
  split; rewrite ?(stack_top_S top args i str Hi); fold sp; [by eapply advanced_trans|intros a; by rewrite HL|done| |].
  - intros va Hva. rewrite Hu, user_write_out; [apply A4; lia|]. rewrite length_app. cbn. lia.
  - intros j a Hj Ha n b Hb. rewrite Hu. revert n b Hb. change (user_bytes (user_write (ubyte (km_mem k) r) (push_string sp str) (str ++ [0])) (arg_ptr top args j) (a ++ [0])).
    destruct (decide (j = i)) as [->|Hne].
    + assert (a = str) as -> by congruence. unfold arg_ptr. rewrite (stack_top_S top args i str Hi). fold sp.
      apply user_write_in. intros n Hn. rewrite length_app in Hn. cbn in Hn. apply (ubyte_mapped (km_mem k1)); [done|]. apply Hmap. lia.
    + apply user_bytes_out; [apply A5; [lia|done]|]. rewrite length_app. cbn.
      pose proof (stack_top_take top args (S j) i ltac:(lia)). unfold arg_ptr. fold sp in H. lia.
Qed.

(** The loop ends with every string on the stack, or because they do not
    fit. *)
Lemma push_args_ok s n i k fuel :
  (i + n = length args)%nat -> (n < fuel)%nat -> stacked i k ->
  wp (loop fuel (push_args_body r (top - PG_SIZE) addrs) (i, stack_top top (take i args), arg_ptrs top args i)) (set_k_km k s)
    (fun res s' => exists k', s' = set_k_km k' s /\
      match res with
      | None => argv_at top args < top - PG_SIZE /\ advanced r W k1 l O k' l O /\ forall a, leaf (km_mem k') r a = leaf (km_mem k1) r a
      | Some (argc, sp, us) => argc = length args /\ sp = stack_top top args /\ us = arg_ptrs top args argc /\ stacked argc k'
      end).
Proof using All.
  revert i k fuel. induction n as [|n IH]; intros i k fuel Hn Hf HS; (destruct fuel as [|fuel]; [lia|]); cbn [loop]; apply wp_bind;
    unfold push_args_body; pose proof (Forall2_length _ _ _ Hargs) as Hl.
  { rewrite lookup_ge_None_2 by lia. cbn [from_option id]. change (0 =? 0) with true. cbn match. apply wp_ret, wp_ret.
    exists k. split; [done|]. assert (i = length args) as -> by lia. split_and!; [done|by rewrite take_ge|done|done]. }
  destruct (lookup_lt_is_Some_2 args i ltac:(lia)) as [str Hstr]. destruct (lookup_lt_is_Some_2 addrs i ltac:(lia)) as [a Ha].
  destruct (arg_kept k a str (sk_adv _ _ HS) (Forall2_lookup_lr _ _ _ _ _ _ Hargs Ha Hstr)) as (Hcs & Ha0 & Hsz & Hout).
  rewrite Ha. cbn [from_option id]. rewrite (proj2 (Z.eqb_neq a 0)) by lia.
  rewrite decide_False by lia. apply wp_bind, wp_gets. cbn [k_km set_k_km].
  rewrite (strlen_cstr _ _ str Hcs) by (unfold PG_SIZE in *; lia). pose proof (sk_low _ _ HS) as Hlow.
  pose proof (stack_top_le top (take i args)) as Hle. pose proof (argv_at_le top args (S i)) as Hav. rewrite (stack_top_S top args i str Hstr) in Hav.
  set (sp := stack_top top (take i args)) in *. pose proof (push_string_le sp str) as Hps.
  assert (E : u64 (u64 (sp - (Z.of_nat (length str) + 1)) - u64 (sp - (Z.of_nat (length str) + 1)) mod 16) = push_string sp str).
  { pose proof (align16_range (sp - (Z.of_nat (length str) + 1))). unfold push_string, align16 in *. unfold PG_SIZE, MAXVA in *.
    rewrite (u64_small (sp - _)) by lia. apply u64_small. zlia. }
  rewrite E. destruct (Z.ltb_spec (push_string sp str) (top - PG_SIZE)) as [Hlt|Hge].
  { apply wp_ret, wp_ret. exists k. split; [done|]. split_and!; [lia|apply HS|apply HS]. }
  apply wp_bind, wp_vm. cbn [k_km set_k_km].
  replace (Z.of_nat (length str) + 1) with (Z.of_nat (length (str ++ [0]))) by (rewrite length_app; cbn; lia).
  pose proof (sk_adv _ _ HS) as HA. eapply wp_mono; [apply (copyout_mapped W k l O r c _ a (str ++ [0]));
    [apply HA|done|done|done|unfold PG_SIZE, MAXVA in *; lia|rewrite length_app; unfold PG_SIZE in *; cbn; lia|by apply cstr_load|..]|].
  { intros j Hj. rewrite length_app in Hj. cbn in Hj. apply Hout. lia. }
  { intros j Hj. rewrite length_app in Hj. cbn in Hj. apply (ubyte_mapped (km_mem k1)); [apply HS|]. apply Hmap. lia. }
  intros ret k' (-> & HA' & HL' & Hu'). change (0 <? 0) with false. cbn match. apply wp_ret.
  pose proof (stacked_push i k str k' HS Hstr Hge HA' HL' Hu') as HS'.
  replace (push_string sp str) with (stack_top top (take (S i) args)) by (by rewrite (stack_top_S _ _ _ _ Hstr)).
  change (stack_top top (take (S i) args)) with (arg_ptr top args i) at 2. rewrite <- arg_ptrs_S.
  apply (IH (S i) k' fuel); [lia|lia|done].
Qed.
End push.

(** * The switch *)

Section account.
Context `{KE : KernelEnd, PL : Platform}.

Lemma advanced_weaken r (W W' : Z -> Prop) s l O s' l' O' :
  (forall x, W x -> W' x) -> advanced r W s l O s' l' O' -> advanced r W' s l O s' l' O'.
Proof. intros HW [A1 A2 A3 A4 A5 A6]. split; try done. intros p ρ x Hp Ht Hd Hx HW'. apply (A6 p ρ); auto. Qed.

(** No page is lost. *)
Definition pages_kept (l : list Z) (O : gmap Z role) (l' : list Z) (O' : gmap Z role) : Prop :=
  forall c, c ∈ l \/ is_Some (O !! c) -> c ∈ l' \/ is_Some (O' !! c).

Lemma advanced_pages r W s l O s1 l1 O1 s2 l2 O2 :
  advanced r W s l O s1 l1 O1 -> shrunk s1 l1 O1 s2 l2 O2 -> pages_kept l O l2 O2.
Proof.
  intros [A1 A2 A3 A4 A5 A6] [S1 S2 S3 S4 S5] c Hc. assert (c ∈ l1 \/ is_Some (O1 !! c)) as [H|H].
  - destruct Hc as [Hc|[ρ Hc]]; [auto|right; eauto].
  - left. apply S3. by left.
  - destruct (O2 !! c) as [ρ|] eqn:E; [by right; eauto|left]. apply S3. by right.
Qed.

Context (F : gset Z) (s : kernel) (l : list Z) (O : gmap Z role) (r sz : Z) (p : nat) (W : Z -> Prop).
Context (H : loaded F s l O r sz) (Hp : live s p) (HW : forall x, W x -> in_page (p_kstack (k_procs s p)) x).

Lemma advanced_see k l1 O1 p' va :
  advanced r W (k_km s) l O k l1 O1 -> live s p' ->
  ubyte (km_mem k) (p_pagetable (k_procs s p')) va = ubyte (km_mem (k_km s)) (p_pagetable (k_procs s p')) va.
Proof using All.
  intros HA Hp'. destruct (loaded_live _ _ _ _ _ _ p' H Hp') as (L1 & L2 & L3 & _). destruct (loaded_live _ _ _ _ _ _ p H Hp) as (M1 & _).
  pose proof (ld_vm _ _ _ _ _ _ H) as HI. apply (advanced_user r W (k_km s) l O k l1 O1); try done.
  intros d v x Hd Hx Hw%HW. by eapply (page_not_other _ _ _ d _ _ _ x HI Hd M1).
Qed.

Lemma advanced_untouched k l1 O1 p' :
  advanced r W (k_km s) l O k l1 O1 -> live s p' -> p' <> p -> untouched (k_km s) (k_procs s p') k.
Proof using All.
  intros HA Hp' Hne. split; [intros va; by eapply advanced_see|]. intros x Hx. pose proof (ld_vm _ _ _ _ _ _ H) as HI.
  destruct (loaded_live _ _ _ _ _ _ p' H Hp') as (L1 & _). destruct (loaded_live _ _ _ _ _ _ p H Hp) as (M1 & _).
  apply (av_mem _ _ _ _ _ _ _ _ HA _ _ x L1); [done|done|done|]. intros Hw%HW.
  destruct (pk_apart _ _ _ _ (ld_procs _ _ _ _ _ _ H) p' p Hp' Hp Hne) as [A _]. apply A.
  eapply in_page_disjoint; [by apply (vi_page _ _ _ HI _ _ L1)|by apply (vi_page _ _ _ HI _ _ M1)|done|done].
Qed.
End account.

Section space.
Context `{KE : KernelEnd}.

Lemma space_round s l O r sz :
  vm_inv s l O -> O !! r = Some (Tab r 0 0) -> space (km_mem s) r sz ->
  space (km_mem s) r (PG_ROUND_UP sz) /\ PG_ROUND_UP (PG_ROUND_UP sz) = PG_ROUND_UP sz.
Proof.
  intros HI Hr [Hs Hmap Hend]. destruct (round_up_pages sz Hs) as (E & H0 & Hmax). pose proof (round_up_range sz Hs) as [Hr1 Hr2].
  assert (Ei : PG_ROUND_UP (PG_ROUND_UP sz) = PG_ROUND_UP sz).
  { rewrite PG_ROUND_UP_div by (unfold PG_SIZE, MAXVA in *; lia). unfold page_aligned, PG_SIZE in *. zlia. }
  split; [|done]. split; [lia| |by rewrite Ei]. intros a Ha. rewrite (leaf_vpn s l O r a (a / PG_SIZE * PG_SIZE) HI Hr).
  - apply Hmap. rewrite E in Ha. unfold PG_SIZE in *. zlia.
  - rewrite !vpn_user by (unfold PG_SIZE in *; zlia). by rewrite Z.div_mul.
Qed.

(** The memory of the new image before the arguments are there: the program,
    the guard page, an empty stack page. *)
Definition with_stack (m : mem) (r base : Z) (va : Z) : option Z :=
  if va <? base then ubyte m r va else if va <? base + PG_SIZE then None else if va <? base + 2 * PG_SIZE then Some 0 else None.

Lemma guard_user s l O r base k s' :
  vm_inv s l O -> O !! r = Some (Tab r 0 0) -> space (km_mem s) r (base + 2 * PG_SIZE) -> page_aligned base -> 0 <= base ->
  (forall va, 0 <= va -> ubyte (km_mem s) r va =
    if va <? base + 2 * PG_SIZE then (if va <? base then ubyte k r va else Some 0) else None) ->
  (forall a, leaf (km_mem s') r a = if decide (vpn a = vpn base) then guard_pte (leaf (km_mem s) r base) else leaf (km_mem s) r a) ->
  (forall d ρ x, O !! d = Some ρ -> (forall r k b, ρ <> Tab r k b) -> in_page d x -> km_mem s' x = km_mem s x) ->
  space (km_mem s') r (base + 2 * PG_SIZE) /\ forall va, 0 <= va -> ubyte (km_mem s') r va = with_stack k r base va.
Proof.
  intros HI Hr Hsp Hal H0 Hu Hl Hm. pose proof Hsp as [Hs Hmap Hend].
  destruct (leaf_page s l O r base HI Hr) as (p & d & _ & _ & _ & HL & _); [apply Hmap; unfold PG_SIZE; lia|].
  destruct (guard_pte_leaf _ _ HL) as [HG HU].
  assert (Hv : forall a, 0 <= a < MAXVA -> vpn a = vpn base <-> base <= a < base + PG_SIZE).
  { intros a Ha. rewrite !vpn_user by (unfold PG_SIZE in *; lia). unfold page_aligned, PG_SIZE in *. zlia. }
  assert (Hru : base + 2 * PG_SIZE <= PG_ROUND_UP (base + 2 * PG_SIZE)) by (apply round_up_range; lia).
  split.
  - split; [done| |].
    + intros a Ha. rewrite Hl. case_decide; [by eapply pte_leaf_nonzero|by apply Hmap].
    + intros a Ha. rewrite Hl, decide_False; [by apply Hend|]. rewrite Hv; unfold PG_SIZE in *; lia.
  - intros va Hva. unfold with_stack. destruct (decide (base <= va < base + PG_SIZE)) as [Hin|Hout].
    + destruct (Z.ltb_spec va base); [lia|]. destruct (Z.ltb_spec va (base + PG_SIZE)); [|lia]. unfold ubyte, uaddr, upage.
      destruct (Z.ltb_spec va 0); [done|]. destruct (Z.leb_spec MAXVA va); [done|]. rewrite Hl, decide_True by (by apply Hv).
      rewrite HU, (proj1 (proj2 HG)). done.
    + assert (ubyte (km_mem s') r va = ubyte (km_mem s) r va) as ->.
      { destruct (decide (va < MAXVA)) as [Hlt|Hge].
        - apply (ubyte_kept s l O); [done|done|done|rewrite Hl, decide_False; [done|by rewrite Hv]|]. intros d' x Hd' Hx. by eapply Hm.
        - unfold ubyte, uaddr, upage. destruct (Z.ltb_spec va 0); [done|]. by destruct (Z.leb_spec MAXVA va); [|lia]. }
      rewrite Hu by done. unfold PG_SIZE in *.
      destruct (Z.ltb_spec va base), (Z.ltb_spec va (base + 4096)), (Z.ltb_spec va (base + 2 * 4096)); done || lia.
Qed.
End space.

#[local] Transparent copyout_local.

(** [copyout] of a local variable to mapped user memory. *)
Lemma copyout_local_mapped `{KE : KernelEnd, PL : Platform} s k l O r c va bs :
  vm_inv k l O -> O !! r = Some (Tab r 0 0) -> O !! c = Some Other ->
  (forall x, klocal <= x < klocal + KLOCAL_SIZE -> in_page c x) ->
  0 <= va < 2 ^ 64 -> Z.of_nat (length bs) <= KLOCAL_SIZE -> Forall (fun b => 0 <= b < 256) bs ->
  (forall i, 0 <= i < Z.of_nat (length bs) -> is_Some (ubyte (km_mem k) r (va + i))) ->
  wp (copyout_local r va bs) (set_k_km k s) (fun ret s' => exists k', s' = set_k_km k' s /\ ret = 0 /\
    advanced r (fun x => klocal <= x < klocal + KLOCAL_SIZE) k l O k' l O /\
    (forall a, leaf (km_mem k') r a = leaf (km_mem k) r a) /\
    forall x, ubyte (km_mem k') r x = user_write (ubyte (km_mem k) r) va bs x).
Proof.
  intros HI Hr Hc HW Hva Hn Hb Hm. unfold copyout_local, store_mem. apply wp_bind, wp_vm, wp_modify, wp_vm. cbn [k_km set_k_km].
  set (k1 := set_mem (fun m => store_bytes m klocal bs) k).
  destruct (write_advanced r c (fun x => klocal <= x < klocal + KLOCAL_SIZE) k l O k1 HI Hc) as [HA HL]; [|done|done|..].
  { apply store_bytes_ok, (vi_bytes _ _ _ HI). }
  { intros x _ Hx. apply store_bytes_out. lia. }
  assert (Hu : forall x, ubyte (km_mem k1) r x = ubyte (km_mem k) r x).
  { apply (user_same k l O); [done|done|intros a; by apply HL|]. intros d v x Hd Hx. apply store_bytes_out.
    destruct (decide (klocal <= x < klocal + KLOCAL_SIZE)) as [Hin|]; [|lia]. exfalso.
    eapply (page_not_other _ _ _ d _ c _ x HI Hd Hc); [done|done|by apply HW]. }
  eapply wp_mono; [apply (copyout_mapped (fun x => klocal <= x < klocal + KLOCAL_SIZE) k1 l O r c va klocal bs); try done|].
  - apply HA.
  - unfold KLOCAL_SIZE in *. lia.
  - unfold k1. cbn. by apply load_store_bytes.
  - intros i Hi d v Hd Hx. eapply (page_not_other _ _ _ d _ c _ _ HI Hd Hc); [done|exact Hx|apply HW; lia].
  - intros i Hi. rewrite Hu. by apply Hm.
  - intros ret k' (-> & HA' & HL' & Hu'). exists k'. split_and!; [done|done|by eapply advanced_trans|intros a; by rewrite HL', HL|].
    intros x. rewrite Hu'. unfold user_write. by rewrite Hu.
Qed.

Section result.
Context `{KE : KernelEnd, PL : Platform}.

Definition local_byte (x : Z) : Prop := klocal <= x < klocal + KLOCAL_SIZE.

(** No page is lost, and the other processes are as before. *)
Definition others_kept (F : gset Z) (s : kernel) (l : list Z) (O : gmap Z role) (p : nat) (s' : kernel) : Prop :=
  (exists l' O', procs_ok F s' l' O' /\ pages_kept l O l' O') /\
  forall p', live s p' -> p' <> p -> k_procs s' p' = k_procs s p' /\ untouched (k_km s) (k_procs s p') (k_km s').

(** [exec] gave up: the caller goes on as it was. *)
Record exec_failed (s : kernel) (p : nat) (s' : kernel) : Prop := {
  xf_proc : k_procs s' p = k_procs s p;
  xf_user : forall va, ubyte (km_mem (k_km s')) (p_pagetable (k_procs s p)) va = ubyte (km_mem (k_km s)) (p_pagetable (k_procs s p)) va;
  xf_trapframe : forall x, p_trapframe (k_procs s p) <= x < p_trapframe (k_procs s p) + TF_SIZE ->
    km_mem (k_km s') x = km_mem (k_km s) x;
}.

(** The caller runs the new image [r], whose program ends at [base]. *)
Record exec_done (s : kernel) (p : nat) (r base entry : Z) (path : list Z) (args : list (list Z)) (s' : kernel) : Prop := {
  xd_proc : k_procs s' p = set_p_size (base + 2 * PG_SIZE) (set_p_pagetable r
    (set_p_name (copy_name (p_name (k_procs s p)) (last_elem path path)) (k_procs s p)));
  xd_ttbr0 : k_ttbr0 s' = V2P r;
  xd_fits : base + PG_SIZE <= argv_at (base + 2 * PG_SIZE) args;
  xd_words : let w off := load64 (km_mem (k_km s')) (p_trapframe (k_procs s p) + off) in
    w (TF_X 1) = argv_at (base + 2 * PG_SIZE) args /\ w TF_SP = argv_at (base + 2 * PG_SIZE) args /\ w TF_PC = entry;
  xd_program : forall va, 0 <= va < base -> ubyte (km_mem (k_km s')) r va = ubyte (km_mem (k_km s)) r va;
  xd_guard : forall va, base <= va < base + PG_SIZE -> ubyte (km_mem (k_km s')) r va = None;
  xd_args : forall j a, args !! j = Some a ->
    user_bytes (ubyte (km_mem (k_km s')) r) (arg_ptr (base + 2 * PG_SIZE) args j) (a ++ [0]);
  xd_argv : user_bytes (ubyte (km_mem (k_km s')) r) (argv_at (base + 2 * PG_SIZE) args)
    (concat (le_split 8 <$> arg_ptrs (base + 2 * PG_SIZE) args (length args) ++ [0]));
}.
End result.

Section commit.
Context `{KE : KernelEnd, PL : Platform}.
Context (F : gset Z) (s : kernel) (l : list Z) (O : gmap Z role) (r sz : Z) (p : nat).
Context (H : loaded F s l O r sz) (Hp : live s p) (Hloc : local_ok (k_procs s p)).
Context (Htf : klocal + KLOCAL_SIZE <= p_trapframe (k_procs s p)).
#[local] Abbreviation q := (k_procs s p).
#[local] Abbreviation base := (PG_ROUND_UP sz).
#[local] Abbreviation top := (PG_ROUND_UP sz + 2 * PG_SIZE).

Lemma local_stack x : local_byte x -> in_page (p_kstack q) x.
Proof using Hloc. intros Hx. replace x with (klocal + (x - klocal)) by lia. apply Hloc. unfold local_byte in Hx. lia. Qed.

(** The label [bad] once the inode is released. *)
Lemma exec_bad_ok k l1 O1 sz1 :
  advanced r local_byte (k_km s) l O k l1 O1 -> space (km_mem k) r sz1 ->
  wp (exec_bad r sz1 None) (set_k_km k s) (fun res s' => res = -1 /\ others_kept F s l O p s' /\ exec_failed s p s').
Proof using All.
  intros HA Hsp. pose proof (loaded_advance _ _ _ _ _ _ _ _ _ _ _ H HA Hsp) as H1. unfold exec_bad.
  pose proof (kpage_ne_0 _ (vi_page _ _ _ (ld_vm _ _ _ _ _ _ H) _ _ (ld_root _ _ _ _ _ _ H))) as Hne.
  unfold ctrue. rewrite (proj2 (Z.eqb_neq _ _) Hne). cbn [negb when]. apply wp_bind.
  eapply wp_mono; [by apply (loaded_free F (set_k_km k s) l1 O1 r sz1)|]. intros [] s' (k' & l' & -> & Hok & S).
  apply wp_bind, wp_ret, wp_ret. cbn [k_km set_k_km] in S.
  assert (Hk : forall p', live s p' -> untouched k (k_procs s p') k').
  { intros p' Hp'. pose proof (procs_live _ _ _ _ _ Hok Hp') as [L1 L2 _ _]. by eapply shrunk_untouched. }
  split; [done|]. split; [split|split]; cbn [k_procs k_km set_k_km].
  - exists l', (released r O1). split; [done|]. by eapply advanced_pages.
  - intros p' Hp' Hn. split; [done|]. eapply untouched_trans; [|by apply Hk].
    by apply (advanced_untouched F s l O r sz p local_byte H Hp local_stack k l1 O1).
  - done.
  - intros va. rewrite (ut_user _ _ _ (Hk p Hp)). by apply (advanced_see F s l O r sz p local_byte H Hp local_stack k l1 O1).
  - intros x Hx. destruct (loaded_live _ _ _ _ _ _ p H Hp) as (L1 & _ & _ & _ & L5). fold q in L5.
    assert (in_page (p_kstack q) x) as Hin by (unfold in_page, TF_SIZE, PG_SIZE in *; lia).
    rewrite (ut_stack _ _ _ (Hk p Hp) x Hin). apply (av_mem _ _ _ _ _ _ _ _ HA _ _ x L1); [done|done|done|]. unfold local_byte. lia.
Qed.

Definition tf_bytes (x : Z) : Prop := p_trapframe q <= x < p_trapframe q + TF_SIZE.

(** The three words [exec] writes to the trap frame. *)
Definition tf_mem (m : mem) (x1 pc sp : Z) : mem :=
  let tf := p_trapframe q in store64 (store64 (store64 m (tf + TF_X 1) x1) (tf + TF_PC) pc) (tf + TF_SP) sp.

Lemma tf_mem_advanced k l1 O1 x1 pc sp :
  advanced r local_byte (k_km s) l O k l1 O1 -> let k' := set_mem (fun m => tf_mem m x1 pc sp) k in
  advanced r (fun x => local_byte x \/ tf_bytes x) (k_km s) l O k' l1 O1 /\
  (forall r' va, O1 !! r' = Some (Tab r' 0 0) -> leaf (km_mem k') r' va = leaf (km_mem k) r' va) /\
  forall va, ubyte (km_mem k') r va = ubyte (km_mem k) r va.
Proof using All.
  intros HA k'. destruct (loaded_live _ _ _ _ _ _ p H Hp) as (L1 & L2 & L3 & _ & L5). fold q in L1, L5. pose proof (av_inv _ _ _ _ _ _ _ _ HA) as HI1.
  pose proof (av_sub _ _ _ _ _ _ _ _ HA _ _ L1) as L1'.
  assert (Htb : forall x, tf_bytes x -> in_page (p_kstack q) x) by (unfold tf_bytes, in_page, TF_SIZE, PG_SIZE in *; lia).
  assert (Hout : forall x, ~ tf_bytes x -> km_mem k' x = km_mem k x).
  { intros x Hx. unfold k', tf_mem, tf_bytes, TF_X, TF_PC, TF_SP, TF_SIZE in *. cbn. rewrite !store64_out by lia. done. }
  destruct (write_advanced r (p_kstack q) (fun x => local_byte x \/ tf_bytes x) k l1 O1 k' HI1 L1') as [HA' HL].
  - unfold k', tf_mem. cbn. do 3 apply store64_ok. apply (vi_bytes _ _ _ HI1).
  - done.
  - intros x [Hx|Hx]; [by apply local_stack|by apply Htb].
  - intros x _ Hx. apply Hout. naive_solver.
  - split_and!; [|done|].
    + eapply advanced_trans; [|exact HA']. eapply advanced_weaken; [|exact HA]. naive_solver.
    + pose proof (av_sub _ _ _ _ _ _ _ _ HA _ _ (ld_root _ _ _ _ _ _ H)) as Hr1. apply (user_same k l1 O1); [done|done|intros va; by apply HL|].
      intros d v x Hd Hx. apply Hout. intros Ht%Htb. by eapply (page_not_other _ _ _ d _ _ _ x HI1 Hd L1').
Qed.

Lemma tf_mem_words m x1 pc sp : let tf := p_trapframe q in let w off := load64 (tf_mem m x1 pc sp) (tf + off) in
  w (TF_X 1) = u64 x1 /\ w TF_SP = u64 sp /\ w TF_PC = u64 pc.
Proof using Type.
  cbv zeta. unfold tf_mem, TF_X, TF_PC, TF_SP. split_and!.
  - rewrite !load64_store64_ne by lia. apply load64_store64_eq.
  - apply load64_store64_eq.
  - rewrite load64_store64_ne by lia. apply load64_store64_eq.
Qed.

Definition exec_proc (path : list Z) : proc :=
  set_p_size top (set_p_pagetable r (set_p_name (copy_name (p_name q) (last_elem path path)) q)).

(** From the trap frame on: the new image is the process's, the old one goes
    back to the allocator. *)
Lemma exec_switch_ok k l1 O1 s1 path x1 pc sp :
  advanced r local_byte (k_km s) l O k l1 O1 -> space (km_mem k) r top ->
  k_km s1 = set_mem (fun m => tf_mem m x1 pc sp) k -> k_procs s1 p = exec_proc path ->
  (forall p', p' <> p -> k_procs s1 p' = k_procs s p') ->
  wp (vm (uvmfree kend PT_LEVELS (p_pagetable q) (p_size q))) s1 (fun _ s' => exists k', s' = set_k_km k' s1 /\
    others_kept F s l O p s' /\ (forall va, ubyte (km_mem k') r va = ubyte (km_mem k) r va) /\
    forall off, 0 <= off -> off + 8 <= TF_SIZE -> load64 (km_mem k') (p_trapframe q + off) = load64 (tf_mem (km_mem k) x1 pc sp) (p_trapframe q + off)).
Proof using All.
  intros HA Hsp Ek Ep Ho. destruct (tf_mem_advanced k l1 O1 x1 pc sp HA) as (HA' & HL & Hu). set (k2 := set_mem _ k) in *.
  destruct (loaded_live _ _ _ _ _ _ p H Hp) as (L1 & L2 & L3 & L4 & L5). fold q in L5.
  pose proof (av_sub _ _ _ _ _ _ _ _ HA _ _ (ld_root _ _ _ _ _ _ H)) as Hr1.
  assert (H2 : loaded F (set_k_km k2 s) l1 O1 r top).
  { eapply loaded_advance; [exact H|exact HA'|]. eapply space_leaf; [|exact Hsp]. intros va. by apply HL. }
  pose proof (loaded_switch F (set_k_km k2 s) l1 O1 r top p s1 H2 Hp Ek Ho) as H3. cbv zeta in H3. cbn [k_procs set_k_km] in H3.
  rewrite Ep in H3. specialize (H3 ltac:(unfold footprint; cbn; by rewrite bool_decide_false by apply Hp) eq_refl).
  eapply wp_mono; [by apply (loaded_free F s1 l1 O1 (p_pagetable q) (p_size q))|]. intros [] s' (k' & l' & -> & Hok & S).
  rewrite Ek in S. exists k'. split; [done|].
  assert (Hl1 : forall p', live s p' -> live s1 p').
  { intros p' Hp'. unfold live. destruct (decide (p' = p)) as [->|]; [rewrite Ep|by rewrite Ho]. split; [apply Hp|]. cbn. apply Hp. }
  assert (Hk : forall p', live s p' -> untouched k2 (k_procs s1 p') k').
  { intros p' Hp'%Hl1. pose proof (procs_live _ _ _ _ _ Hok Hp') as [N1 N2 _ _]. by eapply shrunk_untouched. }
  pose proof (Hk p Hp) as [Up Us]. rewrite Ep in Up, Us. cbn [exec_proc p_pagetable p_kstack set_p_size set_p_pagetable set_p_name] in Up, Us.
  split_and!.
  - split.
    + exists l', (released (p_pagetable q) O1). split; [done|]. by eapply advanced_pages.
    + intros p' Hp' Hn. cbn [k_procs k_km set_k_km]. split; [by apply Ho|]. pose proof (Hk p' Hp') as Hku. rewrite Ho in Hku by done.
      eapply untouched_trans; [|exact Hku]. eapply (advanced_untouched F s l O r sz p _ H Hp); [|exact HA'|done|done].
      intros x [Hx|Hx]; [by apply local_stack|]. unfold tf_bytes, in_page, TF_SIZE, PG_SIZE in *. lia.
  - intros va. by rewrite Up, Hu.
  - intros off Ho0 Ho1. apply load64_ext. intros x Hx. rewrite Us; [done|]. unfold in_page, TF_SIZE, PG_SIZE in *. lia.
Qed.

Lemma exec_bounds : 0 <= sz /\ 0 <= base /\ top + PG_SIZE <= MAXVA /\ page_aligned base /\ PG_ROUND_UP base = base /\ PG_ROUND_UP top = top.
Proof using H.
  destruct H as [H1 H2 H3 _]. pose proof (space_bounded _ _ _ _ _ H1 H2 H3) as Hb. pose proof (sp_size _ _ _ H3) as Hs.
  pose proof (round_up_range sz Hs) as [Hr Ha]. destruct (space_round _ _ _ _ _ H1 H2 H3) as [_ E].
  split_and!; [lia|lia|unfold PHY_STOP, PHY_BASE, MAXVA, PG_SIZE in *; lia|done|done|].
  rewrite PG_ROUND_UP_div by (unfold PHY_STOP, PHY_BASE, MAXVA, PG_SIZE in *; lia). unfold page_aligned, PG_SIZE in *. zlia.
Qed.

(** Room for the stack: two pages, the lower one out of the user's reach. *)
Lemma exec_room_ok :
  wp (uvmalloc kend r base top USER_4K_PAGE_RW_XN) (k_km s) (fun res k => exists l1 O1, advanced r local_byte (k_km s) l O k l1 O1 /\
    ((res = 0 /\ Z.of_nat (length l) < 8 /\ space (km_mem k) r base) \/
     (res = top /\ wp (uvmclear r base) k (fun _ k1 => advanced r local_byte (k_km s) l O k1 l1 O1 /\
       space (km_mem k1) r top /\ forall va, 0 <= va -> ubyte (km_mem k1) r va = with_stack (km_mem (k_km s)) r base va)))).
Proof using All.
  destruct exec_bounds as (B0 & B1 & B2 & B3 & B4 & B5). destruct H as [H1 H2 H3 _]. destruct (space_round _ _ _ _ _ H1 H2 H3) as [Hsp _].
  assert (En : (PG_ROUND_UP top - PG_ROUND_UP base) / PG_SIZE = 2) by (rewrite B4, B5; unfold PG_SIZE; zlia).
  eapply wp_mono; [apply (uvmalloc_ok (k_km s) l O r base top USER_4K_PAGE_RW_XN); [done|done|done|unfold PG_SIZE in *; lia|unfold PG_SIZE in *; lia|]|].
  { intros a Ha. apply (sp_end _ _ _ Hsp). unfold PG_SIZE in *. lia. }
  intros res k (l1 & O1 & Hres). exists l1, O1. destruct Hres as [[-> HA]|(-> & Hlt & HS)].
  - pose proof (allocated_advanced r local_byte _ _ _ _ _ _ _ _ _ _ H1 HA) as HV. split; [done|]. right. split; [done|].
    destruct (grow_user (k_km s) l O r base top H1 H2 Hsp ltac:(unfold PG_SIZE in *; lia) k l1 O1 ltac:(unfold PG_SIZE in *; lia) HA) as [Hs Hre].
    unfold resized in Hre. rewrite B4, B5 in Hre. pose proof (av_inv _ _ _ _ _ _ _ _ HV) as HI1. pose proof (av_sub _ _ _ _ _ _ _ _ HV _ _ H2) as Hr1.
    eapply wp_mono; [apply (uvmclear_ok local_byte k l1 O1 r base HI1 Hr1); apply (sp_mapped _ _ _ Hs); unfold PG_SIZE; lia|].
    intros [] k1 (HC & HL & HM). destruct (guard_user k l1 O1 r base (km_mem (k_km s)) k1 HI1 Hr1 Hs B3 B1 Hre HL HM) as [Hs1 Hu1].
    split_and!; [by eapply advanced_trans|done|done].
  - split; [by apply settled_advanced|]. left. rewrite En in Hlt. split_and!; [done|lia|]. eapply space_leaf; [|exact Hsp].
    intros va. by apply (st_leaf _ _ _ _ _ _ HS).
Qed.

Lemma args_advanced k l1 O1 addrs args :
  advanced r local_byte (k_km s) l O k l1 O1 -> Forall2 (arg_ok (fun d => d ∈ F) (km_mem (k_km s))) addrs args ->
  Forall2 (arg_ok (fun d => O1 !! d = Some Other /\ d <> p_kstack q) (km_mem k)) addrs args.
Proof using All.
  intros HA HF. eapply Forall2_impl; [exact HF|]. intros a str [[Hs H0] (d & Hd & Hin)]. destruct (loaded_live _ _ _ _ _ _ p H Hp) as (L1 & _).
  destruct (pk_fixed _ _ _ _ (ld_procs _ _ _ _ _ _ H) d Hd) as [[Hd1 _]%released_Some Hd2]. pose proof (ld_vm _ _ _ _ _ _ H) as HI.
  assert (Hdc : d <> p_kstack q) by (intros E; by apply (Hd2 p Hp)).
  assert (Hsame : forall i, 0 <= i <= Z.of_nat (length str) -> ptr (km_mem k) a i = ptr (km_mem (k_km s)) a i).
  { intros i Hi. apply (av_mem _ _ _ _ _ _ _ _ HA d Other); [done|done|done|by apply Hin|]. intros Hw%local_stack. apply Hdc.
    eapply in_page_disjoint; [by apply (vi_page _ _ _ HI _ _ Hd1)|by apply (vi_page _ _ _ HI _ _ L1)|by apply Hin|done]. }
  split; [split|].
  - intros i b Hb. pose proof (lookup_lt_Some _ _ _ Hb). rewrite Hsame by lia. by apply Hs.
  - rewrite Hsame by lia. done.
  - exists d. split; [|done]. split; [|done]. by apply (av_sub _ _ _ _ _ _ _ _ HA).
Qed.

Lemma argv_bytes_length args : length (concat (le_split 8 <$> arg_ptrs top args (length args) ++ [0])) = (8 * (length args + 1))%nat.
Proof using Type.
  assert (E : forall l, length (concat (le_split 8 <$> l)) = (8 * length l)%nat).
  { induction l0 as [|a l0 IH]; [done|]. cbn [fmap list_fmap concat length]. rewrite length_app, length_le_split, IH. lia. }
  rewrite E, length_app. unfold arg_ptrs. rewrite length_fmap, length_seq. done.
Qed.

(** The pointer array below the strings. *)
Lemma exec_array_ok k1 l1 O1 k args :
  advanced r local_byte (k_km s) l O k1 l1 O1 -> space (km_mem k1) r top ->
  (forall va, 0 <= va -> ubyte (km_mem k1) r va = with_stack (km_mem (k_km s)) r base va) ->
  (length args < MAXARG)%nat -> base + PG_SIZE <= argv_at top args ->
  stacked k1 l1 O1 r top local_byte args (length args) k ->
  wp (copyout_local r (argv_at top args) (concat (le_split 8 <$> arg_ptrs top args (length args) ++ [0]))) (set_k_km k s)
    (fun ret s' => exists k', s' = set_k_km k' s /\ ret = 0 /\ advanced r local_byte (k_km s) l O k' l1 O1 /\ space (km_mem k') r top /\
      (forall va, 0 <= va < base -> ubyte (km_mem k') r va = ubyte (km_mem (k_km s)) r va) /\
      (forall va, base <= va < base + PG_SIZE -> ubyte (km_mem k') r va = None) /\
      (forall j a, args !! j = Some a -> user_bytes (ubyte (km_mem k') r) (arg_ptr top args j) (a ++ [0])) /\
      user_bytes (ubyte (km_mem k') r) (argv_at top args) (concat (le_split 8 <$> arg_ptrs top args (length args) ++ [0]))).
Proof using All.
  intros HA1 Hsp Hu1 Hlen Hfit [A1 A2 A3 A4 A5]. rewrite take_ge in A3, A4 by lia.
  destruct exec_bounds as (B0 & B1 & B2 & B3 & B4 & B5). destruct (loaded_live _ _ _ _ _ _ p H Hp) as (L1 & _).
  pose proof (stack_top_le top args) as Ht. pose proof (align16_range (stack_top top args - 8 * (Z.of_nat (length args) + 1))) as Hav.
  fold (argv_at top args) in Hav. set (bs := concat _). assert (Lb : Z.of_nat (length bs) = 8 * (Z.of_nat (length args) + 1)) by (unfold bs; rewrite argv_bytes_length; lia).
  assert (Hmap : forall i, 0 <= i < Z.of_nat (length bs) -> is_Some (ubyte (km_mem k) r (argv_at top args + i))).
  { intros i Hi. apply (ubyte_mapped (km_mem k1)); [done|]. rewrite Hu1 by (unfold PG_SIZE in *; lia). unfold with_stack, PG_SIZE in *.
    repeat case_match; try lia; done || eauto. }
  eapply wp_mono; [apply (copyout_local_mapped s k l1 O1 r (p_kstack q)); [apply A1| | | | | | |exact Hmap]|].
  - by apply (av_sub _ _ _ _ _ _ _ _ HA1), (ld_root _ _ _ _ _ _ H).
  - by apply (av_sub _ _ _ _ _ _ _ _ HA1).
  - apply local_stack.
  - unfold PG_SIZE, MAXVA in *. lia.
  - rewrite Lb. unfold MAXARG, KLOCAL_SIZE in *. lia.
  - apply Forall_concat, Forall_fmap, Forall_true. intros x. apply le_split_bytes.
  - intros ret s' (k' & -> & -> & HA' & HL' & Hu'). exists k'. split_and!; [done|done| | | | | |].
    + eapply advanced_trans; [exact HA1|]. by eapply advanced_trans.
    + eapply space_leaf; [|exact Hsp]. intros a. by rewrite HL', A2.
    + intros va Hva. rewrite Hu', user_write_out, A4, Hu1 by (unfold PG_SIZE in *; lia). unfold with_stack. by destruct (Z.ltb_spec va base); [|lia].
    + intros va Hva. rewrite Hu', user_write_out, A4, Hu1 by (unfold PG_SIZE in *; lia). unfold with_stack.
      destruct (Z.ltb_spec va base); [lia|]. by destruct (Z.ltb_spec va (base + PG_SIZE)); [|lia].
    + intros j a Ha n b Hb. rewrite Hu'. pose proof (lookup_lt_Some _ _ _ Ha). rewrite user_write_out; [by apply (A5 j a)|]. right.
      pose proof (stack_top_take top args (S j) (length args) ltac:(lia)) as Hj. rewrite (take_ge args (length args)) in Hj by lia. unfold arg_ptr. lia.
    + intros n b Hb. rewrite Hu'. by apply (user_write_in _ _ _ Hmap).
Qed.

Lemma tf_set_ok st off v tf Q :
  p_trapframe (k_procs st p) = tf -> Q tt (set_k_km (set_mem (fun m => store64 m (tf + off) v) (k_km st)) st) -> wp (tf_set p off v) st Q.
Proof using Type. intros <- HQ. unfold tf_set, the_proc. by apply wp_bind, wp_gets, wp_vm, wp_modify. Qed.

(** What is left to do once the stack is filled. *)
Lemma exec_finish_ok k l1 O1 args entry path :
  advanced r local_byte (k_km s) l O k l1 O1 -> space (km_mem k) r top -> 0 <= entry < 2 ^ 64 -> base + PG_SIZE <= argv_at top args ->
  (forall va, 0 <= va < base -> ubyte (km_mem k) r va = ubyte (km_mem (k_km s)) r va) ->
  (forall va, base <= va < base + PG_SIZE -> ubyte (km_mem k) r va = None) ->
  (forall j a, args !! j = Some a -> user_bytes (ubyte (km_mem k) r) (arg_ptr top args j) (a ++ [0])) ->
  user_bytes (ubyte (km_mem k) r) (argv_at top args) (concat (le_split 8 <$> arg_ptrs top args (length args) ++ [0])) ->
  let sp := argv_at top args in
  wp (tf_set p (TF_X 1) sp;;
      modify (set_proc p (fun q => set_p_name (copy_name (p_name q) (last_elem path path)) q));;
      modify (set_proc p (set_p_pagetable r));;
      modify (set_proc p (set_p_size top));;
      tf_set p TF_PC entry;;
      tf_set p TF_SP sp;;
      uvmswitch p;;
      vm (uvmfree kend PT_LEVELS (p_pagetable q) (p_size q));;
      mret (Z.of_nat (length args))) (set_k_km k s)
    (fun res s' => res = Z.of_nat (length args) /\ others_kept F s l O p s' /\ exec_done s p r base entry path args s').
Proof using All.
  intros HA Hsp He Hfit U1 U2 U3 U4 sp. destruct exec_bounds as (B0 & B1 & B2 & _).
  assert (Hsr : 0 <= sp < 2 ^ 64).
  { pose proof (argv_at_le top args 0) as Hle. change (stack_top top (take 0 args)) with top in Hle. fold sp in Hle, Hfit. unfold PG_SIZE, MAXVA in *. lia. }
  apply wp_bind, (tf_set_ok _ _ _ (p_trapframe q)); [done|]. do 3 (apply wp_bind, wp_modify).
  do 2 (apply wp_bind, (tf_set_ok _ _ _ (p_trapframe q)); [cbn [k_procs set_proc set_k_procs set_k_km]; by rewrite !upd_eq|]).
  match goal with |- wp _ ?st _ => set (s0 := st) end.
  assert (E1 : k_km s0 = set_mem (fun m => tf_mem m sp entry sp) k) by done.
  assert (E2 : k_procs s0 p = exec_proc path) by (unfold s0; cbn [k_procs set_proc set_k_km set_k_procs]; by rewrite !upd_eq).
  assert (E3 : forall p', p' <> p -> k_procs s0 p' = k_procs s p')
    by (intros p' Hn; unfold s0; cbn [k_procs set_proc set_k_km set_k_procs]; by rewrite !upd_ne).
  clearbody s0. unfold uvmswitch, the_proc. apply wp_bind, wp_bind, wp_gets. rewrite E2. change (p_pagetable (exec_proc path)) with r.
  pose proof (kpage_ne_0 _ (vi_page _ _ _ (ld_vm _ _ _ _ _ _ H) _ _ (ld_root _ _ _ _ _ _ H))) as Hne. rewrite (proj2 (Z.eqb_neq _ _) Hne).
  apply wp_modify, wp_bind. set (s1 := set_k_ttbr0 _ s0).
  change (k_km s0) with (k_km s1) in E1. change (k_procs s0) with (k_procs s1) in E2, E3.
  assert (E4 : k_ttbr0 s1 = V2P r) by done. clearbody s1.
  eapply wp_mono; [by apply (exec_switch_ok k l1 O1 s1 path sp entry sp)|]. intros [] s' (k' & -> & HO & Hu & Hw). apply wp_ret.
  split_and!; [done|done|]. destruct (tf_mem_words (km_mem k) sp entry sp) as (W1 & W2 & W3). rewrite !u64_small in W1, W2, W3 by done.
  split; change (k_km (set_k_km k' s1)) with k'; [exact E2|exact E4|exact Hfit| |..].
  - cbv zeta. cbn [k_km set_k_km]. rewrite !Hw by (unfold TF_X, TF_SP, TF_PC, TF_SIZE; lia). rewrite W1, W2, W3. by split_and!.
  - intros va Hva. rewrite Hu. by apply U1.
  - intros va Hva. rewrite Hu. by apply U2.
  - intros j a Ha n b Hb. rewrite Hu. by apply (U3 j a).
  - intros n b Hb. rewrite Hu. by apply U4.
Qed.

(** C12: the second half of [exec], with the program loaded into the space [r].
    If there is memory for two pages and the arguments fit in one, it returns
    their number; the caller then has the new image, the page table in use is
    the new one, execution goes on at the program's entry with the stack
    pointer and the second argument register at the array of pointers to the
    NUL-terminated argument strings, the page below the stack faults, the
    loaded program is as it was, and the pages of the old image are free.
    Otherwise it returns -1, the caller sees what it saw and its trap frame is
    unchanged, and the pages of the new image are free.  No page is lost, and
    no other process is touched. *)
Theorem exec_commit_switches entry path addrs args :
  k_cur s = Some p -> 0 <= entry < 2 ^ 64 -> (length args < MAXARG)%nat ->
  Forall2 (arg_ok (fun d => d ∈ F) (km_mem (k_km s))) addrs args ->
  wp (exec_commit r sz entry path addrs) s (fun res s' => others_kept F s l O p s' /\
    ((res = -1 /\ (Z.of_nat (length l) < 8 \/ argv_at top args < base + PG_SIZE) /\ exec_failed s p s') \/
     (res = Z.of_nat (length args) /\ exec_done s p r base entry path args s'))).
Proof using All.
  intros Hcur He Hlen Hargs. destruct exec_bounds as (B0 & B1 & B2 & B3 & B4 & B5). destruct (loaded_live _ _ _ _ _ _ p H Hp) as (L1 & _).
  unfold exec_commit, myproc, the_proc. apply wp_bind, wp_bind, wp_gets. rewrite Hcur. apply wp_ret, wp_bind, wp_gets. cbv zeta.
  rewrite (u64_small top) by (unfold PG_SIZE, MAXVA in *; lia). apply wp_bind, wp_vm. eapply wp_mono; [apply exec_room_ok|].
  intros res k (l1 & O1 & HA & [(-> & Hm & Hsp)|(-> & Hclear)]).
  { change (0 =? 0) with true. cbn match. eapply wp_mono; [by apply (exec_bad_ok k l1 O1)|]. intros res s' (-> & HO & HF). naive_solver. }
  rewrite (proj2 (Z.eqb_neq top 0)) by (unfold PG_SIZE in *; lia). apply wp_bind, wp_vm. cbn [k_km set_k_km].
  replace (top - 2 * PG_SIZE) with base by lia. rewrite (u64_small base) by (unfold PG_SIZE, MAXVA in *; lia).
  eapply wp_mono; [exact Hclear|]. intros [] k1 (HA1 & Hsp1 & Hu1). change (set_k_km k1 (set_k_km k s)) with (set_k_km k1 s).
  rewrite (u64_small (top - PG_SIZE)) by (unfold PG_SIZE, MAXVA in *; lia).
  apply wp_bind. eapply wp_mono.
  { apply (push_args_ok k1 l1 O1 r top (p_kstack q) local_byte addrs args) with (n := length args) (i := 0%nat).
    - apply HA1.
    - by apply (av_sub _ _ _ _ _ _ _ _ HA1), (ld_root _ _ _ _ _ _ H).
    - by apply (av_sub _ _ _ _ _ _ _ _ HA1).
    - apply local_stack.
    - unfold PG_SIZE in *. lia.
    - intros va Hva. rewrite Hu1 by (unfold PG_SIZE in *; lia). unfold with_stack, PG_SIZE in *. repeat case_match; try lia; done || eauto.
    - by apply (args_advanced k1 l1 O1).
    - done.
    - done.
    - lia.
    - split; [by apply advanced_refl, HA1|done| |done|lia]. change (stack_top top (take 0 args)) with top. unfold PG_SIZE. lia. }
  intros [[[argc sp] us]|] s' (k2 & -> & Hres).
  2:{ destruct Hres as (Hlt & HA2 & HL2). eapply wp_mono; [apply (exec_bad_ok k2 l1 O1); [by eapply advanced_trans|]|].
      - eapply space_leaf; [|exact Hsp1]. done.
      - intros res s' (-> & HO & HF). split; [done|]. left. split_and!; [done| |done]. right. lia. }
  destruct Hres as (-> & -> & -> & HS). rewrite decide_False by lia.
  assert (Esp : u64 (u64 (stack_top top args - (Z.of_nat (length args) + 1) * 8) - u64 (stack_top top args - (Z.of_nat (length args) + 1) * 8) mod 16) = argv_at top args).
  { pose proof (sk_low _ _ _ _ _ _ _ _ _ HS) as Hl. rewrite take_ge in Hl by lia. pose proof (stack_top_le top args).
    unfold argv_at, align16, MAXARG, PG_SIZE, MAXVA in *. rewrite (u64_small (_ - (_ + 1) * 8)) by lia. rewrite u64_small by zlia. f_equal; [lia|f_equal; lia]. }
  rewrite Esp. destruct (Z.ltb_spec (argv_at top args) (top - PG_SIZE)) as [Hlt|Hge].
  { eapply wp_mono; [apply (exec_bad_ok k2 l1 O1); [eapply advanced_trans; [exact HA1|apply HS]|]|].
    - eapply space_leaf; [|exact Hsp1]. apply HS.
    - intros res s' (-> & HO & HF). split; [done|]. left. split_and!; [done| |done]. right. lia. }
  apply wp_bind. eapply wp_mono; [apply (exec_array_ok k1 l1 O1 k2 args); try done; lia|].
  intros ret s' (k3 & -> & -> & HA3 & Hsp3 & U1 & U2 & U3 & U4). change (0 <? 0) with false. cbn match.
  eapply wp_mono; [apply (exec_finish_ok k3 l1 O1 args entry path); try done; lia|]. intros res s' (-> & HO & HD). split; [done|by right].
Qed.
End commit.

(** A process that has loaded an empty program into a second space, with the
    argument [sh] in a kernel page, and eight free pages. *)
#[local] Existing Instance kernel_ex.
#[local] Existing Instance proc_platform.

Definition give (d : Z) (s : kmem) : kmem := match kfree kend d s with Ok _ s' => s' | _ => s end.

Definition arg_mem_ex : kmem := set_mem (fun m => store_bytes m (page_ex 15) [115; 104]) mapped_ex.
Definition exec_mem_ex (n : nat) : kmem := foldr (fun i => give (page_ex i)) arg_mem_ex (range 16 n).
Definition exec_ex : kernel :=
  set_k_km (exec_mem_ex 8) (set_k_procs (fun p => match p with O => parent_ex | _ => proc_zero end) kernel0).

Lemma procs_roles_top c ρ : procs_roles !! c = Some ρ -> c <= page_ex 15.
Proof.
  unfold procs_roles. intros [[<- _]|[_ [[<- _]|[_ [Hc _]%fork_roles_cases]]%lookup_insert_Some]]%lookup_insert_Some;
    unfold page_ex, PG_SIZE in *; lia.
Qed.

Lemma arg_mem_inv : vm_inv arg_mem_ex [] procs_roles.
Proof.
  destruct (write_advanced child_ex (page_ex 15) (in_page (page_ex 15)) mapped_ex [] procs_roles arg_mem_ex procs_vm) as [HA _];
    [by vm_compute|apply store_bytes_ok, (vi_bytes _ _ _ procs_vm)|done|done| |apply HA].
  intros x _ Hx. apply store_bytes_out. unfold in_page, PG_SIZE in Hx. cbn. lia.
Qed.

Lemma give_inv s l i :
  vm_inv s l procs_roles -> 16 <= i < 1024 -> page_ex i ∉ l ->
  vm_inv (give (page_ex i) s) (page_ex i :: l) procs_roles /\
  forall x, x < page_ex 16 -> km_mem (give (page_ex i) s) x = km_mem s x.
Proof.
  intros HI Hi Hl. assert (HN : procs_roles !! page_ex i = None).
  { destruct (procs_roles !! page_ex i) as [ρ|] eqn:E; [|done]. apply procs_roles_top in E. unfold page_ex, PG_SIZE in *. lia. }
  pose proof (vm_other s l procs_roles (page_ex i) HI (page_ex_kpage i ltac:(lia)) HN Hl) as HO.
  destruct (kfree_other s l _ (page_ex i) HO (lookup_insert_eq _ _ _)) as (s' & E & Hk & Hm). unfold give. rewrite E. split.
  - rewrite <- (delete_insert_id procs_roles (page_ex i) Other) by done. by eapply vm_give; [exact HO|apply lookup_insert_eq|..].
  - intros x Hx. apply Hm. unfold in_page, page_ex, PG_SIZE in *. lia.
Qed.

Lemma exec_mem_inv n i :
  16 <= i -> i + Z.of_nat n <= 1024 -> let s := foldr (fun i => give (page_ex i)) arg_mem_ex (range i n) in
  vm_inv s (page_ex <$> range i n) procs_roles /\ forall x, x < page_ex 16 -> km_mem s x = km_mem arg_mem_ex x.
Proof.
  revert i. induction n as [|n IH]; intros i Hi Hn; [split; [apply arg_mem_inv|done]|]. cbv zeta. cbn [range foldr fmap list_fmap].
  destruct (IH (i + 1) ltac:(lia) ltac:(lia)) as [H1 H2]. destruct (give_inv _ _ i H1 ltac:(lia)) as [H3 H4].
  { intros (j & E%page_ex_inj & Hj%elem_of_range)%list_elem_of_fmap. lia. }
  split; [done|]. intros x Hx. rewrite H4 by done. by apply H2.
Qed.

Lemma exec_ex_mem x : x < page_ex 15 -> km_mem (k_km exec_ex) x = km_mem mapped_ex x.
Proof.
  intros Hx. destruct (exec_mem_inv 8 16 ltac:(lia) ltac:(lia)) as [_ Hm].
  change (km_mem (exec_mem_ex 8) x = km_mem mapped_ex x). unfold exec_mem_ex. rewrite Hm by (unfold page_ex, PG_SIZE in *; lia).
  apply store_bytes_out. lia.
Qed.

Lemma exec_ex_leaf r va : procs_roles !! r = Some (Tab r 0 0) -> leaf (km_mem (k_km exec_ex)) r va = leaf (km_mem mapped_ex) r va.
Proof.
  intros Hr. destruct (exec_mem_inv 8 16 ltac:(lia) ltac:(lia)) as [HI _].
  apply (leaf_frame mapped_ex [] procs_roles (k_km exec_ex) (page_ex <$> range 16 8) procs_roles); [apply procs_vm|exact HI|done|done|].
  intros c r' k b x Hc Hx. apply exec_ex_mem. unfold procs_roles in Hc.
  apply lookup_insert_Some in Hc as [[_ ?]|[_ Hc]]; [done|]. apply lookup_insert_Some in Hc as [[_ ?]|[_ Hc]]; [done|].
  apply fork_roles_cases in Hc as [Hc _]. unfold in_page, page_ex, PG_SIZE in *. lia.
Qed.

Lemma live_exec_ex p : live exec_ex p <-> p = 0%nat.
Proof. unfold live. destruct p as [|p]; cbn; [split; [done|split; [unfold NPROC; lia|done]]|]. split; [by intros [_ ?]|done]. Qed.

Lemma exec_ex_loaded : loaded {[page_ex 15]} exec_ex (page_ex <$> range 16 8) procs_roles child_ex 0.
Proof.
  destruct (exec_mem_inv 8 16 ltac:(lia) ltac:(lia)) as [HI _]. split; [exact HI|by vm_compute| |].
  { eapply space_leaf; [|apply child_space]. intros va. apply exec_ex_leaf. by vm_compute. }
  split.
  - apply vm_inv_released. exact HI.
  - intros [|p] Hp; unfold proc_ok; [rewrite bool_decide_false by done|rewrite bool_decide_true by done; done].
    split; [by apply released_Some; split; [vm_compute|intros []]|by apply released_Some; split; [vm_compute|done]| |done].
    eapply space_leaf; [|apply mapped_space]. intros va. apply exec_ex_leaf. by vm_compute.
  - intros p p' ->%live_exec_ex ->%live_exec_ex. done.
  - intros c ->%elem_of_singleton. split; [by apply released_Some; split; [vm_compute|intros []]|]. by intros p ->%live_exec_ex.
  - intros c ρ [Hc Hn]%released_Some. unfold procs_roles in Hc.
    apply lookup_insert_Some in Hc as [[<- <-]|[_ Hc]]; [left; by apply elem_of_singleton|].
    apply lookup_insert_Some in Hc as [[<- <-]|[_ Hc]]; [right; exists 0%nat; split; [by apply live_exec_ex|done]|].
    destruct (fork_roles_cases c ρ Hc) as [_ [->|[->|[k ->]]]]; [done|..]; exists 0%nat; (split; [by apply live_exec_ex|done]).
Qed.

Lemma exec_ex_args : Forall2 (arg_ok (fun d => d ∈ ({[page_ex 15]} : gset Z)) (km_mem (k_km exec_ex))) [page_ex 15] [[115; 104]].
Proof.
  destruct (exec_mem_inv 8 16 ltac:(lia) ltac:(lia)) as [_ Hm]. constructor; [|constructor].
  assert (E : forall i, 0 <= i <= 2 -> ptr (km_mem (k_km exec_ex)) (page_ex 15) i = ptr (km_mem arg_mem_ex) (page_ex 15) i).
  { intros i Hi. apply Hm. unfold page_ex, PG_SIZE. lia. }
  split; [split|].
  - intros [|[|i]] b; [intros [= <-]; rewrite E by lia; by vm_compute..|done].
  - rewrite E by (cbn; lia). by vm_compute.
  - exists (page_ex 15). split; [by apply elem_of_singleton|]. intros i Hi. cbn in Hi. unfold in_page, PG_SIZE. lia.
Qed.

(** The arguments fit and there is memory, so the example runs its new
    image. *)
Lemma exec_commit_switches_witness :
  wp (exec_commit child_ex 0 64 [115; 104] [page_ex 15]) exec_ex
    (fun res s' => res = 1 /\ exec_done exec_ex 0 child_ex 0 64 [115; 104] [[115; 104]] s').
Proof.
  eapply wp_mono; [apply (exec_commit_switches {[page_ex 15]} exec_ex (page_ex <$> range 16 8) procs_roles child_ex 0 0 exec_ex_loaded) with (args := [[115; 104]]);
    [by apply live_exec_ex| |by vm_compute|done|lia|unfold MAXARG; cbn; lia|apply exec_ex_args]|].
  - intros i Hi. change (in_page (page_ex 14) (page_ex 14 + i)). unfold in_page, KLOCAL_SIZE, PG_SIZE in *. lia.
  - intros res s' [_ [(_ & [Hl|Hf] & _)|Hd]]; [done|by vm_compute in Hf|exact Hd].
Defined.
