(* ===== verification/Syscall.v ===== *)
(** System call dispatch, [kernel/syscall.c], and the process system calls,
    [kernel/sysproc.c]. *)

From S2P Require Import Prelude CString Layout Kalloc Vm Sleeplock Bio Log Kernel Sched Uart Printf Console Fs Pipe File Args Sysfile Process Exec.

Section syscall.
Context `{KE : KernelEnd, PL : Platform}.

(** * kernel/sysproc.c *)

Definition sys_exit : M kernel Z :=
  n ← argint 1;
  exit n.

Definition sys_fork : M kernel Z := r ← fork; mret (u64 r).

Definition sys_wait : M kernel Z :=
  p ← argaddr 1;
  r ← wait p;
  mret (u64 r).

Definition sys_yield : M kernel Z := yield;; mret 0.

Definition sys_sbrk : M kernel Z :=
  n ← argint 1;
  p ← myproc;
  q ← the_proc p;
  r ← growproc n;
  if r <? 0 then mret (u64 (-1)) else mret (p_size q).

(** The loop of [sys_sleep]: tested again each time the process wakes. *)
Definition sleep_ticks (ticks0 n : Z) : M kernel Z :=
  t ← gets k_ticks;
  if u32 (t - ticks0) <? u32 n then
    p ← myproc;
    k ← killed p;
    if ctrue k then mret (u64 (-1)) else sleep ChanTicks
  else mret 0.

Definition sys_sleep : M kernel Z :=
  n ← argint 1;
  ticks0 ← gets k_ticks;
  sleep_ticks ticks0 n.

Definition sys_getpid : M kernel Z :=
  p ← myproc;
  q ← the_proc p;
  mret (u64 (p_pid q)).

Definition sys_procdump : M kernel Z := procdump;; mret 0.

Definition sys_kill : M kernel Z :=
  pid ← argint 1;
  r ← kill pid;
  mret (u64 r).

Definition sys_uptime : M kernel Z := gets k_ticks.

(** * kernel/syscall.c *)

(** The results of the file system calls as [uint64]. *)
Definition ret64 (m : M kernel Z) : M kernel Z := r ← m; mret (u64 r).

Definition syscalls : list (M kernel Z) :=
  [ sys_exit; ret64 sys_exec; ret64 sys_write; ret64 sys_open; ret64 sys_mknod; ret64 sys_dup;
    sys_fork; sys_wait; sys_yield; ret64 sys_read; ret64 sys_chdir; ret64 sys_close; sys_sbrk;
    ret64 sys_fstat; ret64 sys_mkdir; ret64 sys_unlink; sys_sleep; ret64 sys_pipe; sys_getpid;
    sys_procdump; sys_kill; ret64 sys_link; sys_uptime ].

Definition NSYSCALLS : Z := Z.of_nat (length syscalls).

Definition syscall : M kernel unit :=
  p ← myproc;
  num ← tf_get p (TF_X 0);
  if (0 <=? num) && (num <=? NSYSCALLS) then
    match syscalls !! Z.to_nat num with
    | None => undefined "syscalls"
    | Some f =>
        ret ← f;
        tf_set p (TF_X 0) ret
    end
  else
    q ← the_proc p;
    printf (chars "%d %s: syscall %d not implemented!" ++ nl)
      [AWord (p_pid q); AStr (Some (c_string (p_name q))); AWord num];;
    tf_set p (TF_X 0) (u64 (-1)).
End syscall.
