(* ===== verification/Trap.v ===== *)
(** Interrupts and traps: the interrupt controller [kernel/gic.c], the timer
    [kernel/timer.c] and the trap handlers [kernel/trap.c].

    Device registers are read and written through the trace of the kernel
    state; the timer's system registers are given addresses below 0 there.  The
    handler of the disk's interrupt is an argument of the dispatch. *)

From S2P Require Import Prelude CString Layout Kalloc Vm VmExample Sleeplock Bio Log Kernel Sched Uart KernelExample Printf Console Fs Pipe File Args Sysfile Process Exec Syscall.

Definition GIC_BASE : Z := 0x08000000.
Definition GICC_CTLR : Z := 0x000.
Definition GICC_PMR : Z := 0x004.
Definition GICC_IAR : Z := 0x00c.
Definition GICC_EOIR : Z := 0x010.
Definition GICD_CTLR : Z := 0x000.
Definition GICD_ISENABLER : Z := 0x100.
Definition GICD_ITARGETSR : Z := 0x800.
Definition GICD_ICFGR : Z := 0xc00.
Definition IRQ_MAX_COUNT : Z := 64.

Definition IRQ_TIMER0 : Z := 14.
Definition IRQ_UART : Z := 1.
Definition IRQ_MMIO : Z := 16.
Definition PPI2ID (x : Z) : Z := x + 16.
Definition SPI2ID (x : Z) : Z := x + 32.

Definition GICC_REG (x : Z) : Z := P2V GIC_BASE + 0x10000 + x.
Definition GICD_REG (x o : Z) : Z := P2V GIC_BASE + x + 4 * o.

(** The timer's registers. *)
Definition CNTP_CTL : Z := -1.
Definition CNTFRQ : Z := -2.
Definition CNTPCT : Z := -3.
Definition CNTP_CVAL : Z := -4.
Definition TICK_PER_SEC : Z := 50.

Section trap.
Context `{KE : KernelEnd, PL : Platform}.
Variable virtio_disk_intr : M kernel unit.

(** * kernel/gic.c *)

Definition intrinit : M kernel unit := modify (set_k_intrs (replicate (Z.to_nat IRQ_MAX_COUNT) Defintr)).

Definition cfgset (id : Z) (isedge : bool) : M kernel unit :=
  let offset := id / 16 in
  let bitpos := id mod 16 * 2 in
  v ← rd (GICD_REG GICD_ICFGR offset);
  let val := Z.land (u32 v) (u32 (Z.lnot (u32 (Z.shiftl 3 bitpos)))) in
  let val := if isedge then Z.lor val (u32 (Z.shiftl 2 bitpos)) else val in
  wr (GICD_REG GICD_ICFGR offset) val.

Definition enbset (id : Z) : M kernel unit :=
  let offset := id / 32 in
  let bitpos := id mod 32 in
  v ← rd (GICD_REG GICD_ISENABLER offset);
  wr (GICD_REG GICD_ISENABLER offset) (Z.lor (u32 v) (u32 (Z.shiftl 1 bitpos))).

Definition cpuset (id cpu : Z) : M kernel unit :=
  let offset := id / 4 in
  let bitpos := id mod 4 * 8 in
  v ← rd (GICD_REG GICD_ITARGETSR offset);
  wr (GICD_REG GICD_ITARGETSR offset) (Z.lor (u32 v) (u32 (Z.shiftl cpu bitpos))).

Definition spiset (spi : Z) (isedge : bool) (cpu : Z) : M kernel unit :=
  let id := SPI2ID spi in
  cfgset id isedge;; enbset id;; cpuset id cpu.

Definition ppiset (ppi : Z) (isedge : bool) (cpu : Z) : M kernel unit :=
  let id := PPI2ID ppi in
  cfgset id isedge;; enbset id;; cpuset id cpu.

Definition group0enb : M kernel unit :=
  d ← rd (GICD_REG GICD_CTLR 0);
  wr (GICD_REG GICD_CTLR 0) (Z.lor d 1);;
  c ← rd (GICC_REG GICC_CTLR);
  wr (GICC_REG GICC_CTLR) (Z.lor c 1).

Definition cpuinit : M kernel unit := wr (GICC_REG GICC_PMR) 0x0f.

Definition gicinit : M kernel unit := intrinit.

Definition gichartinit : M kernel unit :=
  cpuinit;;
  ppiset IRQ_TIMER0 false (Z.shiftl 1 cpuid);;
  spiset IRQ_UART false (Z.shiftl 1 cpuid);;
  spiset IRQ_MMIO true (Z.shiftl 1 cpuid);;
  group0enb.

(** The default handler. *)
Definition defintr_irq : M kernel unit := printf (chars "unhandled interrupt!" ++ nl) [].

(** * kernel/timer.c *)

Definition timerset : M kernel unit :=
  wr CNTP_CTL 0;;
  freq ← rd CNTFRQ;
  cnt ← rd CNTPCT;
  wr CNTP_CVAL (u64 (cnt + u64 (freq / 1000 * TICK_PER_SEC)));;
  wr CNTP_CTL 1.

Definition timerinit : M kernel unit :=
  intrset (PPI2ID IRQ_TIMER0) Timerintr;;
  modify (set_k_ticks 0).

Definition timerintr : M kernel unit :=
  timerset;;
  when (cpuid =? 0) (
    t ← gets k_ticks;
    modify (set_k_ticks (u32 (t + 1)));;
    wakeup ChanTicks).

(** * Dispatch *)

Definition run_handler (h : handler) : M kernel unit :=
  match h with
  | Defintr => defintr_irq
  | Timerintr => timerintr
  | Uartintr => uartintr
  | Virtio_disk_intr => virtio_disk_intr
  end.

(** [intrs[id](f, id, el)] reads behind the array for an [id] of 64 or more. *)
Definition irqhandle : M kernel bool :=
  v ← rd (GICC_REG GICC_IAR);
  let id := s32 (u32 v) in
  hs ← gets k_intrs;
  match (if id <? 0 then None else hs !! Z.to_nat id) with
  | None => undefined "intrs"
  | Some h => run_handler h
  end;;
  wr (GICC_REG GICC_EOIR) (u64 id);;
  mret (id =? PPI2ID IRQ_TIMER0).

(** * kernel/trap.c: [f] is the trap frame, [el] the level the trap came from *)

Definition svcintr (f el : Z) : M kernel unit :=
  c ← gets k_cur;
  match c with
  | Some p => when (el =? 0) (modify (set_proc p (set_p_trapframe f)))
  | None => mret tt
  end;;
  syscall;;
  match c with
  | Some p =>
      if el =? 0 then
        k ← killed p;
        if ctrue k then exit (-1) else mret tt
      else mret tt
  | None => mret tt
  end.

Definition defintr (el : Z) : M kernel unit :=
  c ← gets k_cur;
  match c with
  | Some p => if el =? 0 then exit (-1) else mret tt
  | None => mret tt
  end.

Definition irqintr (f el : Z) : M kernel unit :=
  c ← gets k_cur;
  match c with
  | Some p => when (el =? 0) (modify (set_proc p (set_p_trapframe f)))
  | None => mret tt
  end;;
  is_timer ← irqhandle;
  match c with
  | Some p =>
      k ← killed p;
      if ctrue k then exit (-1)
      else when is_timer yield
  | None => mret tt
  end.

Definition errintr : M kernel unit := mret tt.
End trap.

(** * Timer interrupts *)

(** [o] is a return to the caller. *)
Definition returns {S A} (o : outcome S A) : bool := match o with Ok _ _ => true | _ => false end.

Lemma bind_returns {S A B} (m : M S A) (g : A -> M S B) s :
  (forall a s', returns (g a s') = false) -> returns ((m ≫= g) s) = false.
Proof. intros H. unfold mbind, M_bind. destruct (m s); simpl; auto. Qed.

Section timer.
Context `{KE : KernelEnd, PL : Platform}.
Variable virtio_disk_intr : M kernel unit.

(** [exit] does not return. *)
Lemma exit_no_return {A} status s : returns (exit (A := A) status s) = false.
Proof.
  unfold exit. apply bind_returns. intros p s1. apply bind_returns. intros init s2.
  case_bool_decide; [done|]. repeat (apply bind_returns; intros ? ?). done.
Qed.

(** The state a timer interrupt leaves, device accesses aside: CPU 0 keeps the
    time for all. *)
Definition ticked (s s' : kernel) : Prop :=
  k_ticks s' = (if cpuid =? 0 then u32 (k_ticks s + 1) else k_ticks s) /\
  k_cur s' = k_cur s /\ k_intrs s' = k_intrs s /\
  forall q, (q < NPROC)%nat ->
    k_procs s' q = if cpuid =? 0 then woken (k_cur s) ChanTicks q (k_procs s q) else k_procs s q.

Lemma timerintr_ticks s : wp timerintr s (fun _ s' => ticked s s').
Proof.
  unfold timerintr, timerset, rd, wr, when, ticked. wp_steps. destruct (cpuid =? 0); simpl; wp_steps; [|done].
  eapply wp_mono; [apply wakeup_ok|]. intros [] s' (pr & -> & Hpr). simpl in *.
  split_and!; try done. intros q Hq. by rewrite Hpr, decide_True.
Qed.

Lemma irqhandle_timer s :
  k_intrs s !! Z.to_nat (PPI2ID IRQ_TIMER0) = Some Timerintr ->
  io_read (k_io s) (GICC_REG GICC_IAR) = PPI2ID IRQ_TIMER0 ->
  wp (irqhandle virtio_disk_intr) s (fun r s' => r = true /\ ticked s s' /\
    head (k_io s') = Some (Wr (GICC_REG GICC_EOIR) (PPI2ID IRQ_TIMER0))).
Proof.
  intros Hh Hr. unfold irqhandle, rd, wr. wp_steps. rewrite Hr.
  change (s32 (u32 (PPI2ID IRQ_TIMER0))) with (PPI2ID IRQ_TIMER0).
  change (PPI2ID IRQ_TIMER0 <? 0) with false. cbn iota.
  replace (k_intrs _ !! _) with (Some Timerintr) by (symmetry; exact Hh). eapply wp_mono; [by apply timerintr_ticks|].
  intros [] s' Ht. wp_steps. split; [done|]. split; [exact Ht|done].
Qed.

#[local] Opaque irqhandle.

Lemma woken_fields cur ch p q :
  p_killed (woken cur ch p q) = p_killed q /\ p_trapframe (woken cur ch p q) = p_trapframe q.
Proof. unfold woken. by case_bool_decide. Qed.

Lemma ticked_fields s s' p :
  ticked s s' -> (p < NPROC)%nat ->
  p_killed (k_procs s' p) = p_killed (k_procs s p) /\ p_trapframe (k_procs s' p) = p_trapframe (k_procs s p).
Proof. intros (_ & _ & _ & Hq) Hp. rewrite Hq by done. destruct (cpuid =? 0); [apply woken_fields|done]. Qed.

(** C34: a timer interrupt in user mode on any CPU, for a running process that
    has not been killed.  The interrupted process has its trap frame saved and
    gives up the CPU, and the controller is told that interrupt 30 is done.  On
    CPU 0 the tick count advances by one (wrapping at 32 bits) and exactly the
    processes asleep on the tick count become runnable; on another CPU the tick
    count stays and no other process changes. *)
Theorem irqintr_timer f s p :
  k_cur s = Some p -> (p < NPROC)%nat ->
  p_state (k_procs s p) = RUNNING -> p_killed (k_procs s p) = 0 ->
  k_intrs s !! Z.to_nat (PPI2ID IRQ_TIMER0) = Some Timerintr ->
  io_read (k_io s) (GICC_REG GICC_IAR) = PPI2ID IRQ_TIMER0 ->
  wp (irqintr virtio_disk_intr f 0) s (fun _ s' =>
    k_ticks s' = (if cpuid =? 0 then u32 (k_ticks s + 1) else k_ticks s) /\
    k_procs s' p = set_p_state RUNNABLE (set_p_trapframe f (k_procs s p)) /\
    (forall q, (q < NPROC)%nat -> q <> p -> k_procs s' q =
      if bool_decide (cpuid = 0 /\ p_state (k_procs s q) = SLEEPING /\ p_chan (k_procs s q) = Some ChanTicks)
      then set_p_state RUNNABLE (k_procs s q) else k_procs s q) /\
    head (k_io s') = Some (Wr (GICC_REG GICC_EOIR) (PPI2ID IRQ_TIMER0))).
Proof.
  intros Hp Hn Hrun Hk Hh Hr. unfold irqintr. wp_steps. rewrite Hp. unfold when. simpl. wp_steps.
  eapply wp_mono; [by apply irqhandle_timer|]. intros r s1 (-> & (Ht & Hcur & _ & Hq) & Hio).
  simpl in *.
  assert (Ep : k_procs s1 p = set_p_trapframe f (k_procs s p)).
  { rewrite Hq by done. unfold upd. rewrite decide_True by done. destruct (cpuid =? 0); [|done]. apply woken_not. naive_solver. }
  unfold killed, yield, myproc, when. wp_steps. rewrite Ep. simpl. rewrite Hk. simpl. wp_steps.
  rewrite Hcur, Hp. wp_steps. unfold the_proc. wp_steps. rewrite Ep. simpl.
  rewrite bool_decide_true by done. wp_steps. split_and!; try done.
  - unfold upd. rewrite decide_True by done. by rewrite Ep.
  - intros q Hqn Hqp. unfold upd. rewrite decide_False by done. rewrite Hq by done.
    unfold upd. rewrite decide_False by done. rewrite Hp. unfold woken.
    destruct (Z.eqb_spec cpuid 0); repeat case_bool_decide; naive_solver.
Qed.

(** The state [irqintr] hands to the handler of the interrupt. *)
Definition frame_saved (f el : Z) (p : nat) (s : kernel) : kernel :=
  if el =? 0 then set_proc p (set_p_trapframe f) s else s.

(** C35: a process that has been killed does not come back from a timer
    interrupt, on any CPU and whichever level it was interrupted in: also
    inside the kernel ([el] is 1), where it may be in the middle of a file
    system operation, [irqintr] is [exit(-1)] of this process from the state
    the handler leaves, and does not return. *)
Theorem irqintr_killed f el s p :
  k_cur s = Some p -> (p < NPROC)%nat -> p_killed (k_procs s p) <> 0 ->
  k_intrs s !! Z.to_nat (PPI2ID IRQ_TIMER0) = Some Timerintr ->
  io_read (k_io s) (GICC_REG GICC_IAR) = PPI2ID IRQ_TIMER0 ->
  exists s1, irqintr virtio_disk_intr f el s = exit (-1) s1 /\
    ticked (frame_saved f el p s) s1 /\ k_cur s1 = Some p /\
    head (k_io s1) = Some (Wr (GICC_REG GICC_EOIR) (PPI2ID IRQ_TIMER0)) /\
    returns (irqintr virtio_disk_intr f el s) = false.
Proof.
  intros Hp Hn Hk Hh Hr. set (s0 := frame_saved f el p s).
  assert (E : (irqintr virtio_disk_intr f el) s = (is_timer ← irqhandle virtio_disk_intr;
      k ← killed p; if ctrue k then exit (-1) else when is_timer yield) s0).
  { unfold irqintr, s0, frame_saved. unfold gets, mbind at 1, M_bind at 1. rewrite Hp. unfold when.
    by destruct (el =? 0). }
  destruct (wp_inv _ _ _ (irqhandle_timer s0 ltac:(by unfold s0, frame_saved; case_match)
    ltac:(by unfold s0, frame_saved; case_match))) as (r & s1 & E1 & -> & Ht & Hio).
  assert (Ek : p_killed (k_procs s1 p) = p_killed (k_procs s p)).
  { rewrite (proj1 (ticked_fields _ _ _ Ht Hn)). unfold s0, frame_saved.
    destruct (el =? 0); [|done]. simpl. unfold upd. by rewrite decide_True. }
  assert (E2 : irqintr virtio_disk_intr f el s = exit (-1) s1).
  { rewrite E, (bind_ok _ _ _ _ _ E1). unfold killed, gets, mbind, M_bind. rewrite Ek.
    unfold ctrue. by destruct (Z.eqb_spec (p_killed (k_procs s p)) 0). }
  exists s1. split; [done|]. split; [done|]. split; [|split; [done|rewrite E2; apply exit_no_return]].
  destruct Ht as (_ & -> & _). unfold s0, frame_saved. by destruct (el =? 0).
Qed.
End timer.

(** * Examples *)

(** The machine of [KernelExample] with the timer's interrupt pending. *)
Definition platform_timer : Platform := {|
  bufaddr := @bufaddr platform_ex;
  klocal := @klocal platform_ex;
  trapret := 0; forkret_addr := 0; eentry := 0; initcode_start := 0; initcode_size := 0;
  cpuid := 0;
  io_read _ a := if a =? GICC_REG GICC_IAR then 30 else 0;
  polls := 1;
|}.

(** Process 0 runs, process 1 sleeps in [sys_sleep]; the tick count is about
    to wrap. *)
Definition kernel_timer (k : Z) : kernel :=
  set_proc 0 (set_p_killed k) (set_proc 1 (fun q => set_p_state SLEEPING (set_p_chan (Some ChanTicks) q))
    (set_k_ticks (2 ^ 32 - 1) (set_k_initproc (Some 2%nat)
      (set_k_intrs (<[30%nat := Timerintr]> (k_intrs kernel0)) kernel0)))).

Lemma irqintr_timer_witness :
  wp (irqintr (KE := kernel_ex) (PL := platform_timer) (mret tt) 5 0) (kernel_timer 0) (fun _ s' =>
    k_ticks s' = 0 /\ p_state (k_procs s' 0%nat) = RUNNABLE /\ p_state (k_procs s' 1%nat) = RUNNABLE).
Proof.
  eapply wp_mono; [apply (irqintr_timer (KE := kernel_ex) (PL := platform_timer) (mret tt) 5 (kernel_timer 0) 0%nat)|];
    [done|unfold NPROC; lia|done|done|done|done|].
  intros [] s' (Ht & Hp & Hq & _). split_and!.
  - rewrite Ht. by vm_compute.
  - by rewrite Hp.
  - rewrite Hq by (unfold NPROC; lia). done.
Defined.

Lemma irqintr_killed_witness :
  exists s1, irqintr (KE := kernel_ex) (PL := platform_timer) (mret tt) 5 1 (kernel_timer 1) =
      exit (KE := kernel_ex) (-1) s1 /\
    k_cur s1 = Some 0%nat /\ k_ticks s1 = 0.
Proof.
  destruct (irqintr_killed (KE := kernel_ex) (PL := platform_timer) (mret tt) 5 1 (kernel_timer 1) 0%nat) as (s1 & E & (Ht & _) & Hc & _);
    [done|unfold NPROC; lia|done|done|done|].
  exists s1. split_and!; [exact E|done|]. rewrite Ht. by vm_compute.
Defined.
