(* ===== verification/Boot.v ===== *)
(** Booting: [virtio_disk_init] of [kernel/virtio_disk.c] and [start] of
    [kernel/start.c].

    [start] is taken from the point where the uninitialised data has been
    cleared; the vector base register has an address below 0 in the trace of
    device accesses.  The theorem follows the first CPU from there to the
    scheduler. *)

From stdpp Require Import gmap.
From S2P Require Import Prelude CString Layout Kalloc Vm VmTables VmOps VmExample VmCopy Sleeplock Bio Log LogSafe Kernel UserMem Sched Uart KernelExample Printf Console Fs FsPath FsTx FsAlloc FsIo FsInode FsDisk FsFile FsDir Pipe File Args Sysfile Process Exec Syscall Trap Virtio.

(** * kernel/virtio_disk.c *)

Definition MMIO_BASE : Z := 0x0a000000.
Definition VIRTIO_MMIO_MAGIC_VALUE : Z := 0x000.
Definition VIRTIO_MMIO_VERSION : Z := 0x004.
Definition VIRTIO_MMIO_DEVICE_ID : Z := 0x008.
Definition VIRTIO_MMIO_VENDOR_ID : Z := 0x00c.
Definition VIRTIO_MMIO_DEVICE_FEATURES : Z := 0x010.
Definition VIRTIO_MMIO_DRIVER_FEATURES : Z := 0x020.
Definition VIRTIO_MMIO_QUEUE_SEL : Z := 0x030.
Definition VIRTIO_MMIO_QUEUE_NUM_MAX : Z := 0x034.
Definition VIRTIO_MMIO_QUEUE_NUM : Z := 0x038.
Definition VIRTIO_MMIO_QUEUE_READY : Z := 0x044.
Definition VIRTIO_MMIO_STATUS : Z := 0x070.
Definition VIRTIO_MMIO_QUEUE_DESC_LOW : Z := 0x080.
Definition VIRTIO_MMIO_QUEUE_DESC_HIGH : Z := 0x084.
Definition VIRTIO_MMIO_DRIVER_DESC_LOW : Z := 0x090.
Definition VIRTIO_MMIO_DRIVER_DESC_HIGH : Z := 0x094.
Definition VIRTIO_MMIO_DEVICE_DESC_LOW : Z := 0x0a0.
Definition VIRTIO_MMIO_DEVICE_DESC_HIGH : Z := 0x0a4.
Definition VIRTIO_CONFIG_S_ACKNOWLEDGE : Z := 1.
Definition VIRTIO_CONFIG_S_DRIVER : Z := 2.
Definition VIRTIO_CONFIG_S_DRIVER_OK : Z := 4.
Definition VIRTIO_CONFIG_S_FEATURES_OK : Z := 8.
Definition VIRTIO_BLK_F_RO : Z := 5.
Definition VIRTIO_BLK_F_SCSI : Z := 7.
Definition VIRTIO_BLK_F_CONFIG_WCE : Z := 11.
Definition VIRTIO_BLK_F_MQ : Z := 12.
Definition VIRTIO_F_ANY_LAYOUT : Z := 27.
Definition VIRTIO_RING_F_INDIRECT_DESC : Z := 28.
Definition VIRTIO_RING_F_EVENT_IDX : Z := 29.

(** [R(r)] of the disk; the registers are 32 bits wide. *)
Definition VR (r : Z) : Z := u64 (KERN_BASE + MMIO_BASE + r).

(** The fields of [struct disk] that are set: the three pages and [free]. *)
Record rings : Type := Rings { rg_desc : Z; rg_avail : Z; rg_used : Z; rg_free : list Z }.

Section boot.
Context `{KE : KernelEnd, PL : Platform}.

(** A page for the queue. *)
Definition clear_page (a : Z) : M kernel unit := vm (modify (set_mem (fun m => memset m a 0 PG_SIZE))).

Definition wr_low_high (lo hi a : Z) : M kernel unit :=
  wr (VR lo) (u32 a);; wr (VR hi) (u32 (Z.shiftr a 32)).

(** The test for the device, which stops at the first register that differs. *)
Definition virtio_absent : M kernel bool :=
  magic ← rd (VR VIRTIO_MMIO_MAGIC_VALUE);
  if negb (u32 magic =? 0x74726976) then mret true
  else
    version ← rd (VR VIRTIO_MMIO_VERSION);
    if negb (u32 version =? 2) then mret true
    else
      device ← rd (VR VIRTIO_MMIO_DEVICE_ID);
      if negb (u32 device =? 2) then mret true
      else
        vendor ← rd (VR VIRTIO_MMIO_VENDOR_ID);
        mret (negb (u32 vendor =? 0x554d4551)).

(** Reset, the status bits and the features, up to reading the status back. *)
Definition virtio_negotiate : M kernel Z :=
  let status := 0 in
  wr (VR VIRTIO_MMIO_STATUS) status;;
  let status := Z.lor status VIRTIO_CONFIG_S_ACKNOWLEDGE in
  wr (VR VIRTIO_MMIO_STATUS) status;;
  let status := Z.lor status VIRTIO_CONFIG_S_DRIVER in
  wr (VR VIRTIO_MMIO_STATUS) status;;
  f ← rd (VR VIRTIO_MMIO_DEVICE_FEATURES);
  let features := foldl (fun f k => Z.land f (Z.lnot (Z.shiftl 1 k))) (u32 f)
    [VIRTIO_BLK_F_RO; VIRTIO_BLK_F_SCSI; VIRTIO_BLK_F_CONFIG_WCE; VIRTIO_BLK_F_MQ; VIRTIO_F_ANY_LAYOUT;
     VIRTIO_RING_F_EVENT_IDX; VIRTIO_RING_F_INDIRECT_DESC] in
  wr (VR VIRTIO_MMIO_DRIVER_FEATURES) (u32 features);;
  let status := Z.lor status VIRTIO_CONFIG_S_FEATURES_OK in
  wr (VR VIRTIO_MMIO_STATUS) status;;
  v ← rd (VR VIRTIO_MMIO_STATUS);
  mret (u32 v).

(** Queue 0: the pages, their addresses, ready. *)
Definition virtio_queue : M kernel rings :=
  desc ← vm kalloc;
  avail ← vm kalloc;
  used ← vm kalloc;
  if (desc =? 0) || (avail =? 0) || (used =? 0) then panic "virtio disk kalloc"
  else
    clear_page desc;;
    clear_page avail;;
    clear_page used;;
    wr (VR VIRTIO_MMIO_QUEUE_NUM) (Z.of_nat NUM);;
    wr_low_high VIRTIO_MMIO_QUEUE_DESC_LOW VIRTIO_MMIO_QUEUE_DESC_HIGH (V2P desc);;
    wr_low_high VIRTIO_MMIO_DRIVER_DESC_LOW VIRTIO_MMIO_DRIVER_DESC_HIGH (V2P avail);;
    wr_low_high VIRTIO_MMIO_DEVICE_DESC_LOW VIRTIO_MMIO_DEVICE_DESC_HIGH (V2P used);;
    wr (VR VIRTIO_MMIO_QUEUE_READY) 1;;
    mret (Rings desc avail used (replicate NUM 1)).

Definition virtio_disk_init : M kernel rings :=
  absent ← virtio_absent;
  if absent : bool then panic "could not find virtio disk"
  else
    status ← virtio_negotiate;
    if Z.land status VIRTIO_CONFIG_S_FEATURES_OK =? 0 then panic "virtio disk FEATURES_OK unset"
    else
      wr (VR VIRTIO_MMIO_QUEUE_SEL) 0;;
      ready ← rd (VR VIRTIO_MMIO_QUEUE_READY);
      if ctrue (u32 ready) then panic "virtio disk should not be ready"
      else
        v ← rd (VR VIRTIO_MMIO_QUEUE_NUM_MAX);
        let max := u32 v in
        if max =? 0 then panic "virtio disk has no queue 0"
        else if max <? Z.of_nat NUM then panic "virtio disk max queue too short"
        else
          r ← virtio_queue;
          wr (VR VIRTIO_MMIO_STATUS) (Z.lor status VIRTIO_CONFIG_S_DRIVER_OK);;
          intrset (SPI2ID IRQ_MMIO) Virtio_disk_intr;;
          mret r.

(** * kernel/start.c *)

Definition VBAR : Z := -5.
Variable vectors : Z.
Definition lvbar (a : Z) : M kernel unit := wr VBAR a.

(** The number of pages of memory bounds the loop of [kinit]. *)
Definition KINIT_FUEL : nat := Z.to_nat 32769.

(** What the first CPU does between clearing the uninitialised data and
    [scheduler]; the locks' initialisation ([fileinit]) has no effect here. *)
Definition start_first : M kernel unit :=
  printfinit;;
  consoleinit;;
  printf (nl ++ chars "xv6 kernel is booting" ++ nl ++ nl) [];;
  vm (kinit kend KINIT_FUEL);;
  lvbar vectors;;
  gicinit;;
  gichartinit;;
  uartsti;;
  timerinit;;
  timerset;;
  fb binit;;
  iinit;;
  virtio_disk_init;;
  procinit;;
  userinit.

(** The other CPUs, once the first one is done. *)
Definition start_other : M kernel unit :=
  printf (chars "hart %d starting" ++ nl) [AWord cpuid];;
  lvbar vectors;;
  gichartinit;;
  timerset.

Definition start : M kernel unit := if cpuid =? 0 then start_first else start_other.
End boot.

(** * Code that only talks to devices *)

(** The disk's queue has not been made ready. *)
Definition not_ready (io : list ioevent) : Prop := forall v, Wr (VR VIRTIO_MMIO_QUEUE_READY) v ∉ io.

(** The fields the rest of the boot depends on. *)
Record same_core (s s' : kernel) : Prop := {
  sc_km : k_km s' = k_km s;
  sc_ls : k_ls s' = k_ls s;
  sc_itable : k_itable s' = k_itable s;
  sc_procs : k_procs s' = k_procs s;
  sc_cur : k_cur s' = k_cur s;
  sc_nextpid : k_nextpid s' = k_nextpid s;
  sc_panicked : k_panicked s' = k_panicked s;
  sc_ready : not_ready (k_io s) -> not_ready (k_io s');
}.

Lemma same_core_refl s : same_core s s.
Proof. done. Qed.
Lemma same_core_trans s s1 s2 : same_core s s1 -> same_core s1 s2 -> same_core s s2.
Proof. intros [] []. split; congruence || auto. Qed.
#[export] Instance same_core_preorder : PreOrder same_core.
Proof. split; [exact same_core_refl|exact same_core_trans]. Qed.

Section devices.
Context `{KE : KernelEnd, PL : Platform}.

Definition devices_only {A} (m : M kernel A) : Prop :=
  forall s, wp m s (fun _ s' => same_core s s' /\ k_intrs s' = k_intrs s).

Lemma dev_bind {A B} (m : M kernel A) (f : A -> M kernel B) :
  devices_only m -> (forall a, devices_only (f a)) -> devices_only (m ≫= f).
Proof.
  intros Hm Hf s. apply wp_bind. eapply wp_mono; [apply Hm|]. intros a s1 [H1 E1].
  eapply wp_mono; [apply Hf|]. intros b s2 [H2 E2]. split; [by etrans|congruence].
Qed.
Lemma dev_ret {A} (a : A) : devices_only (mret a).
Proof. intros s. by apply wp_ret. Qed.
Lemma not_ready_rd a v io : not_ready io -> not_ready (Rd a v :: io).
Proof. intros H w. apply not_elem_of_cons. by split. Qed.
Lemma not_ready_wr a v io : a <> VR VIRTIO_MMIO_QUEUE_READY -> not_ready io -> not_ready (Wr a v :: io).
Proof. intros Ha H w. apply not_elem_of_cons. split; [congruence|done]. Qed.
Lemma dev_rd a : devices_only (rd a).
Proof. intros s. apply wp_rd. split; [|done]. split; try done. apply not_ready_rd. Qed.
Lemma dev_wr a v : a <> VR VIRTIO_MMIO_QUEUE_READY -> devices_only (wr a v).
Proof. intros Ha s. apply wp_wr. split; [|done]. split; try done. by apply not_ready_wr. Qed.
Lemma dev_modify f : (forall s, same_core s (f s) /\ k_intrs (f s) = k_intrs s) -> devices_only (modify f).
Proof. intros H s. by apply wp_modify. Qed.

Ltac dev_step :=
  cbv zeta;
  lazymatch goal with
  | |- devices_only (rd _) => apply dev_rd
  | |- devices_only (wr _ _) => apply dev_wr; by vm_compute
  | |- devices_only (mret _) => apply dev_ret
  | |- devices_only (_ ≫= _) => apply dev_bind; [|intros ?]
  end.
Ltac devs := repeat dev_step.

Lemma uartinit_dev : devices_only uartinit.
Proof. unfold uartinit. devs. Qed.

Lemma consoleinit_dev : devices_only consoleinit.
Proof. unfold consoleinit. apply dev_bind; [apply uartinit_dev|intros _]. by apply dev_modify. Qed.

Lemma printfinit_dev : devices_only printfinit.
Proof. by apply dev_modify. Qed.

Lemma gichartinit_dev : devices_only gichartinit.
Proof. unfold gichartinit, cpuinit, ppiset, spiset, group0enb, cfgset, enbset, cpuset. devs. Qed.

Lemma timerset_dev : devices_only timerset.
Proof. unfold timerset. devs. Qed.

Lemma says_dev s (m : M kernel unit) : says m -> quiet s ->
  wp m s (fun _ s' => same_core s s' /\ k_intrs s' = k_intrs s).
Proof.
  intros Hm Hq. eapply wp_mono; [by apply Hm|]. intros [] s' (l & io & -> & _ & Ho). split; [|done].
  split; try done. intros Hr v Hv. apply Ho in Hv as [E|Hv]; [by vm_compute in E|by apply (Hr v)].
Qed.
End devices.

(** * The page pool while the kernel boots *)

Section pool.
Context `{KE : KernelEnd, PL : Platform}.

(** The pages are accounted for, and the kernel image is as loaded. *)
Record pool_ok (img : mem) (k : kmem) (l : list Z) (O : gmap Z role) : Prop := {
  po_vm : vm_inv k l O;
  po_image : forall x, x < kend -> km_mem k x = img x;
}.

Lemma kpage_above p x : kpage p -> in_page p x -> kend <= x.
Proof. unfold in_page. intros (_ & ? & _) ?. lia. Qed.

Lemma kalloc_take img k c l O :
  pool_ok img k (c :: l) O ->
  wp kalloc k (fun r k' => r = c /\ pool_ok img k' l (<[c := Other]> O) /\ O !! c = None /\
    (forall x, ~ in_page c x -> km_mem k' x = km_mem k x)).
Proof.
  intros [HI Him]. destruct (kalloc_cons kend k c l (vi_kmem _ _ _ HI)) as (k' & Hk & Hi & Hm).
  assert (Hout : forall x, ~ in_page c x -> km_mem k' x = km_mem k x).
  { intros x Hx. rewrite Hm. unfold in_page in Hx. destruct (Z.leb_spec c x), (Z.ltb_spec x (c + PG_SIZE)); simpl; done || lia. }
  eapply wp_ok; [exact Hk|]. split_and!; [done| |by apply (vi_free _ _ _ HI); left|done]. split.
  - by eapply vm_take.
  - intros x Hx. rewrite Hout; [by apply Him|]. intros Hin. pose proof (vi_pool _ _ _ HI) as [Hc _]%Forall_cons.
    pose proof (kpage_above c x Hc Hin). lia.
Qed.

(** Writing to a page that is neither free nor a table. *)
Lemma pool_write img k l O c f ρ :
  pool_ok img k l O -> O !! c = Some ρ -> (forall r n b, ρ <> Tab r n b) ->
  bytes_ok (f (km_mem k)) -> (forall x, ~ in_page c x -> f (km_mem k) x = km_mem k x) ->
  pool_ok img (set_mem f k) l O.
Proof.
  intros [HI Him] Hc Hρ Hb Hout. pose proof (vi_page _ _ _ HI _ _ Hc) as Hck. split.
  - eapply vm_inv_write; [done|done|done| |].
    + intros p r n b x Hp Hx. apply Hout. intros Hcx.
      assert (c = p) as <- by (eapply in_page_disjoint; [apply Hck|by apply (vi_page _ _ _ HI _ _ Hp)|done|done]).
      rewrite Hc in Hp. simplify_eq. by destruct (Hρ r n b).
    + intros p x Hp Hx. apply Hout. intros Hcx. pose proof (vi_pool _ _ _ HI) as Hpool. rewrite Forall_forall in Hpool.
      assert (c = p) as <- by (eapply in_page_disjoint; [apply Hck|by apply Hpool|done|done]).
      by rewrite (vi_free _ _ _ HI _ Hp) in Hc.
  - intros x Hx. simpl. rewrite Hout; [by apply Him|]. intros Hin. pose proof (kpage_above c x Hck Hin). lia.
Qed.

Lemma pool_clear img k l O c ρ :
  pool_ok img k l O -> O !! c = Some ρ -> (forall r n b, ρ <> Tab r n b) ->
  pool_ok img (set_mem (fun m => memset m c 0 PG_SIZE) k) l O.
Proof.
  intros HP Hc Hρ. eapply pool_write; [done|done|done| |].
  - apply memset_ok, (vi_bytes _ _ _ (po_vm _ _ _ _ HP)).
  - intros x Hx. apply memset_out. unfold in_page in Hx. change (u32 PG_SIZE) with PG_SIZE. lia.
Qed.

(** [kinit] writes to no byte below the end of the kernel. *)
Lemma kinit_image fuel k k' x : kinit kend fuel k = Ok tt k' -> x < kend -> km_mem k' x = km_mem k x.
Proof.
  intros H Hx. unfold kinit, freerange in H.
  assert (Ha : kend <= PG_ROUND_UP kend).
  { rewrite PG_ROUND_UP_div; pose proof kend_ok; unfold KERN_BASE, PHY_STOP, PHY_BASE, PG_SIZE in *; zlia. }
  assert (Hb : u64 (KERN_BASE + PHY_STOP) < 2 ^ 64 - PG_SIZE) by done.
  revert H. generalize (PG_ROUND_UP kend), Ha. generalize (u64 (KERN_BASE + PHY_STOP)), Hb. clear Ha Hb.
  intros top Htop. revert k. induction fuel as [|fuel IH]; intros k a Ha; [done|]. cbn [loop].
  unfold mbind, M_bind, freerange_body at 1. destruct (Z.leb_spec (u64 (a + PG_SIZE)) top) as [Hle|]; [|by intros [= <-]].
  unfold kfree. destruct (kfree_bad kend a) eqn:Eb; [done|]. intros H.
  assert (0 <= a < 2 ^ 64 - PG_SIZE) as Hr.
  { unfold kfree_bad in Eb. apply orb_false_iff in Eb as [[_ _]%orb_false_iff Eb]. apply Z.leb_gt in Eb.
    pose proof kend_ok. unfold KERN_BASE, PHY_STOP, PHY_BASE, PG_SIZE in *. change (u64 _) with (0xffff000048000000) in Eb. lia. }
  apply IH in H; [|rewrite u64_small; unfold PG_SIZE in *; lia]. rewrite H. simpl. apply store64_out. lia.
Qed.

(** [kinit] leaves at least as many pages as there is room for. *)
Lemma kinit_pool (n : nat) k :
  bytes_ok (km_mem k) -> km_freelist k = 0 -> kend + Z.of_nat (n + 1) * PG_SIZE <= KERN_BASE + PHY_STOP ->
  wp (kinit kend KINIT_FUEL) k (fun _ k' => exists l, (n <= length l)%nat /\ pool_ok (km_mem k) k' l ∅).
Proof.
  intros Hb Hf Hroom. destruct (kinit_list kend kend_ok k KINIT_FUEL Hb Hf) as (k' & E & Hi).
  { unfold KINIT_FUEL. apply Z2Nat.inj_lt; lia. }
  eapply wp_ok; [exact E|]. exists (reverse (pages (kinit_first kend) (kinit_count kend))).
  split; [|split; [|intros x Hx; by apply (kinit_image KINIT_FUEL)]].
  - rewrite length_reverse, length_pages. pose proof (kinit_first_range kend kend_ok). unfold kinit_count, PG_SIZE in *.
    apply Nat2Z.inj_le. rewrite Z2Nat.id by (apply Z.div_pos; lia). apply Z.div_le_lower_bound; lia.
  - split; try done. apply Forall_forall. intros p. rewrite elem_of_reverse. by apply (elem_of_kinit kend kend_ok).
Qed.
End pool.

(** * The disk's initialisation *)

(** A disk as the virtio specification has it, before its queue is used. *)
Class DiskPresent `{PL : Platform} : Prop := {
  disk_magic io : u32 (io_read io (VR VIRTIO_MMIO_MAGIC_VALUE)) = 0x74726976;
  disk_version io : u32 (io_read io (VR VIRTIO_MMIO_VERSION)) = 2;
  disk_device io : u32 (io_read io (VR VIRTIO_MMIO_DEVICE_ID)) = 2;
  disk_vendor io : u32 (io_read io (VR VIRTIO_MMIO_VENDOR_ID)) = 0x554d4551;
  (** it accepts the features *)
  disk_features io v : Z.land v VIRTIO_CONFIG_S_FEATURES_OK <> 0 ->
    Z.land (u32 (io_read (Wr (VR VIRTIO_MMIO_STATUS) v :: io) (VR VIRTIO_MMIO_STATUS))) VIRTIO_CONFIG_S_FEATURES_OK <> 0;
  disk_idle io : not_ready io -> u32 (io_read io (VR VIRTIO_MMIO_QUEUE_READY)) = 0;
  disk_queue io : Z.of_nat NUM <= u32 (io_read io (VR VIRTIO_MMIO_QUEUE_NUM_MAX));
}.

Section disk.
Context `{KE : KernelEnd, PL : Platform} {DP : DiskPresent}.

Lemma virtio_absent_ok s : wp virtio_absent s (fun r s' => r = false /\ same_core s s' /\ k_intrs s' = k_intrs s).
Proof.
  unfold virtio_absent.
  apply wp_bind, wp_rd. rewrite disk_magic. apply wp_bind, wp_rd. rewrite disk_version.
  apply wp_bind, wp_rd. rewrite disk_device. apply wp_bind, wp_rd. rewrite disk_vendor.
  apply wp_ret. split; [done|]. split; [|done]. split; try done. intros H. by do 4 apply not_ready_rd.
Qed.

Lemma virtio_negotiate_ok s : wp virtio_negotiate s (fun r s' =>
  Z.land r VIRTIO_CONFIG_S_FEATURES_OK <> 0 /\ same_core s s' /\ k_intrs s' = k_intrs s).
Proof.
  unfold virtio_negotiate. cbv zeta. do 3 (apply wp_bind, wp_wr). apply wp_bind, wp_rd. do 2 (apply wp_bind, wp_wr).
  apply wp_bind, wp_rd, wp_ret. split; [by apply disk_features|]. split; [|done]. split; try done. intros H.
  cbn [k_io set_k_io]. apply not_ready_rd. do 2 (apply not_ready_wr; [by vm_compute|]). apply not_ready_rd.
  do 3 (apply not_ready_wr; [by vm_compute|]). done.
Qed.

Definition others (l : list Z) (O : gmap Z role) : gmap Z role := foldr (fun c O => <[c := Other]> O) O l.

(** The queue's three pages. *)
Lemma virtio_queue_ok img s a b c l O :
  pool_ok img (k_km s) (a :: b :: c :: l) O ->
  wp virtio_queue s (fun r s' => r = Rings a b c (replicate NUM 1) /\ exists k, pool_ok img k l (others [c; b; a] O) /\
    (forall x, in_page a x \/ in_page b x \/ in_page c x -> km_mem k x = 0) /\
    k_km s' = k /\ k_ls s' = k_ls s /\ k_itable s' = k_itable s /\ k_procs s' = k_procs s /\ k_cur s' = k_cur s /\
    k_nextpid s' = k_nextpid s /\ k_panicked s' = k_panicked s /\ k_intrs s' = k_intrs s).
Proof.
  intros HP. pose proof (vi_pool _ _ _ (po_vm _ _ _ _ HP)) as Hpool.
  pose proof (ki_nodup _ _ _ (vi_kmem _ _ _ (po_vm _ _ _ _ HP))) as Hnd.
  apply Forall_cons in Hpool as [Ha [Hb [Hc _]%Forall_cons]%Forall_cons].
  assert (a <> b /\ a <> c /\ b <> c) as (Nab & Nac & Nbc).
  { apply NoDup_cons in Hnd as [N1 [N2 _]%NoDup_cons]. set_solver. }
  unfold virtio_queue. apply wp_bind, wp_vm. eapply wp_mono; [by apply kalloc_take|]. intros ? k1 (-> & P1 & _ & _).
  apply wp_bind, wp_vm. eapply wp_mono; [by apply kalloc_take|]. intros ? k2 (-> & P2 & _ & _).
  apply wp_bind, wp_vm. eapply wp_mono; [by apply kalloc_take|]. intros ? k3 (-> & P3 & _ & _).
  rewrite (proj2 (Z.eqb_neq a 0)), (proj2 (Z.eqb_neq b 0)), (proj2 (Z.eqb_neq c 0)) by (by apply kpage_ne_0). simpl.
  fold (others [c; b; a] O) in P3. set (O' := others [c; b; a] O) in *.
  assert (HO : O' !! a = Some Other /\ O' !! b = Some Other /\ O' !! c = Some Other).
  { unfold O'. simpl. rewrite !lookup_insert_eq. rewrite (lookup_insert_ne _ c b), lookup_insert_eq by done.
    rewrite (lookup_insert_ne _ c a), (lookup_insert_ne _ b a), lookup_insert_eq by done. done. }
  destruct HO as (Oa & Ob & Oc). unfold clear_page, wr_low_high.
  do 3 (apply wp_bind, wp_vm, wp_modify). repeat (first [apply wp_bind | apply wp_wr | apply wp_ret]).
  split; [done|]. eexists. split_and!; try reflexivity.
  - cbn [k_km set_k_km set_k_io]. apply (pool_clear _ _ _ _ _ Other); [|done|done]. apply (pool_clear _ _ _ _ _ Other); [|done|done].
    by apply (pool_clear _ _ _ _ _ Other).
  - intros x Hx. cbn [k_km set_k_km set_k_io set_mem km_mem]. rewrite !memset_spec. unfold in_page in Hx.
    change (u32 PG_SIZE) with PG_SIZE. repeat case_match; try done. lia.
Qed.

Lemma virtio_disk_init_ok img s a b c l O :
  pool_ok img (k_km s) (a :: b :: c :: l) O -> not_ready (k_io s) ->
  wp virtio_disk_init s (fun r s' => r = Rings a b c (replicate NUM 1) /\ exists k, pool_ok img k l (others [c; b; a] O) /\
    (forall x, in_page a x \/ in_page b x \/ in_page c x -> km_mem k x = 0) /\
    k_km s' = k /\ k_ls s' = k_ls s /\ k_itable s' = k_itable s /\ k_procs s' = k_procs s /\ k_cur s' = k_cur s /\
    k_nextpid s' = k_nextpid s /\ k_panicked s' = k_panicked s /\ k_intrs s' = <[48%nat := Virtio_disk_intr]> (k_intrs s)).
Proof.
  intros HP Hr. unfold virtio_disk_init. apply wp_bind. eapply wp_mono; [apply virtio_absent_ok|].
  intros ? s1 (-> & C1 & I1). apply wp_bind. eapply wp_mono; [apply virtio_negotiate_ok|].
  intros st s2 (Hst & C2 & I2). pose proof (same_core_trans _ _ _ C1 C2) as C. clear C1 C2.
  rewrite (proj2 (Z.eqb_neq _ 0)) by done. apply wp_bind, wp_wr, wp_bind, wp_rd.
  rewrite disk_idle by (cbn [k_io set_k_io]; apply not_ready_wr; [by vm_compute|by apply (sc_ready _ _ C)]).
  change (ctrue 0) with false. apply wp_bind, wp_rd. cbv zeta. set (s3 := set_k_io _ _).
  pose proof (disk_queue (k_io s3)) as Hq. match goal with |- context [u32 ?v =? 0] => set (max := u32 v) in * end.
  assert (Hmax : Z.of_nat NUM <= max) by apply disk_queue.
  rewrite (proj2 (Z.eqb_neq max 0)), (proj2 (Z.ltb_ge max _)) by (unfold NUM in *; lia).
  apply wp_bind. eapply wp_mono; [apply (virtio_queue_ok img _ a b c l O); cbn [s3 k_km set_k_io]; by rewrite (sc_km _ _ C)|].
  intros ? s4 (-> & k & Hk & Hz & E1 & E2 & E3 & E4 & E5 & E6 & E7 & E8). apply wp_bind, wp_wr, wp_bind.
  unfold intrset, when. change (SPI2ID IRQ_MMIO <? 64) with true. change (0 <=? SPI2ID IRQ_MMIO) with true.
  change (Z.to_nat (SPI2ID IRQ_MMIO)) with 48%nat. apply wp_modify, wp_ret. split; [done|]. exists k. destruct C.
  unfold s3 in *. cbn in *. split_and!; try done; congruence.
Qed.
End disk.

(** * The first process *)

Section process.
Context `{KE : KernelEnd, PL : Platform}.

Lemma fresh_leaf m r va :
  kpage r -> (forall i, 0 <= i < 512 -> ent m r i = 0) -> leaf m r va = 0.
Proof.
  intros Hr Hz. pose proof (PX_range 0 va ltac:(lia)) as HP.
  assert (E : tab_path m r va 1 = None).
  { pose proof (Hz (PX 0 va) HP) as H0. unfold ent in H0. simpl. unfold tab_next. change (Z.of_nat 0) with 0. rewrite kpage_slot by done. by rewrite H0. }
  unfold leaf. change (tab_path m r va 3) with
    (p ← (q ← tab_path m r va 1; tab_next m q (PX 1 va)); tab_next m p (PX 2 va)). by rewrite E.
Qed.

(** A store into the page of a kernel stack. *)
Lemma pool_store img k l O c a v :
  pool_ok img k l O -> O !! c = Some Other -> c <= a -> a + 8 <= c + PG_SIZE ->
  pool_ok img (set_mem (fun m => store64 m a v) k) l O.
Proof.
  intros HP Hc H1 H2. eapply pool_write; [done|done|done| |].
  - apply store64_ok, (vi_bytes _ _ _ (po_vm _ _ _ _ HP)).
  - intros x Hx. apply store64_out. unfold in_page in Hx. lia.
Qed.

Lemma kpage_range c : kpage c -> 0 < c /\ c + PG_SIZE < 2 ^ 64 /\ KERN_BASE + PHY_BASE <= c.
Proof. intros (_ & H1 & H2). pose proof kend_ok. unfold KERN_BASE, PHY_STOP, PHY_BASE, PG_SIZE in *. lia. Qed.

(** What [allocproc] leaves when process 0 is unused. *)
Lemma allocproc_ok img s ks pt l O :
  pool_ok img (k_km s) (ks :: pt :: l) O -> p_state (k_procs s 0%nat) = UNUSED -> k_nextpid s = 1 ->
  wp allocproc s (fun r s' => r = Some 0%nat /\ exists k q,
    s' = set_k_nextpid 2 (set_k_procs (k_procs s') (set_k_km k s)) /\
    (forall p, p <> 0%nat -> k_procs s' p = k_procs s p) /\ k_procs s' 0%nat = q /\
    p_pid q = 1 /\ p_pagetable q = pt /\ p_trapframe q = ks + PG_SIZE - TF_SIZE /\ p_killed q = p_killed (k_procs s 0%nat) /\
    pool_ok img k l (<[pt := Tab pt 0 0]> (<[ks := Other]> O)) /\ (forall va, leaf (km_mem k) pt va = 0)).
Proof.
  intros HP Hun Hpid. pose proof (vi_pool _ _ _ (po_vm _ _ _ _ HP)) as [Hks [Hpt _]%Forall_cons]%Forall_cons.
  pose proof (ki_nodup _ _ _ (vi_kmem _ _ _ (po_vm _ _ _ _ HP))) as [Hne _]%NoDup_cons.
  assert (Nkp : ks <> pt) by set_solver. destruct (kpage_range ks Hks) as (R1 & R2 & _).
  unfold allocproc. apply wp_bind. change NPROC with (S 63). cbn [find_unused]. unfold the_proc.
  apply wp_bind, wp_gets. rewrite Hun, bool_decide_true by done. apply wp_ret.
  unfold allocproc_found, allocpid. apply wp_bind, wp_bind, wp_gets, wp_bind, wp_modify, wp_ret. rewrite Hpid.
  do 2 (apply wp_bind, wp_modify). apply wp_bind, wp_vm. eapply wp_mono; [by apply kalloc_take|].
  intros ? k1 (-> & P1 & O1 & M1). apply wp_bind, wp_modify.
  rewrite (proj2 (Z.eqb_neq ks 0)) by (by apply kpage_ne_0).
  apply wp_bind, wp_vm, wp_modify. unfold allocproc_space, the_proc. cbv zeta. apply wp_bind, wp_gets, wp_bind, wp_vm.
  cbn [k_km set_k_km set_k_procs set_proc set_k_nextpid k_procs]. rewrite upd_eq. cbn [p_kstack set_p_kstack].
  assert (P1' : pool_ok img (set_mem (fun m => memset m ks 0 PG_SIZE) k1) (pt :: l) (<[ks := Other]> O)).
  { apply (pool_clear _ _ _ _ _ Other); [done|apply lookup_insert_eq|done]. }
  eapply wp_mono; [by apply kalloc_take|]. intros ? k2 (-> & P2 & O2 & M2). apply wp_bind, wp_modify.
  rewrite (proj2 (Z.eqb_neq pt 0)) by (by apply kpage_ne_0). rewrite (u64_small (ks + PROC_KSTACK_SIZE)) by (unfold PROC_KSTACK_SIZE, PG_SIZE in *; lia).
  apply wp_bind, wp_vm, wp_modify. apply wp_bind, wp_modify. do 2 apply wp_bind, wp_vm, wp_modify. apply wp_bind, wp_modify, wp_ret.
  split; [done|]. cbn [k_km set_k_km set_k_procs set_proc set_k_nextpid].
  set (k3 := set_mem (fun m => memset m pt 0 PG_SIZE) k2).
  assert (P3 : pool_ok img k3 l (<[pt := Other]> (<[ks := Other]> O))).
  { apply (pool_clear _ _ _ _ _ Other); [done|apply lookup_insert_eq|done]. }
  set (k4 := set_mem _ (set_mem _ k3)).
  assert (P4 : pool_ok img k4 l (<[pt := Other]> (<[ks := Other]> O))).
  { assert (Hk : (<[pt := Other]> (<[ks := Other]> O)) !! ks = Some Other).
    { rewrite lookup_insert_ne by done. apply lookup_insert_eq. }
    unfold k4, PROC_KSTACK_SIZE, TF_SIZE, PG_SIZE. apply (pool_store _ _ _ _ ks); [|done|lia|unfold PG_SIZE; lia].
    apply (pool_store _ _ _ _ ks); [done|done|lia|unfold PG_SIZE; lia]. }
  assert (Hz : forall i, 0 <= i < 512 -> ent (km_mem k4) pt i = 0).
  { intros i Hi. apply load64_zero. intros x Hx. assert (Hin : in_page pt x) by (by eapply ent_in_page).
    assert (~ in_page ks x) as Hno.
    { intros H. apply Nkp. by apply (in_page_disjoint ks pt x); [apply Hks|apply Hpt|..]. }
    unfold k4, PROC_KSTACK_SIZE, TF_SIZE. simpl. unfold in_page, PG_SIZE in Hno. rewrite !store64_out by (unfold PG_SIZE; lia).
    rewrite memset_in; [done|]. exact Hin. }
  exists k4, (k_procs (set_proc 0 (set_p_context (replicate 14 0 ++ [u64 (forkret_addr + 8); ks + PROC_KSTACK_SIZE - TF_SIZE - 8 - 8]))
    (set_k_procs (upd (upd (upd (upd (upd (k_procs s) 0 (set_p_pid 1)) 0 (set_p_state USED)) 0 (set_p_kstack ks)) 0 (set_p_pagetable pt)) 0
      (set_p_trapframe (ks + PROC_KSTACK_SIZE - TF_SIZE))) s)) 0%nat).
  split_and!; try (cbn; rewrite ?upd_eq; done).
  - intros p Hp. cbn. by rewrite !upd_ne.
  - rewrite <- (insert_insert_eq _ pt (Tab pt 0 0) Other). split; [|apply P4]. apply vm_root; [apply P4|apply lookup_insert_eq|done].
  - intros va. by apply fresh_leaf.
Qed.

(** [uvmfirst] passes [mappages] the physical address of the page; the entry is
    the one its kernel address gives. *)
Lemma mappages_V2P r d f s :
  kpage d -> mappages r 0 (V2P d) PG_SIZE f s = mappages r 0 d PG_SIZE f s.
Proof.
  intros Hd. unfold mappages. change (PG_SIZE =? 0) with false. cbn match.
  change (PG_ROUND_DOWN (u64 (0 + PG_SIZE - 1))) with 0. change (PG_ROUND_DOWN 0) with 0.
  change (Z.to_nat (PG_SIZE / PG_SIZE + 2)) with 3%nat. cbn [loop]. unfold mbind, M_bind.
  assert (E : mappages_body r 0 f (0, V2P d) s = mappages_body r 0 f (0, d) s); [|by rewrite E].
  unfold mappages_body. rewrite V2P_addr_mask, kpage_addr_mask by done. done.
Qed.

Lemma mapped_pool img k l O r va d e k' l' O' :
  pool_ok img k l O -> mapped k l O r va d e k' l' O' -> pool_ok img k' l' O'.
Proof.
  intros [HI Him] HM. split; [by apply HM|]. intros x Hx. rewrite (mp_mem _ _ _ _ _ _ _ _ _ _ HM); [by apply Him|..].
  - intros p ? ? ? Hp Hin. pose proof (kpage_above p x (vi_page _ _ _ HI _ _ Hp) Hin). lia.
  - intros p Hp Hin. pose proof (vi_pool _ _ _ HI) as Hpool. rewrite Forall_forall in Hpool.
    pose proof (kpage_above p x (Hpool p Hp) Hin). lia.
Qed.

(** A page outside the tables and the free pages keeps its bytes. *)
Lemma mapped_page img k l O r va d e k' l' O' c ρ x :
  pool_ok img k l O -> mapped k l O r va d e k' l' O' -> O !! c = Some ρ -> (forall r n b, ρ <> Tab r n b) ->
  in_page c x -> km_mem k' x = km_mem k x.
Proof.
  intros [HI _] HM Hc Hρ Hx. pose proof (vi_page _ _ _ HI _ _ Hc) as Hck. apply (mp_mem _ _ _ _ _ _ _ _ _ _ HM).
  - intros p r0 n b Hp Hin. assert (c = p) as <-.
    { eapply in_page_disjoint; [apply Hck|by apply (vi_page _ _ _ HI _ _ Hp)|done|done]. }
    rewrite Hc in Hp. simplify_eq. by destruct (Hρ r0 n b).
  - intros p Hp Hin. pose proof (vi_pool _ _ _ HI) as Hpool. rewrite Forall_forall in Hpool.
    assert (c = p) as <- by (eapply in_page_disjoint; [apply Hck|by apply Hpool|done|done]).
    by rewrite (vi_free _ _ _ HI _ Hp) in Hc.
Qed.

(** The user page of the first process: the image, then zeros. *)
Definition first_page (img m : mem) (c src size : Z) : Prop :=
  forall i, 0 <= i < PG_SIZE -> m (c + i) = if i <? size then img (src + i) else 0.

Lemma uvmfirst_ok img k c l O pt src size :
  pool_ok img k (c :: l) O -> O !! pt = Some (Tab pt 0 0) -> (forall va, leaf (km_mem k) pt va = 0) ->
  (3 <= length l)%nat -> 0 <= size <= PG_SIZE -> src + size <= kend ->
  wp (uvmfirst pt src size) k (fun _ k' => exists l' O', pool_ok img k' l' O' /\ (length l <= length l' + 3)%nat /\
    (forall p ρ, O !! p = Some ρ -> O' !! p = Some ρ) /\ O' !! c = Some (Dat pt 0) /\
    (forall va, leaf (km_mem k') pt va = if decide (vpn va = 0) then Z.lor (V2P c) USER_4K_PAGE_RO else 0) /\
    first_page img (km_mem k') c src size).
Proof.
  intros HP Hpt Hz Hl Hs Hsrc. unfold uvmfirst. rewrite (u32_small size) by (unfold PG_SIZE in *; lia).
  rewrite (proj2 (Z.ltb_ge PG_SIZE size)) by lia.
  pose proof (vi_pool _ _ _ (po_vm _ _ _ _ HP)) as [Hc _]%Forall_cons.
  apply wp_bind. eapply wp_mono; [by apply kalloc_take|]. intros ? k1 (-> & P1 & O1 & M1). apply wp_bind, wp_modify.
  set (k2 := set_mem _ k1). assert (P2 : pool_ok img k2 l (<[c := Other]> O)).
  { apply (pool_clear _ _ _ _ _ Other); [done|apply lookup_insert_eq|done]. }
  assert (Npc : pt <> c) by congruence. set (OO := <[c := Other]> O) in *.
  assert (Hpt2 : OO !! pt = Some (Tab pt 0 0)) by (unfold OO; by rewrite lookup_insert_ne).
  assert (L2 : forall va, leaf (km_mem k2) pt va = 0).
  { intros va. rewrite <- (Hz va). apply (leaf_frame k (c :: l) O k2 l OO); [apply HP|apply P2|done|..].
    - intros p r n b. unfold OO. rewrite lookup_insert_Some. naive_solver congruence.
    - intros p r n b x Hp Hx. assert (Hno : ~ in_page c x).
      { intros Hin. assert (c = p) as <-; [|congruence].
        eapply in_page_disjoint; [apply Hc|by apply (vi_page _ _ _ (po_vm _ _ _ _ HP) _ _ Hp)|done|done]. }
      unfold k2. simpl. rewrite memset_out; [by apply M1|]. unfold in_page in Hno. change (u32 PG_SIZE) with PG_SIZE. lia. }
  apply wp_bind, (wp_ext _ (mappages pt 0 c PG_SIZE USER_4K_PAGE_RO)); [by apply mappages_V2P|].
  eapply wp_mono; [apply (mappages_page k2 l OO); [apply P2|done|apply lookup_insert_eq|done|apply L2|done|lia|done]|].
  intros r k3 [(-> & l' & O' & HM & Hlen)|(_ & Hbad & _)]; [|lia]. apply wp_modify. exists l', O'.
  assert (P3 : pool_ok img k3 l' O') by (by eapply mapped_pool).
  pose proof (mp_dat _ _ _ _ _ _ _ _ _ _ HM) as Hd. change (vpn 0) with 0 in Hd. pose proof (vi_bytes _ _ _ (po_vm _ _ _ _ P3)) as Hb3.
  assert (Hout : forall x, ~ in_page c x -> memmove (km_mem k3) c src size x = km_mem k3 x).
  { intros x Hx. apply memmove_out; [done|]. unfold in_page in Hx. rewrite u32_small; unfold PG_SIZE in *; lia. }
  assert (P4 : pool_ok img (set_mem (fun m => memmove m c src size) k3) l' O').
  { eapply pool_write; [done|done|done|by apply memmove_ok|done]. }
  split_and!; [done|done| |done| |].
  - intros p ρ Hp. apply (mp_sub _ _ _ _ _ _ _ _ _ _ HM); [congruence|]. unfold OO. rewrite lookup_insert_ne; [done|congruence].
  - intros va. rewrite (leaf_frame k3 l' O' _ l' O' pt va (po_vm _ _ _ _ P3) (po_vm _ _ _ _ P4)); [|..|].
    + rewrite (mp_leaf _ _ _ _ _ _ _ _ _ _ HM) by done. rewrite kpage_addr_mask by done. change (vpn 0) with 0.
      destruct (decide (vpn va = 0)); [by rewrite decide_True|rewrite decide_False; naive_solver].
    + apply (mp_sub _ _ _ _ _ _ _ _ _ _ HM); done.
    + done.
    + intros p r n b x Hp Hx. apply Hout. intros Hin. assert (c = p) as <-; [|congruence].
      eapply in_page_disjoint; [apply Hc|by apply (vi_page _ _ _ (po_vm _ _ _ _ P3) _ _ Hp)|done|done].
  - intros i Hi. cbn [km_mem set_mem]. destruct (Z.ltb_spec i size) as [Hlt|Hge].
    + rewrite memmove_in; [|done|rewrite u32_small; unfold PG_SIZE in *; lia].
      rewrite (po_image _ _ _ _ P3) by lia. f_equal. lia.
    + rewrite memmove_out; [|done|rewrite u32_small; unfold PG_SIZE in *; lia].
      rewrite (mapped_page img _ _ _ _ _ _ _ _ _ _ c Other _ P2 HM); [|apply lookup_insert_eq|done|unfold in_page; lia].
      unfold k2. simpl. rewrite memset_in; [done|]. change (u32 PG_SIZE) with PG_SIZE. lia.
Qed.
(** * [userinit] *)

(** The trap frame the first process returns through. *)
Record first_frame (m : mem) (tf : Z) : Prop := {
  ff_pc : load64 m (tf + TF_PC) = 0;
  ff_sp : load64 m (tf + TF_SP) = PG_SIZE;
  ff_spsr : load64 m (tf + TF_SPSR) = 0;
  ff_x n : 0 <= n <= 30 -> load64 m (tf + TF_X n) = 0;
}.

Definition frame_stores (tf : Z) (m : mem) : mem :=
  store64 (store64 (store64 (store64 (memset m tf 0 TF_SIZE) (tf + TF_SPSR) 0) (tf + TF_SP) PROC_KSTACK_SIZE)
    (tf + TF_X 30) 0) (tf + TF_PC) 0.

Lemma first_frame_stores m tf : first_frame (frame_stores tf m) tf.
Proof.
  split; unfold frame_stores, TF_PC, TF_SP, TF_SPSR, TF_X.
  - by rewrite load64_store64_eq.
  - do 2 rewrite load64_store64_ne by lia. by rewrite load64_store64_eq.
  - do 3 rewrite load64_store64_ne by lia. by rewrite load64_store64_eq.
  - intros n Hn. rewrite load64_store64_ne by lia. destruct (decide (n = 30)) as [->|].
    { by rewrite load64_store64_eq. }
    rewrite !load64_store64_ne by lia. apply load64_zero. intros x Hx. apply memset_in.
    change (u32 TF_SIZE) with 272. lia.
Qed.

Lemma frame_stores_out m tf x : x < tf \/ tf + TF_SIZE <= x -> frame_stores tf m x = m x.
Proof.
  intros Hx. unfold frame_stores, TF_PC, TF_SP, TF_SPSR, TF_X, TF_SIZE in *. rewrite !store64_out by lia.
  apply memset_out. exact Hx.
Qed.

Lemma frame_stores_ok m tf : bytes_ok m -> bytes_ok (frame_stores tf m).
Proof. intros H. unfold frame_stores. by repeat apply store64_ok; apply memset_ok. Qed.

(** The user memory of the first process: its image, then zeros, for a page. *)
Lemma first_ubyte img k l O pt c src size va :
  vm_inv k l O -> O !! c = Some (Dat pt 0) ->
  (forall va, leaf (km_mem k) pt va = if decide (vpn va = 0) then Z.lor (V2P c) USER_4K_PAGE_RO else 0) ->
  first_page img (km_mem k) c src size -> 0 <= va ->
  ubyte (km_mem k) pt va = if va <? PG_SIZE then Some (if va <? size then img (src + va) else 0) else None.
Proof.
  intros HI Hc Hl Hf Hva. pose proof (vi_page _ _ _ HI _ _ Hc) as Hck. unfold ubyte, uaddr, upage.
  destruct (Z.ltb_spec va 0); [lia|]. destruct (Z.leb_spec MAXVA va) as [Hm|Hm].
  { destruct (Z.ltb_spec va PG_SIZE); [unfold MAXVA, PG_SIZE in *; lia|done]. }
  rewrite Hl. rewrite vpn_user by lia. destruct (Z.ltb_spec va PG_SIZE) as [Hlt|Hge].
  - rewrite (decide_True (P := va / PG_SIZE = 0)) by (apply Z.div_small; lia).
    assert (HL : pte_leaf (Z.lor (V2P c) USER_4K_PAGE_RO) c).
    { rewrite <- (kpage_addr_mask c) by done. by apply pte_leaf_make. }
    destruct HL as (_ & Ht & Hp). rewrite Ht, Z.eqb_refl. simpl. rewrite Hp.
    replace (Z.land (Z.lor (V2P c) USER_4K_PAGE_RO) AP_USER =? 0) with false.
    + rewrite Z.mod_small by lia. simpl. f_equal. rewrite kpage_P2V_V2P by done. by apply Hf.
    + symmetry. apply Z.eqb_neq. rewrite Z.land_lor_distr_l. intros [_ E]%Z.lor_eq_0_iff. done.
  - rewrite decide_False; [done|]. intros E. apply Z.div_small_iff in E; unfold PG_SIZE in *; lia.
Qed.

(** What [userinit] leaves: one process, ready to run the image at address 0
    in a memory of its own, in the root directory. *)
Record first_process (img : mem) (s : kernel) : Prop := {
  fp_init : k_initproc s = Some 0%nat;
  fp_state : p_state (k_procs s 0%nat) = RUNNABLE;
  fp_pid : p_pid (k_procs s 0%nat) = 1;
  fp_size : p_size (k_procs s 0%nat) = PG_SIZE;
  fp_frame : first_frame (km_mem (k_km s)) (p_trapframe (k_procs s 0%nat));
  fp_user va : 0 <= va -> ubyte (km_mem (k_km s)) (p_pagetable (k_procs s 0%nat)) va =
    if va <? PG_SIZE
    then Some (if va <? initcode_size then img (u64 (eentry + initcode_start + KERN_BASE) + va) else 0)
    else None;
  fp_cwd : exists i, p_cwd (k_procs s 0%nat) = Some i /\ entry_for (k_itable s) ROOTDEV ROOTINO i;
}.

Lemma namei_root s Q :
  (exists i, (i < NINODE)%nat /\ i_ref (k_itable s i) = 0) -> (forall i, 0 <= i_ref (k_itable s i)) ->
  (forall i t, entry_for t ROOTDEV ROOTINO i -> Q (Some i) (set_k_itable t s)) ->
  wp (namei [ch_slash]) s Q.
Proof.
  intros (i0 & Hi0 & Hr0) Hpos HQ. unfold namei, load_mem. apply wp_bind, wp_gets, wp_bind. unfold namex.
  rewrite bool_decide_true by done. apply wp_bind, iget_ok; [exists i0; auto|]. intros i s' [Hi [t ->] _ He].
  cbn [length Nat.add]. cbn [loop]. apply wp_bind. unfold namex_body. change (skipelem [ch_slash] _) with (@None (list Z * list Z)).
  apply wp_ret, wp_ret, wp_ret, HQ. pose proof (Hpos i). simpl in He. unfold entry_for in *.
  destruct He as [[(? & ? & ?) ->]|(? & _ & ->)]; simpl; split_and!; done || lia.
Qed.

(** The stores into the trap frame change nothing but the kernel stack. *)
Lemma frame_stores_frame img k l O ks pt c src size :
  pool_ok img k l O -> O !! ks = Some Other -> O !! c = Some (Dat pt 0) -> O !! pt = Some (Tab pt 0 0) ->
  let k' := set_mem (frame_stores (ks + PG_SIZE - TF_SIZE)) k in
  pool_ok img k' l O /\ (forall va, leaf (km_mem k') pt va = leaf (km_mem k) pt va) /\
  (first_page img (km_mem k) c src size -> first_page img (km_mem k') c src size).
Proof.
  intros HP Hks Hc Hpt k'. pose proof (po_vm _ _ _ _ HP) as HI.
  assert (Hout : forall x, ~ in_page ks x -> km_mem k' x = km_mem k x).
  { intros x Hx. unfold k'. simpl. apply frame_stores_out. unfold in_page, PG_SIZE, TF_SIZE in *. lia. }
  assert (Hno : forall p ρ x, O !! p = Some ρ -> ρ <> Other -> in_page p x -> ~ in_page ks x).
  { intros p ρ x Hp Hne Hx Hin. assert (ks = p) as <-; [|congruence].
    eapply in_page_disjoint; [by apply (vi_page _ _ _ HI _ _ Hks)|by apply (vi_page _ _ _ HI _ _ Hp)|done|done]. }
  assert (HP' : pool_ok img k' l O).
  { eapply pool_write; [done|exact Hks|done|apply frame_stores_ok, (vi_bytes _ _ _ HI)|exact Hout]. }
  split_and!; [done| |].
  - intros va. apply (leaf_frame k l O k' l O); [done|apply HP'|done|done|].
    intros p r n b x Hp Hx. by apply Hout, (Hno p (Tab r n b)).
  - intros Hf i Hi. rewrite Hout; [by apply Hf|]. apply (Hno c (Dat pt 0)); [done|done|unfold in_page; lia].
Qed.

Lemma wp_tf_set p off v s tf Q :
  p_trapframe (k_procs s p) = tf ->
  Q tt (set_k_km (set_mem (fun m => store64 m (tf + off) v) (k_km s)) s) -> wp (tf_set p off v) s Q.
Proof. intros <- HQ. unfold tf_set, the_proc. by apply wp_bind, wp_gets, wp_vm, wp_modify. Qed.

Lemma userinit_ok img s ks pt c l O :
  pool_ok img (k_km s) (ks :: pt :: c :: l) O -> (3 <= length l)%nat ->
  p_state (k_procs s 0%nat) = UNUSED -> k_nextpid s = 1 ->
  0 <= initcode_size <= PG_SIZE -> u64 (eentry + initcode_start + KERN_BASE) + initcode_size <= kend ->
  (exists i, (i < NINODE)%nat /\ i_ref (k_itable s i) = 0) -> (forall i, 0 <= i_ref (k_itable s i)) ->
  wp userinit s (fun _ s' => first_process img s' /\ (exists l' O', pool_ok img (k_km s') l' O') /\
    (forall p, p <> 0%nat -> k_procs s' p = k_procs s p) /\ k_ls s' = k_ls s /\ k_intrs s' = k_intrs s).
Proof.
  intros HP Hl Hun Hpid Hsz Hsrc Hfree Hpos. unfold userinit. apply wp_bind.
  eapply wp_mono; [by apply allocproc_ok|]. intros ? s1 (-> & k & q & E1 & Hp1 & Hq & Q1 & Q2 & Q3 & _ & P1 & L1).
  apply wp_bind, wp_modify, wp_bind. unfold the_proc at 1. apply wp_gets.
  cbn [k_procs set_k_initproc]. rewrite Hq, Q2, Q3. apply wp_bind, wp_vm.
  assert (Hkm : k_km s1 = k) by (by rewrite E1). cbn [k_km set_k_initproc]. rewrite Hkm.
  assert (Npt : pt <> ks).
  { pose proof (ki_nodup _ _ _ (vi_kmem _ _ _ (po_vm _ _ _ _ HP))) as [Hne _]%NoDup_cons. set_solver. }
  eapply wp_mono; [apply (uvmfirst_ok img k c l _ pt _ _ P1); [apply lookup_insert_eq|done..]|].
  intros [] k2 (l2 & O2 & P2 & _ & Hsub & Hc & L2 & F2).
  assert (Hks : O2 !! ks = Some Other).
  { apply Hsub. rewrite lookup_insert_ne by done. apply lookup_insert_eq. }
  assert (Hpt : O2 !! pt = Some (Tab pt 0 0)) by (apply Hsub, lookup_insert_eq).
  destruct (frame_stores_frame img k2 l2 O2 ks pt c (u64 (eentry + initcode_start + KERN_BASE)) initcode_size P2 Hks Hc Hpt)
    as (P3 & L3 & F3). specialize (F3 F2).
  apply wp_bind, wp_modify. set (s2 := set_proc 0 _ _). assert (T2 : p_trapframe (k_procs s2 0%nat) = ks + PG_SIZE - TF_SIZE).
  { unfold s2, set_proc. cbn. rewrite upd_eq. cbn. by rewrite Hq. }
  apply wp_bind, wp_vm, wp_modify. do 4 (apply wp_bind, (wp_tf_set _ _ _ _ (ks + PG_SIZE - TF_SIZE)); [exact T2|]).
  apply wp_bind, wp_modify. set (s3 := set_k_km _ _).
  assert (E3 : k_km s3 = set_mem (frame_stores (ks + PG_SIZE - TF_SIZE)) k2) by done.
  assert (Eit : k_itable s1 = k_itable s) by (by rewrite E1). assert (Els : k_ls s1 = k_ls s) by (by rewrite E1).
  assert (Ein : k_intrs s1 = k_intrs s) by (by rewrite E1).
  apply wp_bind, namei_root; [cbn; by rewrite Eit..|]. intros i tab Hi. apply wp_bind, wp_modify, wp_modify.
  split_and!; [split| | |done|done].
  all: cbn [k_initproc k_procs k_km k_itable set_proc set_k_procs set_k_itable set_k_km set_k_initproc s3 s2]; rewrite ?upd_eq; cbn; rewrite ?Hq; try done.
  - rewrite Q3. apply first_frame_stores.
  - intros va Hva. rewrite Q2.
    apply (first_ubyte img (set_mem (frame_stores (ks + PG_SIZE - TF_SIZE)) k2) l2 O2 pt c); [apply P3|done| |exact F3|done].
    intros va'. by rewrite L3.
  - by exists i.
  - by exists l2, O2.
  - intros p Hp. rewrite !upd_ne by done. by apply Hp1.
Qed.
End process.

(** * From the cleared data to the scheduler *)

Section start.
Context `{KE : KernelEnd, PL : Platform} {UR : UartReady} {DP : DiskPresent}.

(** The kernel's data as the loader and the clearing leave it. *)
Record cleared (s : kernel) : Prop := {
  cl_bytes : bytes_ok (km_mem (k_km s));
  cl_freelist : km_freelist (k_km s) = 0;
  cl_itable i : i_ref (k_itable s i) = 0;
  cl_bufs b : b_valid (bufs (ls_bio (k_ls s)) b) = 0 /\ b_dev (bufs (ls_bio (k_ls s)) b) = 0 /\
    b_refcnt (bufs (ls_bio (k_ls s)) b) = 0;
  cl_nextpid : k_nextpid s = 1;
  cl_panicked : k_panicked s = -1;
  cl_io : not_ready (k_io s);
}.

Record booted (s s' : kernel) : Prop := {
  bt_first : first_process (km_mem (k_km s)) s';
  bt_unused p : (0 < p < NPROC)%nat -> p_state (k_procs s' p) = UNUSED;
  bt_memory : exists l O, vm_inv (k_km s') l O;
  bt_cache : exists order, bio_rep (ls_bio (k_ls s'))
    (ABio (disk (ls_bio (k_ls s))) (disk (ls_bio (k_ls s))) ∅ ∅) order;
  bt_timer : k_intrs s' !! 30%nat = Some Timerintr;
  bt_uart : k_intrs s' !! 33%nat = Some Uartintr;
  bt_disk : k_intrs s' !! 48%nat = Some Virtio_disk_intr;
}.

Lemma iinit_loop_ok n i s :
  wp (iinit_loop n i) s (fun _ s' => exists t, s' = set_k_itable t s /\ forall j, i_ref (t j) = i_ref (k_itable s j)).
Proof.
  revert i s. induction n as [|n IH]; intros i s; simpl.
  - apply wp_ret. exists (k_itable s). by destruct s.
  - apply wp_bind, wp_modify. eapply wp_mono; [apply IH|]. intros [] s' (t & -> & Ht). exists t. split; [done|].
    intros j. rewrite Ht. simpl. by apply (upd_same i_ref).
Qed.

Lemma procinit_ok s :
  wp procinit s (fun _ s' => with_procs s (fun p =>
    if decide (p < NPROC)%nat then set_p_state UNUSED (k_procs s p) else k_procs s p) s').
Proof.
  eapply wp_mono; [apply (for_procs_ok _ (fun _ => set_p_state UNUSED) NPROC 0 s (fun _ => True)); [|done]|].
  - intros q s1 _. apply wp_modify. split; [done|]. by eexists.
  - intros [] s' [_ H]. eapply with_procs_ext; [exact H|]. intros p. simpl. repeat case_decide; done || lia.
Qed.

Lemma intrset_ok id h s :
  0 <= id < 64 -> wp (intrset id h) s (fun _ s' => s' = set_k_intrs (<[Z.to_nat id := h]> (k_intrs s)) s).
Proof.
  intros H. unfold intrset, when. rewrite (proj2 (Z.ltb_lt id 64)), (proj2 (Z.leb_le 0 id)) by lia. by apply wp_modify.
Qed.

(** The interrupt handlers [gicinit] to [timerset] register. *)
Definition handlers : list handler := <[30%nat := Timerintr]> (<[33%nat := Uartintr]> (replicate 64 Defintr)).

Lemma start_interrupts vectors (m : M kernel unit) s Q :
  (forall s', same_core s s' -> k_intrs s' = handlers -> wp m s' Q) ->
  wp (lvbar vectors;; gicinit;; gichartinit;; uartsti;; timerinit;; timerset;; m) s Q.
Proof.
  intros HQ. apply wp_bind, wp_wr, wp_bind, wp_modify. set (s1 := set_k_intrs _ _).
  assert (C1 : same_core s s1) by (split; try done; by apply not_ready_wr).
  apply wp_bind. eapply wp_mono; [apply gichartinit_dev|]. intros [] s2 [C2 I2].
  unfold uartsti. apply wp_bind, wp_bind, wp_wr. eapply wp_mono; [by apply intrset_ok|]. intros [] ? ->.
  unfold timerinit. apply wp_bind, wp_bind. eapply wp_mono; [by apply intrset_ok|]. intros [] ? ->. apply wp_modify.
  set (s3 := set_k_ticks 0 _). assert (C3 : same_core s2 s3) by (split; try done; by apply not_ready_wr).
  apply wp_bind. eapply wp_mono; [apply timerset_dev|]. intros [] s4 [C4 I4].
  apply HQ; [do 3 (etrans; [done|]); done|]. rewrite I4. unfold s3. cbn. rewrite I2. done.
Qed.

(** C9: Booting works.  From cleared data, with nine pages of room behind the
    kernel, a serial port that drains and a disk that answers as the driver
    expects, the first CPU comes to its scheduler: no panic, the page
    allocator and the tables in order, an empty buffer cache over the disk,
    the three interrupt handlers registered, and one process, RUNNABLE, whose
    memory is the initial image followed by zeros, with its program counter at
    0, its stack pointer at the end of the page and the root directory as its
    working directory. *)
Theorem start_boots vectors s :
  cleared s -> cpuid = 0 -> kend + 10 * PG_SIZE <= KERN_BASE + PHY_STOP ->
  0 <= initcode_size <= PG_SIZE -> u64 (eentry + initcode_start + KERN_BASE) + initcode_size <= kend ->
  wp (start vectors) s (fun _ s' => booted s s').
Proof.
  intros [Hb Hf Hi Hbuf Hpid Hpan Hio] Hcpu Hroom Hsz Hsrc. unfold start. rewrite Hcpu, Z.eqb_refl. unfold start_first.
  apply wp_bind. eapply wp_mono; [apply printfinit_dev|]. intros [] s1 [C1 _].
  apply wp_bind. eapply wp_mono; [apply consoleinit_dev|]. intros [] s2 [C2 _].
  assert (C12 : same_core s s2) by (by etrans). clear C1 C2.
  apply wp_bind. eapply wp_mono; [apply says_dev; [by apply vprintf_says|left; rewrite (sc_panicked _ _ C12); lia]|].
  intros [] s3 [C3 _]. assert (C : same_core s s3) by (by etrans). clear C12 C3.
  apply wp_bind, wp_vm. rewrite (sc_km _ _ C). eapply wp_mono; [apply (kinit_pool 9); done|].
  intros [] k (l & Hl & HP). apply start_interrupts. intros s4 C4 I4.
  apply wp_bind, wp_fl, wp_zoom. rewrite (sc_ls _ _ C4). cbn [k_ls set_k_km]. rewrite (sc_ls _ _ C).
  eapply wp_mono; [by apply binit_ok|]. intros [] bio (order & Hbio & _).
  apply wp_bind. eapply wp_mono; [apply iinit_loop_ok|]. intros [] s5 (t & -> & Ht). cbn [k_itable set_k_ls] in Ht.
  rewrite (sc_itable _ _ C4) in Ht. cbn [k_itable set_k_km] in Ht. rewrite (sc_itable _ _ C) in Ht.
  destruct l as [|a [|b [|c [|ks [|pt [|u l]]]]]]; simpl in Hl; try lia.
  apply wp_bind. eapply wp_mono; [apply (virtio_disk_init_ok (km_mem (k_km s)) _ a b c (ks :: pt :: u :: l) ∅)|].
  { cbn. by rewrite (sc_km _ _ C4). }
  { cbn. apply (sc_ready _ _ C4). cbn. by apply (sc_ready _ _ C). }
  intros r s6 (_ & k6 & P6 & _ & E1 & E2 & E3 & E4 & E5 & E6 & _ & E8). cbn in E2, E3, E6, E8.
  apply wp_bind. eapply wp_mono; [apply procinit_ok|]. intros [] s7 (pr & -> & Hpr).
  assert (Hid : k_nextpid s6 = 1).
  { rewrite E6. cbn. rewrite (sc_nextpid _ _ C4). cbn. by rewrite (sc_nextpid _ _ C). }
  eapply wp_mono; [apply (userinit_ok (km_mem (k_km s)) _ ks pt u l (others [c; b; a] ∅)); cbn|].
  - by rewrite E1.
  - lia.
  - by rewrite Hpr.
  - done.
  - done.
  - done.
  - exists 0%nat. rewrite E3. split; [unfold NINODE; lia|]. by rewrite Ht.
  - intros i. rewrite E3, Ht, Hi. lia.
  - intros [] s8 (H1 & (l' & O' & [H2 _]) & H3 & H4 & H5). cbn in H3, H4, H5. rewrite E8 in H5. split; [done|..].
    + intros p Hp. rewrite H3, Hpr, decide_True by lia. done.
    + by exists l', O'.
    + exists order. by rewrite H4, E2.
    + by rewrite H5, I4.
    + by rewrite H5, I4.
    + by rewrite H5, I4.
Qed.
End start.

(** * A machine that boots *)

(** A disk that shows the identification the driver looks for and keeps what
    is written to its status register. *)
Definition boot_io (io : list ioevent) (a : Z) : Z :=
  if a =? VR VIRTIO_MMIO_MAGIC_VALUE then 0x74726976
  else if a =? VR VIRTIO_MMIO_VERSION then 2
  else if a =? VR VIRTIO_MMIO_DEVICE_ID then 2
  else if a =? VR VIRTIO_MMIO_VENDOR_ID then 0x554d4551
  else if a =? VR VIRTIO_MMIO_QUEUE_NUM_MAX then 1024
  else if a =? VR VIRTIO_MMIO_STATUS then
    match io with Wr b v :: _ => if b =? a then v else 0 | _ => 0 end
  else 0.

Definition boot_platform : Platform := {|
  bufaddr b := buf_ex + 1024 * (Z.of_nat b + 1);
  klocal := buf_ex;
  trapret := KERN_BASE + 0x40041000; forkret_addr := KERN_BASE + 0x40042000;
  eentry := 0x40000000; initcode_start := 0x1000; initcode_size := 52;
  cpuid := 0;
  io_read := boot_io;
  polls := 1;
|}.

Lemma land_u32_8 v : Z.land (u32 v) 8 = Z.land v 8.
Proof.
  unfold u32. apply Z.bits_inj'. intros n Hn. rewrite !Z.land_spec. destruct (decide (n < 32)).
  - by rewrite Z.mod_pow2_bits_low by lia.
  - rewrite (Z.bits_above_log2 8 n) by (simpl; lia). by rewrite !andb_false_r.
Qed.

Lemma boot_disk : @DiskPresent boot_platform.
Proof.
  split; try done. intros io v. change VIRTIO_CONFIG_S_FEATURES_OK with 8. unfold io_read, boot_platform, boot_io.
  change (VR VIRTIO_MMIO_STATUS =? VR VIRTIO_MMIO_STATUS) with true. cbn match. by rewrite land_u32_8.
Qed.

Lemma boot_uart : @UartReady boot_platform.
Proof. intros io. exists 0%nat. split; [simpl; lia|done]. Qed.

Definition boot_kernel : kernel :=
  Kernel (boot_state disk_ex 0 (log_ex 0 [])) sb_zero (fun _ => inode_zero) (Kmem (fun _ => 0) 0) (fun _ => proc_zero)
    None 1 None 1 (fun _ => file_zero) (fun _ => Devsw None None) (fun _ => pipe_zero)
    (Cons (replicate 128 0) 0 0 0) (UartTx (replicate 32 0) 0 0) [] (-1) 0 0 0 (replicate 64 Defintr).

Lemma start_boots_witness :
  wp (@start kernel_ex boot_platform 0) boot_kernel (fun _ s' => @booted kernel_ex boot_platform boot_kernel s').
Proof.
  apply (@start_boots kernel_ex boot_platform boot_uart boot_disk).
  - split; try done. intros v. apply not_elem_of_nil.
  - reflexivity.
  - by vm_compute.
  - by vm_compute.
  - by vm_compute.
Defined.
