(* ===== verification/Arm.v ===== *)
(** The part of AArch64 that the assembly files of the kernel and of the user
    library use: general registers, stack pointers, system registers and the
    instructions that move words between them and memory.

    Memory is seen through virtual addresses.  An instruction sequence is run
    as a whole: the program counter is kept only where control leaves it, at
    branches to C code, at exceptions and at their return.  [SP] is the stack
    pointer of the current exception level; the kernel runs at EL1 with its
    own.  Accesses are not checked for alignment. *)

From stdpp Require Import functions.
From S2P Require Import Prelude CString.

Inductive reg : Type := X (n : nat) | SP.

#[export] Instance reg_eq_dec : EqDecision reg.
Proof. solve_decision. Defined.

Inductive sysreg : Type :=
  | CurrentEL | ESR_EL1 | ELR_EL1 | SPSR_EL1 | SP_EL0
  | ELR_EL2 | SPSR_EL2 | HCR_EL2 | ELR_EL3 | SPSR_EL3 | SCR_EL3
  | SCTLR_EL1 | TCR_EL1 | MAIR_EL1 | TTBR0_EL1 | TTBR1_EL1 | MPIDR_EL1.

#[export] Instance sysreg_eq_dec : EqDecision sysreg.
Proof. solve_decision. Defined.

(** [c_sp0] and [c_sp1] are the stack pointers of EL0 and EL1. *)
Record cpu : Type := mk_cpu {
  c_x : nat -> Z;
  c_sp0 : Z;
  c_sp1 : Z;
  c_sys : sysreg -> Z;
  c_pstate : Z;
  c_pc : Z;
  c_mem : mem;
}.

Definition c_el (c : cpu) : Z := Z.land (Z.shiftr (c_pstate c) 2) 3.

Definition set_x (f : (nat -> Z) -> nat -> Z) (c : cpu) : cpu :=
  mk_cpu (f (c_x c)) (c_sp0 c) (c_sp1 c) (c_sys c) (c_pstate c) (c_pc c) (c_mem c).
Definition set_sp0 (v : Z) (c : cpu) : cpu :=
  mk_cpu (c_x c) v (c_sp1 c) (c_sys c) (c_pstate c) (c_pc c) (c_mem c).
Definition set_sp1 (v : Z) (c : cpu) : cpu :=
  mk_cpu (c_x c) (c_sp0 c) v (c_sys c) (c_pstate c) (c_pc c) (c_mem c).
Definition set_sys (r : sysreg) (v : Z) (c : cpu) : cpu :=
  mk_cpu (c_x c) (c_sp0 c) (c_sp1 c) (<[r := v]> (c_sys c)) (c_pstate c) (c_pc c) (c_mem c).
Definition set_pstate (v : Z) (c : cpu) : cpu :=
  mk_cpu (c_x c) (c_sp0 c) (c_sp1 c) (c_sys c) v (c_pc c) (c_mem c).
Definition set_pc (v : Z) (c : cpu) : cpu :=
  mk_cpu (c_x c) (c_sp0 c) (c_sp1 c) (c_sys c) (c_pstate c) v (c_mem c).
Definition set_cmem (f : mem -> mem) (c : cpu) : cpu :=
  mk_cpu (c_x c) (c_sp0 c) (c_sp1 c) (c_sys c) (c_pstate c) (c_pc c) (f (c_mem c)).

Definition get_reg (r : reg) (c : cpu) : Z :=
  match r with
  | X n => c_x c n
  | SP => if c_el c =? 0 then c_sp0 c else c_sp1 c
  end.

Definition set_reg (r : reg) (v : Z) (c : cpu) : cpu :=
  match r with
  | X n => set_x (<[n := v]>) c
  | SP => if c_el c =? 0 then set_sp0 v c else set_sp1 v c
  end.

Inductive operand : Type := Imm (v : Z) | Reg (r : reg).

(** [[r, #off]], [[r, #off]!] and [[r], #off]. *)
Inductive address : Type := Off (r : reg) (off : Z) | Pre (r : reg) (off : Z) | Post (r : reg) (off : Z).

Inductive instr : Type :=
  | MOV (d : reg) (o : operand)
  | ADD (d a : reg) (o : operand)
  | SUB (d a : reg) (o : operand)
  | MUL (d a : reg) (o : operand)
  | AND (d a : reg) (o : operand)
  | ORR (d a : reg) (o : operand)
  | LSR (d a : reg) (o : operand)
  | STR (a : reg) (p : address)
  | LDR (a : reg) (p : address)
  | STP (a b : reg) (p : address)
  | LDP (a b : reg) (p : address)
  | MRS (d : reg) (s : sysreg)
  | MSR (s : sysreg) (a : reg).

Definition val (o : operand) (c : cpu) : Z :=
  match o with Imm v => v | Reg r => get_reg r c end.

(** The address of an access, and the write-back to the base register. *)
Definition target (p : address) (c : cpu) : Z :=
  match p with
  | Off r off | Pre r off => u64 (get_reg r c + off)
  | Post r off => get_reg r c
  end.

Definition writeback (p : address) (base : Z) (c : cpu) : cpu :=
  match p with
  | Off r off => c
  | Pre r off | Post r off => set_reg r (u64 (base + off)) c
  end.

Definition base_of (p : address) (c : cpu) : Z :=
  match p with Off r _ | Pre r _ | Post r _ => get_reg r c end.

Definition op2 (f : Z -> Z -> Z) (d a : reg) (o : operand) (c : cpu) : cpu :=
  set_reg d (u64 (f (get_reg a c) (val o c))) c.

Definition exec1 (i : instr) (c : cpu) : cpu :=
  match i with
  | MOV d o => set_reg d (val o c) c
  | ADD d a o => op2 Z.add d a o c
  | SUB d a o => op2 Z.sub d a o c
  | MUL d a o => op2 Z.mul d a o c
  | AND d a o => op2 Z.land d a o c
  | ORR d a o => op2 Z.lor d a o c
  | LSR d a o => op2 Z.shiftr d a o c
  | STR a p => writeback p (base_of p c) (set_cmem (fun m => store64 m (target p c) (get_reg a c)) c)
  | LDR a p => writeback p (base_of p c) (set_reg a (load64 (c_mem c) (target p c)) c)
  | STP a b p =>
      writeback p (base_of p c)
        (set_cmem (fun m => store64 (store64 m (target p c) (get_reg a c)) (u64 (target p c + 8)) (get_reg b c)) c)
  | LDP a b p =>
      writeback p (base_of p c)
        (set_reg b (load64 (c_mem c) (u64 (target p c + 8))) (set_reg a (load64 (c_mem c) (target p c)) c))
  | MRS d s => set_reg d (match s with SP_EL0 => c_sp0 c | CurrentEL => Z.shiftl (c_el c) 2 | _ => c_sys c s end) c
  | MSR s a => match s with SP_EL0 => set_sp0 (get_reg a c) c | _ => set_sys s (get_reg a c) c end
  end.

Definition exec (l : list instr) (c : cpu) : cpu := foldl (fun c i => exec1 i c) c l.

(** An exception taken to EL1, with its syndrome and its return address, and
    the return from it. *)
Definition EL1h_masked : Z := 0x3c5.

Definition take_exception (esr ret : Z) (c : cpu) : cpu :=
  set_pstate (Z.lor (Z.land (c_pstate c) 0xf0000000) EL1h_masked)
    (set_sys SPSR_EL1 (c_pstate c) (set_sys ELR_EL1 ret (set_sys ESR_EL1 esr c))).

Definition eret_with (elr spsr : sysreg) (c : cpu) : cpu := set_pc (c_sys c elr) (set_pstate (c_sys c spsr) c).

Definition eret : cpu -> cpu := eret_with ELR_EL1 SPSR_EL1.

(** The registers hold 64-bit words, the memory bytes. *)
Record words_ok (c : cpu) : Prop := {
  wo_x : forall i, 0 <= c_x c i < 2 ^ 64;
  wo_sp0 : 0 <= c_sp0 c < 2 ^ 64;
  wo_sp1 : 0 <= c_sp1 c < 2 ^ 64;
  wo_sys : forall r, 0 <= c_sys c r < 2 ^ 64;
  wo_mem : bytes_ok (c_mem c);
}.

Lemma exception_el esr ret c : c_el (take_exception esr ret c) = 1.
Proof.
  unfold c_el, take_exception, EL1h_masked. cbn [c_pstate set_pstate set_sys].
  rewrite Z.shiftr_lor, Z.shiftr_land, Z.land_lor_distr_l, <- Z.land_assoc. change (Z.land (0xf0000000 ≫ 2) 3) with 0.
  by rewrite Z.land_0_r.
Qed.

Lemma exception_ok esr ret c :
  words_ok c -> 0 <= c_pstate c < 2 ^ 64 -> 0 <= esr < 2 ^ 64 -> 0 <= ret < 2 ^ 64 -> words_ok (take_exception esr ret c).
Proof.
  intros [W1 W2 W3 W4 W5] Hp He Hr. split; [done..| |done]. intros r. cbn [take_exception set_pstate set_sys c_sys].
  destruct (decide (r = SPSR_EL1)) as [->|]; [by rewrite fn_lookup_insert|]. rewrite fn_lookup_insert_ne by done.
  destruct (decide (r = ELR_EL1)) as [->|]; [by rewrite fn_lookup_insert|]. rewrite fn_lookup_insert_ne by done.
  destruct (decide (r = ESR_EL1)) as [->|]; [by rewrite fn_lookup_insert|]. by rewrite fn_lookup_insert_ne.
Qed.

(** What is not a register of the current level. *)
Definition same_rest (c c' : cpu) : Prop :=
  c_pstate c' = c_pstate c /\ c_sys c' = c_sys c /\ c_pc c' = c_pc c /\
  (if c_el c =? 0 then c_sp1 c' = c_sp1 c else c_sp0 c' = c_sp0 c).

Lemma same_rest_el c c' : same_rest c c' -> c_el c' = c_el c.
Proof. unfold c_el. by intros (-> & _). Qed.

Lemma same_rest_refl c : same_rest c c.
Proof. unfold same_rest. by destruct (_ =? 0). Qed.

Lemma same_rest_trans c1 c2 c3 : same_rest c1 c2 -> same_rest c2 c3 -> same_rest c1 c3.
Proof.
  intros H H'. pose proof (same_rest_el _ _ H) as E. destruct H as (? & ? & ? & ?), H' as (? & ? & ? & ?).
  unfold same_rest in *. rewrite E in *. destruct (_ =? 0); split_and!; congruence.
Qed.

Lemma get_set_eq r v c : get_reg r (set_reg r v c) = v.
Proof.
  destruct r as [n|]; simpl; [apply fn_lookup_insert|]. destruct (c_el c =? 0) eqn:E; unfold c_el in *; simpl; by rewrite E.
Qed.

Lemma get_set_ne r r' v c : r <> r' -> get_reg r' (set_reg r v c) = get_reg r' c.
Proof.
  intros Hne. destruct r as [n|], r' as [n'|]; simpl; [|done| |done].
  - apply fn_lookup_insert_ne. congruence.
  - by destruct (c_el c =? 0).
Qed.

Lemma set_reg_rest r v c : same_rest c (set_reg r v c).
Proof. unfold same_rest. destruct r; simpl; [by destruct (_ =? 0)|]. by destruct (c_el c =? 0). Qed.

Lemma set_cmem_rest f c : same_rest c (set_cmem f c).
Proof. unfold same_rest. simpl. by destruct (_ =? 0). Qed.

Lemma set_reg_mem r v c : c_mem (set_reg r v c) = c_mem c.
Proof. destruct r; simpl; [done|]. by destruct (_ =? 0). Qed.

Lemma get_set_cmem r f c : get_reg r (set_cmem f c) = get_reg r c.
Proof. by destruct r. Qed.

(** Pushing the pairs [x(lo), x(lo+1)], ... below the address in [b], the last
    pair first; and loading them again. *)
Definition pushes (b : reg) (lo n : nat) : list instr :=
  (fun i => STP (X (lo + 2 * i)) (X (lo + 2 * i + 1)) (Pre b (-16))) <$> rev (seq 0 n).

Definition pops (b : nat) (lo n : nat) : list instr :=
  (fun i => LDP (X (lo + 2 * i)) (X (lo + 2 * i + 1)) (Post (X b) 16)) <$> seq 0 n.

Fixpoint push_mem (x : nat -> Z) (lo n : nat) (top : Z) (m : mem) : mem :=
  match n with
  | O => m
  | S n' =>
      push_mem x lo n' (top - 16)
        (store64 (store64 m (top - 16) (x (lo + 2 * n')%nat)) (top - 8) (x (lo + 2 * n' + 1)%nat))
  end.

Lemma pushes_S b lo n : pushes b lo (S n) = STP (X (lo + 2 * n)) (X (lo + 2 * n + 1)) (Pre b (-16)) :: pushes b lo n.
Proof. unfold pushes. rewrite seq_S, rev_app_distr. done. Qed.

Lemma push_mem_ext x x' lo n top m :
  (forall i, (lo <= i < lo + 2 * n)%nat -> x i = x' i) -> push_mem x lo n top m = push_mem x' lo n top m.
Proof.
  revert top m. induction n as [|n IH]; intros top m H; simpl; [done|]. rewrite !H by lia. apply IH. intros. apply H. lia.
Qed.

Lemma push_mem_out x lo n top m a : a < top - 16 * Z.of_nat n \/ top <= a -> push_mem x lo n top m a = m a.
Proof.
  revert top m. induction n as [|n IH]; intros top m H; simpl; [done|]. rewrite IH by lia. rewrite !store64_out by lia. done.
Qed.

Lemma push_mem_word x lo n top m j :
  (j < 2 * n)%nat -> (forall i, 0 <= x i < 2 ^ 64) ->
  load64 (push_mem x lo n top m) (top - 16 * Z.of_nat n + 8 * Z.of_nat j) = x (lo + j)%nat.
Proof.
  intros Hj Hx. revert top m. induction n as [|n IH]; intros top m; [lia|]. cbn [push_mem].
  replace (top - 16 * Z.of_nat (S n)) with (top - 16 - 16 * Z.of_nat n) by lia.
  destruct (decide (j < 2 * n)%nat) as [Hlt|Hge]; [by apply IH|].
  erewrite load64_ext by (intros a Ha; apply push_mem_out; lia).
  assert (j = 2 * n \/ j = 2 * n + 1)%nat as [-> | ->] by lia.
  - rewrite load64_store64_ne by lia. replace (_ + 8 * _) with (top - 16) by lia.
    rewrite load64_store64_eq. unfold u64. by rewrite Z.mod_small.
  - replace (_ + 8 * _) with (top - 8) by lia. rewrite load64_store64_eq. unfold u64. rewrite Z.mod_small by done. f_equal. lia.
Qed.

Lemma push_mem_ok x lo n top m : bytes_ok m -> bytes_ok (push_mem x lo n top m).
Proof. revert top m. induction n as [|n IH]; intros top m H; simpl; [done|]. by apply IH, store64_ok, store64_ok. Qed.

Lemma exec_cons i l c : exec (i :: l) c = exec l (exec1 i c).
Proof. done. Qed.

Lemma exec_app l1 l2 c : exec (l1 ++ l2) c = exec l2 (exec l1 c).
Proof. apply foldl_app. Qed.

(** One push. *)
Lemma exec_stp_pre a b r c :
  16 <= get_reg r c < 2 ^ 64 -> X a <> r -> X b <> r ->
  let c' := exec1 (STP (X a) (X b) (Pre r (-16))) c in
  get_reg r c' = get_reg r c - 16 /\ (forall r', r' <> r -> get_reg r' c' = get_reg r' c) /\
  c_mem c' = store64 (store64 (c_mem c) (get_reg r c - 16) (c_x c a)) (get_reg r c - 8) (c_x c b) /\ same_rest c c'.
Proof.
  intros Hr Ha Hb c'. subst c'. cbn [exec1 writeback base_of target]. rewrite get_set_eq.
  rewrite !(u64_small (_ + -16)) by lia. split_and!.
  - lia.
  - intros r' Hne. rewrite get_set_ne by done. apply get_set_cmem.
  - rewrite set_reg_mem. cbn [set_cmem c_mem get_reg]. rewrite u64_small by lia. do 2 f_equal; lia.
  - eapply same_rest_trans; [apply set_cmem_rest|apply set_reg_rest].
Qed.

Lemma exec_pushes r lo n c :
  16 * Z.of_nat n <= get_reg r c < 2 ^ 64 -> (forall i, (lo <= i < lo + 2 * n)%nat -> X i <> r) ->
  let c' := exec (pushes r lo n) c in
  get_reg r c' = get_reg r c - 16 * Z.of_nat n /\ (forall r', r' <> r -> get_reg r' c' = get_reg r' c) /\
  c_mem c' = push_mem (c_x c) lo n (get_reg r c) (c_mem c) /\ same_rest c c'.
Proof.
  revert c. induction n as [|n IH]; intros c Hr Hn c'.
  - subst c'. simpl. split_and!; [lia|done|done|apply same_rest_refl].
  - subst c'. rewrite pushes_S, exec_cons.
    destruct (exec_stp_pre (lo + 2 * n) (lo + 2 * n + 1) r c) as (A1 & A2 & A3 & A4); [lia|apply Hn; lia|apply Hn; lia|].
    set (c1 := exec1 _ c) in *. destruct (IH c1) as (B1 & B2 & B3 & B4); [lia|intros; apply Hn; lia|].
    split_and!.
    + rewrite B1. lia.
    + intros r' Hne. by rewrite B2, A2.
    + rewrite B3, A3, A1. cbn [push_mem]. apply push_mem_ext. intros i Hi. apply (A2 (X i)). apply Hn. lia.
    + by eapply same_rest_trans.
Qed.

(** One load of a pair. *)
Lemma exec_ldp_post a b r c :
  0 <= c_x c r -> c_x c r + 16 < 2 ^ 64 -> a <> r -> b <> r -> a <> b ->
  let c' := exec1 (LDP (X a) (X b) (Post (X r) 16)) c in
  c_x c' r = c_x c r + 16 /\ c_x c' a = load64 (c_mem c) (c_x c r) /\ c_x c' b = load64 (c_mem c) (c_x c r + 8) /\
  (forall i, i <> r -> i <> a -> i <> b -> c_x c' i = c_x c i) /\ get_reg SP c' = get_reg SP c /\
  c_mem c' = c_mem c /\ same_rest c c'.
Proof.
  intros H0 H1 Ha Hb Hab c'. subst c'. cbn [exec1 writeback base_of target set_reg set_x c_x c_mem get_reg].
  rewrite !u64_small by lia. rewrite fn_lookup_insert, !fn_lookup_insert_ne, fn_lookup_insert by congruence.
  rewrite fn_lookup_insert_ne, fn_lookup_insert by congruence. split_and!; try done.
  - intros i H2 H3 H4. by rewrite !fn_lookup_insert_ne by congruence.
  - unfold same_rest. simpl. by destruct (_ =? 0).
Qed.

Lemma pops_S b lo n :
  pops b lo (S n) = LDP (X lo) (X (lo + 1)) (Post (X b) 16) :: pops b (lo + 2) n.
Proof.
  unfold pops. cbn [seq fmap list_fmap]. f_equal; [f_equal; f_equal; lia|].
  rewrite <- fmap_S_seq, <- list_fmap_compose. apply list_fmap_ext. intros i j _. unfold compose. do 2 f_equal; lia.
Qed.

Lemma exec_pops r lo n c :
  0 <= c_x c r -> c_x c r + 16 * Z.of_nat n < 2 ^ 64 -> ~ (lo <= r < lo + 2 * n)%nat ->
  let c' := exec (pops r lo n) c in
  c_x c' r = c_x c r + 16 * Z.of_nat n /\
  (forall j, (j < 2 * n)%nat -> c_x c' (lo + j)%nat = load64 (c_mem c) (c_x c r + 8 * Z.of_nat j)) /\
  (forall i, i <> r -> ~ (lo <= i < lo + 2 * n)%nat -> c_x c' i = c_x c i) /\
  get_reg SP c' = get_reg SP c /\ c_mem c' = c_mem c /\ same_rest c c'.
Proof.
  revert lo c. induction n as [|n IH]; intros lo c H0 H1 Hr c'.
  - subst c'. simpl. split_and!; [lia|lia|done|done|done|apply same_rest_refl].
  - subst c'. rewrite pops_S, exec_cons.
    destruct (exec_ldp_post lo (lo + 1) r c) as (A1 & A2 & A3 & A4 & A5 & A6 & A7); [lia..|].
    set (c1 := exec1 _ c) in *. destruct (IH (lo + 2)%nat c1) as (B1 & B2 & B3 & B4 & B5 & B6); [lia..|]. split_and!.
    + lia.
    + intros j Hj. destruct (decide (j < 2)%nat) as [Hlt|Hge].
      * rewrite B3 by lia. assert (j = 0 \/ j = 1)%nat as [-> | ->] by lia.
        -- rewrite Nat.add_0_r, A2. f_equal. lia.
        -- rewrite A3. f_equal. 
      * replace (lo + j)%nat with (lo + 2 + (j - 2))%nat by lia. rewrite B2, A6, A1 by lia. f_equal. lia.
    + intros i Hi Hn. rewrite B3, A4 by lia. done.
    + by rewrite B4.
    + by rewrite B5.
    + eapply same_rest_trans; [exact A7|exact B6].
Qed.
