(* ===== verification/TrapAsm.v ===== *)
(** The assembly of the kernel and of the user library: the exception vectors
    and trap frames of [kernel/trapasm.S], the context switch of
    [kernel/swtch.S] and the system call stubs of [user/usys.S].

    A C function that the assembly calls is a function of the processor's
    state at the call; it stands for whatever runs until it returns, other
    processes included.  The theorems ask of it what the procedure call
    standard says, that it returns with the stack pointer it was called
    with. *)

From stdpp Require Import functions.
From S2P Require Import Prelude CString Layout Arm.

(** ** [kernel/trapasm.S] *)
Definition el0_store_trap_frame : list instr := [
  SUB SP SP (Imm 0x20);
  STP (X 28) (X 29) (Pre SP (-16));
  STP (X 26) (X 27) (Pre SP (-16));
  STP (X 24) (X 25) (Pre SP (-16));
  STP (X 22) (X 23) (Pre SP (-16));
  STP (X 20) (X 21) (Pre SP (-16));
  STP (X 18) (X 19) (Pre SP (-16));
  STP (X 16) (X 17) (Pre SP (-16));
  STP (X 14) (X 15) (Pre SP (-16));
  STP (X 12) (X 13) (Pre SP (-16));
  STP (X 10) (X 11) (Pre SP (-16));
  STP (X 8) (X 9) (Pre SP (-16));
  STP (X 6) (X 7) (Pre SP (-16));
  STP (X 4) (X 5) (Pre SP (-16));
  STP (X 2) (X 3) (Pre SP (-16));
  STP (X 0) (X 1) (Pre SP (-16));
  MRS (X 9) SP_EL0;
  MRS (X 10) ELR_EL1;
  MRS (X 11) SPSR_EL1;
  STP (X 30) (X 9) (Off SP 0xf0);
  STP (X 10) (X 11) (Off SP 0x100) ].

Definition el1_store_trap_frame : list instr := [
  SUB SP SP (Imm 0x20);
  STP (X 28) (X 29) (Pre SP (-16));
  STP (X 26) (X 27) (Pre SP (-16));
  STP (X 24) (X 25) (Pre SP (-16));
  STP (X 22) (X 23) (Pre SP (-16));
  STP (X 20) (X 21) (Pre SP (-16));
  STP (X 18) (X 19) (Pre SP (-16));
  STP (X 16) (X 17) (Pre SP (-16));
  STP (X 14) (X 15) (Pre SP (-16));
  STP (X 12) (X 13) (Pre SP (-16));
  STP (X 10) (X 11) (Pre SP (-16));
  STP (X 8) (X 9) (Pre SP (-16));
  STP (X 6) (X 7) (Pre SP (-16));
  STP (X 4) (X 5) (Pre SP (-16));
  STP (X 2) (X 3) (Pre SP (-16));
  STP (X 0) (X 1) (Pre SP (-16));
  ADD (X 9) SP (Imm 0x110);
  MRS (X 10) ELR_EL1;
  MRS (X 11) SPSR_EL1;
  STP (X 30) (X 9) (Off SP 0xf0);
  STP (X 10) (X 11) (Off SP 0x100) ].

Definition load_x0_x29 : list instr := [
  LDP (X 0) (X 1) (Post (X 29) 16);
  LDP (X 2) (X 3) (Post (X 29) 16);
  LDP (X 4) (X 5) (Post (X 29) 16);
  LDP (X 6) (X 7) (Post (X 29) 16);
  LDP (X 8) (X 9) (Post (X 29) 16);
  LDP (X 10) (X 11) (Post (X 29) 16);
  LDP (X 12) (X 13) (Post (X 29) 16);
  LDP (X 14) (X 15) (Post (X 29) 16);
  LDP (X 16) (X 17) (Post (X 29) 16);
  LDP (X 18) (X 19) (Post (X 29) 16);
  LDP (X 20) (X 21) (Post (X 29) 16);
  LDP (X 22) (X 23) (Post (X 29) 16);
  LDP (X 24) (X 25) (Post (X 29) 16);
  LDP (X 26) (X 27) (Post (X 29) 16);
  LDR (X 28) (Post (X 29) 8);
  LDR (X 29) (Off (X 29) 0) ].

Definition el0_load_trap_frame : list instr := [
  LDP (X 10) (X 11) (Off SP 0x100);
  LDP (X 30) (X 9) (Off SP 0xf0);
  MSR ELR_EL1 (X 10);
  MSR SPSR_EL1 (X 11);
  MSR SP_EL0 (X 9);
  MOV (X 29) (Reg SP);
  ADD SP SP (Imm 0x110) ] ++ load_x0_x29.

Definition el1_load_trap_frame : list instr := [
  LDP (X 10) (X 11) (Off SP 0x100);
  LDP (X 30) (X 9) (Off SP 0xf0);
  MSR ELR_EL1 (X 10);
  MSR SPSR_EL1 (X 11);
  MOV (X 29) (Reg SP);
  MOV SP (Reg (X 9)) ] ++ load_x0_x29.

Definition el0_load_trap_frame_and_ret (c : cpu) : cpu := eret (exec el0_load_trap_frame c).
Definition el1_load_trap_frame_and_ret (c : cpu) : cpu := eret (exec el1_load_trap_frame c).

Definition trapret : cpu -> cpu := el0_load_trap_frame_and_ret.

Definition set_param (level : Z) : list instr := [
  MOV (X 0) (Reg SP);
  MOV (X 1) (Imm level);
  MRS (X 2) ESR_EL1 ].

Inductive label : Type := L_current_el_irq | L_lower_el_sync | L_lower_el_irq.

Inductive ventry : Type :=
  | verror (type : Z)
  | ventry_el0 (l : label)
  | ventry_el1 (l : label).

(** The vector table: four entries each for EL1 with SP_EL0, EL1, EL0 in
    AArch64 and EL0 in AArch32, in the order synchronous, IRQ, FIQ, error. *)
Definition vectors : list ventry := [
  verror 0; verror 1; verror 2; verror 3;
  verror 4; ventry_el1 L_current_el_irq; verror 6; verror 7;
  ventry_el0 L_lower_el_sync; ventry_el0 L_lower_el_irq; verror 10; verror 11;
  verror 12; verror 13; verror 14; verror 15 ].

(** The C functions called from the vectors. *)
Record handlers : Type := {
  h_svcintr : cpu -> cpu;
  h_irqintr : cpu -> cpu;
  h_defintr : cpu -> cpu;
  h_errintr : cpu -> cpu;
}.

Section vectors.
Context (H : handlers).

Definition current_el_irq (c : cpu) : option cpu :=
  Some (el1_load_trap_frame_and_ret (h_irqintr H (exec (set_param 1) c))).

Definition el0_svc (c : cpu) : option cpu :=
  Some (el0_load_trap_frame_and_ret (h_svcintr H (exec (set_param 0) c))).

(** When [defintr] comes back, [b .] loops for ever. *)
Definition el0_default (c : cpu) : option cpu :=
  let _ := h_defintr H (exec (set_param 0) c) in None.

Definition lower_el_sync (c : cpu) : option cpu :=
  let c := exec [MRS (X 2) ESR_EL1; LSR (X 24) (X 2) (Imm 26)] c in
  if c_x c 24 =? 0x15 then el0_svc c else el0_default c.

Definition lower_el_irq (c : cpu) : option cpu :=
  Some (el0_load_trap_frame_and_ret (h_irqintr H (exec (set_param 0) c))).

Definition goto (l : label) : cpu -> option cpu :=
  match l with
  | L_current_el_irq => current_el_irq
  | L_lower_el_sync => lower_el_sync
  | L_lower_el_irq => lower_el_irq
  end.

(** The vector [i]; [errintr] is branched to and returns to the address that
    the interrupted code has in [x30]. *)
Definition trap (i : nat) (c : cpu) : option cpu :=
  match vectors !! i with
  | Some (verror type) =>
      let c := exec [MOV (X 0) (Imm type)] c in Some (set_pc (c_x c 30) (h_errintr H c))
  | Some (ventry_el0 l) => goto l (exec el0_store_trap_frame c)
  | Some (ventry_el1 l) => goto l (exec el1_store_trap_frame c)
  | None => None
  end.
End vectors.

(** ** [kernel/swtch.S] *)
Definition swtch_code : list instr := [
  ADD (X 9) (X 0) (Imm 0x80);
  MOV (X 10) (Reg SP);
  STP (X 30) (X 10) (Pre (X 9) (-16));
  STP (X 28) (X 29) (Pre (X 9) (-16));
  STP (X 26) (X 27) (Pre (X 9) (-16));
  STP (X 24) (X 25) (Pre (X 9) (-16));
  STP (X 22) (X 23) (Pre (X 9) (-16));
  STP (X 20) (X 21) (Pre (X 9) (-16));
  STP (X 18) (X 19) (Pre (X 9) (-16));
  STP (X 16) (X 17) (Pre (X 9) (-16));
  MOV (X 9) (Reg (X 1));
  LDP (X 16) (X 17) (Post (X 9) 16);
  LDP (X 18) (X 19) (Post (X 9) 16);
  LDP (X 20) (X 21) (Post (X 9) 16);
  LDP (X 22) (X 23) (Post (X 9) 16);
  LDP (X 24) (X 25) (Post (X 9) 16);
  LDP (X 26) (X 27) (Post (X 9) 16);
  LDP (X 28) (X 29) (Post (X 9) 16);
  LDP (X 30) (X 10) (Post (X 9) 16);
  MOV SP (Reg (X 10)) ].

(** [br x30] *)
Definition br (r : nat) (c : cpu) : cpu := set_pc (c_x c r) c.

Definition swtch (c : cpu) : cpu := br 30 (exec swtch_code c).

(** ** [user/usys.S]: the stub [SYSCALL(func)] with number [n], at address [a]
    of the program.  [svc] is the eighth instruction; the kernel comes back to
    the ninth. *)
Definition stub_enter (n : Z) : list instr := [
  STR (X 5) (Pre SP (-0x08));
  MOV (X 5) (Reg (X 4));
  MOV (X 4) (Reg (X 3));
  MOV (X 3) (Reg (X 2));
  MOV (X 2) (Reg (X 1));
  MOV (X 1) (Reg (X 0));
  MOV (X 0) (Imm n) ].

Definition stub_leave : list instr := [ LDR (X 5) (Post SP 0x08) ].

(** The syndrome of [svc 0x0]. *)
Definition ESR_SVC : Z := Z.lor (Z.shiftl 0x15 26) (Z.shiftl 1 25).

Definition syscall_stub (H : handlers) (n a : Z) (c : cpu) : option cpu :=
  c ← trap H 8 (take_exception ESR_SVC (a + 32) (exec (stub_enter n) c));
  if (c_pc c =? a + 32) && (c_el c =? 0) then Some (br 30 (exec stub_leave c)) else None.

(** ** Trap frames *)

(** The trap frame at [f] holds these registers ([struct trapframe] of
    [kernel/proc.h]). *)
Record frame (m : mem) (f : Z) (x : nat -> Z) (sp pc spsr : Z) : Prop := {
  fr_x : forall i, (i <= 30)%nat -> load64 m (f + 8 * Z.of_nat i) = x i;
  fr_sp : load64 m (f + 0xf8) = sp;
  fr_pc : load64 m (f + 0x100) = pc;
  fr_spsr : load64 m (f + 0x108) = spsr;
}.

Lemma el0_store_split : el0_store_trap_frame =
  SUB SP SP (Imm 0x20) :: pushes SP 0 15 ++
  [MRS (X 9) SP_EL0; MRS (X 10) ELR_EL1; MRS (X 11) SPSR_EL1; STP (X 30) (X 9) (Off SP 0xf0); STP (X 10) (X 11) (Off SP 0x100)].
Proof. reflexivity. Qed.

Lemma el1_store_split : el1_store_trap_frame =
  SUB SP SP (Imm 0x20) :: pushes SP 0 15 ++
  [ADD (X 9) SP (Imm 0x110); MRS (X 10) ELR_EL1; MRS (X 11) SPSR_EL1; STP (X 30) (X 9) (Off SP 0xf0); STP (X 10) (X 11) (Off SP 0x100)].
Proof. reflexivity. Qed.

Lemma load_split : load_x0_x29 = pops 29 0 14 ++ [LDR (X 28) (Post (X 29) 8); LDR (X 29) (Off (X 29) 0)].
Proof. reflexivity. Qed.

#[global] Opaque push_mem pushes pops.

(** The kernel's side of an exception: running at EL1, with room for a frame
    on its stack. *)
Record on_stack (c : cpu) (f : Z) : Prop := {
  os_el : c_el c = 1;
  os_sp : c_sp1 c = f + 0x110;
  os_range : 0 <= f /\ f + 0x110 < 2 ^ 64;
}.

(** What the stores of a frame do, with [sp] in place of the interrupted
    stack pointer. *)
Definition stored (c : cpu) (f sp : Z) (c' : cpu) : Prop :=
  c_sp1 c' = f /\ frame (c_mem c') f (c_x c) sp (c_sys c ELR_EL1) (c_sys c SPSR_EL1) /\
  (forall a, a < f \/ f + 0x110 <= a -> c_mem c' a = c_mem c a) /\
  c_sys c' = c_sys c /\ c_pstate c' = c_pstate c /\ c_sp0 c' = c_sp0 c.

(** The pushes, and then the last four words from [x9], [x10], [x11] and
    [x30]. *)
Lemma store_tail c c1 f sp :
  words_ok c -> on_stack c f -> 0 <= sp < 2 ^ 64 ->
  c_el c1 = 1 -> c_sp1 c1 = f -> c_x c1 30 = c_x c 30 -> c_x c1 9 = sp ->
  c_x c1 10 = c_sys c ELR_EL1 -> c_x c1 11 = c_sys c SPSR_EL1 ->
  c_mem c1 = push_mem (c_x c) 0 15 (f + 0xf0) (c_mem c) ->
  c_sys c1 = c_sys c -> c_pstate c1 = c_pstate c -> c_sp0 c1 = c_sp0 c ->
  stored c f sp (exec [STP (X 30) (X 9) (Off SP 0xf0); STP (X 10) (X 11) (Off SP 0x100)] c1).
Proof.
  intros [Wx _ _ Ws _] [_ _ [Hf Hf']] Hsp E1 E2 E3 E4 E5 E6 E7 E8 E9 E10.
  unfold stored. cbn [exec foldl exec1 writeback target base_of set_cmem c_x c_sp1 c_mem c_sys c_pstate c_sp0 get_reg c_el].
  unfold c_el in *. cbn [c_pstate set_cmem]. rewrite E1. cbn [Z.eqb]. rewrite E2, E3, E4, E5, E6, !u64_small by lia.
  split_and!; try done.
  - rewrite E7. split.
    + intros i Hi. do 2 rewrite load64_store64_ne by lia. destruct (decide (i = 30)%nat) as [->|Hne].
      * change (8 * Z.of_nat 30) with 240. rewrite load64_store64_ne, load64_store64_eq by lia. apply u64_small, Wx.
      * do 2 rewrite load64_store64_ne by lia. pose proof (push_mem_word (c_x c) 0 15 (f + 0xf0) (c_mem c) i ltac:(lia) Wx) as E. cbn [Nat.add] in E. rewrite <- E. f_equal. lia.
    + do 2 rewrite load64_store64_ne by lia. replace (f + 240 + 8) with (f + 0xf8) by lia. rewrite load64_store64_eq. by apply u64_small.
    + rewrite load64_store64_ne, load64_store64_eq by lia. apply u64_small, Ws.
    + replace (f + 256 + 8) with (f + 0x108) by lia. rewrite load64_store64_eq. apply u64_small, Ws.
  - intros a Ha. rewrite !store64_out by lia. rewrite E7. apply push_mem_out. lia.
Qed.

Lemma on_stack_sp c f : on_stack c f -> get_reg SP c = f + 0x110.
Proof. intros [E Hs _]. cbn [get_reg]. by rewrite E. Qed.

(** After the pushes. *)
Definition pushed (c : cpu) (f : Z) (c1 : cpu) : Prop :=
  c_el c1 = 1 /\ c_sp1 c1 = f /\ (forall i, c_x c1 i = c_x c i) /\
  c_mem c1 = push_mem (c_x c) 0 15 (f + 0xf0) (c_mem c) /\
  c_sys c1 = c_sys c /\ c_pstate c1 = c_pstate c /\ c_sp0 c1 = c_sp0 c.

Lemma store_head c f : on_stack c f -> pushed c f (exec (SUB SP SP (Imm 0x20) :: pushes SP 0 15) c).
Proof.
  intros Hs. pose proof Hs as [Hel Hsp [H0 H1]]. pose proof (on_stack_sp c f Hs) as Hg. unfold pushed. rewrite exec_cons. unfold exec1, op2, val.
  rewrite Hg, u64_small by lia. replace (f + 272 - 32) with (f + 240) by lia.
  set (c1 := set_reg SP (f + 240) c). assert (E1 : get_reg SP c1 = f + 240) by apply get_set_eq.
  destruct (exec_pushes SP 0 15 c1) as (A1 & A2 & A3 & A4); [lia|done|].
  pose proof (same_rest_trans _ _ _ (set_reg_rest SP (f + 240) c) A4) as B. pose proof (same_rest_el _ _ B) as Be.
  set (c2 := exec _ c1) in *. rewrite Hel in Be. cbn [get_reg] in A1. rewrite Be in A1. cbn [Z.eqb] in A1.
  destruct B as (B1 & B2 & _ & B3). rewrite Hel in B3. cbn [Z.eqb] in B3.
  assert (X1 : c_x c1 = c_x c) by (unfold c1, set_reg; rewrite Hel; done).
  assert (M1 : c_mem c1 = c_mem c) by apply set_reg_mem.
  split_and!; try done.
  - rewrite A1. cbn [get_reg] in E1. rewrite E1. lia.
  - intros i. pose proof (A2 (X i) ltac:(done)) as A. cbn [get_reg] in A. by rewrite A, X1.
  - by rewrite A3, E1, X1, M1.
Qed.

Lemma el0_store_tail c c1 f :
  words_ok c -> on_stack c f -> pushed c f c1 ->
  stored c f (c_sp0 c) (exec [MRS (X 9) SP_EL0; MRS (X 10) ELR_EL1; MRS (X 11) SPSR_EL1;
    STP (X 30) (X 9) (Off SP 0xf0); STP (X 10) (X 11) (Off SP 0x100)] c1).
Proof.
  intros W Hs (E1 & E2 & E3 & E4 & E5 & E6 & E7).
  rewrite !(exec_cons (MRS _ _)). apply store_tail; try done; [apply W|simpl..].
  - by rewrite !fn_lookup_insert_ne.
  - rewrite fn_lookup_insert_ne, fn_lookup_insert, E5 by done. done.
  - rewrite fn_lookup_insert, E5. done.
Qed.

Lemma el0_store c f : words_ok c -> on_stack c f -> stored c f (c_sp0 c) (exec el0_store_trap_frame c).
Proof.
  intros W Hs. rewrite el0_store_split, app_comm_cons, exec_app. apply el0_store_tail; [done|done|]. by apply store_head.
Qed.

Lemma el1_store_tail c c1 f :
  words_ok c -> on_stack c f -> pushed c f c1 ->
  stored c f (c_sp1 c) (exec [ADD (X 9) SP (Imm 0x110); MRS (X 10) ELR_EL1; MRS (X 11) SPSR_EL1;
    STP (X 30) (X 9) (Off SP 0xf0); STP (X 10) (X 11) (Off SP 0x100)] c1).
Proof.
  intros W Hs (E1 & E2 & E3 & E4 & E5 & E6 & E7).
  rewrite (exec_cons (ADD _ _ _)), !(exec_cons (MRS _ _)). apply store_tail; try done; [apply W|simpl..].
  - by rewrite !fn_lookup_insert_ne.
  - rewrite !fn_lookup_insert_ne, fn_lookup_insert, E1, E2 by done. cbn [Z.eqb]. destruct Hs as [_ -> ?]. apply u64_small. lia.
  - rewrite fn_lookup_insert_ne, fn_lookup_insert, E5 by done. done.
  - rewrite fn_lookup_insert, E5. done.
Qed.

Lemma el1_store c f : words_ok c -> on_stack c f -> stored c f (c_sp1 c) (exec el1_store_trap_frame c).
Proof.
  intros W Hs. rewrite el1_store_split, app_comm_cons, exec_app. apply el1_store_tail; [done|done|]. by apply store_head.
Qed.

(** After the loads of [x0] to [x27]. *)
Definition popped (c : cpu) (f : Z) (c1 : cpu) : Prop :=
  c_x c1 29 = f + 16 * Z.of_nat 14 /\
  (forall j, (j < 2 * 14)%nat -> c_x c1 (0 + j)%nat = load64 (c_mem c) (f + 8 * Z.of_nat j)) /\
  (forall i, i <> 29%nat -> ~ (0 <= i < 0 + 2 * 14)%nat -> c_x c1 i = c_x c i) /\
  get_reg SP c1 = get_reg SP c /\ c_mem c1 = c_mem c /\ same_rest c c1.

Definition reloaded (c : cpu) (x : nat -> Z) (c' : cpu) : Prop :=
  (forall i, (i <= 29)%nat -> c_x c' i = x i) /\ c_x c' 30 = c_x c 30 /\
  get_reg SP c' = get_reg SP c /\ c_mem c' = c_mem c /\ same_rest c c'.

Lemma exec_load_tail c c1 f x sp pc spsr :
  frame (c_mem c) f x sp pc spsr -> 0 <= f -> f + 0x110 < 2 ^ 64 -> popped c f c1 ->
  reloaded c x (exec [LDR (X 28) (Post (X 29) 8); LDR (X 29) (Off (X 29) 0)] c1).
Proof.
  intros [Fx _ _ _] H0 H1 (A1 & A2 & A3 & A4 & A5 & A6). unfold reloaded.
  cbn [exec foldl exec1 writeback base_of target set_reg set_x c_x c_mem get_reg].
  rewrite A1, A5, !fn_lookup_insert, (u64_small (_ + 8)), (u64_small (_ + 0)) by lia. split_and!.
  - intros i Hi. destruct (decide (i = 29)%nat) as [->|N29].
    + rewrite fn_lookup_insert. rewrite <- (Fx 29%nat) by lia. f_equal. lia.
    + rewrite !fn_lookup_insert_ne by congruence. destruct (decide (i = 28)%nat) as [->|N28].
      * rewrite fn_lookup_insert, <- (Fx 28%nat) by lia. f_equal; lia.
      * rewrite fn_lookup_insert_ne by congruence. rewrite <- (Fx i) by lia. apply (A2 i). lia.
  - rewrite !fn_lookup_insert_ne by done. apply A3; lia.
  - exact A4.
  - done.
  - eapply same_rest_trans; [exact A6|]. unfold same_rest. simpl. by destruct (_ =? 0).
Qed.

Lemma exec_load c f x sp pc spsr :
  frame (c_mem c) f x sp pc spsr -> c_x c 29 = f -> 0 <= f -> f + 0x110 < 2 ^ 64 -> reloaded c x (exec load_x0_x29 c).
Proof.
  intros HF H29 H0 H1. rewrite load_split, exec_app. apply (exec_load_tail c _ f x sp pc spsr); [done..|].
  unfold popped. rewrite <- H29. apply (exec_pops 29 0 14 c); lia.
Qed.

(** [c'] runs on with the registers of a frame. *)
Record resumed (c : cpu) (x : nat -> Z) (sp pc spsr : Z) (c' : cpu) : Prop := {
  re_x : forall i, (i <= 30)%nat -> c_x c' i = x i;
  re_pc : c_pc c' = pc;
  re_pstate : c_pstate c' = spsr;
  re_mem : c_mem c' = c_mem c;
}.

Lemma exec_ldp_off a b off c :
  c_el c = 1 -> 0 <= c_sp1 c + off -> c_sp1 c + off + 16 <= 2 ^ 64 ->
  exec1 (LDP (X a) (X b) (Off SP off)) c =
    set_x (fun x => <[b := load64 (c_mem c) (c_sp1 c + off + 8)]> (<[a := load64 (c_mem c) (c_sp1 c + off)]> x)) c.
Proof.
  intros Hel H0 H1. unfold exec1, writeback, target, base_of. cbn [get_reg]. rewrite Hel. cbn [Z.eqb].
  rewrite (u64_small (_ + off)), u64_small by lia. reflexivity.
Qed.

(** The first instructions of both returns. *)
Lemma exec_load_head c f x sp pc spsr :
  c_el c = 1 -> c_sp1 c = f -> 0 <= f -> f + 0x110 < 2 ^ 64 -> frame (c_mem c) f x sp pc spsr ->
  exists g, g 30%nat = x 30%nat /\ g 9%nat = sp /\
  exec [LDP (X 10) (X 11) (Off SP 0x100); LDP (X 30) (X 9) (Off SP 0xf0); MSR ELR_EL1 (X 10); MSR SPSR_EL1 (X 11)] c =
    set_sys SPSR_EL1 spsr (set_sys ELR_EL1 pc (set_x (fun _ => g) c)).
Proof.
  intros Hel Hsp H0 H1 [Fx Fs Fp Fr]. rewrite !exec_cons. rewrite (exec_ldp_off 10 11) by (rewrite ?Hsp; done || lia).
  rewrite (exec_ldp_off 30 9) by (done || (cbn [c_sp1 set_x]; rewrite Hsp; lia)). cbn [c_mem c_sp1 set_x c_x]. rewrite Hsp.
  replace (f + 240 + 8) with (f + 0xf8) by lia. replace (f + 256 + 8) with (f + 0x108) by lia.
  rewrite Fs, Fp, Fr. rewrite <- (Fx 30%nat) by lia. change (8 * Z.of_nat 30) with 240.
  eexists. split; [|split; [|]]; [| |].
  3: { cbn [exec foldl exec1 get_reg set_sys set_x c_x]. rewrite !fn_lookup_insert_ne, !fn_lookup_insert by done. reflexivity. }
  - cbn beta. by rewrite fn_lookup_insert_ne, fn_lookup_insert.
  - cbn beta. by rewrite fn_lookup_insert.
Qed.

(** Reloading from a state [c1] whose [x29] points to the frame. *)
Lemma resume c c1 f x sp pc spsr a b :
  frame (c_mem c) f x sp pc spsr -> 0 <= f -> f + 0x110 < 2 ^ 64 ->
  c_mem c1 = c_mem c -> c_x c1 29 = f -> c_x c1 30 = x 30%nat -> c_sys c1 ELR_EL1 = pc -> c_sys c1 SPSR_EL1 = spsr -> c_el c1 = 1 ->
  c_sp0 c1 = a -> c_sp1 c1 = b ->
  let c' := eret (exec load_x0_x29 c1) in
  resumed c x sp pc spsr c' /\ c_sp0 c' = a /\ c_sp1 c' = b.
Proof.
  intros HF H0 H1 Em E29 E30 Ee Es Hel <- <-. rewrite <- Em in HF.
  destruct (exec_load c1 f x sp pc spsr) as (A1 & A2 & A3 & A4 & A5); [done..|].
  pose proof (same_rest_el _ _ A5) as Ae. destruct A5 as (B1 & B2 & B3 & B4). set (c2 := exec load_x0_x29 c1) in *. clearbody c2.
  cbn [get_reg] in A3. rewrite Ae, Hel in A3. rewrite Hel in B4. cbn [Z.eqb] in A3, B4. split; [|done].
  split; cbn [eret eret_with set_pc set_pstate c_x c_pc c_pstate c_mem]; [|by rewrite B2|by rewrite B2|congruence].
  intros i Hi. destruct (decide (i = 30%nat)) as [->|Hne]; [congruence|]. apply A1. lia.
Qed.

Lemma el0_load c f x sp pc spsr :
  c_el c = 1 -> c_sp1 c = f -> 0 <= f -> f + 0x110 < 2 ^ 64 -> frame (c_mem c) f x sp pc spsr ->
  let c' := el0_load_trap_frame_and_ret c in
  resumed c x sp pc spsr c' /\ c_sp0 c' = sp /\ c_sp1 c' = f + 0x110.
Proof.
  intros Hel Hsp H0 H1 HF. cbv zeta. unfold el0_load_trap_frame_and_ret.
  change el0_load_trap_frame with ([LDP (X 10) (X 11) (Off SP 0x100); LDP (X 30) (X 9) (Off SP 0xf0); MSR ELR_EL1 (X 10); MSR SPSR_EL1 (X 11)] ++
    [MSR SP_EL0 (X 9); MOV (X 29) (Reg SP); ADD SP SP (Imm 0x110)] ++ load_x0_x29).
  destruct (exec_load_head c f x sp pc spsr) as (g & G30 & G9 & E); [done..|].
  rewrite exec_app, E, exec_app. set (c1 := set_sys _ _ _) in *.
  assert (E1 : exec [MSR SP_EL0 (X 9); MOV (X 29) (Reg SP); ADD SP SP (Imm 0x110)] c1 =
    set_sp1 (f + 0x110) (set_x (<[29%nat := f]>) (set_sp0 sp c1))).
  { cbn [exec foldl exec1 op2 val get_reg set_reg]. unfold c_el in *.
    cbn [c1 set_sys set_x set_sp0 c_pstate c_x c_sp1]. unfold op2. cbn [get_reg set_reg val]. unfold c_el.
    cbn [c1 set_sys set_x set_sp0 c_pstate c_x c_sp1]. rewrite Hel. cbn [Z.eqb]. by rewrite G9, Hsp, u64_small by lia. }
  rewrite E1. clear E1 E. apply (resume c _ f); [done..|done| | | | |done|done|done]; cbn [set_sp1 set_x set_sp0 c_x c1 set_sys c_sys].
  - apply fn_lookup_insert.
  - by rewrite fn_lookup_insert_ne.
  - by rewrite fn_lookup_insert_ne, fn_lookup_insert.
  - by rewrite fn_lookup_insert.
Qed.

Lemma el1_load c f x sp pc spsr :
  c_el c = 1 -> c_sp1 c = f -> 0 <= f -> f + 0x110 < 2 ^ 64 -> frame (c_mem c) f x sp pc spsr ->
  let c' := el1_load_trap_frame_and_ret c in
  resumed c x sp pc spsr c' /\ c_sp0 c' = c_sp0 c /\ c_sp1 c' = sp.
Proof.
  intros Hel Hsp H0 H1 HF. cbv zeta. unfold el1_load_trap_frame_and_ret.
  change el1_load_trap_frame with ([LDP (X 10) (X 11) (Off SP 0x100); LDP (X 30) (X 9) (Off SP 0xf0); MSR ELR_EL1 (X 10); MSR SPSR_EL1 (X 11)] ++
    [MOV (X 29) (Reg SP); MOV SP (Reg (X 9))] ++ load_x0_x29).
  destruct (exec_load_head c f x sp pc spsr) as (g & G30 & G9 & E); [done..|].
  rewrite exec_app, E, exec_app. set (c1 := set_sys _ _ _) in *.
  assert (E1 : exec [MOV (X 29) (Reg SP); MOV SP (Reg (X 9))] c1 = set_sp1 sp (set_x (<[29%nat := f]>) c1)).
  { cbn [exec foldl exec1 val get_reg set_reg]. unfold c_el in *. cbn [c1 set_sys set_x c_pstate c_x c_sp1].
    rewrite Hel. cbn [Z.eqb]. by rewrite fn_lookup_insert_ne, G9, Hsp by done. }
  rewrite E1. clear E1 E. apply (resume c _ f); [done..|done| | | | |done|done|done]; cbn [set_sp1 set_x c_x c1 set_sys c_sys].
  - apply fn_lookup_insert.
  - by rewrite fn_lookup_insert_ne.
  - by rewrite fn_lookup_insert_ne, fn_lookup_insert.
  - by rewrite fn_lookup_insert.
Qed.

(** ** Traps *)

(** The call of a C function from a vector, with the frame [f], the level and
    the syndrome as arguments. *)
Record called (c1 : cpu) (f el esr : Z) : Prop := {
  ca_frame : c_x c1 0 = f;
  ca_level : c_x c1 1 = el;
  ca_esr : c_x c1 2 = esr;
  ca_sp : c_sp1 c1 = f;
  ca_el : c_el c1 = 1;
}.

Lemma exec_set_param level c f esr :
  c_el c = 1 -> c_sp1 c = f -> c_sys c ESR_EL1 = esr -> let c1 := exec (set_param level) c in
  called c1 f level esr /\ c_mem c1 = c_mem c.
Proof.
  intros Hel Hsp He. cbv zeta. split; [|done]. cbn [exec set_param foldl exec1 val get_reg set_reg]. unfold c_el in *.
  split; cbn [set_x c_x c_sp1 c_sys c_pstate]; rewrite ?Hel; [| | |done|done].
  - rewrite !fn_lookup_insert_ne, fn_lookup_insert by done. done.
  - by rewrite fn_lookup_insert_ne, fn_lookup_insert.
  - by rewrite fn_lookup_insert.
Qed.

Lemma frame_ext m m' f x sp pc spsr :
  frame m f x sp pc spsr -> (forall a, f <= a < f + 0x110 -> m' a = m a) -> frame m' f x sp pc spsr.
Proof.
  intros [F1 F2 F3 F4] H. split; [intros i Hi; rewrite <- F1 by done|rewrite <- F2|rewrite <- F3|rewrite <- F4];
    apply load64_ext; intros; apply H; lia.
Qed.

(** A handler that comes back to its caller and leaves the frame alone. *)
Definition keeps_frame (h : cpu -> cpu) (f : Z) : Prop :=
  forall c1, c_sp1 c1 = f -> c_el c1 = 1 ->
    c_sp1 (h c1) = f /\ c_el (h c1) = 1 /\ forall a, f <= a < f + 0x110 -> c_mem (h c1) a = c_mem c1 a.

(** The level a vector for interrupts is for. *)
Definition irq_vector (el : Z) : nat := if el =? 0 then 9 else 5.

Section trap.
Context (H : handlers) (c : cpu) (f : Z).
Context (W : words_ok c) (Wp : 0 <= c_pstate c < 2 ^ 64).
Context (Hsp : c_sp1 c = f + 0x110) (Hf : 0 <= f /\ f + 0x110 < 2 ^ 64).

Lemma exception_stack esr ret : on_stack (take_exception esr ret c) f.
Proof using Hsp Hf. split; [apply exception_el|done|done]. Qed.

Lemma exception_sys esr ret :
  c_sys (take_exception esr ret c) ELR_EL1 = ret /\ c_sys (take_exception esr ret c) SPSR_EL1 = c_pstate c /\
  c_sys (take_exception esr ret c) ESR_EL1 = esr.
Proof. clear. cbn [take_exception set_pstate set_sys c_sys]. by rewrite fn_lookup_insert, !fn_lookup_insert_ne, !fn_lookup_insert by done. Qed.

(** C5: an interrupt is transparent.  Whatever runs in [irqintr], if it comes
    back with the stack pointer it was called with and leaves the trap frame
    alone, the interrupted code, in user mode or in the kernel, goes on at the
    same instruction with every general register, its stack pointer and its
    status word as they were; the handler is called with the frame, the level
    and the syndrome, and the memory is what the handler left. *)
Theorem irq_transparent esr ret :
  c_el c = 0 \/ c_el c = 1 -> 0 <= esr < 2 ^ 64 -> 0 <= ret < 2 ^ 64 -> keeps_frame (h_irqintr H) f ->
  exists c1 c', trap H (irq_vector (c_el c)) (take_exception esr ret c) = Some c' /\
    called c1 f (c_el c) esr /\ (forall a, a < f \/ f + 0x110 <= a -> c_mem c1 a = c_mem c a) /\
    frame (c_mem c1) f (c_x c) (get_reg SP c) ret (c_pstate c) /\
    (forall i, (i <= 30)%nat -> c_x c' i = c_x c i) /\ get_reg SP c' = get_reg SP c /\ c_sp1 c' = c_sp1 c /\
    c_pc c' = ret /\ c_pstate c' = c_pstate c /\ c_mem c' = c_mem (h_irqintr H c1).
Proof using All.
  intros Hel He Hr Hk. pose proof (exception_ok esr ret c W Wp He Hr) as W'. pose proof (exception_stack esr ret) as Hs.
  destruct (exception_sys esr ret) as (X1 & X2 & X3). set (c0 := take_exception esr ret c) in *.
  assert (S0 : c_sp0 c0 = c_sp0 c) by done. assert (S1 : c_sp1 c0 = c_sp1 c) by done.
  assert (Xx : c_x c0 = c_x c) by done. assert (Mm : c_mem c0 = c_mem c) by done. clearbody c0.
  destruct Hel as [E|E]; cbn [get_reg]; rewrite E; unfold irq_vector, trap; cbn [Z.eqb vectors lookup list_lookup goto];
    unfold lower_el_irq, current_el_irq.
  - destruct (el0_store c0 f W' Hs) as (A1 & A2 & A3 & A4 & A5 & A6). set (c2 := exec el0_store_trap_frame c0) in *. clearbody c2.
    assert (Hel2 : c_el c2 = 1) by (unfold c_el; rewrite A5; apply Hs).
    destruct (exec_set_param 0 c2 f esr) as [B1 B2]; [done|done|congruence|]. set (c1 := exec (set_param 0) c2) in *. clearbody c1.
    destruct (Hk c1) as (K1 & K2 & K3); [apply B1|apply B1|]. rewrite X1, X2, S0, Xx in A2.
    assert (F1 : frame (c_mem c1) f (c_x c) (c_sp0 c) ret (c_pstate c)) by (by rewrite B2).
    destruct (el0_load (h_irqintr H c1) f (c_x c) (c_sp0 c) ret (c_pstate c)) as ([R1 R2 R3 R4] & R5 & R6);
      [done|done|apply Hf|apply Hf|by eapply frame_ext|].
    exists c1. eexists. split; [done|]. split_and!; try done.
    + intros a Ha. by rewrite B2, A3, Mm.
    + unfold c_el in *. by rewrite R3, E.
    + congruence.
  - destruct (el1_store c0 f W' Hs) as (A1 & A2 & A3 & A4 & A5 & A6). set (c2 := exec el1_store_trap_frame c0) in *. clearbody c2.
    assert (Hel2 : c_el c2 = 1) by (unfold c_el; rewrite A5; apply Hs).
    destruct (exec_set_param 1 c2 f esr) as [B1 B2]; [done|done|congruence|]. set (c1 := exec (set_param 1) c2) in *. clearbody c1.
    destruct (Hk c1) as (K1 & K2 & K3); [apply B1|apply B1|]. rewrite X1, X2, S1, Xx in A2.
    assert (F1 : frame (c_mem c1) f (c_x c) (c_sp1 c) ret (c_pstate c)) by (by rewrite B2).
    destruct (el1_load (h_irqintr H c1) f (c_x c) (c_sp1 c) ret (c_pstate c)) as ([R1 R2 R3 R4] & R5 & R6);
      [done|done|apply Hf|apply Hf|by eapply frame_ext|].
    exists c1. eexists. split; [done|]. split_and!; try done.
    + intros a Ha. by rewrite B2, A3, Mm.
    + unfold c_el in *. by rewrite R3, E.
Qed.
End trap.

(** The registers after the stub has moved the arguments up by one. *)
Definition stub_x (n : Z) (x : nat -> Z) (i : nat) : Z :=
  match i with
  | O => n
  | S k => if decide (k < 5)%nat then x k else x i
  end.

Lemma exec_stub_enter n c :
  c_el c = 0 -> 8 <= c_sp0 c < 2 ^ 64 ->
  let c' := exec (stub_enter n) c in
  (forall i, c_x c' i = stub_x n (c_x c) i) /\ c_sp0 c' = c_sp0 c - 8 /\ c_sp1 c' = c_sp1 c /\ c_pstate c' = c_pstate c /\
  c_sys c' = c_sys c /\ c_mem c' = store64 (c_mem c) (c_sp0 c - 8) (c_x c 5).
Proof.
  intros Hel Hsp. cbv zeta. unfold stub_enter. rewrite exec_cons. unfold exec1, writeback, target, base_of.
  cbn [get_reg set_reg]. unfold c_el in *. cbn [set_cmem c_pstate]. rewrite Hel. cbn [Z.eqb]. rewrite u64_small by lia.
  cbn [exec foldl exec1 val get_reg set_reg set_x set_sp0 set_cmem c_x c_sp0 c_sp1 c_pstate c_sys c_mem].
  split_and!; try done; try lia.
  intros [|i]; [apply fn_lookup_insert|]. rewrite fn_lookup_insert_ne by done. cbn [stub_x].
  destruct (decide (i < 5)%nat) as [Hi|Hi].
  - destruct i as [|[|[|[|[|i]]]]]; [..|lia]; rewrite ?fn_lookup_insert_ne, ?fn_lookup_insert by done;
      repeat (rewrite fn_lookup_insert_ne by done); rewrite ?fn_lookup_insert; repeat (rewrite fn_lookup_insert_ne by done); done.
  - by rewrite !fn_lookup_insert_ne by lia.
Qed.

(** A system call handler: called as [svcintr] with a frame that holds the
    number [n] in [x0] and the arguments in [x1] to [x5], it comes back with
    the stack pointer it was called with, the result [r] in the frame's [x0],
    and the rest of the frame and the word below the user's stack pointer
    unchanged. *)
Definition serves (h : cpu -> cpu) (n : Z) (args : nat -> Z) (f usp r : Z) : Prop :=
  forall c1, called c1 f 0 ESR_SVC ->
    load64 (c_mem c1) f = n -> (forall k, (k < 5)%nat -> load64 (c_mem c1) (f + 8 * Z.of_nat (S k)) = args k) ->
    c_sp1 (h c1) = f /\ c_el (h c1) = 1 /\ load64 (c_mem (h c1)) f = r /\
    (forall a, f + 8 <= a < f + 0x110 -> c_mem (h c1) a = c_mem c1 a) /\
    (forall a, usp <= a < usp + 8 -> c_mem (h c1) a = c_mem c1 a).

Lemma frame_result m m' f x sp pc spsr r :
  frame m f x sp pc spsr -> load64 m' f = r -> (forall a, f + 8 <= a < f + 0x110 -> m' a = m a) ->
  frame m' f (<[0%nat := r]> x) sp pc spsr.
Proof.
  intros [F1 F2 F3 F4] Hr H. split; [|rewrite <- F2|rewrite <- F3|rewrite <- F4]; try (apply load64_ext; intros; apply H; lia).
  intros [|i] Hi; [rewrite fn_lookup_insert, <- Hr; f_equal; lia|]. rewrite fn_lookup_insert_ne, <- F1 by done.
  apply load64_ext. intros. apply H. lia.
Qed.

Lemma lower_el_sync_svc H c :
  c_el c = 1 -> c_sys c ESR_EL1 = ESR_SVC ->
  exists c1, called c1 (c_sp1 c) 0 ESR_SVC /\ c_mem c1 = c_mem c /\
    lower_el_sync H c = Some (el0_load_trap_frame_and_ret (h_svcintr H c1)).
Proof.
  intros Hel He. unfold lower_el_sync. set (c0 := exec _ c).
  assert (E0 : c_x c0 24 = 0x15).
  { unfold c0. cbn [exec foldl exec1 op2 val get_reg set_reg set_x c_x]. unfold op2. cbn [get_reg set_reg set_x c_x val].
    rewrite fn_lookup_insert, fn_lookup_insert, He. done. }
  rewrite E0. cbn [Z.eqb Pos.eqb]. unfold el0_svc.
  destruct (exec_set_param 0 c0 (c_sp1 c) ESR_SVC) as [A1 A2]; [done..|].
  eexists. split; [exact A1|]. split; [by rewrite A2|done].
Qed.

Lemma trap_sync H c : trap H 8 c = lower_el_sync H (exec el0_store_trap_frame c).
Proof. reflexivity. Qed.

Lemma stub_return c :
  c_el c = 0 -> let c' := br 30 (exec stub_leave c) in
  c_pc c' = c_x c 30 /\ c_x c' 5 = load64 (c_mem c) (c_sp0 c) /\ (forall i, i <> 5%nat -> c_x c' i = c_x c i) /\
  c_sp0 c' = u64 (c_sp0 c + 8) /\ c_sp1 c' = c_sp1 c /\ c_pstate c' = c_pstate c /\ c_mem c' = c_mem c.
Proof.
  intros Hel. cbv zeta.
  assert (E : exec stub_leave c = set_sp0 (u64 (c_sp0 c + 8)) (set_x (<[5%nat := load64 (c_mem c) (c_sp0 c)]>) c)).
  { unfold stub_leave. cbn [exec foldl exec1 writeback target base_of get_reg set_reg]. unfold c_el in *.
    cbn [set_x c_pstate]. by rewrite Hel. }
  rewrite E. cbn [br set_sp0 set_x set_pc c_x c_sp0 c_sp1 c_pstate c_pc c_mem]. split_and!; try done.
  intros i Hi. by rewrite fn_lookup_insert_ne.
Qed.

(** C6: a system call from user code.  Calling a stub of [usys.S] with up to
    five arguments runs [svcintr] with the trap frame, in which [argraw] finds
    the number as word 0 and the arguments as words 1 to 5; when it comes back
    with the result there, the stub returns to its caller with the result in
    [x0], the stack pointer and the registers from [x5] on as they were, and
    the kernel's stack is as before the call. *)
Theorem syscall_stub_calls H n a c f r :
  words_ok c -> 0 <= c_pstate c < 2 ^ 64 -> c_el c = 0 -> c_sp1 c = f + 0x110 -> 0 <= f /\ f + 0x110 < 2 ^ 64 ->
  8 <= c_sp0 c -> c_sp0 c <= f \/ f + 0x110 <= c_sp0 c - 8 -> 0 <= n < 2 ^ 64 -> 0 <= a -> a + 32 < 2 ^ 64 ->
  serves (h_svcintr H) n (c_x c) f (c_sp0 c - 8) r ->
  exists c1 c', syscall_stub H n a c = Some c' /\ called c1 f 0 ESR_SVC /\
    c_pc c' = c_x c 30 /\ c_x c' 0 = r /\ (forall i, (5 <= i <= 30)%nat -> c_x c' i = c_x c i) /\
    c_sp0 c' = c_sp0 c /\ c_sp1 c' = c_sp1 c /\ c_pstate c' = c_pstate c /\ c_mem c' = c_mem (h_svcintr H c1).
Proof.
  intros W Wp Hel Hsp Hf Hu Hd Hn Ha Ha' Hserve. pose proof (wo_sp0 _ W). pose proof (wo_x _ W) as Wx.
  destruct (exec_stub_enter n c Hel) as (A1 & A2 & A3 & A4 & A5 & A6); [lia|].
  unfold syscall_stub. set (c0 := exec (stub_enter n) c) in *.
  assert (W0 : words_ok c0).
  { split; rewrite ?A2, ?A3, ?A5, ?A6; [|lia|apply W|apply W|apply store64_ok, W].
    intros i. rewrite A1. destruct i as [|i]; simpl; [done|]. destruct (decide _); apply Wx. }
  clearbody c0. pose proof (exception_stack c0 f ltac:(by rewrite A3) Hf ESR_SVC (a + 32)) as Hs.
  pose proof (exception_ok ESR_SVC (a + 32) c0 W0 ltac:(by rewrite A4) ltac:(done) ltac:(lia)) as W1.
  destruct (exception_sys c0 ESR_SVC (a + 32)) as (X1 & X2 & X3). set (c2 := take_exception _ _ c0) in *.
  assert (Ms : c_mem c2 = c_mem c0 /\ c_x c2 = c_x c0 /\ c_sp0 c2 = c_sp0 c0) by done. clearbody c2. destruct Ms as (M1 & M2 & M3).
  rewrite trap_sync. destruct (el0_store c2 f W1 Hs) as (B1 & B2 & B3 & B4 & B5 & B6). rewrite X1, X2, A4, M2, M3, A2 in B2.
  set (c3 := exec el0_store_trap_frame c2) in *. clearbody c3.
  destruct (lower_el_sync_svc H c3) as (c1 & C1 & C2 & ->); [unfold c_el; rewrite B5; apply Hs|congruence|]. rewrite B1 in C1.
  pose proof (fr_x _ _ _ _ _ _ B2) as Fx.
  destruct (Hserve c1) as (D1 & D2 & D3 & D4 & D5); [done| | |].
  { rewrite C2. specialize (Fx 0%nat ltac:(lia)). rewrite A1 in Fx. cbn [stub_x] in Fx. rewrite <- Fx. f_equal. lia. }
  { intros k Hk. rewrite C2, Fx, A1 by lia. cbn [stub_x]. by rewrite decide_True. }
  destruct (el0_load (h_svcintr H c1) f (<[0%nat := r]> (c_x c0)) (c_sp0 c - 8) (a + 32) (c_pstate c)) as ([R1 R2 R3 R4] & R5 & R6);
    [done|done|lia|lia|rewrite <- C2 in B2; by eapply frame_result|].
  set (c4 := el0_load_trap_frame_and_ret _) in *. clearbody c4. cbn [mbind option_bind].
  assert (E4 : c_el c4 = 0) by (unfold c_el in *; by rewrite R3). rewrite R2, E4, Z.eqb_refl. cbn [Z.eqb andb].
  destruct (stub_return c4 E4) as (G1 & G2 & G3 & G4 & G5 & G6 & G7). exists c1. eexists. split; [done|]. split; [done|].
  set (c5 := br 30 _) in *. clearbody c5. rewrite G1, G4, G5, G6, G7, R5, R6, (R1 30%nat), u64_small by lia. split_and!; try done; try lia.
  - rewrite fn_lookup_insert_ne, A1 by done. done.
  - rewrite G3, R1 by lia. apply fn_lookup_insert.
  - intros i Hi. destruct (decide (i = 5%nat)) as [->|Hne].
    + rewrite G2, R5. erewrite load64_ext; [|intros; rewrite R4; apply D5; lia].
      rewrite C2. erewrite load64_ext; [|intros; apply B3; lia]. rewrite M1, A6, load64_store64_eq. apply u64_small, Wx.
    + rewrite G3, R1, fn_lookup_insert_ne, A1 by lia. destruct i as [|i]; [lia|]. cbn [stub_x]. by rewrite decide_False by lia.
Qed.

(** ** Context switches *)

(** The context at [p] ([struct context] of [kernel/proc.h]). *)
Record context (m : mem) (p : Z) (x : nat -> Z) (lr sp : Z) : Prop := {
  ct_x : forall i, (16 <= i <= 29)%nat -> load64 m (p + 8 * (Z.of_nat i - 16)) = x i;
  ct_lr : load64 m (p + 0x70) = lr;
  ct_sp : load64 m (p + 0x78) = sp;
}.

Lemma context_ext m m' p x lr sp :
  context m p x lr sp -> (forall a, p <= a < p + 0x80 -> m' a = m a) -> context m' p x lr sp.
Proof.
  intros [C1 C2 C3] H. split; [intros i Hi; rewrite <- C1 by done|rewrite <- C2|rewrite <- C3];
    apply load64_ext; intros; apply H; lia.
Qed.

Lemma swtch_split : swtch_code =
  [ADD (X 9) (X 0) (Imm 0x80); MOV (X 10) (Reg SP); STP (X 30) (X 10) (Pre (X 9) (-16))] ++ pushes (X 9) 16 7 ++
  MOV (X 9) (Reg (X 1)) :: pops 9 16 7 ++ [LDP (X 30) (X 10) (Post (X 9) 16); MOV SP (Reg (X 10))].
Proof. reflexivity. Qed.

Definition saved (c : cpu) (c' : cpu) : Prop :=
  context (c_mem c') (c_x c 0) (c_x c) (c_x c 30) (c_sp1 c) /\
  (forall a, a < c_x c 0 \/ c_x c 0 + 0x80 <= a -> c_mem c' a = c_mem c a) /\
  c_x c' 1 = c_x c 1 /\ c_el c' = 1.

Lemma swtch_first c :
  c_el c = 1 -> 0 <= c_x c 0 -> c_x c 0 + 0x80 < 2 ^ 64 ->
  let c1 := exec [ADD (X 9) (X 0) (Imm 0x80); MOV (X 10) (Reg SP); STP (X 30) (X 10) (Pre (X 9) (-16))] c in
  c_x c1 9 = c_x c 0 + 0x70 /\ (forall i, i <> 9%nat -> i <> 10%nat -> c_x c1 i = c_x c i) /\ c_el c1 = 1 /\
  c_mem c1 = store64 (store64 (c_mem c) (c_x c 0 + 0x70) (c_x c 30)) (c_x c 0 + 0x78) (c_sp1 c).
Proof.
  intros Hel H0 H1. cbv zeta. set (c1 := set_x (<[10%nat := c_sp1 c]>) (set_x (<[9%nat := c_x c 0 + 0x80]>) c)).
  assert (E : exec [ADD (X 9) (X 0) (Imm 0x80); MOV (X 10) (Reg SP)] c = c1).
  { cbn [exec foldl exec1]. unfold op2. cbn [val get_reg set_reg]. rewrite u64_small by lia. unfold c_el in *.
    cbn [set_x c_pstate]. rewrite Hel. done. }
  change [_; _; _] with ([ADD (X 9) (X 0) (Imm 0x80); MOV (X 10) (Reg SP)] ++ [STP (X 30) (X 10) (Pre (X 9) (-16))]).
  rewrite exec_app, E. assert (E9 : get_reg (X 9) c1 = c_x c 0 + 0x80) by reflexivity.
  destruct (exec_stp_pre 30 10 (X 9) c1) as (A1 & A2 & A3 & A4); [lia|done|done|].
  cbn [exec foldl]. set (c2 := exec1 _ c1) in *. clearbody c2. rewrite E9 in *. split_and!.
  - cbn [get_reg] in A1. lia.
  - intros i H9 H10. specialize (A2 (X i) ltac:(congruence)). cbn [get_reg] in A2. rewrite A2. cbn [c1 set_x c_x].
    by rewrite !fn_lookup_insert_ne.
  - rewrite (same_rest_el _ _ A4). done.
  - rewrite A3. cbn [c1 set_x c_x c_mem]. rewrite !fn_lookup_insert, !fn_lookup_insert_ne by done. f_equal; [f_equal; lia|lia].
Qed.

Lemma swtch_save c :
  words_ok c -> c_el c = 1 -> 0 <= c_x c 0 -> c_x c 0 + 0x80 < 2 ^ 64 ->
  saved c (exec ([ADD (X 9) (X 0) (Imm 0x80); MOV (X 10) (Reg SP); STP (X 30) (X 10) (Pre (X 9) (-16))] ++ pushes (X 9) 16 7) c).
Proof.
  intros W Hel H0 H1. destruct (swtch_first c Hel H0 H1) as (A1 & A2 & A3 & A4). rewrite exec_app.
  set (c1 := exec [_; _; _] c) in *. clearbody c1.
  destruct (exec_pushes (X 9) 16 7 c1) as (B1 & B2 & B3 & B4); [cbn [get_reg]; lia|intros i Hi; injection; lia|].
  set (c2 := exec (pushes _ _ _) c1) in *. clearbody c2. cbn [get_reg] in *. rewrite A1 in *. pose proof (wo_x _ W) as Wx.
  rewrite (push_mem_ext _ (c_x c)) in B3 by (intros; apply A2; lia). rewrite A4 in B3. split; [|split; [|split]].
  - rewrite B3. split.
    + intros i Hi. pose proof (push_mem_word (c_x c) 16 7 (c_x c 0 + 0x70) (store64 (store64 (c_mem c) (c_x c 0 + 112) (c_x c 30)) (c_x c 0 + 120) (c_sp1 c)) (i - 16) ltac:(lia) Wx) as E.
      replace (16 + (i - 16))%nat with i in E by lia. rewrite <- E. f_equal. lia.
    + erewrite load64_ext by (intros; apply push_mem_out; lia). rewrite load64_store64_ne, load64_store64_eq by lia. apply u64_small, Wx.
    + erewrite load64_ext by (intros; apply push_mem_out; lia). rewrite load64_store64_eq. apply u64_small, W.
  - intros a Ha. rewrite B3, push_mem_out by lia. rewrite !store64_out by lia. done.
  - specialize (B2 (X 1) ltac:(done)). cbn [get_reg] in B2. rewrite B2. apply A2; done.
  - by rewrite (same_rest_el _ _ B4).
Qed.

Lemma swtch_load c p x lr sp :
  c_el c = 1 -> c_x c 1 = p -> 0 <= p -> p + 0x80 < 2 ^ 64 -> context (c_mem c) p x lr sp ->
  let c' := exec (MOV (X 9) (Reg (X 1)) :: pops 9 16 7 ++ [LDP (X 30) (X 10) (Post (X 9) 16); MOV SP (Reg (X 10))]) c in
  (forall i, (16 <= i <= 29)%nat -> c_x c' i = x i) /\ c_x c' 30 = lr /\ c_sp1 c' = sp /\ c_mem c' = c_mem c /\ c_el c' = 1.
Proof.
  intros Hel Hp H0 H1 [C1 C2 C3]. cbv zeta. rewrite exec_cons, exec_app. cbn [exec1 val get_reg set_reg]. rewrite Hp.
  set (c1 := set_x _ c). assert (E9 : c_x c1 9 = p) by reflexivity. assert (Em : c_mem c1 = c_mem c) by done.
  assert (El : c_el c1 = 1) by done. clearbody c1.
  destruct (exec_pops 9 16 7 c1) as (A1 & A2 & A3 & A4 & A5 & A6); [lia..|]. set (c2 := exec (pops _ _ _) c1) in *. clearbody c2.
  pose proof (same_rest_el _ _ A6) as E2. rewrite E9 in *. rewrite exec_cons.
  destruct (exec_ldp_post 30 10 9 c2) as (B1 & B2 & B3 & B4 & B5 & B6 & B7); [lia..|]. set (c3 := exec1 _ c2) in *. clearbody c3.
  pose proof (same_rest_el _ _ B7) as E3. assert (L3 : c_el c3 = 1) by congruence.
  cbn [exec foldl exec1 val get_reg set_reg]. rewrite L3. cbn [Z.eqb set_sp1 c_x c_sp1 c_mem]. split_and!.
  - intros i Hi. rewrite B4 by lia. rewrite <- C1 by done. replace i with (16 + (i - 16))%nat at 1 by lia. rewrite A2, Em by lia. f_equal. lia.
  - rewrite B2, A1, A5, Em, <- C2. f_equal.
  - rewrite B3, A1, A5, Em, <- C3. f_equal. lia.
  - congruence.
  - exact L3.
Qed.

(** C7: a context switch saves and resumes threads.  [swtch(old, new)] changes
    memory only in [old] and goes on as the thread saved in [new], at its return
    address with its registers [x16] to [x29] and its stack pointer; and when
    any thread later switches to [old], whose words have not been changed in
    between, the first thread goes on where its call returns, with these
    registers and the stack pointer as it had them. *)
Theorem swtch_resumes c x lr sp :
  words_ok c -> c_el c = 1 ->
  0 <= c_x c 0 -> c_x c 0 + 0x80 < 2 ^ 64 -> 0 <= c_x c 1 -> c_x c 1 + 0x80 < 2 ^ 64 ->
  c_x c 0 + 0x80 <= c_x c 1 \/ c_x c 1 + 0x80 <= c_x c 0 -> context (c_mem c) (c_x c 1) x lr sp ->
  (forall a, a < c_x c 0 \/ c_x c 0 + 0x80 <= a -> c_mem (swtch c) a = c_mem c a) /\
  c_pc (swtch c) = lr /\ c_sp1 (swtch c) = sp /\ (forall i, (16 <= i <= 29)%nat -> c_x (swtch c) i = x i) /\
  forall c2, words_ok c2 -> c_el c2 = 1 -> c_x c2 1 = c_x c 0 -> 0 <= c_x c2 0 -> c_x c2 0 + 0x80 < 2 ^ 64 ->
    c_x c2 0 + 0x80 <= c_x c 0 \/ c_x c 0 + 0x80 <= c_x c2 0 ->
    (forall a, c_x c 0 <= a < c_x c 0 + 0x80 -> c_mem c2 a = c_mem (swtch c) a) ->
    c_pc (swtch c2) = c_x c 30 /\ c_sp1 (swtch c2) = c_sp1 c /\
    forall i, (16 <= i <= 29)%nat -> c_x (swtch c2) i = c_x c i.
Proof.
  assert (Hrun : forall c, words_ok c -> c_el c = 1 -> 0 <= c_x c 0 -> c_x c 0 + 0x80 < 2 ^ 64 ->
    0 <= c_x c 1 -> c_x c 1 + 0x80 < 2 ^ 64 -> c_x c 0 + 0x80 <= c_x c 1 \/ c_x c 1 + 0x80 <= c_x c 0 ->
    forall x lr sp, context (c_mem c) (c_x c 1) x lr sp ->
    context (c_mem (swtch c)) (c_x c 0) (c_x c) (c_x c 30) (c_sp1 c) /\
    (forall a, a < c_x c 0 \/ c_x c 0 + 0x80 <= a -> c_mem (swtch c) a = c_mem c a) /\
    c_pc (swtch c) = lr /\ c_sp1 (swtch c) = sp /\ (forall i, (16 <= i <= 29)%nat -> c_x (swtch c) i = x i)).
  { clear. intros c W Hel H0 H1 H2 H3 Hd x lr sp HC. unfold swtch, br. rewrite swtch_split, app_assoc, exec_app.
    destruct (swtch_save c W Hel H0 H1) as (S1 & S2 & S3 & S4). set (c1 := exec (_ ++ _) c) in *. clearbody c1.
    destruct (swtch_load c1 (c_x c 1) x lr sp) as (L1 & L2 & L3 & L4 & L5); [done|done|done|done| |].
    - eapply context_ext; [done|]. intros a Ha. apply S2. lia.
    - set (c2 := exec _ c1) in *. clearbody c2. cbn [set_pc c_mem c_pc c_sp1 c_x]. rewrite L4. by split_and!. }
  intros W Hel H0 H1 H2 H3 Hd HC. destruct (Hrun c W Hel H0 H1 H2 H3 Hd x lr sp HC) as (R1 & R2 & R3 & R4 & R5).
  split_and!; [done..|]. intros c2 W2 Hel2 E2 H0' H1' Hd' Hm.
  destruct (Hrun c2 W2 Hel2 H0' H1' ltac:(lia) ltac:(lia) ltac:(lia) (c_x c) (c_x c 30) (c_sp1 c)) as (_ & _ & T3 & T4 & T5); [|done].
  rewrite E2. by eapply context_ext.
Qed.

(** ** A machine to run them on *)

(** Code at EL0 or EL1 with a kernel stack that ends at 0x2000. *)
Definition cpu_ex (pstate : Z) (x : nat -> Z) : cpu :=
  mk_cpu x 0x8000 0x2000 (fun _ => 0) pstate 0x400 (fun _ => 0).

(** A handler that counts in a global; a system call that returns 7. *)
Definition handlers_ex : handlers := {|
  h_svcintr := set_cmem (fun m => store64 m 0x1ef0 7);
  h_irqintr := set_cmem (fun m => store64 m 0x100 1);
  h_defintr := fun c => c;
  h_errintr := fun c => c;
|}.

Lemma cpu_ex_ok pstate x : (forall i, 0 <= x i < 2 ^ 64) -> words_ok (cpu_ex pstate x).
Proof. intros Hx. by split. Qed.

Definition regs_ex (i : nat) : Z := match i with 0%nat => 0x100 | 1%nat => 0x200 | 30%nat => 0x404 | _ => 5 end.

Lemma regs_ex_ok i : 0 <= regs_ex i < 2 ^ 64.
Proof. unfold regs_ex. repeat case_match; lia. Qed.

Lemma irq_transparent_witness :
  exists c', trap handlers_ex 9 (take_exception 0 0x404 (cpu_ex 0 regs_ex)) = Some c' /\ c_x c' 30 = 0x404 /\ c_pc c' = 0x404.
Proof.
  destruct (irq_transparent handlers_ex (cpu_ex 0 regs_ex) 0x1ef0 (cpu_ex_ok 0 _ regs_ex_ok) ltac:(done) ltac:(done) ltac:(done)
    0 0x404 ltac:(by left) ltac:(done) ltac:(done)) as (c1 & c' & E & _ & _ & _ & X & _ & _ & P & _).
  - intros c1 H1 H2. split_and!; [done|done|]. intros a Ha. apply store64_out. lia.
  - exists c'. split_and!; [exact E|apply (X 30%nat); lia|exact P].
Defined.

Lemma syscall_stub_calls_witness :
  exists c', syscall_stub handlers_ex 3 0x500 (cpu_ex 0 regs_ex) = Some c' /\ c_x c' 0 = 7 /\ c_pc c' = 0x404.
Proof.
  destruct (syscall_stub_calls handlers_ex 3 0x500 (cpu_ex 0 regs_ex) 0x1ef0 7 (cpu_ex_ok 0 _ regs_ex_ok) ltac:(done)
    ltac:(done) ltac:(done) ltac:(done) ltac:(done) ltac:(right; done) ltac:(done) ltac:(done) ltac:(done)) as (c1 & c' & E & _ & P & X & _).
  - intros c1 [Hf Hl He Hs Hel] _ _. split_and!; [exact Hs|exact Hel| | |].
    + apply load64_store64_eq.
    + intros a Ha. apply store64_out. lia.
    + intros a Ha. cbn [cpu_ex c_sp0] in Ha. apply store64_out. lia.
  - exists c'. split_and!; [exact E|exact X|exact P].
Defined.

Lemma swtch_resumes_witness :
  c_pc (swtch (cpu_ex 4 regs_ex)) = 0 /\ c_sp1 (swtch (cpu_ex 4 regs_ex)) = 0.
Proof.
  destruct (swtch_resumes (cpu_ex 4 regs_ex) (fun _ => 0) 0 0 (cpu_ex_ok 4 _ regs_ex_ok)) as (_ & P & S & _);
    [done|done|done|done|done|left; done| |by split].
  split; intros; apply load64_zero; done.
Defined.
