(* ===== verification/Entry.v ===== *)
(** The first instructions of the kernel, [kernel/entry.S] with the values of
    [kernel/sysregs.h]: from the exception level the machine starts in down to
    EL1, the translation tables, the stack of each CPU, and the call of
    [start].

    The addresses the linker gives to labels and objects are those of
    [Symbols]; [entry.S], the tables and the stacks are linked at their
    physical addresses, [start] at its kernel address ([kernel/kernel.ld]).
    The firmware behind [hvc] is an argument. *)

From stdpp Require Import functions.
From S2P Require Import Prelude CString Layout Arm.

(** ** [kernel/sysregs.h] *)
Definition SCR_RESERVED : Z := Z.shiftl 3 4.
Definition SCR_RW : Z := Z.shiftl 1 10.
Definition SCR_HCE : Z := Z.shiftl 1 8.
Definition SCR_SMD : Z := Z.shiftl 1 7.
Definition SCR_NS : Z := Z.shiftl 1 0.
Definition SCR_VALUE : Z := lors [SCR_RESERVED; SCR_RW; SCR_HCE; SCR_SMD; SCR_NS].

Definition SPSR_MASK_ALL : Z := Z.shiftl 7 6.
Definition SPSR_EL1h : Z := Z.shiftl 5 0.
Definition SPSR_EL2h : Z := Z.shiftl 9 0.
Definition SPSR_EL3_VALUE : Z := Z.lor SPSR_MASK_ALL SPSR_EL2h.
Definition SPSR_EL2_VALUE : Z := Z.lor SPSR_MASK_ALL SPSR_EL1h.

Definition HCR_RW : Z := Z.shiftl 1 31.
Definition HCR_VALUE : Z := HCR_RW.

Definition SCTLR_RESERVED : Z := lors [Z.shiftl 3 28; Z.shiftl 3 22; Z.shiftl 1 20; Z.shiftl 1 11].
Definition SCTLR_EE_LITTLE_ENDIAN : Z := Z.shiftl 0 25.
Definition SCTLR_I_CACHE_DISABLED : Z := Z.shiftl 0 12.
Definition SCTLR_D_CACHE_DISABLED : Z := Z.shiftl 0 2.
Definition SCTLR_MMU_DISABLED : Z := Z.shiftl 0 0.
Definition SCTLR_MMU_ENABLED : Z := Z.shiftl 1 0.
Definition SCTLR_VALUE_MMU_DISABLED : Z :=
  lors [SCTLR_RESERVED; SCTLR_EE_LITTLE_ENDIAN; SCTLR_I_CACHE_DISABLED; SCTLR_D_CACHE_DISABLED; SCTLR_MMU_DISABLED].

Definition TCR_T0SZ : Z := 64 - 48.
Definition TCR_T1SZ : Z := Z.shiftl (64 - 48) 16.
Definition TCR_TG0_4K : Z := Z.shiftl 0 14.
Definition TCR_TG1_4K : Z := Z.shiftl 0 30.
Definition TCR_TBI0_IGNORED : Z := Z.shiftl 1 37.
Definition TCR_VALUE : Z := lors [TCR_T0SZ; TCR_T1SZ; TCR_TG0_4K; TCR_TG1_4K; TCR_TBI0_IGNORED].

Definition MT_DEVICE_nGnRnE_FLAGS : Z := 0x00.
Definition MT_NORMAL_NC_FLAGS : Z := 0x44.
Definition MAIR_VALUE : Z :=
  Z.lor (Z.shiftl MT_DEVICE_nGnRnE_FLAGS (8 * MT_DEVICE_nGnRnE)) (Z.shiftl MT_NORMAL_NC_FLAGS (8 * MT_NORMAL_NC)).

Definition NCPU : Z := 4.
Definition KSTACK_SIZE : Z := PG_SIZE * NCPU.
Definition PSCI_CPU_ON : Z := 0xc4000003.
Definition PHY_LINK : Z := PHY_BASE + 0x0.

(** ** [kernel/entry.S] *)
Class Symbols := {
  el1_addr : Z;
  el2_addr : Z;
  kpgdir_addr : Z;
  kstack_addr : Z;
  start_addr : Z;
}.

(** A call of the firmware: [x0] to [x3]. *)
Definition smc_call : Type := Z * Z * Z * Z.

Section entry.
Context `{SY : Symbols} (hvc : cpu -> cpu).

Definition el1_tables : list instr := [
  MOV (X 0) (Imm kpgdir_addr);
  MSR TTBR0_EL1 (X 0);
  MSR TTBR1_EL1 (X 0);
  MOV (X 0) (Imm TCR_VALUE);
  MSR TCR_EL1 (X 0);
  MOV (X 0) (Imm MAIR_VALUE);
  MSR MAIR_EL1 (X 0);
  MRS (X 0) SCTLR_EL1;
  ORR (X 0) (X 0) (Imm SCTLR_MMU_ENABLED);
  MSR SCTLR_EL1 (X 0);
  MRS (X 0) MPIDR_EL1;
  AND (X 0) (X 0) (Imm 3) ].

(** [msr spsel, #1] *)
Definition spsel1 (c : cpu) : cpu := set_pstate (Z.lor (c_pstate c) 1) c.

Definition el1_stack : list instr := [
  MOV (X 2) (Imm kstack_addr);
  ADD (X 2) (X 2) (Imm KSTACK_SIZE);
  MOV (X 1) (Imm PG_SIZE);
  MUL (X 1) (X 1) (Reg (X 0));
  SUB (X 2) (X 2) (Reg (X 1));
  MOV (X 1) (Imm KERN_BASE);
  ADD SP (X 1) (Reg (X 2)) ].

Definition cpu_on (cpu : Z) : list instr := [
  MOV (X 0) (Imm PSCI_CPU_ON);
  MOV (X 1) (Imm cpu);
  MOV (X 2) (Imm PHY_LINK);
  MOV (X 3) (Imm 0) ].

Definition smc (c : cpu) : smc_call * cpu := ((c_x c 0, c_x c 1, c_x c 2, c_x c 3), hvc c).

Definition cpu_enb (c : cpu) : list smc_call * cpu :=
  let '(k1, c) := smc (exec (cpu_on 1) c) in
  let '(k2, c) := smc (exec (cpu_on 2) c) in
  ([k1; k2], c).

Definition to_start (c : cpu) : cpu :=
  let c := exec [MOV (X 1) (Imm start_addr)] c in set_pc (c_x c 1) c.

Definition el1 (c : cpu) : list smc_call * cpu :=
  let c := exec el1_stack (spsel1 (exec el1_tables c)) in
  if negb (c_x c 0 =? 0) then ([], to_start c)
  else let '(k, c) := cpu_enb c in (k, to_start c).

Definition el2_code : list instr := [
  MOV (X 9) (Imm HCR_VALUE);
  MSR HCR_EL2 (X 9);
  MOV (X 9) (Imm SCTLR_VALUE_MMU_DISABLED);
  MSR SCTLR_EL1 (X 9);
  MOV (X 9) (Imm SPSR_EL2_VALUE);
  MSR SPSR_EL2 (X 9);
  MOV (X 9) (Imm el1_addr);
  MSR ELR_EL2 (X 9) ].

(** After [eret] the code at the address returned to runs, here [el1]. *)
Definition el2 (c : cpu) : option (list smc_call * cpu) :=
  let c := eret_with ELR_EL2 SPSR_EL2 (exec el2_code c) in
  if c_pc c =? el1_addr then Some (el1 c) else None.

Definition el3_code : list instr := [
  MOV (X 9) (Imm SCR_VALUE);
  MSR SCR_EL3 (X 9);
  MOV (X 9) (Imm SPSR_EL3_VALUE);
  MSR SPSR_EL3 (X 9);
  MOV (X 9) (Imm el2_addr);
  MSR ELR_EL3 (X 9) ].

Definition el3 (c : cpu) : option (list smc_call * cpu) :=
  let c := eret_with ELR_EL3 SPSR_EL3 (exec el3_code c) in
  if c_pc c =? el2_addr then el2 c else None.

Definition _entry (c : cpu) : option (list smc_call * cpu) :=
  let c := exec [MRS (X 1) CurrentEL; AND (X 1) (X 1) (Imm 0xc)] c in
  if c_x c 1 =? 8 then el2 c
  else if 8 <? c_x c 1 then el3 c
  else Some (el1 c).
End entry.

(** ** From power-on to [start] *)

(** The firmware's calling convention keeps the stack pointer, the status word
    and the system registers. *)
Definition firmware_ok (hvc : cpu -> cpu) : Prop :=
  forall c, c_sp1 (hvc c) = c_sp1 c /\ c_pstate (hvc c) = c_pstate c /\ c_sys (hvc c) = c_sys c.

(** Ready for C code on CPU [i]. *)
Record ready `{Symbols} (i : Z) (c : cpu) : Prop := {
  rd_el : c_el c = 1;
  rd_pc : c_pc c = start_addr;
  rd_sp : c_sp1 c = KERN_BASE + kstack_addr + PG_SIZE * (NCPU - i);
  rd_ttbr : c_sys c TTBR0_EL1 = kpgdir_addr /\ c_sys c TTBR1_EL1 = kpgdir_addr;
  rd_tcr : c_sys c TCR_EL1 = TCR_VALUE /\ c_sys c MAIR_EL1 = MAIR_VALUE;
  rd_mmu : Z.testbit (c_sys c SCTLR_EL1) 0 = true;
}.

Section boot.
Context `{SY : Symbols} (hvc : cpu -> cpu) (FW : firmware_ok hvc).
Context (Hk : 0 <= kstack_addr) (Hk' : KERN_BASE + kstack_addr + KSTACK_SIZE < 2 ^ 64).

Lemma land_3 v : 0 <= Z.land v 3 < 4.
Proof. change 3 with (Z.ones 2). rewrite Z.land_ones by done. by apply Z.mod_pos_bound. Qed.

Lemma exec_tables c :
  let c1 := exec el1_tables c in
  c_x c1 0 = Z.land (c_sys c MPIDR_EL1) 3 /\ c_pstate c1 = c_pstate c /\
  c_sys c1 TTBR0_EL1 = kpgdir_addr /\ c_sys c1 TTBR1_EL1 = kpgdir_addr /\
  c_sys c1 TCR_EL1 = TCR_VALUE /\ c_sys c1 MAIR_EL1 = MAIR_VALUE /\ Z.testbit (c_sys c1 SCTLR_EL1) 0 = true.
Proof.
  cbv zeta. split.
  - change (c_x (exec el1_tables c) 0) with (u64 (Z.land (c_sys c MPIDR_EL1) 3)). apply u64_small. pose proof (land_3 (c_sys c MPIDR_EL1)). lia.
  - split_and!; try reflexivity.
    change (c_sys (exec el1_tables c) SCTLR_EL1) with (u64 (Z.lor (c_sys c SCTLR_EL1) 1)). unfold u64.
    rewrite Z.mod_pow2_bits_low by lia. rewrite Z.lor_spec. by rewrite orb_true_r.
Qed.

Lemma exec_stack c i :
  c_el c = 1 -> c_x c 0 = i -> 0 <= i < 4 ->
  let c1 := exec el1_stack c in
  c_x c1 0 = i /\ c_pstate c1 = c_pstate c /\ c_sys c1 = c_sys c /\ c_sp1 c1 = KERN_BASE + kstack_addr + PG_SIZE * (NCPU - i).
Proof using Hk Hk'.
  intros Hel Hx Hi. cbv zeta. unfold el1_stack. change [_; _; _; _; _; _; _] with
    ([MOV (X 2) (Imm kstack_addr); ADD (X 2) (X 2) (Imm KSTACK_SIZE); MOV (X 1) (Imm PG_SIZE); MUL (X 1) (X 1) (Reg (X 0));
      SUB (X 2) (X 2) (Reg (X 1)); MOV (X 1) (Imm KERN_BASE)] ++ [ADD SP (X 1) (Reg (X 2))]).
  rewrite exec_app. set (c1 := exec _ c).
  assert (E1 : c_x c1 1 = KERN_BASE) by reflexivity. assert (E0 : c_x c1 0 = c_x c 0) by reflexivity.
  assert (E2 : c_x c1 2 = u64 (u64 (kstack_addr + KSTACK_SIZE) - u64 (PG_SIZE * c_x c 0))) by reflexivity.
  assert (Es : c_pstate c1 = c_pstate c /\ c_sys c1 = c_sys c) by done. destruct Es as [Ep Es]. clearbody c1.
  cbn [exec foldl exec1]. unfold op2. cbn [val get_reg set_reg]. unfold c_el in *. rewrite Ep, Hel. cbn [Z.eqb set_sp1 c_x c_pstate c_sys c_sp1].
  rewrite E0, E1, E2, Hx. split_and!; [done..|]. unfold KSTACK_SIZE, PG_SIZE, NCPU, KERN_BASE in *.
  rewrite (u64_small (_ * i)), (u64_small (kstack_addr + _)), (u64_small (_ - _)), u64_small by lia. lia.
Qed.

Lemma exec_cpu_on n c : let c1 := exec (cpu_on n) c in
  (c_x c1 0, c_x c1 1, c_x c1 2, c_x c1 3) = (PSCI_CPU_ON, n, PHY_LINK, 0) /\
  c_sp1 c1 = c_sp1 c /\ c_pstate c1 = c_pstate c /\ c_sys c1 = c_sys c.
Proof. clear. by split_and!. Qed.

Lemma cpu_enb_ok c :
  exists c', cpu_enb hvc c = ([(PSCI_CPU_ON, 1, PHY_LINK, 0); (PSCI_CPU_ON, 2, PHY_LINK, 0)], c') /\
    c_sp1 c' = c_sp1 c /\ c_pstate c' = c_pstate c /\ c_sys c' = c_sys c.
Proof using FW.
  unfold cpu_enb, smc. destruct (exec_cpu_on 1 c) as (A & A1 & A2 & A3). set (c1 := exec (cpu_on 1) c) in *. clearbody c1. rewrite A.
  destruct (FW c1) as (F1 & F2 & F3). set (c2 := hvc c1) in *. clearbody c2.
  destruct (exec_cpu_on 2 c2) as (B & B1 & B2 & B3). set (c3 := exec (cpu_on 2) c2) in *. clearbody c3. rewrite B.
  destruct (FW c3) as (G1 & G2 & G3). exists (hvc c3). split_and!; [done|congruence..].
Qed.

Lemma to_start_ready i c c1 :
  c_el c = 1 -> c_sp1 c = KERN_BASE + kstack_addr + PG_SIZE * (NCPU - i) -> c_sys c = c_sys c1 ->
  c_sys c1 TTBR0_EL1 = kpgdir_addr -> c_sys c1 TTBR1_EL1 = kpgdir_addr ->
  c_sys c1 TCR_EL1 = TCR_VALUE -> c_sys c1 MAIR_EL1 = MAIR_VALUE -> Z.testbit (c_sys c1 SCTLR_EL1) 0 = true ->
  ready i (to_start c).
Proof.
  clear. intros Hel Hsp Es A3 A4 A5 A6 A7. unfold to_start. cbn [exec foldl exec1 val set_reg].
  split; cbn [set_x set_pc c_x c_pc c_sp1 c_sys]; rewrite ?Es; try done.
Qed.

Lemma el1_ready c :
  c_el c = 1 ->
  exists c', ready (Z.land (c_sys c MPIDR_EL1) 3) c' /\
    el1 hvc c = (if Z.land (c_sys c MPIDR_EL1) 3 =? 0 then [(PSCI_CPU_ON, 1, PHY_LINK, 0); (PSCI_CPU_ON, 2, PHY_LINK, 0)] else [], c').
Proof using All.
  intros Hel. unfold el1. set (i := Z.land _ 3). destruct (exec_tables c) as (A1 & A2 & A3 & A4 & A5 & A6 & A7).
  set (c1 := exec el1_tables c) in *. clearbody c1. fold i in A1.
  assert (Hel1 : c_el (spsel1 c1) = 1).
  { unfold spsel1, c_el in *. cbn [set_pstate c_pstate]. rewrite Z.shiftr_lor. change (1 ≫ 2) with 0. rewrite Z.lor_0_r. congruence. }
  destruct (exec_stack (spsel1 c1) i) as (B1 & B2 & B3 & B4); [done|done|apply land_3|].
  set (c2 := exec el1_stack _) in *. assert (Hel2 : c_el c2 = 1) by (unfold c_el in *; by rewrite B2).
  change (c_sys (spsel1 c1)) with (c_sys c1) in B3. clearbody c2. rewrite B1.
  destruct (Z.eqb_spec i 0) as [E|E]; cbn [negb].
  - destruct (cpu_enb_ok c2) as (c3 & -> & S1 & S2 & S3). exists (to_start c3). split; [|done].
    apply (to_start_ready i c3 c1); try done; [unfold c_el in *; by rewrite S2|congruence|congruence].
  - exists (to_start c2). split; [|done]. by apply (to_start_ready i c2 c1).
Qed.

(** C8: from whichever exception level the machine starts in, CPU [i] comes to
    [start] at EL1, with translation on through [kpgdir] for both halves of
    the address space, and with its own page of [kstack] as its stack; the
    first CPU, and no other, asks the firmware to start CPUs 1 and 2 at the
    same entry. *)
Theorem entry_reaches_start c :
  1 <= c_el c <= 3 ->
  let i := Z.land (c_sys c MPIDR_EL1) 3 in
  exists c', ready i c' /\
    _entry hvc c = Some (if i =? 0 then [(PSCI_CPU_ON, 1, PHY_LINK, 0); (PSCI_CPU_ON, 2, PHY_LINK, 0)] else [], c') /\
    KERN_BASE + kstack_addr <= c_sp1 c' - PG_SIZE /\ c_sp1 c' <= KERN_BASE + kstack_addr + KSTACK_SIZE /\
    (forall j cj, j <> i -> ready j cj -> c_sp1 cj <= c_sp1 c' - PG_SIZE \/ c_sp1 c' <= c_sp1 cj - PG_SIZE).
Proof using All.
  intros Hel i.
  assert (Hrun : exists c', ready i c' /\
    _entry hvc c = Some (if i =? 0 then [(PSCI_CPU_ON, 1, PHY_LINK, 0); (PSCI_CPU_ON, 2, PHY_LINK, 0)] else [], c')).
  { assert (H1 : forall c0, c_el c0 = 1 -> c_sys c0 MPIDR_EL1 = c_sys c MPIDR_EL1 -> exists c', ready i c' /\
      el1 hvc c0 = (if i =? 0 then [(PSCI_CPU_ON, 1, PHY_LINK, 0); (PSCI_CPU_ON, 2, PHY_LINK, 0)] else [], c')).
    { intros c0 E0 Em. unfold i. rewrite <- Em. by apply el1_ready. }
    assert (H2 : forall c0, c_sys c0 MPIDR_EL1 = c_sys c MPIDR_EL1 -> exists c', ready i c' /\
      el2 hvc c0 = Some (if i =? 0 then [(PSCI_CPU_ON, 1, PHY_LINK, 0); (PSCI_CPU_ON, 2, PHY_LINK, 0)] else [], c')).
    { intros c0 Em. unfold el2. set (c1 := eret_with _ _ _). assert (E1 : c_pc c1 = el1_addr) by reflexivity.
      destruct (H1 c1) as (c' & R & E); [reflexivity|exact Em|]. exists c'. split; [done|]. by rewrite E1, Z.eqb_refl, E. }
    unfold _entry. set (c0 := exec _ c). assert (Em : c_sys c0 MPIDR_EL1 = c_sys c MPIDR_EL1) by reflexivity.
    assert (E0 : c_x c0 1 = u64 (Z.land (Z.shiftl (c_el c) 2) 12)) by reflexivity. assert (El : c_el c0 = c_el c) by reflexivity. rewrite E0.
    assert (c_el c = 1 \/ c_el c = 2 \/ c_el c = 3) as [E|[E|E]] by lia; rewrite E.
    - destruct (H1 c0) as (c' & R & E'); [congruence|done|]. exists c'. split; [done|]. by rewrite <- E'.
    - apply H2. done.
    - change (u64 (Z.land (Z.shiftl 3 2) 12)) with 12. cbn [Z.eqb Pos.eqb]. change (8 <? 12) with true. cbv iota.
      unfold el3. set (c1 := eret_with _ _ _). assert (E1 : c_pc c1 = el2_addr) by reflexivity. rewrite E1, Z.eqb_refl. by apply H2. }
  destruct Hrun as (c' & R & E). exists c'. split; [done|]. split; [done|]. pose proof (land_3 (c_sys c MPIDR_EL1)) as Hi. fold i in Hi.
  rewrite (rd_sp _ _ R). unfold KSTACK_SIZE, NCPU, PG_SIZE. split_and!; [lia|lia|].
  intros j cj Hj Rj. rewrite (rd_sp _ _ Rj). unfold NCPU, PG_SIZE. lia.
Qed.
End boot.

Definition symbols_ex : Symbols := {|
  el1_addr := 0x40000040; el2_addr := 0x40000020; kpgdir_addr := 0x40003000; kstack_addr := 0x40004000;
  start_addr := 0xffff000040010000;
|}.

Lemma entry_reaches_start_witness :
  let c := mk_cpu (fun _ => 0) 0 0 (fun _ => 0) 0x3cd 0x40000000 (fun _ => 0) in
  exists k c', @_entry symbols_ex (fun c => set_x (<[0%nat := 0]>) c) c = Some (k, c') /\ c_pc c' = 0xffff000040010000.
Proof.
  intros c. destruct (@entry_reaches_start symbols_ex (fun c => set_x (<[0%nat := 0]>) c) ltac:(done) ltac:(done) ltac:(done) c ltac:(done))
    as (c' & R & E & _). eexists _, c'. split; [exact E|]. apply (@rd_pc symbols_ex _ _ R).
Defined.
