(* ===== verification/Ulib.v ===== *)
(** The user library's string routines, [user/ulib.c].

    A C string is the list of its characters before the NUL; a pointer into
    one is an index, NULL is [None].  The routines that write memory take and
    return it.  [gets] reads the standard input one character at a time: the
    input is the list of characters still to come, and [read] returns 0 at its
    end. *)

From S2P Require Import Prelude CString.

(** The string at the beginning of an array. *)
Fixpoint cstr (l : list Z) : list Z :=
  match l with
  | c :: l' => if c =? 0 then [] else c :: cstr l'
  | [] => []
  end.

Definition no_nuls (l : list Z) : Prop := Forall (fun c => c <> 0) l.

(** [strcpy] writes the characters of [t] and a NUL at [s]. *)
Fixpoint strcpy (m : mem) (s : Z) (t : list Z) : mem :=
  match t with
  | c :: t' => strcpy (store8 m s c) (s + 1) t'
  | [] => store8 m s 0
  end.

Fixpoint strcmp (p q : list Z) : Z :=
  match p, q with
  | a :: p', b :: q' => if a =? b then strcmp p' q' else u8 a - u8 b
  | a :: _, [] => u8 a
  | [], b :: _ => - u8 b
  | [], [] => 0
  end.

Fixpoint strlen_from (n : Z) (s : list Z) : Z :=
  match s with
  | _ :: s' => strlen_from (s32 (n + 1)) s'
  | [] => u32 n
  end.
Definition strlen (s : list Z) : Z := strlen_from 0 s.

Fixpoint memset_loop (n : nat) (m : mem) (dst c i : Z) : mem :=
  match n with
  | O => m
  | S n' => memset_loop n' (store8 m (dst + i) c) dst c (i + 1)
  end.
Definition memset (m : mem) (dst c n : Z) : mem := memset_loop (Z.to_nat n) m dst c 0.

(** The index of the first [c] in the string [s]. *)
Fixpoint strchr (s : list Z) (c : Z) : option nat :=
  match s with
  | x :: s' => if x =? c then Some O else S <$> strchr s' c
  | [] => None
  end.

(** What [gets] leaves in the buffer before the NUL, and the input it leaves. *)
Fixpoint gets_loop (n : nat) (input : list Z) : list Z * list Z :=
  match n, input with
  | S n', c :: input' =>
      if (c =? 10) || (c =? 13) then ([c], input')
      else let '(l, rest) := gets_loop n' input' in (c :: l, rest)
  | _, _ => ([], input)
  end.
Definition gets_line (max : Z) (input : list Z) : list Z * list Z := gets_loop (Z.to_nat (max - 1)) input.

Fixpoint memmove_up (n : nat) (m : mem) (dst src : Z) : mem :=
  match n with
  | O => m
  | S n' => memmove_up n' (store8 m dst (m src)) (dst + 1) (src + 1)
  end.
Fixpoint memmove_down (n : nat) (m : mem) (dst src : Z) : mem :=
  match n with
  | O => m
  | S n' => memmove_down n' (store8 m (dst - 1) (m (src - 1))) (dst - 1) (src - 1)
  end.
Definition memmove (m : mem) (dst src n : Z) : mem :=
  if dst <? src then memmove_up (Z.to_nat n) m dst src
  else memmove_down (Z.to_nat n) m (dst + n) (src + n).

Fixpoint atoi_loop (s : list Z) (n : Z) : Z :=
  match s with
  | c :: s' => if (48 <=? c) && (c <=? 57) then atoi_loop s' (s32 (n * 10 + c - 48)) else n
  | [] => n
  end.
Definition atoi (s : list Z) : Z := atoi_loop s 0.

(** * Lemmas *)

Lemma strcmp_0 p q :
  Forall (fun c => 0 < c < 256) p -> Forall (fun c => 0 < c < 256) q -> strcmp p q = 0 <-> p = q.
Proof.
  revert q. induction p as [|a p IH]; intros [|b q] Hp Hq; simpl; [done| | |].
  - inversion Hq; subst. rewrite u8_small by lia. split; [lia|done].
  - inversion Hp; subst. rewrite u8_small by lia. split; [lia|done].
  - inversion Hp; inversion Hq; subst. destruct (Z.eqb_spec a b) as [->|Hne].
    + rewrite IH by done. split; congruence.
    + rewrite !u8_small by lia. split; [lia|congruence].
Qed.

Lemma strlen_length s : Z.of_nat (length s) < 2 ^ 31 -> strlen s = Z.of_nat (length s).
Proof.
  unfold strlen. assert (H : forall s n, 0 <= n -> n + Z.of_nat (length s) < 2 ^ 31 ->
    strlen_from n s = n + Z.of_nat (length s)).
  { induction s0 as [|c s0 IH]; intros n Hn Hl; cbn [strlen_from length] in *.
    - rewrite u32_small by lia. lia.
    - rewrite s32_small by lia. rewrite IH by lia. lia. }
  intros Hs. rewrite H by lia. lia.
Qed.

Lemma strchr_Some s c i :
  strchr s c = Some i <-> s !! i = Some c /\ Forall (fun x => x <> c) (take i s).
Proof.
  revert i. induction s as [|x s IH]; intros i; simpl; [split; [done|by intros [? _]]|].
  destruct (Z.eqb_spec x c) as [->|Hne].
  - split; [by intros [= <-]|]. intros [Hi Hf]. destruct i as [|i]; [done|]. simpl in *. inversion Hf; done.
  - destruct i as [|i].
    + split; [by intros (j & ? & ?)%fmap_Some|]. intros [Hi _]. simpl in Hi. congruence.
    + simpl. rewrite fmap_Some. split.
      * intros (j & Hj & [= ->]). apply IH in Hj as [H1 H2]. split; [done|]. by constructor.
      * intros [H1 H2]. exists i. split; [|done]. apply IH. split; [done|]. by inversion H2.
Qed.

Lemma strchr_None s c : strchr s c = None <-> c ∉ s.
Proof.
  induction s as [|x s IH]; simpl; [split; [intros _; apply not_elem_of_nil|done]|].
  rewrite not_elem_of_cons. destruct (Z.eqb_spec x c) as [->|Hne]; [split; [done|tauto]|].
  rewrite fmap_None, IH. split; [auto|tauto].
Qed.

Lemma cstr_no_nuls l : no_nuls l -> cstr l = l.
Proof.
  induction 1 as [|c l Hc _ IH]; simpl; [done|]. destruct (Z.eqb_spec c 0); [done|]. by rewrite IH.
Qed.

Lemma cstr_app l l' : no_nuls l -> cstr (l ++ l') = l ++ cstr l'.
Proof.
  induction 1 as [|c l Hc _ IH]; simpl; [done|]. destruct (Z.eqb_spec c 0); [done|]. by rewrite IH.
Qed.
