(* ===== verification/Umalloc.v ===== *)
(** The user library's memory allocator, [user/umalloc.c].

    Memory is the process's bytes below its size [u_brk]; an access elsewhere
    is a fault.  A [Header] is sixteen bytes, the pointer first and then the
    four bytes of the size, in units of headers; [base] is its static
    instance.  [sbrk] is what the kernel promises ([Sbrk]): new memory at the
    end of the process, or -1.

    The heap is described as a row of segments from its first byte to the end
    of the process, each free or in use: no byte is in two of them and none is
    lost. *)

From S2P Require Import Prelude CString.

Record uheap : Type := mk_uheap {
  u_mem : mem;
  u_brk : Z;
  u_freep : Z;
}.

Definition set_umem (f : mem -> mem) (s : uheap) : uheap := mk_uheap (f (u_mem s)) (u_brk s) (u_freep s).
Definition set_freep (v : Z) (s : uheap) : uheap := mk_uheap (u_mem s) (u_brk s) v.

Definition load32 (m : mem) (a : Z) : Z := le_combine (load_bytes m a 4).
Definition store32 (m : mem) (a v : Z) : mem := store_bytes m a (le_split 4 v).

Definition HEADER : Z := 16.

(** The static [base], and the system call. *)
Class Libc := {
  base : Z;
  sbrk : Z -> M uheap Z;
}.

Section umalloc.
Context `{LC : Libc}.

Definition access (a n : Z) : M uheap unit :=
  ok ← gets (fun s => (0 <=? a) && (a + n <=? u_brk s));
  if (ok : bool) then mret tt else undefined "fault".

(** [p->s.ptr] and [p->s.size], read and written. *)
Definition get_ptr (p : Z) : M uheap Z := access p 8;; gets (fun s => load64 (u_mem s) p).
Definition get_size (p : Z) : M uheap Z := access (p + 8) 4;; gets (fun s => load32 (u_mem s) (p + 8)).
Definition put_ptr (p v : Z) : M uheap unit := access p 8;; modify (set_umem (fun m => store64 m p v)).
Definition put_size (p v : Z) : M uheap unit := access (p + 8) 4;; modify (set_umem (fun m => store32 m (p + 8) (u32 v))).

(** One test of the [for] of [free]. *)
Definition free_body (bp p : Z) : M uheap (Z + Z) :=
  q ← get_ptr p;
  if (p <? bp) && (bp <? q) then mret (inr p)
  else if (q <=? p) && ((p <? bp) || (bp <? q)) then mret (inr p)
  else mret (inl q).

(** The first [if] of [free]: join the block with the one behind it. *)
Definition join_next (bp p : Z) : M uheap unit :=
  n ← get_size bp;
  q ← get_ptr p;
  if bp + HEADER * n =? q then
    m ← get_size q;
    put_size bp (n + m);;
    r ← get_ptr q;
    put_ptr bp r
  else put_ptr bp q.

(** The second one: join the block before it with it. *)
Definition join_prev (bp p : Z) : M uheap unit :=
  k ← get_size p;
  if p + HEADER * k =? bp then
    n ← get_size bp;
    put_size p (k + n);;
    r ← get_ptr bp;
    put_ptr p r
  else put_ptr p bp.

Definition free (fuel : nat) (ap : Z) : M uheap unit :=
  let bp := ap - HEADER in
  p ← gets u_freep;
  p ← loop fuel (free_body bp) p;
  join_next bp p;;
  join_prev bp p;;
  modify (set_freep p).

Definition morecore (fuel : nat) (nu : Z) : M uheap Z :=
  let nu := if nu <? 4096 then 4096 else nu in
  p ← sbrk (s32 (u64 (nu * HEADER)));
  if p =? -1 then mret 0
  else
    put_size p nu;;
    free fuel (p + HEADER);;
    gets u_freep.

(** The body of the [if] that found a block. *)
Definition take (nunits prevp p : Z) : M uheap Z :=
  n ← get_size p;
  p' ← (if n =? nunits then
          q ← get_ptr p;
          put_ptr prevp q;;
          mret p
        else
          put_size p (n - nunits);;
          n ← get_size p;
          let p := p + HEADER * n in
          put_size p nunits;;
          mret p);
  modify (set_freep prevp);;
  mret (p' + HEADER).

(** One pass of the [for] of [malloc], with [prevp] and [p]. *)
Definition malloc_body (fuel : nat) (nunits : Z) (v : Z * Z) : M uheap (Z * Z + Z) :=
  let '(prevp, p) := v in
  n ← get_size p;
  if nunits <=? n then
    r ← take nunits prevp p;
    mret (inr r)
  else
    fp ← gets u_freep;
    if p =? fp then
      p ← morecore fuel nunits;
      if p =? 0 then mret (inr 0)
      else q ← get_ptr p; mret (inl (p, q))
    else q ← get_ptr p; mret (inl (p, q)).

Definition malloc (fuel : nat) (nbytes : Z) : M uheap Z :=
  let nunits := u32 ((nbytes + HEADER - 1) / HEADER + 1) in
  fp ← gets u_freep;
  prevp ← (if fp =? 0 then
             modify (set_freep base);;
             put_ptr base base;;
             put_size base 0;;
             mret base
           else mret fp);
  p ← get_ptr prevp;
  loop fuel (malloc_body fuel nunits) (prevp, p).
End umalloc.

(** ** Headers *)

Definition hptr (m : mem) (p : Z) : Z := load64 m p.
Definition hsize (m : mem) (p : Z) : Z := load32 m (p + 8).

Definition apart (a b : Z) : Prop := a + HEADER <= b \/ b + HEADER <= a.

Lemma load32_ext m m' a : (forall x, a <= x < a + 4 -> m x = m' x) -> load32 m a = load32 m' a.
Proof. intros H. unfold load32. f_equal. by apply load_bytes_ext. Qed.

Lemma store32_out m a v x : x < a \/ a + 4 <= x -> store32 m a v x = m x.
Proof. intros. unfold store32. apply store_bytes_out. rewrite length_le_split. lia. Qed.

Lemma load32_store32_eq m a v : load32 (store32 m a v) a = u32 v.
Proof.
  unfold load32, store32. rewrite load_store_bytes.
  - by rewrite le_combine_split.
  - by rewrite length_le_split.
  - apply le_split_bytes.
Qed.

Lemma store32_ok m a v : bytes_ok m -> bytes_ok (store32 m a v).
Proof. apply store_bytes_ok. Qed.

#[global] Opaque load32 store32.

Section headers.
Context (m : mem) (a b v : Z).

Lemma hptr_put_ptr_ne : apart a b -> hptr (store64 m a v) b = hptr m b.
Proof. unfold apart, HEADER. intros. apply load64_store64_ne. lia. Qed.

Lemma hptr_put_size : a = b \/ apart a b -> hptr (store32 m (a + 8) v) b = hptr m b.
Proof. unfold apart, HEADER. intros. apply load64_ext. intros. apply store32_out. lia. Qed.

Lemma hsize_put_ptr : a = b \/ apart a b -> hsize (store64 m a v) b = hsize m b.
Proof. unfold apart, HEADER. intros. apply load32_ext. intros. apply store64_out. lia. Qed.

Lemma hsize_put_size_ne : apart a b -> hsize (store32 m (a + 8) v) b = hsize m b.
Proof. unfold apart, HEADER. intros. apply load32_ext. intros. apply store32_out. lia. Qed.
End headers.

(** ** Segments *)

(** The size of a segment in units, and whether it is free. *)
Definition seg : Type := Z * bool.

Fixpoint units (L : list seg) : Z :=
  match L with [] => 0 | (n, _) :: L' => n + units L' end.

(** The headers of the free segments of a row that starts at [a]. *)
Fixpoint frees (a : Z) (L : list seg) : list Z :=
  match L with
  | [] => []
  | (n, f) :: L' => if (f : bool) then a :: frees (a + HEADER * n) L' else frees (a + HEADER * n) L'
  end.

(** The size fields of the row. *)
Fixpoint sized (m : mem) (a : Z) (L : list seg) : Prop :=
  match L with
  | [] => True
  | (n, _) :: L' => hsize m a = n /\ sized m (a + HEADER * n) L'
  end.

(** The list from [p] through [l]; the last pointer is [e]. *)
Fixpoint links (m : mem) (p : Z) (l : list Z) (e : Z) : Prop :=
  match l with
  | [] => hptr m p = e
  | q :: l' => hptr m p = q /\ links m q l' e
  end.

Definition starts_free (L : list seg) : bool := match L with (_, true) :: _ => true | _ => false end.
Definition ends_free (L : list seg) : bool := match last L with Some (_, true) => true | _ => false end.

(** No two free segments are neighbours. *)
Fixpoint joined (L : list seg) : Prop :=
  match L with
  | [] => True
  | (_, f) :: L' => (f && starts_free L') = false /\ joined L'
  end.

Definition wide (L : list seg) : Prop := Forall (fun s => 1 <= s.1) L.

Lemma units_app L1 L2 : units (L1 ++ L2) = units L1 + units L2.
Proof. induction L1 as [|[n f] L1 IH]; simpl; lia. Qed.

Lemma units_nonneg L : wide L -> 0 <= units L.
Proof. induction 1 as [|[n f] L]; simpl in *; lia. Qed.

Lemma frees_app a L1 L2 : frees a (L1 ++ L2) = frees a L1 ++ frees (a + HEADER * units L1) L2.
Proof.
  revert a. induction L1 as [|[n f] L1 IH]; intros a; simpl; [f_equal; lia|].
  rewrite IH. replace (a + HEADER * n + HEADER * units L1) with (a + HEADER * (n + units L1)) by lia. by destruct f.
Qed.

Lemma sized_app m a L1 L2 : sized m a (L1 ++ L2) <-> sized m a L1 /\ sized m (a + HEADER * units L1) L2.
Proof.
  revert a. induction L1 as [|[n f] L1 IH]; intros a; simpl.
  - rewrite Z.mul_0_r, Z.add_0_r. naive_solver.
  - rewrite IH. replace (a + HEADER * n + HEADER * units L1) with (a + HEADER * (n + units L1)) by lia. naive_solver.
Qed.

Lemma links_app m p l1 q l2 e : links m p (l1 ++ q :: l2) e <-> links m p l1 q /\ links m q l2 e.
Proof. revert p. induction l1 as [|a l1 IH]; intros p; simpl; [done|]. rewrite IH. naive_solver. Qed.

Lemma links_ext m m' p l e : (forall x, x ∈ p :: l -> hptr m' x = hptr m x) -> links m p l e -> links m' p l e.
Proof.
  revert p. induction l as [|a l IH]; intros p H; simpl.
  - rewrite H by left. done.
  - rewrite H by left. intros [? ?]. split; [done|]. apply IH; [|done]. intros x Hx. apply H. by right.
Qed.

Lemma sized_ext m m' a L :
  wide L -> (forall k, 0 <= k < units L -> hsize m' (a + HEADER * k) = hsize m (a + HEADER * k)) -> sized m a L -> sized m' a L.
Proof.
  intros HW. revert a. induction HW as [|[n f] L Hn HW IH]; intros a H; simpl in *; [done|].
  pose proof (units_nonneg L HW). pose proof (H 0 ltac:(lia)) as Ha. rewrite Z.mul_0_r, Z.add_0_r in Ha. rewrite Ha.
  intros [? ?]. split; [done|]. apply IH; [|done]. intros k Hk.
  replace (a + HEADER * n + HEADER * k) with (a + HEADER * (n + k)) by lia. apply H. lia.
Qed.

Lemma frees_range x a L : wide L -> x ∈ frees a L -> a <= x /\ x + HEADER <= a + HEADER * units L.
Proof.
  intros HW. revert a. induction HW as [|[n f] L Hn HW IH]; intros a; simpl in *; [by intros ?%elem_of_nil|].
  pose proof (units_nonneg L HW). unfold HEADER in *.
  destruct f; [intros [->|Hx]%elem_of_cons|intros Hx]; [lia|apply IH in Hx; lia..].
Qed.

Lemma wide_app L1 L2 : wide (L1 ++ L2) <-> wide L1 /\ wide L2.
Proof. apply Forall_app. Qed.

Lemma wide_cons n f L : wide ((n, f) :: L) <-> 1 <= n /\ wide L.
Proof. unfold wide. by rewrite Forall_cons. Qed.

Lemma joined_app L1 L2 :
  joined (L1 ++ L2) <-> joined L1 /\ joined L2 /\ (ends_free L1 && starts_free L2) = false.
Proof.
  induction L1 as [|[n f] L1 IH]; simpl; [naive_solver|]. rewrite IH. unfold ends_free. rewrite last_cons.
  destruct (last L1) as [[k g]|] eqn:E.
  - destruct L1 as [|[n' f'] L1]; [done|]. simpl. destruct g, f; naive_solver.
  - apply last_None in E as ->. simpl. destruct f; naive_solver.
Qed.

Lemma last_snoc_inv (L : list seg) : ends_free L = true -> exists L' n, L = L' ++ [(n, true)].
Proof.
  unfold ends_free. destruct (last L) as [[n []]|] eqn:E; [|done|done]. intros _. apply last_Some in E as [L' ->]. eauto.
Qed.

(** The segments in use, with their headers' addresses. *)
Fixpoint useds (a : Z) (L : list seg) : list (Z * Z) :=
  match L with
  | [] => []
  | (n, f) :: L' => if (f : bool) then useds (a + HEADER * n) L' else (a, n) :: useds (a + HEADER * n) L'
  end.

Lemma useds_app a L1 L2 : useds a (L1 ++ L2) = useds a L1 ++ useds (a + HEADER * units L1) L2.
Proof.
  revert a. induction L1 as [|[n f] L1 IH]; intros a; simpl; [f_equal; lia|].
  rewrite IH. replace (a + HEADER * n + HEADER * units L1) with (a + HEADER * (n + units L1)) by lia. by destruct f.
Qed.

Lemma useds_range p n a L : wide L -> (p, n) ∈ useds a L -> a <= p /\ 1 <= n /\ p + HEADER * n <= a + HEADER * units L.
Proof.
  intros HW. revert a. induction HW as [|[k f] L Hn HW IH]; intros a; simpl in *; [by intros ?%elem_of_nil|].
  pose proof (units_nonneg L HW). unfold HEADER in *.
  destruct f; [intros Hx|intros [[= -> ->]|Hx]%elem_of_cons]; [apply IH in Hx; lia|lia|apply IH in Hx; lia].
Qed.

Lemma useds_split a L U1 U2 p n :
  useds a L = U1 ++ (p, n) :: U2 ->
  exists L1 L2, L = L1 ++ (n, false) :: L2 /\ p = a + HEADER * units L1 /\ useds a L1 = U1 /\ useds (p + HEADER * n) L2 = U2.
Proof.
  revert a U1. induction L as [|[k f] L IH]; intros a U1 E; simpl in E; [by destruct U1|]. destruct f.
  - destruct (IH _ _ E) as (L1 & L2 & -> & -> & E1 & E2). exists ((k, true) :: L1), L2. split_and!; [done|simpl; lia|done|done].
  - destruct U1 as [|u U1]; injection E.
    + intros E2 E1 E0. subst. exists [], L. split_and!; [done|simpl; lia|done|done].
    + intros E' <-. destruct (IH _ _ E') as (L1 & L2 & -> & -> & E1 & E2). exists ((k, false) :: L1), L2.
      split_and!; [done|simpl; lia|simpl; by rewrite E1|done].
Qed.

(** [p] and the blocks behind it, in the order of their addresses. *)
Fixpoint spaced (p : Z) (l : list Z) : Prop :=
  match l with [] => True | q :: l' => p + HEADER <= q /\ spaced q l' end.

(** The last block of the list. *)
Fixpoint final (p : Z) (l : list Z) : Z := match l with [] => p | q :: l' => final q l' end.

Lemma final_app p l1 l2 : final p (l1 ++ l2) = final (final p l1) l2.
Proof. revert p. induction l1 as [|a l1 IH]; intros p; simpl; auto. Qed.

Lemma final_elem p l : final p l ∈ p :: l.
Proof. revert p. induction l as [|a l IH]; intros p; simpl; [by left|]. right. apply IH. Qed.

Lemma spaced_above p l x : spaced p l -> x ∈ l -> p + HEADER <= x.
Proof.
  revert p. induction l as [|q l IH]; intros p; simpl; [by intros _ ?%elem_of_nil|]. intros [H Hl] [->|Hx]%elem_of_cons; [done|].
  specialize (IH q Hl Hx). unfold HEADER in *. lia.
Qed.

Lemma spaced_app p l1 q l2 : spaced p (l1 ++ q :: l2) <-> spaced p (l1 ++ [q]) /\ spaced q l2.
Proof. revert p. induction l1 as [|a l1 IH]; intros p; simpl; [naive_solver|]. rewrite IH. naive_solver. Qed.

Lemma frees_spaced p a L : wide L -> p + HEADER <= a -> spaced p (frees a L).
Proof.
  intros HW. revert p a. induction HW as [|[n f] L Hn HW IH]; intros p a Hp; simpl in *; [done|]. unfold HEADER in *.
  destruct f; [split; [done|]|]; apply IH; lia.
Qed.

Lemma wp_loop_S {S A B} (body : A -> M S (A + B)) fuel l s Q :
  wp (body l) s (fun r s' => match r with inl l' => wp (loop fuel body l') s' Q | inr b => Q b s' end) ->
  wp (loop (Datatypes.S fuel) body l) s Q.
Proof. intros H. simpl. apply wp_bind. eapply wp_mono; [exact H|]. intros [l'|b] s'; [done|apply wp_ret]. Qed.
