(* ===== verification/UmallocSafe.v ===== *)
(** [malloc] and [free] of [user/umalloc.c] keep a well-formed heap and touch
    no block in use.

    The invariant [heap_ok] ties the memory to a row of segments ([Umalloc]):
    every size field is right, the free segments are on the circular list in
    the order of their addresses, and no two of them are neighbours. *)

From S2P Require Import Prelude CString Umalloc.

(** What the allocator relies on.  [sbrk] enters the kernel through [svc], so
    it is a parameter here: the call either fails with [-1] and changes
    nothing, or moves the end of the process by [n] and returns the old end,
    with the bytes below it as they were, as [sys_sbrk] does through
    [growproc] ([ProcGrow]).  The static data is below the heap, and the heap
    ends before [limit]. *)
Class Sbrk `{LC : Libc} (heap0 limit : Z) : Prop := {
  sbrk_grows : forall s n, 0 < n < 2 ^ 31 -> bytes_ok (u_mem s) -> u_brk s <= limit ->
    wp (sbrk n) s (fun r s' => (r = -1 /\ s' = s) \/
      (r = u_brk s /\ u_brk s' = u_brk s + n /\ u_brk s' <= limit /\ u_freep s' = u_freep s /\
       bytes_ok (u_mem s') /\ forall x, x < u_brk s -> u_mem s' x = u_mem s x));
  base_pos : 0 < base;
  base_below : base + HEADER <= heap0;
  limit_small : limit <= 2 ^ 31;
}.

Section proofs.
Context `{LC : Libc} {heap0 limit : Z} {SB : Sbrk heap0 limit}.

(** The heap is the row [L]. *)
Record heap_ok (s : uheap) (L : list seg) : Prop := {
  hk_wide : wide L;
  hk_joined : joined L;
  hk_brk : u_brk s = heap0 + HEADER * units L;
  hk_limit : u_brk s <= limit;
  hk_bytes : bytes_ok (u_mem s);
  hk_sized : sized (u_mem s) heap0 L;
  hk_links : links (u_mem s) base (frees heap0 L) base;
  hk_base : hsize (u_mem s) base = 0;
  hk_freep : u_freep s ∈ base :: frees heap0 L;
}.

Lemma wp_access a n s (Q : unit -> uheap -> Prop) : 0 <= a -> a + n <= u_brk s -> Q tt s -> wp (access a n) s Q.
Proof.
  intros H1 H2 HQ. unfold access. apply wp_bind, wp_gets. rewrite (proj2 (Z.leb_le 0 a)), (proj2 (Z.leb_le (a + n) _)) by done. by apply wp_ret.
Qed.

Section access.
Context (p : Z) (s : uheap) (H0 : 0 <= p) (H1 : p + HEADER <= u_brk s).

Lemma wp_get_ptr Q : Q (hptr (u_mem s) p) s -> wp (get_ptr p) s Q.
Proof using H0 H1. intros HQ. unfold HEADER in *. unfold get_ptr. apply wp_bind, wp_access; [lia|lia|]. by apply wp_gets. Qed.

Lemma wp_get_size Q : Q (hsize (u_mem s) p) s -> wp (get_size p) s Q.
Proof using H0 H1. intros HQ. unfold HEADER in *. unfold get_size. apply wp_bind, wp_access; [lia|lia|]. by apply wp_gets. Qed.

Lemma wp_put_ptr v Q : Q tt (set_umem (fun m => store64 m p v) s) -> wp (put_ptr p v) s Q.
Proof using H0 H1. intros HQ. unfold HEADER in *. unfold put_ptr. apply wp_bind, wp_access; [lia|lia|]. by apply wp_modify. Qed.

Lemma wp_put_size v Q : Q tt (set_umem (fun m => store32 m (p + 8) (u32 v)) s) -> wp (put_size p v) s Q.
Proof using H0 H1. intros HQ. unfold HEADER in *. unfold put_size. apply wp_bind, wp_access; [lia|lia|]. by apply wp_modify. Qed.
End access.

(** ** The search of [free] *)
Definition mapped (s : uheap) (x : Z) : Prop := 0 <= x /\ x + HEADER <= u_brk s.

Section search.
Context (s : uheap) (bp : Z).

(** From a block below [bp] up to the last one. *)
Lemma search_below p F e fuel :
  links (u_mem s) p F e -> spaced p F -> (forall x, x ∈ p :: F -> x < bp /\ mapped s x) -> bp < e \/ e <= p ->
  (length F < fuel)%nat -> wp (loop fuel (free_body bp) p) s (fun r s' => s' = s /\ r = final p F).
Proof.
  revert p fuel. induction F as [|a F IH]; intros p fuel Hl Hs Hx He Hf; (destruct fuel as [|fuel]; simpl in Hf; [lia|]);
    destruct (Hx p ltac:(left)) as [Hp [Hm Hm']]; apply wp_loop_S; unfold free_body; apply wp_bind, wp_get_ptr; [done|done| |done|done|].
  - simpl in Hl. rewrite Hl. rewrite (proj2 (Z.ltb_lt p bp)) by done. destruct He as [He|He].
    + rewrite (proj2 (Z.ltb_lt bp e)) by done. by apply wp_ret.
    + destruct (bp <? e); [by apply wp_ret|]. rewrite (proj2 (Z.leb_le e p)) by done. by apply wp_ret.
  - destruct Hl as [-> Hl], Hs as [Hs Hs']. destruct (Hx a ltac:(right; left)) as [Ha _]. unfold HEADER in *.
    rewrite (proj2 (Z.ltb_ge bp a)), (proj2 (Z.leb_gt a p)), andb_false_r by lia. apply wp_ret.
    eapply wp_mono; [apply IH; [done|done|intros x Hx'; apply Hx; by right|lia|lia]|].
    done.
Qed.

(** From a block above it, around to [base]. *)
Lemma search_above p F F1 e fuel :
  links (u_mem s) p F base -> spaced p F -> (forall x, x ∈ p :: F -> bp < x /\ mapped s x) ->
  links (u_mem s) base F1 e -> spaced base F1 -> (forall x, x ∈ base :: F1 -> x < bp /\ mapped s x) -> bp < e ->
  (length F + 1 + length F1 < fuel)%nat -> wp (loop fuel (free_body bp) p) s (fun r s' => s' = s /\ r = final base F1).
Proof.
  intros Hl Hs Hx Hl1 Hs1 Hx1 He. revert p fuel Hl Hs Hx.
  induction F as [|a F IH]; intros p fuel Hl Hs Hx Hf; (destruct fuel as [|fuel]; simpl in Hf; [lia|]);
    destruct (Hx p ltac:(left)) as [Hp [Hm Hm']]; apply wp_loop_S; unfold free_body; apply wp_bind, wp_get_ptr; [done|done| |done|done|].
  - simpl in Hl. rewrite Hl. destruct (Hx1 base ltac:(left)) as [Hb _].
    rewrite (proj2 (Z.ltb_ge p bp)), (proj2 (Z.ltb_ge bp base)) by lia. cbn [orb]. rewrite !andb_false_r. apply wp_ret.
    apply (search_below _ _ e); [done|done|done|by left|lia].
  - destruct Hl as [-> Hl], Hs as [Hs Hs']. unfold HEADER in *.
    rewrite (proj2 (Z.ltb_ge p bp)), (proj2 (Z.leb_gt a p)) by lia. apply wp_ret.
    apply IH; [done|done|intros x Hx'; apply Hx; by right|lia].
Qed.
End search.

Lemma links_split m l1 l2 e : links m base (l1 ++ l2) e -> links m base l1 (hd e l2) /\ (forall a l, l2 = a :: l -> links m a l e).
Proof. destruct l2 as [|a l]; [rewrite app_nil_r; naive_solver|]. rewrite links_app. naive_solver. Qed.

Lemma list_from m p l q e : q ∈ p :: l -> links m p l e -> spaced p l ->
  exists F, links m q F e /\ spaced q F /\ final p l = final q F /\ (length F <= length l)%nat /\ (forall x, x ∈ q :: F -> x ∈ p :: l) /\ p <= q.
Proof.
  revert p. induction l as [|a l IH]; intros p [->|Hq]%elem_of_cons Hl Hs; [by exists []| |by exists (a :: l)|].
  - by apply elem_of_nil in Hq.
  - destruct Hl as [_ Hl], Hs as [Ha Hs]. destruct (IH a Hq Hl Hs) as (F & ? & ? & ? & ? & Hin & ?). exists F.
    split_and!; [done..|simpl; lia| |unfold HEADER in *; lia]. intros x Hx. right. by apply Hin.
Qed.

Lemma links_final m p l e : links m p l e -> hptr m (final p l) = e.
Proof. revert p. induction l as [|a l IH]; intros p; simpl; [done|]. intros [_ H]. by apply IH. Qed.

Lemma links_head m p l e : links m p l e -> hptr m p = hd e l.
Proof. destruct l; simpl; [done|]. by intros [? _]. Qed.

Lemma links_set_final m p l e v :
  links m p l e -> spaced p l -> 0 <= v < 2 ^ 64 -> links (store64 m (final p l) v) p l v.
Proof.
  intros Hl Hs Hv. revert p Hl Hs. induction l as [|a l IH]; intros p Hl Hs; simpl in *.
  - unfold hptr. rewrite load64_store64_eq. by apply u64_small.
  - destruct Hl as [Hl Hl'], Hs as [Hs Hs']. split; [|by apply IH]. rewrite hptr_put_ptr_ne; [done|]. right.
    pose proof (final_elem a l) as [->|Hx]%elem_of_cons; [done|]. apply (spaced_above _ _ _ Hs') in Hx. unfold HEADER in *. lia.
Qed.

(** The block before [y] is the only one that points to it. *)
Lemma links_pred m p l1 y l2 e x :
  links m p (l1 ++ y :: l2) e -> spaced p (l1 ++ y :: l2) -> e <= p -> x ∈ p :: l1 ++ y :: l2 -> hptr m x = y -> x = final p l1.
Proof.
  revert p. induction l1 as [|a l1 IH]; intros p Hl Hs He Hx Hy; cbn [app links spaced final] in *.
  - destruct Hl as [Hl Hl'], Hs as [Hs Hs']. apply elem_of_cons in Hx as [->|Hx]; [done|exfalso].
    destruct (list_from m y l2 x e Hx Hl' Hs') as (F & A1 & A2 & _ & _ & A5 & A6). unfold HEADER in *.
    destruct F as [|b F]; simpl in A1; [lia|]. destruct A1 as [A1 _], A2 as [A2 _]. unfold HEADER in *. lia.
  - destruct Hl as [Hl Hl'], Hs as [Hs Hs']. unfold HEADER in *. apply elem_of_cons in Hx as [->|Hx]; [|apply IH; [done|done|lia|done|done]].
    pose proof (spaced_above _ _ y Hs' ltac:(apply elem_of_app; right; left)). unfold HEADER in *. lia.
Qed.

Lemma final_frees p a L :
  (frees a L = [] /\ final p (frees a L) = p) \/
  exists A k B, L = A ++ (k, true) :: B /\ final p (frees a L) = a + HEADER * units A /\
    (B = [] \/ ends_free L = false).
Proof.
  destruct L as [|[k f] L _] using rev_ind; [by left|]. revert k f. induction L as [|[k' f'] L IH] using rev_ind; intros k f.
  - destruct f; [|by left]. right. exists [], k, []. simpl. split_and!; [done|lia|by left].
  - rewrite frees_app. destruct f.
    + right. exists (L ++ [(k', f')]), k, []. rewrite final_app. simpl. by split_and!; [| |left].
    + simpl. rewrite app_nil_r. destruct (IH k' f') as [[E1 E2]|(A & k0 & B & E1 & E2 & _)]; [left|right].
      * rewrite E1. split; [done|]. by rewrite E1 in E2.
      * exists A, k0, (B ++ [(k, false)]). rewrite E1, E2 at 1. split_and!; [by rewrite <- app_assoc|done|right].
        unfold ends_free. by rewrite last_snoc.
Qed.

(** The rows before and behind a segment in use, at [bp]. *)
Section around.
Context (s : uheap) (L1 L2 : list seg) (n : Z) (HO : heap_ok s (L1 ++ (n, false) :: L2)).
Let bp := heap0 + HEADER * units L1.
Let F1 := frees heap0 L1.
Let F2 := frees (bp + HEADER * n) L2.

Lemma around_wide : wide L1 /\ 1 <= n /\ wide L2.
Proof using HO. destruct HO as [[HW1 [Hn HW2]%wide_cons]%wide_app]. done. Qed.

Lemma around_frees : frees heap0 (L1 ++ (n, false) :: L2) = F1 ++ F2.
Proof using. unfold F1, F2, bp. by rewrite frees_app. Qed.

Lemma around_end : u_brk s = bp + HEADER * n + HEADER * units L2.
Proof using HO. rewrite (hk_brk _ _ HO), units_app. simpl. unfold bp, HEADER. lia. Qed.

Lemma around_below x : x ∈ base :: F1 -> 0 <= x /\ x + HEADER <= bp /\ mapped s x.
Proof using HO SB.
  pose proof base_pos. pose proof base_below. pose proof around_end as HE. destruct around_wide as (HW1 & Hn & HW2).
  pose proof (units_nonneg _ HW1). pose proof (units_nonneg _ HW2). unfold mapped, bp, HEADER in *.
  intros [->|Hx]%elem_of_cons; [lia|]. apply frees_range in Hx; [|done]. unfold HEADER in *. lia.
Qed.

Lemma around_above x : x ∈ F2 -> bp + HEADER * n <= x /\ mapped s x.
Proof using HO SB.
  pose proof base_pos. pose proof base_below. pose proof around_end as HE. destruct around_wide as (HW1 & Hn & HW2).
  pose proof (units_nonneg _ HW1). intros Hx. apply frees_range in Hx; [|done]. unfold mapped, bp, HEADER in *. lia.
Qed.

Lemma around_spaced : spaced base F1 /\ spaced bp F2.
Proof using HO SB.
  pose proof base_below. destruct around_wide as (HW1 & Hn & HW2). split; apply frees_spaced; try done. unfold HEADER in *. lia.
Qed.



(** The search ends at the last free block below [bp]. *)
Lemma search_finds fuel :
  (length F1 + length F2 + 1 < fuel)%nat ->
  wp (loop fuel (free_body bp) (u_freep s)) s (fun r s' => s' = s /\ r = final base F1).
Proof using HO SB.
  intros Hf. pose proof (hk_links _ _ HO) as Hl. pose proof (hk_freep _ _ HO) as Hp. rewrite around_frees in *.
  destruct around_spaced as [S1 S2]. destruct (links_split _ _ _ _ Hl) as [K1 K2]. destruct around_wide as (_ & Hn & _).
  assert (B1 : forall x, x ∈ base :: F1 -> x < bp /\ mapped s x) by (intros x [? [? ?]]%around_below; unfold HEADER in *; split; [lia|done]).
  assert (B2 : forall x, x ∈ F2 -> bp < x /\ mapped s x) by (intros x [? ?]%around_above; unfold HEADER in *; split; [lia|done]).
  rewrite app_comm_cons in Hp. apply elem_of_app in Hp as [Hp|Hp].
  - destruct (list_from _ _ _ _ _ Hp K1 S1) as (F & A1 & A2 & A3 & A4 & A5 & A6). rewrite A3.
    apply (search_below s bp (u_freep s) F (hd base F2)); [done|done|intros x Hx; by apply B1, A5| |lia].
    destruct F2 as [|a F2']; [by right|left]. apply B2. left.
  - destruct F2 as [|a F2']; [by apply elem_of_nil in Hp|]. destruct (B2 a ltac:(left)) as [Ha _].
    destruct (list_from _ a F2' _ base Hp (K2 a F2' eq_refl) ltac:(by destruct S2)) as (F & A1 & A2 & A3 & A4 & A5 & A6). simpl in Hf.
    apply (search_above s bp (u_freep s) F F1 a); [done|done|intros x Hx; by apply B2, A5|done|done|done|done|lia].
Qed.

Definition merge_next : Z * list seg :=
  match L2 with (m, true) :: L2' => (n + m, L2') | _ => (n, L2) end.

(** The state between the two joins of [free]. *)
Record half_free (s1 : uheap) : Prop := {
  hf_brk : u_brk s1 = u_brk s;
  hf_freep : u_freep s1 = u_freep s;
  hf_bytes : bytes_ok (u_mem s1);
  hf_sized : sized (u_mem s1) heap0 (L1 ++ (merge_next.1, true) :: merge_next.2);
  hf_links : exists e, links (u_mem s1) base F1 e;
  hf_behind : links (u_mem s1) bp (frees (bp + HEADER * merge_next.1) merge_next.2) base;
  hf_base : hsize (u_mem s1) base = 0;
  hf_only : forall x, x < bp \/ bp + HEADER <= x -> u_mem s1 x = u_mem s x;
}.

Lemma bp_mapped : mapped s bp /\ base + HEADER <= bp.
Proof using HO SB.
  pose proof base_pos. pose proof base_below. pose proof around_end. destruct around_wide as (HW1 & Hn & HW2).
  pose proof (units_nonneg _ HW1). pose proof (units_nonneg _ HW2). unfold mapped, bp, HEADER in *. lia.
Qed.

(** Anything that changes only the header at [bp], to the joined segment. *)
Lemma half_freed m1 q :
  bytes_ok m1 -> (forall x, x < bp \/ bp + HEADER <= x -> m1 x = u_mem s x) ->
  hsize m1 bp = merge_next.1 -> hptr m1 bp = q -> q = hd base (frees (bp + HEADER * merge_next.1) merge_next.2) ->
  half_free (set_umem (fun _ => m1) s).
Proof using HO SB.
  intros Hb Hx Hs Hp Hq. destruct around_wide as (HW1 & Hn & HW2). destruct bp_mapped as [[Hm Hm'] Hb0].
  assert (Hptr : forall x, apart x bp -> hptr m1 x = hptr (u_mem s) x).
  { intros x Hx'. apply load64_ext. intros y Hy. apply Hx. unfold apart, HEADER in *. lia. }
  assert (Hsz : forall x, apart x bp -> hsize m1 x = hsize (u_mem s) x).
  { intros x Hx'. apply load32_ext. intros y Hy. apply Hx. unfold apart, HEADER in *. lia. }
  pose proof (hk_links _ _ HO) as Hl. rewrite around_frees in Hl. destruct (links_split _ _ _ _ Hl) as [K1 K2].
  pose proof (hk_sized _ _ HO) as Hz. apply sized_app in Hz as [Z1 [Z2 Z3]]. fold bp in Z2, Z3.
  split; cbn [set_umem u_brk u_freep u_mem]; try done.
  - apply sized_app. split; [|split; [done|]].
    + eapply (sized_ext (u_mem s)); [done| |done]. intros k Hk. apply Hsz. left. unfold bp, HEADER in *. lia.
    + fold bp. unfold merge_next in *. destruct L2 as [|[m []] L2']; cbn [fst snd] in *; [done| |].
      * destruct Z3 as [_ Z3]. apply wide_cons in HW2 as [Hm2 HW2]. replace (bp + HEADER * (n + m)) with (bp + HEADER * n + HEADER * m) by lia.
        eapply (sized_ext (u_mem s)); [done| |done]. intros k Hk. apply Hsz. right. unfold HEADER in *. lia.
      * eapply (sized_ext (u_mem s)); [done| |done]. intros k Hk. apply Hsz. right. unfold HEADER in *. lia.
  - eexists. eapply links_ext; [|exact K1]. intros x Hx'. apply Hptr. left. by apply around_below.
  - assert (Hsub : exists l0, F2 = l0 ++ frees (bp + HEADER * merge_next.1) merge_next.2).
    { unfold F2, merge_next. destruct L2 as [|[m []] L2']; [by exists []| |by exists []]. exists [bp + HEADER * n]. simpl.
      by replace (bp + HEADER * (n + m)) with (bp + HEADER * n + HEADER * m) by lia. }
    destruct Hsub as [l0 E0]. destruct (frees (bp + HEADER * merge_next.1) merge_next.2) as [|a l]; simpl in *; [congruence|].
    split; [congruence|]. eapply (links_ext (u_mem s)).
    + intros x Hx'. apply Hptr. right. assert (Hx2 : x ∈ F2) by (rewrite E0; apply elem_of_app; by right).
      apply around_above in Hx2. unfold HEADER in *. lia.
    + rewrite E0, app_assoc in Hl. by apply links_app in Hl as [_ Hl].
  - rewrite Hsz; [apply HO|by left].
Qed.

Lemma hptr_range m p : bytes_ok m -> 0 <= hptr m p < 2 ^ 64.
Proof. apply load64_range. Qed.

(** One header rewritten. *)
Lemma put_header m p v k :
  bytes_ok m -> 0 <= v < 2 ^ 64 -> 0 <= k < 2 ^ 32 ->
  let m' := store64 (store32 m (p + 8) k) p v in
  bytes_ok m' /\ hptr m' p = v /\ hsize m' p = k /\ forall x, x < p \/ p + HEADER <= x -> m' x = m x.
Proof.
  intros Hb Hv Hk m'. unfold m', HEADER. split_and!.
  - by apply store64_ok, store32_ok.
  - unfold hptr. rewrite load64_store64_eq. by apply u64_small.
  - rewrite hsize_put_ptr by (by left). unfold hsize. rewrite load32_store32_eq. by apply u32_small.
  - intros x Hx. rewrite store64_out, store32_out by lia. done.
Qed.

Lemma join_next_ok : wp (join_next bp (final base F1)) s (fun _ s1 => half_free s1).
Proof using HO SB.
  destruct bp_mapped as [[Hm Hm'] Hb0]. destruct around_wide as (HW1 & Hn & HW2). pose proof around_end as HE. pose proof (hk_limit _ _ HO).
  pose proof limit_small as Hlim. pose proof (hk_bytes _ _ HO) as Hbm.
  destruct (around_below (final base F1) (final_elem _ _)) as (P0 & P1 & [P2 P3]).
  pose proof (hk_links _ _ HO) as Hl. rewrite around_frees in Hl. destruct (links_split _ _ _ _ Hl) as [K1 K2].
  pose proof (hk_sized _ _ HO) as Hz. apply sized_app in Hz as [Z1 [Z2 Z3]]. fold bp in Z2, Z3.
  pose proof (links_final _ _ _ _ K1) as Hq.
  unfold join_next. apply wp_bind, wp_get_size; [done|done|]. rewrite Z2. apply wp_bind, wp_get_ptr; [done|done|]. rewrite Hq.
  destruct (starts_free L2) eqn:Es.
  - assert (exists m L2', L2 = (m, true) :: L2') as (m & L2' & EL) by (destruct L2 as [|[m []] L2']; [done|eauto|done]).
    assert (EF : F2 = (bp + HEADER * n) :: frees (bp + HEADER * n + HEADER * m) L2') by (unfold F2; by rewrite EL).
    destruct (around_above (bp + HEADER * n)) as [_ [Q1 Q2]]; [rewrite EF; left|].
    rewrite EF. cbn [hd]. rewrite Z.eqb_refl. apply wp_bind, wp_get_size; [done|done|]. rewrite EL in Z3. destruct Z3 as [-> Z3].
    rewrite EL in HW2, HE. apply wide_cons in HW2 as [Hm2 HW2]. simpl in HE. pose proof (units_nonneg _ HW2).
    apply wp_bind, wp_put_size; [done|done|]. apply wp_bind, wp_get_ptr; [done|done|]. cbn [set_umem u_mem].
    rewrite hptr_put_size by (right; unfold apart, HEADER in *; lia).
    pose proof (links_head _ _ _ _ (K2 _ _ EF)) as K3. rewrite K3.
    apply wp_put_ptr; [done|done|]. rewrite u32_small by (unfold HEADER in *; lia).
    pose proof (hptr_range (u_mem s) (bp + HEADER * n) Hbm) as Hqr. rewrite K3 in Hqr. set (q := hd base _) in Hqr |- *.
    destruct (put_header (u_mem s) bp q (n + m)) as (A1 & A2 & A3 & A4); [done|done|unfold HEADER in *; lia|].
    apply (half_freed _ q); unfold merge_next; rewrite ?EL; try done. unfold q. cbn [fst snd]. do 2 f_equal. lia.
  - assert (merge_next = (n, L2)) as EM by (unfold merge_next; destruct L2 as [|[m []] L2']; done).
    destruct (Z.eqb_spec (bp + HEADER * n) (hd base F2)) as [E|E].
    { exfalso. destruct L2 as [|[m []] L2'] eqn:EL; [|done|]; [unfold F2, HEADER in *; simpl in E; lia|].
      apply wide_cons in HW2 as [Hm2 HW2]. unfold F2 in E; cbn [frees] in E. destruct (frees (bp + HEADER * n + HEADER * m) L2') as [|a l] eqn:EF; simpl in E; [unfold HEADER in *; lia|].
      pose proof (frees_range a (bp + HEADER * n + HEADER * m) L2' HW2 ltac:(rewrite EF; left)). unfold HEADER in *. lia. }
    apply wp_put_ptr; [done|done|]. assert (Hqr : 0 <= hd base F2 < 2 ^ 64) by (rewrite <- Hq; apply hptr_range, HO).
    apply (half_freed _ (hd base F2)); rewrite ?EM; cbn [fst snd]; try done.
    + by apply store64_ok.
    + intros x Hx. apply store64_out. unfold HEADER in *. lia.
    + rewrite hsize_put_ptr by (by left). done.
    + unfold hptr. rewrite load64_store64_eq. by apply u64_small.
Qed.

Lemma merge_facts :
  1 <= merge_next.1 /\ wide merge_next.2 /\ joined merge_next.2 /\ starts_free merge_next.2 = false /\ n <= merge_next.1 /\
  merge_next.1 + units merge_next.2 = n + units L2 /\
  useds (bp + HEADER * merge_next.1) merge_next.2 = useds (bp + HEADER * n) L2 /\ (length merge_next.2 <= length L2)%nat.
Proof using HO.
  destruct around_wide as (HW1 & Hn & HW2). pose proof (hk_joined _ _ HO) as HJ. apply joined_app in HJ as (_ & [_ HJ] & _).
  unfold merge_next. destruct L2 as [|[m []] L2']; cbn [fst snd]; [done| |by split_and!].
  apply wide_cons in HW2 as [Hm HW2]. destruct HJ as [HJ1 HJ2]. split_and!; [lia|done|done|by simpl in HJ1|lia|simpl; lia| |simpl; lia].
  simpl. f_equal. lia.
Qed.

(** The row [free] leaves. *)
Definition has_room (k : Z) (L : list seg) : Prop := exists n, (n, true) ∈ L /\ k <= n.

Record released (p : Z) (s2 : uheap) (L' : list seg) : Prop := {
  rl_ok : heap_ok s2 L';
  rl_useds : useds heap0 L' = useds heap0 L1 ++ useds (bp + HEADER * n) L2;
  rl_freep : u_freep s2 = p;
  rl_brk : u_brk s2 = u_brk s;
  rl_room : has_room n L';
  rl_length : (length L' <= S (length L1 + length L2))%nat;
  rl_only : forall x, x < bp \/ bp + HEADER <= x -> x < p \/ p + HEADER <= x -> u_mem s2 x = u_mem s x;
}.

(** The block before is in use, or there is none. *)
Lemma link_prev s1 :
  half_free s1 -> ends_free L1 = false -> exists L',
  released (final base F1) (set_freep (final base F1) (set_umem (fun m => store64 m (final base F1) bp) s1)) L'.
Proof using HO SB.
  intros [B1 B2 B3 B4 [e B5] B6 B7 B8] He. destruct merge_facts as (M1 & M2 & M3 & M4 & M5 & M6 & M7 & M8).
  destruct bp_mapped as [[Hm Hm'] Hb0]. destruct around_wide as (HW1 & Hn & HW2). pose proof around_end as HE. pose proof (hk_limit _ _ HO).
  pose proof limit_small as Hlim. destruct (around_below (final base F1) (final_elem _ _)) as (P0 & P1 & [P2 P3]). destruct around_spaced as [S1 S2].
  pose proof (hk_joined _ _ HO) as HJ. apply joined_app in HJ as (HJ1 & [_ HJ2] & _). pose proof base_below.
  set (n' := merge_next.1) in *. set (L2' := merge_next.2) in *. set (p := final base F1) in *.
  assert (HW : wide (L1 ++ (n', true) :: L2')) by (apply wide_app; split; [done|by apply wide_cons]).
  assert (EF : frees heap0 (L1 ++ (n', true) :: L2') = F1 ++ bp :: frees (bp + HEADER * n') L2') by (by rewrite frees_app).
  assert (Hpa : p = base \/ exists j, p = heap0 + HEADER * j /\ 0 <= j).
  { destruct (final_frees base heap0 L1) as [[_ E2]|(A & k & B & -> & E2 & _)]; [by left|right]. exists (units A). split; [done|].
    apply wide_app in HW1 as [HW1 _]. by apply units_nonneg. }
  exists (L1 ++ (n', true) :: L2'). split; cbn [set_freep set_umem u_mem u_brk u_freep].
  - split; cbn [set_freep set_umem u_mem u_brk u_freep]; try done.
    + apply joined_app. split_and!; [done|simpl; by rewrite M4|by rewrite He].
    + rewrite B1, HE, units_app. simpl. unfold bp. lia.
    + by rewrite B1.
    + by apply store64_ok.
    + eapply (sized_ext (u_mem s1)); [done| |done]. intros k Hk. apply hsize_put_ptr. unfold apart, HEADER in *.
      destruct Hpa as [->|(j & -> & Hj)]; lia.
    + rewrite EF. apply links_app. split.
      * apply (links_set_final _ _ _ e); [done|done|]. unfold HEADER in *. lia.
      * eapply links_ext; [|exact B6]. intros x Hx. apply hptr_put_ptr_ne. left.
        apply elem_of_cons in Hx as [->|Hx]; [done|]. apply frees_range in Hx; [|done]. unfold HEADER in *. lia.
    + rewrite hsize_put_ptr; [done|]. unfold apart, HEADER in *. destruct Hpa as [->|(j & -> & Hj)]; lia.
    + rewrite EF, app_comm_cons. apply elem_of_app. left. apply final_elem.
  - rewrite useds_app. cbn [useds]. fold bp. by rewrite M7.
  - done.
  - done.
  - exists n'. split; [apply elem_of_app; right; left|done].
  - rewrite length_app. cbn [length]. lia.
  - intros x Hx Hx'. rewrite store64_out by (unfold HEADER in *; lia). by apply B8.
Qed.

(** The block before is free: it grows. *)
Lemma grow_prev s1 A k :
  half_free s1 -> L1 = A ++ [(k, true)] ->
  wp (join_prev bp (final base F1)) s1 (fun _ s2 => exists L', released (final base F1) (set_freep (final base F1) s2) L').
Proof using HO SB.
  intros [B1 B2 B3 B4 [e B5] B6 B7 B8] EL. destruct merge_facts as (M1 & M2 & M3 & M4 & M5 & M6 & M7 & M8).
  destruct bp_mapped as [[Hm Hm'] Hb0]. destruct around_wide as (HW1 & Hn & HW2). pose proof around_end as HE. pose proof (hk_limit _ _ HO).
  pose proof limit_small as Hlim. destruct (around_below (final base F1) (final_elem _ _)) as (P0 & P1 & [P2 P3]). destruct around_spaced as [S1 S2].
  pose proof (hk_joined _ _ HO) as HJ. apply joined_app in HJ as (HJ1 & [_ HJ2] & _). pose proof base_below.
  set (n' := merge_next.1) in *. set (L2' := merge_next.2) in *. set (p := final base F1) in *.
  assert (EF1 : F1 = frees heap0 A ++ [heap0 + HEADER * units A]) by (unfold F1; by rewrite EL, frees_app).
  assert (Ep : p = heap0 + HEADER * units A) by (unfold p; by rewrite EF1, final_app).
  assert (Eb : bp = p + HEADER * k) by (unfold bp; rewrite EL, units_app, Ep; simpl; unfold HEADER; lia).
  apply sized_app in B4 as (Z1 & Z2 & Z3). fold bp in Z2, Z3. rewrite EL in Z1, HJ1, HW1. apply sized_app in Z1 as (Z0 & Zk & _). rewrite <- Ep in Zk.
  apply wide_app in HW1 as [HWA [Hk _]%wide_cons]. apply joined_app in HJ1 as (HJA & _ & HJk). pose proof (units_nonneg _ HWA). pose proof (units_nonneg _ M2).
  unfold join_prev. apply wp_bind, wp_get_size; [done|by rewrite B1|]. rewrite Zk, <- Eb, Z.eqb_refl.
  apply wp_bind, wp_get_size; [done|by rewrite B1|]. rewrite Z2. apply wp_bind, wp_put_size; [done|by rewrite B1|].
  apply wp_bind, wp_get_ptr; [done|by cbn [set_umem u_brk]; rewrite B1|]. cbn [set_umem u_mem].
  rewrite hptr_put_size by (unfold apart, HEADER in *; lia). rewrite (links_head _ _ _ _ B6).
  apply wp_put_ptr; [done|by cbn [set_umem u_brk]; rewrite B1|]. rewrite u32_small by (unfold HEADER in *; lia).
  pose proof (hptr_range (u_mem s1) bp B3) as Hqr. rewrite (links_head _ _ _ _ B6) in Hqr. set (q := hd base _) in *.
  destruct (put_header (u_mem s1) p q (k + n')) as (G1 & G2 & G3 & G4); [done|done|unfold HEADER in *; lia|].
  exists (A ++ (k + n', true) :: L2'). set (m2 := store64 _ p q) in *.
  change (set_umem _ (set_umem _ s1)) with (set_umem (fun _ => m2) s1). clearbody m2.
  assert (Hsz : forall x, apart x p -> hsize m2 x = hsize (u_mem s1) x).
  { intros x Hx. apply load32_ext. intros y Hy. apply G4. unfold apart, HEADER in *. lia. }
  assert (Hpt : forall x, apart x p -> hptr m2 x = hptr (u_mem s1) x).
  { intros x Hx. apply load64_ext. intros y Hy. apply G4. unfold apart, HEADER in *. lia. }
  assert (EF : frees heap0 (A ++ (k + n', true) :: L2') = frees heap0 A ++ p :: frees (bp + HEADER * n') L2').
  { rewrite frees_app. cbn [frees]. rewrite <- Ep, Eb. do 3 f_equal. lia. }
  rewrite EF1 in B5, S1. apply links_app in B5 as [B5 _]. rewrite <- Ep in B5.
  split; cbn [set_freep set_umem u_mem u_brk u_freep].
  - split; cbn [set_freep set_umem u_mem u_brk u_freep]; try done.
    + apply wide_app. split; [done|]. apply wide_cons. split; [lia|done].
    + apply joined_app. split_and!; [done|simpl; by rewrite M4|]. by simpl in *.
    + rewrite B1, HE, units_app, Eb, Ep. cbn [units]. lia.
    + by rewrite B1.
    + apply sized_app. rewrite <- Ep. split; [|split; [done|]].
      * eapply (sized_ext (u_mem s1)); [done| |done]. intros j Hj. apply Hsz. left. unfold HEADER in *. lia.
      * replace (p + HEADER * (k + n')) with (bp + HEADER * n') by lia.
        eapply (sized_ext (u_mem s1)); [done| |done]. intros j Hj. apply Hsz. right. unfold HEADER in *. lia.
    + rewrite EF. apply links_app. split.
      * eapply links_ext; [|exact B5]. intros x Hx. apply Hpt. left. apply elem_of_cons in Hx as [->|Hx]; [unfold HEADER in *; lia|].
        apply frees_range in Hx; [|done]. unfold HEADER in *. lia.
      * destruct (frees (bp + HEADER * n') L2') as [|a l] eqn:El; simpl in *; [done|]. split; [done|]. destruct B6 as [_ B6].
        eapply links_ext; [|exact B6]. intros x Hx. apply Hpt. right. rewrite <- El in Hx. apply frees_range in Hx; [|done]. unfold HEADER in *. lia.
    + rewrite Hsz; [done|]. left. unfold HEADER in *. lia.
    + rewrite EF. right. apply elem_of_app. right. left.
  - rewrite useds_app, EL, useds_app. cbn [useds]. rewrite <- Ep, app_nil_r, <- M7. do 2 f_equal. lia.
  - done.
  - done.
  - exists (k + n'). split; [apply elem_of_app; right; left|lia].
  - rewrite EL, !length_app. cbn [length]. unfold seg in *. lia.
  - intros x Hx Hx'. rewrite G4 by done. by apply B8.
Qed.

Lemma join_prev_ok s1 :
  half_free s1 -> wp (join_prev bp (final base F1)) s1 (fun _ s2 => exists L', released (final base F1) (set_freep (final base F1) s2) L').
Proof using HO SB.
  intros HF. destruct (ends_free L1) eqn:He.
  - apply last_snoc_inv in He as (A & k & EL). by apply (grow_prev s1 A k).
  - pose proof HF as [B1 _ _ B4 _ _ B7 _]. destruct bp_mapped as [[Hm Hm'] Hb0]. destruct around_wide as (HW1 & _).
    destruct (around_below (final base F1) (final_elem _ _)) as (P0 & P1 & [P2 P3]).
    unfold join_prev. apply wp_bind, wp_get_size; [done|by rewrite B1|].
    destruct (Z.eqb_spec (final base F1 + HEADER * hsize (u_mem s1) (final base F1)) bp) as [E|E].
    + exfalso. destruct (final_frees base heap0 L1) as [[_ E2]|(A & k & B & E1 & E2 & E3)]; fold F1 in E2; rewrite E2 in E.
      * rewrite B7 in E. unfold HEADER in *. lia.
      * apply sized_app in B4 as (Z1 & _). rewrite E1 in Z1. apply sized_app in Z1 as (_ & Zk & _). rewrite Zk in E.
        destruct E3 as [->|E3]; [rewrite E1 in He; unfold ends_free in He; by rewrite last_snoc in He|].
        rewrite E1 in HW1. apply wide_app in HW1 as [_ [_ HW]%wide_cons]. unfold bp in E. rewrite E1, units_app in E. cbn [units] in E.
        destruct B as [|[b f] B]; [rewrite E1 in He; unfold ends_free in He; by rewrite last_snoc in He|].
        apply wide_cons in HW as [Hb HW]. pose proof (units_nonneg _ HW). cbn [units] in E. unfold HEADER in *. lia.
    + apply wp_put_ptr; [done|by rewrite B1|]. by apply link_prev.
Qed.

Lemma free_ok fuel :
  (length F1 + length F2 + 1 < fuel)%nat ->
  wp (free fuel (bp + HEADER)) s (fun _ s' => exists L', released (final base F1) s' L').
Proof using HO SB.
  intros Hf. unfold free. replace (bp + HEADER - HEADER) with bp by lia. apply wp_bind, wp_gets, wp_bind.
  eapply wp_mono; [by apply search_finds|]. intros p s0 [-> ->]. apply wp_bind.
  eapply wp_mono; [apply join_next_ok|]. intros [] s1 H1. apply wp_bind. eapply wp_mono; [by apply join_prev_ok|].
  intros [] s2 H2. by apply wp_modify.
Qed.
End around.

(** ** What is kept *)
Definition kept (m m' : mem) (U : list (Z * Z)) : Prop :=
  forall a k, (a, k) ∈ U -> forall x, a <= x < a + HEADER * k -> m' x = m x.

Lemma useds_frees_apart h L a k p :
  wide L -> (a, k) ∈ useds h L -> p ∈ frees h L -> a + HEADER * k <= p \/ p + HEADER <= a.
Proof.
  intros HW. revert h. induction HW as [|[n f] L Hn HW IH]; intros h; simpl in *; [by intros ?%elem_of_nil|]. destruct f.
  - intros Hu [->|Hp]%elem_of_cons; [|by eapply IH]. apply useds_range in Hu; [|done]. unfold HEADER in *. lia.
  - intros [[= -> ->]|Hu]%elem_of_cons Hp; [|by eapply IH]. apply frees_range in Hp; [|done]. left. lia.
Qed.

Lemma released_kept s L1 L2 n s' L' :
  heap_ok s (L1 ++ (n, false) :: L2) -> released s L1 L2 n (final base (frees heap0 L1)) s' L' ->
  kept (u_mem s) (u_mem s') (useds heap0 L1 ++ useds (heap0 + HEADER * units L1 + HEADER * n) L2).
Proof.
  intros HO HR a k Ha x Hx. destruct (around_wide _ _ _ _ HO) as (HW1 & Hn & HW2). pose proof base_below.
  destruct (around_below _ _ _ _ HO _ (final_elem base (frees heap0 L1))) as (_ & P1 & _).
  apply (rl_only _ _ _ _ _ _ _ HR); apply elem_of_app in Ha as [Ha|Ha]; pose proof Ha as Ha'; apply useds_range in Ha'; try done.
  - lia.
  - unfold HEADER in *. lia.
  - pose proof (final_elem base (frees heap0 L1)) as [->|Hp]%elem_of_cons; [unfold HEADER in *; lia|].
    pose proof (useds_frees_apart _ _ _ _ _ HW1 Ha Hp). lia.
  - unfold HEADER in *. lia.
Qed.

Lemma length_frees a L : (length (frees a L) <= length L)%nat.
Proof. revert a. induction L as [|[n []] L IH]; intros a; simpl; [done|..]; specialize (IH (a + HEADER * n)); lia. Qed.

(** C30: [free] gives a block back.  Called with the address [malloc] returned
    for a block in use, it returns, never touching memory outside the process,
    and leaves a well-formed heap in which exactly that block is no longer in
    use; the other blocks in use have their bytes unchanged. *)
Theorem free_releases s L U1 U2 ap n fuel :
  heap_ok s L -> useds heap0 L = U1 ++ (ap - HEADER, n) :: U2 -> (length L + 1 < fuel)%nat ->
  wp (free fuel ap) s (fun _ s' => exists L', heap_ok s' L' /\ useds heap0 L' = U1 ++ U2 /\
    u_brk s' = u_brk s /\ kept (u_mem s) (u_mem s') (U1 ++ U2)).
Proof using SB.
  intros HO HU Hf. destruct (useds_split _ _ _ _ _ _ HU) as (L1 & L2 & -> & Ea & E1 & E2).
  replace ap with (heap0 + HEADER * units L1 + HEADER) by lia. rewrite length_app in Hf. cbn [length] in Hf.
  eapply wp_mono; [apply (free_ok s L1 L2 n HO)|].
  - pose proof (length_frees heap0 L1). pose proof (length_frees (heap0 + HEADER * units L1 + HEADER * n) L2). unfold seg in *. lia.
  - intros [] s' (L' & HR). pose proof (released_kept _ _ _ _ _ _ HO HR) as HK. rewrite E1, <- Ea, E2 in HK.
    exists L'. destruct HR as [R1 R2 _ R4 _ _ _]. split_and!; [done| |done|done]. by rewrite R2, E1, <- Ea, E2.
Qed.

(** ** Taking a block *)
Lemma frees_split a L p :
  p ∈ frees a L -> exists A k B, L = A ++ (k, true) :: B /\ p = a + HEADER * units A.
Proof.
  revert a. induction L as [|[n f] L IH]; intros a; simpl; [by intros ?%elem_of_nil|].
  assert (Hrec : p ∈ frees (a + HEADER * n) L -> exists A k B, (n, f) :: L = A ++ (k, true) :: B /\ p = a + HEADER * units A).
  { intros Hp. destruct (IH _ Hp) as (A & k & B & -> & ->). exists ((n, f) :: A), k, B. split; [done|]. simpl. lia. }
  destruct f; [|done]. intros [->|Hp]%elem_of_cons; [|by apply Hrec]. exists [], n, L. split; [done|simpl; lia].
Qed.

Record taken (s : uheap) (L : list seg) (nu r : Z) (s' : uheap) (L' : list seg) (U1 U2 : list (Z * Z)) : Prop := {
  tk_ok : heap_ok s' L';
  tk_before : useds heap0 L = U1 ++ U2;
  tk_after : useds heap0 L' = U1 ++ (r - HEADER, nu) :: U2;
  tk_brk : u_brk s' = u_brk s;
  tk_kept : kept (u_mem s) (u_mem s') (U1 ++ U2);
}.

Section take.
Context (s : uheap) (A B : list seg) (k nu : Z) (HO : heap_ok s (A ++ (k, true) :: B)) (Hnu : 1 <= nu <= k).
Let p := heap0 + HEADER * units A.
Let pv := final base (frees heap0 A).

Lemma take_wide : wide A /\ 1 <= k /\ wide B /\ 0 <= units A /\ 0 <= units B /\ u_brk s = p + HEADER * k + HEADER * units B /\
  0 < base /\ base + HEADER <= heap0 /\ k < 2 ^ 32.
Proof using HO SB.
  pose proof (hk_wide _ _ HO) as HW. apply wide_app in HW as [HWA [Hk HWB]%wide_cons]. pose proof base_pos. pose proof base_below.
  pose proof (hk_brk _ _ HO) as HB. rewrite units_app in HB. cbn [units] in HB. pose proof (hk_limit _ _ HO). pose proof limit_small.
  pose proof (units_nonneg _ HWA). pose proof (units_nonneg _ HWB). unfold p, HEADER in *. split_and!; try done; lia.
Qed.

Lemma take_links : links (u_mem s) base (frees heap0 A) p /\ links (u_mem s) p (frees (p + HEADER * k) B) base.
Proof using HO. pose proof (hk_links _ _ HO) as Hl. rewrite frees_app in Hl. cbn [frees] in Hl. by apply links_app in Hl. Qed.

Lemma pv_range : pv = base \/ exists j, pv = heap0 + HEADER * j /\ 0 <= j < units A.
Proof using HO SB.
  destruct take_wide as (HWA & _). destruct (final_frees base heap0 A) as [[_ E]|(A1 & k1 & A2 & -> & E & _)]; [by left|right].
  exists (units A1). split; [done|]. apply wide_app in HWA as [H1 [H2 H3]%wide_cons]. rewrite units_app. cbn [units].
  pose proof (units_nonneg _ H1). pose proof (units_nonneg _ H3). lia.
Qed.

(** The used segments around a free one are not touched by changes inside it
    and in the header before it. *)
Lemma take_kept m' :
  (forall x, x < pv \/ pv + HEADER <= x -> x < p \/ p + HEADER * k <= x -> m' x = u_mem s x) ->
  kept (u_mem s) m' (useds heap0 A ++ useds (p + HEADER * k) B).
Proof using HO SB.
  intros Hm a j Ha x Hx. destruct take_wide as (HWA & Hk & HWB & HA & HB & HE & Hb & Hb0 & _). apply Hm; apply elem_of_app in Ha as [Ha|Ha]; pose proof Ha as Ha'; apply useds_range in Ha'; try done.
  - pose proof (final_elem base (frees heap0 A)) as [E|Hp]%elem_of_cons.
    + fold pv in E. unfold HEADER in *. lia.
    + fold pv in Hp. pose proof (useds_frees_apart _ _ _ _ _ HWA Ha Hp). lia.
  - destruct pv_range as [->|(i & -> & Hi)]; unfold p, HEADER in *; lia.
  - fold p in Ha'. lia.
  - lia.
Qed.

(** The whole of it. *)
Lemma take_whole :
  k = nu -> exists L' U1 U2, taken s (A ++ (k, true) :: B) nu (p + HEADER)
    (set_freep pv (set_umem (fun m => store64 m pv (hptr (u_mem s) p)) s)) L' U1 U2.
Proof using HO SB Hnu.
  destruct take_wide as (HWA & Hk & HWB & HA & HB & HE & Hb & Hb0 & Hk32). destruct take_links as [K1 K2]. pose proof pv_range as Hpv.
  pose proof (hk_joined _ _ HO) as HJ. apply joined_app in HJ as (JA & [JB0 JB] & Jk). cbn [starts_free] in Jk. rewrite andb_true_r in Jk.
  pose proof (hk_sized _ _ HO) as HZ. apply sized_app in HZ as (ZA & Zk & ZB). fold p in Zk, ZB. pose proof (hk_bytes _ _ HO) as Hbm.
  assert (Hpv' : 0 <= pv /\ pv + HEADER <= p) by (destruct Hpv as [->|(i & -> & Hi)]; unfold p, HEADER in *; lia).
  assert (HU : useds heap0 (A ++ (k, true) :: B) = useds heap0 A ++ useds (p + HEADER * k) B) by (by rewrite useds_app).
  assert (Hp : 0 <= p /\ p + HEADER <= u_brk s) by (unfold HEADER in *; lia).
  assert (Hpm : pv + HEADER <= u_brk s) by (unfold HEADER in *; lia).
  pose proof take_kept as TK. intros ->.
  pose proof (hptr_range (u_mem s) p Hbm) as Hqr. rewrite (links_head _ _ _ _ K2) in *. set (q := hd base _) in *.
  exists (A ++ (nu, false) :: B), (useds heap0 A), (useds (p + HEADER * nu) B).
  assert (EF : frees heap0 (A ++ (nu, false) :: B) = frees heap0 A ++ frees (p + HEADER * nu) B) by (by rewrite frees_app).
  split; cbn [set_freep set_umem u_mem u_brk u_freep]; [|done| |done|].
  + split; cbn [set_freep set_umem u_mem u_brk u_freep].
    * apply wide_app. split; [done|]. apply wide_cons. split; [lia|done].
    * apply joined_app. split_and!; [done|done|]. simpl. apply andb_false_r.
    * rewrite HE, units_app. cbn [units]. unfold p. lia.
    * apply HO.
    * by apply store64_ok.
    * eapply (sized_ext (u_mem s)); [apply wide_app; split; [done|]; apply wide_cons; split; [lia|done]| |].
      -- intros j Hj. apply hsize_put_ptr. unfold apart, HEADER in *. destruct Hpv as [->|(i & -> & Hi)]; lia.
      -- apply sized_app. split; [done|]. fold p. split; [done|done].
    * rewrite EF. pose proof (links_set_final (u_mem s) base (frees heap0 A) p q K1 ltac:(apply frees_spaced; [done|lia]) Hqr) as K3. fold pv in K3.
      destruct (frees (p + HEADER * nu) B) as [|a l] eqn:El; [rewrite app_nil_r; by subst q|]. apply links_app. split; [done|].
      destruct K2 as [_ K2]. eapply links_ext; [|exact K2]. intros x Hx. apply hptr_put_ptr_ne. left.
      rewrite <- El in Hx. apply frees_range in Hx; [|done]. unfold HEADER in *. lia.
    * rewrite hsize_put_ptr; [apply HO|]. unfold apart, HEADER in *. destruct Hpv as [->|(i & -> & Hi)]; lia.
    * rewrite EF, app_comm_cons. apply elem_of_app. left. apply final_elem.
  + rewrite useds_app. cbn [useds]. fold p. by replace (p + HEADER - HEADER) with p by lia.
  + apply TK. intros x Hx _. apply store64_out. unfold HEADER in *. lia.
Qed.

(** Its tail. *)
Lemma take_tail :
  nu < k -> exists L' U1 U2, taken s (A ++ (k, true) :: B) nu (p + HEADER * (k - nu) + HEADER)
    (set_freep pv (set_umem (fun m => store32 (store32 m (p + 8) (k - nu)) (p + HEADER * (k - nu) + 8) nu) s)) L' U1 U2.
Proof using HO SB Hnu.
  destruct take_wide as (HWA & Hk & HWB & HA & HB & HE & Hb & Hb0 & Hk32). destruct take_links as [K1 K2]. pose proof pv_range as Hpv.
  pose proof (hk_joined _ _ HO) as HJ. apply joined_app in HJ as (JA & [JB0 JB] & Jk). cbn [starts_free] in Jk. rewrite andb_true_r in Jk.
  pose proof (hk_sized _ _ HO) as HZ. apply sized_app in HZ as (ZA & Zk & ZB). fold p in Zk, ZB. pose proof (hk_bytes _ _ HO) as Hbm.
  assert (Hpv' : 0 <= pv /\ pv + HEADER <= p) by (destruct Hpv as [->|(i & -> & Hi)]; unfold p, HEADER in *; lia).
  assert (HU : useds heap0 (A ++ (k, true) :: B) = useds heap0 A ++ useds (p + HEADER * k) B) by (by rewrite useds_app).
  assert (Hp : 0 <= p /\ p + HEADER <= u_brk s) by (unfold HEADER in *; lia).
  assert (Hpm : pv + HEADER <= u_brk s) by (unfold HEADER in *; lia).
  pose proof take_kept as TK. intros Hne. change (set_umem _ s) with
    (set_umem (fun _ => store32 (store32 (u_mem s) (p + 8) (k - nu)) (p + HEADER * (k - nu) + 8) nu) s).
  set (p' := p + HEADER * (k - nu)) in *. set (m1 := store32 _ (p + 8) _) in *. set (m2 := store32 m1 (p' + 8) nu).
  assert (E1 : hsize m1 p = k - nu) by (unfold m1, hsize; rewrite load32_store32_eq, u32_small by lia; done).
  assert (Hp' : p + HEADER <= p' /\ p' + HEADER <= p + HEADER * k) by (unfold p', HEADER; lia).
  assert (Hm1 : forall x, x < p + 8 \/ p + HEADER <= x -> m1 x = u_mem s x) by (intros x Hx; apply store32_out; unfold HEADER in *; lia).
  assert (Hm2 : forall x, x < p' + 8 \/ p' + HEADER <= x -> m2 x = m1 x) by (intros x Hx; apply store32_out; unfold HEADER in *; lia).
  assert (S1 : hsize m2 p = k - nu).
  { unfold m2. rewrite hsize_put_size_ne; [done|]. unfold apart. lia. }
  assert (S2 : hsize m2 p' = nu) by (unfold m2, hsize; rewrite load32_store32_eq, u32_small by lia; done).
  assert (S3 : forall x, apart x p -> apart x p' -> hsize m2 x = hsize (u_mem s) x).
  { intros x H1 H2. unfold m2, m1. unfold apart in *. rewrite !hsize_put_size_ne; [done|unfold apart; lia..]. }
  assert (S4 : forall x, x = p \/ apart x p -> apart x p' -> hptr m2 x = hptr (u_mem s) x).
  { intros x H1 H2. unfold m2, m1. unfold apart in *. rewrite !hptr_put_size; [done|unfold apart; lia..]. }
  assert (Hb2 : bytes_ok m2) by (by do 2 apply store32_ok). clearbody m1 m2.
  exists (A ++ (k - nu, true) :: (nu, false) :: B), (useds heap0 A), (useds (p + HEADER * k) B).
  assert (EF : frees heap0 (A ++ (k - nu, true) :: (nu, false) :: B) = frees heap0 (A ++ (k, true) :: B)).
  { rewrite !frees_app. cbn [frees]. do 3 f_equal. lia. }
  split; cbn [set_freep set_umem u_mem u_brk u_freep]; [|done| |done|].
  + split; cbn [set_freep set_umem u_mem u_brk u_freep].
    * apply wide_app. split; [done|]. rewrite !wide_cons. split_and!; [lia|lia|done].
    * apply joined_app. split_and!; [done|done|]. cbn [starts_free]. by rewrite andb_true_r.
    * rewrite HE, units_app. cbn [units]. unfold p. lia.
    * apply HO.
    * done.
    * apply sized_app. fold p. split; [|split; [done|split; [by fold p'|]]].
      -- eapply (sized_ext (u_mem s)); [done| |done]. intros j Hj. apply S3; left; unfold p', p, HEADER in *; lia.
      -- replace (p + HEADER * (k - nu) + HEADER * nu) with (p + HEADER * k) by lia.
         eapply (sized_ext (u_mem s)); [done| |done]. intros j Hj. apply S3; right; unfold p', HEADER in *; lia.
    * rewrite EF. eapply links_ext; [|apply HO]. intros x Hx. rewrite frees_app in Hx. cbn [frees] in Hx. fold p in Hx.
      rewrite app_comm_cons in Hx. apply elem_of_app in Hx as [[->|Hx]%elem_of_cons|[->|Hx]%elem_of_cons].
      -- apply S4; [right; left|left]; unfold p', p, HEADER in *; lia.
      -- apply frees_range in Hx; [|done]. fold p in Hx. apply S4; [right; left|left]; unfold HEADER in *; lia.
      -- apply S4; [by left|left; lia].
      -- apply frees_range in Hx; [|done]. apply S4; [right; right|right]; unfold HEADER in *; lia.
    * rewrite S3; [apply HO|left..]; unfold p', p, HEADER in *; lia.
    * rewrite EF, frees_app, app_comm_cons. apply elem_of_app. left. apply final_elem.
  + rewrite useds_app. cbn [useds]. fold p. fold p'. replace (p' + HEADER - HEADER) with p' by lia. do 3 f_equal. unfold p'. lia.
  + apply TK. intros x _ Hx. rewrite Hm2, Hm1; [done|unfold HEADER in *; lia..].
Qed.

Lemma take_ok : wp (take nu pv p) s (fun r s' => exists L' U1 U2, taken s (A ++ (k, true) :: B) nu r s' L' U1 U2).
Proof using HO SB Hnu.
  destruct take_wide as (HWA & Hk & HWB & HA & HB & HE & Hb & Hb0 & Hk32). pose proof pv_range as Hpv.
  pose proof (hk_sized _ _ HO) as HZ. apply sized_app in HZ as (ZA & Zk & ZB). fold p in Zk, ZB.
  assert (Hpv' : 0 <= pv /\ pv + HEADER <= p) by (destruct Hpv as [->|(i & -> & Hi)]; unfold p, HEADER in *; lia).
  assert (Hp : 0 <= p /\ p + HEADER <= u_brk s) by (unfold p, HEADER in *; lia).
  assert (Hpm : pv + HEADER <= u_brk s) by (unfold HEADER in *; lia).
  unfold take. apply wp_bind, wp_get_size; [lia|lia|]. rewrite Zk. destruct (Z.eqb_spec k nu) as [E|Hne].
  - do 2 apply wp_bind. apply wp_get_ptr; [lia|lia|]. apply wp_bind, wp_put_ptr; [lia|lia|]. apply wp_ret. apply wp_bind, wp_modify, wp_ret.
    by apply take_whole.
  - do 2 apply wp_bind. apply wp_put_size; [lia|lia|]. apply wp_bind, wp_get_size; [cbn [set_umem u_brk]; lia..|]. cbn [set_umem u_mem].
    assert (E1 : hsize (store32 (u_mem s) (p + 8) (u32 (k - nu))) p = k - nu).
    { unfold hsize. rewrite load32_store32_eq, !u32_small; [done|lia|rewrite u32_small; lia]. }
    rewrite E1. apply wp_bind, wp_put_size; [cbn [set_umem u_brk]; unfold HEADER in *; lia..|]. apply wp_ret, wp_bind, wp_modify, wp_ret.
    rewrite !u32_small by lia. apply take_tail. lia.
Qed.
End take.

(** ** The search of [malloc] *)

(** The circular list seen from any of its blocks. *)
Lemma rotate m p F q :
  links m p F p -> q ∈ p :: F -> exists R, links m q R q /\ q :: R ≡ₚ p :: F.
Proof.
  intros Hl [->|Hq]%elem_of_cons; [by exists F|]. apply list_elem_of_split in Hq as (F1 & F2 & ->).
  apply links_app in Hl as [H1 H2]. exists (F2 ++ p :: F1). split; [by apply links_app|].
  apply (Permutation_app_comm (q :: F2) (p :: F1)).
Qed.

(** One round from [u_freep s]: a large enough block is taken, or there is
    none and [morecore] is called. *)
Lemma malloc_walk s k nu R pv fuel Q :
  links (u_mem s) pv R (u_freep s) -> u_freep s ∉ R -> (forall x, x ∈ pv :: R -> mapped s x) -> mapped s (u_freep s) ->
  (length R < fuel)%nat ->
  (forall x p, x ∈ pv :: R -> hptr (u_mem s) x = p -> p ∈ u_freep s :: R -> nu <= hsize (u_mem s) p -> wp (take nu x p) s Q) ->
  ((forall p, p ∈ u_freep s :: R -> hsize (u_mem s) p < nu) ->
    wp (morecore k nu) s (fun p s' => if p =? 0 then Q 0 s' else
      mapped s' p /\ wp (loop (fuel - S (length R)) (malloc_body k nu) (p, hptr (u_mem s') p)) s' Q)) ->
  wp (loop fuel (malloc_body k nu) (pv, hptr (u_mem s) pv)) s Q.
Proof.
  revert pv fuel. induction R as [|a R IH]; intros pv fuel Hl Hn Hm Hmf Hf Ht Hmore; (destruct fuel as [|fuel]; simpl in Hf; [lia|]);
    apply wp_loop_S; unfold malloc_body at 1.
  - simpl in Hl. rewrite Hl. apply wp_bind, wp_get_size; [apply Hmf|apply Hmf|].
    destruct (Z.leb_spec nu (hsize (u_mem s) (u_freep s))) as [Hle|Hgt].
    + apply wp_bind. eapply wp_mono; [by apply Ht; [left|..|left|]|]. intros r s' HQ. by apply wp_ret.
    + apply wp_bind, wp_gets. rewrite Z.eqb_refl. apply wp_bind. eapply wp_mono; [apply Hmore; intros p [->|[]%elem_of_nil]%elem_of_cons; done|].
      intros p s'. simpl. destruct (p =? 0); [intros; by apply wp_ret|]. rewrite Nat.sub_0_r. intros [Hp HQ].
      apply wp_bind, wp_get_ptr; [apply Hp|apply Hp|]. by apply wp_ret.
  - destruct Hl as [Ea Hl]. rewrite Ea. assert (Ha : mapped s a) by (apply Hm; right; left).
    apply wp_bind, wp_get_size; [apply Ha|apply Ha|].
    destruct (Z.leb_spec nu (hsize (u_mem s) a)) as [Hle|Hgt].
    + apply wp_bind. eapply wp_mono; [apply Ht; [left|done|right; left|done]|]. intros r s' HQ. by apply wp_ret.
    + apply wp_bind, wp_gets. destruct (Z.eqb_spec a (u_freep s)) as [->|Hne]; [set_solver|].
      apply wp_bind, wp_get_ptr; [apply Ha|apply Ha|]. apply wp_ret. apply IH; [done|set_solver| |done|simpl in *; lia| |].
      * intros x Hx. apply Hm. by right.
      * intros x p Hx E Hp Hle. apply Ht; [by right|done|set_solver|done].
      * intros Hall. cbn [length] in Hmore. replace (fuel - S (length R))%nat with (S fuel - S (S (length R)))%nat by lia.
        apply Hmore. intros p [->|[->|Hp]%elem_of_cons]%elem_of_cons; [apply Hall; left|done|apply Hall; by right].
Qed.

Lemma take_any s L nu x p :
  heap_ok s L -> 1 <= nu -> x ∈ base :: frees heap0 L -> hptr (u_mem s) x = p -> p ∈ base :: frees heap0 L -> nu <= hsize (u_mem s) p ->
  wp (take nu x p) s (fun r s' => exists L' U1 U2, taken s L nu r s' L' U1 U2).
Proof.
  intros HO Hnu Hx Hxp Hp Hle. pose proof (hk_base _ _ HO) as Hb. apply elem_of_cons in Hp as [->|Hp]; [lia|].
  destruct (frees_split _ _ _ Hp) as (A & k & B & -> & Ep). pose proof (hk_sized _ _ HO) as HZ. apply sized_app in HZ as (_ & Zk & _). rewrite <- Ep in Zk.
  pose proof (hk_links _ _ HO) as Hl. pose proof (hk_wide _ _ HO) as HW. rewrite frees_app in *. cbn [frees] in *. rewrite <- Ep in *.
  assert (x = final base (frees heap0 A)) as ->.
  { eapply (links_pred _ _ _ p); [exact Hl| |done|done|done]. rewrite Ep. pose proof base_below.
    pose proof (frees_spaced base heap0 _ HW ltac:(done)) as Hs. rewrite frees_app in Hs. exact Hs. }
  rewrite Ep. apply take_ok; [done|lia].
Qed.

Lemma base_frees_NoDup L : wide L -> NoDup (base :: frees heap0 L).
Proof using SB.
  intros HW. pose proof base_below as Hb. generalize (frees_spaced base heap0 L HW Hb). generalize (frees heap0 L). clear. intros l. generalize base as p.
  induction l as [|a l IH]; intros p; [intros _; apply NoDup_singleton|]. intros Hs. constructor; [|apply IH; by destruct Hs].
  intros Hp. apply (spaced_above _ _ _ Hs) in Hp. unfold HEADER in *. lia.
Qed.

Lemma free_mapped s L x : heap_ok s L -> x ∈ base :: frees heap0 L -> mapped s x.
Proof using SB.
  intros HO Hx. pose proof base_pos. pose proof base_below. pose proof (hk_brk _ _ HO). pose proof (hk_wide _ _ HO) as HW. pose proof (units_nonneg _ HW).
  unfold mapped, HEADER in *. apply elem_of_cons in Hx as [->|Hx]; [lia|]. apply frees_range in Hx; [|done]. unfold HEADER in *. lia.
Qed.

Lemma malloc_round s L k nu fuel Q :
  heap_ok s L -> 1 <= nu -> (length L < fuel)%nat ->
  (forall r s' L' U1 U2, taken s L nu r s' L' U1 U2 -> Q r s') ->
  (~ has_room nu L -> wp (morecore k nu) s (fun p s' => if p =? 0 then Q 0 s' else
      mapped s' p /\ forall fuel', (fuel - S (length L) <= fuel')%nat -> wp (loop fuel' (malloc_body k nu) (p, hptr (u_mem s') p)) s' Q)) ->
  wp (loop fuel (malloc_body k nu) (u_freep s, hptr (u_mem s) (u_freep s))) s Q.
Proof using SB.
  intros HO Hnu Hf Ht Hmore. destruct (rotate _ _ _ _ (hk_links _ _ HO) (hk_freep _ _ HO)) as (R & HR & HP).
  pose proof (base_frees_NoDup L (hk_wide _ _ HO)) as ND. rewrite <- HP in ND. apply NoDup_cons in ND as [ND _].
  assert (HF : forall x, x ∈ u_freep s :: R <-> x ∈ base :: frees heap0 L) by (intros x; by rewrite HP).
  assert (HL : (length R <= length L)%nat) by (apply Permutation_length in HP; pose proof (length_frees heap0 L); simpl in HP; lia).
  apply (malloc_walk s k nu R); [done|done|intros x Hx; apply (free_mapped _ L); [done|by apply HF]|apply (free_mapped _ L); [done|apply HF; left]|lia| |].
  - intros x p Hx E Hp Hle. eapply wp_mono; [apply (take_any s L); [done|done|by apply HF|done|by apply HF|done]|].
    intros r s' (L' & U1 & U2 & HT). by eapply Ht.
  - intros Hall. eapply wp_mono; [apply Hmore|].
    + intros (n & Hn & Hle). apply list_elem_of_split in Hn as (A & B & ->).
      pose proof (hk_sized _ _ HO) as HZ. apply sized_app in HZ as (_ & Zn & _).
      specialize (Hall (heap0 + HEADER * units A)). rewrite Zn in Hall. assert (n < nu); [|lia]. apply Hall, HF.
      rewrite frees_app. right. apply elem_of_app. right. left.
    + intros p s'. simpl. destruct (p =? 0); [done|]. intros [Hp HQ]. split; [done|]. apply HQ. lia.
Qed.

(** A new segment at the end of the process. *)
Lemma append_segment s L s1 nu :
  heap_ok s L -> 1 <= nu -> u_brk s1 = u_brk s + HEADER * nu -> u_brk s1 <= limit -> u_freep s1 = u_freep s -> bytes_ok (u_mem s1) ->
  (forall x, x < u_brk s -> u_mem s1 x = u_mem s x) ->
  heap_ok (set_umem (fun m => store32 m (u_brk s + 8) (u32 nu)) s1) (L ++ [(nu, false)]).
Proof using SB.
  intros HO Hnu E1 E2 E3 E4 E5. pose proof (hk_wide _ _ HO) as HW. pose proof (units_nonneg _ HW). pose proof base_below.
  pose proof (hk_brk _ _ HO) as HB. pose proof limit_small. pose proof base_pos.
  assert (EF : frees heap0 (L ++ [(nu, false)]) = frees heap0 L) by (rewrite frees_app; apply app_nil_r).
  set (m := store32 (u_mem s1) (u_brk s + 8) (u32 nu)).
  assert (Hm : forall x, x < u_brk s -> m x = u_mem s x) by (intros x Hx; unfold m; rewrite store32_out by lia; by apply E5).
  assert (Hsz : forall x, x + HEADER <= u_brk s -> hsize m x = hsize (u_mem s) x) by (intros x Hx; apply load32_ext; intros y Hy; apply Hm; unfold HEADER in *; lia).
  assert (Hpt : forall x, x + HEADER <= u_brk s -> hptr m x = hptr (u_mem s) x) by (intros x Hx; apply load64_ext; intros y Hy; apply Hm; unfold HEADER in *; lia).
  split; cbn [set_umem u_mem u_brk u_freep].
  - apply wide_app. split; [done|]. apply wide_cons. split; [done|constructor].
  - apply joined_app. split_and!; [apply HO|done|apply andb_false_r].
  - rewrite E1, HB, units_app. simpl. lia.
  - done.
  - by apply store32_ok.
  - apply sized_app. split; [|split; [|done]].
    + eapply (sized_ext (u_mem s)); [done| |apply HO]. intros j Hj. apply Hsz. unfold HEADER in *. lia.
    + rewrite <- HB. unfold hsize, m. rewrite load32_store32_eq, !u32_small; [done|unfold HEADER in *; lia|rewrite u32_small; unfold HEADER in *; lia].
  - rewrite EF. eapply links_ext; [|apply HO]. intros x Hx. apply Hpt. by apply (free_mapped s L).
  - fold m. rewrite Hsz; [apply HO|unfold HEADER in *; lia].
  - rewrite EF, E3. apply HO.
Qed.

Lemma morecore_ok s L nu fuel :
  heap_ok s L -> 1 <= nu -> nu * HEADER < 2 ^ 31 -> (length L + 2 < fuel)%nat ->
  wp (morecore fuel nu) s (fun p s' => (p = 0 /\ s' = s /\ sbrk (Z.max 4096 nu * HEADER) s = Ok (-1) s) \/
    (p <> 0 /\ p = u_freep s' /\ mapped s' p /\ exists L', heap_ok s' L' /\ has_room nu L' /\ useds heap0 L' = useds heap0 L /\
      (length L' <= S (length L))%nat /\ kept (u_mem s) (u_mem s') (useds heap0 L))).
Proof using SB.
  intros HO Hnu Hlt Hf. unfold morecore. set (nu' := if nu <? 4096 then 4096 else nu).
  assert (Hnu' : nu <= nu' /\ nu' * HEADER < 2 ^ 31) by (unfold nu', HEADER in *; destruct (Z.ltb_spec nu 4096); lia).
  assert (Emax : Z.max 4096 nu = nu') by (unfold nu'; destruct (Z.ltb_spec nu 4096); lia).
  rewrite u64_small, s32_small, Emax by (unfold HEADER in *; lia). apply wp_bind.
  destruct (wp_inv _ _ _ (sbrk_grows s (nu' * HEADER) ltac:(unfold HEADER in *; lia) (hk_bytes _ _ HO) (hk_limit _ _ HO))) as (r & s1 & Es & HS).
  eapply wp_ok; [exact Es|].
  destruct HS as [[-> ->]|(-> & E1 & E2 & E3 & E4 & E5)]; [apply wp_ret; by left|]. pose proof (hk_brk _ _ HO) as HB. pose proof base_below. pose proof base_pos.
  pose proof (hk_wide _ _ HO) as HW. pose proof (units_nonneg _ HW).
  assert (Hm : 0 <= u_brk s) by (unfold HEADER in *; lia). rewrite (proj2 (Z.eqb_neq (u_brk s) (-1))) by lia.
  apply wp_bind, wp_put_size; [done|rewrite E1; unfold HEADER in *; lia|].
  pose proof (append_segment s L s1 nu' HO ltac:(lia) ltac:(lia) E2 E3 E4 E5) as HO2. set (s2 := set_umem _ s1) in *.
  assert (K0 : forall x, x < u_brk s -> u_mem s2 x = u_mem s x).
  { intros x Hx. unfold s2. cbn [set_umem u_mem]. rewrite store32_out by lia. by apply E5. } clearbody s2.
  rewrite HB. apply wp_bind. eapply wp_mono; [apply (free_ok s2 L [] nu' HO2)|].
  - pose proof (length_frees heap0 L). simpl. unfold seg in *. lia.
  - intros [] s3 (L' & HR). pose proof (released_kept _ _ _ _ _ _ HO2 HR) as HK. destruct HR as [R1 R2 R3 R4 [n [R5 R5']] R6 _].
    simpl in R2, HK, R6. rewrite app_nil_r in R2, HK. apply wp_gets. right. rewrite R3.
    assert (Hfm : mapped s3 (final base (frees heap0 L))) by (apply (free_mapped s3 L'); [done|]; rewrite <- R3; apply R1).
    split_and!; [|done|done|].
    + pose proof (final_elem base (frees heap0 L)) as [->|Hx]%elem_of_cons; [lia|]. apply frees_range in Hx; [|done]. unfold HEADER in *. lia.
    + exists L'. split_and!; [done|exists n; split; [done|lia]|done|unfold seg in *; lia|].
      intros a k Ha x Hx. rewrite (HK a k Ha x Hx). apply K0. apply useds_range in Ha; [|done]. lia.
Qed.

(** Before the first call of [malloc]. *)
Definition heap_unused (s : uheap) : Prop :=
  u_freep s = 0 /\ u_brk s = heap0 /\ heap0 <= limit /\ bytes_ok (u_mem s).

Lemma init_heap s :
  heap_unused s ->
  wp (modify (set_freep base);; put_ptr base base;; put_size base 0;; mret base) s
    (fun r s' => r = base /\ heap_ok s' [] /\ u_freep s' = base /\ u_brk s' = u_brk s).
Proof using SB.
  intros (_ & Hb & Hl & Hm). pose proof base_pos. pose proof base_below. pose proof limit_small. unfold HEADER in *.
  apply wp_bind, wp_modify, wp_bind, wp_put_ptr; [lia|cbn [set_freep u_brk]; unfold HEADER; lia|]. apply wp_bind, wp_put_size; [lia|cbn [set_freep set_umem u_brk]; unfold HEADER; lia|]. apply wp_ret.
  split; [done|]. split; [|done]. split; cbn [set_freep set_umem u_mem u_brk u_freep]; try done; [constructor|simpl; lia|lia|by apply store32_ok, store64_ok| | |by left].
  - simpl. rewrite hptr_put_size by (by left). unfold hptr. rewrite load64_store64_eq. apply u64_small. lia.
  - unfold hsize. by rewrite load32_store32_eq.
Qed.

(** The units of a block of [nbytes] bytes, its header included. *)
Definition units_of (nbytes : Z) : Z := (nbytes + HEADER - 1) / HEADER + 1.

(** What [malloc] does.  It fails only when no free segment has room and
    [sbrk], asked for the space [morecore] wants, fails too; otherwise the new
    block is [(r - HEADER, n)]. *)
Definition allocated (s : uheap) (L : list seg) (nbytes r : Z) (s' : uheap) : Prop :=
  (r = 0 /\ ~ has_room (units_of nbytes) L /\ sbrk (Z.max 4096 (units_of nbytes) * HEADER) s' = Ok (-1) s' /\
    heap_ok s' L /\ u_brk s' = u_brk s /\ kept (u_mem s) (u_mem s') (useds heap0 L)) \/
  exists L' U1 U2 n, r <> 0 /\ heap_ok s' L' /\ useds heap0 L = U1 ++ U2 /\ useds heap0 L' = U1 ++ (r - HEADER, n) :: U2 /\
    nbytes <= HEADER * (n - 1) /\ kept (u_mem s) (u_mem s') (U1 ++ U2).

Lemma kept_trans m1 m2 m3 U : kept m1 m2 U -> kept m2 m3 U -> kept m1 m3 U.
Proof. intros H1 H2 a k Ha x Hx. by rewrite (H2 a k Ha x Hx), (H1 a k Ha x Hx). Qed.

Lemma taken_allocated s s1 L L1 nbytes nu r s' L' U1 U2 :
  taken s1 L1 nu r s' L' U1 U2 -> useds heap0 L1 = useds heap0 L -> kept (u_mem s) (u_mem s1) (useds heap0 L) -> nbytes <= HEADER * (nu - 1) ->
  allocated s L nbytes r s'.
Proof using SB.
  intros [T1 T2 T3 T4 T5] EU HK Hn. right. exists L', U1, U2, nu. rewrite <- EU, T2 in *. split_and!; try done; [|by eapply kept_trans].
  assert (Hr : (r - HEADER, nu) ∈ useds heap0 L') by (rewrite T3; apply elem_of_app; right; left).
  apply useds_range in Hr; [|apply T1]. pose proof base_below. pose proof base_pos. unfold HEADER in *. lia.
Qed.

Lemma malloc_loop s L nbytes nu fuel :
  heap_ok s L -> nu = units_of nbytes -> 1 <= nu -> nu * HEADER < 2 ^ 31 -> nbytes <= HEADER * (nu - 1) -> (2 * length L + 4 < fuel)%nat ->
  wp (loop fuel (malloc_body fuel nu) (u_freep s, hptr (u_mem s) (u_freep s))) s (allocated s L nbytes).
Proof using SB.
  intros HO Eu Hnu Hlt Hn Hf. apply (malloc_round s L); [done|done|lia| |].
  - intros r s' L' U1 U2 HT. by apply (taken_allocated s s L L nbytes nu r s' L' U1 U2).
  - intros Hno. eapply wp_mono; [apply (morecore_ok s L); [done|done|done|lia]|].
    intros p s' [(-> & -> & Es)|(Hp & Ep & Hm & L' & HO' & Hr & EU & HL & HK)].
    + simpl. left. rewrite <- Eu. split_and!; [done|done|done|done|done|]. by intros a k Ha x Hx.
    + rewrite (proj2 (Z.eqb_neq p 0)) by done. split; [done|]. intros fuel' Hf'. rewrite Ep.
      apply (malloc_round s' L'); [done|done|lia| |done].
      intros r s2 L2 U1 U2 HT. by apply (taken_allocated s s' L L' nbytes nu r s2 L2 U1 U2).
Qed.

(** C29: [malloc] allocates.  In a well-formed heap, or on its first call, it
    returns without touching memory outside the process.  It returns NULL only
    when no free segment has room for the block and its header and [sbrk],
    asked for that much (at least 4096 units), fails; then the heap and the
    blocks in use are as they were.  Otherwise it returns the address of a new block
    of at least [nbytes] bytes: the blocks in use are the ones before and the
    new one, all of them apart from each other, and those from before have
    their bytes unchanged. *)
Theorem malloc_allocates s L nbytes fuel :
  heap_ok s L \/ (L = [] /\ heap_unused s) -> 0 <= nbytes -> nbytes + 48 <= 2 ^ 31 -> (2 * length L + 4 < fuel)%nat ->
  wp (malloc fuel nbytes) s (fun r s' => allocated s L nbytes r s').
Proof using SB.
  intros HL H0 H1 Hf. unfold malloc. set (nu := u32 _).
  assert (Hnu : 1 <= nu /\ nu * HEADER < 2 ^ 31 /\ nbytes <= HEADER * (nu - 1)) by (unfold nu, HEADER in *; zlia).
  assert (Eu : nu = units_of nbytes) by (unfold nu, units_of, HEADER in *; zlia).
  clearbody nu. destruct Hnu as (N1 & N2 & N3). apply wp_bind, wp_gets. destruct HL as [HO|[-> HU]].
  - assert (Hm : mapped s (u_freep s)) by (apply (free_mapped s L); [done|apply HO]). pose proof base_pos.
    rewrite (proj2 (Z.eqb_neq (u_freep s) 0)).
    + apply wp_bind, wp_ret, wp_bind, wp_get_ptr; [apply Hm|apply Hm|]. by apply malloc_loop.
    + pose proof (hk_freep _ _ HO) as [->|Hx]%elem_of_cons; [lia|]. apply frees_range in Hx; [|apply HO]. pose proof base_below. unfold HEADER in *. lia.
  - pose proof HU as (Hz & Eb0 & _). rewrite Hz, Z.eqb_refl.
    apply wp_bind. eapply wp_mono; [by apply init_heap|]. intros r s1 (-> & HO & Ef & Eb).
    assert (Hm : mapped s1 base) by (apply (free_mapped s1 []); [done|left]). apply wp_bind, wp_get_ptr; [apply Hm|apply Hm|].
    rewrite <- Ef. eapply wp_mono; [by apply (malloc_loop s1 [] nbytes)|]. clear - Eb. intros r s' [(-> & Hno & Es & H1 & H2 & _)|(L' & U1 & U2 & n & H1 & H2 & H3 & H4 & H5 & _)].
    + left. split_and!; [done|done|done|done|congruence|]. by intros a k Ha%elem_of_nil.
    + right. exists L', U1, U2, n. split_and!; try done. rewrite <- H3. by intros a k Ha%elem_of_nil.
Qed.
End proofs.

(** ** A small process: static data at 0x100, the heap from 0x1000 on. *)
Definition sbrk_ex (n : Z) : M uheap Z :=
  brk ← gets u_brk;
  if brk + n <=? 2 ^ 20 then modify (fun s => mk_uheap (u_mem s) (brk + n) (u_freep s));; mret brk
  else mret (-1).

#[export] Instance libc_ex : Libc := {| base := 0x100; sbrk := sbrk_ex |}.

#[export] Instance sbrk_ex_ok : Sbrk 0x1000 (2 ^ 20).
Proof.
  split; [|done..]. intros s n Hn Hb Hl. cbn [sbrk libc_ex]. unfold sbrk_ex. apply wp_bind, wp_gets.
  destruct (Z.leb_spec (u_brk s + n) (2 ^ 20)); [|apply wp_ret; by left]. apply wp_bind, wp_modify, wp_ret. by right.
Qed.

Definition heap_ex : uheap := mk_uheap (fun _ => 0) 0x1000 0.

Lemma malloc_allocates_witness :
  wp (malloc 5 100) heap_ex (fun r s' => allocated (heap0 := 0x1000) (limit := 2 ^ 20) heap_ex [] 100 r s').
Proof. apply (malloc_allocates heap_ex [] 100 5); [right; done|done|done|simpl; lia]. Defined.

(** One block of four units in use. *)
Definition used_ex : uheap :=
  mk_uheap (store32 (store64 (fun _ => 0) 0x100 0x100) 0x1008 4) 0x1040 0x100.

Lemma used_ex_ok : heap_ok (heap0 := 0x1000) (limit := 2 ^ 20) used_ex [(4, false)].
Proof.
  split; cbn [used_ex u_mem u_brk u_freep]; try done.
  - by repeat constructor.
  - by apply store32_ok, store64_ok.
  - by left.
Qed.

Lemma free_releases_witness :
  wp (free 3 0x1010) used_ex (fun _ s' => exists L', heap_ok (heap0 := 0x1000) (limit := 2 ^ 20) s' L' /\ useds 0x1000 L' = [] /\
    u_brk s' = u_brk used_ex /\ kept (u_mem used_ex) (u_mem s') []).
Proof. apply (free_releases used_ex [(4, false)] [] [] 0x1010 4 3); [apply used_ex_ok|done|simpl; lia]. Defined.
