(* ===== verification/Grep.v ===== *)
(** [user/grep.c]: the regular expression matcher against the language of the
    pattern, and the line filter against the list of lines.

    Patterns and text are C strings.  The program reads its input through
    [read], which returns some of the bytes to come, at least one and at most
    as many as there is room for, and 0 at the end; how many is up to the
    kernel, so it is an argument ([chunks]). *)

From S2P Require Import Prelude Ulib.

Definition ch_caret : Z := 94.
Definition ch_star : Z := 42.
Definition ch_dollar : Z := 36.
Definition ch_dot : Z := 46.
Definition ch_nl : Z := 10.

(** * The matcher *)

(** [matchstar(c, re, text)] for [here] = [matchhere(re, .)]. *)
Fixpoint matchstar_loop (here : list Z -> bool) (c : Z) (text : list Z) : bool :=
  if here text then true
  else match text with
       | x :: text' => if (x =? c) || (c =? ch_dot) then matchstar_loop here c text' else false
       | [] => false
       end.

Fixpoint matchhere (re text : list Z) : bool :=
  match re with
  | [] => true
  | c :: re1 =>
      match re1 with
      | s :: re2 =>
          if s =? ch_star then matchstar_loop (matchhere re2) c text
          else match text with
               | x :: text' => if (c =? ch_dot) || (c =? x) then matchhere re1 text' else false
               | [] => false
               end
      | [] =>
          if c =? ch_dollar then match text with [] => true | _ => false end
          else match text with
               | x :: text' => if (c =? ch_dot) || (c =? x) then matchhere re1 text' else false
               | [] => false
               end
      end
  end.

Definition matchstar (c : Z) (re text : list Z) : bool := matchstar_loop (matchhere re) c text.

Fixpoint match_loop (re text : list Z) : bool :=
  if matchhere re text then true
  else match text with _ :: text' => match_loop re text' | [] => false end.

Definition match_ (re text : list Z) : bool :=
  match re with
  | c :: re' => if c =? ch_caret then matchhere re' text else match_loop re text
  | [] => match_loop re text
  end.

(** * The language of a pattern *)

Inductive item : Type :=
  | One (c : Z)             (* c, or any character for a dot *)
  | Star (c : Z)            (* zero or more of them *)
  | Eol.                    (* the end of the text *)

Fixpoint items (re : list Z) : list item :=
  match re with
  | [] => []
  | c :: re1 =>
      match re1 with
      | s :: re2 => if s =? ch_star then Star c :: items re2 else One c :: items re1
      | [] => if c =? ch_dollar then [Eol] else [One c]
      end
  end.

Definition fits (c x : Z) : Prop := c = ch_dot \/ c = x.

(** The texts that begin with a match. *)
Fixpoint starts_with (l : list item) (text : list Z) : Prop :=
  match l with
  | [] => True
  | One c :: l' => exists x t, text = x :: t /\ fits c x /\ starts_with l' t
  | Star c :: l' => exists t1 t2, text = t1 ++ t2 /\ Forall (fits c) t1 /\ starts_with l' t2
  | Eol :: l' => text = [] /\ starts_with l' []
  end.

(** The texts that contain a match; a pattern that starts with a caret matches
    at the beginning only. *)
Definition contains (re text : list Z) : Prop :=
  match re with
  | c :: re' =>
      if c =? ch_caret then starts_with (items re') text
      else exists t1 t2, text = t1 ++ t2 /\ starts_with (items re) t2
  | [] => True
  end.

Lemma fits_test c x : (c =? ch_dot) || (c =? x) = true <-> fits c x.
Proof. unfold fits. rewrite orb_true_iff, !Z.eqb_eq. done. Qed.

Lemma matchstar_loop_spec here (P : list Z -> Prop) c text :
  (forall t, here t = true <-> P t) ->
  matchstar_loop here c text = true <->
  exists t1 t2, text = t1 ++ t2 /\ Forall (fits c) t1 /\ P t2.
Proof.
  intros Hh. induction text as [|x text IH]; simpl.
  - destruct (here []) eqn:E.
    + split; [|done]. intros _. exists [], []. split_and!; [done|done|by apply Hh].
    + split; [done|]. intros (t1 & t2 & E1 & _ & H). symmetry in E1. apply app_eq_nil in E1 as [-> ->].
      apply Hh in H. congruence.
  - destruct (here (x :: text)) eqn:E.
    + split; [|done]. intros _. exists [], (x :: text). split_and!; [done|done|by apply Hh].
    + split.
      * destruct ((x =? c) || (c =? ch_dot)) eqn:Ex; [|done]. intros (t1 & t2 & -> & Hf & H)%IH.
        exists (x :: t1), t2. split_and!; [done| |done]. constructor; [|done].
        unfold fits. apply orb_true_iff in Ex. rewrite !Z.eqb_eq in Ex. naive_solver.
      * intros (t1 & t2 & E1 & Hf & H). destruct t1 as [|y t1]; simpl in E1.
        { subst t2. apply Hh in H. congruence. }
        simplify_eq. inversion Hf as [|? ? Hy Hf']; subst.
        assert (Ey : (y =? c) || (c =? ch_dot) = true).
        { apply orb_true_iff. rewrite !Z.eqb_eq. unfold fits in Hy. naive_solver. }
        rewrite Ey. apply IH. by exists t1, t2.
Qed.

Lemma one_spec (c : Z) (here : list Z -> bool) (P : list Z -> Prop) text :
  (forall t, here t = true <-> P t) ->
  match text with
  | x :: text' => if (c =? ch_dot) || (c =? x) then here text' else false
  | [] => false
  end = true <-> exists x t, text = x :: t /\ fits c x /\ P t.
Proof.
  intros Hh. destruct text as [|x text]; [split; [done|by intros (? & ? & ? & _)]|].
  destruct (_ || _) eqn:E.
  - rewrite Hh. apply fits_test in E. split; [|by intros (? & ? & [= <- <-] & _ & ?)]. intros H. by exists x, text.
  - split; [done|]. intros (? & ? & [= <- <-] & Hf%fits_test & _). congruence.
Qed.

Lemma matchhere_spec re text : matchhere re text = true <-> starts_with (items re) text.
Proof.
  remember (length re) as n eqn:En. assert (Hn : (length re <= n)%nat) by lia. clear En.
  revert re text Hn. induction n as [|n IH]; intros [|c re1] text Hn; simpl in Hn; try done; try lia.
  destruct re1 as [|s re2].
  - cbn [matchhere items]. destruct (c =? ch_dollar).
    + cbn [starts_with]. destruct text; split; [done|done|done|by intros [? _]].
    + apply (one_spec c (matchhere [])). done.
  - cbn [length] in Hn. change (matchhere (c :: s :: re2) text) with
      (if s =? ch_star then matchstar_loop (matchhere re2) c text
       else match text with
            | x :: text' => if (c =? ch_dot) || (c =? x) then matchhere (s :: re2) text' else false
            | [] => false
            end).
    change (items (c :: s :: re2)) with (if s =? ch_star then Star c :: items re2 else One c :: items (s :: re2)).
    destruct (s =? ch_star).
    + apply matchstar_loop_spec. intros t. apply IH. lia.
    + apply (one_spec c (matchhere (s :: re2))). intros t. apply IH. simpl. lia.
Qed.

Lemma match_loop_spec re text :
  match_loop re text = true <-> exists t1 t2, text = t1 ++ t2 /\ starts_with (items re) t2.
Proof.
  induction text as [|x text IH]; cbn [match_loop]; destruct (matchhere re _) eqn:E.
  1,3: split; [|done]; intros _; eexists [], _; split; [done|by apply matchhere_spec].
  - split; [done|]. intros (t1 & t2 & E1 & H). symmetry in E1. apply app_eq_nil in E1 as [-> ->].
    apply matchhere_spec in H. congruence.
  - rewrite IH. split.
    + intros (t1 & t2 & -> & H). by exists (x :: t1), t2.
    + intros ([|y t1] & t2 & E1 & H); simpl in E1; simplify_eq; [|by exists t1, t2].
      apply matchhere_spec in H. congruence.
Qed.

(** C39: the matcher accepts exactly the texts that contain a match of the
    pattern, read as a sequence of characters, dots, starred characters and an
    end anchor, anchored at the beginning by a caret. *)
Theorem match_language re text : match_ re text = true <-> contains re text.
Proof.
  unfold match_, contains. destruct re as [|c re].
  - split; [done|]. intros _. apply match_loop_spec. by exists [], text.
  - destruct (c =? ch_caret); [apply matchhere_spec|apply match_loop_spec].
Qed.

(** * The filter *)

Definition BUFSIZE : nat := 1024.

(** [read] into [room] bytes. *)
Definition read_some (choice room : nat) (input : list Z) : list Z * list Z :=
  let n := Nat.min room (Nat.min (length input) (Nat.max 1 choice)) in
  (take n input, drop n input).

(** The inner loop: [p] is what the buffer holds from [p] on.  It returns the
    bytes left when no newline is found, and what was written. *)
Fixpoint grep_lines (fuel : nat) (pattern p : list Z) : list Z * list Z :=
  match fuel with
  | O => (p, [])
  | S fuel' =>
      match strchr (cstr p) ch_nl with
      | Some q =>
          let '(rest, out) := grep_lines fuel' pattern (drop (S q) p) in
          (rest, (if match_ pattern (take q p) then take (S q) p else []) ++ out)
      | None => (p, [])
      end
  end.

(** [grep(pattern, fd)] with [buf] in the buffer: what it writes, [None] when
    the fuel runs out. *)
Fixpoint grep (fuel : nat) (pattern buf input : list Z) (chunks : nat -> nat) : option (list Z) :=
  match fuel with
  | O => None
  | S fuel' =>
      let '(got, input') := read_some (chunks fuel) (BUFSIZE - length buf - 1) input in
      match got with
      | [] => Some []
      | _ =>
          let buf := buf ++ got in
          let '(rest, out) := grep_lines (S (length buf)) pattern buf in
          more ← grep fuel' pattern rest input' chunks;
          Some (out ++ more)
      end
  end.

(** The lines of a text that end in a newline; [cur] is the beginning of the
    current one. *)
Fixpoint lines_from (cur text : list Z) : list (list Z) :=
  match text with
  | c :: text' => if c =? ch_nl then cur :: lines_from [] text' else lines_from (cur ++ [c]) text'
  | [] => []
  end.
Definition complete_lines (text : list Z) : list (list Z) := lines_from [] text.

(** Those that match, with their newlines. *)
Definition selected (pattern : list Z) (ls : list (list Z)) : list Z :=
  concat ((fun l => l ++ [ch_nl]) <$> filter (fun l => match_ pattern l = true) ls).

Lemma lines_from_line cur l t :
  ch_nl ∉ l -> lines_from cur (l ++ ch_nl :: t) = (cur ++ l) :: complete_lines t.
Proof.
  revert cur. induction l as [|c l IH]; intros cur Hl; cbn [app lines_from].
  - by rewrite Z.eqb_refl, app_nil_r.
  - apply not_elem_of_cons in Hl as [Hc Hl]. destruct (Z.eqb_spec c ch_nl); [done|].
    rewrite IH by done. by rewrite <- app_assoc.
Qed.

Lemma lines_from_none cur l : ch_nl ∉ l -> lines_from cur l = [].
Proof.
  revert cur. induction l as [|c l IH]; intros cur Hl; simpl; [done|].
  apply not_elem_of_cons in Hl as [Hc Hl]. destruct (Z.eqb_spec c ch_nl); [done|]. by apply IH.
Qed.

Lemma selected_app pattern l l' : selected pattern (l ++ l') = selected pattern l ++ selected pattern l'.
Proof. unfold selected. by rewrite filter_app, fmap_app, concat_app. Qed.

Lemma grep_lines_spec fuel pattern p :
  (length p < fuel)%nat -> no_nuls p ->
  exists rest out ls, grep_lines fuel pattern p = (rest, out) /\ out = selected pattern ls /\
    (ch_nl ∉ rest) /\ no_nuls rest /\ (length rest <= length p)%nat /\
    forall t, complete_lines (p ++ t) = ls ++ complete_lines (rest ++ t).
Proof.
  revert p. induction fuel as [|fuel IH]; intros p Hf Hp; [lia|]. cbn [grep_lines].
  rewrite (cstr_no_nuls p Hp). destruct (strchr p ch_nl) as [q|] eqn:Eq.
  2: { exists p, [], []. split_and!; try done. by apply strchr_None. }
  apply strchr_Some in Eq as [Eq Hq]. pose proof (lookup_lt_Some _ _ _ Eq) as Hlt.
  destruct (IH (drop (S q) p)) as (rest & out & ls & -> & -> & H1 & H2 & H3 & H4);
    [rewrite length_drop; lia|by apply Forall_drop|].
  assert (Hnl : ch_nl ∉ take q p).
  { intros Hin. rewrite Forall_forall in Hq. by apply (Hq ch_nl Hin). }
  eexists _, _, (take q p :: ls). split; [reflexivity|]. split_and!; [|done|done|rewrite length_drop in H3; lia|].
  - change (take q p :: ls) with ([take q p] ++ ls). rewrite selected_app. f_equal.
    unfold selected. rewrite filter_cons. destruct (match_ pattern (take q p)) eqn:Em.
    + rewrite decide_True by done. simpl. rewrite app_nil_r. by apply take_S_r.
    + by rewrite decide_False.
  - intros t. rewrite <- (take_drop_middle p q ch_nl Eq) at 1. rewrite <- app_assoc. simpl.
    unfold complete_lines at 1. rewrite lines_from_line by done. simpl. f_equal. apply H4.
Qed.

Lemma no_line_long buf input :
  ch_nl ∉ buf -> (BUFSIZE - 1 <= length buf)%nat ->
  Forall (fun l => (length l + 2 <= BUFSIZE)%nat) (complete_lines (buf ++ input)) -> complete_lines (buf ++ input) = [].
Proof.
  intros Hb Hl Hf. destruct (decide (ch_nl ∈ input)) as [Hin|Hin].
  2: { apply lines_from_none. rewrite elem_of_app. tauto. }
  destruct (strchr input ch_nl) as [q|] eqn:E; [|by apply strchr_None in E].
  apply strchr_Some in E as [Eq Hq]. exfalso.
  rewrite <- (take_drop_middle input q ch_nl Eq), app_assoc in Hf. unfold complete_lines in Hf.
  rewrite lines_from_line in Hf.
  - inversion Hf as [|? ? H _]; subst. simpl in H. rewrite length_app in H. unfold BUFSIZE in *. lia.
  - rewrite elem_of_app. intros [?|Hx]; [done|]. rewrite Forall_forall in Hq. by apply (Hq ch_nl Hx).
Qed.

Lemma grep_ok fuel pattern buf input chunks :
  (length input < fuel)%nat -> ch_nl ∉ buf -> no_nuls buf -> no_nuls input -> (length buf < BUFSIZE)%nat ->
  Forall (fun l => (length l + 2 <= BUFSIZE)%nat) (complete_lines (buf ++ input)) ->
  grep fuel pattern buf input chunks = Some (selected pattern (complete_lines (buf ++ input))).
Proof.
  revert buf input. induction fuel as [|fuel IH]; intros buf input Hf Hnl Hb Hi Hlen Hlines; [lia|].
  cbn [grep]. unfold read_some. set (n := Nat.min _ _).
  destruct (take n input) as [|g got] eqn:Eg.
  - assert (Hn : n = O \/ input = []).
    { destruct n; [by left|]. destruct input; [by right|done]. }
    assert (complete_lines (buf ++ input) = []) as ->; [|done].
    destruct (decide (input = [])) as [->|Hne]; [rewrite app_nil_r; by apply lines_from_none|].
    destruct Hn as [Hn|?]; [|done]. apply no_line_long; [done| |done].
    assert (length input <> O) by (by destruct input). lia.
  - assert (Hn : (1 <= n)%nat) by (destruct n; [done|lia]).
    assert (Hin : (n <= length input)%nat) by lia.
    assert (Hgl : length (take n input) = n) by (rewrite length_take; lia).
    rewrite Eg in Hgl.
    assert (Hno : no_nuls (buf ++ g :: got)).
    { apply Forall_app. split; [done|]. rewrite <- Eg. by apply Forall_take. }
    destruct (grep_lines_spec (S (length (buf ++ g :: got))) pattern (buf ++ g :: got)) as (rest & out & ls & -> & -> & H1 & H2 & H3 & H4);
      [lia|done|].
    assert (Eall : complete_lines (buf ++ input) = ls ++ complete_lines (rest ++ drop n input)).
    { rewrite <- (take_drop n input) at 1. rewrite Eg, app_assoc. apply H4. }
    rewrite length_app, Hgl in H3. rewrite Eall in *. apply Forall_app in Hlines as [_ Hlines].
    rewrite IH; [by rewrite selected_app|rewrite length_drop; lia|done|done|by apply Forall_drop|lia|done].
Qed.

(** C40: [grep] prints exactly the lines that match, in order, whatever amounts
    [read] delivers the input in, for text without NUL bytes whose lines fit
    its buffer; text behind the last newline is not looked at. *)
Theorem grep_filters pattern input chunks :
  no_nuls input -> Forall (fun l => (length l + 2 <= BUFSIZE)%nat) (complete_lines input) ->
  grep (S (length input)) pattern [] input chunks = Some (selected pattern (complete_lines input)).
Proof.
  intros Hi Hl. apply grep_ok; try done; [lia|apply not_elem_of_nil|by constructor|unfold BUFSIZE; simpl; lia].
Qed.

(** Three lines read in pieces of one and two bytes: a*b$ selects the second
    and the third. *)
Lemma grep_filters_witness :
  grep 12 [97; ch_star; 98; ch_dollar] [] [97; 97; 10; 97; 98; 10; 99; 98; 10; 97; 98] (fun n => n mod 2 + 1)%nat
  = Some [97; 98; 10; 99; 98; 10].
Proof.
  apply (grep_filters [97; ch_star; 98; ch_dollar] [97; 97; 10; 97; 98; 10; 99; 98; 10; 97; 98] (fun n => n mod 2 + 1)%nat).
  - repeat constructor; done.
  - unfold BUFSIZE. repeat constructor; simpl; lia.
Defined.
