(* ===== verification/Uprintf.v ===== *)
(** The user library's formatted output, [user/printf.c].

    A format is the list of its characters, the variable arguments are words
    and strings as in [Printf].  Every character is one [write] of one byte to
    the descriptor, whose result the code ignores: the functions below return
    the bytes in the order they are written. *)

From S2P Require Import Prelude Ulib Printf.

(** [putc(fd, c)] writes the byte of its [char]. *)
Definition putc (c : Z) : list Z := [u8 c].

(** [buf] has 16 entries: enough for 32 bits in base 10 or 16 and a sign.  The
    negation of the most negative number wraps around. *)
Definition printint (xx base : Z) (sgn : bool) : list Z :=
  let neg := sgn && (xx <? 0) in
  let x := if neg then u32 (- xx) else u32 xx in
  let buf := digits 15 base x ++ (if neg then [ch_minus] else []) in
  rev buf ≫= putc.

(** The digits of [printptr], high to low. *)
Fixpoint printptr_loop (n : nat) (x : Z) : list Z :=
  match n with
  | O => []
  | S n' => putc (digit (Z.shiftr x 60)) ++ printptr_loop n' (u64 (Z.shiftl x 4))
  end.
Definition printptr (x : Z) : list Z := putc ch_0 ++ putc ch_x ++ printptr_loop 16 (u64 x).

(** The branches on the character after a percent sign: what is written and
    the arguments left, [None] when the argument is not there. *)
Definition directive (c : Z) (ap : list arg) : option (list Z * list arg) :=
  if c =? ch_d then
    match ap with AWord v :: ap' => Some (printint (s32 v) 10 true, ap') | _ => None end
  else if c =? ch_l then
    match ap with AWord v :: ap' => Some (printint (s32 (u64 v)) 10 false, ap') | _ => None end
  else if c =? ch_x then
    match ap with AWord v :: ap' => Some (printint (s32 v) 16 false, ap') | _ => None end
  else if c =? ch_p then
    match ap with AWord v :: ap' => Some (printptr (u64 v), ap') | _ => None end
  else if c =? ch_s then
    match ap with
    | AStr s :: ap' => Some ((match s with None => chars "(null)" | Some s => s end) ≫= putc, ap')
    | _ => None
    end
  else if c =? ch_c then
    match ap with AWord v :: ap' => Some (putc (u32 v), ap') | _ => None end
  else if c =? ch_percent then Some (putc c, ap)
  else Some (putc ch_percent ++ putc c, ap).

(** [state] is whether the last character was a percent sign. *)
Fixpoint vprintf (fmt : list Z) (state : bool) (ap : list arg) : option (list Z) :=
  match fmt with
  | [] => Some []
  | f :: fmt' =>
      let c := Z.land f 0xff in
      if state then
        '(out, ap) ← directive c ap;
        rest ← vprintf fmt' false ap;
        Some (out ++ rest)
      else if c =? ch_percent then vprintf fmt' true ap
      else
        rest ← vprintf fmt' false ap;
        Some (putc c ++ rest)
  end.

Definition fprintf (fmt : list Z) (ap : list arg) : option (list Z) := vprintf fmt false ap.

(** * Numbers *)

Lemma putc_bytes l : Forall (fun c => 0 <= c < 256) l -> l ≫= putc = l.
Proof. induction 1 as [|c l Hc _ IH]; [done|]. cbn. rewrite u8_small by lia. by f_equal. Qed.

Lemma digits_bytes fuel base t : 2 <= base <= 16 -> 0 <= t -> Forall (fun c => 0 <= c < 256) (digits fuel base t).
Proof.
  intros Hb. revert t. induction fuel as [|fuel IH]; intros t Ht; cbn [digits]; [done|]. constructor.
  - pose proof (Z.mod_pos_bound t base ltac:(lia)). unfold digit, ch_0, ch_a. destruct (_ <? 10); lia.
  - destruct (_ =? 0); [done|]. apply IH, Z.div_pos; lia.
Qed.

(** What [printint] writes: the number, after a minus sign when it is printed
    as signed and negative; the most negative number included. *)
Lemma printint_spec xx base sgn :
  - 2 ^ 31 <= xx < 2 ^ 31 -> base = 10 \/ base = 16 -> let neg := sgn && (xx <? 0) in
  exists l, printint xx base sgn = (if neg then [ch_minus] else []) ++ l /\ l = rev (digits 15 base (if neg then - xx else u32 xx)) /\
    number base l = if neg then - xx else u32 xx.
Proof.
  intros Hx Hb neg. set (x := if neg then - xx else u32 xx).
  assert (Hx' : 0 <= x < 2 ^ 32 /\ (if neg then u32 (- xx) else u32 xx) = x).
  { unfold x, neg. pose proof (u32_range xx). destruct sgn; cbn [andb]; [|done]. destruct (Z.ltb_spec xx 0); [|done].
    rewrite u32_small by lia. lia. }
  destruct Hx' as [Hr E]. exists (rev (digits 15 base x)). split_and!; [|done|].
  - unfold printint. fold neg. cbv zeta. rewrite E, rev_app_distr, putc_bytes; [by destruct neg|].
    apply Forall_app. split; [destruct neg; repeat constructor; unfold ch_minus; lia|]. apply Forall_rev, digits_bytes; lia.
  - apply (number_digits 15 base x); [lia| |lia].
    destruct Hb as [-> | ->]; change (10 ^ Z.of_nat 15) with 1000000000000000 || change (16 ^ Z.of_nat 15) with 1152921504606846976; lia.
Qed.

Lemma digits_decimal fuel t : 0 <= t -> Forall (fun c => 48 <= c <= 57) (digits fuel 10 t).
Proof.
  revert t. induction fuel as [|fuel IH]; intros t Ht; cbn [digits]; [done|]. constructor.
  - pose proof (Z.mod_pos_bound t 10 ltac:(lia)). unfold digit, ch_0. destruct (Z.ltb_spec (t mod 10) 10); lia.
  - destruct (_ =? 0); [done|]. apply IH, Z.div_pos; lia.
Qed.

(** [atoi] on decimal digits is their number. *)
Lemma atoi_number l n :
  Forall (fun c => 48 <= c <= 57) l -> 0 <= n -> foldl (fun n c => n * 10 + dval c) n l < 2 ^ 31 ->
  atoi_loop l n = foldl (fun n c => n * 10 + dval c) n l.
Proof.
  intros Hl. revert n. induction Hl as [|c l Hc Hl IH]; intros n Hn Hb; cbn [atoi_loop foldl] in *; [done|].
  rewrite (proj2 (Z.leb_le 48 c)), (proj2 (Z.leb_le c 57)) by lia. cbn [andb].
  assert (Ed : dval c = c - 48) by (unfold dval, ch_a, ch_0; destruct (Z.ltb_spec c 97); lia).
  assert (Hmono : forall l m, Forall (fun c => 48 <= c <= 57) l -> 0 <= m -> m <= foldl (fun n c => n * 10 + dval c) m l).
  { clear. induction l as [|c l IH]; intros m Hl Hm; cbn [foldl]; [lia|]. inversion Hl; subst.
    assert (dval c = c - 48) by (unfold dval, ch_a, ch_0; destruct (Z.ltb_spec c 97); lia).
    specialize (IH (m * 10 + dval c)). etrans; [|apply IH; [done|lia]]. lia. }
  pose proof (Hmono l (n * 10 + dval c) Hl ltac:(lia)). rewrite s32_small by lia.
  replace (n * 10 + c - 48) with (n * 10 + dval c) by lia. apply IH; [lia|done].
Qed.

(** What [printf] writes for a number that is not negative, [atoi] reads
    back. *)
Theorem atoi_printint xx : 0 <= xx < 2 ^ 31 -> atoi (printint xx 10 true) = xx.
Proof.
  intros Hx. destruct (printint_spec xx 10 true ltac:(lia) ltac:(by left)) as (l & -> & El & Hn).
  rewrite (proj2 (Z.ltb_ge xx 0)) in * by lia. cbn [andb app] in *. rewrite u32_small in * by lia.
  unfold atoi. rewrite atoi_number; [exact Hn| |lia|unfold number in Hn; lia].
  rewrite El. apply Forall_rev, digits_decimal. lia.
Qed.

Lemma atoi_printint_witness : atoi (printint 1024 10 true) = 1024.
Proof. apply (atoi_printint 1024). lia. Defined.

(** * Formats *)

(** A format with its arguments. *)
Inductive piece : Type :=
  | Lit (c : Z)
  | Decimal (v : Z)
  | Long (v : Z)
  | Hex (v : Z)
  | Pointer (v : Z)
  | Text (s : option (list Z))
  | Char (v : Z)
  | Percent.

Definition piece_format (p : piece) : list Z :=
  match p with
  | Lit c => [c]
  | Decimal _ => [ch_percent; ch_d]
  | Long _ => [ch_percent; ch_l]
  | Hex _ => [ch_percent; ch_x]
  | Pointer _ => [ch_percent; ch_p]
  | Text _ => [ch_percent; ch_s]
  | Char _ => [ch_percent; ch_c]
  | Percent => [ch_percent; ch_percent]
  end.

Definition piece_args (p : piece) : list arg :=
  match p with
  | Lit _ | Percent => []
  | Decimal v | Long v | Hex v | Pointer v | Char v => [AWord v]
  | Text s => [AStr s]
  end.

Definition piece_text (p : piece) : list Z :=
  match p with
  | Lit c => [c]
  | Decimal v => printint v 10 true
  | Long v => printint (s32 v) 10 false
  | Hex v => printint (s32 v) 16 false
  | Pointer v => printptr v
  | Text s => default (chars "(null)") s
  | Char v => [v]
  | Percent => [ch_percent]
  end.

Definition piece_ok (p : piece) : Prop :=
  match p with
  | Lit c => 0 < c < 256 /\ c <> ch_percent
  | Decimal v => - 2 ^ 31 <= v < 2 ^ 31
  | Long v | Pointer v => 0 <= v < 2 ^ 64
  | Hex v => 0 <= v < 2 ^ 32
  | Text s => Forall (fun c => 0 < c < 256) (default [] s)
  | Char v => 0 <= v < 256
  | Percent => True
  end.

Lemma land_ff c : 0 <= c < 256 -> Z.land c 0xff = c.
Proof. intros Hc. change 0xff with (Z.ones 8). rewrite Z.land_ones by done. by apply Z.mod_small. Qed.

Lemma vprintf_piece p fmt ap :
  piece_ok p -> vprintf (piece_format p ++ fmt) false (piece_args p ++ ap) = (fun l => piece_text p ++ l) <$> vprintf fmt false ap.
Proof.
  intros Hp. destruct p as [c|v|v|v|v|s|v|]; cbn [piece_format piece_args app vprintf piece_text piece_ok] in *.
  1:{ rewrite land_ff by lia. rewrite (proj2 (Z.eqb_neq c _)) by tauto. unfold putc. rewrite u8_small by lia. by destruct (vprintf _ _ _). }
  all: rewrite !land_ff by (unfold ch_percent, ch_d, ch_l, ch_x, ch_p, ch_s, ch_c; lia); change (ch_percent =? ch_percent) with true; cbn match;
    unfold directive; cbn [Z.eqb ch_d ch_l ch_x ch_p ch_s ch_c ch_percent Pos.eqb]; cbn match; cbn [mbind option_bind]; destruct (vprintf fmt false ap) as [l|]; try done; cbn [fmap option_fmap option_map].
  - by rewrite s32_small by lia.
  - by rewrite u64_small by lia.
  - by rewrite u64_small by lia.
  - destruct s as [s|]; [|done]. cbn [mbind option_bind from_option id]. rewrite putc_bytes; [done|].
    eapply Forall_impl; [exact Hp|]. cbn. lia.
  - unfold putc. by rewrite u32_small, u8_small by lia.
Qed.

Lemma fprintf_ok ps : Forall piece_ok ps -> fprintf (ps ≫= piece_format) (ps ≫= piece_args) = Some (ps ≫= piece_text).
Proof.
  unfold fprintf. induction 1 as [|p ps Hp _ IH]; [done|]. cbn [mbind list_bind].
  rewrite vprintf_piece by done. by rewrite IH.
Qed.

(** [printf] writes the pieces of its format in order, each with its own
    argument: literal characters as they are, numbers as [printint] prints
    them, strings as they are and a null pointer as [(null)].  A [%l] prints
    only the low 32 bits of its 64-bit argument. *)
Theorem fprintf_pieces ps :
  Forall piece_ok ps -> fprintf (ps ≫= piece_format) (ps ≫= piece_args) = Some (ps ≫= piece_text).
Proof. apply fprintf_ok. Qed.

Lemma fprintf_pieces_witness :
  fprintf (chars "pid %d: %s") [AWord 7; AStr (Some [115; 104])] = Some (chars "pid 7: sh").
Proof.
  apply (fprintf_pieces [Lit 112; Lit 105; Lit 100; Lit 32; Decimal 7; Lit 58; Lit 32; Text (Some [115; 104])]).
  repeat (apply Forall_cons; split); try apply Forall_nil; cbn; unfold ch_percent; try lia.
Defined.
