(* ===== verification/Utils.v ===== *)
(** Small user programs: [user/echo.c], [user/cat.c], [user/wc.c],
    [user/xargs.c] and [main] of [user/grep.c].

    The system calls are what the kernel promises: [read] returns some of the
    bytes to come, at least one and at most as many as asked for, and at the
    end 0, or -1 on an error; how many is up to the kernel and so an argument.
    A run is the list of the calls of the program that have an effect outside
    it. *)

From S2P Require Import Prelude Layout Ulib Printf Grep Uprintf.

Inductive event : Type :=
  | Write (fd : Z) (l : list Z)
  | Exec (argv : list (list Z)).

(** [fprintf] of a text without directives: one [write] for each byte. *)
Definition fputs (fd : Z) (l : list Z) : list event := (fun c => Write fd [c]) <$> l.

(** The bytes written to a descriptor. *)
Definition written (fd : Z) (l : list event) : list Z :=
  l ≫= fun e => match e with Write f b => if f =? fd then b else [] | Exec _ => [] end.

(** An open file: the bytes to come, and whether [read] fails after them. *)
Record input : Type := Input { in_data : list Z; in_fails : bool }.

Definition read (choice room : nat) (i : input) : option (list Z * input) :=
  match in_data i with
  | [] => if in_fails i then None else Some ([], i)
  | _ => let '(got, rest) := read_some choice room (in_data i) in Some (got, Input rest (in_fails i))
  end.

(** * echo *)

(** [main] of [echo.c] from argument [i] on. *)
Fixpoint echo_args (argv : list (list Z)) : list event :=
  match argv with
  | [] => []
  | a :: argv' =>
      Write 1 a :: Write 1 (match argv' with [] => nl | _ => [32] end) :: echo_args argv'
  end.
Definition echo (argv : list (list Z)) : list event * Z := (echo_args (drop 1 argv), 0).

(** * cat *)

Section cat.
Context (chunks : nat -> nat) (wr : nat -> Z -> Z) (open : list Z -> option input).

(** [cat(fd)]: what it writes, and the status if it exits. *)
Fixpoint cat (fuel : nat) (i : input) : option (list event * option Z) :=
  match fuel with
  | O => None
  | S fuel' =>
      match read (chunks fuel) 512 i with
      | None => Some (fputs 2 (chars "cat: read error" ++ nl), Some 1)
      | Some ([], _) => Some ([], None)
      | Some (buf, i') =>
          let n := Z.of_nat (length buf) in
          if negb (wr fuel n =? n) then
            Some (Write 1 buf :: fputs 2 (chars "cat: write error" ++ nl), Some 1)
          else
            '(ev, r) ← cat fuel' i';
            Some (Write 1 buf :: ev, r)
      end
  end.

Definition cat_input (i : input) : option (list event * option Z) := cat (S (length (in_data i))) i.

(** The loop of [main]. *)
Fixpoint cat_files (argv : list (list Z)) : option (list event * Z) :=
  match argv with
  | [] => Some ([], 0)
  | a :: argv' =>
      match open a with
      | None =>
          msg ← fprintf (chars "cat: cannot open %s" ++ nl) [AStr (Some a)];
          Some (fputs 2 msg, 1)
      | Some i =>
          '(ev, r) ← cat_input i;
          match r with
          | Some st => Some (ev, st)
          | None =>
              '(ev', st) ← cat_files argv';
              Some (ev ++ ev', st)
          end
      end
  end.

Definition cat_main (argv : list (list Z)) (stdin : input) : option (list event * Z) :=
  if decide (length argv <= 1)%nat then
    '(ev, r) ← cat_input stdin;
    Some (ev, default 0 r)
  else cat_files (drop 1 argv).
End cat.

(** * wc *)

(** [" \r\t\n\v"] *)
Definition blanks : list Z := [32; 13; 9; 10; 11].

Record counts : Type := Counts { wc_l : Z; wc_w : Z; wc_c : Z; wc_inword : bool }.

Definition wc_char (k : counts) (b : Z) : counts :=
  let c := s32 (wc_c k + 1) in
  let l := if b =? ch_nl then s32 (wc_l k + 1) else wc_l k in
  match strchr blanks b with
  | Some _ => Counts l (wc_w k) c false
  | None => if negb (wc_inword k) then Counts l (s32 (wc_w k + 1)) c true else Counts l (wc_w k) c (wc_inword k)
  end.

Section wc.
Context (chunks : nat -> nat).

(** [wc(fd, name)]: what it prints, and whether it exits with status 1. *)
Fixpoint wc_loop (fuel : nat) (i : input) (k : counts) (name : list Z) : option (list Z * bool) :=
  match fuel with
  | O => None
  | S fuel' =>
      match read (chunks fuel) 512 i with
      | None => Some (chars "wc: read error" ++ nl, true)
      | Some ([], _) =>
          out ← fprintf (chars "%d %d %d %s" ++ nl) [AWord (wc_l k); AWord (wc_w k); AWord (wc_c k); AStr (Some name)];
          Some (out, false)
      | Some (buf, i') => wc_loop fuel' i' (foldl wc_char k buf) name
      end
  end.
Definition wc (i : input) (name : list Z) : option (list Z * bool) :=
  wc_loop (S (length (in_data i))) i (Counts 0 0 0 false) name.

Context (open : list Z -> option input).

Fixpoint wc_files (argv : list (list Z)) : option (list Z * Z) :=
  match argv with
  | [] => Some ([], 0)
  | a :: argv' =>
      match open a with
      | None => msg ← fprintf (chars "wc: cannot open %s" ++ nl) [AStr (Some a)]; Some (msg, 1)
      | Some i =>
          '(out, bad) ← wc i a;
          if bad : bool then Some (out, 1)
          else '(out', st) ← wc_files argv'; Some (out ++ out', st)
      end
  end.
Definition wc_main (argv : list (list Z)) (stdin : input) : option (list Z * Z) :=
  if decide (length argv <= 1)%nat then
    '(out, bad) ← wc stdin [];
    Some (out, if bad : bool then 1 else 0)
  else wc_files (drop 1 argv).
End wc.

(** * grep *)

Section grep_main.
Context (chunks : nat -> nat) (open : list Z -> option (list Z)).

Fixpoint grep_files (pattern : list Z) (argv : list (list Z)) : option (list Z * Z) :=
  match argv with
  | [] => Some ([], 0)
  | a :: argv' =>
      match open a with
      | None => msg ← fprintf (chars "grep: cannot open %s" ++ nl) [AStr (Some a)]; Some (msg, 1)
      | Some i =>
          out ← grep (S (length i)) pattern [] i chunks;
          '(out', st) ← grep_files pattern argv';
          Some (out ++ out', st)
      end
  end.

(** What [main] of [grep.c] writes to the standard output, and its status. *)
Definition grep_main (argv : list (list Z)) (stdin : list Z) : option (list Z * Z) :=
  match argv with
  | _ :: pattern :: [] => out ← grep (S (length stdin)) pattern [] stdin chunks; Some (out, 0)
  | _ :: pattern :: files => grep_files pattern files
  | _ => Some ([], 1)
  end.
End grep_main.

(** * xargs *)

(** The arrays [str], up to [p], and [nargv], from [argc] on, as indices into
    [str]; [lp] is [None] for -1. *)
Record xargs : Type := Xargs { x_str : list Z; x_lp : option nat; x_args : list nat }.

Section xargs.
Context (argv : list (list Z)).

Definition x_putc (c : Z) (x : xargs) : option xargs :=
  if decide (length (x_str x) < 64)%nat then Some (Xargs (x_str x ++ [c]) (x_lp x) (x_args x)) else None.

(** The end of a word: terminate it and add it to [nargv]. *)
Definition x_word (x : xargs) : option xargs :=
  match x_lp x with
  | None => Some x
  | Some lp =>
      x ← x_putc 0 x;
      if decide (length argv + length (x_args x) < MAXARG)%nat then Some (Xargs (x_str x) None (x_args x ++ [lp]))
      else None
  end.

(** One character of the input; [None] when an array overflows.  The program
    [exec] runs is the child's; its strings are read when it starts. *)
Definition x_char (x : xargs) (c : Z) : option (xargs * list event) :=
  if c =? ch_nl then
    x ← x_word x;
    if decide (length argv + length (x_args x) < MAXARG)%nat then
      Some (Xargs [] None [], [Exec (drop 1 argv ++ ((fun lp => cstr (drop lp (x_str x))) <$> x_args x))])
    else None
  else if c =? 32 then x ← x_word x; Some (x, [])
  else
    let lp := match x_lp x with None => length (x_str x) | Some lp => lp end in
    x ← x_putc c (Xargs (x_str x) (Some lp) (x_args x));
    Some (x, []).

Fixpoint x_buf (x : xargs) (buf : list Z) : option (xargs * list event) :=
  match buf with
  | [] => Some (x, [])
  | c :: buf' =>
      '(x, ev) ← x_char x c;
      '(x, ev') ← x_buf x buf';
      Some (x, ev ++ ev')
  end.

Context (chunks : nat -> nat).

Inductive xresult : Type := XDone (ev : list event) | XOverflow | XFuel.

Fixpoint xargs_loop (fuel : nat) (i : input) (x : xargs) (ev : list event) : xresult :=
  match fuel with
  | O => XFuel
  | S fuel' =>
      match read (chunks fuel) 64 i with
      | None | Some ([], _) => XDone ev
      | Some (buf, i') =>
          match x_buf x buf with
          | None => XOverflow
          | Some (x', ev') => xargs_loop fuel' i' x' (ev ++ ev')
          end
      end
  end.

(** [main] of [xargs.c], with at most [MAXARG] arguments to copy. *)
Definition xargs_main (i : input) : xresult :=
  if decide (length argv <= MAXARG)%nat then xargs_loop (S (length (in_data i))) i (Xargs [] None []) [] else XOverflow.
End xargs.

(** * Reading *)

Lemma read_nil choice room d : in_data d = [] -> read choice room d = if in_fails d then None else Some ([], d).
Proof. intros E. unfold read. by rewrite E. Qed.

(** A read of what is there: a non-empty beginning. *)
Lemma read_cons choice room c data fails :
  (0 < room)%nat -> exists got rest, read choice room (Input (c :: data) fails) = Some (got, Input rest fails) /\
    c :: data = got ++ rest /\ got <> [] /\ (length rest < length (c :: data))%nat.
Proof.
  intros Hr. unfold read, read_some. cbn [in_data in_fails]. set (n := Nat.min room _).
  assert (1 <= n <= length (c :: data))%nat by (unfold n; cbn [length]; lia).
  exists (take n (c :: data)), (drop n (c :: data)). split_and!; [done|by rewrite take_drop| |rewrite length_drop; lia].
  destruct n; [lia|done].
Qed.

(** * What they do *)

Lemma written_app fd l l' : written fd (l ++ l') = written fd l ++ written fd l'.
Proof. unfold written. by rewrite bind_app. Qed.

Lemma written_fputs fd fd' l : written fd (fputs fd' l) = if fd' =? fd then l else [].
Proof. induction l as [|c l IH]; [by destruct (_ =? _)|]. unfold written, fputs in *. cbn. rewrite IH. by destruct (_ =? _). Qed.

(** [echo] writes its arguments with a blank between them and a newline at the
    end, and nothing at all without arguments. *)
Fixpoint join (argv : list (list Z)) : list Z :=
  match argv with
  | [] => []
  | [a] => a ++ nl
  | a :: argv' => a ++ [32] ++ join argv'
  end.

Theorem echo_joins a argv : written 1 (fst (echo (a :: argv))) = join argv.
Proof.
  change (written 1 (echo_args argv) = join argv). induction argv as [|b argv IH]; [done|]. cbn [echo_args]. unfold written in *. cbn [mbind list_bind].
  change (1 =? 1) with true. cbn match. rewrite IH. by destruct argv.
Qed.

Section cat_ok.
Context (chunks : nat -> nat) (wr : nat -> Z -> Z) (open : list Z -> option input).

(** [cat] copies: without an error everything, otherwise a beginning. *)
Lemma cat_ok fuel data fails :
  (length data < fuel)%nat ->
  exists ev r, cat chunks wr fuel (Input data fails) = Some (ev, r) /\ written 1 ev `prefix_of` data /\
    match r with
    | None => fails = false /\ written 1 ev = data /\ written 2 ev = []
    | Some st => st = 1 /\ (fails = true \/ exists k n, wr k n <> n)
    end.
Proof.
  revert data. induction fuel as [|fuel IH]; intros data Hf; [lia|]. cbn [cat]. destruct data as [|c data].
  - rewrite read_nil by done. cbn [in_fails]. destruct fails.
    + eexists _, _. split; [done|]. rewrite written_fputs. cbn. split; [done|]. split; [done|by left].
    + by exists [], None.
  - destruct (read_cons (chunks (S fuel)) 512 c data fails ltac:(lia)) as (got & rest & -> & E & Hg & Hl). rewrite E.
    destruct got as [|g got]; [done|]. set (buf := g :: got) in *. destruct (Z.eqb_spec (wr (S fuel) (Z.of_nat (length buf))) (Z.of_nat (length buf))) as [Ew|Ew]; cbn [negb].
    + destruct (IH rest) as (ev & r & -> & Hp & Hr); [rewrite E in Hl, Hf; rewrite length_app in *; lia|]. cbn [mbind option_bind].
      eexists _, _. split; [done|]. change (written 1 (Write 1 buf :: ev)) with (buf ++ written 1 ev).
      change (written 2 (Write 1 buf :: ev)) with (written 2 ev). split; [by apply prefix_app|].
      destruct r as [st|]; [done|]. destruct Hr as (-> & -> & ->). done.
    + eexists _, _. split; [done|]. change (written 1 (Write 1 buf :: ?l)) with (buf ++ written 1 l).
      split; [|split; [done|right; by eexists _, _]].
      change (written 1 (Write 1 buf :: fputs 2 (chars "cat: write error" ++ nl))) with (buf ++ written 1 (fputs 2 (chars "cat: write error" ++ nl))).
      rewrite written_fputs, app_nil_r. by apply prefix_app_r.
Qed.

(** [cat] with files that open and read to their ends, and complete writes,
    writes their contents one after the other and exits with status 0, whatever
    amounts [read] delivers. *)
Theorem cat_copies a argv :
  argv <> [] -> (forall b, b ∈ argv -> exists data, open b = Some (Input data false)) -> (forall k n, wr k n = n) ->
  exists ev, cat_main chunks wr open (a :: argv) (Input [] false) = Some (ev, 0) /\ written 2 ev = [] /\
    written 1 ev = argv ≫= fun b => default [] (in_data <$> open b).
Proof.
  intros Hne Hopen Hwr. unfold cat_main. rewrite decide_False by (destruct argv; [done|cbn; lia]).
  change (drop 1 (a :: argv)) with argv. clear Hne.
  induction argv as [|b argv IH]; [by exists []|]. cbn [cat_files]. destruct (Hopen b ltac:(left)) as [data Hd].
  cbn [mbind list_bind]. rewrite Hd. cbn [fmap option_fmap option_map from_option id in_data]. unfold cat_input. cbn [in_data].
  destruct (cat_ok (S (length data)) data false ltac:(lia)) as (ev & r & -> & _ & Hr). cbn [mbind option_bind].
  destruct r as [st|]; [destruct Hr as [_ [?|(k & n & Hk)]]; [done|by rewrite Hwr in Hk]|]. destruct Hr as (_ & E1 & E2).
  destruct IH as (ev' & -> & E2' & E1'); [intros b' Hb'; apply Hopen; by right|]. cbn [mbind option_bind].
  exists (ev ++ ev'). by rewrite !written_app, E1, E2, E1', E2'.
Qed.
End cat_ok.

(** The parts of a text between separators, and the words: those that are not
    empty. *)
Fixpoint fields (sep : Z -> bool) (cur text : list Z) : list (list Z) :=
  match text with
  | [] => [cur]
  | c :: text' => if sep c then cur :: fields sep [] text' else fields sep (cur ++ [c]) text'
  end.
Definition full (w : list Z) : bool := match w with [] => false | _ => true end.
Definition words (sep : Z -> bool) (cur text : list Z) : list (list Z) := filter (fun w => full w = true) (fields sep cur text).

Definition is_blank (c : Z) : bool := bool_decide (c ∈ blanks).

Lemma words_sep sep cur c text : sep c = true -> words sep cur (c :: text) = (if full cur then [cur] else []) ++ words sep [] text.
Proof. intros Hc. unfold words. cbn [fields]. rewrite Hc, filter_cons. by destruct (full cur). Qed.

Lemma words_char sep cur c text : sep c = false -> words sep cur (c :: text) = words sep (cur ++ [c]) text.
Proof. intros Hc. unfold words. cbn [fields]. by rewrite Hc. Qed.

Lemma full_snoc l c : full (l ++ [c]) = true.
Proof. by destruct l. Qed.

Definition newlines (text : list Z) : list Z := filter (fun c => c = ch_nl) text.

Lemma words_at_most sep cur text : (length (words sep cur text) <= length text + (if full cur then 1 else 0))%nat.
Proof.
  revert cur. induction text as [|c text IH]; intros cur.
  - unfold words. cbn [fields]. rewrite filter_cons. by destruct (full cur).
  - destruct (sep c) eqn:E; [rewrite words_sep, length_app by done|rewrite words_char by done].
    + specialize (IH []). destruct (full cur); cbn in *; lia.
    + specialize (IH (cur ++ [c])). rewrite full_snoc in IH. cbn [length]. destruct (full cur); lia.
Qed.

Lemma newlines_at_most text : (length (newlines text) <= length text)%nat.
Proof. apply length_filter. Qed.

(** The counters after a text. *)
Lemma wc_chars_ok text l w c inword cur :
  inword = full cur -> 0 <= l -> 0 <= w -> 0 <= c ->
  l + Z.of_nat (length text) < 2 ^ 31 -> w + Z.of_nat (length text) < 2 ^ 31 -> c + Z.of_nat (length text) < 2 ^ 31 ->
  let k := foldl wc_char (Counts l w c inword) text in
  wc_l k = l + Z.of_nat (length (newlines text)) /\ wc_c k = c + Z.of_nat (length text) /\
  wc_w k = w + Z.of_nat (length (words is_blank cur text)) - (if inword then 1 else 0).
Proof.
  revert l w c inword cur. induction text as [|b text IH]; intros l w c inword cur Hin Hl Hw Hc Bl Bw Bc; cbn [foldl length] in *.
  { change (newlines []) with (@nil Z). unfold words. cbn [fields wc_l wc_w wc_c]. rewrite filter_cons, Hin.
    destruct (full cur); case_decide; try done; cbn [length filter]; split_and!; cbn; lia. }
  unfold newlines. rewrite filter_cons. fold (newlines text). cbv zeta. set (k1 := wc_char _ b).
  set (l' := if b =? ch_nl then l + 1 else l).
  assert (Ek : k1 = match strchr blanks b with
                    | Some _ => Counts l' w (c + 1) false
                    | None => Counts l' (if inword then w else w + 1) (c + 1) true
                    end).
  { unfold k1, wc_char, l'. cbn [wc_l wc_w wc_c wc_inword]. rewrite !s32_small by lia. destruct (strchr blanks b); [done|]. by destruct inword. }
  assert (Hl' : Z.of_nat (length (if decide (b = ch_nl) then b :: newlines text else newlines text)) = l' - l + Z.of_nat (length (newlines text)) /\ l <= l' <= l + 1).
  { unfold l'. destruct (Z.eqb_spec b ch_nl), (decide (b = ch_nl)); try done; cbn [length]; lia. }
  destruct Hl' as [-> Hl']. clearbody l' k1. subst k1. destruct (strchr blanks b) as [j|] eqn:Es.
  - assert (Hb : is_blank b = true).
    { apply bool_decide_eq_true. apply strchr_Some in Es as [Es _]. by eapply list_elem_of_lookup_2. }
    rewrite words_sep, length_app by done. destruct (IH l' w (c + 1) false [] eq_refl) as (E1 & E2 & E3); try lia.
    rewrite E1, E2, E3, Hin. destruct (full cur); cbn [length]; lia.
  - assert (Hb : is_blank b = false) by (apply bool_decide_eq_false; by apply strchr_None).
    rewrite words_char by done. destruct (IH l' (if inword then w else w + 1) (c + 1) true (cur ++ [b])) as (E1 & E2 & E3);
      [by rewrite full_snoc|destruct inword; lia..|]. rewrite E1, E2, E3. destruct inword; lia.
Qed.

Lemma wc_loop_ok chunks fuel data k name :
  (length data < fuel)%nat ->
  wc_loop chunks fuel (Input data false) k name =
    let k := foldl wc_char k data in
    out ← fprintf (chars "%d %d %d %s" ++ nl) [AWord (wc_l k); AWord (wc_w k); AWord (wc_c k); AStr (Some name)];
    Some (out, false).
Proof.
  revert data k. induction fuel as [|fuel IH]; intros data k Hf; [lia|]. cbn [wc_loop]. destruct data as [|c data].
  - by rewrite read_nil.
  - destruct (read_cons (chunks (S fuel)) 512 c data false ltac:(lia)) as (got & rest & -> & E & Hg & Hl). rewrite E.
    destruct got as [|g got]; [done|]. rewrite IH; [by rewrite foldl_app|]. rewrite E in Hf, Hl. rewrite length_app in *. lia.
Qed.

(** [wc] prints the numbers of newlines, of words (longest parts without
    blanks) and of bytes, and the name, whatever amounts [read] delivers. *)
Theorem wc_counts chunks data name :
  Z.of_nat (length data) < 2 ^ 31 -> Forall (fun c => 0 < c < 256) name ->
  wc chunks (Input data false) name =
    Some (printint (Z.of_nat (length (newlines data))) 10 true ++ [32] ++
          printint (Z.of_nat (length (words is_blank [] data))) 10 true ++ [32] ++
          printint (Z.of_nat (length data)) 10 true ++ [32] ++ name ++ nl, false).
Proof.
  intros Hd Hn. unfold wc. cbn [in_data]. rewrite wc_loop_ok by lia. cbv zeta.
  destruct (wc_chars_ok data 0 0 0 false [] eq_refl) as (E1 & E2 & E3); try lia. rewrite E1, E2, E3, !Z.add_0_l, Z.sub_0_r.
  pose proof (words_at_most is_blank [] data) as Hw. cbn [full] in Hw. pose proof (newlines_at_most data) as Hnl.
  pose proof (fprintf_ok [Decimal (Z.of_nat (length (newlines data))); Lit 32; Decimal (Z.of_nat (length (words is_blank [] data))); Lit 32;
    Decimal (Z.of_nat (length data)); Lit 32; Text (Some name); Lit 10]) as Hp. cbn [mbind list_bind piece_format piece_args piece_text app] in Hp.
  change (chars "%d %d %d %s" ++ nl) with
    [ch_percent; ch_d; 32; ch_percent; ch_d; 32; ch_percent; ch_d; 32; ch_percent; ch_s; 10]. rewrite Hp; [|repeat (apply Forall_cons; split)].
  - cbn [mbind option_bind from_option id]. done.
  - cbn. lia.
  - cbn. unfold ch_percent. lia.
  - cbn. lia.
  - cbn. unfold ch_percent. lia.
  - cbn. lia.
  - cbn. unfold ch_percent. lia.
  - done.
  - cbn. unfold ch_percent. lia.
  - done.
Qed.

Lemma wc_counts_witness :
  wc (fun n => n mod 3)%nat (Input (chars "to be" ++ nl ++ chars "or not" ++ nl) false) [97] = Some (chars "2 4 13 a" ++ nl, false).
Proof.
  apply (wc_counts (fun n => n mod 3)%nat (chars "to be" ++ nl ++ chars "or not" ++ nl) [97]); [by vm_compute|]. constructor; [lia|done].
Defined.

(** * What [xargs] runs *)

Definition with_nul (w : list Z) : list Z := w ++ [0].

(** Where words are that stand one after the other from [n] on. *)
Fixpoint offsets (n : nat) (ws : list (list Z)) : list nat :=
  match ws with
  | [] => []
  | w :: ws' => n :: offsets (n + length (with_nul w)) ws'
  end.

Lemma offsets_snoc n ws w : offsets n (ws ++ [w]) = offsets n ws ++ [(n + length (ws ≫= with_nul))%nat].
Proof.
  revert n. induction ws as [|v ws IH]; intros n; cbn [offsets app mbind list_bind]; [do 2 f_equal; cbn; lia|].
  rewrite IH, length_app. do 3 f_equal. lia.
Qed.

Lemma offsets_words pre ws :
  Forall no_nuls ws -> (fun lp => cstr (drop lp (pre ++ ws ≫= with_nul))) <$> offsets (length pre) ws = ws.
Proof.
  intros Hw. revert pre. induction Hw as [|w ws Hw _ IH]; intros pre; [done|]. cbn [offsets fmap list_fmap mbind list_bind]. f_equal.
  - rewrite drop_app_length. unfold with_nul. rewrite <- app_assoc, cstr_app by done. cbn. by rewrite app_nil_r.
  - rewrite <- length_app, app_assoc. apply IH.
Qed.

Definition is_space (c : Z) : bool := c =? 32.

Lemma words_room cur text : full cur = true -> (length cur + 1 <= length (words is_space cur text ≫= with_nul))%nat.
Proof.
  revert cur. induction text as [|c text IH]; intros cur Hf.
  - unfold words. cbn [fields]. rewrite filter_cons, decide_True by done.
    change (filter _ []) with (@nil (list Z)). cbn [mbind list_bind]. rewrite app_nil_r. unfold with_nul. rewrite length_app. cbn. lia.
  - destruct (is_space c) eqn:E.
    + rewrite words_sep, Hf by done. cbn [app mbind list_bind]. rewrite length_app. unfold with_nul at 1. rewrite length_app. cbn. lia.
    + rewrite words_char by done. specialize (IH (cur ++ [c]) (full_snoc _ _)). rewrite length_app in IH. lia.
Qed.

Section xargs_ok.
Context (argv : list (list Z)).

(** The words [ws] are complete, [cur] is being read. *)
Definition xrep (ws : list (list Z)) (cur : list Z) (x : xargs) : Prop :=
  x_str x = (ws ≫= with_nul) ++ cur /\ x_lp x = (if full cur then Some (length (ws ≫= with_nul)) else None) /\ x_args x = offsets 0 ws.

Lemma x_word_ok ws cur x :
  xrep ws cur x -> let ws' := ws ++ (if full cur then [cur] else []) in
  (length (ws' ≫= with_nul) <= 64)%nat -> (length argv + length ws' <= MAXARG)%nat ->
  exists x', x_word argv x = Some x' /\ xrep ws' [] x'.
Proof.
  intros (E1 & E2 & E3) ws' Hsz Hn. unfold x_word. rewrite E2. unfold ws' in *. destruct (full cur) eqn:Ef.
  - rewrite bind_app in Hsz. cbn in Hsz. rewrite app_nil_r in Hsz. unfold with_nul in Hsz at 2. rewrite !length_app in Hsz. cbn in Hsz.
    unfold x_putc. rewrite E1, length_app, decide_True by lia. cbn [mbind option_bind x_args x_str x_lp].
    assert (El : length (x_args x) = length ws).
    { rewrite E3. generalize 0%nat as n. clear. induction ws as [|w ws IH]; intros n; cbn; [done|]. by rewrite IH. }
    rewrite length_app in Hn. cbn in Hn. rewrite El, decide_True by lia. eexists. split; [done|]. split_and!; cbn [x_str x_lp x_args]; [|done|].
    + rewrite bind_app. cbn. rewrite !app_nil_r. unfold with_nul at 3. by rewrite app_assoc.
    + by rewrite E3, offsets_snoc.
  - exists x. rewrite app_nil_r. destruct cur; [|done]. done.
Qed.

(** A line: its words are the arguments. *)
Lemma x_line ws cur x l :
  xrep ws cur x -> ch_nl ∉ l -> Forall no_nuls ws -> no_nuls cur -> no_nuls l ->
  let ws' := ws ++ words is_space cur l in
  (length (ws' ≫= with_nul) <= 64)%nat -> (length argv + length ws' < MAXARG)%nat ->
  x_buf argv x (l ++ nl) = Some (Xargs [] None [], [Exec (drop 1 argv ++ ws')]).
Proof.
  revert ws cur x. induction l as [|c l IH]; intros ws cur x HX Hnl Hws Hcur Hl ws' Hsz Hn.
  - assert (Ew : words is_space cur [] = if full cur then [cur] else []).
    { unfold words. cbn [fields]. rewrite filter_cons. by destruct (full cur). }
    unfold ws' in *. rewrite Ew in *. destruct (x_word_ok ws cur x HX Hsz ltac:(lia)) as (x' & Ex & (E1 & _ & E3)).
    cbn [app x_buf nl]. unfold x_char. change (10 =? ch_nl) with true. cbn match. rewrite Ex. cbn [mbind option_bind].
    assert (El : length (x_args x') = length (ws ++ (if full cur then [cur] else []))).
    { rewrite E3. generalize 0%nat as n. generalize (ws ++ (if full cur then [cur] else [])) as us. clear. induction us as [|w us IH]; intros n; cbn; [done|]. by rewrite IH. }
    rewrite El, decide_True by lia. cbn [mbind option_bind]. do 2 f_equal. cbn [app]. do 3 f_equal. rewrite E1, E3, app_nil_r.
    apply (offsets_words []). apply Forall_app. split; [done|]. destruct (full cur); [by constructor|done].
  - apply not_elem_of_cons in Hnl as [Hc Hnl]. inversion Hl as [|? ? Hc0 Hl']; subst. cbn [app x_buf]. unfold x_char.
    rewrite (proj2 (Z.eqb_neq c ch_nl)) by done. unfold ws' in *. destruct (is_space c) eqn:E; unfold is_space in E; rewrite E.
    + rewrite words_sep in * by done. rewrite app_assoc in Hsz, Hn.
      assert (Hsz0 : (length ((ws ++ (if full cur then [cur] else [])) ≫= with_nul) <= 64)%nat) by (rewrite bind_app, length_app in Hsz; lia).
      destruct (x_word_ok ws cur x HX Hsz0) as (x' & -> & HX'); [rewrite length_app in Hn; lia|]. cbn [mbind option_bind].
      rewrite (IH _ [] x' HX'); try done; [cbn; by rewrite <- !app_assoc| |by constructor]. apply Forall_app. split; [done|]. destruct (full cur); [by constructor|done].
    + rewrite words_char in * by done. destruct HX as (E1 & E2 & E3).
      pose proof (words_room (cur ++ [c]) l (full_snoc _ _)) as Hr. rewrite length_app in Hr. cbn in Hr.
      rewrite bind_app, length_app in Hsz. unfold x_putc. cbn [x_str x_lp x_args].
      rewrite E1, length_app, decide_True by lia. cbn [mbind option_bind].
      rewrite (IH ws (cur ++ [c])); try done.
      * split_and!; cbn [x_str x_lp x_args]; [by rewrite app_assoc| |done]. rewrite full_snoc, E2. destruct cur; [cbn; by rewrite Nat.add_0_r|done].
      * apply Forall_app. split; [done|]. by constructor.
      * rewrite bind_app, length_app. lia.
Qed.

Lemma x_buf_app x a b :
  x_buf argv x (a ++ b) = '(x, ev) ← x_buf argv x a; '(x, ev') ← x_buf argv x b; Some (x, ev ++ ev').
Proof.
  revert x. induction a as [|c a IH]; intros x; cbn [app x_buf mbind option_bind].
  - destruct (x_buf argv x b) as [[x' ev']|]; done.
  - destruct (x_char argv x c) as [[x1 ev1]|]; [|done]. cbn [mbind option_bind]. rewrite IH.
    destruct (x_buf argv x1 a) as [[x2 ev2]|]; [|done]. cbn [mbind option_bind].
    destruct (x_buf argv x2 b) as [[x3 ev3]|]; [|done]. cbn. by rewrite app_assoc.
Qed.

Lemma xargs_loop_ok chunks fuel data fails x ev x' ev' :
  (length data < fuel)%nat -> x_buf argv x data = Some (x', ev') ->
  xargs_loop argv chunks fuel (Input data fails) x ev = XDone (ev ++ ev').
Proof.
  revert data x ev ev'. induction fuel as [|fuel IH]; intros data x ev ev' Hf Hx; [lia|]. cbn [xargs_loop]. destruct data as [|c data].
  - cbn in Hx. injection Hx as <- <-. rewrite app_nil_r, read_nil by done. by destruct fails.
  - destruct (read_cons (chunks (S fuel)) 64 c data fails ltac:(lia)) as (got & rest & -> & E & Hg & Hl). rewrite E in *.
    rewrite x_buf_app in Hx. destruct got as [|g got]; [done|]. destruct (x_buf argv x (g :: got)) as [[x1 ev1]|]; [|done]. cbn [mbind option_bind] in Hx.
    destruct (x_buf argv x1 rest) as [[x2 ev2]|] eqn:E2; [|done]. cbn in Hx. injection Hx as <- <-.
    rewrite (IH rest x1 (ev ++ ev1) ev2); [by rewrite app_assoc|rewrite length_app in *; lia|done].
Qed.

(** [xargs] runs the command once for each line, with the words of the line
    behind its own arguments, in order and whatever amounts [read] delivers,
    as long as each line's words with their NULs fit the buffer of 64 bytes
    and the vector of [MAXARG] pointers. *)
Theorem xargs_runs chunks ls fails :
  (length argv <= MAXARG)%nat ->
  Forall (fun l => (ch_nl ∉ l) /\ no_nuls l /\ (length (words is_space [] l ≫= with_nul) <= 64)%nat /\
    (length argv + length (words is_space [] l) < MAXARG)%nat) ls ->
  xargs_main argv chunks (Input (ls ≫= fun l => l ++ nl) fails) = XDone ((fun l => Exec (drop 1 argv ++ words is_space [] l)) <$> ls).
Proof.
  intros Ha Hls. unfold xargs_main. rewrite decide_True by done. cbn [in_data]. apply (xargs_loop_ok _ _ _ _ _ [] (Xargs [] None [])); [lia|].
  induction Hls as [|l ls (H1 & H2 & H3 & H4) _ IH]; [done|]. cbn [mbind list_bind fmap list_fmap].
  rewrite x_buf_app, (x_line [] [] (Xargs [] None []) l) by (done || by constructor). cbn [mbind option_bind app]. by rewrite IH.
Qed.
End xargs_ok.

Lemma xargs_runs_witness :
  xargs_main [chars "xargs"; chars "echo"; chars "a"] (fun n => n mod 5)%nat (Input (chars "b c" ++ nl ++ chars " dd " ++ nl) false) =
  XDone [Exec [chars "echo"; chars "a"; chars "b"; chars "c"]; Exec [chars "echo"; chars "a"; chars "dd"]].
Proof.
  apply (xargs_runs [chars "xargs"; chars "echo"; chars "a"] (fun n => n mod 5)%nat [chars "b c"; chars " dd "] false); [cbn; unfold MAXARG; lia|].
  do 2 (apply Forall_cons; split; [split; [by apply strchr_None|split; [repeat (apply Forall_cons; split); by try apply Forall_nil|split; vm_compute; lia]]|]).
  by apply Forall_nil.
Defined.
