(* ===== verification/Sh.v ===== *)
(** The shell's parser, [user/sh.c].

    The command line is the list of its characters before the NUL; a pointer
    into it is an index, and the parser's state [*ps] is one.  A token is the
    pair of its ends, as [argv] and [eargv] or [file] and [efile] record them.
    Parsed commands are trees; the [execcmd] that [parseexec] fills in while
    [parseredirs] has already wrapped it is the leaf of the tree, so the
    arguments are put there at the end ([set_argv]).  [panic] prints its
    message and exits.  The parsing functions call each other, so they take
    fuel; [parse_fuel] is enough for every line. *)

From S2P Require Import Prelude Ulib.

Definition MAXARGS : nat := 10.

(** What the characters are. *)
Definition whitespace : list Z := [32; 9; 13; 10; 11].
Definition symbols : list Z := [60; 124; 62; 38; 59; 40; 41].
Definition c_lt : Z := 60.
Definition c_gt : Z := 62.
Definition c_bar : Z := 124.
Definition c_amp : Z := 38.
Definition c_semi : Z := 59.
Definition c_open : Z := 40.
Definition c_close : Z := 41.
Definition c_plus : Z := 43.
Definition c_a : Z := 97.
Definition c_space : Z := 32.

Definition has (s : list Z) (c : Z) : bool := bool_decide (is_Some (strchr s c)).
Definition is_ws (c : Z) : bool := has whitespace c.
Definition is_word (c : Z) : bool := negb (has whitespace c) && negb (has symbols c).

(** The open modes of [kernel/fcntl.h]. *)
Definition O_RDONLY : Z := 0x000.
Definition O_WRONLY : Z := 0x001.
Definition O_CREATE : Z := 0x200.
Definition O_TRUNC : Z := 0x400.

(** Commands over tokens of type [T]. *)
Inductive cmd (T : Type) : Type :=
  | EXEC (argv : list T)
  | REDIR (c : cmd T) (file : T) (mode fd : Z)
  | PIPE (left right : cmd T)
  | LIST (left right : cmd T)
  | BACK (c : cmd T).
Arguments EXEC {T} argv.
Arguments REDIR {T} c file mode fd.
Arguments PIPE {T} left right.
Arguments LIST {T} left right.
Arguments BACK {T} c.

Definition span : Type := nat * nat.

(** The characters in front that satisfy [f]. *)
Fixpoint count (f : Z -> bool) (l : list Z) : nat :=
  match l with
  | c :: l' => if f c then S (count f l') else O
  | [] => O
  end.

Section parser.
(** The line. *)
Context (buf : list Z).

(** [*s]; the NUL ends the line. *)
Definition char_at (s : nat) : Z := nth s buf 0.

(** [while (s < es && strchr(whitespace, *s)) s++]. *)
Definition skip (s : nat) : nat := (s + count is_ws (drop s buf))%nat.

(** The token type and the token's ends. *)
Definition gettoken : M nat (Z * nat * nat) :=
  s0 ← gets id;
  let q := skip s0 in
  let c := char_at q in
  let '(ret, eq) :=
    if c =? 0 then (c, q)
    else if has [c_bar; c_open; c_close; c_semi; c_amp; c_lt] c then (c, S q)
    else if c =? c_gt then
      if char_at (S q) =? c_gt then (c_plus, S (S q)) else (c, S q)
    else (c_a, (q + count is_word (drop q buf))%nat) in
  modify (fun _ => skip eq);;
  mret (ret, q, eq).

Definition peek (toks : list Z) : M nat bool :=
  s ← gets id;
  modify (fun _ => skip s);;
  mret (negb (char_at (skip s) =? 0) && has toks (char_at (skip s))).

(** Enough for each of the loops. *)
Definition turns : nat := S (S (length buf)).

Definition parseredirs (c : cmd span) : M nat (cmd span) :=
  loop turns (fun c =>
    more ← peek [c_lt; c_gt];
    if more : bool then
      '(tok, _, _) ← gettoken;
      '(t, q, eq) ← gettoken;
      if negb (t =? c_a) then panic "missing file for redirection"
      else if tok =? c_lt then mret (inl (REDIR c (q, eq) O_RDONLY 0))
      else if tok =? c_gt then mret (inl (REDIR c (q, eq) (Z.lor (Z.lor O_WRONLY O_CREATE) O_TRUNC) 1))
      else if tok =? c_plus then mret (inl (REDIR c (q, eq) (Z.lor O_WRONLY O_CREATE) 1))
      else mret (inl c)
    else mret (inr c)) c.

(** [cmd->argv = argv] where [cmd] is the leaf of [ret]. *)
Fixpoint set_argv (argv : list span) (ret : cmd span) : cmd span :=
  match ret with
  | REDIR c file mode fd => REDIR (set_argv argv c) file mode fd
  | _ => EXEC argv
  end.

(** The loop of [parseexec], from the first redirections on. *)
Definition parseargs (ret : cmd span) : M nat (cmd span) :=
  '(argv, ret) ← loop turns (fun '(argv, ret) =>
    stop ← peek [c_bar; c_close; c_amp; c_semi];
    if stop : bool then mret (inr (argv, ret))
    else
      '(tok, q, eq) ← gettoken;
      if tok =? 0 then mret (inr (argv, ret))
      else if negb (tok =? c_a) then panic "syntax"
      else
        let argv := argv ++ [(q, eq)] in
        if (MAXARGS <=? length argv)%nat then panic "too many args"
        else
          ret ← parseredirs ret;
          mret (inl (argv, ret))) ([], ret);
  mret (set_argv argv ret).

Fixpoint parseline (fuel : nat) : M nat (cmd span) :=
  match fuel with
  | O => nofuel
  | S fuel' =>
      c ← parsepipe fuel';
      c ← loop turns (fun c =>
        more ← peek [c_amp];
        if more : bool then gettoken;; mret (inl (BACK c)) else mret (inr c)) c;
      more ← peek [c_semi];
      if more : bool then
        gettoken;;
        r ← parseline fuel';
        mret (LIST c r)
      else mret c
  end
with parsepipe (fuel : nat) : M nat (cmd span) :=
  match fuel with
  | O => nofuel
  | S fuel' =>
      c ← parseexec fuel';
      more ← peek [c_bar];
      if more : bool then
        gettoken;;
        r ← parsepipe fuel';
        mret (PIPE c r)
      else mret c
  end
with parseexec (fuel : nat) : M nat (cmd span) :=
  match fuel with
  | O => nofuel
  | S fuel' =>
      block ← peek [c_open];
      if block : bool then parseblock fuel'
      else
        ret ← parseredirs (EXEC []);
        parseargs ret
  end
with parseblock (fuel : nat) : M nat (cmd span) :=
  match fuel with
  | O => nofuel
  | S fuel' =>
      open ← peek [c_open];
      if negb open then panic "parseblock"
      else
        gettoken;;
        c ← parseline fuel';
        close ← peek [c_close];
        if negb close then panic "syntax - missing )"
        else
          gettoken;;
          parseredirs c
  end.

Definition parse_fuel : nat := 4 * S (length buf).

(** [parsecmd] up to [nulterminate]. *)
Definition parsecmd : M nat (cmd span) :=
  c ← parseline parse_fuel;
  peek [];;
  s ← gets id;
  if negb (s =? length buf)%nat then panic "syntax"
  else mret c.
End parser.

(** [nulterminate], on the line with the NUL that ends it. *)
Fixpoint nulterminate (c : cmd span) (line : list Z) : list Z :=
  match c with
  | EXEC argv => foldl (fun l '(_, eq) => <[eq := 0]> l) line argv
  | REDIR c (_, efile) _ _ => <[efile := 0]> (nulterminate c line)
  | PIPE l r | LIST l r => nulterminate r (nulterminate l line)
  | BACK c => nulterminate c line
  end.

(** The tokens of a command. *)
Fixpoint tokens {T} (c : cmd T) : list T :=
  match c with
  | EXEC argv => argv
  | REDIR c file _ _ => tokens c ++ [file]
  | PIPE l r | LIST l r => tokens l ++ tokens r
  | BACK c => tokens c
  end.

(** * Every line is parsed or rejected *)

(** [m] returns with [Q] or panics; it does not run out of fuel. *)
Definition safe {A} (m : M nat A) (s : nat) (Q : A -> nat -> Prop) : Prop :=
  match m s with
  | Ok a s' => Q a s'
  | Panic _ _ => True
  | _ => False
  end.

Lemma safe_bind {A B} (m : M nat A) (f : A -> M nat B) s Q :
  safe m s (fun a s' => safe (f a) s' Q) -> safe (m ≫= f) s Q.
Proof. unfold safe, mbind, M_bind. by destruct (m s). Qed.

Lemma safe_mono {A} (m : M nat A) s (P Q : A -> nat -> Prop) :
  safe m s P -> (forall a s', P a s' -> Q a s') -> safe m s Q.
Proof. unfold safe. destruct (m s); auto. Qed.

Lemma safe_ret {A} (a : A) s (Q : A -> nat -> Prop) : Q a s -> safe (mret a) s Q.
Proof. done. Qed.

Lemma safe_panic {A} msg s (Q : A -> nat -> Prop) : safe (panic msg) s Q.
Proof. done. Qed.

Lemma safe_loop {L A} (I : L -> nat -> Prop) (mu : nat -> nat) (Q : A -> nat -> Prop)
    (body : L -> M nat (L + A)) fuel l s :
  (forall l s, I l s -> safe (body l) s (fun r s' =>
     match r with
     | inl l' => I l' s' /\ (mu s' < mu s)%nat
     | inr a => Q a s'
     end)) ->
  I l s -> (mu s < fuel)%nat -> safe (loop fuel body l) s Q.
Proof.
  intros Hbody. revert l s. induction fuel as [|fuel IH]; intros l s HI Hmu; [lia|].
  simpl. apply safe_bind. eapply safe_mono; [by apply Hbody|].
  intros [l'|a] s'; simpl; [|by intros; apply safe_ret]. intros [HI' Hlt]. apply IH; [done|lia].
Qed.

Lemma count_le f l : (count f l <= length l)%nat.
Proof. induction l as [|c l IH]; simpl; [done|]. destruct (f c); simpl; lia. Qed.

Lemma count_in f l i : (i < count f l)%nat -> f (nth i l 0) = true.
Proof.
  revert i. induction l as [|c l IH]; intros i; simpl; [lia|]. destruct (f c) eqn:E; [|lia].
  destruct i as [|i]; [done|]. intros. apply IH. lia.
Qed.

Lemma count_end f l : count f l = length l \/ f (nth (count f l) l 0) = false.
Proof.
  induction l as [|c l IH]; simpl; [by left|]. destruct (f c) eqn:E; simpl; [|right; by rewrite E].
  destruct IH as [->|?]; [by left|by right].
Qed.

Lemma nth_drop_at (l : list Z) k i : nth i (drop k l) 0 = nth (k + i) l 0.
Proof.
  revert l. induction k as [|k IH]; intros l; [done|]. destruct l as [|c l]; simpl; [by destruct i|apply IH].
Qed.

Section total.
Context (buf : list Z).

Lemma skip_bounds s : (s <= length buf -> s <= skip buf s <= length buf)%nat.
Proof. intros Hs. unfold skip. pose proof (count_le is_ws (drop s buf)) as H. rewrite length_drop in H. lia. Qed.

Lemma skip_stop s : (s <= length buf)%nat -> skip buf s = length buf \/ is_ws (char_at buf (skip buf s)) = false.
Proof.
  intros Hs. unfold skip, char_at. destruct (count_end is_ws (drop s buf)) as [E|E].
  - left. rewrite E, length_drop. lia.
  - right. by rewrite nth_drop_at in E.
Qed.

Lemma char_at_end s : (length buf <= s)%nat -> char_at buf s = 0.
Proof. intros Hs. unfold char_at. by apply nth_overflow. Qed.

Lemma char_at_in s : char_at buf s <> 0 -> (s < length buf)%nat.
Proof. intros Hc. destruct (decide (s < length buf)%nat); [done|]. destruct Hc. apply char_at_end. lia. Qed.

(** A word of the line, as long as it goes. *)
Definition tok_ok (t : span) : Prop :=
  (t.1 < t.2 <= length buf)%nat /\ (forall i, (t.1 <= i < t.2)%nat -> is_word (char_at buf i) = true) /\
  (t.2 = length buf \/ is_word (char_at buf t.2) = false).

Lemma word_ok q :
  (q < length buf)%nat -> is_word (char_at buf q) = true -> tok_ok (q, (q + count is_word (drop q buf))%nat).
Proof.
  intros Hq Hw. unfold tok_ok. simpl. pose proof (count_le is_word (drop q buf)) as H. rewrite length_drop in H.
  assert (Hpos : (0 < count is_word (drop q buf))%nat).
  { destruct (drop q buf) as [|c l] eqn:E; [apply (f_equal length) in E; rewrite length_drop in E; simpl in E; lia|].
    simpl. assert (c = char_at buf q) as ->; [|rewrite Hw; lia].
    unfold char_at. rewrite <- (Nat.add_0_r q), <- nth_drop_at, E. done. }
  split_and!; [lia|lia| |].
  - intros i Hi. pose proof (count_in is_word (drop q buf) (i - q)) as Hc. rewrite nth_drop_at in Hc.
    replace (q + (i - q))%nat with i in Hc by lia. apply Hc. lia.
  - destruct (count_end is_word (drop q buf)) as [E|E]; [left; rewrite E, length_drop; lia|right].
    by rewrite nth_drop_at in E.
Qed.

Lemma other_word c :
  is_ws c = false -> has [c_bar; c_open; c_close; c_semi; c_amp; c_lt] c = false -> c <> c_gt -> is_word c = true.
Proof.
  unfold is_ws, is_word. intros -> Hs Hg. simpl. apply negb_true_iff. unfold has, symbols in *.
  apply bool_decide_eq_false in Hs. apply bool_decide_eq_false. intros [i Hi%strchr_Some].
  apply Hs. destruct (strchr _ c) eqn:E; [by eexists|]. apply strchr_None in E. exfalso. apply E.
  destruct Hi as [Hi%list_elem_of_lookup_2 _]. set_solver.
Qed.

Lemma gettoken_safe s :
  (s <= length buf)%nat -> safe (gettoken buf) s (fun '(t, q, e) s' => (s <= s' <= length buf)%nat /\
    (char_at buf (skip buf s) <> 0 -> (s < s')%nat) /\ (t <> 0 -> (s < s')%nat) /\ (t = c_a -> tok_ok (q, e))).
Proof.
  intros Hs. pose proof (skip_bounds s Hs) as Hq. pose proof (skip_stop s Hs) as Hst.
  unfold gettoken. apply safe_bind. unfold safe, gets, id. set (q := skip buf s) in *.
  destruct (Z.eqb_spec (char_at buf q) 0) as [E0|E0].
  { unfold modify, mbind, M_bind, mret, M_ret. pose proof (skip_bounds q). split_and!; [lia|lia|done|lia|]. rewrite E0. done. }
  pose proof (char_at_in q E0) as Hlt.
  assert (Hany : forall t e, (q < e <= length buf)%nat -> (t = c_a -> tok_ok (q, e)) ->
    safe (modify (fun _ : nat => skip buf e);; mret (t, q, e)) s (fun '(t, q, e) s' => (s <= s' <= length buf)%nat /\
    (char_at buf q <> 0 -> (s < s')%nat) /\ (t <> 0 -> (s < s')%nat) /\ (t = c_a -> tok_ok (q, e)))).
  { intros t e He Ht. unfold safe, modify, mbind, M_bind, mret, M_ret. pose proof (skip_bounds e).
    split_and!; [lia|lia|intros; lia|intros; lia|done]. }
  destruct (has _ (char_at buf q)) eqn:Eh.
  { apply Hany; [lia|]. intros E. by rewrite E in Eh. }
  destruct (Z.eqb_spec (char_at buf q) c_gt) as [Eg|Eg].
  - destruct (Z.eqb_spec (char_at buf (S q)) c_gt) as [Eg2|Eg2].
    + apply Hany; [|done]. assert (S q < length buf)%nat by (apply char_at_in; by rewrite Eg2). lia.
    + apply Hany; [lia|]. by rewrite Eg.
  - assert (Hw : tok_ok (q, (q + count is_word (drop q buf))%nat)).
    { apply word_ok; [done|]. apply other_word; [|done|done]. by destruct Hst as [?|?]; [lia|]. }
    apply Hany; [apply Hw|done].
Qed.

Lemma skip_skip s : (s <= length buf)%nat -> skip buf (skip buf s) = skip buf s.
Proof.
  intros Hs. pose proof (skip_bounds s Hs) as Hb. destruct (skip_stop s Hs) as [E|E].
  - pose proof (skip_bounds (skip buf s)). lia.
  - unfold skip at 1. destruct (drop (skip buf s) buf) as [|c l] eqn:Ed; simpl; [lia|].
    assert (c = char_at buf (skip buf s)) as ->; [|rewrite E; lia].
    unfold char_at. by rewrite <- (Nat.add_0_r (skip buf s)), <- nth_drop_at, Ed.
Qed.

Lemma peek_safe toks s :
  (s <= length buf)%nat -> safe (peek buf toks) s (fun b s' => (s <= s' <= length buf)%nat /\
    (b = true -> char_at buf (skip buf s') <> 0 /\ has toks (char_at buf s') = true)).
Proof.
  intros Hs. pose proof (skip_bounds s Hs) as Hb. unfold safe, peek, gets, modify, mbind, M_bind, mret, M_ret, id.
  split; [lia|]. intros [H1 H2]%andb_true_iff. rewrite skip_skip by done. split; [|done].
  apply negb_true_iff in H1. by apply Z.eqb_neq.
Qed.

(** [gettoken] after a [peek] that found something. *)
Lemma after_peek {A} s (f : Z * nat * nat -> M nat A) Q :
  (s <= length buf)%nat -> char_at buf (skip buf s) <> 0 ->
  (forall t q e s', (s < s' <= length buf)%nat -> (t = c_a -> tok_ok (q, e)) -> safe (f (t, q, e)) s' Q) ->
  safe (gettoken buf ≫= f) s Q.
Proof.
  intros Hs Hc HQ. apply safe_bind. eapply safe_mono; [by apply gettoken_safe|].
  intros [[t q] e] s' (H1 & H2 & _ & H3). apply HQ; [split; [by apply H2|lia]|done].
Qed.

Definition toks_ok (c : cmd span) : Prop := Forall tok_ok (tokens c).

Lemma parseredirs_safe c s :
  (s <= length buf)%nat -> toks_ok c -> safe (parseredirs buf c) s (fun c' s' => (s <= s' <= length buf)%nat /\ toks_ok c').
Proof.
  intros Hs Hc. unfold parseredirs.
  apply (safe_loop (fun c' s' => (s <= s' <= length buf)%nat /\ toks_ok c') (fun s' => length buf - s')%nat); [|done|unfold turns; lia].
  clear c Hc. intros c s1 [Hs1 Hc]. apply safe_bind. eapply safe_mono; [apply peek_safe; lia|].
  intros [|] s2 [H2 Hp]; [|by apply safe_ret; split; [lia|]]. destruct Hp as [Hp _]; [done|].
  apply after_peek; [lia|done|]. intros tok q0 e0 s3 H3 _. cbv beta iota.
  apply safe_bind. eapply safe_mono; [apply gettoken_safe; lia|].
  intros [[t q] e] s4 (H4 & _ & _ & Ht). destruct (Z.eqb_spec t c_a) as [->|]; [|apply safe_panic].
  assert (Hr : forall mode fd, toks_ok (REDIR c (q, e) mode fd)).
  { intros mode fd. apply Forall_app. split; [done|]. by apply Forall_singleton, Ht. }
  cbn [negb]. repeat case_match; apply safe_ret; (split; [split; [lia|done]|lia]).
Qed.

Lemma tokens_set_argv argv ret : incl (tokens (set_argv argv ret)) (argv ++ tokens ret).
Proof.
  induction ret as [a|c IH file mode fd| | |]; simpl; try (by apply incl_appl, incl_refl).
  apply incl_app; [intros x Hx; apply IH in Hx; rewrite !in_app_iff in *; tauto|].
  intros x Hx. rewrite !in_app_iff. tauto.
Qed.

Lemma set_argv_ok argv ret : Forall tok_ok argv -> toks_ok ret -> toks_ok (set_argv argv ret).
Proof.
  intros Ha Hr. unfold toks_ok in *. rewrite Forall_forall in *. intros x Hx%list_elem_of_In.
  apply tokens_set_argv in Hx. apply in_app_iff in Hx as [Hx|Hx]; [apply Ha|apply Hr]; by apply list_elem_of_In.
Qed.

Lemma parseargs_safe ret s :
  (s <= length buf)%nat -> toks_ok ret -> safe (parseargs buf ret) s (fun c' s' => (s <= s' <= length buf)%nat /\ toks_ok c').
Proof.
  intros Hs Hr. unfold parseargs. apply safe_bind.
  apply (safe_loop (fun '(argv, ret) s' => (s <= s' <= length buf)%nat /\ Forall tok_ok argv /\ toks_ok ret) (fun s' => length buf - s')%nat);
    [|done|unfold turns; lia].
  clear ret Hr. intros [argv ret] s1 (Hs1 & Ha & Hr). apply safe_bind. eapply safe_mono; [apply peek_safe; lia|].
  assert (Hend : forall s2, (s1 <= s2 <= length buf)%nat -> safe (mret (set_argv argv ret)) s2
    (fun c' s' => (s <= s' <= length buf)%nat /\ toks_ok c')).
  { intros s2 H2. apply safe_ret. split; [lia|by apply set_argv_ok]. }
  intros [|] s2 [H2 _]; [by apply safe_ret, Hend|]. apply safe_bind. eapply safe_mono; [apply gettoken_safe; lia|].
  intros [[t q] e] s3 (H3 & _ & Hlt & Ht). destruct (Z.eqb_spec t 0) as [|Hnz]; [apply safe_ret, Hend; lia|].
  destruct (Z.eqb_spec t c_a) as [->|]; [|apply safe_panic]. cbn [negb].
  destruct (_ <=? _)%nat; [apply safe_panic|]. apply safe_bind.
  eapply safe_mono; [apply parseredirs_safe; [lia|done]|]. intros ret' s4 [H4 Hr']. specialize (Hlt Hnz).
  apply safe_ret. split; [|lia]. split_and!; [lia|lia| |done]. apply Forall_app. split; [done|]. by apply Forall_singleton, Ht.
Qed.

(** What each parsing function returns from [s] on. *)
Definition parsed (s : nat) (c : cmd span) (s' : nat) : Prop := (s <= s' <= length buf)%nat /\ toks_ok c.

Lemma backs_safe c s s0 :
  (s0 <= s <= length buf)%nat -> toks_ok c ->
  safe (loop (turns buf) (fun c => more ← peek buf [c_amp];
    if more : bool then gettoken buf;; mret (inl (BACK c)) else mret (inr c)) c) s (parsed s0).
Proof.
  intros Hs Hc.
  apply (safe_loop (fun c' s' => (s0 <= s' <= length buf)%nat /\ toks_ok c') (fun s' => length buf - s')%nat); [|done|unfold turns; lia].
  clear c Hc. intros c s1 [Hs1 Hc]. apply safe_bind. eapply safe_mono; [apply peek_safe; lia|].
  intros [|] s2 [H2 Hp]; [|by apply safe_ret; split; [lia|]]. destruct Hp as [Hp _]; [done|].
  apply after_peek; [lia|done|]. intros t q e s3 H3 _. apply safe_ret. split; [split; [lia|done]|lia].
Qed.

Lemma toks_ok_2 l r : toks_ok l -> toks_ok r -> toks_ok (PIPE l r) /\ toks_ok (LIST l r).
Proof. intros Hl Hr. split; apply Forall_app; done. Qed.

Lemma parse_safe n :
  (forall s, (s <= length buf -> 4 * (length buf - s) + 4 <= n -> safe (parseline buf n) s (parsed s))%nat) /\
  (forall s, (s <= length buf -> 4 * (length buf - s) + 3 <= n -> safe (parsepipe buf n) s (parsed s))%nat) /\
  (forall s, (s <= length buf -> 4 * (length buf - s) + 2 <= n -> safe (parseexec buf n) s (parsed s))%nat) /\
  (forall s, (s <= length buf -> 4 * (length buf - s) + 1 <= n -> safe (parseblock buf n) s (parsed s))%nat).
Proof.
  induction n as [|n (IHl & IHp & IHe & IHb)]; [split_and!; intros; lia|].
  split_and!; intros s Hs Hn.
  - cbn [parseline]. apply safe_bind. eapply safe_mono; [apply IHp; lia|]. intros c s1 [H1 Hc].
    apply safe_bind. eapply safe_mono; [apply (backs_safe c s1 s); [lia|done]|]. intros c' s2 [H2 Hc'].
    apply safe_bind. eapply safe_mono; [apply peek_safe; lia|].
    intros [|] s3 [H3 Hp]; [|by apply safe_ret; split; [lia|]]. destruct Hp as [Hp _]; [done|].
    apply after_peek; [lia|done|]. intros t q e s4 H4 _. apply safe_bind.
    eapply safe_mono; [apply IHl; lia|]. intros r s5 [H5 Hr]. apply safe_ret. split; [lia|by apply toks_ok_2].
  - cbn [parsepipe]. apply safe_bind. eapply safe_mono; [apply IHe; lia|]. intros c s1 [H1 Hc].
    apply safe_bind. eapply safe_mono; [apply peek_safe; lia|].
    intros [|] s3 [H3 Hp]; [|by apply safe_ret; split; [lia|]]. destruct Hp as [Hp _]; [done|].
    apply after_peek; [lia|done|]. intros t q e s4 H4 _. apply safe_bind.
    eapply safe_mono; [apply IHp; lia|]. intros r s5 [H5 Hr]. apply safe_ret. split; [lia|by apply toks_ok_2].
  - cbn [parseexec]. apply safe_bind. eapply safe_mono; [apply peek_safe; lia|]. intros [|] s1 [H1 _].
    + eapply safe_mono; [apply IHb; lia|]. intros c s2 [H2 Hc]. split; [lia|done].
    + apply safe_bind. eapply safe_mono; [apply parseredirs_safe; [lia|by constructor]|]. intros c s2 [H2 Hc].
      eapply safe_mono; [apply parseargs_safe; [lia|done]|]. intros c' s3 [H3 Hc']. split; [lia|done].
  - cbn [parseblock]. apply safe_bind. eapply safe_mono; [apply peek_safe; lia|].
    intros [|] s1 [H1 Hp]; cbn [negb]; [|apply safe_panic]. destruct Hp as [Hp _]; [done|].
    apply after_peek; [lia|done|]. intros t q e s2 H2 _. apply safe_bind.
    eapply safe_mono; [apply IHl; lia|]. intros c s3 [H3 Hc]. apply safe_bind.
    eapply safe_mono; [apply peek_safe; lia|]. intros [|] s4 [H4 Hp']; cbn [negb]; [|apply safe_panic].
    destruct Hp' as [Hp' _]; [done|]. apply after_peek; [lia|done|]. intros t' q' e' s5 H5 _.
    eapply safe_mono; [apply parseredirs_safe; [lia|done]|]. intros c' s6 [H6 Hc']. split; [lia|done].
Qed.

Lemma parsecmd_safe : safe (parsecmd buf) 0 (fun c s => s = length buf /\ toks_ok c).
Proof.
  unfold parsecmd. apply safe_bind. eapply safe_mono; [apply parse_safe; unfold parse_fuel; lia|].
  intros c s [Hs Hc]. apply safe_bind. eapply safe_mono; [apply peek_safe; lia|]. intros _ s' [Hs' _].
  apply safe_bind. unfold safe at 1, gets, id. destruct (Nat.eqb_spec s' (length buf)) as [->|]; [|done]. by apply safe_ret.
Qed.
End total.

(** * What the arguments read as *)

Section strings.
Context (buf : list Z).

(** Writing NULs behind words changes no character of a word. *)
Definition nuls_behind (l : list Z) : Prop :=
  length l = S (length buf) /\ forall i, is_word (char_at buf i) = true -> (i < length buf)%nat -> l !! i = Some (char_at buf i).

Lemma nul_behind l t : nuls_behind l -> tok_ok buf t -> nuls_behind (<[t.2 := 0]> l).
Proof.
  intros [Hl Hw] (_ & _ & He). split; [by rewrite length_insert|]. intros i Hi Hlt.
  rewrite list_lookup_insert_ne; [by apply Hw|]. intros E. subst i. destruct He as [E|E]; [lia|congruence].
Qed.

Lemma nulterminate_behind c l : nuls_behind l -> toks_ok buf c -> nuls_behind (nulterminate c l).
Proof.
  revert l. induction c as [argv|c IH [q e] mode fd|l0 IHl r IHr|l0 IHl r IHr|c IH]; intros l Hl Hc; simpl.
  - unfold toks_ok in Hc. simpl in Hc. revert l Hl. induction Hc as [|[q e] argv Ht _ IH]; intros l Hl; simpl; [done|].
    apply IH. by apply (nul_behind l (q, e)).
  - apply Forall_app in Hc as [Hc Ht]. inversion Ht; subst. apply (nul_behind _ (q, e)); auto.
  - apply Forall_app in Hc as [H1 H2]. auto.
  - apply Forall_app in Hc as [H1 H2]. auto.
  - auto.
Qed.

Lemma char_at_lookup i : (i < length buf)%nat -> buf !! i = Some (char_at buf i).
Proof.
  intros Hi. unfold char_at. rewrite nth_lookup. destruct (buf !! i) eqn:E; [done|]. apply lookup_ge_None in E. lia.
Qed.

Lemma zero_stays c l i : l !! i = Some 0 -> nulterminate c l !! i = Some 0.
Proof.
  assert (Hw : forall (l : list Z) e, l !! i = Some 0 -> <[e := 0]> l !! i = Some 0).
  { intros l0 e Hi. destruct (decide (e = i)) as [->|]; [|by rewrite list_lookup_insert_ne].
    apply list_lookup_insert_eq. by eapply lookup_lt_Some. }
  revert l. induction c as [argv|c IH [q e] mode fd|l0 IHl r IHr|l0 IHl r IHr|c IH]; intros l Hl; simpl; auto.
  revert l Hl. induction argv as [|[q e] argv IH]; intros l Hl; simpl; auto.
Qed.

Lemma zero_behind c l t :
  t ∈ tokens c -> (t.2 < length l)%nat -> nulterminate c l !! t.2 = Some 0.
Proof.
  assert (Hlen : forall c (l : list Z), length (nulterminate c l) = length l).
  { induction c0 as [argv|c0 IH [q e] mode fd|l0 IHl r IHr|l0 IHl r IHr|c0 IH]; intros l1; simpl; auto.
    - revert l1. induction argv as [|[q e] argv IH]; intros l1; simpl; [done|]. by rewrite IH, length_insert.
    - by rewrite length_insert.
    - by rewrite IHr.
    - by rewrite IHr. }
  revert l. induction c as [argv|c IH [q e] mode fd|l0 IHl r IHr|l0 IHl r IHr|c IH]; intros l Ht Hl; simpl in *.
  - revert l Hl. induction argv as [|[q e] argv IH]; intros l Hl; simpl; [by apply elem_of_nil in Ht|].
    apply elem_of_cons in Ht as [->|Ht]; [|apply IH; [done|by rewrite length_insert]].
    apply (zero_stays (EXEC argv)). by apply list_lookup_insert_eq.
  - apply elem_of_app in Ht as [Ht| ->%list_elem_of_singleton]; [|apply list_lookup_insert_eq; by rewrite Hlen].
    destruct (decide (e = t.2)) as [->|]; [apply list_lookup_insert_eq; by rewrite Hlen|].
    rewrite list_lookup_insert_ne by done. auto.
  - apply elem_of_app in Ht as [Ht|Ht]; [apply zero_stays; auto|apply IHr; [done|by rewrite Hlen]].
  - apply elem_of_app in Ht as [Ht|Ht]; [apply zero_stays; auto|apply IHr; [done|by rewrite Hlen]].
  - auto.
Qed.

Lemma cstr_until l q e :
  (forall i, (q <= i < e)%nat -> exists c, l !! i = Some c /\ c <> 0) -> l !! e = Some 0 -> (q <= e)%nat ->
  cstr (drop q l) = take (e - q) (drop q l).
Proof.
  intros Hw He Hle. remember (e - q)%nat as n eqn:En. revert q Hw Hle En. induction n as [|n IH]; intros q Hw Hle En.
  - assert (q = e) as -> by lia. by rewrite (drop_S _ _ _ He).
  - destruct (Hw q) as (c & Hc & Hnz); [lia|]. rewrite (drop_S _ _ _ Hc). simpl.
    destruct (Z.eqb_spec c 0); [done|]. f_equal. apply IH; [intros i Hi; apply Hw; lia|lia|lia].
Qed.
End strings.

(** The text of a token. *)
Definition word_of (buf : list Z) (t : span) : list Z := take (t.2 - t.1) (drop t.1 buf).

(** C37: [parsecmd] ends on every line, with a command or a syntax error, and the
    strings a command holds are exact: each argument and file name is a word of
    the line, as long as it goes, and after [nulterminate] reads as that word,
    though the NULs of all of them are written into the one line. *)
Theorem parsecmd_arguments buf :
  no_nuls buf ->
  match parsecmd buf O with
  | Ok c _ => forall t, t ∈ tokens c ->
      tok_ok buf t /\ cstr (drop t.1 (nulterminate c (buf ++ [0]))) = word_of buf t
  | Panic _ _ => True
  | _ => False
  end.
Proof.
  intros Hno. pose proof (parsecmd_safe buf) as Hs. unfold safe in Hs. destruct (parsecmd buf O) as [c s| | | |]; try done.
  destruct Hs as [_ Hc]. intros t Ht. assert (Hok : tok_ok buf t).
  { unfold toks_ok in Hc. rewrite Forall_forall in Hc. by apply Hc. }
  split; [done|]. destruct Hok as ((H1 & H2) & Hw & _).
  assert (Hb : nuls_behind buf (nulterminate c (buf ++ [0]))).
  { apply nulterminate_behind; [|done]. split; [rewrite length_app; simpl; lia|]. intros i _ Hi.
    rewrite lookup_app_l by done. by apply char_at_lookup. }
  assert (Hi : forall i, (t.1 <= i < t.2)%nat -> nulterminate c (buf ++ [0]) !! i = buf !! i).
  { intros i Hi. rewrite (proj2 Hb i (Hw i Hi)) by lia.
    symmetry. apply char_at_lookup. lia. }
  rewrite (cstr_until _ t.1 t.2); [| |apply zero_behind; [done|rewrite length_app; simpl; lia]|lia].
  - unfold word_of. apply list_eq. intros i. destruct (decide (i < t.2 - t.1)%nat).
    + rewrite !lookup_take_lt, !lookup_drop by done. apply Hi. lia.
    + rewrite !lookup_ge_None_2; [done| |]; rewrite length_take; lia.
  - intros i Hit. rewrite Hi by done. destruct (buf !! i) as [c0|] eqn:E; [|apply lookup_ge_None in E; lia].
    exists c0. split; [done|]. by apply (Forall_lookup_1 _ _ _ _ Hno E).
Qed.

(** * Printing and parsing *)

Fixpoint map_cmd {T U} (f : T -> U) (c : cmd T) : cmd U :=
  match c with
  | EXEC argv => EXEC (f <$> argv)
  | REDIR c file mode fd => REDIR (map_cmd f c) (f file) mode fd
  | PIPE l r => PIPE (map_cmd f l) (map_cmd f r)
  | LIST l r => LIST (map_cmd f l) (map_cmd f r)
  | BACK c => BACK (map_cmd f c)
  end.

(** The three redirections there are. *)
Definition redir_op (mode fd : Z) : option (list Z) :=
  if decide (mode = O_RDONLY /\ fd = 0) then Some [c_lt]
  else if decide (mode = Z.lor (Z.lor O_WRONLY O_CREATE) O_TRUNC /\ fd = 1) then Some [c_gt]
  else if decide (mode = Z.lor O_WRONLY O_CREATE /\ fd = 1) then Some [c_gt; c_gt]
  else None.

Definition block (l : list Z) : list Z := c_open :: l ++ [c_close].

(** A command written out, every part of it in parentheses. *)
Fixpoint print (c : cmd (list Z)) : list Z :=
  match c with
  | EXEC argv => concat ((fun w => w ++ [c_space]) <$> argv)
  | REDIR c file mode fd => block (print c) ++ default [] (redir_op mode fd) ++ file ++ [c_space]
  | PIPE l r => block (print l) ++ c_bar :: block (print r)
  | LIST l r => block (print l) ++ c_semi :: block (print r)
  | BACK c => block (print c) ++ [c_amp]
  end.

Definition is_arg (w : list Z) : Prop := w <> [] /\ Forall (fun c => is_word c = true /\ c <> 0) w.

Fixpoint well_formed (c : cmd (list Z)) : Prop :=
  match c with
  | EXEC argv => Forall is_arg argv /\ (length argv < MAXARGS)%nat
  | REDIR c file mode fd => well_formed c /\ is_arg file /\ is_Some (redir_op mode fd)
  | PIPE l r | LIST l r => well_formed l /\ well_formed r
  | BACK c => well_formed c
  end.

(** What may follow: nothing, or a character that is not white space. *)
Definition clean (l : list Z) : Prop := match l with [] => True | c :: _ => is_ws c = false /\ c <> 0 end.
Definition head_in (toks l : list Z) : bool := match l with [] => false | c :: _ => has toks c end.

Section print.
Context (buf : list Z).

Lemma char_at_drop s c r : drop s buf = c :: r -> char_at buf s = c /\ (s < length buf)%nat.
Proof.
  intros E. split; [unfold char_at; by rewrite <- (Nat.add_0_r s), <- nth_drop_at, E|].
  apply (f_equal length) in E. rewrite length_drop in E. simpl in E. lia.
Qed.

Lemma drop_next s c r : drop s buf = c :: r -> drop (S s) buf = r.
Proof. intros E. by rewrite <- Nat.add_1_r, <- drop_drop, E. Qed.

Lemma drop_after s l r : drop s buf = l ++ r -> drop (s + length l) buf = r.
Proof. intros E. rewrite <- drop_drop, E. by apply drop_app_length. Qed.

Lemma skip_clean s : clean (drop s buf) -> skip buf s = s.
Proof. unfold skip. destruct (drop s buf) as [|c r]; simpl; [lia|]. intros [-> _]. lia. Qed.

Lemma peek_at toks s : clean (drop s buf) -> peek buf toks s = Ok (head_in toks (drop s buf)) s.
Proof.
  intros Hc. unfold peek, gets, modify, mbind, M_bind, mret, M_ret, id. rewrite skip_clean by done.
  destruct (drop s buf) as [|c r] eqn:E; simpl.
  - rewrite char_at_end; [done|]. apply (f_equal length) in E. rewrite length_drop in E. simpl in E. lia.
  - destruct (char_at_drop _ _ _ E) as [-> _]. destruct Hc as [_ Hc]. by destruct (Z.eqb_spec c 0).
Qed.

Lemma gettoken_sym s c r :
  drop s buf = c :: r -> has [c_bar; c_open; c_close; c_semi; c_amp; c_lt] c = true -> is_ws c = false -> c <> 0 ->
  clean r -> gettoken buf s = Ok (c, s, S s) (S s).
Proof.
  intros E Hh Hw Hz Hr. unfold gettoken, gets, modify, mbind, M_bind, mret, M_ret, id.
  rewrite (skip_clean s) by (by rewrite E). destruct (char_at_drop _ _ _ E) as [-> _].
  destruct (Z.eqb_spec c 0); [done|]. rewrite Hh. by rewrite skip_clean by (by rewrite (drop_next _ _ _ E)).
Qed.

Lemma gettoken_gt s r :
  drop s buf = c_gt :: r -> clean r -> head_in [c_gt] r = false -> gettoken buf s = Ok (c_gt, s, S s) (S s).
Proof.
  intros E Hr Hh. unfold gettoken, gets, modify, mbind, M_bind, mret, M_ret, id.
  rewrite (skip_clean s) by (by rewrite E). destruct (char_at_drop _ _ _ E) as [-> _].
  change (has _ c_gt) with false. simpl. pose proof (drop_next _ _ _ E) as E'.
  assert (Hn : (char_at buf (S s) =? c_gt) = false).
  { destruct r as [|c r]; [rewrite char_at_end; [done|]; apply (f_equal length) in E'; rewrite length_drop in E'; simpl in E'; lia|].
    destruct (char_at_drop _ _ _ E') as [-> _]. apply Z.eqb_neq. intros ->. by vm_compute in Hh. }
  rewrite Hn. by rewrite skip_clean by (by rewrite E').
Qed.

Lemma gettoken_gtgt s r :
  drop s buf = c_gt :: c_gt :: r -> clean r -> gettoken buf s = Ok (c_plus, s, S (S s)) (S (S s)).
Proof.
  intros E Hr. unfold gettoken, gets, modify, mbind, M_bind, mret, M_ret, id.
  rewrite (skip_clean s) by (by rewrite E). destruct (char_at_drop _ _ _ E) as [-> _].
  change (has _ c_gt) with false. simpl. pose proof (drop_next _ _ _ E) as E'.
  destruct (char_at_drop _ _ _ E') as [-> _]. simpl. by rewrite skip_clean by (by rewrite (drop_next _ _ _ E')).
Qed.

Lemma count_word w r : Forall (fun c => is_word c = true /\ c <> 0) w -> count is_word (w ++ c_space :: r) = length w.
Proof. induction 1 as [|c w [Hc _] _ IH]; simpl; [done|]. by rewrite Hc, IH. Qed.

Lemma word_not_special c : is_word c = true -> is_ws c = false /\ has [c_bar; c_open; c_close; c_semi; c_amp; c_lt] c = false /\ c <> c_gt.
Proof.
  unfold is_word, is_ws. intros [H1%negb_true_iff H2%negb_true_iff]%andb_true_iff. split; [done|].
  unfold has, symbols in *. apply bool_decide_eq_false in H2.
  assert (Hn : c ∉ [60; 124; 62; 38; 59; 40; 41]).
  { apply strchr_None. destruct (strchr [60; 124; 62; 38; 59; 40; 41] c) eqn:E; [|done]. destruct H2. by exists n. }
  split; [|set_solver]. apply bool_decide_eq_false. rewrite (proj2 (strchr_None _ _)); [by intros [? ?]|].
  unfold c_bar, c_open, c_close, c_semi, c_amp, c_lt. set_solver.
Qed.

Lemma gettoken_word s w r :
  drop s buf = w ++ c_space :: r -> is_arg w -> clean r ->
  gettoken buf s = Ok (c_a, s, (s + length w)%nat) (S (s + length w)).
Proof.
  intros E [Hne Hw] Hr. destruct w as [|c w]; [done|]. inversion Hw as [|? ? [Hc Hz] Hw']; subst.
  destruct (word_not_special c Hc) as (H1 & H2 & H3).
  unfold gettoken, gets, modify, mbind, M_bind, mret, M_ret, id.
  rewrite (skip_clean s) by (by rewrite E). destruct (char_at_drop _ _ _ E) as [-> _].
  destruct (Z.eqb_spec c 0); [done|]. rewrite H2. destruct (Z.eqb_spec c c_gt); [done|].
  rewrite E. rewrite (count_word (c :: w)) by done. f_equal.
  pose proof (drop_after _ _ _ E) as E'. unfold skip. rewrite E'. simpl.
  destruct r as [|c' r]; simpl; [lia|]. destruct Hr as [-> _]. lia.
Qed.

Lemma word_of_at s w r : drop s buf = w ++ r -> word_of buf (s, (s + length w)%nat) = w.
Proof. intros E. unfold word_of. simpl. rewrite E. by rewrite Nat.add_comm, Nat.add_sub, take_app_length. Qed.

Lemma gettoken_end s : drop s buf = [] -> gettoken buf s = Ok (0, s, s) s.
Proof.
  intros E. unfold gettoken, gets, modify, mbind, M_bind, mret, M_ret, id. rewrite (skip_clean s) by (by rewrite E).
  rewrite char_at_end; [simpl; by rewrite ?(skip_clean s) by (by rewrite E)|].
  apply (f_equal length) in E. rewrite length_drop in E. simpl in E. lia.
Qed.

Lemma parseredirs_none c s :
  clean (drop s buf) -> head_in [c_lt; c_gt] (drop s buf) = false -> parseredirs buf c s = Ok c s.
Proof.
  intros Hc Hh. unfold parseredirs, turns. apply loop_exit. unfold mbind, M_bind. by rewrite peek_at, Hh.
Qed.

Lemma arg_clean w r : is_arg w -> clean (w ++ r) /\ (forall l, (forall c, c ∈ l -> is_word c = false) -> head_in l (w ++ r) = false).
Proof.
  intros [Hne Hw]. destruct w as [|c w]; [done|]. inversion Hw as [|? ? [Hc Hz] _]; subst.
  destruct (word_not_special c Hc) as (H1 & _). split; [done|]. intros l Hl. simpl. unfold has.
  apply bool_decide_eq_false. rewrite (proj2 (strchr_None _ _)); [by intros [? ?]|]. intros Hin. apply Hl in Hin. congruence.
Qed.

Lemma gt_not_word c : c ∈ [c_gt] -> is_word c = false.
Proof. by intros ->%list_elem_of_singleton. Qed.

(** The operator in front of a file name. *)
Lemma gettoken_op s op mode fd f r :
  redir_op mode fd = Some op -> is_arg f -> drop s buf = op ++ f ++ r ->
  exists tok, gettoken buf s = Ok (tok, s, (s + length op)%nat) (s + length op)%nat /\
    head_in [c_lt; c_gt] (op ++ f ++ r) = true /\ clean (op ++ f ++ r) /\
    ((tok = c_lt /\ mode = O_RDONLY /\ fd = 0) \/
     (tok = c_gt /\ mode = Z.lor (Z.lor O_WRONLY O_CREATE) O_TRUNC /\ fd = 1) \/
     (tok = c_plus /\ mode = Z.lor O_WRONLY O_CREATE /\ fd = 1)).
Proof.
  intros Hop Hf E. destruct (arg_clean f r Hf) as [Hcl Hhd]. unfold redir_op in Hop. repeat case_decide; simplify_eq; simpl in *.
  - exists c_lt. rewrite Nat.add_1_r. split; [by eapply gettoken_sym|]. split_and!; [done|done|done|by left].
  - exists c_gt. rewrite Nat.add_1_r. split; [eapply gettoken_gt; [exact E|done|apply Hhd, gt_not_word]|].
    split_and!; [done|done|done|by right; left].
  - exists c_plus. replace (s + 2)%nat with (S (S s)) by lia. split; [by eapply gettoken_gtgt|].
    split_and!; [done|done|done|by right; right].
Qed.

Lemma parseredirs_one c s op mode fd f r :
  redir_op mode fd = Some op -> is_arg f -> drop s buf = op ++ f ++ c_space :: r -> clean r ->
  head_in [c_lt; c_gt] r = false ->
  exists t, parseredirs buf c s = Ok (REDIR c t mode fd) (S (s + length op + length f)) /\ word_of buf t = f.
Proof.
  intros Hop Hf E Hr Hh. destruct (gettoken_op s op mode fd f (c_space :: r) Hop Hf E) as (tok & Ht & Hin & Hcl & Hcase).
  pose proof (drop_after _ _ _ E) as E1. rewrite <- E in Hin, Hcl.
  exists ((s + length op)%nat, (s + length op + length f)%nat). split; [|by eapply word_of_at].
  assert (E2 : drop (S (s + length op + length f)) buf = r).
  { pose proof (drop_after _ _ _ E1) as E2. by rewrite (drop_next _ _ _ E2). }
  unfold parseredirs, turns. erewrite loop_next.
  - apply loop_exit. unfold mbind, M_bind. rewrite peek_at by (by rewrite E2). rewrite E2, Hh. done.
  - unfold mbind, M_bind. rewrite peek_at by done. rewrite Hin, Ht, (gettoken_word _ _ _ E1 Hf Hr).
    by destruct Hcase as [(-> & -> & ->)|[(-> & -> & ->)|(-> & -> & ->)]].
Qed.

Lemma set_argv_exec argv : set_argv argv (EXEC []) = EXEC argv.
Proof. done. Qed.

(** The loop of [parseargs], with [done] parsed already. *)
Lemma parseargs_loop fuel (done : list span) argv s r :
  (length argv < fuel)%nat -> Forall is_arg argv -> (length done + length argv < MAXARGS)%nat ->
  drop s buf = concat ((fun w => w ++ [c_space]) <$> argv) ++ r -> clean r ->
  (r = [] \/ head_in [c_bar; c_close; c_amp; c_semi] r = true) -> head_in [c_lt; c_gt] r = false ->
  exists ts, loop fuel (fun '(argv, ret) =>
    stop ← peek buf [c_bar; c_close; c_amp; c_semi];
    if stop : bool then mret (inr (argv, ret))
    else
      '(tok, q, eq) ← gettoken buf;
      if tok =? 0 then mret (inr (argv, ret))
      else if negb (tok =? c_a) then panic "syntax"
      else
        let argv := argv ++ [(q, eq)] in
        if (MAXARGS <=? length argv)%nat then panic "too many args"
        else ret ← parseredirs buf ret; mret (inl (argv, ret))) (done, EXEC []) s =
    Ok (done ++ ts, EXEC []) (s + length (concat ((fun w => w ++ [c_space]) <$> argv)))%nat /\ word_of buf <$> ts = argv.
Proof.
  intros Hf Ha Hn E Hr Hend Hlg. revert fuel done s Hf Hn E.
  induction Ha as [|w argv Hw Ha IH]; intros fuel done s Hf Hn E; (destruct fuel as [|fuel]; [simpl in Hf; lia|]).
  - exists []. split; [|done]. simpl in E. rewrite app_nil_r, Nat.add_0_r. apply loop_exit. unfold mbind, M_bind.
    rewrite peek_at by (by rewrite E). rewrite E. destruct Hend as [->| ->]; [|done]. simpl.
    by rewrite gettoken_end.
  - rewrite fmap_cons, concat_cons, <- !app_assoc in E. destruct (arg_clean w (c_space :: concat ((fun w => w ++ [c_space]) <$> argv) ++ r) Hw) as [Hcl Hhd].
    assert (Hcl' : clean (concat ((fun w => w ++ [c_space]) <$> argv) ++ r) /\
      head_in [c_lt; c_gt] (concat ((fun w => w ++ [c_space]) <$> argv) ++ r) = false).
    { destruct Ha as [|w' argv Hw' _]; [done|]. rewrite fmap_cons, concat_cons, <- !app_assoc.
      destruct (arg_clean w' ([c_space] ++ concat ((fun w => w ++ [c_space]) <$> argv) ++ r) Hw') as [H1 H2].
      split; [done|]. apply H2. intros c Hc. apply elem_of_cons in Hc as [->|Hc]; [done|by apply gt_not_word]. }
    destruct Hcl' as [Hcl' Hlg'].
    assert (E1 : drop (S (s + length w)) buf = concat ((fun w => w ++ [c_space]) <$> argv) ++ r).
    { pose proof (drop_after _ _ _ E) as E1. by rewrite (drop_next _ _ _ E1). }
    destruct (IH fuel (done ++ [(s, (s + length w)%nat)]) (S (s + length w))) as (ts & Hts & Hres);
      [simpl in Hf; lia|rewrite length_app; simpl in *; lia|done|].
    exists ((s, (s + length w)%nat) :: ts). split; [|rewrite fmap_cons, Hres; f_equal; by eapply word_of_at].
    erewrite loop_next.
    + rewrite Hts. f_equal; [by rewrite <- app_assoc|]. rewrite fmap_cons, concat_cons, !length_app. simpl. lia.
    + unfold mbind, M_bind. rewrite peek_at by (by rewrite E). rewrite E, Hhd.
      * rewrite (gettoken_word _ _ _ E Hw Hcl'). change (c_a =? 0) with false. change (c_a =? c_a) with true. cbn [negb]. destruct (_ <=? _)%nat eqn:El.
        { apply Nat.leb_le in El. rewrite length_app in El. cbn [length] in *. unfold span in *. lia. }
        by rewrite parseredirs_none by (by rewrite E1).
      * intros c Hc. repeat (apply elem_of_cons in Hc as [->|Hc]; [done|]). by apply elem_of_nil in Hc.
Qed.

(** What may follow a command: the end or a closing parenthesis. *)
Definition follow (r : list Z) : Prop := r = [] \/ exists r', r = c_close :: r'.

Lemma follow_clean r : follow r -> clean r.
Proof. by intros [->|[r' ->]]. Qed.

Lemma follow_not toks r : follow r -> has toks c_close = false -> head_in toks r = false.
Proof. by intros [->|[r' ->]]. Qed.

Lemma print_clean c r : well_formed c -> clean r -> clean (print c ++ r).
Proof.
  intros Hc Hr. destruct c as [argv|c f mode fd|l r0|l r0|c]; try done. simpl in *. destruct Hc as [Ha _].
  destruct Ha as [|w argv Hw _]; [done|]. rewrite fmap_cons, concat_cons, <- !app_assoc. by apply arg_clean.
Qed.

(** The result for one command, at any place of the line. *)
Definition reparses (c : cmd (list Z)) : Prop := forall n s r,
  (4 * (length buf - s) + 4 <= n)%nat -> drop s buf = print c ++ r -> follow r ->
  exists t, parseline buf n s = Ok t (s + length (print c))%nat /\ map_cmd (word_of buf) t = c.

Lemma drop_len s l : drop s buf = l -> l <> [] -> (length buf = s + length l)%nat.
Proof. intros E Hl. apply (f_equal length) in E as E'. rewrite length_drop in E'. destruct l; [done|]. simpl in *. lia. Qed.

(** A block: the command in it, then the redirections. *)
Lemma block_exec c n s r :
  reparses c -> well_formed c -> (4 * (length buf - s) + 2 <= n)%nat ->
  drop s buf = block (print c) ++ r -> clean r ->
  exists t, parseexec buf n s = parseredirs buf t (s + length (block (print c)))%nat /\ map_cmd (word_of buf) t = c.
Proof.
  intros Hc Hwf Hn E Hr. unfold block in E. simpl in E. rewrite <- app_assoc in E.
  pose proof (drop_len _ _ E ltac:(done)) as HL. rewrite !length_cons, !length_app in HL.
  destruct n as [|[|n]]; [lia|lia|]. pose proof (drop_next _ _ _ E) as E1.
  destruct (Hc n (S s) (c_close :: r)) as (t & Ht & Hm); [lia|exact E1|by right; eexists|].
  pose proof (drop_after _ _ _ E1) as E2. exists t. split; [|done]. rewrite Nat.add_succ_l in E2, Ht.
  assert (Hop : peek buf [c_open] s = Ok true s) by (rewrite peek_at; by rewrite E).
  cbn [parseexec parseblock]. unfold mbind, M_bind. rewrite !Hop. cbn [negb].
  rewrite (gettoken_sym _ _ _ E) by (done || by apply print_clean).
  rewrite Ht. rewrite peek_at by (by rewrite E2). rewrite E2. change (head_in [c_close] ([c_close] ++ r)) with true. cbn [negb].
  rewrite (gettoken_sym _ _ _ E2) by done. f_equal. unfold block. simpl. rewrite length_app. simpl. lia.
Qed.

(** A block with no redirections behind it. *)
Lemma block_plain c n s r :
  reparses c -> well_formed c -> (4 * (length buf - s) + 2 <= n)%nat ->
  drop s buf = block (print c) ++ r -> clean r -> head_in [c_lt; c_gt] r = false ->
  exists t, parseexec buf n s = Ok t (s + length (block (print c)))%nat /\ map_cmd (word_of buf) t = c.
Proof.
  intros Hc Hwf Hn E Hr Hh. destruct (block_exec c n s r Hc Hwf Hn E Hr) as (t & Ht & Hm). exists t. split; [|done].
  rewrite Ht. apply parseredirs_none; by rewrite (drop_after _ _ _ E).
Qed.

(** [parseline] when [parsepipe] leaves it at the end. *)
Lemma parseline_pipe n s t s' :
  parsepipe buf n s = Ok t s' -> follow (drop s' buf) -> parseline buf (S n) s = Ok t s'.
Proof.
  intros Ht Hf. cbn [parseline]. unfold mbind at 1, M_bind at 1. rewrite Ht.
  rewrite (bind_ok _ _ _ t s'). 2: { unfold turns. apply loop_exit. unfold mbind, M_bind.
    rewrite peek_at by (by apply follow_clean). by rewrite follow_not. }
  unfold mbind, M_bind. rewrite peek_at by (by apply follow_clean). by rewrite follow_not.
Qed.

Lemma parsepipe_exec n s t s' :
  parseexec buf n s = Ok t s' -> clean (drop s' buf) -> head_in [c_bar] (drop s' buf) = false ->
  parsepipe buf (S n) s = Ok t s'.
Proof. intros Ht Hc Hh. cbn [parsepipe]. unfold mbind, M_bind. rewrite Ht, peek_at by done. by rewrite Hh. Qed.

Lemma reparses_exec argv : Forall is_arg argv -> (length argv < MAXARGS)%nat -> reparses (EXEC argv).
Proof.
  intros Ha Hm n s r Hn E Hf. pose proof (follow_clean r Hf) as Hr.
  destruct n as [|[|[|n]]]; [lia|lia|lia|]. cbn [print] in *.
  assert (Hstop : r = [] \/ head_in [c_bar; c_close; c_amp; c_semi] r = true).
  { destruct Hf as [->|[r' ->]]; [by left|by right]. }
  assert (Hcl : clean (drop s buf) /\ head_in [c_lt; c_gt] (drop s buf) = false /\ head_in [c_open] (drop s buf) = false).
  { rewrite E. destruct Ha as [|w argv Hw _]; [simpl; split_and!; [done|by apply follow_not..]|].
    rewrite fmap_cons, concat_cons, <- !app_assoc. destruct (arg_clean w ([c_space] ++ concat ((fun w => w ++ [c_space]) <$> argv) ++ r) Hw) as [H1 H2].
    split_and!; [done|apply H2|apply H2]; intros c Hc; repeat (apply elem_of_cons in Hc as [->|Hc]; [done|]); by apply elem_of_nil in Hc. }
  destruct Hcl as (Hcl & Hlg & Hop).
  destruct (parseargs_loop (turns buf) [] argv s r) as (ts & Hts & Hres); try done.
  { unfold turns. assert (length argv <= length (drop s buf))%nat; [|rewrite length_drop in *; lia].
    rewrite E, length_app. clear. induction argv as [|w argv IH]; [simpl; lia|].
    rewrite fmap_cons, concat_cons, !length_app. simpl in *. lia. }
  { by apply follow_not. }
  exists (EXEC ts). split; [|simpl; by rewrite Hres]. pose proof (drop_after _ _ _ E) as E1.
  apply parseline_pipe; [|by rewrite E1]. apply parsepipe_exec; [|by rewrite E1|rewrite E1; by apply follow_not].
  cbn [parseexec]. unfold mbind at 1, M_bind at 1. rewrite peek_at, Hop by done.
  rewrite (bind_ok _ _ _ (EXEC []) s) by (by apply parseredirs_none).
  unfold parseargs. erewrite bind_ok; [|exact Hts]. done.
Qed.

Lemma op_clean mode fd op l : redir_op mode fd = Some op -> clean (op ++ l) /\ (0 < length op)%nat.
Proof. unfold redir_op. intros H. repeat case_decide; simplify_eq; simpl; split; done || lia. Qed.

Lemma reparses_redir c f mode fd :
  reparses c -> well_formed (REDIR c f mode fd) -> reparses (REDIR c f mode fd).
Proof.
  intros Hc (Hwf & Hf & [op Hop]) n s r Hn E Hfo. destruct n as [|[|n]]; [lia|lia|]. cbn [print] in *. rewrite Hop in *. simpl default in *.
  rewrite <- !app_assoc in E. destruct (op_clean mode fd op (f ++ [c_space] ++ r) Hop) as [Hcl _].
  destruct (block_exec c n s _ Hc Hwf ltac:(lia) E Hcl) as (t & Ht & Hm).
  pose proof (drop_after _ _ _ E) as E1.
  destruct (parseredirs_one t _ op mode fd f r Hop Hf E1) as (w & Hr & Hw); [by apply follow_clean|by apply follow_not|].
  exists (REDIR t w mode fd). split; [|simpl; by rewrite Hm, Hw].
  assert (E2 : drop (S (s + length (block (print c)) + length op + length f)) buf = r).
  { pose proof (drop_after _ _ _ E1) as E2. pose proof (drop_after _ _ _ E2) as E3. by rewrite (drop_next _ _ _ E3). }
  replace (s + length (block (print c) ++ op ++ f ++ [c_space]))%nat with (S (s + length (block (print c)) + length op + length f))
    by (rewrite !length_app; simpl; lia).
  apply parseline_pipe; [|by rewrite E2]. apply parsepipe_exec; [by rewrite Ht|rewrite E2; by apply follow_clean|].
  rewrite E2. by apply follow_not.
Qed.

Lemma reparses_pipe l r : reparses l -> reparses r -> well_formed l -> well_formed r -> reparses (PIPE l r).
Proof.
  intros Hl Hr Hwl Hwr n s r0 Hn E Hfo. destruct n as [|[|[|n]]]; [lia..|]. cbn [print] in *. rewrite <- app_assoc in E.
  destruct (block_plain l (S n) s _ Hl Hwl ltac:(lia) E) as (tl & Ht & Hm); [done|done|].
  pose proof (drop_after _ _ _ E) as E1.
  assert (E2 : drop (S (s + length (block (print l)))) buf = block (print r) ++ r0) by exact (drop_next _ _ _ E1).
  pose proof (drop_len _ _ E1 ltac:(done)) as HL. rewrite length_app, length_cons in HL.
  destruct (block_plain r n (S (s + length (block (print l)))) _ Hr Hwr ltac:(lia) E2) as (tr & Ht' & Hm'); [by apply follow_clean|by apply follow_not|].
  exists (PIPE tl tr). split; [|simpl; by rewrite Hm, Hm'].
  pose proof (drop_after _ _ _ E2) as E3.
  replace (s + length (block (print l) ++ c_bar :: block (print r)))%nat with
    (S (s + length (block (print l))) + length (block (print r)))%nat by (rewrite length_app; simpl; lia).
  apply parseline_pipe; [|by rewrite E3]. change (parsepipe buf (S (S n)) s) with ((c ← parseexec buf (S n);
      more ← peek buf [c_bar]; if more : bool then gettoken buf;; r ← parsepipe buf (S n); mret (PIPE c r) else mret c) s).
  erewrite bind_ok; [|exact Ht]. unfold mbind, M_bind. rewrite peek_at by (by rewrite E1). rewrite E1.
  change (head_in [c_bar] _) with true. cbv beta iota. rewrite (gettoken_sym _ _ _ E1) by done.
  erewrite parsepipe_exec; [done|exact Ht'|rewrite E3; by apply follow_clean|rewrite E3; by apply follow_not].
Qed.

(** [parseline] behind its first [parsepipe], up to the list. *)
Lemma parseline_block c n s r :
  reparses c -> well_formed c -> (4 * (length buf - s) + 3 <= n)%nat ->
  drop s buf = block (print c) ++ r -> clean r -> head_in [c_lt; c_gt] r = false -> head_in [c_bar] r = false ->
  exists t, parsepipe buf n s = Ok t (s + length (block (print c)))%nat /\ map_cmd (word_of buf) t = c.
Proof.
  intros Hc Hwf Hn E Hr H1 H2. destruct n as [|n]; [lia|].
  destruct (block_plain c n s r Hc Hwf ltac:(lia) E Hr H1) as (t & Ht & Hm). exists t. split; [|done].
  pose proof (drop_after _ _ _ E) as E1. apply parsepipe_exec; [done|by rewrite E1|by rewrite E1].
Qed.

Lemma reparses_list l r : reparses l -> reparses r -> well_formed l -> well_formed r -> reparses (LIST l r).
Proof.
  intros Hl Hr Hwl Hwr n s r0 Hn E Hfo. destruct n as [|n]; [lia|]. cbn [print] in *. rewrite <- app_assoc in E.
  destruct (parseline_block l n s _ Hl Hwl ltac:(lia) E) as (tl & Ht & Hm); [done..|].
  pose proof (drop_after _ _ _ E) as E1.
  assert (E2 : drop (S (s + length (block (print l)))) buf = block (print r) ++ r0) by exact (drop_next _ _ _ E1).
  pose proof (drop_len _ _ E1 ltac:(done)) as HL. rewrite length_app, length_cons in HL. destruct n as [|n]; [lia|].
  destruct (parseline_block r n (S (s + length (block (print l)))) _ Hr Hwr ltac:(lia) E2) as (tr & Ht' & Hm'); [by apply follow_clean|by apply follow_not..|].
  exists (LIST tl tr). split; [|simpl; by rewrite Hm, Hm'].
  pose proof (drop_after _ _ _ E2) as E3.
  replace (s + length (block (print l) ++ c_semi :: block (print r)))%nat with
    (S (s + length (block (print l))) + length (block (print r)))%nat by (rewrite length_app; simpl; lia).
  change (parseline buf (S (S n)) s) with ((c ← parsepipe buf (S n);
      c ← loop (turns buf) (fun c => more ← peek buf [c_amp]; if more : bool then gettoken buf;; mret (inl (BACK c)) else mret (inr c)) c;
      more ← peek buf [c_semi]; if more : bool then gettoken buf;; r ← parseline buf (S n); mret (LIST c r) else mret c) s).
  erewrite bind_ok; [|exact Ht]. erewrite bind_ok.
  2: { unfold turns. apply loop_exit. unfold mbind, M_bind. rewrite peek_at by (by rewrite E1). by rewrite E1. }
  unfold mbind, M_bind. rewrite peek_at by (by rewrite E1). rewrite E1.
  change (head_in [c_semi] _) with true. cbv beta iota. rewrite (gettoken_sym _ _ _ E1) by done.
  by rewrite (parseline_pipe _ _ _ _ Ht') by (by rewrite E3).
Qed.

Lemma reparses_back c : reparses c -> well_formed c -> reparses (BACK c).
Proof.
  intros Hc Hwf n s r Hn E Hfo. destruct n as [|n]; [lia|]. cbn [print] in *. rewrite <- app_assoc in E.
  destruct (parseline_block c n s _ Hc Hwf ltac:(lia) E) as (t & Ht & Hm); [done..|].
  pose proof (drop_after _ _ _ E) as E1. pose proof (drop_next _ _ _ E1) as E2.
  exists (BACK t). split; [|simpl; by rewrite Hm].
  replace (s + length (block (print c) ++ [c_amp]))%nat with (S (s + length (block (print c))))%nat by (rewrite length_app; simpl; lia).
  cbn [parseline]. erewrite bind_ok; [|exact Ht]. erewrite bind_ok.
  2: { unfold turns. erewrite loop_next.
       - apply loop_exit. unfold mbind, M_bind. rewrite peek_at by (rewrite E2; by apply follow_clean).
         rewrite E2. by rewrite follow_not.
       - unfold mbind, M_bind. rewrite peek_at by (by rewrite E1). rewrite E1. change (head_in [c_amp] _) with true. cbv beta iota.
         by rewrite (gettoken_sym _ _ _ E1) by (done || by apply follow_clean). }
  unfold mbind, M_bind. rewrite peek_at by (rewrite E2; by apply follow_clean). rewrite E2. by rewrite follow_not.
Qed.

Lemma reparses_all c : well_formed c -> reparses c.
Proof.
  induction c as [argv|c IH f mode fd|l IHl r IHr|l IHl r IHr|c IH]; intros Hwf.
  - by apply reparses_exec; destruct Hwf.
  - apply reparses_redir; [apply IH, Hwf|done].
  - destruct Hwf. apply reparses_pipe; auto.
  - destruct Hwf. apply reparses_list; auto.
  - apply reparses_back; auto.
Qed.
End print.

(** C36: every command the shell can represent is what [parsecmd] reads back from
    its printed form: parsing inverts printing, for any nesting of pipes,
    lists, background commands, redirections and blocks. *)
Theorem parse_print c :
  well_formed c ->
  exists t, parsecmd (print c) O = Ok t (length (print c)) /\ map_cmd (word_of (print c)) t = c.
Proof.
  intros Hwf. destruct (reparses_all (print c) c Hwf (parse_fuel (print c)) O []) as (t & Ht & Hm).
  - unfold parse_fuel. lia.
  - by rewrite app_nil_r.
  - by left.
  - exists t. split; [|done]. unfold parsecmd. erewrite bind_ok; [|exact Ht].
    rewrite (bind_ok _ _ _ false (O + length (print c))%nat).
    + unfold mbind, M_bind, gets, id. cbn [Nat.add]. rewrite Nat.eqb_refl. done.
    + cbn [Nat.add]. rewrite peek_at; by rewrite drop_all.
Qed.

(** [(ls f | wc >out) &]. *)
Definition example_cmd : cmd (list Z) :=
  BACK (PIPE (EXEC [[108; 115]; [102]])
    (REDIR (EXEC [[119; 99]]) [111; 117; 116] (Z.lor (Z.lor O_WRONLY O_CREATE) O_TRUNC) 1)).

Lemma parse_print_witness :
  exists t, parsecmd (print example_cmd) O = Ok t (length (print example_cmd)) /\
    map_cmd (word_of (print example_cmd)) t = example_cmd.
Proof.
  apply (parse_print example_cmd). simpl. split_and!; try (unfold MAXARGS; lia); try (by eexists).
  all: repeat (apply Forall_cons_2 || apply Forall_nil_2); split; done || (repeat constructor; done).
Defined.

Lemma parsecmd_arguments_witness :
  match parsecmd (print example_cmd) O with
  | Ok c _ => forall t, t ∈ tokens c ->
      tok_ok (print example_cmd) t /\ cstr (drop t.1 (nulterminate c (print example_cmd ++ [0]))) = word_of (print example_cmd) t
  | Panic _ _ => True
  | _ => False
  end.
Proof. apply (parsecmd_arguments (print example_cmd)). repeat constructor; done. Defined.
