(* ===== verification/ShRun.v ===== *)
(** Running a parsed command, [runcmd] of [user/sh.c]: the programs it starts
    and the descriptors they start with.

    A descriptor table is what [fork] copies and [close], [dup], [open] and
    [pipe] change, taking the lowest free descriptor as [fdalloc] of
    [kernel/sysfile.c] does.  A run gives the programs reached by [exec], each
    with its arguments and its table, in the order of the source; pipes are
    numbered as they are made.  [fork] and [exec] succeed here; which files can
    be opened is an argument, and a table without room makes [pipe] fail. *)

From S2P Require Import Prelude Ulib Sh.

(** What a descriptor stands for. *)
Inductive object : Type :=
  | Inherited (n : nat)
  | Opened (file : list Z) (mode : Z)
  | PipeRead (n : nat)
  | PipeWrite (n : nat).

Definition fdtable : Type := list (option object).
Definition NOFILE : nat := 16.

(** The lowest free descriptor. *)
Fixpoint lowest (t : fdtable) : option nat :=
  match t with
  | None :: _ => Some O
  | Some _ :: t' => S <$> lowest t'
  | [] => None
  end.

Definition close (fd : nat) (t : fdtable) : fdtable := <[fd := None]> t.

Definition fd_alloc (o : object) (t : fdtable) : option (nat * fdtable) :=
  fd ← lowest t; Some (fd, <[fd := Some o]> t).

(** [dup(fd)], whose result the source ignores. *)
Definition dup (fd : nat) (t : fdtable) : fdtable :=
  match t !! fd with
  | Some (Some o) => match fd_alloc o t with Some (_, t') => t' | None => t end
  | _ => t
  end.

Definition pipe (n : nat) (t : fdtable) : option (nat * nat * fdtable) :=
  '(p0, t) ← fd_alloc (PipeRead n) t;
  '(p1, t) ← fd_alloc (PipeWrite n) t;
  Some (p0, p1, t).

Section run.
Context (can_open : list Z -> Z -> bool).

(** The programs started, and the number of the next pipe. *)
Fixpoint runcmd (c : cmd (list Z)) (t : fdtable) (n : nat) : list (list (list Z) * fdtable) * nat :=
  match c with
  | EXEC argv => match argv with [] => ([], n) | _ => ([(argv, t)], n) end
  | REDIR c file mode fd =>
      let t := close (Z.to_nat fd) t in
      if can_open file mode then
        match fd_alloc (Opened file mode) t with
        | Some (_, t) => runcmd c t n
        | None => ([], n)
        end
      else ([], n)
  | LIST l r =>
      let '(a, n) := runcmd l t n in
      let '(b, n) := runcmd r t n in
      (a ++ b, n)
  | PIPE l r =>
      match pipe n t with
      | None => ([], S n)
      | Some (p0, p1, t) =>
          let '(a, n') := runcmd l (close p1 (close p0 (dup p1 (close 1 t)))) (S n) in
          let '(b, n') := runcmd r (close p1 (close p0 (dup p0 (close 0 t)))) n' in
          (a ++ b, n')
      end
  | BACK c => runcmd c t n
  end.

(** What the command means: each program's standard input, output and error. *)
Fixpoint wiring (c : cmd (list Z)) (io : object * object * object) (n : nat) :
    list (list (list Z) * (object * object * object)) * nat :=
  let '(i, o, e) := io in
  match c with
  | EXEC argv => match argv with [] => ([], n) | _ => ([(argv, io)], n) end
  | REDIR c file mode fd =>
      if can_open file mode then
        wiring c (if fd =? 0 then (Opened file mode, o, e) else (i, Opened file mode, e)) n
      else ([], n)
  | LIST l r =>
      let '(a, n) := wiring l io n in
      let '(b, n) := wiring r io n in
      (a ++ b, n)
  | PIPE l r =>
      let '(a, n') := wiring l (i, PipeWrite n, e) (S n) in
      let '(b, n') := wiring r (PipeRead n, o, e) n' in
      (a ++ b, n')
  | BACK c => wiring c io n
  end.

(** The table with just these three open. *)
Definition standard (io : object * object * object) : fdtable :=
  let '(i, o, e) := io in [Some i; Some o; Some e] ++ replicate 13 None.

(** The redirections the parser makes. *)
Fixpoint parsed_redirs (c : cmd (list Z)) : Prop :=
  match c with
  | EXEC _ => True
  | REDIR c _ _ fd => (fd = 0 \/ fd = 1) /\ parsed_redirs c
  | PIPE l r | LIST l r => parsed_redirs l /\ parsed_redirs r
  | BACK c => parsed_redirs c
  end.

Lemma runcmd_ok c io n :
  parsed_redirs c ->
  runcmd c (standard io) n = (prod_map id standard <$> (wiring c io n).1, (wiring c io n).2).
Proof.
  revert io n. induction c as [argv|c IH f mode fd|l IHl r IHr|l IHl r IHr|c IH]; intros [[i o] e] n Hc; cbn [runcmd wiring].
  - by destruct argv.
  - destruct (can_open f mode); [|done]. destruct Hc as [[->| ->] Hc].
    + exact (IH (Opened f mode, o, e) n Hc).
    + exact (IH (i, Opened f mode, e) n Hc).
  - destruct Hc as [Hl Hr].
    change (pipe n (standard (i, o, e))) with
      (Some (3%nat, 4%nat, [Some i; Some o; Some e; Some (PipeRead n); Some (PipeWrite n)] ++ replicate 11 None)).
    cbv beta iota.
    change (close 4 (close 3 (dup 4 (close 1 ([Some i; Some o; Some e; Some (PipeRead n); Some (PipeWrite n)] ++ replicate 11 None)))))
      with (standard (i, PipeWrite n, e)).
    change (close 4 (close 3 (dup 3 (close 0 ([Some i; Some o; Some e; Some (PipeRead n); Some (PipeWrite n)] ++ replicate 11 None)))))
      with (standard (PipeRead n, o, e)).
    rewrite (IHl (i, PipeWrite n, e) (S n) Hl). destruct (wiring l _ _) as [a n1]. cbn [fst snd].
    rewrite (IHr (PipeRead n, o, e) n1 Hr). destruct (wiring r _ _) as [b n2]. cbn [fst snd]. by rewrite fmap_app.
  - destruct Hc as [Hl Hr]. rewrite (IHl (i, o, e) n Hl). destruct (wiring l _ _) as [a n1]. cbn [fst snd].
    rewrite (IHr (i, o, e) n1 Hr). destruct (wiring r _ _) as [b n2]. cbn [fst snd]. by rewrite fmap_app.
  - exact (IH (i, o, e) n Hc).
Qed.

(** C38: the descriptor juggling of [runcmd] wires commands up as they are
    written: every program of a pipeline, list or redirection starts with the
    standard descriptors the command gives it and no other descriptor open, so
    no pipe end is left behind. *)
Theorem runcmd_wiring c io :
  parsed_redirs c ->
  runcmd c (standard io) 0 = (prod_map id standard <$> (wiring c io 0).1, (wiring c io 0).2).
Proof. apply runcmd_ok. Qed.
End run.

(** [(ls f | wc >out) &]: two programs, joined by pipe 0. *)
Lemma runcmd_wiring_witness :
  runcmd (fun _ _ => true) example_cmd (standard (Inherited 0, Inherited 1, Inherited 2)) 0 =
  ([([[108; 115]; [102]], standard (Inherited 0, PipeWrite 0, Inherited 2));
    ([[119; 99]], standard (PipeRead 0, Opened [111; 117; 116] (Z.lor (Z.lor O_WRONLY O_CREATE) O_TRUNC), Inherited 2))], 1%nat).
Proof.
  apply (runcmd_wiring (fun _ _ => true) example_cmd (Inherited 0, Inherited 1, Inherited 2)). simpl. auto.
Defined.
